(* ===== verification/_CoqProject ===== *)
-Q . S2P
Prelude.v
Abi.v
PortRule.v
Parsing.v
Xdp.v
RStr.v
Pipeline.v
Float.v
RateLimit.v
IpAddr.v
Tables.v
AclMap.v
Event.v
Condition.v
Matcher.v
Soar.v
FloatBounds.v
Fusion.v
DnsFilter.v
Correlation.v
Beaconing.v
FlowTracker.v
Features.v
Identity.v
Users.v
Access.v
Revocation.v
Routes.v
Manifest.v
Onnx.v
Inference.v
Engine.v
ModelConfig.v
Store.v
Promotion.v
Upload.v
AuditChain.v
ProtoFilter.v
Xsk.v
Geo.v
Config.v
Setup.v
Playbooks.v
SystemControl.v
DropMonitor.v
Statistics.v
