(* ===== verification/Prelude.v ===== *)
(** * NetGuardia: verification development

    NetGuardia is a network intrusion prevention system.  XDP programs in the
    kernel parse every packet and drop what access lists, rate limits and
    protocol filters forbid.  The user-space process fills their maps, fuses
    the detections of four sources into threat events, and answers them with
    playbooks: it blocks addresses for a time, reduces rates, and undoes both.
    Paths below are under [src/]; [core], [domain], [adapter], ... are
    directories of [net-guardia/src].

    ** Parts and files

    - [Prelude]: results, the state-and-error monad [sm] with the relational
      lemmas [keeps_*], machine integers with their wrap-around, bytes, shared
      tactics and hint databases.
    - [Abi]: constants and structures shared with the kernel
      (net-guardia-abi/src/define, model).
    - [PortRule]: the fixed array of ports of one address (model/port_rule.rs)
      and its refinement of a finite set.
    - [Parsing]: packet parsing (ebpf/parsing.rs) over a byte list; a read
      outside the packet is a distinct outcome [Fault], which is proved
      unreachable.
    - [Xdp]: the stages of ingress-ebpf/src and egress-ebpf/src over the kernel
      maps, chained by tail calls.
    - [RStr], [IpAddr], [Float], [FloatBounds]: what the sources use of Rust's
      strings, address parser and floats; IEEE 754 comes from the Standard
      Library's [SpecFloat].
    - [Pipeline]: validation of the stage lists and the linking of the programs
      at startup (domain/common/config/pipeline.rs,
      infrastructure/startup/data_plane.rs).
    - [RateLimit]: the rate map, the service that updates it and the task that
      owns automatic reductions (core/data_plane/rate_limit_service.rs,
      core/response/rate_limit_owner.rs).
    - [Tables]: the rows of access rules, blocks, pending unblocks and the
      whitelist (adapter/persistence/acl.rs, soar_block.rs).
    - [AclMap]: the kernel lists behind the control plane and the service that
      keeps lists and rows together (adapter/ebpf/access_control.rs,
      adapter/access_control.rs, core/data_plane/acl_service.rs).
    - [Event]: detections, threat events and canonical attack types.
    - [Condition]: playbooks, their conditions and their validation
      (domain/response).
    - [Matcher]: playbook selection, frequency windows, cooldowns and the dry
      run (core/response/matcher.rs, frequency.rs).
    - [Soar]: the response engine (core/response/actions.rs, engine,
      scheduler.rs, playbook_service.rs).
    - [Fusion]: the orchestrator that turns detections into threat events
      (core/detection/orchestrator.rs, metrics.rs, domain/detection/fusion_math.rs).
    - [DnsFilter]: wire names, the query parser, the suffix filter and the
      service that keeps rows and filter together
      (net-guardia-abi/src/model/dns_name.rs, core/data_plane/dns_filter.rs,
      dns_filter_service.rs).
    - [Correlation]: botnet, scan and lateral-movement detection over flow
      observations (core/correlation).
    - [Beaconing]: detection of regular connections
      (core/detection/beaconing.rs).
    - [FlowTracker]: the user-space packet parser and the tracker of
      bidirectional flows (common/utils/packet_parser.rs,
      domain/detection/flow_tracker.rs, core/inference/flow_tracker.rs).
    - [Features]: the statistics of a flow and the registry of feature names
      (domain/detection/feature_extractor.rs, flow_features.rs).
    - [Identity]: roles and permissions, validation, the comparison of secrets
      and the store of sessions (domain/identity,
      core/identity/session_service.rs).
    - [Users]: the rows of users, groups, login attempts and API keys, and the
      services above them (adapter/persistence/user.rs, api_key.rs,
      core/identity).
    - [Access]: authentication, authorisation and CSRF in front of the API, and
      the endpoints of accounts, groups and keys (adapter/http/middleware,
      adapter/http/identity, adapter/http/session.rs).
    - [Revocation]: the invariants of the identity API as a whole.
    - [Routes]: the registered endpoints, the setup guard, and what each
      endpoint needs (infrastructure/http_server/api_routes.rs,
      adapter/http/middleware/setup_guard.rs).

    - [Manifest], [Onnx], [Inference], [Engine]: detection models.  The manifest
      that describes a model and its validation (domain/detection/manifest.rs);
      the runtime around a plan (interface/detection/model_runtime.rs,
      adapter/model_loading/onnx_runtime.rs); preprocessing, stages, rules and
      the circuit breaker (core/inference/runner.rs, model_adapter.rs); and the
      periodic tick with its confirmations, drift window and alerts
      (core/inference/engine.rs, aggregator.rs, drift_detector.rs, alert.rs).
    - [ModelConfig], [Store], [Promotion], [Upload]: models on disk.  The
      sidecar, the loader and the reload (adapter/model_loading,
      core/inference/model_watcher.rs); the disk, whose operations may fail, and
      the promotion of a staged model with its backups and rollback
      (core/inference/model_promotion.rs, adapter/model_promotion_store.rs);
      the upload of a bundle (adapter/http/detection/model_upload.rs, byo.rs).
    - [AuditChain]: the audit table, its hash chain and the verification
      (adapter/persistence/audit.rs, adapter/http/audit.rs).
    - [ProtoFilter]: the HTTP and SSH filter tables and their endpoints
      (adapter/ebpf/protocol_filter.rs, adapter/http/data_plane/filter.rs).
    - [Xsk]: the AF_XDP forwarding path (adapter/ebpf/xsk_manager.rs).
    - [Geo]: country blocks (adapter/ebpf/geo_block.rs and the service around).
    - [Config]: the [config_settings] macro, every section with its rules,
      loading, and the service that changes settings (macros/src/config.rs,
      domain/common/config, core/common/config_service.rs,
      adapter/persistence/config.rs).
    - [Setup]: the secret store, the setup of a new installation and the start
      around it (adapter/secret_store.rs, core/common/setup_service.rs,
      adapter/http/setup.rs, infrastructure/system).
    - [Playbooks]: the playbooks an operator manages: endpoints, tables, the
      defaults and the reload of the engine (adapter/http/response/soar.rs,
      adapter/persistence/soar.rs, domain/response/defaults.rs).
    - [SystemControl]: the mode of enforcement, the system endpoints, and how a
      run ends (core/common/enforce_mode_handler.rs, adapter/http/system.rs,
      infrastructure/system/mod.rs).
    - [DropMonitor], [Statistics]: what operators see of drops and flows
      (adapter/ebpf/drop_monitor.rs, core/common/statistics.rs).

    ** How they interact

    Detections enter [Fusion.handle_detection]; what it publishes enters
    [Soar.handle_threat_event], which selects playbooks with [Matcher] and acts
    on [AclMap]'s kernel lists, [Tables]' rows and [RateLimit]'s owner.
    [Correlation] and [Beaconing] are two of the detectors that feed it, from
    the flows the inference loop reports; those flows come from
    [FlowTracker.process_packet] and are described to the models by
    [Features.compute].  The
    lists are the maps [Xdp] reads: [AclMap.blocked_ip_is_blacklisted] connects
    a block in user space to the verdict in the kernel.

    The operator's requests pass [Access.serve]: the claims of a session
    ([Identity]) or of an API key ([Users]) must hold the permission of the path,
    then a handler runs; [Access.dispatch] has the handlers of the identity API
    itself, [Routes] the table of all endpoints; [Playbooks], [Upload],
    [ProtoFilter] and [Setup] have the handlers of their parts.  What
    [Playbooks] stores is what [Soar] runs after a reload; what [ProtoFilter] and
    [Geo] write is what [Xdp] reads; [Promotion] puts in place the files
    [ModelConfig] loads, [Inference] runs and [Engine] drives.  [Setup] fills the
    tables of [Users] and [Config] that a start reads; [SystemControl] keeps the
    mode of the engine and that of [Config] together.  [DropMonitor] counts the
    events [Xdp] reports, [Statistics] lists the flows of [FlowTracker].

    ** How the code is modelled

    Handlers keep the order of the source's statements and its early returns.
    State is passed explicitly; fallible handlers are in [sm], where the writes
    made before an error stay.  Calls that leave the process (database, kernel
    maps, mail) take one entry of a list of failures from the world, so every
    theorem about a handler covers every choice of failing calls unless it says
    [calm] (none fails) or [one_fault] (at most one).  Times are integers and a
    handler reads its clocks once.  Kernel maps are finite maps with their
    capacities; eviction from LRU maps is a relation or, for the user-space
    caches, the [lru] crate as a class with its documented laws
    ([Fusion.LruCache], with a list cache as the instance).  Likewise
    [Matcher.SelectNth] and [Features.SelectFloat] stand for the partial
    selection of Rust's standard library, [DnsFilter.Lowercase] for its Unicode
    lower-casing, [Condition.JsonValue] and [Users.SerdeJson] for serde_json,
    [Users.PasswordHasher] for argon2 and [Access.ApiKeyHasher] for the HMAC of
    API keys, [AuditChain.Sha256] for SHA-256, [Xsk.XskRings] for the rings of
    the kernel, [Geo.GeoReader] for the GeoIP database and the class of [Setup]
    for the sealing of secrets; random tokens and salts are arguments of a request, and requests
    run one after the other.  The order in which a
    hash map or a cache iterates is an argument of the operations that depend on
    it, and an eviction by the flow cache is a step of its own.

    Fuel appears in four places: the tail calls of [Xdp.tail_call] carry the kernel's
    own limit of nested calls, the loops over array slots carry the array
    bound, and the digit printer of [IpAddr] carries more than the digits of a
    128-bit number, and the loops over a stored DNS name carry one more than the
    labels 128 bytes can hold, which [DnsFilter.name_loops_terminate] shows to
    be enough.  Nothing else is bounded.

    ** What is shown

    - Kernel: parsing never leaves the packet and inverts the layout of a TCP
      frame; every drop is justified by a list, a protocol rule or the counter
      of its source as it stands when the packet comes, and is reported while
      the ring buffer has room; the rate limiter admits exactly the limit in a window and
      sources do not take each other's share; the configured pipeline equals
      the composition of its stages.
    - Rules and limits: the port rule refines a finite set; adding and removing
      rules change exactly what they name, or nothing on an error; rate updates
      are all or nothing and adjustments are undone.
    - Playbooks: validated conditions evaluate, network patterns match their
      prefix, frequency conditions count their window, cooldowns survive the
      cleanup, the dry run predicts the selection.
    - Response: the block count equals the open blocks and respects the cap in
      every run, also under contention of the compare-and-swap loops; a block
      of an address not listed before is all or nothing; sweeps close what expired, recovery restores what is
      active, retries come to an end, which a failing call delays by one round
      at most; monitor mode and the whitelist keep the
      enforcement untouched; a playbook runs once per cooldown.
    - Fusion: an event is published exactly for a new entry or a new source, at
      most four times per window, with one to four sources and a confidence in
      the unit interval.
    - DNS filter: a frame is reported exactly when its question ends in a listed
      domain; names survive the way to the wire and back; the loops over stored
      names end; adding domains keeps rows and filter together.
    - Detectors: what the correlation engine sends is justified by distinct
      members seen inside the window, and alerts of a key are spaced; beaconing
      reports exactly the flows that are due, once per cooldown.
    - Flows: the user-space parser stays inside the frame; the tracker accounts
      for every packet; the skewness computed by partial selection is that of
      the sorted values; a feature vector holds what its names say.
    - Identity: a session is honoured only while it lives; of attempts served
      one after the other at most five wrong passwords are tried within a
      lockout period; a handler runs only for
      claims that hold the permission of its path, and with the session's CSRF
      token; every registered endpoint, spelled literally, is guarded; the
      built-in administrator survives every run of requests, whatever fails;
      handlers that refuse change nothing; and while calls do not fail, sessions carry the rights their
      users have now.
    - Models: an accepted manifest has an order of its stages and, where its
      names are unambiguous, refers only to what exists; ordering ends and decides; a loaded model gives one result
      for each flow and flags exactly where a rule fires; a tick always ends and
      alerts only on candidates; the drift window is exact; a promotion or an
      upload swaps all files of a model or keeps all of them.
    - Control plane: the filters listed are the filters enforced; blocked
      countries are stored and, where their networks fit the kernel's tries,
      dropped; frames of AF_XDP memory have one owner and, through frames that
      are empty, packets are forwarded in order; the audit chain verifies after
      any statements, and its last hash binds the log up to a collision of two
      of its rows.
    - Installation: a configuration update takes effect or changes nothing;
      setup succeeds at most once, and after it the program starts with what
      was submitted; the engine runs the playbooks that are stored; the mode
      shown, stored and acted on is one while changes do not cross; every drop
      that was reported is counted.
    - Findings: theorems marked as such exhibit runs in which the code does not
      keep what its names promise.

    ** What is not modelled

    The endpoints that only list or pass through, reporting and notifications,
    measurements of the machine, the persistence of statistics, log levels, the
    command line and the wiring of tasks and channels are input and output
    around the modelled parts.
    Plans of models run in the ONNX library; cryptography, JSON, archives and
    the GeoIP database are libraries, present as classes with laws.  Log
    statements are left out, and text that only informs a reader is reduced to
    its constructor.  Database times are seconds, which agrees with the text
    comparison of SQLite for years of four digits. *)

From Stdlib Require Import ZArith Lia List Sorted.
From stdpp Require Import base list gmap strings.

Local Open Scope Z_scope.

(** ** Results: the shape of Rust's [Result<T, E>] *)

Inductive result (E A : Type) : Type :=
  | Ok (val : A)
  | Err (err : E).
Arguments Ok {E A} val.
Arguments Err {E A} err.

Declare Scope ng_scope.
Delimit Scope ng_scope with ng.
Open Scope ng_scope.

Definition res_bind {E A B} (r : result E A) (f : A -> result E B) : result E B :=
  match r with
  | Ok a => f a
  | Err e => Err e
  end.

Lemma res_bind_ok {E A B} (r : result E A) (f : A -> result E B) (b : B) :
  res_bind r f = Ok b <-> exists a, r = Ok a /\ f a = Ok b.
Proof. destruct r as [a|e]; simpl; [|naive_solver]. split; [by exists a|]. by intros (? & [= ->] & ?). Qed.
Lemma res_bind_inv {E A B} (r : result E A) (f : A -> result E B) (b : B) :
  res_bind r f = Ok b -> exists a, r = Ok a /\ f a = Ok b.
Proof. apply res_bind_ok. Qed.

(** The [?] operator: continue with the value or return the error. *)
Notation "'let?' x := r 'in' k" := (res_bind r (fun x => k))
  (at level 10, x name, r at level 100, k at level 200) : ng_scope.

(** [let-else] on options: continue with the payload or return [d]. *)
Notation "'let!' x := o 'else' d 'in' k" :=
  (match o with Some x => k | None => d end)
  (at level 10, x pattern, o at level 100, d at level 100, k at level 200) : ng_scope.

Definition is_ok {E A} (r : result E A) : bool :=
  match r with Ok _ => true | Err _ => false end.

Definition res_to_option {E A} (r : result E A) : option A :=
  match r with Ok a => Some a | Err _ => None end.

#[export] Instance result_eq_dec {E A} `{EqDecision E} `{EqDecision A} :
  EqDecision (result E A).
Proof. solve_decision. Defined.

(** ** State and errors

    An operation that reads and writes a world [S] and may fail with [E]; the
    writes made before a failure stay. *)

Definition sm (S E A : Type) : Type := S -> result E A * S.
Definition sm_ret {S E A} (a : A) : sm S E A := fun w => (Ok a, w).
Definition sm_fail {S E A} (e : E) : sm S E A := fun w => (Err e, w).
Definition sm_bind {S E A B} (m : sm S E A) (f : A -> sm S E B) : sm S E B := fun w =>
  match m w with
  | (Ok a, w) => f a w
  | (Err e, w) => (Err e, w)
  end.
(** The outcome as a value: [let r = m;] without [?]. *)
Definition sm_try {S E E' A} (m : sm S E A) : sm S E' (result E A) := fun w =>
  let '(r, w) := m w in (Ok r, w).
Definition sm_lift {S E A} (r : result E A) : sm S E A := fun w => (r, w).
Definition sm_get {S E} : sm S E S := fun w => (Ok w, w).
Definition sm_put {S E} (w : S) : sm S E unit := fun _ => (Ok tt, w).
Definition sm_modify {S E} (f : S -> S) : sm S E unit := fun w => (Ok tt, f w).

Notation "'do!' x := m 'in' k" := (sm_bind m (fun x => k))
  (at level 10, x pattern, m at level 100, k at level 200) : ng_scope.
Notation "'run!' m 'in' k" := (sm_bind m (fun _ => k))
  (at level 10, m at level 100, k at level 200) : ng_scope.

Lemma sm_bind_assoc {S E A B C} (m : sm S E A) (f : A -> sm S E B) (k : B -> sm S E C) (w : S) :
  sm_bind (sm_bind m f) k w = sm_bind m (fun a => sm_bind (f a) k) w.
Proof. unfold sm_bind. by destruct (m w) as [[a|e] w']. Qed.

Fixpoint sm_iter {S E A} (f : A -> sm S E unit) (l : list A) : sm S E unit :=
  match l with
  | [] => sm_ret tt
  | x :: l => run! f x in sm_iter f l
  end.

(** What an operation does to the world, on success and on failure, when the
    effect is a relation closed under composition. *)
Section Keeps.
Context {S E : Type} (R : S -> S -> Prop) `{!PreOrder R}.

Definition keeps {A} (m : sm S E A) : Prop := forall w, R w (m w).2.

Lemma keeps_ret {A} (a : A) : keeps (sm_ret a).
Proof. intros w. simpl. reflexivity. Qed.
Lemma keeps_fail {A} (e : E) : keeps (sm_fail (A := A) e).
Proof. intros w. simpl. reflexivity. Qed.
Lemma keeps_lift {A} (r : result E A) : keeps (sm_lift r).
Proof. intros w. simpl. reflexivity. Qed.
Lemma keeps_get : keeps sm_get.
Proof. intros w. simpl. reflexivity. Qed.
Lemma keeps_modify (f : S -> S) : (forall w, R w (f w)) -> keeps (sm_modify f).
Proof. intros Hf w. apply Hf. Qed.
Lemma keeps_bind {A B} (m : sm S E A) (f : A -> sm S E B) :
  keeps m -> (forall a, keeps (f a)) -> keeps (sm_bind m f).
Proof.
  intros Hm Hf w. unfold sm_bind. specialize (Hm w). destruct (m w) as [[a|e] w']; [|done].
  etransitivity; [done|]. apply Hf.
Qed.
(** The continuation may use what was read. *)
Lemma keeps_get_bind {B} (f : S -> sm S E B) :
  (forall w, R w (f w w).2) -> keeps (sm_bind sm_get f).
Proof. intros Hf w. apply Hf. Qed.
Lemma keeps_iter {A} (f : A -> sm S E unit) (l : list A) : (forall x, keeps (f x)) -> keeps (sm_iter f l).
Proof. intros Hf. induction l as [|x l IH]; [apply keeps_ret|]. by apply keeps_bind. Qed.
End Keeps.

Lemma keeps_try {S E E' A} (R : S -> S -> Prop) (m : sm S E A) :
  keeps R m -> keeps R (sm_try (E' := E') m).
Proof. intros Hm w. unfold sm_try. specialize (Hm w). by destruct (m w). Qed.

(** ** Machine integers

    An integer of width [w] is a [Z] in [0, 2^w); every operation that can
    leave the range is written with its wrap-around or saturation. *)

Definition pow2 (w : Z) : Z := 2 ^ w.
Definition wrap (w x : Z) : Z := x mod pow2 w.
Definition umax (w : Z) : Z := pow2 w - 1.
Definition in_width (w x : Z) : Prop := 0 <= x < pow2 w.
Definition wrapping_add (w a b : Z) : Z := wrap w (a + b).
Definition wrapping_sub (w a b : Z) : Z := wrap w (a - b).
Definition wrapping_mul (w a b : Z) : Z := wrap w (a * b).
Definition saturating_add (w a b : Z) : Z := Z.min (umax w) (a + b).
Definition saturating_sub (a b : Z) : Z := Z.max 0 (a - b).
Definition saturating_mul (w a b : Z) : Z := Z.min (umax w) (a * b).

#[export] Instance in_width_dec (w x : Z) : Decision (in_width w x).
Proof. unfold in_width; apply _. Defined.

Lemma pow2_pos (w : Z) : 0 <= w -> 0 < pow2 w.
Proof. intros; unfold pow2; apply Z.pow_pos_nonneg; lia. Qed.

Lemma wrap_in_width (w x : Z) : 0 <= w -> in_width w (wrap w x).
Proof. intros; unfold in_width, wrap; apply Z.mod_pos_bound, pow2_pos; lia. Qed.

Lemma wrap_small (w x : Z) : in_width w x -> wrap w x = x.
Proof. intros [? ?]; unfold wrap; apply Z.mod_small; lia. Qed.

Lemma saturating_sub_le (a b : Z) : 0 <= a -> 0 <= b -> 0 <= saturating_sub a b <= a.
Proof. unfold saturating_sub; lia. Qed.

Lemma saturating_add_in_width (w a b : Z) :
  0 <= w -> 0 <= a -> 0 <= b -> in_width w (saturating_add w a b).
Proof.
  intros Hw Ha Hb. pose proof (pow2_pos w Hw).
  unfold in_width, saturating_add, umax; lia.
Qed.

Lemma lxor_in_width (w a b : Z) :
  0 <= w -> in_width w a -> in_width w b -> in_width w (Z.lxor a b).
Proof.
  intros Hw [Ha1 Ha2] [Hb1 Hb2]; unfold in_width, pow2 in *.
  assert (0 <= Z.lxor a b) by (apply Z.lxor_nonneg; lia).
  split; [done|].
  destruct (Z.eq_dec (Z.lxor a b) 0) as [->|Hn]; [apply Z.pow_pos_nonneg; lia|].
  destruct (Z.eq_dec a 0) as [->|Ha0]; [by rewrite Z.lxor_0_l|].
  destruct (Z.eq_dec b 0) as [->|Hb0]; [by rewrite Z.lxor_0_r|].
  apply Z.log2_lt_pow2; [lia|].
  apply Z.log2_lt_pow2 in Ha2; [|lia]. apply Z.log2_lt_pow2 in Hb2; [|lia].
  pose proof (Z.log2_lxor a b Ha1 Hb1). lia.
Qed.

(** ** Bytes *)

Definition byte_ok (b : Z) : Prop := 0 <= b < 256.
Abbreviation bytes := (list Z) (only parsing).
Definition bytes_ok (l : bytes) : Prop := Forall byte_ok l.

(** [uN::from_be_bytes]: the first byte is the most significant. *)
Definition from_be_bytes (l : bytes) : Z := fold_left (fun acc b => acc * 256 + b) l 0.
(** [uN::from_ne_bytes] on the little-endian targets NetGuardia supports. *)
Fixpoint from_ne_bytes (l : bytes) : Z :=
  match l with
  | [] => 0
  | b :: l => b + 256 * from_ne_bytes l
  end.
(** [uN::to_ne_bytes], [n] bytes. *)
Fixpoint to_ne_bytes (n : nat) (x : Z) : bytes :=
  match n with
  | O => []
  | S n => x mod 256 :: to_ne_bytes n (x / 256)
  end.

Lemma to_ne_bytes_length (n : nat) (x : Z) : length (to_ne_bytes n x) = n.
Proof. revert x; induction n as [|n IH]; intros x; simpl; [done|by rewrite IH]. Qed.

Lemma to_ne_bytes_ok (n : nat) (x : Z) : bytes_ok (to_ne_bytes n x).
Proof.
  revert x; induction n as [|n IH]; intros x; simpl; constructor; [|apply IH].
  apply Z.mod_pos_bound; lia.
Qed.

Lemma from_ne_bytes_bound (l : bytes) :
  bytes_ok l -> 0 <= from_ne_bytes l < 256 ^ Z.of_nat (length l).
Proof.
  induction 1 as [|b l Hb Hl IH]; simpl length; [simpl; lia|].
  rewrite Nat2Z.inj_succ, Z.pow_succ_r by lia. simpl. unfold byte_ok in Hb. lia.
Qed.

Lemma from_to_ne_bytes (n : nat) (x : Z) :
  0 <= x < 256 ^ Z.of_nat n -> from_ne_bytes (to_ne_bytes n x) = x.
Proof.
  revert x; induction n as [|n IH]; intros x.
  - simpl. lia.
  - rewrite Nat2Z.inj_succ, Z.pow_succ_r by lia. intros Hx. simpl.
    rewrite IH; [pose proof (Z.div_mod x 256); lia|].
    split; [apply Z.div_pos; lia|apply Z.div_lt_upper_bound; lia].
Qed.

Lemma to_from_ne_bytes (l : bytes) :
  bytes_ok l -> to_ne_bytes (length l) (from_ne_bytes l) = l.
Proof.
  induction 1 as [|b l Hb Hl IH]; simpl; [done|]. unfold byte_ok in Hb.
  replace (b + 256 * from_ne_bytes l) with (from_ne_bytes l * 256 + b) by lia.
  rewrite Z.div_add_l, (Z.div_small b) by lia.
  rewrite Z.add_comm, Z.mod_add, Z.mod_small by lia.
  by rewrite Z.add_0_r, IH.
Qed.

Lemma from_ne_bytes_inj (l k : bytes) :
  bytes_ok l -> bytes_ok k -> length l = length k ->
  from_ne_bytes l = from_ne_bytes k -> l = k.
Proof.
  intros Hl Hk Hlen Heq.
  by rewrite <- (to_from_ne_bytes l Hl), <- (to_from_ne_bytes k Hk), Hlen, Heq.
Qed.

(** A byte-string literal, [b"..."]. *)
Fixpoint str_bytes (s : string) : bytes :=
  match s with
  | EmptyString => []
  | String c s => Z.of_nat (Ascii.nat_of_ascii c) :: str_bytes s
  end.

Lemma str_bytes_inj (a b : string) : str_bytes a = str_bytes b -> a = b.
Proof.
  revert b. induction a as [|c a IH]; intros [|d b]; try done. simpl. intros [= Hc Hab].
  apply Nat2Z.inj in Hc. f_equal; [|by apply IH].
  by rewrite <- (Ascii.ascii_nat_embedding c), <- (Ascii.ascii_nat_embedding d), Hc.
Qed.

(** ** Lists *)

Lemma filter_length_le {A} (P : A -> Prop) `{!forall x, Decision (P x)} (l : list A) :
  (length (filter P l) <= length l)%nat.
Proof. induction l as [|x l IH]; simpl; [done|]. rewrite filter_cons; case_decide; simpl; lia. Qed.

Lemma filter_id {A} (P : A -> Prop) `{!forall x, Decision (P x)} (l : list A) :
  Forall P l -> filter P l = l.
Proof. induction 1 as [|x l Hx Hl IH]; [done|]. by rewrite filter_cons_True, IH. Qed.

Lemma filter_none {A} (P : A -> Prop) `{!forall x, Decision (P x)} (l : list A) : Forall (fun x => ~ P x) l -> filter P l = [].
Proof. induction 1 as [|x l Hx Hl IH]; [done|]. by rewrite filter_cons, decide_False, IH. Qed.

(** ** Stable sorting by a key

    Ordering by a second key and then by the first orders by both. *)

Fixpoint insert_by {A : Type} (key : A -> Z) (x : A) (l : list A) : list A :=
  match l with
  | [] => [x]
  | y :: l => if key x <=? key y then x :: y :: l else y :: insert_by key x l
  end.
Definition order_by {A : Type} (key : A -> Z) (l : list A) : list A := fold_right (insert_by key) [] l.

Section Order.
Context {A : Type} (key : A -> Z).

Definition ordered (l : list A) : Prop := StronglySorted (fun x y => key x <= key y) l.

Lemma order_by_cons x l : order_by key (x :: l) = insert_by key x (order_by key l).
Proof. done. Qed.
Lemma insert_by_head x l : Forall (fun y => key x <= key y) l -> insert_by key x l = x :: l.
Proof. destruct l as [|y l]; [done|]. intros [Hxy _]%Forall_cons. cbn. by replace (key x <=? key y) with true by (symmetry; by apply Z.leb_le). Qed.
Lemma order_by_ordered l : ordered l -> order_by key l = l.
Proof.
  induction l as [|x l IH]; [done|]. intros Ho. inversion Ho as [|? ? Ho' Hx]; subst. rewrite order_by_cons, (IH Ho'). by apply insert_by_head.
Qed.
Lemma insert_by_in x y l : y ∈ insert_by key x l <-> y = x \/ y ∈ l.
Proof.
  induction l as [|z l IH]; cbn; [by rewrite elem_of_cons|]. destruct (key x <=? key z); rewrite !elem_of_cons; [done|]. rewrite IH. tauto.
Qed.
Lemma order_by_in y l : y ∈ order_by key l <-> y ∈ l.
Proof. induction l as [|x l IH]; [done|]. by rewrite order_by_cons, insert_by_in, elem_of_cons, IH. Qed.
Lemma insert_by_perm x l : insert_by key x l ≡ₚ x :: l.
Proof. induction l as [|y l IH]; cbn; [done|]. destruct (key x <=? key y); [done|]. rewrite IH. apply Permutation_swap. Qed.
Lemma order_by_perm l : order_by key l ≡ₚ l.
Proof. induction l as [|x l IH]; [done|]. by rewrite order_by_cons, insert_by_perm, IH. Qed.
Lemma insert_by_ordered x l : ordered l -> ordered (insert_by key x l).
Proof.
  induction l as [|y l IH]; intros Ho; cbn; [by repeat constructor|]. inversion Ho as [|? ? Ho' Hy]; subst. destruct (key x <=? key y) eqn:Hxy.
  - apply Z.leb_le in Hxy. constructor; [done|]. constructor; [done|]. eapply Forall_impl; [exact Hy|]. cbn. lia.
  - apply Z.leb_gt in Hxy. constructor; [by apply IH|]. apply Forall_forall. intros z [->|Hz]%insert_by_in; [lia|]. rewrite Forall_forall in Hy. by apply Hy.
Qed.
Lemma order_by_is_ordered l : ordered (order_by key l).
Proof. induction l as [|x l IH]; [constructor|]. rewrite order_by_cons. by apply insert_by_ordered. Qed.
(** Rows with equal keys stay in their order. *)
Lemma insert_by_filter k x l : filter (fun y => key y = k) (insert_by key x l) = filter (fun y => key y = k) (x :: l).
Proof.
  induction l as [|y l IH]; [done|]. cbn [insert_by]. destruct (key x <=? key y) eqn:Hxy; [done|]. apply Z.leb_gt in Hxy.
  rewrite !filter_cons. rewrite filter_cons in IH. rewrite IH. destruct (decide (key x = k)), (decide (key y = k)); try done. lia.
Qed.
Lemma order_by_filter k l : filter (fun y => key y = k) (order_by key l) = filter (fun y => key y = k) l.
Proof. induction l as [|x l IH]; [done|]. by rewrite order_by_cons, insert_by_filter, !filter_cons, IH. Qed.
Lemma ordered_filter (P : A -> Prop) `{!forall x, Decision (P x)} l : ordered l -> ordered (filter P l).
Proof.
  induction 1 as [|x l Ho IH Hx]; [constructor|]. rewrite filter_cons. destruct (decide (P x)); [|done]. constructor; [done|].
  apply Forall_forall. intros y [_ Hy]%list_elem_of_filter. rewrite Forall_forall in Hx. by apply Hx.
Qed.
Lemma ordered_app l x : ordered l -> Forall (fun y => key y <= key x) l -> ordered (l ++ [x])%list.
Proof.
  induction 1 as [|y l Ho IH Hy]; intros Hl; [by repeat constructor|]. apply Forall_cons in Hl as [Hyx Hl]. cbn. constructor; [by apply IH|].
  apply Forall_app. split; [done|]. by apply Forall_singleton.
Qed.
End Order.

(** ** Automation *)

Create HintDb keeps.
#[export] Hint Resolve keeps_ret keeps_fail keeps_lift keeps_get keeps_try keeps_iter : keeps.

Create HintDb ng.
#[export] Hint Resolve pow2_pos wrap_in_width to_ne_bytes_ok to_ne_bytes_length : ng.
Create Rewrite HintDb ng.
#[export] Hint Rewrite @to_ne_bytes_length : ng.

(** Case on the scrutinee of an [if] or [match] that blocks the goal. *)
Ltac split_match :=
  match goal with
  | |- context [match ?x with _ => _ end] => destruct x eqn:?
  | H : context [match ?x with _ => _ end] |- _ => destruct x eqn:?
  end.

(** Turn boolean comparisons in the context into propositions. *)
Ltac bool_to_prop :=
  repeat match goal with
  | H : andb _ _ = true |- _ => apply andb_true_iff in H; destruct H
  | H : orb _ _ = false |- _ => apply orb_false_iff in H; destruct H
  | H : negb _ = true |- _ => apply negb_true_iff in H
  | H : negb _ = false |- _ => apply negb_false_iff in H
  | H : Z.eqb _ _ = true |- _ => apply Z.eqb_eq in H
  | H : Z.eqb _ _ = false |- _ => apply Z.eqb_neq in H
  | H : Z.ltb _ _ = true |- _ => apply Z.ltb_lt in H
  | H : Z.ltb _ _ = false |- _ => apply Z.ltb_ge in H
  | H : Z.leb _ _ = true |- _ => apply Z.leb_le in H
  | H : Z.leb _ _ = false |- _ => apply Z.leb_gt in H
  | H : bool_decide _ = true |- _ => apply bool_decide_eq_true in H
  | H : bool_decide _ = false |- _ => apply bool_decide_eq_false in H
  end.

(** [keeps] goals: through binds and branches down to the single operations. *)
Ltac keeps_step :=
  match goal with
  | |- keeps _ (sm_bind _ _) => apply keeps_bind; [typeclasses eauto| |intros ?]
  | |- keeps _ (sm_try _) => apply keeps_try
  | |- keeps _ (sm_iter _ _) => apply keeps_iter; [typeclasses eauto|intros ?]
  | |- keeps _ (match ?x with _ => _ end) => destruct x eqn:?
  | |- keeps _ (let '_ := ?x in _) => destruct x eqn:?
  | |- _ => progress cbv beta zeta
  | |- _ => by eauto with keeps typeclass_instances
  end.
Ltac keeps_tac := repeat keeps_step.

(** Finish goals about nested early returns. *)
Ltac by_cases := repeat (split_match; simplify_eq/=); bool_to_prop; try done; try lia.
