(* ===== verification/Abi.v ===== *)
(** * The kernel/user ABI ([net-guardia-abi])

    Constants, the parsed-packet record, port rules, socket-address keys, the
    HTTP method bitmap.  [Module PortRule] is shared by the kernel programs
    (which read rules) and by the control plane (which edits them). *)

From Stdlib Require Import ZArith Lia List.
From stdpp Require Import base list gmap.
From S2P Require Import Prelude.

Local Open Scope Z_scope.

(** ** Settings, stages, drop reasons, TCP flags *)

Definition MAX_RULES_PORT : nat := 32.
Definition DEFAULT_WINDOW_NS : Z := 1000000000.
Definition DEFAULT_PACKET_RATE : Z := 10000.
Definition DEFAULT_SYN_RATE : Z := 100.
Definition DEFAULT_UDP_RATE : Z := 5000.
Definition DEFAULT_DNS_RATE : Z := 200.

Definition CFG_PACKET_RATE : Z := 0.
Definition CFG_SYN_RATE : Z := 1.
Definition CFG_UDP_RATE : Z := 2.
Definition CFG_DNS_RATE : Z := 3.
Definition CFG_WINDOW_NS : Z := 4.

Definition MAX_STAGES : Z := 8.
Definition STAGE_NONE : Z := umax 32.
Definition STAGE_ENTRY : Z := 0.
Definition STAGE_ACCESS_CONTROL : Z := 1.
Definition STAGE_RATE_LIMIT : Z := 2.
Definition STAGE_SERVICE : Z := 3.
Definition STAGE_TRANSMISSION : Z := 7.

Definition DROP_REASON_ACL_BLACKLIST : Z := 1.
Definition DROP_REASON_RATE_LIMIT_PKT : Z := 2.
Definition DROP_REASON_RATE_LIMIT_SYN : Z := 3.
Definition DROP_REASON_RATE_LIMIT_UDP : Z := 4.
Definition DROP_REASON_RATE_LIMIT_DNS : Z := 5.
Definition DROP_REASON_PROTOCOL_FILTER : Z := 6.
Definition DROP_REASON_GEO_BLOCK : Z := 7.
Definition DROP_REASON_DNS_BLACKLIST : Z := 8.

Definition TCP_FIN : Z := 1.
Definition TCP_SYN : Z := 2.
Definition TCP_RST : Z := 4.
Definition TCP_PSH : Z := 8.
Definition TCP_ACK : Z := 16.
Definition TCP_URG : Z := 32.
Definition TCP_ECE : Z := 64.
Definition TCP_CWR : Z := 128.

(** [flags & mask != 0] *)
Definition has_flag (flags mask : Z) : bool := negb (Z.land flags mask =? 0).

(** ** IP versions *)

Inductive IpVersion : Type := V4 | V6.

#[export] Instance IpVersion_eq_dec : EqDecision IpVersion.
Proof. solve_decision. Defined.

Definition as_u8 (v : IpVersion) : Z := match v with V4 => 4 | V6 => 6 end.

Definition from_u8 (value : Z) : option IpVersion :=
  if value =? 4 then Some V4 else if value =? 6 then Some V6 else None.

Lemma from_as_u8 (v : IpVersion) : from_u8 (as_u8 v) = Some v.
Proof. by destruct v. Qed.

(** ** Socket-address keys of the kernel maps *)

(** [AddrPortV4::new]: four address bytes, two port bytes, two zero bytes. *)
Definition AddrPortV4_new (ip port : Z) : bytes :=
  to_ne_bytes 4 ip ++ to_ne_bytes 2 port ++ [0; 0].
Definition AddrPortV4_ip (k : bytes) : Z := from_ne_bytes (take 4 k).
Definition AddrPortV4_port (k : bytes) : Z := from_ne_bytes (take 2 (drop 4 k)).

Definition AddrPortV6_new (ip port : Z) : bytes :=
  to_ne_bytes 16 ip ++ to_ne_bytes 2 port ++ replicate 14 0.
Definition AddrPortV6_ip (k : bytes) : Z := from_ne_bytes (take 16 k).
Definition AddrPortV6_port (k : bytes) : Z := from_ne_bytes (take 2 (drop 16 k)).

Lemma AddrPortV4_ip_new (ip port : Z) :
  in_width 32 ip -> AddrPortV4_ip (AddrPortV4_new ip port) = ip.
Proof.
  intros Hip. unfold AddrPortV4_ip, AddrPortV4_new.
  rewrite take_app_le by (rewrite to_ne_bytes_length; lia).
  rewrite take_ge by (rewrite to_ne_bytes_length; lia).
  apply from_to_ne_bytes, Hip.
Qed.

Lemma AddrPortV4_port_new (ip port : Z) :
  in_width 16 port -> AddrPortV4_port (AddrPortV4_new ip port) = port.
Proof.
  intros Hp. unfold AddrPortV4_port, AddrPortV4_new.
  rewrite drop_app_length' by (by rewrite to_ne_bytes_length).
  rewrite take_app_length' by (by rewrite to_ne_bytes_length).
  apply from_to_ne_bytes, Hp.
Qed.

Lemma AddrPortV6_ip_new (ip port : Z) :
  in_width 128 ip -> AddrPortV6_ip (AddrPortV6_new ip port) = ip.
Proof.
  intros Hip. unfold AddrPortV6_ip, AddrPortV6_new.
  rewrite take_app_length' by (by rewrite to_ne_bytes_length).
  apply from_to_ne_bytes, Hip.
Qed.

(** ** The parsed packet *)

Record ParsedPacket : Type := mk_ParsedPacket {
  timestamp_ns : Z;
  src_ip : bytes;          (* 16 bytes *)
  dst_ip : bytes;          (* 16 bytes *)
  packet_length : Z;
  payload_length : Z;
  src_port : Z;
  dst_port : Z;
  ip_version : Z;
  protocol : Z;
  tcp_flags : Z;
}.

(** [core::mem::zeroed::<ParsedPacket>()] *)
Definition zeroed_packet : ParsedPacket :=
  mk_ParsedPacket 0 (replicate 16 0) (replicate 16 0) 0 0 0 0 0 0 0.

Definition src_ip_v4 (p : ParsedPacket) : Z := from_ne_bytes (take 4 (src_ip p)).
Definition dst_ip_v4 (p : ParsedPacket) : Z := from_ne_bytes (take 4 (dst_ip p)).
Definition src_ip_v6 (p : ParsedPacket) : Z := from_ne_bytes (src_ip p).
Definition dst_ip_v6 (p : ParsedPacket) : Z := from_ne_bytes (dst_ip p).
Definition src_addr_v4 (p : ParsedPacket) : bytes := AddrPortV4_new (src_ip_v4 p) (src_port p).
Definition dst_addr_v4 (p : ParsedPacket) : bytes := AddrPortV4_new (dst_ip_v4 p) (dst_port p).
Definition src_addr_v6 (p : ParsedPacket) : bytes := AddrPortV6_new (src_ip_v6 p) (src_port p).
Definition dst_addr_v6 (p : ParsedPacket) : bytes := AddrPortV6_new (dst_ip_v6 p) (dst_port p).

(** Every field within its declared width. *)
Record packet_wf (p : ParsedPacket) : Prop := {
  wf_src : bytes_ok (src_ip p) /\ length (src_ip p) = 16%nat;
  wf_dst : bytes_ok (dst_ip p) /\ length (dst_ip p) = 16%nat;
  wf_packet_length : in_width 32 (packet_length p);
  wf_payload_length : in_width 32 (payload_length p);
  wf_src_port : in_width 16 (src_port p);
  wf_dst_port : in_width 16 (dst_port p);
  wf_ip_version : in_width 8 (ip_version p);
  wf_protocol : in_width 8 (protocol p);
  wf_tcp_flags : in_width 8 (tcp_flags p);
}.

Lemma zeroed_packet_wf : packet_wf zeroed_packet.
Proof.
  constructor; simpl; try (unfold in_width, pow2; lia);
    (split; [repeat constructor; lia|done]).
Qed.

(** ** Drop events *)

Record DropEvent : Type := mk_DropEvent {
  de_timestamp_ns : Z;
  de_src_ip : bytes;
  de_dst_ip : bytes;
  de_src_port : Z;
  de_dst_port : Z;
  de_protocol : Z;
  de_reason : Z;
  de_ip_version : Z;
}.

(** ** HTTP methods *)

Inductive HttpMethod : Type :=
  GET | POST | PUT | DELETE | HEAD | OPTIONS | PATCH | TRACE | CONNECT.

#[export] Instance HttpMethod_eq_dec : EqDecision HttpMethod.
Proof. solve_decision. Defined.

Definition method_bit (m : HttpMethod) : Z :=
  match m with
  | GET => 1 | POST => 2 | PUT => 4 | DELETE => 8 | HEAD => 16
  | OPTIONS => 32 | PATCH => 64 | TRACE => 128 | CONNECT => 256
  end.

Definition all_methods : list HttpMethod :=
  [GET; POST; PUT; DELETE; HEAD; OPTIONS; PATCH; TRACE; CONNECT].

Definition convert_from_bitmap (value : Z) : list HttpMethod :=
  filter (fun m => has_flag value (method_bit m) = true) all_methods.

Definition convert_to_bitmap (ms : list HttpMethod) : Z :=
  fold_left (fun acc m => Z.lor acc (method_bit m)) ms 0.
