(* ===== verification/PortRule.v ===== *)
(** * Port rules ([net-guardia-abi/src/model/port_rule.rs])

    A rule either matches every port or holds up to [MAX_RULES_PORT] ports in
    a fixed array.  The abstract view [rule_set] is "all ports" or a finite
    set; [port_rule_refines] shows that the array operations implement it. *)

From Stdlib Require Import ZArith Lia List.
From stdpp Require Import base list gmap.
From S2P Require Import Prelude Abi.

Local Open Scope Z_scope.

Definition PORT_RULE_MATCH_ALL : Z := 1.

Record PortRule : Type := mk_PortRule {
  match_all : Z;
  count : Z;
  ports : list Z;          (* [Port; MAX_RULES_PORT] *)
}.

Definition new_empty : PortRule := mk_PortRule 0 0 (replicate MAX_RULES_PORT 0).
Definition new_match_all : PortRule :=
  mk_PortRule PORT_RULE_MATCH_ALL 0 (replicate MAX_RULES_PORT 0).

Definition is_match_all (r : PortRule) : bool := match_all r =? PORT_RULE_MATCH_ALL.

(** [for i in 0..count { if i >= MAX { break } if ports[i] == port { return true } }] *)
Fixpoint contains_loop (ps : list Z) (port : Z) (i n : nat) : bool :=
  match n with
  | O => false
  | S n =>
      if (MAX_RULES_PORT <=? i)%nat then false
      else if nth i ps 0 =? port then true
      else contains_loop ps port (S i) n
  end.

Definition contains (r : PortRule) (port : Z) : bool :=
  if is_match_all r then true
  else contains_loop (ports r) port 0 (Z.to_nat (count r)).

(** The scan of [add_port]: [Some b] is an early [return b]. *)
Fixpoint add_scan (ps : list Z) (port : Z) (i n : nat) : option bool :=
  match n with
  | O => None
  | S n =>
      if (MAX_RULES_PORT <=? i)%nat then Some false
      else if nth i ps 0 =? port then Some true
      else add_scan ps port (S i) n
  end.

Definition add_port (r : PortRule) (port : Z) : bool * PortRule :=
  if is_match_all r then (true, r)
  else match add_scan (ports r) port 0 (Z.to_nat (count r)) with
       | Some b => (b, r)
       | None =>
           if Z.of_nat MAX_RULES_PORT <=? count r then (false, r)
           else (true, mk_PortRule (match_all r) (wrapping_add 8 (count r) 1)
                         (<[Z.to_nat (count r) := port]> (ports r)))
       end.

(** [for j in i..(count - 1) { ports[j] = ports[j + 1] }]; [None] is the
    panic of an index out of range. *)
Fixpoint shift_left (ps : list Z) (j n : nat) : option (list Z) :=
  match n with
  | O => Some ps
  | S n =>
      match ps !! S j with
      | Some v => shift_left (<[j := v]> ps) (S j) n
      | None => None
      end
  end.

Fixpoint remove_loop (r : PortRule) (port : Z) (i n : nat) : option (bool * PortRule) :=
  match n with
  | O => Some (false, r)
  | S n =>
      if (MAX_RULES_PORT <=? i)%nat then Some (false, r)
      else if nth i (ports r) 0 =? port then
        match shift_left (ports r) i (Z.to_nat (count r) - 1 - i) with
        | None => None
        | Some ps =>
            let c := count r - 1 in
            match ps !! Z.to_nat c with
            | None => None
            | Some _ => Some (true, mk_PortRule (match_all r) c (<[Z.to_nat c := 0]> ps))
            end
        end
      else remove_loop r port (S i) n
  end.

Definition remove_port (r : PortRule) (port : Z) : option (bool * PortRule) :=
  remove_loop r port 0 (Z.to_nat (count r)).

Definition to_port_vec (r : PortRule) : list Z :=
  take (Nat.min (Z.to_nat (count r)) MAX_RULES_PORT) (ports r).

Definition is_empty (r : PortRule) : bool := negb (is_match_all r) && (count r =? 0).

(** ** The rule as a set *)

Inductive rule_set : Type := AllPorts | Ports (s : gset Z).

Definition rule_denote (r : PortRule) : rule_set :=
  if is_match_all r then AllPorts else Ports (list_to_set (to_port_vec r)).

Definition spec_contains (s : rule_set) (port : Z) : bool :=
  match s with AllPorts => true | Ports s => bool_decide (port ∈ s) end.

Definition spec_add (s : rule_set) (port : Z) : bool * rule_set :=
  match s with
  | AllPorts => (true, AllPorts)
  | Ports s =>
      if bool_decide (port ∈ s) then (true, Ports s)
      else if bool_decide (size s < MAX_RULES_PORT)%nat then (true, Ports ({[port]} ∪ s))
      else (false, Ports s)
  end.

Definition spec_remove (s : rule_set) (port : Z) : bool * rule_set :=
  match s with
  | AllPorts => (false, AllPorts)
  | Ports s => (bool_decide (port ∈ s), Ports (s ∖ {[port]}))
  end.

(** Well-formed rules: what the constructors build and the edits preserve. *)
Record rule_wf (r : PortRule) : Prop := {
  rwf_count : 0 <= count r <= Z.of_nat MAX_RULES_PORT;
  rwf_len : length (ports r) = MAX_RULES_PORT;
  rwf_nodup : NoDup (to_port_vec r);
  rwf_all : is_match_all r = true -> count r = 0;
}.

Lemma new_empty_wf : rule_wf new_empty.
Proof. constructor; simpl; [lia|done|constructor|done]. Qed.

Lemma new_match_all_wf : rule_wf new_match_all.
Proof. constructor; simpl; [lia|done|constructor|done]. Qed.

#[export] Hint Resolve new_empty_wf new_match_all_wf : ng.

(** ** The loops against list membership *)

Lemma contains_loop_spec (ps : list Z) (port : Z) (i n : nat) :
  length ps = MAX_RULES_PORT -> (i + n <= MAX_RULES_PORT)%nat ->
  contains_loop ps port i n = bool_decide (port ∈ take n (drop i ps)).
Proof.
  intros Hlen. revert i; induction n as [|n IH]; intros i Hi; cbn [contains_loop]; [done|].
  destruct (Nat.leb_spec MAX_RULES_PORT i); [lia|].
  destruct (lookup_lt_is_Some_2 ps i) as [x Hx]; [lia|].
  rewrite (nth_lookup_Some _ _ _ _ Hx), (drop_S _ _ _ Hx), IH by lia. cbn [firstn].
  destruct (Z.eqb_spec x port) as [->|Hne].
  - symmetry. apply bool_decide_eq_true_2. set_solver.
  - apply bool_decide_ext. set_solver.
Qed.

Lemma add_scan_spec (ps : list Z) (port : Z) (i n : nat) :
  length ps = MAX_RULES_PORT -> (i + n <= MAX_RULES_PORT)%nat ->
  add_scan ps port i n = if bool_decide (port ∈ take n (drop i ps)) then Some true else None.
Proof.
  intros Hlen. revert i; induction n as [|n IH]; intros i Hi; cbn [add_scan]; [done|].
  destruct (Nat.leb_spec MAX_RULES_PORT i); [lia|].
  destruct (lookup_lt_is_Some_2 ps i) as [x Hx]; [lia|].
  rewrite (nth_lookup_Some _ _ _ _ Hx), (drop_S _ _ _ Hx), IH by lia. cbn [firstn].
  destruct (Z.eqb_spec x port) as [->|Hne].
  - by rewrite bool_decide_eq_true_2 by set_solver.
  - by rewrite (bool_decide_ext (port ∈ x :: take n (drop (S i) ps))
                  (port ∈ take n (drop (S i) ps))) by set_solver.
Qed.

Lemma shift_left_spec (ps : list Z) (j n : nat) :
  (j + n < length ps)%nat ->
  shift_left ps j n = Some (take j ps ++ take n (drop (S j) ps) ++ drop (j + n) ps).
Proof.
  revert ps j; induction n as [|n IH]; intros ps j Hlt; simpl.
  - by rewrite Nat.add_0_r, take_drop.
  - destruct (lookup_lt_is_Some_2 ps (S j)) as [v Hv]; [lia|]. rewrite Hv.
    rewrite IH by (rewrite length_insert; lia). f_equal.
    rewrite (drop_S ps v (S j) Hv). simpl.
    rewrite (take_S_r _ j v) by (apply list_lookup_insert_eq; lia).
    rewrite take_insert_ge, !drop_insert_lt by lia.
    rewrite <- app_assoc. simpl. do 4 f_equal. lia.
Qed.

(** Membership of the live prefix, as the specification sees it. *)
Lemma to_port_vec_wf (r : PortRule) :
  rule_wf r -> to_port_vec r = take (Z.to_nat (count r)) (ports r).
Proof. intros []. unfold to_port_vec. f_equal. lia. Qed.

Lemma rule_size (r : PortRule) :
  rule_wf r -> size (list_to_set (to_port_vec r) : gset Z) = Z.to_nat (count r).
Proof.
  intros Hwf. destruct (Hwf) as [Hc Hl Hn _].
  rewrite size_list_to_set by done. rewrite to_port_vec_wf, length_take by done. lia.
Qed.

Lemma contains_refines (r : PortRule) (port : Z) :
  rule_wf r -> contains r port = spec_contains (rule_denote r) port.
Proof.
  intros Hwf. destruct (Hwf) as [Hc Hl _ _].
  unfold contains, rule_denote. destruct (is_match_all r); simpl; [done|].
  rewrite contains_loop_spec, drop_0, <- to_port_vec_wf by (done || lia).
  apply bool_decide_ext. by rewrite elem_of_list_to_set.
Qed.

Lemma add_port_refines (r : PortRule) (port : Z) :
  rule_wf r ->
  rule_wf (add_port r port).2 /\
  spec_add (rule_denote r) port = ((add_port r port).1, rule_denote (add_port r port).2).
Proof.
  intros Hwf. destruct (Hwf) as [Hc Hl Hn Ha].
  unfold add_port, rule_denote. destruct (is_match_all r) eqn:Hall; simpl; [by rewrite Hall|].
  rewrite add_scan_spec, drop_0, <- to_port_vec_wf by (done || lia).
  rewrite (bool_decide_ext (port ∈ list_to_set (to_port_vec r)) (port ∈ to_port_vec r))
    by (by rewrite elem_of_list_to_set).
  rewrite rule_size by done.
  case_bool_decide as Hin; simpl; [by rewrite Hall|].
  destruct (Z.leb_spec (Z.of_nat MAX_RULES_PORT) (count r)) as [Hge|Hlt]; simpl.
  - rewrite bool_decide_eq_false_2 by lia. by rewrite Hall.
  - rewrite bool_decide_eq_true_2 by lia.
    set (r' := mk_PortRule _ _ _).
    assert (count r' = count r + 1) as Hc'.
    { unfold r', wrapping_add; simpl. unfold MAX_RULES_PORT in *.
      rewrite wrap_small; [done|unfold in_width, pow2; lia]. }
    assert (is_match_all r' = false) as Hall' by done.
    assert (to_port_vec r' = to_port_vec r ++ [port]) as Hvec.
    { unfold to_port_vec at 1. rewrite Hc', to_port_vec_wf by done.
      replace (Nat.min _ _) with (S (Z.to_nat (count r))) by lia. simpl.
      rewrite (take_S_r _ _ port) by (apply list_lookup_insert_eq; lia).
      by rewrite take_insert_ge by lia. }
    split.
    + constructor; [lia| | |by rewrite Hall'].
      * simpl. by rewrite length_insert.
      * rewrite Hvec. apply NoDup_app; split_and!; [done|set_solver|apply NoDup_singleton].
    + rewrite Hall', Hvec. repeat f_equal. set_solver.
Qed.

Lemma remove_loop_spec (r : PortRule) (port : Z) (i n : nat) :
  rule_wf r -> (i + n = Z.to_nat (count r))%nat -> port ∉ take i (ports r) ->
  (port ∉ take n (drop i (ports r)) /\ remove_loop r port i n = Some (false, r)) \/
  (exists k r', (k < Z.to_nat (count r))%nat /\ ports r !! k = Some port /\
    remove_loop r port i n = Some (true, r') /\ match_all r' = match_all r /\
    count r' = count r - 1 /\ length (ports r') = MAX_RULES_PORT /\
    to_port_vec r' = delete k (to_port_vec r)).
Proof.
  intros Hwf. destruct (Hwf) as [Hc Hl _ _]. revert i.
  induction n as [|n IH]; intros i Hi Hnot; cbn [remove_loop].
  { left. split; [set_solver|done]. }
  destruct (Nat.leb_spec MAX_RULES_PORT i); [lia|].
  destruct (lookup_lt_is_Some_2 (ports r) i) as [x Hx]; [lia|].
  rewrite (nth_lookup_Some _ _ _ _ Hx).
  destruct (Z.eqb_spec x port) as [->|Hne].
  - right. rewrite shift_left_spec by lia.
    set (ps := take i (ports r) ++ _).
    assert (length ps = MAX_RULES_PORT) as Hps.
    { unfold ps. rewrite !length_app, !length_take, !length_drop. lia. }
    destruct (lookup_lt_is_Some_2 ps (Z.to_nat (count r - 1))) as [y ->]; [lia|].
    exists i. eexists; split_and!; [lia|done|done|done|done|by cbn; rewrite length_insert|].
    unfold to_port_vec; cbn [count ports].
    replace (Nat.min _ _) with (Z.to_nat (count r - 1)) by lia.
    replace (Nat.min _ _) with (Z.to_nat (count r)) by lia.
    rewrite take_insert_ge by lia. unfold ps.
    rewrite delete_take_drop, take_take, Nat.min_l by lia.
    rewrite take_app_ge by (rewrite length_take; lia).
    rewrite length_take, Nat.min_l by lia. f_equal.
    rewrite take_app_le by (rewrite length_take, length_drop; lia).
    rewrite take_take, skipn_firstn_comm, Nat.min_l by lia. f_equal. lia.
  - destruct (IH (S i)) as [[Hn Hr]|Hyes]; [lia| |by left; split; [rewrite (drop_S _ _ _ Hx); set_solver|]|by right].
    rewrite (take_S_r _ _ _ Hx). set_solver.
Qed.

Lemma remove_port_refines (r : PortRule) (port : Z) :
  rule_wf r ->
  exists b r', remove_port r port = Some (b, r') /\ rule_wf r' /\
    spec_remove (rule_denote r) port = (b, rule_denote r').
Proof.
  intros Hwf. destruct (Hwf) as [Hc Hl Hn Ha].
  unfold remove_port, rule_denote.
  destruct (is_match_all r) eqn:Hall.
  { rewrite Ha by done. simpl. exists false, r. by rewrite Hall. }
  destruct (remove_loop_spec r port 0 (Z.to_nat (count r)) Hwf) as
    [[Hnin Hr]|(k & r' & Hk & Hkp & Hr & Hm & Hc' & Hl' & Hv)]; [lia|set_solver| |].
  - exists false, r. rewrite Hall. split_and!; [done..|].
    rewrite drop_0, <- to_port_vec_wf in Hnin by done. simpl.
    rewrite bool_decide_eq_false_2 by (by rewrite elem_of_list_to_set).
    do 2 f_equal. set_solver.
  - exists true, r'. assert (is_match_all r' = false) as Hall'.
    { unfold is_match_all in *. by rewrite Hm. }
    assert (to_port_vec r !! k = Some port) as Hkv.
    { rewrite to_port_vec_wf by done. by rewrite lookup_take_lt by lia. }
    assert (to_port_vec r = take k (to_port_vec r) ++ port :: drop (S k) (to_port_vec r)) as Hsplit
      by (by rewrite take_drop_middle).
    rewrite delete_take_drop in Hv. rewrite Hsplit, NoDup_app, NoDup_cons in Hn.
    destruct Hn as (Hn1 & Hn2 & Hn3 & Hn4).
    rewrite Hall'. split_and!; [done| |].
    + constructor; [lia|done| |by rewrite Hall'].
      rewrite Hv. apply NoDup_app; set_solver.
    + simpl. rewrite bool_decide_eq_true_2
        by (rewrite elem_of_list_to_set, list_elem_of_lookup; eauto).
      do 2 f_equal. rewrite Hv, Hsplit at 1. set_solver.
Qed.

(** C11: the fixed-array port rule is the finite set of ports it stands for *)
Theorem port_rule_refines (r : PortRule) (port : Z) :
  rule_wf r ->
  contains r port = spec_contains (rule_denote r) port /\
  (rule_wf (add_port r port).2 /\
   spec_add (rule_denote r) port = ((add_port r port).1, rule_denote (add_port r port).2)) /\
  (exists b r', remove_port r port = Some (b, r') /\ rule_wf r' /\
     spec_remove (rule_denote r) port = (b, rule_denote r')).
Proof.
  intros Hwf. split_and!; [by apply contains_refines|by apply add_port_refines..|].
  by apply remove_port_refines.
Qed.

Lemma port_rule_refines_witness :
  let r := (add_port (add_port new_empty 80).2 443).2 in
  contains r 443 = true /\ contains r 443 = spec_contains (rule_denote r) 443.
Proof.
  split; [reflexivity|]. apply (port_rule_refines (add_port (add_port new_empty 80).2 443).2 443).
  constructor; [vm_compute; split; congruence|reflexivity| |intros [=]].
  refine (bool_decide_unpack _ _). vm_compute. exact I.
Defined.
