(* ===== verification/Parsing.v ===== *)
(** * Packet parsing ([net-guardia-abi/src/ebpf])

    [parse_packet] reads raw packet memory.  A read is an access to the bytes
    between [start] and [end]; the model gives every read an outcome, [Fault]
    when it leaves that range, so that memory safety is a theorem and not an
    assumption.  The header layouts of the [network_types] crate are the
    interface [NetworkTypes]; [rfc_headers] is the wire layout of the RFCs. *)

From Stdlib Require Import ZArith Lia List.
From stdpp Require Import base list gmap.
From S2P Require Import Prelude Abi.

Local Open Scope Z_scope.

(** ** Memory accesses *)

Inductive mem (A : Type) : Type := Val (a : A) | Fault.
Arguments Val {A} a.
Arguments Fault {A}.

Definition mem_bind {A B} (m : mem A) (f : A -> mem B) : mem B :=
  match m with Val a => f a | Fault => Fault end.
Notation "'let*' x := m 'in' k" := (mem_bind m (fun x => k))
  (at level 10, x name, m at level 100, k at level 200) : ng_scope.

Definition plen (pkt : bytes) : Z := Z.of_nat (length pkt).

(** The [n] bytes at [start + off], as one dereferenced struct. *)
Definition load (pkt : bytes) (off n : Z) : mem bytes :=
  if (0 <=? off) && (off + n <=? plen pkt)
  then Val (take (Z.to_nat n) (drop (Z.to_nat off) pkt)) else Fault.

Definition load_u8 (pkt : bytes) (off : Z) : mem Z :=
  let* l := load pkt off 1 in Val (nth 0 l 0).

Lemma load_val (pkt : bytes) (off n : Z) :
  0 <= off -> off + n <= plen pkt ->
  load pkt off n = Val (take (Z.to_nat n) (drop (Z.to_nat off) pkt)).
Proof.
  intros. unfold load.
  by rewrite (proj2 (Z.leb_le 0 off)), (proj2 (Z.leb_le (off + n) (plen pkt))) by lia.
Qed.

Lemma load_u8_val (pkt : bytes) (off : Z) :
  0 <= off -> off + 1 <= plen pkt ->
  load_u8 pkt off = Val (nth (Z.to_nat off) pkt 0).
Proof.
  intros. unfold load_u8. rewrite load_val by lia. simpl.
  destruct (drop (Z.to_nat off) pkt) as [|b l] eqn:Hd.
  - apply (f_equal length) in Hd. rewrite length_drop in Hd. unfold plen in *. simpl in Hd. lia.
  - f_equal. replace (Z.to_nat 1) with 1%nat by lia. cbn.
    apply (f_equal (fun l => l !! 0%nat)) in Hd. rewrite lookup_drop, Nat.add_0_r in Hd.
    symmetry. by apply nth_lookup_Some.
Qed.

Lemma load_u8_byte (pkt : bytes) (off : Z) (b : Z) :
  bytes_ok pkt -> load_u8 pkt off = Val b -> byte_ok b.
Proof.
  intros Hok. unfold load_u8, load. destruct (_ && _); simpl; [|done]. intros [= <-].
  destruct (take _ _) as [|c l] eqn:Ht; [unfold byte_ok; simpl; lia|]. simpl.
  assert (bytes_ok (c :: l)) as Hc by (rewrite <- Ht; by apply Forall_take, Forall_drop).
  by inversion Hc.
Qed.

(** ** The [network_types] crate *)

Inductive EtherType : Type := EtherIpv4 | EtherIpv6 | EtherOther.

Class NetworkTypes : Type := {
  size_EthHdr : Z; size_Ipv4Hdr : Z; size_Ipv6Hdr : Z; size_TcpHdr : Z; size_UdpHdr : Z;
  eth_ether_type : bytes -> option EtherType;
  ipv4_src_addr : bytes -> bytes; ipv4_dst_addr : bytes -> bytes; ipv4_proto : bytes -> Z;
  ipv6_src_addr : bytes -> bytes; ipv6_dst_addr : bytes -> bytes; ipv6_next_hdr : bytes -> Z;
  tcp_source : bytes -> bytes; tcp_dest : bytes -> bytes;
  udp_len : bytes -> Z; udp_src_port : bytes -> Z; udp_dst_port : bytes -> Z;
  IpProto_Tcp : Z; IpProto_Udp : Z;
}.

(** What the parser relies on: the header sizes (the first three are checked
    by [const _] in [define/offset.rs]) and the extent of each field. *)
Class NetworkTypesLaws (NT : NetworkTypes) : Prop := {
  law_sizes : size_EthHdr = 14 /\ size_Ipv4Hdr = 20 /\ size_Ipv6Hdr = 40 /\
              size_TcpHdr = 20 /\ size_UdpHdr = 8;
  law_addr4 : forall h, bytes_ok h -> length h = 20%nat ->
    (bytes_ok (ipv4_src_addr h) /\ length (ipv4_src_addr h) = 4%nat) /\
    (bytes_ok (ipv4_dst_addr h) /\ length (ipv4_dst_addr h) = 4%nat) /\
    byte_ok (ipv4_proto h);
  law_addr6 : forall h, bytes_ok h -> length h = 40%nat ->
    (bytes_ok (ipv6_src_addr h) /\ length (ipv6_src_addr h) = 16%nat) /\
    (bytes_ok (ipv6_dst_addr h) /\ length (ipv6_dst_addr h) = 16%nat) /\
    byte_ok (ipv6_next_hdr h);
  law_tcp : forall h, bytes_ok h -> length h = 20%nat ->
    (bytes_ok (tcp_source h) /\ length (tcp_source h) = 2%nat) /\
    (bytes_ok (tcp_dest h) /\ length (tcp_dest h) = 2%nat);
  law_udp : forall h, bytes_ok h -> length h = 8%nat ->
    in_width 16 (udp_len h) /\ in_width 16 (udp_src_port h) /\ in_width 16 (udp_dst_port h);
}.

Definition be16_at (h : bytes) (i : nat) : Z := from_be_bytes (take 2 (drop i h)).

(** The wire layout (IEEE 802.3, RFC 791, 8200, 9293, 768). *)
#[export] Instance rfc_headers : NetworkTypes := {
  size_EthHdr := 14; size_Ipv4Hdr := 20; size_Ipv6Hdr := 40; size_TcpHdr := 20; size_UdpHdr := 8;
  eth_ether_type h :=
    if be16_at h 12 =? 2048 then Some EtherIpv4
    else if be16_at h 12 =? 34525 then Some EtherIpv6
    else if be16_at h 12 =? 2054 then Some EtherOther else None;
  ipv4_src_addr h := take 4 (drop 12 h); ipv4_dst_addr h := take 4 (drop 16 h);
  ipv4_proto h := nth 9 h 0;
  ipv6_src_addr h := take 16 (drop 8 h); ipv6_dst_addr h := take 16 (drop 24 h);
  ipv6_next_hdr h := nth 6 h 0;
  tcp_source h := take 2 h; tcp_dest h := take 2 (drop 2 h);
  udp_len h := be16_at h 4; udp_src_port h := be16_at h 0; udp_dst_port h := be16_at h 2;
  IpProto_Tcp := 6; IpProto_Udp := 17;
}.

Lemma from_be_bytes_2 (l : bytes) :
  bytes_ok l -> (length l <= 2)%nat -> in_width 16 (from_be_bytes l).
Proof.
  intros Hok Hlen. unfold in_width, pow2.
  destruct l as [|a [|b [|c l]]]; simpl in *; [unfold from_be_bytes; simpl; lia|..|lia];
    repeat match goal with H : bytes_ok (_ :: _) |- _ => inversion H; subst; clear H
           | H : Forall byte_ok (_ :: _) |- _ => inversion H; subst; clear H end;
    unfold byte_ok, from_be_bytes in *; simpl; lia.
Qed.

Lemma bytes_ok_slice (h : bytes) (i n : nat) : bytes_ok h -> bytes_ok (take n (drop i h)).
Proof. intros; by apply Forall_take, Forall_drop. Qed.

Lemma byte_ok_nth (h : bytes) (i : nat) : bytes_ok h -> byte_ok (nth i h 0).
Proof.
  intros Hok. destruct (h !! i) as [b|] eqn:Hb.
  - rewrite (nth_lookup_Some _ _ _ _ Hb). eapply Forall_lookup_1; eauto.
  - rewrite nth_overflow by (by apply lookup_ge_None). unfold byte_ok; lia.
Qed.

#[export] Hint Resolve bytes_ok_slice byte_ok_nth : ng.

#[export] Instance rfc_headers_laws : NetworkTypesLaws rfc_headers.
Proof.
  constructor; simpl; [done|..]; intros h Hok Hlen;
    split_and!; eauto with ng; rewrite ?length_take, ?length_drop, ?Hlen; try done.
  all: try (by apply Forall_take).
  all: apply from_be_bytes_2; [eauto with ng|rewrite length_take; lia].
Qed.

Section Parser.
Context `{NT : NetworkTypes}.

Definition ETHER_HEADER_START : Z := 0.
Definition ETHER_HEADER_END : Z := ETHER_HEADER_START + size_EthHdr.
Definition IPV4_HEADER_START : Z := ETHER_HEADER_END.
Definition IPV4_HEADER_END : Z := IPV4_HEADER_START + size_Ipv4Hdr.
Definition IPV6_HEADER_START : Z := ETHER_HEADER_END.
Definition IPV6_HEADER_END : Z := IPV6_HEADER_START + size_Ipv6Hdr.
Definition IPV6_TCP_HEADER_START : Z := IPV6_HEADER_END.
Definition IPV6_UDP_HEADER_START : Z := IPV6_HEADER_END.

(** (src_port, dst_port, tcp_flags, l4_header_len, transport_len) *)
Record l4_info : Type := mk_l4 {
  l4_src_port : Z; l4_dst_port : Z; l4_flags : Z; l4_header_len : Z; l4_transport_len : Z }.

Definition read_be_u16 (pkt : bytes) (offset : Z) : mem (option Z) :=
  if offset + 2 >? plen pkt then Val None
  else
    let* hi := load_u8 pkt offset in
    let* lo := load_u8 pkt (offset + 1) in
    Val (Some (from_be_bytes [hi; lo])).

Definition parse_ipv4_header_len (pkt : bytes) : mem (option Z) :=
  if IPV4_HEADER_START + 1 >? plen pkt then Val None
  else
    let* version_ihl := load_u8 pkt IPV4_HEADER_START in
    let version := Z.shiftr version_ihl 4 in
    let ihl := Z.land version_ihl 15 in
    if negb (version =? 4) || negb ((5 <=? ihl) && (ihl <=? 15)) then Val None
    else
      let header_len := ihl * 4 in
      if IPV4_HEADER_START + header_len >? plen pkt then Val None
      else Val (Some header_len).

Definition parse_tcp (pkt : bytes) (tcp_start transport_len : Z) : mem (option l4_info) :=
  if tcp_start + size_TcpHdr >? plen pkt then Val None
  else if transport_len <? size_TcpHdr then Val None
  else
    let* tcp := load pkt tcp_start size_TcpHdr in
    let* doff := load_u8 pkt (tcp_start + 12) in
    let data_offset := Z.shiftr doff 4 in
    if negb ((5 <=? data_offset) && (data_offset <=? 15)) then Val None
    else
      let header_len := data_offset * 4 in
      if (header_len >? transport_len) || (tcp_start + header_len >? plen pkt) then Val None
      else
        let* flags := load_u8 pkt (tcp_start + 13) in
        Val (Some (mk_l4 (from_be_bytes (tcp_source tcp)) (from_be_bytes (tcp_dest tcp))
                     flags header_len transport_len)).

Definition parse_udp (pkt : bytes) (udp_start transport_len : Z) : mem (option l4_info) :=
  if udp_start + size_UdpHdr >? plen pkt then Val None
  else if transport_len <? size_UdpHdr then Val None
  else
    let* udp := load pkt udp_start size_UdpHdr in
    let len := udp_len udp in
    if (len <? size_UdpHdr) || (len >? transport_len) then Val None
    else Val (Some (mk_l4 (udp_src_port udp) (udp_dst_port udp) 0 8 len)).

(** [ptr::copy_nonoverlapping(src, dst, n)] with [n = length src]. *)
Definition copy_prefix (src dst : bytes) : bytes := src ++ drop (length src) dst.

(** The transport dispatch shared by both families; [proto] is the protocol byte. *)
Definition parse_l4 (pkt : bytes) (proto tcp_start udp_start transport_len : Z) :
    mem (option l4_info) :=
  if proto =? IpProto_Tcp then parse_tcp pkt tcp_start transport_len
  else if proto =? IpProto_Udp then parse_udp pkt udp_start transport_len
  else Val (Some (mk_l4 0 0 0 0 0)).

Definition set_l3 (t : ParsedPacket) (src dst : bytes) (len : Z) (v : IpVersion) (proto : Z) :
    ParsedPacket :=
  mk_ParsedPacket (timestamp_ns t) (copy_prefix src (src_ip t)) (copy_prefix dst (dst_ip t))
    len (payload_length t) (src_port t) (dst_port t) (as_u8 v) proto (tcp_flags t).

Definition set_l4 (t : ParsedPacket) (i : l4_info) : ParsedPacket :=
  mk_ParsedPacket (timestamp_ns t) (src_ip t) (dst_ip t) (packet_length t)
    (saturating_sub (wrap 32 (l4_transport_len i)) (wrap 32 (l4_header_len i)))
    (l4_src_port i) (l4_dst_port i) (ip_version t) (protocol t) (l4_flags i).

(** The target is written in place: the network-layer fields are stored
    before the transport header is parsed, and stay when that parse fails. *)
Definition parse_ipv4_packet (pkt : bytes) (t : ParsedPacket) : mem (ParsedPacket * option unit) :=
  if IPV4_HEADER_END >? plen pkt then Val (t, None)
  else
    let* ipv4 := load pkt IPV4_HEADER_START size_Ipv4Hdr in
    let* hl := parse_ipv4_header_len pkt in
    let! ipv4_header_len := hl else Val (t, None) in
    let l4_start := IPV4_HEADER_START + ipv4_header_len in
    let* tl := read_be_u16 pkt (IPV4_HEADER_START + 2) in
    let! ip_total_len := tl else Val (t, None) in
    if ip_total_len <? ipv4_header_len then Val (t, None)
    else
      let transport_len := ip_total_len - ipv4_header_len in
      let t := set_l3 t (ipv4_src_addr ipv4) (ipv4_dst_addr ipv4) (wrap 32 ip_total_len) V4
                 (ipv4_proto ipv4) in
      let* l4 := parse_l4 pkt (ipv4_proto ipv4) l4_start l4_start transport_len in
      let! i := l4 else Val (t, None) in
      Val (set_l4 t i, Some tt).

Definition parse_ipv6_packet (pkt : bytes) (t : ParsedPacket) : mem (ParsedPacket * option unit) :=
  if IPV6_HEADER_END >? plen pkt then Val (t, None)
  else
    let* ipv6 := load pkt IPV6_HEADER_START size_Ipv6Hdr in
    let* pl := read_be_u16 pkt (IPV6_HEADER_START + 4) in
    let! payload_len := pl else Val (t, None) in
    let packet_length := wrap 32 (IPV6_HEADER_END - IPV6_HEADER_START + payload_len) in
    let t := set_l3 t (ipv6_src_addr ipv6) (ipv6_dst_addr ipv6) packet_length V6
               (ipv6_next_hdr ipv6) in
    let* l4 := parse_l4 pkt (ipv6_next_hdr ipv6) IPV6_TCP_HEADER_START IPV6_UDP_HEADER_START
                 payload_len in
    let! i := l4 else Val (t, None) in
    Val (set_l4 t i, Some tt).

Definition parse_packet (pkt : bytes) (t : ParsedPacket) : mem (ParsedPacket * option unit) :=
  if ETHER_HEADER_END >? plen pkt then Val (t, None)
  else
    let* eth := load pkt ETHER_HEADER_START size_EthHdr in
    match eth_ether_type eth with
    | Some EtherIpv4 => parse_ipv4_packet pkt t
    | Some EtherIpv6 => parse_ipv6_packet pkt t
    | Some EtherOther | None => Val (t, None)
    end.

End Parser.

(** ** The queue hash ([symmetric_hash.rs]) *)

Definition rotate_left_32 (x n : Z) : Z :=
  Z.lor (wrap 32 (Z.shiftl x n)) (Z.shiftr x (32 - n)).

(** The 128-bit xor folded to 32 bits. *)
Definition fold_u128 (x : Z) : Z :=
  Z.lxor (Z.lxor (Z.lxor (wrap 32 x) (wrap 32 (Z.shiftr x 32))) (wrap 32 (Z.shiftr x 64)))
    (wrap 32 (Z.shiftr x 96)).

Definition symmetric_queue_id (pkt : ParsedPacket) (num_queues : Z) : option Z :=
  if num_queues =? 0 then None
  else
    let finish ip_hash :=
      let port_hash := Z.lxor (src_port pkt) (dst_port pkt) in
      let h := wrapping_mul 32
        (Z.lxor (Z.lxor ip_hash (rotate_left_32 port_hash 16)) (protocol pkt)) 2654435761 in
      Some (h mod num_queues) in
    if ip_version pkt =? as_u8 V4 then finish (Z.lxor (src_ip_v4 pkt) (dst_ip_v4 pkt))
    else if ip_version pkt =? as_u8 V6 then
      finish (fold_u128 (Z.lxor (src_ip_v6 pkt) (dst_ip_v6 pkt)))
    else None.

(** ** Memory safety and well-formed results *)

Section Safety.
Context `{NT : NetworkTypes} {L : NetworkTypesLaws NT}.

Lemma offsets : ETHER_HEADER_END = 14 /\ IPV4_HEADER_START = 14 /\ IPV4_HEADER_END = 34 /\
  IPV6_HEADER_START = 14 /\ IPV6_HEADER_END = 54.
Proof.
  destruct law_sizes as (H1 & H2 & H3 & _).
  unfold IPV4_HEADER_END, IPV6_HEADER_END, IPV4_HEADER_START, IPV6_HEADER_START,
    ETHER_HEADER_END, ETHER_HEADER_START. lia.
Qed.

(** A memory result that did not fault, with a value satisfying [P]. *)
Definition safe {A} (P : A -> Prop) (m : mem A) : Prop :=
  match m with Val a => P a | Fault => False end.

Lemma safe_bind {A B} (P : A -> Prop) (Q : B -> Prop) (m : mem A) (f : A -> mem B) :
  safe P m -> (forall a, P a -> safe Q (f a)) -> safe Q (mem_bind m f).
Proof. destruct m; simpl; [eauto|done]. Qed.

Lemma safe_load (pkt : bytes) (off n : Z) :
  bytes_ok pkt -> 0 <= off -> 0 <= n -> off + n <= plen pkt ->
  safe (fun h => bytes_ok h /\ length h = Z.to_nat n) (load pkt off n).
Proof.
  intros Hok H0 Hn Hle. rewrite load_val by lia. split; [auto with ng|].
  rewrite length_take, length_drop. unfold plen in Hle. lia.
Qed.

Lemma safe_load_u8 (pkt : bytes) (off : Z) :
  bytes_ok pkt -> 0 <= off -> off + 1 <= plen pkt -> safe byte_ok (load_u8 pkt off).
Proof. intros. rewrite load_u8_val by lia. simpl. auto with ng. Qed.

Definition opt_all {A} (P : A -> Prop) (o : option A) : Prop :=
  match o with Some a => P a | None => True end.

Definition l4_wf (i : l4_info) : Prop :=
  in_width 16 (l4_src_port i) /\ in_width 16 (l4_dst_port i) /\ in_width 8 (l4_flags i) /\
  in_width 16 (l4_header_len i) /\ in_width 16 (l4_transport_len i).

Lemma safe_read_be_u16 (pkt : bytes) (off : Z) :
  bytes_ok pkt -> 0 <= off -> safe (opt_all (in_width 16)) (read_be_u16 pkt off).
Proof.
  intros Hok Hoff. unfold read_be_u16. destruct (Z.gtb_spec (off + 2) (plen pkt)); [done|].
  eapply safe_bind; [apply safe_load_u8; [done|lia..]|]. intros hi Hhi.
  eapply safe_bind; [apply safe_load_u8; [done|lia..]|]. intros lo Hlo. cbn [safe opt_all].
  apply from_be_bytes_2; [by apply Forall_cons_2, Forall_singleton|simpl; lia].
Qed.

Lemma nibble_bounds (b : Z) : byte_ok b -> 0 <= Z.land b 15 <= 15 /\ 0 <= Z.shiftr b 4 <= 15.
Proof.
  intros Hb. unfold byte_ok in Hb.
  assert (Z.land b 15 = b mod 16) as -> by (apply (Z.land_ones b 4); lia).
  rewrite Z.shiftr_div_pow2 by lia. change (2 ^ 4) with 16.
  pose proof (Z.mod_pos_bound b 16). pose proof (Z.div_mod b 16). lia.
Qed.

Lemma safe_header_len (pkt : bytes) :
  bytes_ok pkt ->
  safe (opt_all (fun l => 20 <= l <= 60 /\ IPV4_HEADER_START + l <= plen pkt))
    (parse_ipv4_header_len pkt).
Proof.
  intros Hok. destruct offsets as (? & ? & ? & ? & ?). unfold parse_ipv4_header_len.
  destruct (Z.gtb_spec (IPV4_HEADER_START + 1) (plen pkt)); [done|].
  eapply safe_bind; [apply safe_load_u8; [done|lia..]|]. intros b Hb.
  destruct (_ || _) eqn:Hc; [done|].
  destruct (Z.gtb_spec (IPV4_HEADER_START + Z.land b 15 * 4) (plen pkt)); [done|].
  bool_to_prop. cbn [safe opt_all]. lia.
Qed.

Lemma safe_parse_tcp (pkt : bytes) (off len : Z) :
  bytes_ok pkt -> 0 <= off -> in_width 16 len -> safe (opt_all l4_wf) (parse_tcp pkt off len).
Proof.
  intros Hok Hoff Hlen. destruct law_sizes as (_ & _ & _ & Ht & _). unfold parse_tcp.
  destruct (Z.gtb_spec (off + size_TcpHdr) (plen pkt)); [done|].
  destruct (Z.ltb_spec len size_TcpHdr); [done|].
  eapply safe_bind; [apply safe_load; [done|lia..]|]. intros h [Hh1 Hh2].
  eapply safe_bind; [apply safe_load_u8; [done|lia..]|]. intros b Hb.
  destruct (negb _) eqn:Hd; [done|]. destruct (_ || _) eqn:Hc; [done|]. bool_to_prop.
  eapply safe_bind; [apply safe_load_u8; [done|lia..]|]. intros f Hf.
  rewrite Ht in Hh2. destruct (law_tcp h Hh1 Hh2) as [[Hs1 Hs2] [Hd1 Hd2]].
  unfold l4_wf; cbn [safe opt_all l4_src_port l4_dst_port l4_flags l4_header_len l4_transport_len].
  split_and!; try (apply from_be_bytes_2; [done|lia]); [done| |done].
  pose proof (nibble_bounds b Hb). unfold in_width, pow2. lia.
Qed.

Lemma safe_parse_udp (pkt : bytes) (off len : Z) :
  bytes_ok pkt -> 0 <= off -> in_width 16 len -> safe (opt_all l4_wf) (parse_udp pkt off len).
Proof.
  intros Hok Hoff Hlen. destruct law_sizes as (_ & _ & _ & _ & Hu). unfold parse_udp.
  destruct (Z.gtb_spec (off + size_UdpHdr) (plen pkt)); [done|].
  destruct (Z.ltb_spec len size_UdpHdr); [done|].
  eapply safe_bind; [apply safe_load; [done|lia..]|]. intros h [Hh1 Hh2].
  rewrite Hu in Hh2. destruct (law_udp h Hh1 Hh2) as (Hl & Hs & Hd).
  destruct (_ || _); [done|]. cbn [safe opt_all].
  unfold l4_wf, in_width, pow2 in *;
    cbn [l4_src_port l4_dst_port l4_flags l4_header_len l4_transport_len]. lia.
Qed.

Lemma safe_parse_l4 (pkt : bytes) (proto o1 o2 len : Z) :
  bytes_ok pkt -> 0 <= o1 -> 0 <= o2 -> in_width 16 len ->
  safe (opt_all l4_wf) (parse_l4 pkt proto o1 o2 len).
Proof.
  intros. unfold parse_l4. destruct (_ =? _); [by apply safe_parse_tcp|].
  destruct (_ =? _); [by apply safe_parse_udp|].
  unfold safe, opt_all, l4_wf, in_width, pow2; simpl. lia.
Qed.

Lemma copy_prefix_wf (s d : bytes) :
  bytes_ok s -> bytes_ok d /\ length d = 16%nat -> (length s <= 16)%nat ->
  bytes_ok (copy_prefix s d) /\ length (copy_prefix s d) = 16%nat.
Proof.
  intros Hs [Hd Hl] Hle. unfold copy_prefix. split.
  - by apply Forall_app_2, Forall_drop.
  - rewrite length_app, length_drop. lia.
Qed.

Lemma set_l3_wf (t : ParsedPacket) (s d : bytes) (len : Z) (v : IpVersion) (proto : Z) :
  packet_wf t -> bytes_ok s -> bytes_ok d -> (length s <= 16)%nat -> (length d <= 16)%nat ->
  in_width 32 len -> byte_ok proto -> packet_wf (set_l3 t s d len v proto).
Proof.
  intros Hwf **. destruct Hwf. constructor; simpl; try done; try (by apply copy_prefix_wf).
  destruct v; unfold in_width, pow2; simpl; lia.
Qed.

Lemma set_l4_wf (t : ParsedPacket) (i : l4_info) :
  packet_wf t -> l4_wf i -> packet_wf (set_l4 t i).
Proof.
  intros Hwf (H1 & H2 & H3 & H4 & H5). destruct Hwf. constructor; simpl; try done.
  pose proof (wrap_in_width 32 (l4_transport_len i)). pose proof (wrap_in_width 32 (l4_header_len i)).
  pose proof (saturating_sub_le (wrap 32 (l4_transport_len i)) (wrap 32 (l4_header_len i))).
  unfold in_width in *. lia.
Qed.

(** The tail of both parsers: write the transport fields or keep [t]. *)
Lemma safe_finish (t : ParsedPacket) (m : mem (option l4_info)) :
  packet_wf t -> safe (opt_all l4_wf) m ->
  safe (fun r => packet_wf r.1)
    (let* l4 := m in let! i := l4 else Val (t, None) in Val (set_l4 t i, Some tt)).
Proof.
  intros Ht Hm. eapply safe_bind; [done|]. intros [i|] Hi; simpl; [by apply set_l4_wf|done].
Qed.

Lemma safe_parse_ipv4 (pkt : bytes) (t : ParsedPacket) :
  bytes_ok pkt -> packet_wf t -> safe (fun r => packet_wf r.1) (parse_ipv4_packet pkt t).
Proof.
  intros Hok Ht. destruct offsets as (? & ? & ? & ? & ?).
  destruct law_sizes as (_ & Hs & _). unfold parse_ipv4_packet.
  destruct (Z.gtb_spec IPV4_HEADER_END (plen pkt)); [done|].
  eapply safe_bind; [apply safe_load; [done|lia..]|]. intros h [Hh1 Hh2].
  eapply safe_bind; [by apply safe_header_len|]. intros [hl|] Hhl; [|done].
  eapply safe_bind; [apply safe_read_be_u16; [done|lia]|]. intros [tl|] Htl; [|done].
  simpl in Hhl, Htl. destruct (Z.ltb_spec tl hl); [done|].
  rewrite Hs in Hh2. destruct (law_addr4 h Hh1 Hh2) as ([? ?] & [? ?] & ?).
  apply safe_finish.
  - apply set_l3_wf; try done; [lia..|]. apply wrap_in_width; lia.
  - apply safe_parse_l4; [done|lia..|]. unfold in_width in *. lia.
Qed.

Lemma safe_parse_ipv6 (pkt : bytes) (t : ParsedPacket) :
  bytes_ok pkt -> packet_wf t -> safe (fun r => packet_wf r.1) (parse_ipv6_packet pkt t).
Proof.
  intros Hok Ht. destruct offsets as (? & ? & ? & ? & ?).
  destruct law_sizes as (_ & _ & Hs & _). unfold parse_ipv6_packet.
  destruct (Z.gtb_spec IPV6_HEADER_END (plen pkt)); [done|].
  eapply safe_bind; [apply safe_load; [done|lia..]|]. intros h [Hh1 Hh2].
  eapply safe_bind; [apply safe_read_be_u16; [done|lia]|]. intros [tl|] Htl; [|done].
  rewrite Hs in Hh2. destruct (law_addr6 h Hh1 Hh2) as ([? ?] & [? ?] & ?).
  simpl in Htl. apply safe_finish.
  - apply set_l3_wf; try done; [lia..|]. apply wrap_in_width; lia.
  - apply safe_parse_l4; unfold IPV6_TCP_HEADER_START, IPV6_UDP_HEADER_START; [done|lia..|done].
Qed.

Lemma parse_packet_safe_wf (pkt : bytes) (t : ParsedPacket) :
  bytes_ok pkt -> packet_wf t -> safe (fun r => packet_wf r.1) (parse_packet pkt t).
Proof.
  intros Hok Ht. destruct offsets as (He & _). destruct law_sizes as (Hs & _).
  unfold parse_packet. destruct (Z.gtb_spec ETHER_HEADER_END (plen pkt)); [done|].
  eapply safe_bind; [apply safe_load; [done|unfold ETHER_HEADER_START; lia..]|].
  intros h _. destruct (eth_ether_type h) as [[]|];
    [by apply safe_parse_ipv4|by apply safe_parse_ipv6|done|done].
Qed.

(** parsing never reads outside the packet, whatever the bytes are, and
    leaves a packet record whose fields are in their declared widths *)
Theorem parse_packet_memory_safe (pkt : bytes) (t : ParsedPacket) :
  bytes_ok pkt -> packet_wf t ->
  exists t' r, parse_packet pkt t = Val (t', r) /\ packet_wf t'.
Proof.
  intros Hok Ht. pose proof (parse_packet_safe_wf pkt t Hok Ht) as Hsafe.
  destruct (parse_packet pkt t) as [[t' r]|]; simpl in Hsafe; [by exists t', r|done].
Qed.
End Safety.

(** ** Both directions of a connection reach the same queue *)

(** The packet travelling the other way. *)
Definition swap_packet (p : ParsedPacket) : ParsedPacket :=
  mk_ParsedPacket (timestamp_ns p) (dst_ip p) (src_ip p) (packet_length p) (payload_length p)
    (dst_port p) (src_port p) (ip_version p) (protocol p) (tcp_flags p).

(** the queue id is symmetric in the two endpoints, always below the number
    of queues, and missing only for zero queues or an unknown IP version *)
Theorem symmetric_queue_id_symmetric (p : ParsedPacket) (num_queues : Z) :
  in_width 32 num_queues ->
  symmetric_queue_id (swap_packet p) num_queues = symmetric_queue_id p num_queues /\
  match symmetric_queue_id p num_queues with
  | Some q => 0 <= q < num_queues
  | None => num_queues = 0 \/ from_u8 (ip_version p) = None
  end.
Proof.
  intros [Hn _]. unfold symmetric_queue_id, from_u8. simpl.
  change (src_ip_v4 (swap_packet p)) with (dst_ip_v4 p).
  change (dst_ip_v4 (swap_packet p)) with (src_ip_v4 p).
  change (src_ip_v6 (swap_packet p)) with (dst_ip_v6 p).
  change (dst_ip_v6 (swap_packet p)) with (src_ip_v6 p).
  rewrite (Z.lxor_comm (dst_ip_v4 p)), (Z.lxor_comm (dst_ip_v6 p)), (Z.lxor_comm (dst_port p)).
  split; [done|]. destruct (Z.eqb_spec num_queues 0); [by left|].
  destruct (_ =? 4); [apply Z.mod_pos_bound; lia|].
  destruct (_ =? 6); [apply Z.mod_pos_bound; lia|by right].
Qed.

(** ** Parsing what a TCP/IPv4 stack sends *)

Record tcp_frame : Type := mk_tcp_frame {
  f_macs : bytes;      (* 12 bytes *)
  f_tos : Z;
  f_ident : bytes;     (* identification, flags and fragment: 4 bytes *)
  f_ttl : Z;
  f_ipsum : bytes;     (* 2 bytes *)
  f_src : bytes;       (* 4 bytes *)
  f_dst : bytes;       (* 4 bytes *)
  f_opts : bytes;      (* IP options *)
  f_sport : Z;
  f_dport : Z;
  f_seqack : bytes;    (* 8 bytes *)
  f_flags : Z;
  f_tail : bytes;      (* window, checksum, urgent: 6 bytes *)
  f_topts : bytes;     (* TCP options *)
  f_payload : bytes;
}.

Definition be16 (x : Z) : bytes := [x / 256; x mod 256].

Definition words (l : bytes) : Z := Z.of_nat (length l) / 4.
Definition f_thl (f : tcp_frame) : Z := 20 + Z.of_nat (length (f_topts f)).
Definition f_total (f : tcp_frame) : Z :=
  20 + Z.of_nat (length (f_opts f)) + f_thl f + Z.of_nat (length (f_payload f)).

Definition ip_part (f : tcp_frame) : bytes :=
  [64 + (5 + words (f_opts f)); f_tos f] ++ be16 (f_total f) ++ f_ident f ++
  [f_ttl f; 6] ++ f_ipsum f ++ f_src f ++ f_dst f.
Definition tcp_part (f : tcp_frame) : bytes :=
  be16 (f_sport f) ++ be16 (f_dport f) ++ f_seqack f ++
  [16 * (5 + words (f_topts f)); f_flags f] ++ f_tail f.
Definition encode_frame (f : tcp_frame) : bytes :=
  (f_macs f ++ be16 2048) ++ ip_part f ++ f_opts f ++ tcp_part f ++ f_topts f ++ f_payload f.

Record frame_wf (f : tcp_frame) : Prop := {
  fw_macs : length (f_macs f) = 12%nat;
  fw_ident : length (f_ident f) = 4%nat;
  fw_ipsum : length (f_ipsum f) = 2%nat;
  fw_src : length (f_src f) = 4%nat;
  fw_dst : length (f_dst f) = 4%nat;
  fw_seqack : length (f_seqack f) = 8%nat;
  fw_tail : length (f_tail f) = 6%nat;
  fw_opts : exists k, length (f_opts f) = (4 * k)%nat /\ (k <= 10)%nat;
  fw_topts : exists k, length (f_topts f) = (4 * k)%nat /\ (k <= 10)%nat;
  fw_sport : in_width 16 (f_sport f);
  fw_dport : in_width 16 (f_dport f);
  fw_total : f_total f < 65536;
}.

Lemma load_app (pre h post : bytes) (off n : Z) :
  off = plen pre -> n = plen h -> load (pre ++ h ++ post) off n = Val h.
Proof.
  intros -> ->. rewrite load_val; unfold plen; [|lia|rewrite !length_app; lia].
  rewrite !Nat2Z.id, drop_app_length. by rewrite take_app_length.
Qed.

Lemma load_u8_app (pre post : bytes) (b off : Z) :
  off = plen pre -> load_u8 (pre ++ b :: post) off = Val b.
Proof.
  intros ->. unfold load_u8. by rewrite (load_app pre [b] post) by done.
Qed.

Lemma from_be16 (x : Z) : from_be_bytes (be16 x) = x.
Proof. unfold from_be_bytes, be16; simpl. pose proof (Z.div_mod x 256). lia. Qed.

Lemma load_u8_at (pre h post : bytes) (i : nat) (b off : Z) :
  h !! i = Some b -> off = plen pre + Z.of_nat i -> load_u8 (pre ++ h ++ post) off = Val b.
Proof.
  intros Hi ->. rewrite <- (take_drop_middle h i b Hi), <- app_assoc, app_assoc. simpl.
  apply load_u8_app. unfold plen. apply lookup_lt_Some in Hi.
  rewrite length_app, length_take. lia.
Qed.

Lemma words_bound (l : bytes) (k : nat) :
  length l = (4 * k)%nat -> words l * 4 = Z.of_nat (length l) /\ words l = Z.of_nat k.
Proof.
  unfold words. intros ->. rewrite Nat2Z.inj_mul. change (Z.of_nat 4) with 4.
  rewrite (Z.mul_comm 4), Z.div_mul by done. lia.
Qed.

Ltac explode l := repeat (destruct l as [|? l]; try done).

Section RoundTrip.
Variables (f : tcp_frame) (Hwf : frame_wf f).

Let pre : bytes := f_macs f ++ be16 2048.

Lemma pre_len : plen pre = 14.
Proof. destruct Hwf. unfold plen, pre. rewrite length_app. simpl. lia. Qed.

Lemma ip_len : plen (ip_part f) = 20.
Proof. destruct Hwf. unfold plen, ip_part. rewrite !length_app. simpl. lia. Qed.

Lemma tcp_len : plen (tcp_part f) = 20.
Proof. destruct Hwf. unfold plen, tcp_part. rewrite !length_app. simpl. lia. Qed.

Lemma frame_len : plen (encode_frame f) = 14 + f_total f.
Proof.
  pose proof pre_len as H1. pose proof ip_len as H2. pose proof tcp_len as H3.
  unfold encode_frame, f_total, f_thl, plen, pre in *.
  rewrite (length_app (f_macs f ++ be16 2048)), (length_app (ip_part f)), (length_app (f_opts f)),
    (length_app (tcp_part f)), (length_app (f_topts f)). lia.
Qed.

(** The frame around its TCP header. *)
Lemma frame_tcp_split :
  encode_frame f = (pre ++ ip_part f ++ f_opts f) ++ tcp_part f ++ f_topts f ++ f_payload f.
Proof. unfold encode_frame, pre. by rewrite <- !app_assoc. Qed.

Lemma tcp_prefix_len :
  plen (pre ++ ip_part f ++ f_opts f) = 34 + Z.of_nat (length (f_opts f)).
Proof.
  pose proof pre_len. pose proof ip_len. unfold plen in *.
  rewrite (length_app pre), (length_app (ip_part f)). lia.
Qed.

Lemma frame_ip_byte (i : nat) (b off : Z) :
  ip_part f !! i = Some b -> off = 14 + Z.of_nat i -> load_u8 (encode_frame f) off = Val b.
Proof. intros Hi ->. apply (load_u8_at pre _ _ i); [done|by rewrite pre_len]. Qed.

Lemma frame_tcp_byte (i : nat) (b off : Z) :
  tcp_part f !! i = Some b -> off = 34 + Z.of_nat (length (f_opts f)) + Z.of_nat i ->
  load_u8 (encode_frame f) off = Val b.
Proof.
  intros Hi ->. rewrite frame_tcp_split.
  apply (load_u8_at _ _ _ i); [done|by rewrite tcp_prefix_len].
Qed.

Lemma frame_header_len :
  parse_ipv4_header_len (encode_frame f) = Val (Some (20 + Z.of_nat (length (f_opts f)))).
Proof.
  pose proof frame_len as Hl. destruct (fw_opts f Hwf) as (k & Hk & Hk10).
  destruct (words_bound _ _ Hk) as [Hw Hwk]. unfold f_total, f_thl in Hl.
  unfold parse_ipv4_header_len. change IPV4_HEADER_START with 14.
  destruct (Z.gtb_spec (14 + 1) (plen (encode_frame f))); [lia|].
  rewrite (frame_ip_byte 0 (64 + (5 + words (f_opts f)))) by done. cbn [mem_bind].
  set (ihl := 5 + words (f_opts f)) in *.
  assert (Z.shiftr (64 + ihl) 4 = 4) as ->.
  { rewrite Z.shiftr_div_pow2 by lia. change (2 ^ 4) with 16.
    replace (64 + ihl) with (4 * 16 + ihl) by lia. rewrite Z.div_add_l, Z.div_small by lia. lia. }
  assert (Z.land (64 + ihl) 15 = ihl) as ->.
  { change 15 with (Z.ones 4). rewrite Z.land_ones by lia. change (2 ^ 4) with 16.
    replace (64 + ihl) with (ihl + 4 * 16) by lia. rewrite Z.mod_add, Z.mod_small by lia. done. }
  destruct (Z.leb_spec 5 ihl); [|lia]. destruct (Z.leb_spec ihl 15); [|lia]. cbn [negb andb orb].
  destruct (Z.gtb_spec (14 + ihl * 4) (plen (encode_frame f))); [lia|]. do 2 f_equal. lia.
Qed.

Lemma frame_total_len : read_be_u16 (encode_frame f) 16 = Val (Some (f_total f)).
Proof.
  pose proof frame_len as Hl. unfold f_total, f_thl in Hl. unfold read_be_u16.
  destruct (Z.gtb_spec (16 + 2) (plen (encode_frame f))); [lia|].
  rewrite (frame_ip_byte 2 (f_total f / 256)) by done. cbn [mem_bind].
  rewrite (frame_ip_byte 3 (f_total f mod 256)) by done. cbn [mem_bind].
  do 2 f_equal. apply from_be16.
Qed.

Lemma frame_parse_tcp :
  parse_tcp (encode_frame f) (34 + Z.of_nat (length (f_opts f)))
    (f_total f - (20 + Z.of_nat (length (f_opts f)))) =
  Val (Some (mk_l4 (f_sport f) (f_dport f) (f_flags f) (f_thl f)
    (f_thl f + Z.of_nat (length (f_payload f))))).
Proof.
  pose proof frame_len as Hl. destruct (fw_topts f Hwf) as (k & Hk & Hk10).
  destruct (words_bound _ _ Hk) as [Hw Hwk]. unfold f_total, f_thl in *.
  set (off := 34 + Z.of_nat (length (f_opts f))) in *. unfold parse_tcp. cbn [size_TcpHdr rfc_headers].
  destruct (Z.gtb_spec (off + 20) (plen (encode_frame f))); [lia|].
  match goal with |- context [?a <? 20] => destruct (Z.ltb_spec a 20) end; [lia|].
  assert (load (encode_frame f) off 20 = Val (tcp_part f)) as ->.
  { rewrite frame_tcp_split. apply load_app; [by rewrite tcp_prefix_len|by rewrite tcp_len]. }
  cbn [mem_bind]. destruct Hwf as [_ _ _ _ _ Hsa Ht _ _ _ _ _].
  rewrite (frame_tcp_byte 12 (16 * (5 + words (f_topts f)))).
  2: { unfold tcp_part. revert Hsa. generalize (f_seqack f); intros l Hsa. explode l. }
  2: { unfold off. lia. }
  cbn [mem_bind]. rewrite Z.shiftr_div_pow2 by lia. change (2 ^ 4) with 16.
  rewrite (Z.mul_comm 16), Z.div_mul by lia. set (d := 5 + words (f_topts f)) in *.
  destruct (Z.leb_spec 5 d); [|lia]. destruct (Z.leb_spec d 15); [|lia]. cbn [negb andb orb].
  match goal with |- context [?a >? ?b] => destruct (Z.gtb_spec a b) end; [lia|].
  match goal with |- context [?a >? ?b] => destruct (Z.gtb_spec a b) end; [lia|]. cbn [orb].
  rewrite (frame_tcp_byte 13 (f_flags f)).
  2: { unfold tcp_part. revert Hsa. generalize (f_seqack f); intros l Hsa. explode l. }
  2: { unfold off. lia. }
  cbn [mem_bind]. do 3 f_equal; [apply from_be16|apply from_be16|lia|lia].
Qed.
End RoundTrip.

Lemma parse_tcp_frame_exact (f : tcp_frame) (t : ParsedPacket) :
  frame_wf f ->
  parse_packet (encode_frame f) t =
    Val (mk_ParsedPacket (timestamp_ns t) (f_src f ++ drop 4 (src_ip t))
           (f_dst f ++ drop 4 (dst_ip t)) (f_total f) (Z.of_nat (length (f_payload f)))
           (f_sport f) (f_dport f) 4 6 (f_flags f), Some tt).
Proof.
  intros Hwf. pose proof (frame_len f Hwf) as Hl. pose proof (fw_total f Hwf) as Htot.
  unfold parse_packet. change ETHER_HEADER_END with 14. change ETHER_HEADER_START with 0.
  cbn [size_EthHdr rfc_headers].
  assert (34 <= plen (encode_frame f)) by (unfold f_total, f_thl in Hl; lia).
  destruct (Z.gtb_spec 14 (plen (encode_frame f))); [lia|].
  assert (load (encode_frame f) 0 14 = Val (f_macs f ++ be16 2048)) as ->.
  { apply (load_app []); [done|by rewrite pre_len]. }
  cbn [mem_bind].
  assert (eth_ether_type (f_macs f ++ be16 2048) = Some EtherIpv4) as ->.
  { destruct Hwf as [Hm _ _ _ _ _ _ _ _ _ _ _]. cbn. unfold be16_at.
    by rewrite drop_app_length' by done. }
  unfold parse_ipv4_packet. change IPV4_HEADER_START with 14. change IPV4_HEADER_END with 34.
  cbn [size_Ipv4Hdr rfc_headers].
  destruct (Z.gtb_spec 34 (plen (encode_frame f))); [lia|].
  assert (load (encode_frame f) 14 20 = Val (ip_part f)) as ->.
  { apply (load_app (f_macs f ++ be16 2048)); [by rewrite pre_len|by rewrite ip_len]. }
  cbn [mem_bind]. rewrite (frame_header_len f Hwf). cbn [mem_bind].
  change (14 + 2) with 16. rewrite frame_total_len by done. cbn [mem_bind].
  destruct (Z.ltb_spec (f_total f) (20 + Z.of_nat (length (f_opts f))));
    [unfold f_total, f_thl in *; lia|].
  destruct (Hwf) as [_ Hid Hck Hs Hd _ _ _ _ _ _ _].
  assert (ipv4_proto (ip_part f) = 6 /\ ipv4_src_addr (ip_part f) = f_src f /\
          ipv4_dst_addr (ip_part f) = f_dst f) as (-> & -> & ->).
  { unfold ip_part. revert Hid Hck Hs Hd. generalize (f_ident f), (f_ipsum f), (f_src f), (f_dst f).
    intros i c s d ????. explode i. explode c. explode s. explode d. }
  unfold parse_l4. cbn [IpProto_Tcp rfc_headers]. rewrite Z.eqb_refl.
  replace (14 + (20 + Z.of_nat (length (f_opts f)))) with (34 + Z.of_nat (length (f_opts f))) by lia.
  rewrite frame_parse_tcp by done. cbn [mem_bind]. unfold set_l4, set_l3, copy_prefix; cbn.
  destruct (fw_topts f Hwf) as (k & Hk & Hk10).
  rewrite !wrap_small by (unfold in_width, pow2, f_total, f_thl in *; lia).
  rewrite Hs, Hd. do 3 f_equal. unfold saturating_sub, f_thl. lia.
Qed.

(** C15: every TCP segment in an IPv4 frame, with any IP and TCP options, is
    parsed back to its addresses, ports, flags and payload length; of the
    16-byte address fields only the first four bytes are written *)
Theorem parse_tcp_frame_roundtrip (f : tcp_frame) (t : ParsedPacket) :
  frame_wf f ->
  parse_packet (encode_frame f) t =
    Val (mk_ParsedPacket (timestamp_ns t) (f_src f ++ drop 4 (src_ip t))
           (f_dst f ++ drop 4 (dst_ip t)) (f_total f) (Z.of_nat (length (f_payload f)))
           (f_sport f) (f_dport f) 4 6 (f_flags f), Some tt).
Proof. apply parse_tcp_frame_exact. Qed.

(** A SYN to port 443 with four bytes of IP options. *)
Definition sample_frame : tcp_frame :=
  mk_tcp_frame (replicate 12 2) 0 [0; 1; 64; 0] 64 [0; 0] [10; 0; 0; 1] [10; 0; 0; 2]
    [1; 1; 1; 0] 40000 443 (replicate 8 0) TCP_SYN (replicate 6 0) [] [].

Lemma sample_frame_wf : frame_wf sample_frame.
Proof.
  constructor; try reflexivity; [by exists 1%nat; split; [|lia]|by exists 0%nat; split; [|lia]|..];
    unfold in_width, pow2; simpl; lia.
Qed.

Lemma parse_tcp_frame_roundtrip_witness :
  exists p, parse_packet (encode_frame sample_frame) zeroed_packet = Val (p, Some tt) /\
    src_ip_v4 p = from_ne_bytes [10; 0; 0; 1] /\ dst_port p = 443 /\ payload_length p = 0.
Proof.
  eexists. split; [exact (parse_tcp_frame_roundtrip sample_frame zeroed_packet sample_frame_wf)|].
  repeat split.
Defined.

Lemma parse_packet_memory_safe_witness :
  exists t' r, parse_packet [255; 0; 7] zeroed_packet = Val (t', r) /\ packet_wf t'.
Proof.
  apply (parse_packet_memory_safe [255; 0; 7] zeroed_packet); [|apply zeroed_packet_wf].
  repeat constructor; lia.
Defined.

Lemma symmetric_queue_id_symmetric_witness :
  let p := mk_ParsedPacket 0 (replicate 16 9) (replicate 16 3) 60 0 1234 443 6 6 2 in
  symmetric_queue_id (swap_packet p) 4 = symmetric_queue_id p 4 /\
  exists q, symmetric_queue_id p 4 = Some q /\ 0 <= q < 4.
Proof.
  pose proof (symmetric_queue_id_symmetric
    (mk_ParsedPacket 0 (replicate 16 9) (replicate 16 3) 60 0 1234 443 6 6 2) 4
    ltac:(unfold in_width, pow2; lia)) as [H1 H2].
  split; [exact H1|]. eexists. split; [reflexivity|exact H2].
Defined.

(** ** Indexing in user space

    Rust's slice indexing panics out of range: the same outcomes as a read of
    packet memory. *)

(** [u16::from_be_bytes([raw[i], raw[i + 1]])] *)
Definition load_be16 (raw : bytes) (i : Z) : mem Z :=
  let* a := load_u8 raw i in
  let* b := load_u8 raw (i + 1) in
  Val (from_be_bytes [a; b]).

Lemma plen_app (a b : bytes) : plen (a ++ b)%list = plen a + plen b.
Proof. unfold plen. rewrite length_app. lia. Qed.

Lemma plen_cons (b : Z) (l : bytes) : plen (b :: l) = 1 + plen l.
Proof. unfold plen. simpl length. lia. Qed.

Lemma plen_nonneg (l : bytes) : 0 <= plen l.
Proof. unfold plen. lia. Qed.

(** The access succeeds with a value that satisfies [P]. *)
Definition ends {A} (m : mem A) (P : A -> Prop) : Prop := exists a, m = Val a /\ P a.

Lemma ends_val {A} (a : A) (P : A -> Prop) : P a -> ends (Val a) P.
Proof. by exists a. Qed.

Lemma ends_bind {A B} (m : mem A) (f : A -> mem B) (Q : A -> Prop) (P : B -> Prop) :
  ends m Q -> (forall a, Q a -> ends (f a) P) -> ends (mem_bind m f) P.
Proof. intros (a & -> & Ha) Hf. by apply Hf. Qed.

Lemma load_u8_ends (raw : bytes) (i : Z) :
  bytes_ok raw -> 0 <= i -> i + 1 <= plen raw -> ends (load_u8 raw i) (fun b => 0 <= b < 256).
Proof.
  intros Hok Hi Hlen. exists (nth (Z.to_nat i) raw 0). split; [by apply load_u8_val|].
  by apply byte_ok_nth.
Qed.

Lemma load_be16_ends (raw : bytes) (i : Z) :
  bytes_ok raw -> 0 <= i -> i + 2 <= plen raw -> ends (load_be16 raw i) (fun x => 0 <= x < 65536).
Proof.
  intros Hok Hi Hlen. unfold load_be16.
  eapply ends_bind; [apply load_u8_ends; [done|lia..]|]. intros a Ha. cbv beta in Ha.
  eapply ends_bind; [apply load_u8_ends; [done|lia..]|]. intros b Hb. cbv beta in Hb.
  apply ends_val. unfold from_be_bytes. simpl. lia.
Qed.

(** Reads whose range follows from the guards passed so far. *)
Ltac ends_step :=
  match goal with
  | |- ends (Val _) _ => apply ends_val
  | |- ends (let _ := _ in _) _ => cbv zeta
  | |- ends (mem_bind (load_u8 _ _) _) _ =>
      eapply ends_bind; [apply load_u8_ends; [done|lia..]|cbv beta; intros ? ?]
  | |- ends (mem_bind (load_be16 _ _) _) _ =>
      eapply ends_bind; [apply load_be16_ends; [done|lia..]|cbv beta; intros ? ?]
  | |- ends (if ?b then _ else _) _ => destruct b eqn:?; bool_to_prop
  end.

Lemma load_ends (a : bytes) (off n : Z) :
  bytes_ok a -> 0 <= off -> 0 <= n -> off + n <= plen a ->
  ends (load a off n) (fun part => bytes_ok part /\ plen part = n).
Proof.
  intros Hok Ho Hn Hle. rewrite load_val by done. apply ends_val. split; [by apply bytes_ok_slice|].
  unfold plen in *. rewrite length_take, length_drop. lia.
Qed.

