(* ===== verification/Xdp.v ===== *)
(** * The ingress and egress XDP programs ([ingress-ebpf], [egress-ebpf])

    The stages are chained by BPF tail calls: a successful call never returns,
    a failed one falls through.  Each program is therefore a computation
    [comp] over the kernel state, parametric in [tail]; [tail_call] ties the knot
    with the kernel's limit on nested tail calls as its fuel, so running out
    of fuel is exactly the failing call the kernel produces.

    Map contents are [kmaps]; what the programs write is [kstate].  BPF maps
    are finite maps, the LPM tries are their lookup functions, and the LRU
    maps keep the kernel's freedom to evict through [LruInsert]. *)

From Stdlib Require Import ZArith Lia List.
From stdpp Require Import base list gmap strings.
From S2P Require Import Prelude Abi PortRule Parsing.

Local Open Scope Z_scope.

(** ** Maps and state *)

Record RateState : Type := mk_RateState { rs_count : Z; rs_window_start : Z }.

#[export] Instance RateState_eq_dec : EqDecision RateState.
Proof. solve_decision. Defined.

Inductive prog : Type :=
  p_access_control | p_rate_limit | p_protocol_filter | p_transmission.

#[export] Instance prog_eq_dec : EqDecision prog.
Proof. solve_decision. Defined.

(** Inserting into an LRU hash map may evict other keys, or fail. *)
Class LruInsert : Type := lru_insert : gmap Z RateState -> Z -> RateState -> gmap Z RateState.
Class LruInsertLaws (L : LruInsert) : Prop := {
  lru_self : forall m k v, lru_insert m k v !! k = Some v \/ lru_insert m k v = m;
  lru_other : forall m k v j x, j <> k -> lru_insert m k v !! j = Some x -> m !! j = Some x;
}.

(** A map with room to spare. *)
#[export] Instance lru_plain : LruInsert := fun m k v => <[k := v]> m.
#[export] Instance lru_plain_laws : LruInsertLaws lru_plain.
Proof.
  split; intros; unfold lru_insert, lru_plain in *.
  - left. apply lookup_insert_eq.
  - by rewrite lookup_insert_ne in H0 by congruence.
Qed.

Record kmaps : Type := mk_kmaps {
  PROGRAM_ARRAY : gmap Z prog;
  NEXT_STAGE : list Z;
  IPV4_SRC_WHITELIST : gmap Z PortRule;  IPV6_SRC_WHITELIST : gmap Z PortRule;
  IPV4_DST_WHITELIST : gmap Z PortRule;  IPV6_DST_WHITELIST : gmap Z PortRule;
  IPV4_SRC_BLACKLIST : gmap Z PortRule;  IPV6_SRC_BLACKLIST : gmap Z PortRule;
  IPV4_DST_BLACKLIST : gmap Z PortRule;  IPV6_DST_BLACKLIST : gmap Z PortRule;
  GEO_BLOCK_V4 : Z -> Z -> option Z;     (* longest-prefix lookup: prefix length, data *)
  GEO_BLOCK_V6 : Z -> Z -> option Z;
  RATE_LIMIT_CONFIG : list Z;
  IPV4_HTTP_SERVICE : gmap bytes Z;      IPV6_HTTP_SERVICE : gmap bytes Z;
  SSH_WHITE_LIST_ENABLE : list Z;
  IPV4_SSH_SERVICE : gmap bytes Z;       IPV6_SSH_SERVICE : gmap bytes Z;
  IPV4_SSH_WHITE_LIST : gmap Z Z;        IPV6_SSH_WHITE_LIST : gmap Z Z;
  IPV4_SSH_BLACK_LIST : gmap Z Z;        IPV6_SSH_BLACK_LIST : gmap Z Z;
  NUM_QUEUES : list Z;
  XSKS_MAP : gset Z;                     (* queues with a bound AF_XDP socket *)
  ring_has_room : list DropEvent -> bool;
  bpf_ktime : nat -> Z;                  (* the n-th clock reading *)
}.

Record rate_maps : Type := mk_rate_maps {
  PACKET_RATE_MAP : gmap Z RateState;
  SYN_RATE_MAP : gmap Z RateState;
  UDP_RATE_MAP : gmap Z RateState;
  DNS_RATE_MAP : gmap Z RateState;
}.

Record kstate : Type := mk_kstate {
  PARSED_PACKET : option ParsedPacket;   (* slot 0 of the per-CPU array *)
  rates_v4 : rate_maps;
  rates_v6 : rate_maps;
  DROP_EVENTS : list DropEvent;
  ticks : nat;                           (* clock readings so far *)
}.

Definition set_parsed (st : kstate) (p : ParsedPacket) : kstate :=
  mk_kstate (Some p) (rates_v4 st) (rates_v6 st) (DROP_EVENTS st) (ticks st).
Definition set_rates (st : kstate) (r4 r6 : rate_maps) : kstate :=
  mk_kstate (PARSED_PACKET st) r4 r6 (DROP_EVENTS st) (ticks st).
Definition set_drops (st : kstate) (d : list DropEvent) : kstate :=
  mk_kstate (PARSED_PACKET st) (rates_v4 st) (rates_v6 st) d (ticks st).
Definition tick (st : kstate) : kstate :=
  mk_kstate (PARSED_PACKET st) (rates_v4 st) (rates_v6 st) (DROP_EVENTS st) (S (ticks st)).

(** The context of one packet: its bytes and the queue it arrived on. *)
Record xdp_ctx : Type := mk_ctx { ctx_data : bytes; rx_queue_index : Z }.

Inductive verdict : Type :=
  XDP_PASS | XDP_DROP | XDP_REDIRECT (queue : Z) | Undefined.

#[export] Instance verdict_eq_dec : EqDecision verdict.
Proof. solve_decision. Defined.

Section Actions.
Context `{NT : NetworkTypes} `{LI : LruInsert}.
Variable M : kmaps.

(** ** action/access_control.rs *)

(** [map.get(&ip)] and [rule.contains(port)] *)
Definition rule_matches (m : gmap Z PortRule) (ip port : Z) : bool :=
  match m !! ip with Some rule => contains rule port | None => false end.

Definition ipv4_is_geo_blocked (p : ParsedPacket) : bool :=
  bool_decide (is_Some (GEO_BLOCK_V4 M 32 (src_ip_v4 p))).

Definition ipv6_is_geo_blocked (p : ParsedPacket) : bool :=
  bool_decide (is_Some (GEO_BLOCK_V6 M 128 (src_ip_v6 p))).

Definition ipv4_is_whitelisted (p : ParsedPacket) : bool :=
  if rule_matches (IPV4_SRC_WHITELIST M) (src_ip_v4 p) (src_port p) then true
  else if rule_matches (IPV4_DST_WHITELIST M) (dst_ip_v4 p) (dst_port p) then true
  else false.

Definition ipv6_is_whitelisted (p : ParsedPacket) : bool :=
  if rule_matches (IPV6_SRC_WHITELIST M) (src_ip_v6 p) (src_port p) then true
  else if rule_matches (IPV6_DST_WHITELIST M) (dst_ip_v6 p) (dst_port p) then true
  else false.

Definition ipv4_is_blacklisted (p : ParsedPacket) : bool :=
  if rule_matches (IPV4_SRC_BLACKLIST M) (src_ip_v4 p) (src_port p) then true
  else if rule_matches (IPV4_DST_BLACKLIST M) (dst_ip_v4 p) (dst_port p) then true
  else false.

Definition ipv6_is_blacklisted (p : ParsedPacket) : bool :=
  if rule_matches (IPV6_SRC_BLACKLIST M) (src_ip_v6 p) (src_port p) then true
  else if rule_matches (IPV6_DST_BLACKLIST M) (dst_ip_v6 p) (dst_port p) then true
  else false.

(** ** action/rate_limit.rs *)

Definition get_config (index default : Z) : Z :=
  match RATE_LIMIT_CONFIG M !! Z.to_nat index with
  | Some v => if v >? 0 then v else default
  | None => default
  end.

Definition is_syn_only (p : ParsedPacket) : bool :=
  (protocol p =? IpProto_Tcp) && has_flag (tcp_flags p) TCP_SYN
  && negb (has_flag (tcp_flags p) TCP_ACK).

(** The verdict ([true]: over the limit) and the updated map. *)
Definition check_rate (m : gmap Z RateState) (key now window limit : Z) :
    bool * gmap Z RateState :=
  match m !! key with
  | Some state =>
      if wrapping_sub 64 now (rs_window_start state) >=? window
      then (false, <[key := mk_RateState 1 now]> m)
      else
        let count := wrapping_add 64 (rs_count state) 1 in
        (count >? limit, <[key := mk_RateState count (rs_window_start state)]> m)
  | None => (false, lru_insert m key (mk_RateState 1 now))
  end.

(** The four checks on one family's maps, in order, stopping at a hit. *)
Definition family_should_drop (r : rate_maps) (p : ParsedPacket) (src now : Z) :
    option Z * rate_maps :=
  let window := get_config CFG_WINDOW_NS DEFAULT_WINDOW_NS in
  let '(hit, m1) := check_rate (PACKET_RATE_MAP r) src now window
                      (get_config CFG_PACKET_RATE DEFAULT_PACKET_RATE) in
  let r := mk_rate_maps m1 (SYN_RATE_MAP r) (UDP_RATE_MAP r) (DNS_RATE_MAP r) in
  if hit then (Some DROP_REASON_RATE_LIMIT_PKT, r)
  else
    let '(hit, m2) := if is_syn_only p
      then check_rate (SYN_RATE_MAP r) src now window (get_config CFG_SYN_RATE DEFAULT_SYN_RATE)
      else (false, SYN_RATE_MAP r) in
    let r := mk_rate_maps (PACKET_RATE_MAP r) m2 (UDP_RATE_MAP r) (DNS_RATE_MAP r) in
    if hit then (Some DROP_REASON_RATE_LIMIT_SYN, r)
    else
      let '(hit, m3) := if protocol p =? IpProto_Udp
        then check_rate (UDP_RATE_MAP r) src now window (get_config CFG_UDP_RATE DEFAULT_UDP_RATE)
        else (false, UDP_RATE_MAP r) in
      let r := mk_rate_maps (PACKET_RATE_MAP r) (SYN_RATE_MAP r) m3 (DNS_RATE_MAP r) in
      if hit then (Some DROP_REASON_RATE_LIMIT_UDP, r)
      else
        let '(hit, m4) := if (protocol p =? IpProto_Udp) && (dst_port p =? 53)
          then check_rate (DNS_RATE_MAP r) src now window (get_config CFG_DNS_RATE DEFAULT_DNS_RATE)
          else (false, DNS_RATE_MAP r) in
        let r := mk_rate_maps (PACKET_RATE_MAP r) (SYN_RATE_MAP r) (UDP_RATE_MAP r) m4 in
        if hit then (Some DROP_REASON_RATE_LIMIT_DNS, r) else (None, r).

Definition ipv4_should_drop (st : kstate) (p : ParsedPacket) : option Z * kstate :=
  let now := bpf_ktime M (ticks st) in
  let st := tick st in
  let '(reason, r) := family_should_drop (rates_v4 st) p (src_ip_v4 p) now in
  (reason, set_rates st r (rates_v6 st)).

Definition ipv6_should_drop (st : kstate) (p : ParsedPacket) : option Z * kstate :=
  let now := bpf_ktime M (ticks st) in
  let st := tick st in
  let '(reason, r) := family_should_drop (rates_v6 st) p (src_ip_v6 p) now in
  (reason, set_rates st (rates_v4 st) r).

Definition should_drop (st : kstate) (p : ParsedPacket) : option Z * kstate :=
  if ip_version p =? as_u8 V4 then ipv4_should_drop st p
  else if ip_version p =? as_u8 V6 then ipv6_should_drop st p
  else (None, st).

(** ** action/protocol_filter.rs *)

Definition sub (d : bytes) (i j : nat) : bytes := take (j - i) (drop i d).

Definition http_method_of (d : bytes) : option Z :=
  let p := take 4 d in
  if bool_decide (p = str_bytes "GET ") then Some (Z.shiftl 1 0)
  else if bool_decide (p = str_bytes "POST") && bool_decide (sub d 4 5 = str_bytes " ") then Some (Z.shiftl 1 1)
  else if bool_decide (p = str_bytes "PUT ") then Some (Z.shiftl 1 2)
  else if bool_decide (p = str_bytes "DELE") && bool_decide (sub d 4 7 = str_bytes "TE ") then Some (Z.shiftl 1 3)
  else if bool_decide (p = str_bytes "HEAD") && bool_decide (sub d 4 5 = str_bytes " ") then Some (Z.shiftl 1 4)
  else if bool_decide (p = str_bytes "OPTI") && bool_decide (sub d 4 8 = str_bytes "ONS ") then Some (Z.shiftl 1 5)
  else if bool_decide (p = str_bytes "PATC") && bool_decide (sub d 4 6 = str_bytes "H ") then Some (Z.shiftl 1 6)
  else if bool_decide (p = str_bytes "TRAC") && bool_decide (sub d 4 6 = str_bytes "E ") then Some (Z.shiftl 1 7)
  else if bool_decide (p = str_bytes "CONN") && bool_decide (sub d 4 8 = str_bytes "ECT ") then Some (Z.shiftl 1 8)
  else None.

Definition get_http_request_method (pkt : bytes) (offset : Z) : mem (option Z) :=
  if offset + 8 >? plen pkt then Val None
  else let* data := load pkt offset 8 in Val (http_method_of data).

Definition http_service_violation (pkt : bytes) (p : ParsedPacket) (m : gmap bytes Z)
    (destination : bytes) : mem bool :=
  match m !! destination with
  | None => Val false
  | Some allow_method =>
      if negb (protocol p =? IpProto_Tcp) then Val false
      else if has_flag (tcp_flags p) (Z.lor (Z.lor TCP_SYN TCP_RST) TCP_FIN) then Val false
      else if negb (Z.land (tcp_flags p) (Z.lor TCP_PSH TCP_ACK) =? Z.lor TCP_PSH TCP_ACK) then Val false
      else if 15 >? plen pkt then Val false
      else
        let* l4_offset :=
          (if ip_version p =? as_u8 V4 then
             let* b := load_u8 pkt 14 in Val (Some (14 + Z.land b 15 * 4))
           else if ip_version p =? as_u8 V6 then Val (Some (14 + 40))
           else Val None) in
        let! off := l4_offset else Val false in
        if off + 13 >? plen pkt then Val false
        else
          let* b := load_u8 pkt (off + 12) in
          let doff := Z.shiftr b 4 in
          if negb ((5 <=? doff) && (doff <=? 15)) then Val false
          else
            let* meth := get_http_request_method pkt (off + doff * 4) in
            match meth with
            | Some http_method => Val (Z.land allow_method http_method =? 0)
            | None => Val false
            end
  end.

(** [matches!(SSH_WHITE_LIST_ENABLE.get(0), Some(&v) if v != 0)] *)
Definition ssh_white_list_enabled : bool :=
  match SSH_WHITE_LIST_ENABLE M !! 0%nat with Some v => negb (v =? 0) | None => false end.

Definition ipv4_ssh_service_violation (source destination : bytes) : bool :=
  if bool_decide (is_Some (IPV4_SSH_SERVICE M !! destination)) then
    if ssh_white_list_enabled
    then bool_decide (IPV4_SSH_WHITE_LIST M !! AddrPortV4_ip source = None)
    else bool_decide (is_Some (IPV4_SSH_BLACK_LIST M !! AddrPortV4_ip source))
  else false.

Definition ipv6_ssh_service_violation (source destination : bytes) : bool :=
  if bool_decide (is_Some (IPV6_SSH_SERVICE M !! destination)) then
    if ssh_white_list_enabled
    then bool_decide (IPV6_SSH_WHITE_LIST M !! AddrPortV6_ip source = None)
    else bool_decide (is_Some (IPV6_SSH_BLACK_LIST M !! AddrPortV6_ip source))
  else false.

Definition ipv4_service_rule_violation (pkt : bytes) (p : ParsedPacket) : mem bool :=
  let* http := http_service_violation pkt p (IPV4_HTTP_SERVICE M) (dst_addr_v4 p) in
  Val (http || ipv4_ssh_service_violation (src_addr_v4 p) (dst_addr_v4 p)).

Definition ipv6_service_rule_violation (pkt : bytes) (p : ParsedPacket) : mem bool :=
  let* http := http_service_violation pkt p (IPV6_HTTP_SERVICE M) (dst_addr_v6 p) in
  Val (http || ipv6_ssh_service_violation (src_addr_v6 p) (dst_addr_v6 p)).

(** ** main.rs *)

Definition comp : Type := kstate -> verdict * kstate.
Definition ret (v : verdict) : comp := fun st => (v, st).

Definition emit_drop_event (p : ParsedPacket) (reason : Z) (st : kstate) : kstate :=
  if ring_has_room M (DROP_EVENTS st) then
    let now := bpf_ktime M (ticks st) in
    let st := tick st in
    set_drops st (DROP_EVENTS st ++
      [mk_DropEvent now (src_ip p) (dst_ip p) (src_port p) (dst_port p) (protocol p) reason
         (ip_version p)])
  else st.

(** [DROP_EVENTS] gets the event and the packet is dropped. *)
Definition drop_with (p : ParsedPacket) (reason : Z) : comp :=
  fun st => (XDP_DROP, emit_drop_event p reason st).

Section Programs.
(** [tail slot k]: call the program in [slot]; [k] runs if the call fails. *)
Variable tail : Z -> comp -> comp.
Variable ctx : xdp_ctx.

Definition chain_next (current_id : Z) (k : comp) : comp := fun st =>
  let fallback := tail STAGE_TRANSMISSION k in
  match NEXT_STAGE M !! Z.to_nat current_id with
  | Some next_slot =>
      if negb (next_slot =? STAGE_NONE) then tail next_slot fallback st else fallback st
  | None => fallback st
  end.

Definition packet_intake (k : comp) : comp := fun st =>
  match PARSED_PACKET st with
  | None => k st
  | Some t =>
      match parse_packet (ctx_data ctx) t with
      | Fault => (Undefined, st)
      | Val (t', None) => k (set_parsed st t')
      | Val (t', Some _) =>
          let now := bpf_ktime M (ticks st) in
          let t'' := mk_ParsedPacket now (src_ip t') (dst_ip t') (packet_length t')
                       (payload_length t') (src_port t') (dst_port t') (ip_version t')
                       (protocol t') (tcp_flags t') in
          chain_next STAGE_ENTRY k (tick (set_parsed st t''))
      end
  end.

Definition net_guardia : comp := packet_intake (tail STAGE_TRANSMISSION (ret XDP_PASS)).

(** [Ok(action)] returns it; [Err(())] is the continuation [err]. *)
Definition try_access_control (err : comp) : comp := fun st =>
  match PARSED_PACKET st with
  | None => err st
  | Some p =>
      if ip_version p =? as_u8 V4 then
        if ipv4_is_whitelisted p then tail STAGE_TRANSMISSION err st
        else if ipv4_is_geo_blocked p then drop_with p DROP_REASON_GEO_BLOCK st
        else if ipv4_is_blacklisted p then drop_with p DROP_REASON_ACL_BLACKLIST st
        else chain_next STAGE_ACCESS_CONTROL err st
      else if ip_version p =? as_u8 V6 then
        if ipv6_is_whitelisted p then tail STAGE_TRANSMISSION err st
        else if ipv6_is_geo_blocked p then drop_with p DROP_REASON_GEO_BLOCK st
        else if ipv6_is_blacklisted p then drop_with p DROP_REASON_ACL_BLACKLIST st
        else chain_next STAGE_ACCESS_CONTROL err st
      else chain_next STAGE_ACCESS_CONTROL err st
  end.

Definition access_control : comp :=
  try_access_control (chain_next STAGE_ACCESS_CONTROL (ret XDP_PASS)).

Definition try_rate_limit (err : comp) : comp := fun st =>
  match PARSED_PACKET st with
  | None => err st
  | Some p =>
      let '(reason, st) := should_drop st p in
      match reason with
      | Some reason => drop_with p reason st
      | None => chain_next STAGE_RATE_LIMIT err st
      end
  end.

Definition rate_limit : comp := try_rate_limit (chain_next STAGE_RATE_LIMIT (ret XDP_PASS)).

Definition try_protocol_filter (err : comp) : comp := fun st =>
  match PARSED_PACKET st with
  | None => err st
  | Some p =>
      let violation :=
        if ip_version p =? as_u8 V4 then ipv4_service_rule_violation (ctx_data ctx) p
        else if ip_version p =? as_u8 V6 then ipv6_service_rule_violation (ctx_data ctx) p
        else Val false in
      match violation with
      | Fault => (Undefined, st)
      | Val true => drop_with p DROP_REASON_PROTOCOL_FILTER st
      | Val false => chain_next STAGE_SERVICE err st
      end
  end.

Definition protocol_filter : comp :=
  try_protocol_filter (chain_next STAGE_SERVICE (ret XDP_PASS)).

Definition compute_symmetric_queue_id (st : kstate) : option Z :=
  let! p := PARSED_PACKET st else None in
  let! num_q := NUM_QUEUES M !! 0%nat else None in
  symmetric_queue_id p num_q.

(** [XSKS_MAP.redirect(queue_id, 0)], [XDP_PASS] when no socket is bound. *)
Definition redirect (queue_id : Z) : verdict :=
  if bool_decide (queue_id ∈ XSKS_MAP M) then XDP_REDIRECT queue_id else XDP_PASS.

Definition transmission : comp := fun st =>
  (redirect (default (rx_queue_index ctx) (compute_symmetric_queue_id st)), st).

Definition body (p : prog) : comp :=
  match p with
  | p_access_control => access_control
  | p_rate_limit => rate_limit
  | p_protocol_filter => protocol_filter
  | p_transmission => transmission
  end.
End Programs.

(** Nested tail calls: [calls] of them are left. *)
Fixpoint tail_call (ctx : xdp_ctx) (calls : nat) (slot : Z) (k : comp) : comp := fun st =>
  match calls with
  | O => k st
  | S calls =>
      match PROGRAM_ARRAY M !! slot with
      | Some p => body (tail_call ctx calls) ctx p st
      | None => k st
      end
  end.

Definition MAX_TAIL_CALLS : nat := 33.

(** One packet through the ingress program. *)
Definition ingress (ctx : xdp_ctx) : comp := net_guardia (tail_call ctx MAX_TAIL_CALLS) ctx.

(** ** egress-ebpf/src/main.rs *)

Definition egress_queue_id (ctx : xdp_ctx) : mem (option Z) :=
  let* r := parse_packet (ctx_data ctx) zeroed_packet in
  match r with
  | (_, None) => Val None
  | (pkt, Some _) =>
      let! num_q := NUM_QUEUES M !! 0%nat else Val None in
      Val (symmetric_queue_id pkt num_q)
  end.

Definition egress (ctx : xdp_ctx) : mem verdict :=
  let* q := egress_queue_id ctx in
  Val (redirect (default (rx_queue_index ctx) q)).

End Actions.

(** ** The rate limiter *)

Section RateLimiter.
Context `{LI : LruInsert} {LL : LruInsertLaws LI}.

(** A source's packets at the given times; the verdict of each. *)
Fixpoint run_rate (m : gmap Z RateState) (key window limit : Z) (nows : list Z) : list bool :=
  match nows with
  | [] => []
  | now :: nows =>
      let '(hit, m) := check_rate m key now window limit in
      hit :: run_rate m key window limit nows
  end.

(** [now] opens a new window for [key]: no entry, or an expired one. *)
Definition opens_window (m : gmap Z RateState) (key now window : Z) : Prop :=
  match m !! key with
  | Some s => wrapping_sub 64 now (rs_window_start s) >= window
  | None => lru_insert m key (mk_RateState 1 now) !! key = Some (mk_RateState 1 now)
  end.

Lemma check_rate_opens (m : gmap Z RateState) (key now window limit : Z) :
  opens_window m key now window ->
  exists m', check_rate m key now window limit = (false, m') /\ m' !! key = Some (mk_RateState 1 now).
Proof.
  unfold opens_window, check_rate. destruct (m !! key) as [s|] eqn:Hm; [|by eauto].
  intros Hge. destruct (Z.geb_spec (wrapping_sub 64 now (rs_window_start s)) window); [|lia].
  eexists; split; [done|]. by rewrite lookup_insert_eq.
Qed.

(** Inside the window, after [c] packets, the remaining [n] get what is left. *)
Lemma run_rate_inside (m : gmap Z RateState) (key window limit t0 c : Z) (nows : list Z) :
  0 <= t0 -> t0 + window <= pow2 64 -> 1 <= c -> 1 <= limit ->
  c + Z.of_nat (length nows) < pow2 64 ->
  Forall (fun t => t0 <= t < t0 + window) nows ->
  m !! key = Some (mk_RateState c t0) ->
  run_rate m key window limit nows =
    replicate (Nat.min (length nows) (Z.to_nat (limit - c))) false ++
    replicate (length nows - Z.to_nat (limit - c)) true.
Proof.
  intros Ht0 Hw Hc Hlim Hn Hall. revert m c Hc Hn.
  induction Hall as [|now nows Hnow Hall IH]; intros m c Hc Hn Hm; [done|].
  simpl. unfold check_rate. rewrite Hm. simpl length in Hn. rewrite Nat2Z.inj_succ in Hn.
  cbn [rs_count rs_window_start].
  assert (wrapping_sub 64 now t0 = now - t0) as ->
    by (apply wrap_small; unfold in_width; lia).
  assert (wrapping_add 64 c 1 = c + 1) as -> by (apply wrap_small; unfold in_width; lia).
  destruct (Z.geb_spec (now - t0) window); [lia|].
  rewrite (IH _ (c + 1)) by (try lia; by rewrite lookup_insert_eq).
  destruct (Z.gtb_spec (c + 1) limit).
  - replace (Z.to_nat (limit - c)) with 0%nat by lia.
    replace (Z.to_nat (limit - (c + 1))) with 0%nat by lia.
    by rewrite !Nat.min_0_r, !Nat.sub_0_r.
  - replace (Z.to_nat (limit - c)) with (S (Z.to_nat (limit - (c + 1)))) by lia. done.
Qed.

(** within one window a source gets exactly [limit] packets through and
    every later one is over the limit, however many there are *)
Theorem rate_limit_window_exact (m : gmap Z RateState) (key window limit t0 : Z) (nows : list Z) :
  0 <= t0 -> t0 + window <= pow2 64 -> 1 <= limit ->
  Z.of_nat (length nows) + 1 < pow2 64 ->
  opens_window m key t0 window ->
  Forall (fun t => t0 <= t < t0 + window) nows ->
  run_rate m key window limit (t0 :: nows) =
    replicate (Nat.min (S (length nows)) (Z.to_nat limit)) false ++
    replicate (S (length nows) - Z.to_nat limit) true.
Proof.
  intros Ht0 Hw Hlim Hn Hopen Hall. simpl.
  destruct (check_rate_opens m key t0 window limit Hopen) as (m' & -> & Hm').
  rewrite (run_rate_inside m' key window limit t0 1) by (done || lia).
  by replace (Z.to_nat limit) with (S (Z.to_nat (limit - 1))) by lia.
Qed.

(** Packets of several sources, interleaved; the verdict of each with its key. *)
Fixpoint run_rates (m : gmap Z RateState) (window limit : Z) (evs : list (Z * Z)) :
    list (Z * bool) :=
  match evs with
  | [] => []
  | (key, now) :: evs =>
      let '(hit, m) := check_rate m key now window limit in
      (key, hit) :: run_rates m window limit evs
  end.

(** [seen] packets of [key] so far bound its counter. *)
Definition counted (m : gmap Z RateState) (key seen : Z) : Prop :=
  forall s, m !! key = Some s -> 0 <= rs_count s <= seen.

Lemma check_rate_counted (m : gmap Z RateState) (k key now window limit seen : Z) :
  0 <= seen -> seen + 1 < pow2 64 -> counted m key seen ->
  counted (check_rate m k now window limit).2 key (if k =? key then seen + 1 else seen).
Proof.
  intros Hs Hb Hc s. unfold check_rate.
  destruct (m !! k) as [x|] eqn:Hk; [destruct (_ >=? _)|]; cbn [snd];
    destruct (Z.eqb_spec k key) as [->|Hne].
  - rewrite lookup_insert_eq. intros [= <-]. simpl. lia.
  - rewrite lookup_insert_ne by done. apply Hc.
  - rewrite lookup_insert_eq. intros [= <-]. cbn [rs_count]. destruct (Hc x Hk).
    unfold wrapping_add. rewrite wrap_small by (unfold in_width; lia). lia.
  - rewrite lookup_insert_ne by done. apply Hc.
  - destruct (lru_self m key (mk_RateState 1 now)) as [-> | ->]; [intros [= <-]; simpl; lia|].
    by rewrite Hk.
  - intros Hl. apply Hc. eapply lru_other; eauto.
Qed.

Lemma run_rates_counted (m : gmap Z RateState) (key window limit seen : Z) (evs : list (Z * Z)) :
  0 <= seen -> seen + Z.of_nat (length evs) < pow2 64 -> counted m key seen ->
  Forall (fun h => h = false)
    (take (Z.to_nat (limit - seen))
       (snd <$> filter (fun e => e.1 = key) (run_rates m window limit evs))).
Proof.
  revert m seen. induction evs as [|[k now] evs IH]; intros m seen Hs Hb Hc; [by destruct (Z.to_nat (limit - seen))|].
  cbn [run_rates]. simpl length in Hb. rewrite Nat2Z.inj_succ in Hb.
  pose proof (check_rate_counted m k key now window limit seen Hs ltac:(lia) Hc) as Hc'.
  destruct (check_rate m k now window limit) as [hit m'] eqn:Hcr. cbn [snd] in Hc'.
  rewrite filter_cons. cbn [fst]. destruct (decide (k = key)) as [->|Hne].
  - rewrite Z.eqb_refl in Hc'. rewrite fmap_cons. cbn [snd].
    destruct (Z.to_nat (limit - seen)) as [|n] eqn:Hn; [constructor|]. simpl. constructor.
    + unfold check_rate in Hcr. destruct (m !! key) as [s|] eqn:Hm; [|by simplify_eq].
      destruct (_ >=? _); [by simplify_eq|]. injection Hcr as <- _. destruct (Hc s Hm).
      unfold wrapping_add. rewrite wrap_small by (unfold in_width; lia).
      destruct (Z.gtb_spec (rs_count s + 1) limit); [lia|done].
    + replace n with (Z.to_nat (limit - (seen + 1))) by lia. apply IH; [lia|lia|done].
  - destruct (Z.eqb_spec k key); [done|]. apply IH; [lia|lia|done].
Qed.

(** the first [limit] packets of a source are never rate limited, whatever
    the other sources send in between and whatever the LRU map evicts *)
Theorem rate_limit_no_interference (m : gmap Z RateState) (key window limit : Z)
    (evs : list (Z * Z)) :
  m !! key = None -> Z.of_nat (length evs) < pow2 64 ->
  Forall (fun h => h = false)
    (take (Z.to_nat limit)
       (snd <$> filter (fun e => e.1 = key) (run_rates m window limit evs))).
Proof.
  intros Hm Hl. pose proof (run_rates_counted m key window limit 0 evs) as H.
  rewrite Z.sub_0_r in H. apply H; [lia|lia|].
  intros s Hs. by rewrite Hm in Hs.
Qed.
End RateLimiter.

Lemma rate_limit_no_interference_witness :
  Forall (fun h => h = false) (take 2 (snd <$> filter (fun e => e.1 = 7)
    (run_rates (LI := lru_plain) ∅ 1000 2 [(7, 5); (8, 5); (8, 6); (8, 7); (7, 9); (7, 10)]))).
Proof.
  apply (rate_limit_no_interference (LI := lru_plain) ∅ 7 1000 2
    [(7, 5); (8, 5); (8, 6); (8, 7); (7, 9); (7, 10)]); [by vm_compute|unfold pow2; simpl; lia].
Defined.


Lemma rate_limit_window_exact_witness :
  run_rate (LI := lru_plain) ∅ 7 1000 2 [5; 6; 1004] = [false; false; true].
Proof.
  apply (rate_limit_window_exact (LI := lru_plain) ∅ 7 1000 2 5 [6; 1004]);
    [lia|unfold pow2; lia|lia|unfold pow2; simpl; lia|by vm_compute|].
  repeat constructor; lia.
Defined.

(** ** Every drop has a reason, and no read leaves the packet *)

Section Justified.
Context `{NT : NetworkTypes} {NL : NetworkTypesLaws NT} `{LI : LruInsert}.
Variables (M : kmaps) (ctx : xdp_ctx).
Hypothesis Hdata : bytes_ok (ctx_data ctx).

Definition is_whitelisted (p : ParsedPacket) : bool :=
  if ip_version p =? 4 then ipv4_is_whitelisted M p else ipv6_is_whitelisted M p.
Definition is_blacklisted (p : ParsedPacket) : bool :=
  if ip_version p =? 4 then ipv4_is_blacklisted M p else ipv6_is_blacklisted M p.
Definition is_geo_blocked (p : ParsedPacket) : bool :=
  if ip_version p =? 4 then ipv4_is_geo_blocked M p else ipv6_is_geo_blocked M p.

(** The kernel's state when a packet enters the chain of stages: its record is stored and
    stamped with the time, and nothing else has changed. *)
Definition entered (st : kstate) : kstate :=
  match PARSED_PACKET st with
  | None => st
  | Some t =>
      match parse_packet (ctx_data ctx) t with
      | Fault => st
      | Val (t', None) => set_parsed st t'
      | Val (t', Some _) =>
          tick (set_parsed st
            (mk_ParsedPacket (bpf_ktime M (ticks st)) (src_ip t') (dst_ip t') (packet_length t')
               (payload_length t') (src_port t') (dst_port t') (ip_version t') (protocol t') (tcp_flags t')))
      end
  end.

(** The state after [n] rate-limit stages have looked at [p]: one of a chain that lists the
    stage once has passed none. *)
Definition checks (n : nat) (p : ParsedPacket) (st : kstate) : kstate :=
  Nat.iter n (fun st => (should_drop M st p).2) st.

(** The maps that count the source of [p], and its key in them. *)
Definition source_rates (st : kstate) (p : ParsedPacket) : rate_maps :=
  if ip_version p =? 4 then rates_v4 st else rates_v6 st.
Definition source_key (p : ParsedPacket) : Z :=
  if ip_version p =? 4 then src_ip_v4 p else src_ip_v6 p.

(** The map [m] has counted the source of [p] in a window that is still open at the next
    reading of the clock, and one packet more is above the limit. *)
Definition over_limit (st : kstate) (p : ParsedPacket) (m : gmap Z RateState) (limit : Z) : Prop :=
  exists s, m !! source_key p = Some s /\
    wrapping_sub 64 (bpf_ktime M (ticks st)) (rs_window_start s) < get_config M CFG_WINDOW_NS DEFAULT_WINDOW_NS /\
    wrapping_add 64 (rs_count s) 1 > limit.

(** What each drop reason promises about the packet, in the state [st] it was decided in. *)
Inductive justified (st : kstate) (p : ParsedPacket) : Z -> Prop :=
  | just_geo :
      is_whitelisted p = false -> is_geo_blocked p = true -> justified st p DROP_REASON_GEO_BLOCK
  | just_acl :
      is_whitelisted p = false -> is_geo_blocked p = false -> is_blacklisted p = true ->
      justified st p DROP_REASON_ACL_BLACKLIST
  | just_pkt :
      over_limit st p (PACKET_RATE_MAP (source_rates st p)) (get_config M CFG_PACKET_RATE DEFAULT_PACKET_RATE) ->
      justified st p DROP_REASON_RATE_LIMIT_PKT
  | just_syn :
      is_syn_only p = true ->
      over_limit st p (SYN_RATE_MAP (source_rates st p)) (get_config M CFG_SYN_RATE DEFAULT_SYN_RATE) ->
      justified st p DROP_REASON_RATE_LIMIT_SYN
  | just_udp :
      protocol p = IpProto_Udp ->
      over_limit st p (UDP_RATE_MAP (source_rates st p)) (get_config M CFG_UDP_RATE DEFAULT_UDP_RATE) ->
      justified st p DROP_REASON_RATE_LIMIT_UDP
  | just_dns :
      protocol p = IpProto_Udp -> dst_port p = 53 ->
      over_limit st p (DNS_RATE_MAP (source_rates st p)) (get_config M CFG_DNS_RATE DEFAULT_DNS_RATE) ->
      justified st p DROP_REASON_RATE_LIMIT_DNS
  | just_filter :
      (ip_version p = 4 /\ ipv4_service_rule_violation M (ctx_data ctx) p = Val true) \/
      (ip_version p = 6 /\ ipv6_service_rule_violation M (ctx_data ctx) p = Val true) ->
      justified st p DROP_REASON_PROTOCOL_FILTER.

Definition is_rate_reason (reason : Z) : bool :=
  bool_decide (reason ∈ [DROP_REASON_RATE_LIMIT_PKT; DROP_REASON_RATE_LIMIT_SYN; DROP_REASON_RATE_LIMIT_UDP; DROP_REASON_RATE_LIMIT_DNS]).
Definition same_rates (st st' : kstate) : Prop := rates_v4 st' = rates_v4 st /\ rates_v6 st' = rates_v6 st.

(** [st'] logged the drop of [p] for [reason], if the ring buffer had room. *)
Definition logged (p : ParsedPacket) (reason : Z) (D D' : list DropEvent) : Prop :=
  if ring_has_room M D
  then exists now, D' = D ++ [mk_DropEvent now (src_ip p) (dst_ip p) (src_port p) (dst_port p)
                               (protocol p) reason (ip_version p)]
  else D' = D.

(** The outcome of one packet with the record [p], in the state [st] it entered the stages
    with.  The counters it leaves are those after the [n] rate-limit stages that let it
    pass, and for a rate drop after the one more that hit. *)
Definition outcome (p : ParsedPacket) (st : kstate) (r : verdict * kstate) : Prop :=
  PARSED_PACKET r.2 = Some p /\
  match r.1 with
  | Undefined => False
  | XDP_DROP => exists reason n, justified (checks n p st) p reason /\
      same_rates (checks (if is_rate_reason reason then S n else n) p st) r.2 /\
      logged p reason (DROP_EVENTS st) (DROP_EVENTS r.2)
  | XDP_PASS => (exists n, same_rates (checks n p st) r.2) /\ DROP_EVENTS r.2 = DROP_EVENTS st
  | XDP_REDIRECT q => (exists n, same_rates (checks n p st) r.2) /\ DROP_EVENTS r.2 = DROP_EVENTS st /\ q ∈ XSKS_MAP M
  end.

(** [c] has an outcome however many checks the packet has passed. *)
Definition good (p : ParsedPacket) (st : kstate) (c : comp) : Prop :=
  forall n, outcome p st (c (checks n p st)).

Lemma should_drop_kept (st : kstate) (p : ParsedPacket) :
  PARSED_PACKET (should_drop M st p).2 = PARSED_PACKET st /\ DROP_EVENTS (should_drop M st p).2 = DROP_EVENTS st.
Proof.
  unfold should_drop, ipv4_should_drop, ipv6_should_drop.
  destruct (_ =? _); [|destruct (_ =? _); [|done]]; by destruct (family_should_drop M _ p _ _).
Qed.

Lemma checks_kept (n : nat) (p : ParsedPacket) (st : kstate) :
  PARSED_PACKET (checks n p st) = PARSED_PACKET st /\ DROP_EVENTS (checks n p st) = DROP_EVENTS st.
Proof.
  induction n as [|n [<- <-]]; [done|]. apply should_drop_kept.
Qed.

Lemma check_rate_hit (st : kstate) (p : ParsedPacket) (m m' : gmap Z RateState) (limit : Z) :
  check_rate m (source_key p) (bpf_ktime M (ticks st)) (get_config M CFG_WINDOW_NS DEFAULT_WINDOW_NS) limit = (true, m') ->
  over_limit st p m limit.
Proof.
  unfold check_rate, over_limit. destruct (m !! source_key p) as [s|]; [|done].
  destruct (Z.geb_spec (wrapping_sub 64 (bpf_ktime M (ticks st)) (rs_window_start s))
              (get_config M CFG_WINDOW_NS DEFAULT_WINDOW_NS)); [done|].
  intros [= Hh _]. exists s. destruct (Z.gtb_spec (wrapping_add 64 (rs_count s) 1) limit); [|done].
  split_and!; [done|lia..].
Qed.

Lemma family_should_drop_justified (st : kstate) (r' : rate_maps) (p : ParsedPacket) (reason : Z) :
  family_should_drop M (source_rates st p) p (source_key p) (bpf_ktime M (ticks st)) = (Some reason, r') ->
  justified st p reason /\ is_rate_reason reason = true.
Proof.
  unfold family_should_drop.
  destruct (check_rate (PACKET_RATE_MAP _) _ _ _ _) as [[] m1] eqn:H1.
  { intros [= <- _]. split; [by eapply just_pkt, check_rate_hit|done]. }
  destruct (is_syn_only p) eqn:Hs; cbn [SYN_RATE_MAP UDP_RATE_MAP DNS_RATE_MAP PACKET_RATE_MAP].
  1: destruct (check_rate (SYN_RATE_MAP _) _ _ _ _) as [[] m2] eqn:H2;
    [intros [= <- _]; split; [by eapply just_syn, check_rate_hit|done]|].
  all: destruct (Z.eqb_spec (protocol p) IpProto_Udp) as [Hu|]; [|done].
  all: destruct (check_rate (UDP_RATE_MAP _) _ _ _ _) as [[] m3] eqn:H3;
    [intros [= <- _]; split; [by eapply just_udp, check_rate_hit|done]|].
  all: destruct (Z.eqb_spec (dst_port p) 53) as [Hd|]; cbn [andb DNS_RATE_MAP]; [|done].
  all: destruct (check_rate (DNS_RATE_MAP _) _ _ _ _) as [[] m4] eqn:H4; [|done].
  all: intros [= <- _]; split; [by eapply just_dns, check_rate_hit|done].
Qed.

Lemma should_drop_justified (st : kstate) (p : ParsedPacket) (reason : Z) :
  (should_drop M st p).1 = Some reason -> justified st p reason /\ is_rate_reason reason = true.
Proof.
  pose proof (family_should_drop_justified st) as Hf. unfold source_rates, source_key in Hf.
  unfold should_drop, ipv4_should_drop, ipv6_should_drop. cbn [as_u8].
  destruct (Z.eqb_spec (ip_version p) 4) as [H4|H4]; [|destruct (Z.eqb_spec (ip_version p) 6) as [H6|]; [|done]];
    specialize (Hf); cbn [rates_v4 rates_v6 tick].
  - destruct (family_should_drop M (rates_v4 st) p _ _) as [o r'] eqn:E. cbn. intros ->. apply (Hf r' p reason).
    apply Z.eqb_eq in H4. by rewrite H4.
  - destruct (family_should_drop M (rates_v6 st) p _ _) as [o r'] eqn:E. cbn. intros ->. apply (Hf r' p reason).
    apply Z.eqb_neq in H4. by rewrite H4.
Qed.

Lemma good_pass (p : ParsedPacket) (st : kstate) : PARSED_PACKET st = Some p -> good p st (ret XDP_PASS).
Proof. intros Hp n. destruct (checks_kept n p st) as [Hp' HD]. split; cbn [ret fst snd]; [congruence|]. split; [by exists n|done]. Qed.

Lemma good_transmission (p : ParsedPacket) (st : kstate) : PARSED_PACKET st = Some p -> good p st (transmission M ctx).
Proof.
  intros Hp n. destruct (checks_kept n p st) as [Hp' HD]. split; [cbn; congruence|]. cbn. unfold redirect.
  case_bool_decide; split; [by exists n|done|by exists n|done].
Qed.

Lemma drop_outcome (p : ParsedPacket) (st : kstate) (reason : Z) (n : nat) :
  PARSED_PACKET st = Some p -> justified (checks n p st) p reason ->
  outcome p st (drop_with M p reason (checks (if is_rate_reason reason then S n else n) p st)).
Proof.
  intros Hp Hj. unfold drop_with, emit_drop_event, outcome. cbn [fst snd].
  destruct (checks_kept (if is_rate_reason reason then S n else n) p st) as [Hp' HD].
  set (st' := checks _ p st) in *. split.
  - destruct (ring_has_room M _); cbn; congruence.
  - exists reason, n. split; [done|]. fold st'. split; [by destruct (ring_has_room M _)|].
    unfold logged. rewrite HD. destruct (ring_has_room M _); cbn; [rewrite HD; eauto|done].
Qed.

Lemma safe_http_method (off : Z) :
  0 <= off -> safe (fun _ => True) (get_http_request_method (ctx_data ctx) off).
Proof.
  intros. unfold get_http_request_method. destruct (Z.gtb_spec (off + 8) (plen (ctx_data ctx))); [done|].
  eapply safe_bind; [apply safe_load; [done|lia..]|]. done.
Qed.

Lemma safe_http_violation (p : ParsedPacket) (m : gmap bytes Z) (d : bytes) :
  safe (fun _ => True) (http_service_violation (ctx_data ctx) p m d).
Proof.
  unfold http_service_violation. destruct (m !! d) as [allow|]; [|done].
  repeat (destruct (negb _); [done|]). destruct (has_flag _ _); [done|].
  repeat (destruct (negb _); [done|]).
  destruct (Z.gtb_spec 15 (plen (ctx_data ctx))); [done|].
  eapply (safe_bind (opt_all (fun off => 0 <= off))).
  { destruct (_ =? _); [|destruct (_ =? _); done].
    eapply safe_bind; [apply safe_load_u8; [done|lia..]|]. intros b Hb.
    pose proof (nibble_bounds b Hb). simpl. lia. }
  intros [off|] Hoff; [|done]. simpl in Hoff.
  destruct (Z.gtb_spec (off + 13) (plen (ctx_data ctx))); [done|].
  eapply safe_bind; [apply safe_load_u8; [done|lia..]|]. intros b Hb.
  destruct (negb _); [done|]. eapply safe_bind; [apply safe_http_method|].
  - pose proof (nibble_bounds b Hb). lia.
  - intros [h|] _; done.
Qed.

Section Stages.
Variable tail : Z -> comp -> comp.
Variables (p : ParsedPacket) (st : kstate).
Hypothesis Hp : PARSED_PACKET st = Some p.
Hypothesis tail_good : forall slot k, good p st k -> good p st (tail slot k).

Lemma good_chain (id : Z) (k : comp) : good p st k -> good p st (chain_next M tail id k).
Proof.
  intros Hk n. unfold chain_next. destruct (NEXT_STAGE M !! _) as [slot|];
    [destruct (negb _)|]; by repeat apply tail_good.
Qed.

Lemma good_drop (reason : Z) (n : nat) : is_rate_reason reason = false -> justified (checks n p st) p reason ->
  outcome p st (drop_with M p reason (checks n p st)).
Proof. intros Hr Hj. pose proof (drop_outcome p st reason n Hp Hj) as H. by rewrite Hr in H. Qed.

Lemma parsed_at (n : nat) : PARSED_PACKET (checks n p st) = Some p.
Proof. destruct (checks_kept n p st) as [-> _]. exact Hp. Qed.

Lemma good_access_control : good p st (access_control M tail).
Proof.
  assert (good p st (chain_next M tail STAGE_ACCESS_CONTROL (ret XDP_PASS))) as Hk
    by (apply good_chain; by apply good_pass).
  intros n. unfold access_control, try_access_control. rewrite parsed_at. cbn [as_u8].
  destruct (Z.eqb_spec (ip_version p) 4) as [H4|H4]; [|destruct (Z.eqb_spec (ip_version p) 6) as [H6|]].
  3: by apply good_chain.
  - destruct (ipv4_is_whitelisted M p) eqn:Hw; [by apply tail_good|].
    assert (is_whitelisted p = false) by (unfold is_whitelisted; by rewrite H4).
    destruct (ipv4_is_geo_blocked M p) eqn:Hg.
    { apply good_drop; [done|apply just_geo]; unfold is_geo_blocked; by rewrite ?H4. }
    destruct (ipv4_is_blacklisted M p) eqn:Hb; [|by apply good_chain].
    apply good_drop; [done|apply just_acl]; unfold is_geo_blocked, is_blacklisted; by rewrite ?H4.
  - destruct (ipv6_is_whitelisted M p) eqn:Hw; [by apply tail_good|].
    assert (is_whitelisted p = false) by (unfold is_whitelisted; by rewrite H6).
    destruct (ipv6_is_geo_blocked M p) eqn:Hg.
    { apply good_drop; [done|apply just_geo]; unfold is_geo_blocked; by rewrite ?H6. }
    destruct (ipv6_is_blacklisted M p) eqn:Hb; [|by apply good_chain].
    apply good_drop; [done|apply just_acl]; unfold is_geo_blocked, is_blacklisted; by rewrite ?H6.
Qed.

Lemma good_rate_limit : good p st (rate_limit M tail).
Proof.
  intros n. unfold rate_limit, try_rate_limit. rewrite parsed_at.
  pose proof (should_drop_justified (checks n p st) p) as Hj.
  assert (checks (S n) p st = (should_drop M (checks n p st) p).2) as Hn by done.
  destruct (should_drop M (checks n p st) p) as [[reason|] st']; cbn [fst snd] in *; rewrite <- Hn.
  - destruct (Hj reason eq_refl) as [H Hr]. pose proof (drop_outcome p st reason n Hp H) as Ho. by rewrite Hr in Ho.
  - repeat apply good_chain. by apply good_pass.
Qed.

Lemma good_protocol_filter : good p st (protocol_filter M tail ctx).
Proof.
  intros n. unfold protocol_filter, try_protocol_filter. rewrite parsed_at. cbn [as_u8].
  assert (good p st (chain_next M tail STAGE_SERVICE (chain_next M tail STAGE_SERVICE (ret XDP_PASS))))
    as Hk by (repeat apply good_chain; by apply good_pass).
  destruct (Z.eqb_spec (ip_version p) 4) as [H4|H4];
    [|destruct (Z.eqb_spec (ip_version p) 6) as [H6|]; [|by apply Hk]].
  - destruct (ipv4_service_rule_violation M (ctx_data ctx) p) as [[]|] eqn:Hv; [|by apply Hk|].
    + apply good_drop; [done|apply just_filter; by left].
    + unfold ipv4_service_rule_violation in Hv.
      pose proof (safe_http_violation p (IPV4_HTTP_SERVICE M) (dst_addr_v4 p)).
      by destruct (http_service_violation _ _ _ _).
  - destruct (ipv6_service_rule_violation M (ctx_data ctx) p) as [[]|] eqn:Hv; [|by apply Hk|].
    + apply good_drop; [done|apply just_filter; by right].
    + unfold ipv6_service_rule_violation in Hv.
      pose proof (safe_http_violation p (IPV6_HTTP_SERVICE M) (dst_addr_v6 p)).
      by destruct (http_service_violation _ _ _ _).
Qed.

Lemma good_body (b : prog) : good p st (body M tail ctx b).
Proof.
  destruct b; [apply good_access_control|apply good_rate_limit|apply good_protocol_filter|
               by apply good_transmission].
Qed.
End Stages.

Lemma good_tail_call (p : ParsedPacket) (st : kstate) (calls : nat) (slot : Z) (k : comp) :
  PARSED_PACKET st = Some p -> good p st k -> good p st (tail_call M ctx calls slot k).
Proof.
  intros Hp. revert slot k. induction calls as [|calls IH]; intros slot k Hk; [done|].
  intros n. cbn [tail_call]. destruct (PROGRAM_ARRAY M !! slot); [|by apply Hk].
  by apply good_body.
Qed.

(** Every packet has an outcome, and the record of it is well formed. *)
Lemma ingress_outcome (st : kstate) (t : ParsedPacket) :
  PARSED_PACKET st = Some t -> packet_wf t ->
  DROP_EVENTS (entered st) = DROP_EVENTS st /\ same_rates st (entered st) /\
  exists p, packet_wf p /\ PARSED_PACKET (entered st) = Some p /\ outcome p (entered st) (ingress M ctx st).
Proof.
  intros Hp Ht. unfold ingress, net_guardia, packet_intake, entered. rewrite Hp.
  pose proof (parse_packet_safe_wf (ctx_data ctx) t Hdata Ht) as Hsafe.
  destruct (parse_packet (ctx_data ctx) t) as [[t' [[]|]]|]; [| |done]; cbn zeta; (split; [done|]); (split; [done|]).
  - eexists. split; [|split; [reflexivity|]]; [destruct Hsafe; by constructor|].
    refine (good_chain _ _ _ _ _ _ _ 0%nat); [intros; by apply good_tail_call|].
    apply good_tail_call; [done|]. by apply good_pass.
  - exists t'. split; [exact Hsafe|]. split; [done|].
    refine (good_tail_call _ _ _ _ _ _ _ 0%nat); [done|]. by apply good_pass.
Qed.

(** C9: whatever the maps hold and however the stages are chained, a packet of
    any bytes is processed without leaving its memory; it is dropped only for
    a reason that holds of it (an ACL or geo drop is never of a whitelisted
    packet, and a rate drop is of a packet whose source has used up, in the
    counters as they are when the packet comes to the stage, the limit of a
    window that is open at the clock's reading), the counters it leaves are
    those of the checks it went through, a drop is reported with that reason
    while the ring buffer has room, and a packet that is not dropped reports
    nothing *)
Theorem ingress_drop_justified (st : kstate) (t : ParsedPacket) :
  PARSED_PACKET st = Some t -> packet_wf t ->
  DROP_EVENTS (entered st) = DROP_EVENTS st /\ same_rates st (entered st) /\
  exists p, PARSED_PACKET (entered st) = Some p /\ outcome p (entered st) (ingress M ctx st).
Proof.
  intros Hp Ht. destruct (ingress_outcome st t Hp Ht) as (HD & Hr & p & _ & Hpe & Hout).
  split; [done|]. split; [done|]. by exists p.
Qed.
End Justified.

(** A data plane that blacklists one source, unless it comes from port 22. *)
Definition sample_maps : kmaps :=
  let src := from_ne_bytes [10; 0; 0; 1] in
  mk_kmaps {[1 := p_access_control; 7 := p_transmission]} [1; 7; 0; 0; 0; 0; 0; 0]
    {[src := (add_port new_empty 22).2]} ∅ ∅ ∅ {[src := new_match_all]} ∅ ∅ ∅
    (fun _ _ => None) (fun _ _ => None) [0; 0; 0; 0; 0] ∅ ∅ [0] ∅ ∅ ∅ ∅ ∅ ∅ [4] {[0; 1; 2; 3]}
    (fun l => (length l <? 10)%nat) (fun n => Z.of_nat n).

Definition sample_state : kstate :=
  mk_kstate (Some zeroed_packet) (mk_rate_maps ∅ ∅ ∅ ∅) (mk_rate_maps ∅ ∅ ∅ ∅) [] 0.

(** A data plane that limits the packets of a source to two, and one that has sent [count]. *)
Definition limited_maps : kmaps :=
  mk_kmaps {[1 := p_rate_limit; 7 := p_transmission]} [1; 7; 7; 0; 0; 0; 0; 0]
    ∅ ∅ ∅ ∅ ∅ ∅ ∅ ∅ (fun _ _ => None) (fun _ _ => None) [2; 2; 2; 2; 1000] ∅ ∅ [0] ∅ ∅ ∅ ∅ ∅ ∅ [4] {[0; 1; 2; 3]}
    (fun l => (length l <? 10)%nat) (fun n => Z.of_nat n).
Definition limited_state (count : Z) : kstate :=
  mk_kstate (Some zeroed_packet) (mk_rate_maps {[from_ne_bytes [10; 0; 0; 1] := mk_RateState count 0]} ∅ ∅ ∅)
    (mk_rate_maps ∅ ∅ ∅ ∅) [] 0.
Definition sample_ctx : xdp_ctx := mk_ctx (encode_frame sample_frame) 0.

Lemma ingress_drop_justified_witness :
  (ingress (LI := lru_plain) sample_maps sample_ctx sample_state).1 = XDP_DROP /\
  (ingress (LI := lru_plain) limited_maps sample_ctx (limited_state 1)).1 <> XDP_DROP /\
  (ingress (LI := lru_plain) limited_maps sample_ctx (limited_state 2)).1 = XDP_DROP /\
  exists p, outcome (LI := lru_plain) limited_maps sample_ctx p (entered limited_maps sample_ctx (limited_state 2))
    (ingress (LI := lru_plain) limited_maps sample_ctx (limited_state 2)).
Proof.
  split; [vm_compute; reflexivity|]. split; [vm_compute; discriminate|]. split; [vm_compute; reflexivity|].
  assert (bytes_ok (ctx_data sample_ctx)) as Hok
    by (refine (bool_decide_unpack (Forall (fun b => 0 <= b < 256) _) _); vm_compute; exact I).
  destruct (ingress_drop_justified (LI := lru_plain) limited_maps sample_ctx Hok (limited_state 2) zeroed_packet eq_refl zeroed_packet_wf)
    as (_ & _ & p & _ & Hout).
  exists p. exact Hout.
Defined.
