(* ===== verification/RStr.v ===== *)
(** * Rust string operations on UTF-8 byte strings

    A Rust [str] is its UTF-8 byte string.  [chars] cuts it into code points by
    their leading byte; [trim] removes the code points with the Unicode
    [White_Space] property, as [str::trim] does. *)

From Stdlib Require Import ZArith Lia List Ascii String.
From stdpp Require Import base list strings.
From S2P Require Import Prelude.

Local Open Scope string_scope.
Local Open Scope Z_scope.

Definition code (c : ascii) : Z := Z.of_nat (nat_of_ascii c).

(** Code points, each as its own byte string. *)
Fixpoint chars (s : string) : list string :=
  match s with
  | EmptyString => []
  | String a s1 =>
      if code a <? 192 then String a "" :: chars s1
      else
        match s1 with
        | EmptyString => [String a ""]
        | String b s2 =>
            if code a <? 224 then String a (String b "") :: chars s2
            else
              match s2 with
              | EmptyString => [s]
              | String c s3 =>
                  if code a <? 240 then String a (String b (String c "")) :: chars s3
                  else
                    match s3 with
                    | EmptyString => [s]
                    | String d s4 => String a (String b (String c (String d ""))) :: chars s4
                    end
              end
        end
  end.

(** The scalar value of one code point. *)
Definition scalar (c : string) : Z :=
  match c with
  | String a "" => code a
  | String a (String b "") => (code a - 192) * 64 + (code b - 128)
  | String a (String b (String c "")) =>
      (code a - 224) * 4096 + (code b - 128) * 64 + (code c - 128)
  | String a (String b (String c (String d _))) =>
      (code a - 240) * 262144 + (code b - 128) * 4096 + (code c - 128) * 64 + (code d - 128)
  | EmptyString => 0
  end.

(** [char::is_whitespace] *)
Definition is_whitespace (c : string) : bool :=
  let x := scalar c in
  ((9 <=? x) && (x <=? 13)) || (x =? 32) || (x =? 133) || (x =? 160) || (x =? 5760)
  || ((8192 <=? x) && (x <=? 8202)) || (x =? 8232) || (x =? 8233) || (x =? 8239)
  || (x =? 8287) || (x =? 12288).

Fixpoint drop_while {A} (f : A -> bool) (l : list A) : list A :=
  match l with
  | [] => []
  | x :: l' => if f x then drop_while f l' else l
  end.

Definition drop_while_end {A} (f : A -> bool) (l : list A) : list A :=
  reverse (drop_while f (reverse l)).

Definition concat_chars (l : list string) : string := fold_right String.append "" l.

(** [str::trim] *)
Definition trim (s : string) : string :=
  concat_chars (drop_while_end is_whitespace (drop_while is_whitespace (chars s))).

Definition trim_end_matches (c : ascii) (s : string) : string :=
  concat_chars (drop_while_end (fun x => String.eqb x (String c "")) (chars s)).
Definition trim_start_matches (c : ascii) (s : string) : string :=
  concat_chars (drop_while (fun x => String.eqb x (String c "")) (chars s)).

(** [u8::to_ascii_lowercase] *)
Definition lower (c : ascii) : ascii :=
  if (65 <=? code c) && (code c <=? 90) then ascii_of_nat (nat_of_ascii c + 32) else c.

Fixpoint map_string (f : ascii -> ascii) (s : string) : string :=
  match s with
  | EmptyString => ""
  | String c s => String (f c) (map_string f s)
  end.

Definition to_ascii_lowercase (s : string) : string := map_string lower s.
Definition eq_ignore_ascii_case (a b : string) : bool :=
  String.eqb (to_ascii_lowercase a) (to_ascii_lowercase b).

(** [s.split(c)]: always at least one piece. *)
Fixpoint split (c : ascii) (s : string) : list string :=
  match s with
  | EmptyString => [""]
  | String a s =>
      if Ascii.eqb a c then "" :: split c s
      else match split c s with
           | p :: ps => String a p :: ps
           | [] => [String a ""]
           end
  end.

(** [v.join(sep)] *)
Fixpoint join (sep : string) (l : list string) : string :=
  match l with
  | [] => ""
  | [x] => x
  | x :: l => x ++ sep ++ join sep l
  end.

(** [s.find(c)]: byte offset. *)
Fixpoint find_char (c : ascii) (s : string) : option nat :=
  match s with
  | EmptyString => None
  | String a s => if Ascii.eqb a c then Some O else S <$> find_char c s
  end.

(** [s.split_once(c)] *)
Fixpoint split_once (c : ascii) (s : string) : option (string * string) :=
  match s with
  | EmptyString => None
  | String a s =>
      if Ascii.eqb a c then Some ("", s)
      else let! (x, y) := split_once c s else None in Some (String a x, y)
  end.

(** [s.strip_prefix(p)] *)
Fixpoint strip_prefix (p s : string) : option string :=
  match p, s with
  | EmptyString, _ => Some s
  | String a p, String b s => if Ascii.eqb a b then strip_prefix p s else None
  | String _ _, EmptyString => None
  end.

Definition starts_with (s p : string) : bool := String.prefix p s.

Fixpoint ends_with (s p : string) : bool :=
  String.eqb s p ||
  match s with
  | EmptyString => false
  | String _ s => ends_with s p
  end.

(** [haystack.contains(needle)] *)
Fixpoint str_contains (s p : string) : bool :=
  String.prefix p s ||
  match s with
  | EmptyString => false
  | String _ s => str_contains s p
  end.

Definition is_empty (s : string) : bool := String.eqb s "".

Definition is_digit (c : ascii) : bool := (48 <=? code c) && (code c <=? 57).
Definition is_alnum (c : ascii) : bool :=
  is_digit c || ((65 <=? code c) && (code c <=? 90)) || ((97 <=? code c) && (code c <=? 122)).

Fixpoint all_bytes (f : ascii -> bool) (s : string) : bool :=
  match s with
  | EmptyString => true
  | String c s => f c && all_bytes f s
  end.

(** Decimal digits, [None] on another byte. *)
Fixpoint parse_digits (acc : Z) (s : string) : option Z :=
  match s with
  | EmptyString => Some acc
  | String c s => if is_digit c then parse_digits (acc * 10 + (code c - 48)) s else None
  end.

(** [s.parse::<uN>()]: digits with an optional plus sign, within the width. *)
Definition parse_uint (w : Z) (s : string) : option Z :=
  let digits := match s with String "+" s' => s' | _ => s end in
  if is_empty digits then None
  else let! n := parse_digits 0 digits else None in
       if n <? pow2 w then Some n else None.

(** ** Lemmas *)

Lemma append_cons (x : ascii) (a b : string) : String x a ++ b = String x (a ++ b).
Proof. done. Qed.

Lemma append_nil (b : string) : "" ++ b = b.
Proof. done. Qed.

Lemma string_app_assoc (a b c : string) : a ++ (b ++ c) = (a ++ b) ++ c.
Proof. induction a as [|x a IH]; [done|]. by rewrite !append_cons, IH. Qed.

Lemma string_app_nil (a : string) : a ++ "" = a.
Proof. induction a as [|x a IH]; [done|]. by rewrite append_cons, IH. Qed.

Lemma concat_chars_app (l k : list string) :
  concat_chars (l ++ k)%list = concat_chars l ++ concat_chars k.
Proof.
  induction l as [|x l IH]; simpl; [done|]. unfold concat_chars in *. simpl.
  by rewrite IH, string_app_assoc.
Qed.

Lemma lower_idem (c : ascii) : lower (lower c) = lower c.
Proof. by destruct c as [[] [] [] [] [] [] [] []]. Qed.

Lemma to_ascii_lowercase_idem (s : string) :
  to_ascii_lowercase (to_ascii_lowercase s) = to_ascii_lowercase s.
Proof. unfold to_ascii_lowercase. induction s; simpl; rewrite ?lower_idem; congruence. Qed.

Lemma split_nonempty (c : ascii) (s : string) : split c s <> [].
Proof. destruct s; simpl; [done|]. destruct (Ascii.eqb _ _); [done|]. by destruct (split c s). Qed.

(** [split] is a left inverse of joining pieces without the separator. *)
Definition free_of (c : ascii) (s : string) : Prop :=
  all_bytes (fun a => negb (Ascii.eqb a c)) s = true.

Lemma split_app_sep (c : ascii) (p s : string) :
  free_of c p -> split c (p ++ String c s) = p :: split c s.
Proof.
  unfold free_of. induction p as [|a p IH]; rewrite ?append_nil, ?append_cons; simpl.
  - intros _. by rewrite Ascii.eqb_refl.
  - destruct (Ascii.eqb a c); [done|]. simpl. intros H. by rewrite IH.
Qed.

Lemma split_free (c : ascii) (p : string) : free_of c p -> split c p = [p].
Proof.
  unfold free_of. induction p as [|a p IH]; simpl; [done|].
  destruct (Ascii.eqb a c); [done|]. simpl. intros H. by rewrite IH.
Qed.

Lemma split_join (c : ascii) (l : list string) :
  Forall (free_of c) l -> l <> [] -> split c (join (String c "") l) = l.
Proof.
  induction 1 as [|p l Hp Hl IH]; [done|]. intros _.
  destruct l as [|q l]; [by apply split_free|].
  change (join (String c "") (p :: q :: l)) with (p ++ String c (join (String c "") (q :: l))).
  rewrite split_app_sep by done. by rewrite IH.
Qed.

#[export] Hint Rewrite to_ascii_lowercase_idem string_app_nil : ng.
