(* ===== verification/Pipeline.v ===== *)
(** * The ingress pipeline: configuration and what it makes the kernel do

    [domain/common/config/pipeline.rs] validates the configured stage names,
    [infrastructure/startup/data_plane.rs] turns them into the contents of
    [PROGRAM_ARRAY] and [NEXT_STAGE].  The refinement theorem states that the
    tail-calling programs of [Xdp], run on these maps, are the sequential
    composition of the configured stages. *)

From Stdlib Require Import ZArith Lia List Ascii String.
From stdpp Require Import base list gmap strings.
From S2P Require Import Prelude Abi PortRule RStr Parsing Xdp.

Local Open Scope string_scope.
Local Open Scope Z_scope.

(** ** domain/common/config/pipeline.rs *)

Definition VALID_PIPELINE_STAGES : list string := ["access_control"; "rate_limit"; "service"].

(** [SystemError::InvalidPipelineStage(stage, valid)] *)
Inductive pipeline_error : Type := InvalidPipelineStage (stage valid : string).

Definition validate_stage (stage : string) : result pipeline_error unit :=
  if negb (is_empty stage) && bool_decide (stage ∈ VALID_PIPELINE_STAGES) then Ok tt
  else Err (InvalidPipelineStage stage (join ", " VALID_PIPELINE_STAGES)).

Fixpoint validate_stage_list (stages : list string) : result pipeline_error unit :=
  match stages with
  | [] => Ok tt
  | stage :: stages => let? _ := validate_stage stage in validate_stage_list stages
  end.

(** [map(..).collect::<Result<Vec<_>, _>>()]: stops at the first error. *)
Fixpoint normalize_all (raw : list string) : result pipeline_error (list string) :=
  match raw with
  | [] => Ok []
  | s :: raw =>
      let stage := trim s in
      let? _ := validate_stage stage in
      let? rest := normalize_all raw in
      Ok (stage :: rest)
  end.

Definition normalize_pipeline_stages (raw : string) : result pipeline_error (list string) :=
  let raw := trim raw in
  if is_empty raw then Ok [] else normalize_all (split ","%char raw).

(** ** infrastructure/startup/data_plane.rs *)

Inductive EbpfError : Type :=
  ProgramNotFound | AttachProgramFailed | MapOperationError.

#[export] Instance EbpfError_eq_dec : EqDecision EbpfError.
Proof. solve_decision. Defined.

(** Loaded programs, [PROGRAM_ARRAY], [NEXT_STAGE]. *)
Record ebpf_object : Type := mk_ebpf {
  loaded : list prog; program_array : gmap Z prog; next_stage : list Z }.

(** A freshly loaded object: arrays are zeroed. *)
Definition fresh_ebpf : ebpf_object := mk_ebpf [] ∅ (replicate (Z.to_nat MAX_STAGES) 0).

Definition set_next_stage (o : ebpf_object) (id slot : Z) : result EbpfError ebpf_object :=
  if id <? MAX_STAGES
  then Ok (mk_ebpf (loaded o) (program_array o) (<[Z.to_nat id := slot]> (next_stage o)))
  else Err MapOperationError.

Section Configure.
(** Whether the loader accepts a program that is already loaded. *)
Variable reload_ok : bool.

Definition load_program (o : ebpf_object) (p : prog) (slot : Z) : result EbpfError ebpf_object :=
  if bool_decide (p ∈ loaded o) && negb reload_ok then Err AttachProgramFailed
  else if slot <? MAX_STAGES
  then Ok (mk_ebpf (p :: loaded o) (<[slot := p]> (program_array o)) (next_stage o))
  else Err MapOperationError.

Definition stage_of_name (name : string) : option (prog * Z) :=
  if String.eqb name "access_control" then Some (p_access_control, STAGE_ACCESS_CONTROL)
  else if String.eqb name "rate_limit" then Some (p_rate_limit, STAGE_RATE_LIMIT)
  else if String.eqb name "service" then Some (p_protocol_filter, STAGE_SERVICE)
  else None.

(** The first loop: load stage [i] into slot [i + 1]. *)
Fixpoint load_stages (o : ebpf_object) (stages : list string) (i : Z) :
    result EbpfError (ebpf_object * list (Z * Z)) :=
  match stages with
  | [] => Ok (o, [])
  | name :: stages =>
      let! (p, stage_id) := stage_of_name name else Err ProgramNotFound in
      let slot := i + 1 in
      let? o := load_program o p slot in
      let? r := load_stages o stages (i + 1) in
      Ok (r.1, (stage_id, slot) :: r.2)
  end.

(** The second loop: each stage points to the slot of the next one. *)
Fixpoint link_stages (o : ebpf_object) (slots : list (Z * Z)) : result EbpfError ebpf_object :=
  match slots with
  | [] => Ok o
  | (stage_id, _) :: slots =>
      let next_slot := match slots with (_, s) :: _ => s | [] => STAGE_TRANSMISSION end in
      let? o := set_next_stage o stage_id next_slot in
      link_stages o slots
  end.

Definition configure_ingress_pipeline (o : ebpf_object) (stages : list string) :
    result EbpfError ebpf_object :=
  let? o := load_program o p_transmission STAGE_TRANSMISSION in
  match stages with
  | [] => set_next_stage o STAGE_ENTRY STAGE_TRANSMISSION
  | _ =>
      let? r := load_stages o stages 0 in
      let? o := match r.2 with
                | (_, slot) :: _ => set_next_stage r.1 STAGE_ENTRY slot
                | [] => Ok r.1
                end in
      link_stages o r.2
  end.
End Configure.

(** ** The specification: stages run one after the other *)

Inductive decision : Type := Next | Bypass | Drop (reason : Z) | Stuck.

Section Spec.
Context `{NT : NetworkTypes} `{LI : LruInsert}.
Variables (M : kmaps) (ctx : xdp_ctx).

Definition access_decision (p : ParsedPacket) : decision :=
  match from_u8 (ip_version p) with
  | None => Next
  | Some _ =>
      if is_whitelisted M p then Bypass
      else if is_geo_blocked M p then Drop DROP_REASON_GEO_BLOCK
      else if is_blacklisted M p then Drop DROP_REASON_ACL_BLACKLIST
      else Next
  end.

Definition filter_decision (p : ParsedPacket) : decision :=
  match (match from_u8 (ip_version p) with
         | Some V4 => ipv4_service_rule_violation M (ctx_data ctx) p
         | Some V6 => ipv6_service_rule_violation M (ctx_data ctx) p
         | None => Val false
         end) with
  | Val true => Drop DROP_REASON_PROTOCOL_FILTER
  | Val false => Next
  | Fault => Stuck
  end.

Definition stage_step (s : prog) (p : ParsedPacket) (st : kstate) : decision * kstate :=
  match s with
  | p_access_control => (access_decision p, st)
  | p_rate_limit =>
      let '(reason, st) := should_drop M st p in
      (match reason with Some r => Drop r | None => Next end, st)
  | p_protocol_filter => (filter_decision p, st)
  | p_transmission => (Bypass, st)
  end.

Fixpoint run_stages (stages : list prog) (p : ParsedPacket) (st : kstate) : verdict * kstate :=
  match stages with
  | [] => transmission M ctx st
  | s :: stages =>
      match stage_step s p st with
      | (Next, st) => run_stages stages p st
      | (Bypass, st) => transmission M ctx st
      | (Drop reason, st) => drop_with M p reason st
      | (Stuck, st) => (Undefined, st)
      end
  end.

(** One packet through the configured stages. *)
Definition run_pipeline (stages : list prog) (st : kstate) : verdict * kstate :=
  match PARSED_PACKET st with
  | None => transmission M ctx st
  | Some t =>
      match parse_packet (ctx_data ctx) t with
      | Fault => (Undefined, st)
      | Val (t', None) => transmission M ctx (set_parsed st t')
      | Val (t', Some _) =>
          let p := mk_ParsedPacket (bpf_ktime M (ticks st)) (src_ip t') (dst_ip t')
                     (packet_length t') (payload_length t') (src_port t') (dst_port t')
                     (ip_version t') (protocol t') (tcp_flags t') in
          run_stages stages p (tick (set_parsed st p))
      end
  end.

Definition stage_id (s : prog) : Z :=
  match s with
  | p_access_control => STAGE_ACCESS_CONTROL
  | p_rate_limit => STAGE_RATE_LIMIT
  | p_protocol_filter => STAGE_SERVICE
  | p_transmission => STAGE_TRANSMISSION
  end.

(** The maps lead from [slot] through [stages] to the transmission program. *)
Fixpoint linked (pa : gmap Z prog) (ns : list Z) (slot : Z) (stages : list prog) : Prop :=
  slot <> STAGE_NONE /\
  match stages with
  | [] => slot = STAGE_TRANSMISSION
  | s :: stages =>
      pa !! slot = Some s /\ s <> p_transmission /\
      match ns !! Z.to_nat (stage_id s) with
      | Some n => linked pa ns n stages
      | None => False
      end
  end.

Lemma linked_not_none (pa : gmap Z prog) (ns : list Z) (slot : Z) (stages : list prog) :
  linked pa ns slot stages -> negb (slot =? STAGE_NONE) = true.
Proof. destruct stages; intros [H _]; apply negb_true_iff; by apply Z.eqb_neq. Qed.

Section Linked.
Hypothesis Htrans : PROGRAM_ARRAY M !! STAGE_TRANSMISSION = Some p_transmission.

Lemma tail_transmission (calls : nat) (k : comp) (st : kstate) :
  tail_call M ctx (S calls) STAGE_TRANSMISSION k st = transmission M ctx st.
Proof. cbn [tail_call]. by rewrite Htrans. Qed.

Lemma should_drop_parsed (st : kstate) (p : ParsedPacket) :
  PARSED_PACKET (should_drop M st p).2 = PARSED_PACKET st.
Proof.
  unfold should_drop, ipv4_should_drop, ipv6_should_drop.
  destruct (_ =? _); [by destruct (family_should_drop _ _ _ _ _)|].
  destruct (_ =? _); [by destruct (family_should_drop _ _ _ _ _)|done].
Qed.

(** With [calls] enough for the stages left, a call to the first of them runs
    all of them; what follows the call is never reached. *)
Lemma tail_call_runs (stages : list prog) (calls : nat) (slot : Z) (k : comp) (st : kstate)
    (p : ParsedPacket) :
  linked (PROGRAM_ARRAY M) (NEXT_STAGE M) slot stages -> (length stages < calls)%nat ->
  PARSED_PACKET st = Some p ->
  tail_call M ctx calls slot k st = run_stages stages p st.
Proof.
  revert calls slot k st. induction stages as [|s stages IH]; intros calls slot k st [_ Hl] Hc Hp.
  - destruct calls as [|calls]; [simpl in Hc; lia|]. rewrite Hl. apply tail_transmission.
  - destruct calls as [|calls]; [simpl in Hc; lia|]. destruct Hl as (Hs & Hst & Hn).
    cbn [tail_call run_stages]. rewrite Hs.
    destruct (NEXT_STAGE M !! Z.to_nat (stage_id s)) as [n|] eqn:Hns; [|done].
    assert (forall k st, PARSED_PACKET st = Some p ->
      chain_next M (tail_call M ctx calls) (stage_id s) k st = run_stages stages p st) as Hchain.
    { intros k' st' Hp'. unfold chain_next. rewrite Hns, (linked_not_none _ _ _ _ Hn).
      apply IH; [done|simpl in Hc; lia|done]. }
    assert (forall k st, tail_call M ctx calls STAGE_TRANSMISSION k st = transmission M ctx st) as Htr.
    { intros. destruct calls; [simpl in Hc; lia|]. apply tail_transmission. }
    destruct s; cbn [body stage_step stage_id] in *; [..|done].
    + unfold access_control, try_access_control, access_decision, from_u8, is_whitelisted,
        is_geo_blocked, is_blacklisted. rewrite Hp. cbn [as_u8].
      destruct (Z.eqb_spec (ip_version p) 4) as [H4|H4]; [|destruct (Z.eqb_spec (ip_version p) 6)];
        [| |by apply Hchain].
      * destruct (ipv4_is_whitelisted M p); [by apply Htr|].
        destruct (ipv4_is_geo_blocked M p); [done|].
        destruct (ipv4_is_blacklisted M p); [done|by apply Hchain].
      * destruct (ipv6_is_whitelisted M p); [by apply Htr|].
        destruct (ipv6_is_geo_blocked M p); [done|].
        destruct (ipv6_is_blacklisted M p); [done|by apply Hchain].
    + unfold rate_limit, try_rate_limit. rewrite Hp.
      pose proof (should_drop_parsed st p) as Hsd.
      destruct (should_drop M st p) as [[reason|] st']; [done|]. apply Hchain. by rewrite <- Hp.
    + unfold protocol_filter, try_protocol_filter, filter_decision, from_u8. rewrite Hp. cbn [as_u8].
      destruct (Z.eqb_spec (ip_version p) 4); [|destruct (Z.eqb_spec (ip_version p) 6)];
        [destruct (ipv4_service_rule_violation _ _ _) as [[]|]
        |destruct (ipv6_service_rule_violation _ _ _) as [[]|]|]; auto.
Qed.

Lemma ingress_linked (stages : list prog) (entry : Z) (st : kstate) :
  NEXT_STAGE M !! 0%nat = Some entry ->
  linked (PROGRAM_ARRAY M) (NEXT_STAGE M) entry stages -> (length stages < MAX_TAIL_CALLS)%nat ->
  ingress M ctx st = run_pipeline stages st.
Proof.
  intros He Hl Hc. unfold ingress, net_guardia, packet_intake, run_pipeline.
  destruct (PARSED_PACKET st) as [t|] eqn:Hp; [|by apply tail_transmission].
  destruct (parse_packet (ctx_data ctx) t) as [[t' [[]|]]|];
    [|by apply tail_transmission|done].
  cbn zeta. unfold chain_next. change (Z.to_nat STAGE_ENTRY) with 0%nat.
  rewrite He, (linked_not_none _ _ _ _ Hl). by apply tail_call_runs.
Qed.
End Linked.
End Spec.

(** ** The configuration links the stages *)

Definition progs_of (stages : list string) : list prog :=
  omap (fun n => fst <$> stage_of_name n) stages.

Lemma progs_of_length (stages : list string) : (length (progs_of stages) <= length stages)%nat.
Proof.
  induction stages as [|s stages IH]; unfold progs_of in *; [done|]. cbn [omap list_omap].
  destruct (fst <$> stage_of_name s); simpl in *; lia.
Qed.

Lemma validate_stage_valid (s : string) : is_ok (validate_stage s) = true -> s ∈ VALID_PIPELINE_STAGES.
Proof. unfold validate_stage. destruct (_ && _) eqn:H; [|done]. by bool_to_prop. Qed.

Lemma validate_stage_list_valid (stages : list string) :
  is_ok (validate_stage_list stages) = true -> Forall (fun s => s ∈ VALID_PIPELINE_STAGES) stages.
Proof.
  induction stages as [|s stages IH]; [constructor|]. simpl.
  destruct (validate_stage s) as [[]|] eqn:Hs; simpl; [|done].
  constructor; [apply validate_stage_valid; by rewrite Hs|auto].
Qed.

(** [linked], decided. *)
Fixpoint linkedb (pa : gmap Z prog) (ns : list Z) (slot : Z) (stages : list prog) : bool :=
  negb (slot =? STAGE_NONE) &&
  match stages with
  | [] => slot =? STAGE_TRANSMISSION
  | s :: stages =>
      bool_decide (pa !! slot = Some s) && negb (bool_decide (s = p_transmission)) &&
      match ns !! Z.to_nat (stage_id s) with
      | Some n => linkedb pa ns n stages
      | None => false
      end
  end.

Lemma linkedb_linked (pa : gmap Z prog) (ns : list Z) (slot : Z) (stages : list prog) :
  linkedb pa ns slot stages = true -> linked pa ns slot stages.
Proof.
  revert slot. induction stages as [|s stages IH]; intros slot; cbn [linkedb linked];
    intros H; bool_to_prop; [done|].
  split_and!; [done..|]. destruct (ns !! _); [by apply IH|done].
Qed.

(** What [configure_ingress_pipeline] leaves behind. *)
Definition configuredb (stages : list string) (o : ebpf_object) : bool :=
  bool_decide (program_array o !! STAGE_TRANSMISSION = Some p_transmission) &&
  match next_stage o !! 0%nat with
  | Some e => linkedb (program_array o) (next_stage o) e (progs_of stages)
  | None => false
  end.

(** All words of length [n] over an alphabet. *)
Fixpoint words {A} (alphabet : list A) (n : nat) : list (list A) :=
  match n with
  | O => [[]]
  | S n => concat (map (fun l => map (fun x => x :: l) alphabet) (words alphabet n))
  end.

Lemma elem_of_words {A} (alphabet l : list A) :
  Forall (fun x => x ∈ alphabet) l -> l ∈ words alphabet (length l).
Proof.
  induction 1 as [|x l Hx Hl IH]; simpl; [by apply list_elem_of_singleton|].
  rewrite list_elem_of_In, in_concat in *. eexists. rewrite in_map_iff. split; [by eexists|].
  rewrite in_map_iff. exists x. split; [done|by apply list_elem_of_In].
Qed.

Definition configure_check (reload_ok : bool) (stages : list string) : bool :=
  negb (bool_decide (NoDup stages)) ||
  match configure_ingress_pipeline reload_ok fresh_ebpf stages with
  | Ok o => configuredb stages o
  | Err _ => false
  end.

Lemma configure_check_all (reload_ok : bool) (n : nat) :
  (n <= 3)%nat -> forallb (configure_check reload_ok) (words VALID_PIPELINE_STAGES n) = true.
Proof.
  intros Hn. destruct n as [|[|[|[|]]]]; [..|lia]; destruct reload_ok; vm_compute; reflexivity.
Qed.

Lemma valid_length (stages : list string) :
  Forall (fun s => s ∈ VALID_PIPELINE_STAGES) stages -> NoDup stages -> (length stages <= 3)%nat.
Proof.
  intros Hv Hd.
  apply (NoDup_incl_length (proj1 (NoDup_ListNoDup stages) Hd) (l' := VALID_PIPELINE_STAGES)).
  intros x Hx. rewrite Forall_forall in Hv. by apply list_elem_of_In, Hv, list_elem_of_In.
Qed.

Lemma configure_links (reload_ok : bool) (stages : list string) :
  is_ok (validate_stage_list stages) = true -> NoDup stages ->
  exists o, configure_ingress_pipeline reload_ok fresh_ebpf stages = Ok o /\
    configuredb stages o = true /\ (length (progs_of stages) < MAX_TAIL_CALLS)%nat.
Proof.
  intros Hv Hd. apply validate_stage_list_valid in Hv.
  pose proof (valid_length stages Hv Hd) as Hlen.
  pose proof (configure_check_all reload_ok _ Hlen) as Hall. rewrite forallb_forall in Hall.
  specialize (Hall stages (proj1 (list_elem_of_In _ _) (elem_of_words _ _ Hv))).
  unfold configure_check in Hall. rewrite (bool_decide_eq_true_2 _ Hd) in Hall. cbn [negb orb] in Hall.
  destruct (configure_ingress_pipeline _ _ _) as [o|] eqn:Ho; [|done]. exists o. split_and!; [done..|].
  pose proof (progs_of_length stages). unfold MAX_TAIL_CALLS. lia.
Qed.

(** C10: for every accepted list of distinct stages, startup succeeds and the
    tail-calling ingress program processes each packet exactly as the
    configured stages run one after the other, a whitelisted packet going
    straight to transmission; the kernel's limit on tail calls is never met *)
Theorem configured_ingress_runs_pipeline `{NT : NetworkTypes} `{LI : LruInsert}
    (reload_ok : bool) (stages : list string) :
  is_ok (validate_stage_list stages) = true -> NoDup stages ->
  exists o, configure_ingress_pipeline reload_ok fresh_ebpf stages = Ok o /\
    forall M ctx st, PROGRAM_ARRAY M = program_array o -> NEXT_STAGE M = next_stage o ->
      ingress M ctx st = run_pipeline M ctx (progs_of stages) st.
Proof.
  intros Hv Hd. destruct (configure_links reload_ok stages Hv Hd) as (o & Ho & Hc & Hlen).
  exists o. split; [done|]. intros M ctx st HP HN. unfold configuredb in Hc. bool_to_prop.
  destruct (next_stage o !! 0%nat) as [e|] eqn:He; [|done].
  apply (ingress_linked M ctx) with (entry := e); rewrite ?HP, ?HN; [done..| |done].
  by apply linkedb_linked.
Qed.

Lemma configured_ingress_runs_pipeline_witness :
  exists o, configure_ingress_pipeline false fresh_ebpf ["service"; "access_control"] = Ok o /\
    forall (M : kmaps) ctx st, PROGRAM_ARRAY M = program_array o -> NEXT_STAGE M = next_stage o ->
      ingress (NT := rfc_headers) (LI := lru_plain) M ctx st =
      run_pipeline M ctx [p_protocol_filter; p_access_control] st.
Proof.
  apply (configured_ingress_runs_pipeline (NT := rfc_headers) (LI := lru_plain) false
           ["service"; "access_control"]); [reflexivity|].
  refine (bool_decide_unpack _ _). by vm_compute.
Defined.

(** ** A gap in the validation *)

(** A list the validation accepts that startup then refuses: the loader does
    not load a program twice, so the data plane does not come up at all. *)
Definition duplicate_stages : list string := ["access_control"; "rate_limit"; "access_control"].

(** Finding: the validation accepts a repeated stage, but startup then fails; were the
    second load to succeed, the stage between the repetitions would be
    unreachable: following [NEXT_STAGE] from the entry visits the
    access-control slot and goes on to transmission *)
Theorem duplicate_stage_not_rejected :
  validate_stage_list duplicate_stages = Ok tt /\
  normalize_pipeline_stages "access_control, rate_limit,access_control" = Ok duplicate_stages /\
  configure_ingress_pipeline false fresh_ebpf duplicate_stages = Err AttachProgramFailed /\
  exists o, configure_ingress_pipeline true fresh_ebpf duplicate_stages = Ok o /\
    next_stage o !! 0%nat = Some 1 /\ program_array o !! 1 = Some p_access_control /\
    next_stage o !! 1%nat = Some STAGE_TRANSMISSION.
Proof. split_and!; [done..|]. eexists; split; [reflexivity|]. vm_compute. done. Qed.
