(* ===== verification/Float.v ===== *)
(** * IEEE 754 binary32 and binary64 ([f32], [f64])

    The operations of Rust's float types, on the executable specification of
    the Standard Library: round to nearest even, signed zeros, infinities and
    NaN, and the saturating [as] casts to integers. *)

From Stdlib Require Import ZArith Lia Bool.
From Corelib Require Import SpecFloat.
From stdpp Require Import base tactics decidable.
From S2P Require Import Prelude.

Local Open Scope Z_scope.

Abbreviation float := spec_float (only parsing).

#[export] Instance spec_float_eq_dec : EqDecision spec_float.
Proof. solve_decision. Defined.

Definition is_nan (x : float) : bool := match x with S754_nan => true | _ => false end.
Definition is_finite (x : float) : bool :=
  match x with S754_zero _ | S754_finite _ _ _ => true | _ => false end.

(** Comparisons: false whenever one side is NaN. *)
Definition feq (a b : float) : bool := SFeqb a b.
Definition flt (a b : float) : bool := SFltb a b.
Definition fle (a b : float) : bool := SFleb a b.
Definition fgt (a b : float) : bool := SFltb b a.
Definition fge (a b : float) : bool := SFleb b a.

(** [fN::max], [fN::min]: the other operand when one is NaN. *)
Definition fmax (a b : float) : float := if is_nan a then b else if flt a b then b else a.
Definition fmin (a b : float) : float := if is_nan a then b else if flt b a then b else a.

(** [clamp] *)
Definition fclamp (x lo hi : float) : float :=
  let x := if flt x lo then lo else x in if fgt x hi then hi else x.

(** The integer part toward zero of a finite float. *)
Definition ftrunc (x : float) : Z :=
  match x with
  | S754_finite s m e =>
      let a := if 0 <=? e then Z.pos m * 2 ^ e else Z.pos m / 2 ^ (- e) in
      if s then - a else a
  | _ => 0
  end.

(** [x as uN] *)
Definition f_to_uint (w : Z) (x : float) : Z :=
  match x with
  | S754_nan => 0
  | S754_infinity s => if s then 0 else umax w
  | _ => Z.max 0 (Z.min (umax w) (ftrunc x))
  end.

Section Format.
Variables (prec emax : Z).

Definition of_Z (x : Z) : float := binary_normalize prec emax x 0 false.

(** The nearest float of the fraction [n / d]. *)
Definition of_ratio (n : Z) (d : positive) : float :=
  match n with
  | Z0 => S754_zero false
  | Zpos m => SFdiv prec emax (S754_finite false m 0) (S754_finite false d 0)
  | Zneg m => SFdiv prec emax (S754_finite true m 0) (S754_finite false d 0)
  end.

(** Conversion from the other format. *)
Definition convert (x : float) : float :=
  match x with
  | S754_finite s m e => binary_normalize prec emax (if s then Zneg m else Zpos m) e s
  | _ => x
  end.
End Format.

Definition f64_of_Z : Z -> float := of_Z 53 1024.
Definition f64_add : float -> float -> float := SFadd 53 1024.
Definition f64_sub : float -> float -> float := SFsub 53 1024.
Definition f64_mul : float -> float -> float := SFmul 53 1024.
Definition f64_div : float -> float -> float := SFdiv 53 1024.
Definition f64_sqrt : float -> float := SFsqrt 53 1024.
Definition f64_of_ratio : Z -> positive -> float := of_ratio 53 1024.
Definition f64_of_f32 : float -> float := convert 53 1024.

Definition f32_of_Z : Z -> float := of_Z 24 128.
Definition f32_add : float -> float -> float := SFadd 24 128.
Definition f32_sub : float -> float -> float := SFsub 24 128.
Definition f32_mul : float -> float -> float := SFmul 24 128.
Definition f32_div : float -> float -> float := SFdiv 24 128.
Definition f32_sqrt : float -> float := SFsqrt 24 128.
Definition f32_of_ratio : Z -> positive -> float := of_ratio 24 128.
Definition f32_of_f64 : float -> float := convert 24 128.

(** ** Lemmas *)

Lemma flt_nan_l (x : float) : flt S754_nan x = false.
Proof. by destruct x. Qed.
Lemma flt_nan_r (x : float) : flt x S754_nan = false.
Proof. by destruct x. Qed.

Lemma f_to_uint_in_width (w : Z) (x : float) : 0 <= w -> in_width w (f_to_uint w x).
Proof.
  intros Hw. pose proof (pow2_pos w Hw). unfold in_width, f_to_uint, umax.
  destruct x; [| | |]; try destruct s; lia.
Qed.

(** Zero times anything casts to zero: a signed zero or NaN. *)
Lemma f64_mul_zero_cast (x : float) : f_to_uint 64 (f64_mul (f64_of_Z 0) x) = 0.
Proof. by destruct x. Qed.
