(* ===== verification/RateLimit.v ===== *)
(** * Rate-limit configuration

    The kernel's [RATE_LIMIT_CONFIG] array behind [RateLimitPort]
    (adapter/ebpf/rate_limit.rs), the operator's settings with their rollback
    (core/data_plane/rate_limit_service.rs, adapter/persistence/enforcement.rs)
    and the temporary reduction of the SOAR engine
    (core/response/rate_limit_owner.rs).

    Every map and database operation may fail: it consumes one flag of
    [faults], and an exhausted list means no further failures. *)

From Stdlib Require Import ZArith Lia List String.
From Corelib Require Import SpecFloat.
From stdpp Require Import base list gmap strings.
From S2P Require Import Prelude Abi Float.

Local Open Scope string_scope.
Local Open Scope Z_scope.

Inductive rl_error : Type :=
  | NotLoaded
  | MapOperationError
  | InvalidRateLimitValue (field : string) (value : Z)
  | PersistedValueInvalid (value : Z)
  | DatabaseFailed
  | ActionFailed (action : string) (cause : option rl_error) (failed : list string)
  | TtlTooLarge (ttl : Z).

Record rl_world : Type := mk_rl {
  config_map : option (list Z);         (* [None] when eBPF is unavailable *)
  rlc_table : gmap string Z;            (* table rate_limit_config *)
  faults : list bool;
}.

Definition rl (A : Type) : Type := sm rl_world rl_error A.

Definition set_config_map (w : rl_world) (m : option (list Z)) : rl_world :=
  mk_rl m (rlc_table w) (faults w).

(** One operation on the outside world. *)
Definition attempt (e : rl_error) : rl unit := fun w =>
  match faults w with
  | f :: fs => (if f then Err e else Ok tt, mk_rl (config_map w) (rlc_table w) fs)
  | [] => (Ok tt, w)
  end.

(** ** adapter/ebpf/rate_limit.rs *)

Definition get_at (index : Z) : rl Z :=
  do! w := sm_get in
  match config_map w with
  | None => sm_fail NotLoaded
  | Some m =>
      run! attempt MapOperationError in
      match m !! Z.to_nat index with
      | Some v => sm_ret v
      | None => sm_fail MapOperationError
      end
  end.

Definition set_at (index value : Z) : rl unit :=
  do! w := sm_get in
  match config_map w with
  | None => sm_fail NotLoaded
  | Some m =>
      run! attempt MapOperationError in
      if (Z.to_nat index <? length m)%nat
      then sm_modify (fun w => set_config_map w (Some (<[Z.to_nat index := value]> m)))
      else sm_fail MapOperationError
  end.

Definition get_packet_rate : rl Z := get_at CFG_PACKET_RATE.
Definition get_syn_rate : rl Z := get_at CFG_SYN_RATE.
Definition get_udp_rate : rl Z := get_at CFG_UDP_RATE.
Definition get_dns_rate : rl Z := get_at CFG_DNS_RATE.
Definition get_window_ns : rl Z := get_at CFG_WINDOW_NS.
Definition set_packet_rate (v : Z) : rl unit := set_at CFG_PACKET_RATE v.
Definition set_syn_rate (v : Z) : rl unit := set_at CFG_SYN_RATE v.
Definition set_udp_rate (v : Z) : rl unit := set_at CFG_UDP_RATE v.
Definition set_dns_rate (v : Z) : rl unit := set_at CFG_DNS_RATE v.
Definition set_window_ns (v : Z) : rl unit := set_at CFG_WINDOW_NS v.

(** ** adapter/persistence/enforcement.rs *)

(** [i64::try_from]: SQLite integers are signed. *)
Definition encode_rate_limit_value (value : Z) : result rl_error Z :=
  if value <? pow2 63 then Ok value else Err (PersistedValueInvalid value).

Fixpoint encode_all (values : list (string * Z)) : result rl_error (list (string * Z)) :=
  match values with
  | [] => Ok []
  | (k, v) :: values =>
      let? v := encode_rate_limit_value v in
      let? rest := encode_all values in
      Ok ((k, v) :: rest)
  end.

(** One transaction: all rows or none. *)
Definition set_rate_limits (values : list (string * Z)) : rl unit :=
  do! rows := sm_lift (encode_all values) in
  run! attempt DatabaseFailed in
  sm_modify (fun w => mk_rl (config_map w)
    (fold_left (fun t kv => <[kv.1 := kv.2]> t) rows (rlc_table w)) (faults w)).

(** Rows in table order; a negative value would be a decode error. *)
Definition load_rate_limit_config : rl (list (string * Z)) :=
  run! attempt DatabaseFailed in
  do! w := sm_get in
  let rows := map_to_list (rlc_table w) in
  if forallb (fun kv => 0 <=? kv.2) rows then sm_ret rows else sm_fail DatabaseFailed.

(** ** core/data_plane/rate_limit_service.rs *)

Definition PACKET_RATE_KEY : string := "packet_rate".
Definition SYN_RATE_KEY : string := "syn_rate".
Definition UDP_RATE_KEY : string := "udp_rate".
Definition DNS_RATE_KEY : string := "dns_rate".
Definition WINDOW_NS_KEY : string := "window_ns".

Record RateLimitSettings : Type := mk_settings {
  packet_rate : option Z; syn_rate : option Z; udp_rate : option Z; dns_rate : option Z;
  window_ns : option Z;
}.

Record RateLimitChange : Type := mk_change { ch_key : string; ch_old : Z; ch_new : Z }.

Definition validate_rate_limit_value (key : string) (value : Z) : result rl_error unit :=
  if value =? 0 then Err (InvalidRateLimitValue key value) else Ok tt.

Definition apply_key (key : string) (value : Z) : rl unit :=
  if String.eqb key PACKET_RATE_KEY then set_packet_rate value
  else if String.eqb key SYN_RATE_KEY then set_syn_rate value
  else if String.eqb key UDP_RATE_KEY then set_udp_rate value
  else if String.eqb key DNS_RATE_KEY then set_dns_rate value
  else if String.eqb key WINDOW_NS_KEY then set_window_ns value
  else sm_ret tt.

(** Apply every entry; failures are logged and ignored. *)
Definition undo_list (l : list (string * Z)) : rl unit :=
  sm_iter (fun kv => do! _ := sm_try (apply_key kv.1 kv.2) in sm_ret tt) l.

Definition restore_settings : rl unit := fun w =>
  match load_rate_limit_config w with
  | (Err _, w) => (Ok tt, w)
  | (Ok configs, w) => undo_list configs w
  end.

Definition current_settings : rl RateLimitSettings :=
  do! p := get_packet_rate in
  do! s := get_syn_rate in
  do! u := get_udp_rate in
  do! d := get_dns_rate in
  do! n := get_window_ns in
  sm_ret (mk_settings (Some p) (Some s) (Some u) (Some d) (Some n)).

(** One [if let Some(v)] block of [prepare_changes]. *)
Definition prepare_one (key : string) (v : option Z) (get : rl Z) (changes : list RateLimitChange) :
    rl (list RateLimitChange) :=
  match v with
  | None => sm_ret changes
  | Some v =>
      run! sm_lift (validate_rate_limit_value key v) in
      do! old := get in
      sm_ret (changes ++ [mk_change key old v])%list
  end.

Definition prepare_changes (s : RateLimitSettings) : rl (list RateLimitChange) :=
  do! c := prepare_one PACKET_RATE_KEY (packet_rate s) get_packet_rate [] in
  do! c := prepare_one SYN_RATE_KEY (syn_rate s) get_syn_rate c in
  do! c := prepare_one UDP_RATE_KEY (udp_rate s) get_udp_rate c in
  do! c := prepare_one DNS_RATE_KEY (dns_rate s) get_dns_rate c in
  prepare_one WINDOW_NS_KEY (window_ns s) get_window_ns c.

(** Undo in reverse order. *)
Definition rollback (applied : list (string * Z)) : rl unit := undo_list (reverse applied).

(** The loop of [update]. *)
Fixpoint apply_changes (changes : list RateLimitChange) (applied : list (string * Z)) :
    rl (list (string * Z)) :=
  match changes with
  | [] => sm_ret applied
  | c :: changes => fun w =>
      match apply_key (ch_key c) (ch_new c) w with
      | (Err e, w) => (run! rollback applied in sm_fail e) w
      | (Ok _, w) => apply_changes changes (applied ++ [(ch_key c, ch_old c)])%list w
      end
  end.

Definition update (s : RateLimitSettings) : rl unit :=
  do! changes := prepare_changes s in
  do! applied := apply_changes changes [] in
  fun w =>
    match set_rate_limits (map (fun c => (ch_key c, ch_new c)) changes) w with
    | (Err e, w) => (run! rollback applied in sm_fail e) w
    | (Ok _, w) => (Ok tt, w)
    end.

(** ** core/response/rate_limit_owner.rs *)

Definition RATE_KEYS : list string := [PACKET_RATE_KEY; SYN_RATE_KEY; UDP_RATE_KEY; DNS_RATE_KEY].

Record ActiveAdjustment : Type := mk_adj { original : list Z; expires : Z }.

Inductive RateLimitCmd : Type :=
  | Adjust (factor : float) (ttl_secs : Z)
  | RestoreIfExpired.

Inductive reply : Type :=
  | Reduced                   (* rates reduced *)
  | Extended                  (* TTL extended, rates already reduced *)
  | Restored | NotExpired | NoActiveAdjustment.

#[export] Instance reply_eq_dec : EqDecision reply.
Proof. solve_decision. Defined.

(** The four setters by index. *)
Definition set_rate (i : nat) (v : Z) : rl unit :=
  match i with
  | 0%nat => set_packet_rate v
  | 1%nat => set_syn_rate v
  | 2%nat => set_udp_rate v
  | 3%nat => set_dns_rate v
  | _ => sm_ret tt
  end.

(** [for i in (0..count).rev()], collecting the keys that failed. *)
Fixpoint restore_loop (orig : list Z) (count : nat) (errors : list string) : rl (list string) :=
  match count with
  | O => sm_ret errors
  | S i =>
      do! r := sm_try (set_rate i (nth i orig 0)) in
      restore_loop orig i
        (match r with Ok _ => errors | Err _ => errors ++ [nth i RATE_KEYS ""] end)%list
  end.

Definition restore_prefix (orig : list Z) (count : nat) (action : string) : rl unit :=
  do! errors := restore_loop orig count [] in
  match errors with
  | [] => sm_ret tt
  | _ => sm_fail (ActionFailed action None errors)
  end.

Definition rollback_adjustment (orig : list Z) (applied_count : nat) (cause : rl_error) : rl unit :=
  do! r := sm_try (restore_prefix orig applied_count "adjust_rate_limit_rollback") in
  match r with
  | Err (ActionFailed _ _ failed) => sm_fail (ActionFailed "adjust_rate_limit" (Some cause) failed)
  | Err _ => sm_fail (ActionFailed "adjust_rate_limit" (Some cause) [])
  | Ok _ => sm_fail cause
  end.

Definition apply_adjustment (orig rates : list Z) : rl unit :=
  run! set_packet_rate (nth 0 rates 0) in
  do! r := sm_try (set_syn_rate (nth 1 rates 0)) in
  match r with
  | Err e => rollback_adjustment orig 1 e
  | Ok _ =>
      do! r := sm_try (set_udp_rate (nth 2 rates 0)) in
      match r with
      | Err e => rollback_adjustment orig 2 e
      | Ok _ =>
          do! r := sm_try (set_dns_rate (nth 3 rates 0)) in
          match r with
          | Err e => rollback_adjustment orig 3 e
          | Ok _ => sm_ret tt
          end
      end
  end.

(** [((orig as f64 * factor) as u64).max(1)] *)
Definition reduced_rate (factor : float) (orig : Z) : Z :=
  Z.max (f_to_uint 64 (f64_mul (f64_of_Z orig) factor)) 1.

Definition first_adjust (factor : float) : rl (list Z) :=
  do! p := get_packet_rate in
  do! s := get_syn_rate in
  do! u := get_udp_rate in
  do! d := get_dns_rate in
  let orig := [p; s; u; d] in
  run! apply_adjustment orig (map (reduced_rate factor) orig) in
  sm_ret orig.

(** Instants are nanoseconds; the seconds of a Linux instant are an [i64]. *)
Definition checked_add_secs (now secs : Z) : option Z :=
  let e := now + secs * 1000000000 in
  if e / 1000000000 <? pow2 63 then Some e else None.

(** One iteration of [run]: the command, the clock, the owner's state. *)
Definition run_cmd (now : Z) (cmd : RateLimitCmd) (state : option ActiveAdjustment) :
    rl_world -> result rl_error reply * option ActiveAdjustment * rl_world := fun w =>
  match cmd with
  | Adjust factor ttl_secs =>
      match checked_add_secs now ttl_secs with
      | None => (Err (TtlTooLarge ttl_secs), state, w)
      | Some exp =>
          match state with
          | Some s => (Ok Extended, Some (mk_adj (original s) exp), w)
          | None =>
              match first_adjust factor w with
              | (Ok orig, w) => (Ok Reduced, Some (mk_adj orig exp), w)
              | (Err e, w) => (Err e, None, w)
              end
          end
      end
  | RestoreIfExpired =>
      match state with
      | Some adj =>
          if now >=? expires adj then
            match restore_prefix (original adj) (length (original adj)) "restore_rate_limit" w with
            | (Ok _, w) => (Ok Restored, None, w)
            | (Err e, w) => (Err e, state, w)
            end
          else (Ok NotExpired, state, w)
      | None => (Ok NoActiveAdjustment, None, w)
      end
  end.

(** ** Lemmas: operations that fail at most once *)

Definition calm (w : rl_world) : Prop := Forall (fun f => f = false) (faults w).
Definition one_fault (w : rl_world) : Prop :=
  (length (filter (fun f => f = true) (faults w)) <= 1)%nat.

Lemma calm_one_fault (w : rl_world) : calm w -> one_fault w.
Proof.
  unfold calm, one_fault. induction 1 as [|f l Hf Hl IH]; simpl; [lia|].
  rewrite filter_cons, Hf. by rewrite decide_False.
Qed.

Lemma one_fault_calm (l : list bool) :
  (length (filter (fun f => f = true) (true :: l)) <= 1)%nat -> Forall (fun f => f = false) l.
Proof.
  rewrite filter_cons, decide_True by done. simpl. intros H.
  induction l as [|[] l IH]; constructor; try done.
  - rewrite filter_cons, decide_True in H by done. simpl in H. lia.
  - rewrite filter_cons, decide_True in H by done. simpl in H. lia.
  - apply IH. by rewrite filter_cons, decide_False in H by done.
Qed.

(** [w'] holds array [m] and the table of [w], and failures are used up. *)
Definition holds (w w' : rl_world) (m : list Z) : Prop :=
  config_map w' = Some m /\ rlc_table w' = rlc_table w /\ one_fault w' /\ (calm w -> calm w').

Lemma holds_refl (w : rl_world) (m : list Z) :
  config_map w = Some m -> one_fault w -> holds w w m.
Proof. intros; unfold holds; by split_and!. Qed.

Lemma holds_trans (w1 w2 w3 : rl_world) (m m' : list Z) :
  holds w1 w2 m -> holds w2 w3 m' -> holds w1 w3 m'.
Proof. unfold holds. intros (? & ? & ? & ?) (? & ? & ? & ?). split_and!; [done|congruence|done|auto]. Qed.

(** An operation either succeeds with [Q], or used the one failure. *)
Definition tries {A} (w : rl_world) (m m' : list Z) (Q : A -> Prop) (r : result rl_error A * rl_world) : Prop :=
  match r with
  | (Ok a, w') => Q a /\ holds w w' m'
  | (Err _, w') => holds w w' m /\ calm w' /\ ~ calm w
  end.

Lemma attempt_tries (w : rl_world) (m : list Z) (e : rl_error) :
  config_map w = Some m -> one_fault w -> tries w m m (fun _ => True) (attempt e w).
Proof.
  intros Hm Hf. unfold attempt, tries, holds, calm, one_fault in *.
  destruct w as [c t [|[] fs]]; simpl in *; [by split_and!| |].
  - split_and!; [done|done| |by intros H; inversion H|by apply one_fault_calm|by intros H; inversion H].
    pose proof (one_fault_calm _ Hf) as Hc.
    by apply (calm_one_fault (mk_rl c t fs)).
  - rewrite filter_cons, decide_False in Hf by done.
    split_and!; try done. by inversion 1.
Qed.

Lemma set_at_tries (w : rl_world) (m : list Z) (i : Z) (v : Z) :
  config_map w = Some m -> one_fault w -> (Z.to_nat i < length m)%nat ->
  tries w m (<[Z.to_nat i := v]> m) (fun _ => True) (set_at i v w).
Proof.
  intros Hm Hf Hi. pose proof (attempt_tries w m MapOperationError Hm Hf) as Ha.
  unfold set_at, sm_bind, sm_get. rewrite Hm.
  destruct (attempt MapOperationError w) as [[[]|e] w']; [|done]. destruct Ha as [_ (H1 & H2 & H3 & H4)].
  rewrite (proj2 (Nat.ltb_lt _ _) Hi). by split; [|split_and!].
Qed.

Lemma get_at_tries (w : rl_world) (m : list Z) (i v : Z) :
  config_map w = Some m -> one_fault w -> m !! Z.to_nat i = Some v ->
  tries w m m (fun x => x = v) (get_at i w).
Proof.
  intros Hm Hf Hi. pose proof (attempt_tries w m MapOperationError Hm Hf) as Ha.
  unfold get_at, sm_bind, sm_get. rewrite Hm.
  destruct (attempt MapOperationError w) as [[[]|e] w']; [|done]. destruct Ha as [_ Ha].
  by rewrite Hi.
Qed.

(** ** The settings keys and their array cells *)

Definition key_index (key : string) : option Z :=
  if String.eqb key PACKET_RATE_KEY then Some CFG_PACKET_RATE
  else if String.eqb key SYN_RATE_KEY then Some CFG_SYN_RATE
  else if String.eqb key UDP_RATE_KEY then Some CFG_UDP_RATE
  else if String.eqb key DNS_RATE_KEY then Some CFG_DNS_RATE
  else if String.eqb key WINDOW_NS_KEY then Some CFG_WINDOW_NS
  else None.

Lemma key_index_bound (key : string) (i : Z) : key_index key = Some i -> (Z.to_nat i < 5)%nat.
Proof.
  unfold key_index. repeat (destruct (String.eqb _ _); [intros [= <-]; vm_compute; lia|]). done.
Qed.

Lemma apply_key_index (key : string) (i v : Z) :
  key_index key = Some i -> apply_key key v = set_at i v.
Proof.
  unfold key_index, apply_key.
  repeat (destruct (String.eqb _ _); [by intros [= <-]|]). done.
Qed.

(** [(key, old)] records the cell of [a] that belongs to [key]. *)
Definition records (a : list Z) (kv : string * Z) : Prop :=
  exists i, key_index kv.1 = Some i /\ a !! Z.to_nat i = Some kv.2.

Definition agree_off (a m : list Z) (keys : list string) : Prop :=
  length m = length a /\
  forall i, (forall k j, k ∈ keys -> key_index k = Some j -> i <> Z.to_nat j) -> m !! i = a !! i.

Lemma agree_off_nil (a m : list Z) : agree_off a m [] -> m = a.
Proof. intros [Hl H]. apply list_eq. intros i. apply H. intros k j Hk. by apply not_elem_of_nil in Hk. Qed.

Lemma agree_off_write (a m : list Z) (keys : list string) (k : string) (i v : Z) :
  key_index k = Some i -> agree_off a m keys -> agree_off a (<[Z.to_nat i := v]> m) (keys ++ [k]).
Proof.
  intros Hk [Hl H]. split; [by rewrite length_insert|]. intros j Hj.
  rewrite list_lookup_insert_ne.
  - apply H. intros k' j' Hk' Hi'. eapply Hj; [|done]. set_solver.
  - intros <-. eapply Hj; [|done|done]. set_solver.
Qed.

Lemma agree_off_restore (a m : list Z) (keys : list string) (kv : string * Z) (i : Z) :
  key_index kv.1 = Some i -> a !! Z.to_nat i = Some kv.2 ->
  agree_off a m (kv.1 :: keys) -> agree_off a (<[Z.to_nat i := kv.2]> m) keys.
Proof.
  intros Hk Ha [Hl H]. split; [by rewrite length_insert|]. intros j Hj.
  assert (Z.to_nat i < length m)%nat as Hi by (rewrite Hl; by eapply lookup_lt_Some).
  destruct (decide (j = Z.to_nat i)) as [->|Hne].
  - by rewrite list_lookup_insert_eq, Ha.
  - rewrite list_lookup_insert_ne by done. apply H. intros k' j' Hk' Hi'.
    apply elem_of_cons in Hk' as [->|Hk']; [congruence|by eapply Hj].
Qed.

(** Undoing recorded cells restores the array, in any order. *)
Lemma rollback_list_restores (a : list Z) (l : list (string * Z)) (w : rl_world) (m : list Z) :
  length a = 5%nat -> Forall (records a) l -> calm w -> config_map w = Some m ->
  agree_off a m l.*1 ->
  exists w', undo_list l w = (Ok tt, w') /\
    config_map w' = Some a /\ rlc_table w' = rlc_table w /\ calm w'.
Proof.
  intros Ha Hl. revert w m. induction Hl as [|kv l [i [Hi Hai]] Hl IH]; intros w m Hc Hm Hoff.
  - exists w. by rewrite (agree_off_nil a m Hoff) in Hm.
  - unfold undo_list. simpl. unfold sm_bind, sm_try. rewrite (apply_key_index _ _ _ Hi).
    pose proof (calm_one_fault w Hc) as Hf.
    assert (Z.to_nat i < length m)%nat as Hlt
      by (destruct Hoff as [-> _]; rewrite Ha; by apply key_index_bound in Hi).
    pose proof (set_at_tries w m i kv.2 Hm Hf Hlt) as Ht.
    destruct (set_at i kv.2 w) as [[[]|e] w1]; [|by destruct Ht as (_ & _ & [])].
    destruct Ht as [_ (Hm1 & Ht1 & _ & Hc1)].
    destruct (IH w1 (<[Z.to_nat i := kv.2]> m)) as (w' & Hr & Hm' & Ht' & Hc');
      [auto|done|by apply agree_off_restore|].
    exists w'. split; [exact Hr|]. split_and!; [done|congruence|done].
Qed.

Lemma rollback_restores {A} (a : list Z) (l : list (string * Z)) (w : rl_world) (m : list Z) (e : rl_error) :
  length a = 5%nat -> Forall (records a) l -> calm w -> config_map w = Some m ->
  agree_off a m l.*1 ->
  exists w', (run! rollback l in sm_fail (A := A) e) w = (Err e, w') /\
    config_map w' = Some a /\ rlc_table w' = rlc_table w.
Proof.
  intros Ha Hl Hc Hm [Hlen Hoff].
  destruct (rollback_list_restores a (reverse l) w m Ha) as (w' & Hr & Hm' & Ht' & _);
    [by apply Forall_reverse|done|done| |].
  - split; [done|]. intros i Hi. apply Hoff. intros k j Hk. apply Hi.
    rewrite fmap_reverse. by apply elem_of_reverse.
  - exists w'. unfold rollback, sm_bind. by rewrite Hr.
Qed.

(** ** The update is all or nothing *)

Definition write_key (a : list Z) (kv : string * Z) : list Z :=
  match key_index kv.1 with
  | Some i => <[Z.to_nat i := kv.2]> a
  | None => a
  end.

Definition opt_entry (key : string) (v : option Z) : list (string * Z) :=
  match v with Some v => [(key, v)] | None => [] end.

(** The entries a request asks for. *)
Definition settings_list (s : RateLimitSettings) : list (string * Z) :=
  (opt_entry PACKET_RATE_KEY (packet_rate s) ++ opt_entry SYN_RATE_KEY (syn_rate s) ++
   opt_entry UDP_RATE_KEY (udp_rate s) ++ opt_entry DNS_RATE_KEY (dns_rate s) ++
   opt_entry WINDOW_NS_KEY (window_ns s))%list.

Definition old_entry (c : RateLimitChange) : string * Z := (ch_key c, ch_old c).
Definition new_entry (c : RateLimitChange) : string * Z := (ch_key c, ch_new c).

(** What one [if let] block does to the list of changes. *)
Definition prepared (a : list Z) (w : rl_world) (changes : list RateLimitChange)
    (entries : list (string * Z)) (r : result rl_error (list RateLimitChange) * rl_world) : Prop :=
  match r with
  | (Ok c', w') => holds w w' a /\
      exists extra, c' = (changes ++ extra)%list /\ Forall (records a) (old_entry <$> extra) /\
        new_entry <$> extra = entries
  | (Err _, w') => holds w w' a
  end.

Lemma prepare_one_prepared (a : list Z) (w : rl_world) (changes : list RateLimitChange)
    (key : string) (i : Z) (v : option Z) :
  config_map w = Some a -> one_fault w -> length a = 5%nat -> key_index key = Some i ->
  prepared a w changes (opt_entry key v) (prepare_one key v (get_at i) changes w).
Proof.
  intros Hm Hf Ha Hi. destruct v as [v|]; unfold prepare_one.
  2: { split; [by apply holds_refl|]. exists []. by rewrite app_nil_r. }
  unfold validate_rate_limit_value, sm_bind, sm_lift. destruct (v =? 0); [by apply holds_refl|].
  destruct (lookup_lt_is_Some_2 a (Z.to_nat i)) as [old Hold];
    [rewrite Ha; by eapply key_index_bound|].
  pose proof (get_at_tries w a i old Hm Hf Hold) as Ht.
  destruct (get_at i w) as [[x|e] w']; [|apply Ht]. destruct Ht as [-> Hh].
  split; [done|]. exists [mk_change key old v]. split_and!; [done| |done].
  apply Forall_singleton. by exists i.
Qed.

(** Two blocks in sequence. *)
Lemma prepared_bind (a : list Z) (w : rl_world) (c : list RateLimitChange) (e1 e2 : list (string * Z))
    (m : rl (list RateLimitChange)) (f : list RateLimitChange -> rl (list RateLimitChange)) :
  prepared a w c e1 (m w) ->
  (forall c' w', config_map w' = Some a -> one_fault w' -> prepared a w' c' e2 (f c' w')) ->
  prepared a w c (e1 ++ e2) (sm_bind m f w).
Proof.
  unfold sm_bind. destruct (m w) as [[c'|e] w']; [|done].
  intros [Hh (x1 & -> & Hr1 & He1)] Hf2. destruct (Hh) as (Hm & _ & Hf & _).
  specialize (Hf2 (c ++ x1)%list w' Hm Hf).
  destruct (f (c ++ x1)%list w') as [[c''|e] w'']; simpl in *; [|by eapply holds_trans].
  destruct Hf2 as [Hh2 (x2 & -> & Hr2 & He2)]. split; [by eapply holds_trans|].
  exists (x1 ++ x2)%list. rewrite app_assoc, !fmap_app. split_and!; [done| |congruence].
  by apply Forall_app_2.
Qed.

Lemma prepare_changes_prepared (a : list Z) (w : rl_world) (s : RateLimitSettings) :
  config_map w = Some a -> one_fault w -> length a = 5%nat ->
  prepared a w [] (settings_list s) (prepare_changes s w).
Proof.
  intros Hm Hf Ha. unfold prepare_changes, settings_list.
  repeat (apply prepared_bind; [by apply prepare_one_prepared|clear w Hm Hf; intros ? w Hm Hf; cbv beta]).
  by apply prepare_one_prepared.
Qed.

(** Progress of the apply loop from array [m], with [applied] already written. *)
Lemma apply_changes_atomic (a : list Z) (changes : list RateLimitChange) (w : rl_world)
    (m : list Z) (applied : list (string * Z)) :
  length a = 5%nat -> Forall (records a) (old_entry <$> changes) -> Forall (records a) applied ->
  config_map w = Some m -> one_fault w -> agree_off a m applied.*1 ->
  match apply_changes changes applied w with
  | (Ok l, w') => l = (applied ++ (old_entry <$> changes))%list /\
      holds w w' (fold_left write_key (new_entry <$> changes) m) /\
      agree_off a (fold_left write_key (new_entry <$> changes) m) l.*1
  | (Err _, w') => config_map w' = Some a /\ rlc_table w' = rlc_table w
  end.
Proof.
  intros Ha. revert w m applied. induction changes as [|c changes IH];
    intros w m applied Hall Happ Hm Hf Hoff; cbn [apply_changes].
  { simpl. rewrite app_nil_r. by split_and!; [|apply holds_refl|]. }
  apply Forall_cons in Hall as [(i & Hi & Hold) Hall]. cbn [old_entry fst snd] in Hi, Hold.
  rewrite (apply_key_index _ _ _ Hi).
  assert (Z.to_nat i < length m)%nat as Hlt
    by (destruct Hoff as [-> _]; rewrite Ha; by eapply key_index_bound).
  pose proof (set_at_tries w m i (ch_new c) Hm Hf Hlt) as Ht.
  destruct (set_at i (ch_new c) w) as [[[]|e] w1].
  - destruct Ht as [_ Hh]. destruct (Hh) as (Hm1 & _ & Hf1 & _).
    assert (write_key m (new_entry c) = <[Z.to_nat i := ch_new c]> m) as Hw
      by (unfold write_key, new_entry; simpl; by rewrite Hi).
    specialize (IH w1 (<[Z.to_nat i := ch_new c]> m) (applied ++ [(ch_key c, ch_old c)])%list).
    simpl. rewrite Hw.
    destruct (apply_changes changes _ w1) as [[l|e] w2].
    + destruct IH as (-> & Hh2 & Hoff2); [done|..].
      * apply Forall_app_2; [done|]. apply Forall_singleton. by exists i.
      * done.
      * done.
      * rewrite fmap_app. by apply agree_off_write.
      * rewrite <- app_assoc in *. split_and!; [done|by eapply holds_trans|done].
    + destruct IH as [? HT]; [done|..|destruct Hh as (_ & <- & _); done].
      * apply Forall_app_2; [done|]. apply Forall_singleton. by exists i.
      * done.
      * done.
      * rewrite fmap_app. by apply agree_off_write.
  - destruct Ht as ((Hm1 & Ht1 & _) & Hc1 & _).
    destruct (rollback_restores (A := list (string * Z)) a applied w1 m e Ha Happ Hc1 Hm1 Hoff) as (w' & Hr & Hm' & Ht').
    unfold rl in *. rewrite Hr. split; [done|congruence].
Qed.

Lemma encode_all_spec (l : list (string * Z)) :
  match encode_all l with
  | Ok rows => rows = l
  | Err _ => ~ Forall (fun kv => kv.2 < pow2 63) l
  end.
Proof.
  induction l as [|[k v] l IH]; simpl; [done|]. unfold encode_rate_limit_value.
  destruct (Z.ltb_spec v (pow2 63)); simpl; [|by rewrite Forall_cons; intros [? _]; simpl in *; lia].
  destruct (encode_all l) as [rest|]; simpl; [congruence|]. rewrite Forall_cons. by intros [_ ?].
Qed.

(** At most one thing goes wrong: one operation fails, or a value does not fit
    the database. *)
Definition single_failure (s : RateLimitSettings) (w : rl_world) : Prop :=
  calm w \/ (one_fault w /\ Forall (fun kv => kv.2 < pow2 63) (settings_list s)).

(** an update of the rate limits in which at most one thing goes wrong,
    wherever it happens, either succeeds, with every
    requested value in the kernel array and in the database, or fails and
    leaves both exactly as they were *)
Theorem update_all_or_nothing (s : RateLimitSettings) (w : rl_world) (a : list Z) :
  config_map w = Some a -> length a = 5%nat -> single_failure s w ->
  match update s w with
  | (Ok _, w') =>
      config_map w' = Some (fold_left write_key (settings_list s) a) /\
      rlc_table w' = fold_left (fun t kv => <[kv.1 := kv.2]> t) (settings_list s) (rlc_table w)
  | (Err _, w') => config_map w' = Some a /\ rlc_table w' = rlc_table w
  end.
Proof.
  intros Hm Ha Hsf. unfold update, sm_bind.
  assert (one_fault w) as Hf by (destruct Hsf as [?|[? _]]; [by apply calm_one_fault|done]).
  pose proof (prepare_changes_prepared a w s Hm Hf Ha) as Hp.
  destruct (prepare_changes s w) as [[c|e] w1]; [|by destruct Hp as (? & ? & _)].
  destruct Hp as [(Hm1 & Ht1 & Hf1 & Hc1) (x & -> & Hr & Hx)]. simpl app.
  pose proof (apply_changes_atomic a x w1 a [] Ha Hr (Forall_nil_2 _) Hm1 Hf1) as Hap.
  destruct (apply_changes x [] w1) as [[l|e] w2].
  2: { destruct Hap as [? ?]; [done|split; [done|congruence]]. }
  destruct Hap as (-> & (Hm2 & Ht2 & Hf2 & Hc2) & Hoff); [done|]. simpl in Hoff.
  change (map (fun c => (ch_key c, ch_new c)) x) with (new_entry <$> x). rewrite Hx in *.
  unfold set_rate_limits, sm_bind, sm_lift. pose proof (encode_all_spec (settings_list s)) as Henc.
  assert (forall e w3, calm w3 -> config_map w3 = config_map w2 -> rlc_table w3 = rlc_table w2 ->
    exists w', (let (r, w'0) := rollback ([] ++ (old_entry <$> x))%list w3 in
      match r with Ok _ => sm_fail (A := unit) e w'0 | Err e0 => (Err e0, w'0) end) = (Err e, w') /\
    config_map w' = Some a /\ rlc_table w' = rlc_table w) as Hroll.
  { intros e w3 Hc3 Hm3 Ht3. rewrite Hm2 in Hm3.
    destruct (rollback_restores (A := unit) a (old_entry <$> x) w3 _ e Ha Hr Hc3 Hm3 Hoff) as (w' & Hro & Hm' & Ht').
    exists w'. split_and!; [exact Hro|done|congruence]. }
  destruct (encode_all (settings_list s)) as [rows|e].
  - subst rows. pose proof (attempt_tries w2 _ DatabaseFailed Hm2 Hf2) as Ht.
    destruct (attempt DatabaseFailed w2) as [[[]|e] w3].
    + destruct Ht as [_ (Hm3 & Ht3 & _)]. simpl. split; [done|]. by rewrite Ht3, Ht2, Ht1.
    + destruct Ht as ((Hm3 & Ht3 & _) & Hc3 & _).
      destruct (Hroll e w3 Hc3) as (w' & Heq & ?); [congruence|done|].
      by rewrite Heq.
  - destruct Hsf as [Hc|[_ Hbig]]; [|done].
    destruct (Hroll e w2) as (w' & Heq & ?); [by auto|done..|]. by rewrite Heq.
Qed.

Lemma update_all_or_nothing_witness :
  let w := mk_rl (Some [0; 0; 0; 0; 0]) ∅ (replicate 4 false ++ [true])%list in
  let s := mk_settings (Some 500) None (Some 900) None None in
  exists w', update s w = (Err DatabaseFailed, w') /\ config_map w' = Some [0; 0; 0; 0; 0].
Proof.
  pose proof (update_all_or_nothing (mk_settings (Some 500) None (Some 900) None None)
    (mk_rl (Some [0; 0; 0; 0; 0]) ∅ (replicate 4 false ++ [true])%list) [0; 0; 0; 0; 0]
    eq_refl eq_refl) as H.
  cbv zeta. revert H. set (r := update _ _). intros H. exists r.2.
  split; [vm_compute; reflexivity|]. assert (r.1 = Err DatabaseFailed) as Hr by (vm_compute; reflexivity).
  clearbody r. destruct r as [[]]; simpl in *; [done|]. apply H. right.
  split; [vm_compute; lia|]. repeat constructor; unfold pow2; simpl; lia.
Defined.

(** ** Temporary reductions are undone exactly *)

(** [m] is [a] with some of its four rates reduced by one factor. *)
Definition adjusted (f : float) (a m : list Z) : Prop :=
  length m = 5%nat /\ m !! 4%nat = a !! 4%nat /\
  forall i, (i < 4)%nat -> m !! i = a !! i \/ m !! i = reduced_rate f <$> a !! i.

Lemma set_rate_tries (w : rl_world) (m : list Z) (i : nat) (v : Z) :
  config_map w = Some m -> one_fault w -> length m = 5%nat -> (i < 4)%nat ->
  tries w m (<[i := v]> m) (fun _ => True) (set_rate i v w).
Proof.
  intros Hm Hf Hl Hi. destruct i as [|[|[|[|]]]]; [| | | |lia];
    apply set_at_tries; rewrite ?Hl; done || (vm_compute; lia).
Qed.

(** Cell [i] of the saved rates is cell [i] of [a]. *)
Lemma nth_take_4 (a : list Z) (i : nat) :
  length a = 5%nat -> (i < 4)%nat -> a !! i = Some (nth i (take 4 a) 0).
Proof. intros Hl Hi. do 5 (destruct a as [|? a]; [simpl in Hl; lia|]). destruct i as [|[|[|[|]]]]; simpl; done || lia. Qed.

Lemma restore_loop_spec (f : float) (a m : list Z) (count : nat) (errs : list string) (w : rl_world) :
  config_map w = Some m -> one_fault w -> length a = 5%nat -> adjusted f a m -> (count <= 4)%nat ->
  exists errs' w' m', restore_loop (take 4 a) count errs w = (Ok errs', w') /\
    holds w w' m' /\ adjusted f a m' /\ (forall i, (count <= i)%nat -> m' !! i = m !! i) /\
    (errs' = [] -> errs = [] /\ forall i, (i < count)%nat -> m' !! i = a !! i) /\
    (calm w -> errs' = errs).
Proof.
  revert m errs w. induction count as [|i IH]; intros m errs w Hm Hf Ha Hadj Hc.
  { exists errs, w, m. split_and!; try done. intros ->. split; [done|]. intros; lia. }
  cbn [restore_loop]. unfold sm_bind at 1. unfold sm_try.
  destruct Hadj as (Hl & H4 & Hi4).
  pose proof (set_rate_tries w m i (nth i (take 4 a) 0) Hm Hf Hl ltac:(lia)) as Ht.
  pose proof (nth_take_4 a i Ha ltac:(lia)) as Hai.
  destruct (set_rate i _ w) as [[[]|e] w1].
  - destruct Ht as [_ Hh]. set (m1 := <[i:=nth i (take 4 a) 0]> m) in *.
    assert (adjusted f a m1) as Hadj1.
    { unfold m1. split_and!; [by rewrite length_insert|by rewrite list_lookup_insert_ne by lia|].
      intros j Hj. destruct (decide (j = i)) as [->|];
        [rewrite list_lookup_insert_eq by lia; by left|rewrite list_lookup_insert_ne by done; auto]. }
    destruct (Hh) as (Hm1 & _ & Hf1 & Hc1).
    destruct (IH m1 errs w1 Hm1 Hf1 Ha Hadj1) as (errs' & w' & m' & Hr & Hh' & Hadj' & Hge & Hok & Hcalm); [lia|].
    exists errs', w', m'. split_and!; [done|by eapply holds_trans|done| | |auto].
    + intros j Hj. rewrite Hge by lia. unfold m1. by rewrite list_lookup_insert_ne by lia.
    + intros He. destruct (Hok He) as [-> Hlt]. split; [done|]. intros j Hj.
      destruct (decide (j = i)) as [->|]; [|apply Hlt; lia].
      rewrite Hge by lia. unfold m1. by rewrite list_lookup_insert_eq by lia.
  - destruct Ht as (Hh & Hc1 & Hnc). destruct (Hh) as (Hm1 & _ & Hf1 & _).
    destruct (IH m (errs ++ [nth i RATE_KEYS ""])%list w1 Hm1 Hf1 Ha) as
      (errs' & w' & m' & Hr & Hh' & Hadj' & Hge & Hok & Hcalm); [done|lia|].
    exists errs', w', m'. split_and!; [done|by eapply holds_trans|done| | |done].
    + intros j Hj. apply Hge. lia.
    + intros He. destruct (Hok He) as [He' _]. by destruct errs.
Qed.

(** A complete restore gives back the array it started from. *)
Lemma adjusted_restored (f : float) (a m : list Z) :
  length a = 5%nat -> adjusted f a m -> (forall i, (i < 4)%nat -> m !! i = a !! i) -> m = a.
Proof.
  intros Ha (Hl & H4 & _) Hi. apply list_eq. intros i. destruct (decide (i < 4)%nat); [by apply Hi|].
  destruct (decide (i = 4%nat)) as [->|]; [done|]. by rewrite !lookup_ge_None_2 by lia.
Qed.

Lemma restore_prefix_spec (f : float) (a m : list Z) (action : string) (w : rl_world) :
  config_map w = Some m -> one_fault w -> length a = 5%nat -> adjusted f a m ->
  match restore_prefix (take 4 a) 4 action w with
  | (Ok _, w') => holds w w' a
  | (Err _, w') => exists m', holds w w' m' /\ adjusted f a m'
  end.
Proof.
  intros Hm Hf Ha Hadj. unfold restore_prefix, sm_bind.
  destruct (restore_loop_spec f a m 4 [] w Hm Hf Ha Hadj) as
    (errs' & w' & m' & -> & Hh & Hadj' & _ & Hok & _); [lia|].
  destruct errs' as [|]; [|by exists m'].
  destruct (Hok eq_refl) as [_ Hlt]. by rewrite (adjusted_restored f a m' Ha Hadj' Hlt) in Hh.
Qed.

(** Undoing the first [n] cells when nothing else fails. *)
Lemma rollback_adjustment_spec (f : float) (a m : list Z) (n : nat) (cause : rl_error) (w : rl_world) :
  config_map w = Some m -> calm w -> length a = 5%nat -> adjusted f a m -> (n <= 4)%nat ->
  (forall i, (n <= i)%nat -> m !! i = a !! i) ->
  exists w', rollback_adjustment (take 4 a) n cause w = (Err cause, w') /\ holds w w' a.
Proof.
  intros Hm Hc Ha Hadj Hn Hge. unfold rollback_adjustment, restore_prefix, sm_bind, sm_try.
  destruct (restore_loop_spec f a m n [] w Hm (calm_one_fault w Hc) Ha Hadj Hn) as
    (errs' & w' & m' & -> & Hh & Hadj' & Hge' & Hok & Hcalm).
  rewrite (Hcalm Hc) in *. destruct (Hok eq_refl) as [_ Hlt]. exists w'. split; [done|].
  assert (m' = a) as ->; [|done]. apply (adjusted_restored f); [done..|]. intros i Hi.
  destruct (decide (i < n)%nat); [by apply Hlt|]. rewrite Hge', Hge by lia. done.
Qed.

(** The cells below [n] hold the reduced rates, the others those of [a]. *)
Definition reduced_upto (f : float) (a m : list Z) (n : nat) : Prop :=
  length m = 5%nat /\
  forall i, m !! i = if decide (i < n)%nat then reduced_rate f <$> a !! i else a !! i.

Lemma reduced_upto_adjusted (f : float) (a m : list Z) (n : nat) :
  reduced_upto f a m n -> (n <= 4)%nat -> adjusted f a m.
Proof.
  intros [Hl Hi] Hn. split_and!; [done|rewrite Hi, decide_False by lia; done|].
  intros i _. rewrite Hi. case_decide; auto.
Qed.

Lemma reduced_upto_step (f : float) (a m : list Z) (n : nat) :
  length a = 5%nat -> reduced_upto f a m n -> (n < 4)%nat ->
  reduced_upto f a (<[n := nth n (map (reduced_rate f) (take 4 a)) 0]> m) (S n).
Proof.
  intros Ha [Hl Hi] Hn. split; [by rewrite length_insert|]. intros i.
  destruct (decide (i = n)) as [->|Hne].
  - rewrite list_lookup_insert_eq, decide_True by lia.
    do 5 (destruct a as [|? a]; [simpl in Ha; lia|]).
    destruct n as [|[|[|[|]]]]; simpl; done || lia.
  - rewrite list_lookup_insert_ne, Hi by done. repeat case_decide; done || lia.
Qed.

Lemma take_4_nth (a : list Z) :
  length a = 5%nat -> take 4 a = [nth 0 a 0; nth 1 a 0; nth 2 a 0; nth 3 a 0].
Proof. intros Ha. do 5 (destruct a as [|? a]; [simpl in Ha; lia|]). done. Qed.

Section ApplyAdjustment.
Variables (f : float) (a : list Z).
Hypothesis Ha : length a = 5%nat.

Let orig : list Z := take 4 a.
Let rates : list Z := map (reduced_rate f) orig.

(** One setter of [apply_adjustment], after the first [n]. *)
Lemma adjust_step (w w0 : rl_world) (m : list Z) (n : nat) :
  holds w0 w m -> reduced_upto f a m n -> (n < 4)%nat ->
  match set_rate n (nth n rates 0) w with
  | (Ok _, w') => exists m', holds w0 w' m' /\ reduced_upto f a m' (S n)
  | (Err e, w') => exists w'', rollback_adjustment orig n e w' = (Err e, w'') /\ holds w0 w'' a
  end.
Proof.
  intros Hh Hr Hn. destruct (Hh) as (Hm & _ & Hf & _).
  pose proof (set_rate_tries w m n (nth n rates 0) Hm Hf (proj1 Hr) Hn) as Ht.
  destruct (set_rate n (nth n rates 0) w) as [[[]|e] w'].
  - destruct Ht as [_ Hh']. eexists. split; [by eapply holds_trans|]. by apply reduced_upto_step.
  - destruct Ht as (Hh' & Hc & _). destruct (Hh') as (Hm' & _).
    destruct (rollback_adjustment_spec f a m n e w' Hm' Hc Ha) as (w'' & Hr' & Hh'').
    + apply (reduced_upto_adjusted f a m n Hr). lia.
    + lia.
    + intros i Hi. destruct Hr as [_ Hr]. by rewrite Hr, decide_False by lia.
    + exists w''. split; [done|]. do 2 (eapply holds_trans; [done|]). done.
Qed.

Lemma apply_adjustment_spec (w : rl_world) :
  config_map w = Some a -> one_fault w ->
  match apply_adjustment orig rates w with
  | (Ok _, w') => exists m', holds w w' m' /\ reduced_upto f a m' 4
  | (Err _, w') => holds w w' a
  end.
Proof.
  intros Hm Hf. assert (reduced_upto f a a 0) as H0 by (split; [done|]; by intros; rewrite decide_False by lia).
  pose proof (adjust_step w w a 0 (holds_refl w a Hm Hf) H0 ltac:(lia)) as H1.
  unfold apply_adjustment. unfold sm_bind at 1. change (set_packet_rate (nth 0 rates 0)) with (set_rate 0 (nth 0 rates 0)).
  destruct (set_rate 0 _ w) as [[[]|e] w1] eqn:E0.
  2: { pose proof (set_rate_tries w a 0 (nth 0 rates 0) Hm Hf Ha ltac:(lia)) as Ht.
       rewrite E0 in Ht. by destruct Ht as [? _]. }
  destruct H1 as (m1 & Hh1 & Hr1). unfold sm_bind, sm_try.
  pose proof (adjust_step w1 w m1 1 Hh1 Hr1 ltac:(lia)) as H2. cbn [set_rate] in H2.
  destruct (set_syn_rate _ w1) as [[[]|e] w2]; [|by destruct H2 as (w'' & -> & ?)].
  destruct H2 as (m2 & Hh2 & Hr2).
  pose proof (adjust_step w2 w m2 2 Hh2 Hr2 ltac:(lia)) as H3. cbn [set_rate] in H3.
  destruct (set_udp_rate _ w2) as [[[]|e] w3]; [|by destruct H3 as (w'' & -> & ?)].
  destruct H3 as (m3 & Hh3 & Hr3).
  pose proof (adjust_step w3 w m3 3 Hh3 Hr3 ltac:(lia)) as H4. cbn [set_rate] in H4.
  destruct (set_dns_rate _ w3) as [[[]|e] w4]; [|by destruct H4 as (w'' & -> & ?)].
  destruct H4 as (m4 & Hh4 & Hr4). by exists m4.
Qed.

Lemma lookup_nth (i : nat) : (i < 5)%nat -> a !! i = Some (nth i a 0).
Proof.
  intros Hi. destruct (lookup_lt_is_Some_2 a i) as [x Hx]; [lia|].
  by rewrite Hx, (nth_lookup_Some _ _ _ _ Hx).
Qed.

(** A read in a world that holds [a], started from [w0]. *)
Lemma read_step (w0 w : rl_world) (i : Z) :
  holds w0 w a -> (Z.to_nat i < 5)%nat ->
  match get_at i w with
  | (Ok x, w') => x = nth (Z.to_nat i) a 0 /\ holds w0 w' a
  | (Err _, w') => holds w0 w' a
  end.
Proof.
  intros Hh Hi. destruct (Hh) as (Hm & _ & Hf & _).
  pose proof (get_at_tries w a i _ Hm Hf (lookup_nth _ Hi)) as Ht.
  destruct (get_at i w) as [[x|e] w']; simpl in Ht.
  - destruct Ht as [? Ht]. split; [done|by eapply holds_trans].
  - destruct Ht as [Ht _]. by eapply holds_trans.
Qed.

Lemma first_adjust_spec (w : rl_world) :
  config_map w = Some a -> one_fault w ->
  match first_adjust f w with
  | (Ok o, w') => o = orig /\ exists m', holds w w' m' /\ adjusted f a m'
  | (Err _, w') => holds w w' a
  end.
Proof.
  intros Hm Hf. unfold first_adjust, get_packet_rate, get_syn_rate, get_udp_rate, get_dns_rate.
  pose proof (read_step w w CFG_PACKET_RATE (holds_refl w a Hm Hf) ltac:(vm_compute; lia)) as G0.
  unfold sm_bind. destruct (get_at CFG_PACKET_RATE w) as [[p|e] w1]; [|done]. destruct G0 as [-> G0].
  pose proof (read_step w w1 CFG_SYN_RATE G0 ltac:(vm_compute; lia)) as G1.
  destruct (get_at CFG_SYN_RATE w1) as [[s|e] w2]; [|done]. destruct G1 as [-> G1].
  pose proof (read_step w w2 CFG_UDP_RATE G1 ltac:(vm_compute; lia)) as G2.
  destruct (get_at CFG_UDP_RATE w2) as [[u|e] w3]; [|done]. destruct G2 as [-> G2].
  pose proof (read_step w w3 CFG_DNS_RATE G2 ltac:(vm_compute; lia)) as G3.
  destruct (get_at CFG_DNS_RATE w3) as [[d|e] w4]; [|done]. destruct G3 as [-> G3].
  change (Z.to_nat CFG_PACKET_RATE) with 0%nat. change (Z.to_nat CFG_SYN_RATE) with 1%nat.
  change (Z.to_nat CFG_UDP_RATE) with 2%nat. change (Z.to_nat CFG_DNS_RATE) with 3%nat.
  rewrite <- (take_4_nth a Ha). fold orig. fold rates. destruct (G3) as (Hm4 & _ & Hf4 & _).
  pose proof (apply_adjustment_spec w4 Hm4 Hf4) as Hap.
  destruct (apply_adjustment orig rates w4) as [[[]|e] w5]; [|by eapply holds_trans].
  destruct Hap as (m' & Hh' & Hr'). split; [done|]. exists m'.
  split; [by eapply holds_trans|by apply (reduced_upto_adjusted f a m' 4 Hr')].
Qed.
End ApplyAdjustment.

(** ** The owner's command loop *)

Fixpoint run_cmds (cmds : list (Z * RateLimitCmd)) (st : option ActiveAdjustment) (w : rl_world) :
    option ActiveAdjustment * rl_world :=
  match cmds with
  | [] => (st, w)
  | (now, cmd) :: cmds => let '(_, st, w) := run_cmd now cmd st w in run_cmds cmds st w
  end.

(** What the loop keeps: with no adjustment active the array is [a]; an active
    one saved the rates of [a] and reduced them once, never on top of another. *)
Definition owner_inv (a : list Z) (st : option ActiveAdjustment) (w : rl_world) : Prop :=
  one_fault w /\
  match st with
  | None => config_map w = Some a
  | Some adj => original adj = take 4 a /\ exists f m, config_map w = Some m /\ adjusted f a m
  end.

Lemma run_cmd_inv (a : list Z) (now : Z) (cmd : RateLimitCmd) (st : option ActiveAdjustment) (w : rl_world) :
  length a = 5%nat -> owner_inv a st w ->
  let '(_, st', w') := run_cmd now cmd st w in owner_inv a st' w' /\ rlc_table w' = rlc_table w.
Proof.
  intros Ha [Hf Hst]. destruct cmd as [f ttl|]; simpl.
  - destruct (checked_add_secs now ttl) as [exp|]; [|done].
    destruct st as [adj|]; [by destruct Hst as [? ?]|].
    pose proof (first_adjust_spec f a Ha w Hst Hf) as Hfa.
    destruct (first_adjust f w) as [[o|e] w'].
    + destruct Hfa as [-> (m' & (Hm' & Ht' & Hf' & _) & Hadj)]. split; [|done].
      split; [done|]. split; [done|]. by exists f, m'.
    + by destruct Hfa as (Hm' & Ht' & Hf' & _).
  - destruct st as [adj|]; [|done]. destruct (now >=? expires adj); [|done].
    destruct Hst as [Ho (f & m & Hm & Hadj)]. rewrite Ho.
    replace (length (take 4 a)) with 4%nat by (rewrite length_take; lia).
    pose proof (restore_prefix_spec f a m "restore_rate_limit" w Hm Hf Ha Hadj) as Hr.
    destruct (restore_prefix _ _ _ w) as [[[]|e] w'].
    + by destruct Hr as (Hm' & Ht' & Hf' & _).
    + destruct Hr as (m' & (Hm' & Ht' & Hf' & _) & Hadj'). split; [|done].
      split; [done|]. split; [done|]. by exists f, m'.
Qed.

Lemma run_cmds_inv (a : list Z) (cmds : list (Z * RateLimitCmd)) (st : option ActiveAdjustment) (w : rl_world) :
  length a = 5%nat -> owner_inv a st w ->
  let '(st', w') := run_cmds cmds st w in owner_inv a st' w' /\ rlc_table w' = rlc_table w.
Proof.
  intros Ha. revert st w. induction cmds as [|[now cmd] cmds IH]; intros st w Hinv; [done|]. simpl.
  pose proof (run_cmd_inv a now cmd st w Ha Hinv) as H1.
  destruct (run_cmd now cmd st w) as [[r st1] w1]. destruct H1 as [Hinv1 Ht1].
  specialize (IH st1 w1 Hinv1). destruct (run_cmds cmds st1 w1) as [st' w'].
  destruct IH as [? ?]. split; [done|congruence].
Qed.

(** C22: after any sequence of adjust and restore commands in which at most one
    map operation fails, the kernel's rates are the configured ones whenever no
    adjustment is active; while one is active each rate is either the
    configured one or that rate reduced by one single factor (reductions never
    compound), and the database is never written *)
Theorem adjustments_are_undone (a : list Z) (cmds : list (Z * RateLimitCmd)) (w : rl_world) :
  config_map w = Some a -> length a = 5%nat -> one_fault w ->
  let '(st', w') := run_cmds cmds None w in
  rlc_table w' = rlc_table w /\
  match st' with
  | None => config_map w' = Some a
  | Some _ => exists f m, config_map w' = Some m /\ m !! 4%nat = a !! 4%nat /\
      forall i, (i < 4)%nat -> m !! i = a !! i \/ m !! i = reduced_rate f <$> a !! i
  end.
Proof.
  intros Hm Ha Hf. pose proof (run_cmds_inv a cmds None w Ha (conj Hf Hm)) as H.
  destruct (run_cmds cmds None w) as [[adj|] w']; destruct H as [[_ H] Ht]; split; try done.
  destruct H as [_ (f & m & Hm' & _ & ? & ?)]. by exists f, m.
Qed.

Definition half : float := f64_of_ratio 1 2.

Lemma adjustments_are_undone_witness :
  let w := mk_rl (Some [1000; 10; 50; 20; 5]) ∅ [] in
  let cmds := [(0, Adjust half 60); (30000000000, Adjust half 60); (70000000000, RestoreIfExpired);
               (90000000000, RestoreIfExpired)] in
  run_cmds (take 2 cmds) None w =
    (Some (mk_adj [1000; 10; 50; 20] 90000000000), mk_rl (Some [500; 5; 25; 10; 5]) ∅ []) /\
  (run_cmds cmds None w).1 = None /\
  config_map (run_cmds cmds None w).2 = Some [1000; 10; 50; 20; 5].
Proof.
  split; [vm_compute; reflexivity|]. split; [vm_compute; reflexivity|].
  pose proof (adjustments_are_undone [1000; 10; 50; 20; 5]
    [(0, Adjust half 60); (30000000000, Adjust half 60); (70000000000, RestoreIfExpired);
     (90000000000, RestoreIfExpired)] (mk_rl (Some [1000; 10; 50; 20; 5]) ∅ []) eq_refl eq_refl
    ltac:(vm_compute; lia)) as H.
  revert H. set (r := run_cmds _ _ _). assert (r.1 = None) as Hr by (vm_compute; reflexivity).
  destruct r as [st w]. simpl in Hr. subst st. intros [_ H]. exact H.
Defined.

(** ** Two divergences from the intended behaviour *)

(** Finding: reducing rates that were never configured, which the kernel replaces by
    its defaults, sets each of them to one packet per second, whatever the
    factor: the reduction is computed from the raw zero *)
Theorem unset_rates_reduced_to_one (f : float) (n : Z) :
  first_adjust f (mk_rl (Some [0; 0; 0; 0; n]) ∅ []) =
    (Ok [0; 0; 0; 0], mk_rl (Some [1; 1; 1; 1; n]) ∅ []).
Proof.
  assert (reduced_rate f 0 = 1) as H by (unfold reduced_rate; by rewrite f64_mul_zero_cast).
  transitivity (Ok (E := rl_error) [0; 0; 0; 0],
    mk_rl (Some [reduced_rate f 0; reduced_rate f 0; reduced_rate f 0; reduced_rate f 0; n]) ∅ []);
    [reflexivity|by rewrite H].
Qed.

(** Finding: an operator's update made while an adjustment is active is persisted but
    lost in the kernel when the adjustment expires *)
Theorem update_lost_on_restore :
  let w0 := mk_rl (Some [1000; 10; 50; 20; 5]) ∅ [] in
  let '(st1, w1) := run_cmds [(0, Adjust half 60)] None w0 in
  let '(r, w2) := update (mk_settings (Some 3000) None None None None) w1 in
  let '(st3, w3) := run_cmds [(60000000000, RestoreIfExpired)] st1 w2 in
  r = Ok tt /\ rlc_table w3 !! PACKET_RATE_KEY = Some 3000 /\ st3 = None /\
  config_map w3 = Some [1000; 10; 50; 20; 5].
Proof. vm_compute. split_and!; reflexivity. Qed.
