(* ===== verification/IpAddr.v ===== *)
(** * IP addresses as text ([std::net], [common/utils/ip_address.rs])

    The parser is the recursive descent of the Rust standard library: decimal
    octets without leading zeros, hexadecimal groups, at most one [::], an
    IPv4 tail.  An address is its value as a big-endian integer. *)

From Stdlib Require Import ZArith Lia List Ascii String.
From stdpp Require Import base list strings.
From S2P Require Import Prelude Abi RStr.

Local Open Scope string_scope.
Local Open Scope Z_scope.

Inductive IpAddr : Type := Ip4 (bits : Z) | Ip6 (bits : Z).

#[export] Instance IpAddr_eq_dec : EqDecision IpAddr.
Proof. solve_decision. Defined.

(** ** Parsing *)

Definition to_digit (radix : Z) (c : ascii) : option Z :=
  let x := code c in
  let d := if (48 <=? x) && (x <=? 57) then Some (x - 48)
           else if (97 <=? x) && (x <=? 122) then Some (x - 87)
           else if (65 <=? x) && (x <=? 90) then Some (x - 55) else None in
  match d with
  | Some d => if d <? radix then Some d else None
  | None => None
  end.

(** Digits of a number of at most [limit], at most [more] of them. *)
Fixpoint read_digits (radix limit : Z) (more : nat) (acc : Z) (s : string) : option (Z * string) :=
  match s with
  | String c s' =>
      match to_digit radix c with
      | Some d =>
          let acc := acc * radix + d in
          if acc >? limit then None
          else match more with
               | O => None
               | S more => read_digits radix limit more acc s'
               end
      | None => Some (acc, s)
      end
  | EmptyString => Some (acc, s)
  end.

Definition read_number (radix limit : Z) (max_digits : nat) (allow_zero_prefix : bool) (s : string) :
    option (Z * string) :=
  match s with
  | EmptyString => None
  | String c s' =>
      if bool_decide (to_digit radix c = None) then None
      else
        let! (n, rest) := read_digits radix limit max_digits 0 s else None in
        (* more than one digit after a leading zero *)
        if negb allow_zero_prefix && Ascii.eqb c "0" && negb (String.eqb s' rest) then None
        else Some (n, rest)
  end.

Definition read_char (c : ascii) (s : string) : option string :=
  match s with
  | String a s => if Ascii.eqb a c then Some s else None
  | EmptyString => None
  end.

(** [read_separator(sep, index, ..)]: the separator is expected after index 0. *)
Definition skip_sep (c : ascii) (index : nat) (s : string) : option string :=
  match index with O => Some s | S _ => read_char c s end.

Definition read_octet (index : nat) (s : string) : option (Z * string) :=
  let! s := skip_sep "." index s else None in read_number 10 255 3 false s.

Definition read_ipv4_addr (s : string) : option (list Z * string) :=
  let! (a, s) := read_octet 0 s else None in
  let! (b, s) := read_octet 1 s else None in
  let! (c, s) := read_octet 2 s else None in
  let! (d, s) := read_octet 3 s else None in
  Some ([a; b; c; d], s).

(** Groups from index [i] on, [n] slots left; the flag tells an IPv4 tail. *)
Fixpoint read_groups (n i limit : nat) (s : string) : list Z * bool * string :=
  match n with
  | O => ([], false, s)
  | S n =>
      let v4 :=
        if (i <? limit - 1)%nat
        then (let! s' := skip_sep ":" i s else None in read_ipv4_addr s')
        else None in
      match v4 with
      | Some ([a; b; c; d], rest) => ([a * 256 + b; c * 256 + d], true, rest)
      | _ =>
          match (let! s' := skip_sep ":" i s else None in read_number 16 65535 4 true s') with
          | Some (g, rest) => let '(gs, v4, rest) := read_groups n (S i) limit rest in (g :: gs, v4, rest)
          | None => ([], false, s)
          end
      end
  end.

Definition read_ipv6_addr (s : string) : option (list Z * string) :=
  let '(head, head_ipv4, s) := read_groups 8 0 8 s in
  if (length head =? 8)%nat then Some (head, s)
  else if head_ipv4 then None
  else
    let! s := read_char ":" s else None in
    let! s := read_char ":" s else None in
    let limit := (8 - (length head + 1))%nat in
    let '(tail, _, s) := read_groups limit 0 limit s in
    Some ((head ++ replicate (8 - length head - length tail) 0 ++ tail)%list, s).

Definition from_groups (base : Z) (l : list Z) : Z := fold_left (fun acc g => acc * base + g) l 0.

Definition parse_ipv4 (s : string) : option Z :=
  match read_ipv4_addr s with
  | Some (l, "") => Some (from_groups 256 l)
  | _ => None
  end.

Definition parse_ipv6 (s : string) : option Z :=
  match read_ipv6_addr s with
  | Some (l, "") => Some (from_groups 65536 l)
  | _ => None
  end.

(** [s.parse::<IpAddr>()] *)
Definition parse_ip (s : string) : option IpAddr :=
  match parse_ipv4 s with
  | Some b => Some (Ip4 b)
  | None => Ip6 <$> parse_ipv6 s
  end.

(** ** Printing *)

Definition digit_char (d : Z) : ascii :=
  ascii_of_nat (Z.to_nat (if d <? 10 then 48 + d else 87 + d)).

Fixpoint print_digits (fuel : nat) (radix x : Z) (acc : string) : string :=
  match fuel with
  | O => acc
  | S fuel =>
      let acc := String (digit_char (x mod radix)) acc in
      if x / radix =? 0 then acc else print_digits fuel radix (x / radix) acc
  end.

(** Decimal digits; forty are enough for 128 bits. *)
Definition print_dec (x : Z) : string := print_digits 40 10 x "".
Definition print_hex (x : Z) : string := print_digits 33 16 x "".

Definition octets (bits : Z) : list Z := reverse (to_ne_bytes 4 bits).
Definition segments (bits : Z) : list Z :=
  map (fun i => (bits / 65536 ^ Z.of_nat i) mod 65536) (reverse (seq 0 8)).

Definition print_ipv4 (bits : Z) : string := join "." (map print_dec (octets bits)).

(** The first longest run of zero segments: start and length. *)
Fixpoint longest_zeros (l : list Z) (i cur_start cur_len best_start best_len : nat) : nat * nat :=
  match l with
  | [] => (best_start, best_len)
  | g :: l =>
      if g =? 0 then
        let cur_start := if (cur_len =? 0)%nat then i else cur_start in
        let cur_len := S cur_len in
        if (best_len <? cur_len)%nat
        then longest_zeros l (S i) cur_start cur_len cur_start cur_len
        else longest_zeros l (S i) cur_start cur_len best_start best_len
      else longest_zeros l (S i) 0 0 best_start best_len
  end.

Definition print_ipv6 (bits : Z) : string :=
  if bits / 2 ^ 32 =? 65535 then "::ffff:" ++ print_ipv4 (bits mod 2 ^ 32)
  else
    let segs := segments bits in
    let '(start, len) := longest_zeros segs 0 0 0 0 0 in
    if (1 <? len)%nat then
      join ":" (map print_hex (take start segs)) ++ "::" ++
      join ":" (map print_hex (drop (start + len) segs))
    else join ":" (map print_hex segs).

Definition print_ip (a : IpAddr) : string :=
  match a with Ip4 b => print_ipv4 b | Ip6 b => print_ipv6 b end.

(** ** common/utils/ip_address.rs *)

Definition ip_version_from_str (ip : string) : result string IpVersion :=
  match parse_ip ip with
  | Some (Ip4 _) => Ok V4
  | Some (Ip6 _) => Ok V6
  | None => Err ip
  end.

Definition is_private_ip (ip : IpAddr) : bool :=
  match ip with
  | Ip4 b =>
      let o := octets b in
      let o0 := nth 0 o 0 in let o1 := nth 1 o 0 in
      (o0 =? 127)                                                (* loopback *)
      || (o0 =? 10) || ((o0 =? 172) && (16 <=? o1) && (o1 <=? 31)) || ((o0 =? 192) && (o1 =? 168))
      || ((o0 =? 169) && (o1 =? 254))                            (* link local *)
      || (b =? 0) || (b =? umax 32)
  | Ip6 b =>
      (b =? 1) || (b =? 0)
      || (Z.land (nth 0 (segments b) 0) 65472 =? 65152)
      || (Z.land (nth 0 (segments b) 0) 65024 =? 64512)
  end.

Definition is_internal_ip (s : string) : bool :=
  match parse_ip s with Some ip => is_private_ip ip | None => false end.

(** ** Examples *)

Example parse_v4 : parse_ip "192.168.1.20" = Some (Ip4 3232235796).
Proof. reflexivity. Qed.
Example parse_v4_leading_zero : parse_ip "192.168.01.20" = None.
Proof. reflexivity. Qed.
Example parse_v4_range : parse_ip "192.168.256.20" = None.
Proof. reflexivity. Qed.
Example parse_v6 : parse_ip "2001:db8::1" = Some (Ip6 42540766411282592856903984951653826561).
Proof. vm_compute. reflexivity. Qed.
Example parse_v6_mapped : parse_ip "::ffff:10.0.0.1" = Some (Ip6 281470849515521).
Proof. vm_compute. reflexivity. Qed.
Example parse_v6_many : parse_ip "1:2:3:4:5:6:7:8:9" = None.
Proof. reflexivity. Qed.
Example print_v6 : print_ip (Ip6 42540766411282592856903984951653826561) = "2001:db8::1".
Proof. vm_compute. reflexivity. Qed.
Example print_v6_mapped : print_ip (Ip6 281470849515521) = "::ffff:10.0.0.1".
Proof. vm_compute. reflexivity. Qed.
