(* ===== verification/Tables.v ===== *)
(** * The tables behind access control and response
    ([adapter/persistence/acl.rs], [soar_block.rs], [soar.rs])

    A table is the list of its rows; an operation is one SQL statement or one
    transaction.  Times are seconds; [now] is SQLite's [datetime('now')], whose
    text compares like the number for four-digit years. *)

From Stdlib Require Import ZArith Lia List String.
From stdpp Require Import base list sets strings.
From S2P Require Import Prelude Abi.

Local Open Scope string_scope.
Local Open Scope Z_scope.

Inductive FlowDirection : Type := Source | Destination.
Inductive ListType : Type := White | Black.

#[export] Instance FlowDirection_eq_dec : EqDecision FlowDirection.
Proof. solve_decision. Defined.
#[export] Instance ListType_eq_dec : EqDecision ListType.
Proof. solve_decision. Defined.

Definition direction_str (d : FlowDirection) : string :=
  match d with Source => "source" | Destination => "destination" end.
Definition list_type_str (t : ListType) : string :=
  match t with White => "whitelist" | Black => "blacklist" end.
Definition direction_from_str (s : string) : option FlowDirection :=
  if String.eqb s "source" then Some Source
  else if String.eqb s "destination" then Some Destination else None.
Definition list_type_from_str (s : string) : option ListType :=
  if String.eqb s "whitelist" then Some White
  else if String.eqb s "blacklist" then Some Black else None.

(** Row of [acl_rules]; UNIQUE over all columns. *)
Record AclRow : Type := mk_row {
  row_version : IpVersion; row_direction : FlowDirection; row_list : ListType;
  row_ip : string; row_port : Z }.

#[export] Instance AclRow_eq_dec : EqDecision AclRow.
Proof. solve_decision. Defined.

(** Row of [soar_block_rules]. *)
Record SoarBlock : Type := mk_block {
  sb_id : Z; sb_ip : string; sb_playbook : Z; sb_expires : Z;
  sb_unblocked : option Z; sb_created_acl : bool; sb_preserve : bool }.

(** Row of [pending_unblock]. *)
Record PendingUnblock : Type := mk_pending {
  pu_id : Z; pu_ip : string; pu_retry : Z; pu_exhausted : option Z; pu_error : option string }.

(** The tables and their AUTOINCREMENT counters. *)
Record tables : Type := mk_tables {
  acl_rules : list AclRow;
  soar_block_rules : list SoarBlock; next_block : Z;
  pending_unblock : list PendingUnblock; next_pending : Z;
  admin_whitelist : list string;
}.

Definition empty_tables : tables := mk_tables [] [] 1 [] 1 [].

Definition set_acl (t : tables) (l : list AclRow) : tables :=
  mk_tables l (soar_block_rules t) (next_block t) (pending_unblock t) (next_pending t) (admin_whitelist t).
Definition set_blocks (t : tables) (l : list SoarBlock) (n : Z) : tables :=
  mk_tables (acl_rules t) l n (pending_unblock t) (next_pending t) (admin_whitelist t).
Definition set_pending (t : tables) (l : list PendingUnblock) (n : Z) : tables :=
  mk_tables (acl_rules t) (soar_block_rules t) (next_block t) l n (admin_whitelist t).
Definition set_whitelist (t : tables) (l : list string) : tables :=
  mk_tables (acl_rules t) (soar_block_rules t) (next_block t) (pending_unblock t) (next_pending t) l.

(** ** acl.rs *)

(** [INSERT OR IGNORE] *)
Definition insert_or_ignore {A} `{EqDecision A} (x : A) (l : list A) : list A :=
  if bool_decide (x ∈ l) then l else (l ++ [x])%list.

Definition is_open (b : SoarBlock) : bool := bool_decide (sb_unblocked b = None).

Definition set_preserve (b : SoarBlock) : SoarBlock :=
  mk_block (sb_id b) (sb_ip b) (sb_playbook b) (sb_expires b) (sb_unblocked b) (sb_created_acl b) true.
Definition set_unblocked (now : Z) (b : SoarBlock) : SoarBlock :=
  mk_block (sb_id b) (sb_ip b) (sb_playbook b) (sb_expires b) (Some now) (sb_created_acl b) (sb_preserve b).

Definition insert_acl_rule (t : tables) (row : AclRow) (preserve_active_soar_blocks : bool) : tables :=
  let t := set_acl t (insert_or_ignore row (acl_rules t)) in
  if preserve_active_soar_blocks then
    set_blocks t
      (map (fun b => if String.eqb (sb_ip b) (row_ip row) && is_open b then set_preserve b else b)
         (soar_block_rules t)) (next_block t)
  else t.

Definition delete_acl_rule (t : tables) (row : AclRow) : tables :=
  set_acl t (filter (fun r => r <> row) (acl_rules t)).

Definition has_manual_acl_rule (t : tables) (ip : string) : bool :=
  existsb (fun r => String.eqb (row_ip r) ip && bool_decide (row_direction r = Source)
                    && bool_decide (row_list r = Black)) (acl_rules t)
  && existsb (fun b => String.eqb (sb_ip b) ip && is_open b
                       && (sb_preserve b || negb (sb_created_acl b))) (soar_block_rules t).

Definition insert_admin_whitelist (t : tables) (ip : string) : tables :=
  set_whitelist t (insert_or_ignore ip (admin_whitelist t)).
Definition delete_admin_whitelist (t : tables) (ip : string) : tables :=
  set_whitelist t (filter (fun x => x <> ip) (admin_whitelist t)).

(** ** soar_block.rs *)

Definition is_active (now : Z) (b : SoarBlock) : bool := is_open b && (sb_expires b >? now).
Definition is_expired (now : Z) (b : SoarBlock) : bool := is_open b && (sb_expires b <=? now).

Definition count_active_soar_blocks (now : Z) (t : tables) : Z :=
  Z.of_nat (length (List.filter (is_active now) (soar_block_rules t))).
Definition list_expired_soar_blocks (now : Z) (t : tables) : list SoarBlock :=
  List.filter (is_expired now) (soar_block_rules t).
Definition list_active_soar_blocks (now : Z) (t : tables) : list SoarBlock :=
  List.filter (is_active now) (soar_block_rules t).
Definition find_soar_block_by_id (t : tables) (id : Z) : option SoarBlock :=
  List.find (fun b => sb_id b =? id) (soar_block_rules t).

Definition mark_soar_block_unblocked (now : Z) (t : tables) (id : Z) : tables :=
  set_blocks t (map (fun b => if sb_id b =? id then set_unblocked now b else b) (soar_block_rules t))
    (next_block t).

Definition insert_pending_unblock (t : tables) (ip : string) : tables :=
  set_pending t (pending_unblock t ++ [mk_pending (next_pending t) ip 0 None None])%list (next_pending t + 1).
Definition list_pending_unblocks (t : tables) : list PendingUnblock := pending_unblock t.
Definition delete_pending_unblock (t : tables) (id : Z) : tables :=
  set_pending t (filter (fun p => pu_id p <> id) (pending_unblock t)) (next_pending t).
Definition mark_pending_unblock_exhausted (now : Z) (t : tables) (id : Z) (error : string) : tables :=
  set_pending t (map (fun p => if pu_id p =? id
    then mk_pending (pu_id p) (pu_ip p) (pu_retry p) (Some now) (Some error) else p) (pending_unblock t))
    (next_pending t).
Definition increment_pending_unblock_retry (t : tables) (id : Z) : tables :=
  set_pending t (map (fun p => if pu_id p =? id
    then mk_pending (pu_id p) (pu_ip p) (pu_retry p + 1) (pu_exhausted p) (pu_error p) else p)
    (pending_unblock t)) (next_pending t).

(** The blacklist row a SOAR block owns. *)
Definition soar_row (version : IpVersion) (ip : string) : AclRow := mk_row version Source Black ip 0.

Definition commit_soar_block_to_db (now : Z) (t : tables) (ip : string) (version : IpVersion)
    (playbook expires : Z) : tables :=
  let existing := bool_decide (soar_row version ip ∈ acl_rules t) in
  let owned := existsb (fun b => String.eqb (sb_ip b) ip && is_active now b && sb_created_acl b
                                 && negb (sb_preserve b)) (soar_block_rules t) in
  let created := negb existing || owned in
  let t := set_blocks t
    (soar_block_rules t ++ [mk_block (next_block t) ip playbook expires None created false])%list
    (next_block t + 1) in
  set_acl t (insert_or_ignore (soar_row version ip) (acl_rules t)).

(** [None]: [QueryReturnedNoRows], the transaction is rolled back. *)
Definition commit_soar_unblock_to_db (now : Z) (t : tables) (id : Z) (version : IpVersion) (ip : string) :
    option tables :=
  let! b := find_soar_block_by_id t id else None in
  let other := existsb (fun b => negb (sb_id b =? id) && String.eqb (sb_ip b) ip && is_active now b)
                 (soar_block_rules t) in
  let should_delete := sb_created_acl b && negb (sb_preserve b) && negb other in
  let t := if should_delete then delete_acl_rule t (soar_row version ip) else t in
  Some (mark_soar_block_unblocked now t id).

Lemma insert_row_in (t : tables) (row : AclRow) (preserve : bool) :
  row ∈ acl_rules (insert_acl_rule t row preserve).
Proof.
  unfold insert_acl_rule, insert_or_ignore.
  destruct preserve; simpl; case_bool_decide; set_solver.
Qed.

(** ** Open rows *)

Definition open_count (t : tables) : Z :=
  Z.of_nat (length (List.filter is_open (soar_block_rules t))).

(** Ids are unique and below the counter. *)
Definition tables_wf (t : tables) : Prop :=
  NoDup (map sb_id (soar_block_rules t)) /\ Forall (fun b => sb_id b < next_block t) (soar_block_rules t).

Lemma tables_wf_empty : tables_wf empty_tables.
Proof. split; constructor. Qed.

Lemma commit_block_wf (now : Z) (t : tables) (ip : string) (v : IpVersion) (pb e : Z) :
  tables_wf t -> tables_wf (commit_soar_block_to_db now t ip v pb e).
Proof.
  intros [Hn Hl]. unfold tables_wf, commit_soar_block_to_db. cbn. rewrite map_app. split.
  - apply NoDup_app. split_and!; [done| |apply NoDup_singleton].
    intros x Hx Hx'. apply list_elem_of_singleton in Hx'. subst x.
    apply list_elem_of_In, in_map_iff in Hx as (b & Hb & Hin). rewrite Forall_forall in Hl.
    specialize (Hl b (proj2 (list_elem_of_In _ _) Hin)). simpl in Hb. lia.
  - apply Forall_app_2; [|apply Forall_singleton; simpl; lia].
    eapply Forall_impl; [done|]. simpl. lia.
Qed.

Lemma commit_block_open (now : Z) (t : tables) (ip : string) (v : IpVersion) (pb e : Z) :
  open_count (commit_soar_block_to_db now t ip v pb e) = open_count t + 1.
Proof.
  unfold open_count, commit_soar_block_to_db. cbn. rewrite List.filter_app, length_app. simpl. lia.
Qed.

Lemma map_ids_update (f : SoarBlock -> SoarBlock) (l : list SoarBlock) :
  (forall b, sb_id (f b) = sb_id b) -> map sb_id (map f l) = map sb_id l.
Proof. intros Hf. induction l as [|b l IH]; simpl; [done|]. by rewrite Hf, IH. Qed.

Lemma mark_unblocked_wf (now : Z) (t : tables) (id : Z) :
  tables_wf t -> tables_wf (mark_soar_block_unblocked now t id).
Proof.
  intros [Hn Hl]. unfold tables_wf, mark_soar_block_unblocked. cbn. split.
  - rewrite map_ids_update; [done|]. intros b. by destruct (_ =? _).
  - apply Forall_map. eapply Forall_impl; [done|]. intros b Hb. simpl. by destruct (_ =? _).
Qed.

Lemma filter_mark_absent (now id : Z) (l : list SoarBlock) :
  id ∉ map sb_id l ->
  map (fun b => if sb_id b =? id then set_unblocked now b else b) l = l.
Proof.
  induction l as [|b l IH]; simpl; [done|]. intros Hn.
  destruct (Z.eqb_spec (sb_id b) id) as [He|]; [exfalso; apply Hn; rewrite He; set_solver|].
  rewrite IH; [done|set_solver].
Qed.

(** Closing one row lowers the count by one exactly when the row was open. *)
Lemma mark_unblocked_open (now : Z) (t : tables) (id : Z) (b : SoarBlock) :
  tables_wf t -> find_soar_block_by_id t id = Some b ->
  open_count (mark_soar_block_unblocked now t id) = open_count t - (if is_open b then 1 else 0).
Proof.
  intros [Hn _]. unfold open_count, mark_soar_block_unblocked, find_soar_block_by_id. cbn.
  revert Hn. induction (soar_block_rules t) as [|c l IH]; [done|]. simpl.
  rewrite NoDup_cons. intros [Hnin Hn]. destruct (Z.eqb_spec (sb_id c) id) as [<-|Hne].
  - intros [= ->]. rewrite (filter_mark_absent now (sb_id b) l Hnin).
    assert (is_open (set_unblocked now b) = false) as -> by done.
    destruct (is_open b); simpl; lia.
  - intros Hf. specialize (IH Hn Hf). destruct (is_open c); simpl; lia.
Qed.

Lemma find_block_in (t : tables) (id : Z) (b : SoarBlock) :
  find_soar_block_by_id t id = Some b -> b ∈ soar_block_rules t /\ sb_id b = id.
Proof.
  unfold find_soar_block_by_id. intros H. apply List.find_some in H as [Hin Hid].
  apply list_elem_of_In in Hin. apply Z.eqb_eq in Hid. done.
Qed.

Lemma in_block_find (t : tables) (b : SoarBlock) :
  tables_wf t -> b ∈ soar_block_rules t -> find_soar_block_by_id t (sb_id b) = Some b.
Proof.
  intros [Hn _]. unfold find_soar_block_by_id.
  induction (soar_block_rules t) as [|c l IH]; [by intros ?%not_elem_of_nil|]. simpl in *.
  rewrite NoDup_cons in Hn. destruct Hn as [Hnin Hn]. rewrite elem_of_cons. intros [->|Hin].
  - by rewrite Z.eqb_refl.
  - destruct (Z.eqb_spec (sb_id c) (sb_id b)) as [He|]; [|by apply IH].
    exfalso. apply Hnin. rewrite He. apply list_elem_of_In, in_map, list_elem_of_In, Hin.
Qed.

#[export] Hint Resolve tables_wf_empty commit_block_wf mark_unblocked_wf : ng.
