(* ===== verification/AclMap.v ===== *)
(** * Access-control lists of the control plane

    [MapWrapper] edits one kernel map of port rules (adapter/ebpf/
    access_control.rs), [AccessControl] picks the map, [AccessControlAdapter]
    is the SOAR engine's blocking port (adapter/access_control.rs), and
    [AclService] keeps maps and database rows together
    (core/data_plane/acl_service.rs).  The maps are the ones the kernel
    programs of [Xdp] read. *)

From Stdlib Require Import ZArith Lia List String.
From stdpp Require Import base list gmap strings.
From S2P Require Import Prelude Abi PortRule IpAddr Tables Parsing Xdp.

Local Open Scope string_scope.
Local Open Scope Z_scope.

Inductive acl_error : Type :=
  | AclNotLoaded | AclMapOperation | RuleReachLimit | IpDoesNotExist
  | InvalidIpAddress (ip : string) | AclDatabase.

#[export] Instance acl_error_eq_dec : EqDecision acl_error.
Proof. solve_decision. Defined.

(** ** MapWrapper *)

(** [None] when eBPF is unavailable. *)
Abbreviation rule_map := (option (gmap Z PortRule)) (only parsing).

(** Capacity of every list ([MAX_RULES]). *)
Definition MAX_RULES : nat := 128.

(** [map.insert(key, rule, 0)]: fails for a new key in a full map. *)
Definition map_insert (m : gmap Z PortRule) (ip : Z) (rule : PortRule) : option (gmap Z PortRule) :=
  if bool_decide (m !! ip = None) && (MAX_RULES <=? size m)%nat then None else Some (<[ip := rule]> m).

(** [map.remove(key)]: fails for a missing key. *)
Definition map_remove (m : gmap Z PortRule) (ip : Z) : option (gmap Z PortRule) :=
  match m !! ip with Some _ => Some (delete ip m) | None => None end.

(** [MapWrapper::add]; the map is unchanged on an error. *)
Definition add (w : rule_map) (ip port : Z) : result acl_error unit * rule_map :=
  match w with
  | None => (Err AclNotLoaded, w)
  | Some m =>
      if port =? 0 then
        match map_insert m ip new_match_all with
        | Some m => (Ok tt, Some m)
        | None => (Err AclMapOperation, w)
        end
      else
        let rule := default new_empty (m !! ip) in
        if is_match_all rule then (Ok tt, w)
        else
          let '(added, rule) := add_port rule port in
          if negb added then (Err RuleReachLimit, w)
          else
            match map_insert m ip rule with
            | Some m => (Ok tt, Some m)
            | None => (Err AclMapOperation, w)
            end
  end.

Inductive PortRuleRemoval : Type := Unchanged | Update | Delete.

(** [None]: the array index panics (a rule whose count exceeds its array). *)
Definition remove_port_from_rule (rule : PortRule) (port : Z) : option (PortRuleRemoval * PortRule) :=
  if is_match_all rule then
    Some (if port =? 0 then Delete else Unchanged, rule)
  else
    let! (_, rule) := remove_port rule port else None in
    Some (if is_empty rule then Delete else Update, rule).

(** [MapWrapper::remove] *)
Definition remove (w : rule_map) (ip port : Z) : option (result acl_error unit * rule_map) :=
  match w with
  | None => Some (Err AclNotLoaded, w)
  | Some m =>
      if port =? 0 then
        Some match map_remove m ip with
             | Some m => (Ok tt, Some m)
             | None => (Err AclMapOperation, w)
             end
      else
        match m !! ip with
        | None => Some (Err IpDoesNotExist, w)
        | Some rule =>
            let! (todo, rule) := remove_port_from_rule rule port else None in
            Some match todo with
                 | Unchanged => (Ok tt, w)
                 | Delete =>
                     match map_remove m ip with
                     | Some m => (Ok tt, Some m)
                     | None => (Err AclMapOperation, w)
                     end
                 | Update =>
                     match map_insert m ip rule with
                     | Some m => (Ok tt, Some m)
                     | None => (Err AclMapOperation, w)
                     end
                 end
        end
  end.

(** [MapWrapper::get_list]: the native address and ports of every entry. *)
Definition get_list (w : rule_map) : gmap Z (list Z) :=
  match w with None => ∅ | Some m => to_port_vec <$> m end.

(** ** AccessControl *)

Record AccessControl : Type := mk_ac {
  ipv4_src_whitelist : rule_map; ipv4_src_blacklist : rule_map;
  ipv4_dst_whitelist : rule_map; ipv4_dst_blacklist : rule_map;
  ipv6_src_whitelist : rule_map; ipv6_src_blacklist : rule_map;
  ipv6_dst_whitelist : rule_map; ipv6_dst_blacklist : rule_map;
}.

(** [AccessControl::unavailable] *)
Definition unavailable : AccessControl := mk_ac None None None None None None None None.

Definition ipv4_list (ac : AccessControl) (d : FlowDirection) (t : ListType) : rule_map :=
  match d, t with
  | Source, White => ipv4_src_whitelist ac
  | Source, Black => ipv4_src_blacklist ac
  | Destination, White => ipv4_dst_whitelist ac
  | Destination, Black => ipv4_dst_blacklist ac
  end.

Definition ipv6_list (ac : AccessControl) (d : FlowDirection) (t : ListType) : rule_map :=
  match d, t with
  | Source, White => ipv6_src_whitelist ac
  | Source, Black => ipv6_src_blacklist ac
  | Destination, White => ipv6_dst_whitelist ac
  | Destination, Black => ipv6_dst_blacklist ac
  end.

Definition set_ipv4_list (ac : AccessControl) (d : FlowDirection) (t : ListType) (w : rule_map) :
    AccessControl :=
  let '(mk_ac a b c e f g h i) := ac in
  match d, t with
  | Source, White => mk_ac w b c e f g h i
  | Source, Black => mk_ac a w c e f g h i
  | Destination, White => mk_ac a b w e f g h i
  | Destination, Black => mk_ac a b c w f g h i
  end.

Definition set_ipv6_list (ac : AccessControl) (d : FlowDirection) (t : ListType) (w : rule_map) :
    AccessControl :=
  let '(mk_ac a b c e f g h i) := ac in
  match d, t with
  | Source, White => mk_ac a b c e w g h i
  | Source, Black => mk_ac a b c e f w h i
  | Destination, White => mk_ac a b c e f g w i
  | Destination, Black => mk_ac a b c e f g h w
  end.

(** [addr.to_bits().to_be()]: the bytes of the address in network order, read
    as a native integer. *)
Definition to_be (bytes : nat) (bits : Z) : Z := from_ne_bytes (reverse (to_ne_bytes bytes bits)).

Definition add_ipv4_list (ac : AccessControl) (d : FlowDirection) (t : ListType) (bits port : Z) :
    result acl_error unit * AccessControl :=
  let '(r, w) := add (ipv4_list ac d t) (to_be 4 bits) port in (r, set_ipv4_list ac d t w).

Definition add_ipv6_list (ac : AccessControl) (d : FlowDirection) (t : ListType) (bits port : Z) :
    result acl_error unit * AccessControl :=
  let '(r, w) := add (ipv6_list ac d t) (to_be 16 bits) port in (r, set_ipv6_list ac d t w).

Definition remove_ipv4_list (ac : AccessControl) (d : FlowDirection) (t : ListType) (bits port : Z) :
    option (result acl_error unit * AccessControl) :=
  let! (r, w) := remove (ipv4_list ac d t) (to_be 4 bits) port else None in
  Some (r, set_ipv4_list ac d t w).

Definition remove_ipv6_list (ac : AccessControl) (d : FlowDirection) (t : ListType) (bits port : Z) :
    option (result acl_error unit * AccessControl) :=
  let! (r, w) := remove (ipv6_list ac d t) (to_be 16 bits) port else None in
  Some (r, set_ipv6_list ac d t w).

(** ** AccessControlAdapter *)

Definition block_ip (ac : AccessControl) (ip : string) : result acl_error unit * AccessControl :=
  match parse_ip ip with
  | None => (Err (InvalidIpAddress ip), ac)
  | Some (Ip4 b) => add_ipv4_list ac Source Black b 0
  | Some (Ip6 b) => add_ipv6_list ac Source Black b 0
  end.

Definition unblock_ip (ac : AccessControl) (ip : string) : option (result acl_error unit * AccessControl) :=
  match parse_ip ip with
  | None => Some (Err (InvalidIpAddress ip), ac)
  | Some (Ip4 b) => remove_ipv4_list ac Source Black b 0
  | Some (Ip6 b) => remove_ipv6_list ac Source Black b 0
  end.

(** ** AclService: one operation on the map, then on the database *)

Record acl_world : Type := mk_aw {
  aw_control : AccessControl;
  aw_tables : tables;
  db_fails : bool;                 (* the database rejects the next write *)
}.

Definition should_preserve_active_soar_blocks (d : FlowDirection) (t : ListType) : bool :=
  bool_decide (d = Source) && bool_decide (t = Black).

Definition repo_insert (w : acl_world) (row : AclRow) (preserve : bool) : result acl_error unit * acl_world :=
  if db_fails w then (Err AclDatabase, w)
  else (Ok tt, mk_aw (aw_control w) (insert_acl_rule (aw_tables w) row preserve) false).

Definition repo_delete (w : acl_world) (row : AclRow) : result acl_error unit * acl_world :=
  if db_fails w then (Err AclDatabase, w)
  else (Ok tt, mk_aw (aw_control w) (delete_acl_rule (aw_tables w) row) false).

Definition set_control (w : acl_world) (ac : AccessControl) : acl_world :=
  mk_aw ac (aw_tables w) (db_fails w).

(** [AclService::add_ipv4]; a failed rollback is only logged. *)
Definition add_ipv4 (w : acl_world) (d : FlowDirection) (t : ListType) (bits port : Z) :
    option (result acl_error unit * acl_world) :=
  match add_ipv4_list (aw_control w) d t bits port with
  | (Err e, ac) => Some (Err e, set_control w ac)
  | (Ok _, ac) =>
      let w := set_control w ac in
      match repo_insert w (mk_row V4 d t (print_ipv4 bits) port)
              (should_preserve_active_soar_blocks d t) with
      | (Ok _, w) => Some (Ok tt, w)
      | (Err e, w) =>
          let! (_, ac) := remove_ipv4_list (aw_control w) d t bits port else None in
          Some (Err e, set_control w ac)
      end
  end.

Definition add_ipv6 (w : acl_world) (d : FlowDirection) (t : ListType) (bits port : Z) :
    option (result acl_error unit * acl_world) :=
  match add_ipv6_list (aw_control w) d t bits port with
  | (Err e, ac) => Some (Err e, set_control w ac)
  | (Ok _, ac) =>
      let w := set_control w ac in
      match repo_insert w (mk_row V6 d t (print_ipv6 bits) port)
              (should_preserve_active_soar_blocks d t) with
      | (Ok _, w) => Some (Ok tt, w)
      | (Err e, w) =>
          let! (_, ac) := remove_ipv6_list (aw_control w) d t bits port else None in
          Some (Err e, set_control w ac)
      end
  end.

Definition remove_ipv4 (w : acl_world) (d : FlowDirection) (t : ListType) (bits port : Z) :
    option (result acl_error unit * acl_world) :=
  let! (r, ac) := remove_ipv4_list (aw_control w) d t bits port else None in
  let w := set_control w ac in
  match r with
  | Err e => Some (Err e, w)
  | Ok _ =>
      match repo_delete w (mk_row V4 d t (print_ipv4 bits) port) with
      | (Ok _, w) => Some (Ok tt, w)
      | (Err e, w) => Some (Err e, set_control w (add_ipv4_list (aw_control w) d t bits port).2)
      end
  end.

Definition remove_ipv6 (w : acl_world) (d : FlowDirection) (t : ListType) (bits port : Z) :
    option (result acl_error unit * acl_world) :=
  let! (r, ac) := remove_ipv6_list (aw_control w) d t bits port else None in
  let w := set_control w ac in
  match r with
  | Err e => Some (Err e, w)
  | Ok _ =>
      match repo_delete w (mk_row V6 d t (print_ipv6 bits) port) with
      | (Ok _, w) => Some (Ok tt, w)
      | (Err e, w) => Some (Err e, set_control w (add_ipv6_list (aw_control w) d t bits port).2)
      end
  end.

(** [restore_acl_rules]: every row back into the maps; failures are logged. *)
Definition restore_row (ac : AccessControl) (row : AclRow) : AccessControl :=
  match row_version row with
  | V4 => match parse_ipv4 (row_ip row) with
          | Some b => (add_ipv4_list ac (row_direction row) (row_list row) b (row_port row)).2
          | None => ac
          end
  | V6 => match parse_ipv6 (row_ip row) with
          | Some b => (add_ipv6_list ac (row_direction row) (row_list row) b (row_port row)).2
          | None => ac
          end
  end.

Definition restore_acl_rules (w : acl_world) : acl_world :=
  set_control w (fold_left restore_row (acl_rules (aw_tables w)) (aw_control w)).

(** ** Rules as sets of (address, port) pairs *)

Definition map_wf (m : gmap Z PortRule) : Prop := map_Forall (fun _ r => rule_wf r) m.

(** The effect of adding ([port] 0 stands for every port) and of removing. *)
Definition covers (port q : Z) : bool := (port =? 0) || (q =? port).

Lemma contains_match_all (q : Z) : contains new_match_all q = true.
Proof. done. Qed.

Lemma contains_all (r : PortRule) (q : Z) : is_match_all r = true -> contains r q = true.
Proof. intros H. unfold contains. by rewrite H. Qed.

Lemma contains_empty (q : Z) : contains new_empty q = false.
Proof. by rewrite contains_refines by auto with ng. Qed.

Lemma default_rule_wf (m : gmap Z PortRule) (ip : Z) :
  map_wf m -> rule_wf (default new_empty (m !! ip)).
Proof. intros Hm. destruct (m !! ip) as [r|] eqn:Hr; simpl; [by eapply Hm|auto with ng]. Qed.

Lemma rule_matches_default (m : gmap Z PortRule) (ip q : Z) :
  rule_matches m ip q = contains (default new_empty (m !! ip)) q.
Proof. unfold rule_matches. destruct (m !! ip); simpl; [done|by rewrite contains_empty]. Qed.

Lemma rule_matches_insert (m : gmap Z PortRule) (ip ip' q : Z) (r : PortRule) :
  rule_matches (<[ip := r]> m) ip' q = if ip' =? ip then contains r q else rule_matches m ip' q.
Proof.
  unfold rule_matches. destruct (Z.eqb_spec ip' ip) as [->|]; [by rewrite lookup_insert_eq|].
  by rewrite lookup_insert_ne by congruence.
Qed.

Lemma rule_matches_delete (m : gmap Z PortRule) (ip ip' q : Z) :
  rule_matches (delete ip m) ip' q = if ip' =? ip then false else rule_matches m ip' q.
Proof.
  unfold rule_matches. destruct (Z.eqb_spec ip' ip) as [->|]; [by rewrite lookup_delete_eq|].
  by rewrite lookup_delete_ne by congruence.
Qed.

(** After a successful [add_port] exactly one more port is covered. *)
Lemma add_port_contains (r : PortRule) (port q : Z) :
  rule_wf r -> (add_port r port).1 = true ->
  contains (add_port r port).2 q = contains r q || (q =? port).
Proof.
  intros Hwf Hadd. destruct (add_port_refines r port Hwf) as [Hwf' Hspec].
  rewrite !contains_refines by done. rewrite Hadd in Hspec.
  destruct (rule_denote r) as [|s]; simpl in Hspec |- *; [by injection Hspec as <-|].
  case_bool_decide as Hin; [|case_bool_decide as Hsz; [|done]]; injection Hspec as <-; simpl.
  - destruct (Z.eqb_spec q port) as [->|]; [|by rewrite orb_false_r].
    by rewrite bool_decide_eq_true_2.
  - destruct (Z.eqb_spec q port) as [->|Hne]; [rewrite bool_decide_eq_true_2, orb_true_r by set_solver; done|].
    rewrite orb_false_r. apply bool_decide_ext. set_solver.
Qed.

Lemma remove_port_contains (r : PortRule) (port q : Z) :
  rule_wf r -> is_match_all r = false ->
  exists b r', remove_port r port = Some (b, r') /\ rule_wf r' /\
    contains r' q = contains r q && negb (q =? port) /\ is_match_all r' = false.
Proof.
  intros Hwf Hall. destruct (remove_port_refines r port Hwf) as (b & r' & Hr & Hwf' & Hspec).
  exists b, r'. split_and!; [done|done| |].
  - rewrite !contains_refines by done. unfold rule_denote at 1 in Hspec. unfold rule_denote at 2.
    rewrite Hall in *. simpl in Hspec. injection Hspec as _ <-. simpl.
    destruct (Z.eqb_spec q port) as [->|Hne].
    + rewrite andb_false_r. apply bool_decide_eq_false_2. set_solver.
    + rewrite andb_true_r. apply bool_decide_ext. set_solver.
  - unfold rule_denote in Hspec. rewrite Hall in Hspec. by destruct (is_match_all r').
Qed.

Lemma add_rule_matches (m : gmap Z PortRule) (ip port : Z) :
  map_wf m ->
  match add (Some m) ip port with
  | (Ok _, Some m') => map_wf m' /\
      forall ip' q, rule_matches m' ip' q = rule_matches m ip' q || ((ip' =? ip) && covers port q)
  | (Ok _, None) => False
  | (Err _, w') => w' = Some m
  end.
Proof.
  intros Hm. unfold add, covers, map_insert. destruct (Z.eqb_spec port 0) as [->|Hp].
  { destruct (_ && _); [done|]. split; [by apply map_Forall_insert_2; auto with ng|].
    intros ip' q. rewrite rule_matches_insert. destruct (ip' =? ip); simpl;
      [by rewrite contains_match_all, orb_true_r|by rewrite orb_false_r]. }
  pose proof (default_rule_wf m ip Hm) as Hwf. pose proof (rule_matches_default m ip) as Hdef.
  destruct (is_match_all (default new_empty (m !! ip))) eqn:Hall.
  { split; [done|]. intros ip' q. destruct (Z.eqb_spec ip' ip) as [->|]; simpl; [|by rewrite orb_false_r].
    by rewrite Hdef, contains_all. }
  pose proof (add_port_contains (default new_empty (m !! ip)) port) as Hadd.
  destruct (add_port_refines (default new_empty (m !! ip)) port Hwf) as [Hwf' _].
  destruct (add_port (default new_empty (m !! ip)) port) as [[] r']; simpl; [|done].
  destruct (_ && _); [done|]. split; [by apply map_Forall_insert_2|].
  intros ip' q. rewrite rule_matches_insert. destruct (Z.eqb_spec ip' ip) as [->|]; simpl;
    [|by rewrite orb_false_r]. rewrite Hdef. by apply Hadd.
Qed.

(** Adding to a list makes exactly the requested address and port (port 0:
    every port) match in the kernel's lookup, and an error changes nothing *)
Theorem add_spec (m : gmap Z PortRule) (ip port : Z) :
  map_wf m ->
  match add (Some m) ip port with
  | (Ok _, Some m') => map_wf m' /\
      forall ip' q, rule_matches m' ip' q = rule_matches m ip' q || ((ip' =? ip) && covers port q)
  | (Ok _, None) => False
  | (Err _, w') => w' = Some m
  end.
Proof. apply add_rule_matches. Qed.

(** Removing never panics on well-formed rules; a success leaves exactly the
    removed address and port (port 0: the whole entry) unmatched, except that a
    single port cannot be taken out of an every-port entry *)
Theorem remove_spec (m : gmap Z PortRule) (ip port : Z) :
  map_wf m ->
  match remove (Some m) ip port with
  | Some (Ok _, Some m') => map_wf m' /\
      forall ip' q, rule_matches m' ip' q =
        if ip' =? ip
        then if port =? 0 then false
             else if is_match_all (default new_empty (m !! ip)) then true
             else rule_matches m ip' q && negb (q =? port)
        else rule_matches m ip' q
  | Some (Ok _, None) => False
  | Some (Err _, w') => w' = Some m
  | None => False
  end.
Proof.
  intros Hm. unfold remove, map_remove. destruct (Z.eqb_spec port 0) as [->|Hp].
  { destruct (m !! ip) eqn:Hr; [|done]. split; [by apply map_Forall_delete|].
    intros. apply rule_matches_delete. }
  destruct (m !! ip) as [rule|] eqn:Hr; [|done]. simpl. pose proof (Hm _ _ Hr) as Hwf.
  unfold remove_port_from_rule. destruct (is_match_all rule) eqn:Hall.
  { rewrite (proj2 (Z.eqb_neq port 0) Hp). split; [done|]. intros ip' q.
    destruct (Z.eqb_spec ip' ip) as [->|]; [|done].
    rewrite rule_matches_default, Hr. by apply contains_all. }
  destruct (remove_port_contains rule port 0 Hwf Hall) as (b & r' & Hrem & Hwf' & _ & Hall').
  assert (forall q, contains r' q = contains rule q && negb (q =? port)) as Hc.
  { intros q. destruct (remove_port_contains rule port q Hwf Hall) as (b2 & r2 & Hrem2 & _ & Hc & _).
    congruence. }
  rewrite Hrem. destruct (is_empty r') eqn:He.
  - split; [by apply map_Forall_delete|]. intros ip' q.
    rewrite rule_matches_delete. destruct (Z.eqb_spec ip' ip) as [->|]; [|done].
    unfold rule_matches. rewrite Hr, <- Hc, contains_refines by done. unfold rule_denote. rewrite Hall'.
    unfold is_empty in He. bool_to_prop. simpl. symmetry. apply bool_decide_eq_false_2.
    rewrite elem_of_list_to_set, to_port_vec_wf by done.
    replace (count r') with 0 by lia. apply not_elem_of_nil.
  - unfold map_insert. rewrite Hr. rewrite bool_decide_eq_false_2 by done. simpl.
    split; [by apply map_Forall_insert_2|]. intros ip' q. rewrite rule_matches_insert.
    destruct (Z.eqb_spec ip' ip) as [->|]; [|done]. unfold rule_matches. by rewrite Hr, Hc.
Qed.

Lemma add_spec_witness :
  exists m', add (Some ∅) 7 443 = (Ok tt, Some m') /\ rule_matches m' 7 443 = true /\
    rule_matches m' 7 80 = false.
Proof.
  pose proof (add_spec ∅ 7 443 (map_Forall_empty _)) as H.
  destruct (add (Some ∅) 7 443) as [[[]|e] [m'|]] eqn:E; [|done|vm_compute in E; congruence..].
  exists m'. destruct H as [_ H]. split; [done|]. split; rewrite H; reflexivity.
Defined.

Lemma remove_spec_witness :
  let m := {[7 := (add_port (add_port new_empty 80).2 443).2]} : gmap Z PortRule in
  exists m', remove (Some m) 7 80 = Some (Ok tt, Some m') /\ rule_matches m' 7 80 = false.
Proof.
  intros m. assert (map_wf m) as Hm.
  { apply map_Forall_singleton. apply add_port_refines, add_port_refines, new_empty_wf. }
  pose proof (remove_spec m 7 80 Hm) as H.
  destruct (remove (Some m) 7 80) as [[[[]|e] [m'|]]|] eqn:E; [|done|vm_compute in E; congruence..].
  exists m'. destruct H as [_ H]. split; [done|]. rewrite H. reflexivity.
Defined.

(** ** From a blocked address to the kernel's verdict *)

(** The kernel maps are those of the control plane. *)
Definition shares_maps (ac : AccessControl) (M : kmaps) : Prop :=
  ipv4_src_blacklist ac = Some (IPV4_SRC_BLACKLIST M) /\
  ipv6_src_blacklist ac = Some (IPV6_SRC_BLACKLIST M).

(** A packet of the given source. *)
Definition sent_by (p : ParsedPacket) (a : IpAddr) : Prop :=
  match a with
  | Ip4 b => ip_version p = 4 /\ take 4 (src_ip p) = reverse (to_ne_bytes 4 b)
  | Ip6 b => ip_version p = 6 /\ src_ip p = reverse (to_ne_bytes 16 b)
  end.

Definition lists_wf (ac : AccessControl) : Prop :=
  forall m, ipv4_src_blacklist ac = Some m \/ ipv6_src_blacklist ac = Some m -> map_wf m.

(** once [block_ip] succeeds, every packet of that address, IPv4 or IPv6, on
    any port, is on the kernel's blacklist; the text of the address and the
    bytes on the wire lead to the same map key *)
Theorem blocked_ip_is_blacklisted (ac ac' : AccessControl) (ip : string) (a : IpAddr)
    (M : kmaps) (p : ParsedPacket) :
  lists_wf ac -> block_ip ac ip = (Ok tt, ac') -> shares_maps ac' M ->
  parse_ip ip = Some a -> sent_by p a ->
  is_blacklisted M p = true.
Proof.
  intros Hwf Hb [HM4 HM6] Ha Hp. unfold block_ip in Hb. rewrite Ha in Hb.
  destruct a as [b|b]; destruct Hp as [Hv Hsrc].
  - unfold add_ipv4_list in Hb. cbn [ipv4_list] in Hb.
    destruct (ipv4_src_blacklist ac) as [m|] eqn:Hm; [|done].
    pose proof (add_rule_matches m (to_be 4 b) 0 (Hwf m (or_introl Hm))) as H.
    destruct (add (Some m) (to_be 4 b) 0) as [r w]. injection Hb as -> <-.
    assert (w = Some (IPV4_SRC_BLACKLIST M)) as -> by (rewrite <- HM4; by destruct ac).
    destruct H as [_ H]. unfold is_blacklisted, ipv4_is_blacklisted. rewrite Hv. simpl.
    unfold src_ip_v4. rewrite Hsrc. fold (to_be 4 b). rewrite H, Z.eqb_refl. simpl.
    by rewrite orb_true_r.
  - unfold add_ipv6_list in Hb. cbn [ipv6_list] in Hb.
    destruct (ipv6_src_blacklist ac) as [m|] eqn:Hm; [|done].
    pose proof (add_rule_matches m (to_be 16 b) 0 (Hwf m (or_intror Hm))) as H.
    destruct (add (Some m) (to_be 16 b) 0) as [r w]. injection Hb as -> <-.
    assert (w = Some (IPV6_SRC_BLACKLIST M)) as -> by (rewrite <- HM6; by destruct ac).
    destruct H as [_ H]. unfold is_blacklisted, ipv6_is_blacklisted. rewrite Hv. simpl.
    unfold src_ip_v6. rewrite Hsrc. fold (to_be 16 b). rewrite H, Z.eqb_refl. simpl.
    by rewrite orb_true_r.
Qed.

(** The data plane of [sample_maps] after blocking 10.0.0.9. *)
Lemma blocked_ip_is_blacklisted_witness :
  let ac := mk_ac (Some ∅) (Some ∅) (Some ∅) (Some ∅) (Some ∅) (Some ∅) (Some ∅) (Some ∅) in
  let ac' := (block_ip ac "10.0.0.9").2 in
  let M := mk_kmaps ∅ [] ∅ ∅ ∅ ∅ (default ∅ (ipv4_src_blacklist ac')) ∅ ∅ ∅ (fun _ _ => None)
    (fun _ _ => None) [] ∅ ∅ [] ∅ ∅ ∅ ∅ ∅ ∅ [] ∅ (fun _ => true) (fun _ => 0) in
  let p := mk_ParsedPacket 0 ([10; 0; 0; 9] ++ replicate 12 0)%list (replicate 16 0) 60 0 1 2 4 6 2 in
  block_ip ac "10.0.0.9" = (Ok tt, ac') /\ is_blacklisted M p = true.
Proof.
  intros ac ac' M p. assert (block_ip ac "10.0.0.9" = (Ok tt, ac')) as Hb by reflexivity.
  split; [exact Hb|].
  apply (blocked_ip_is_blacklisted ac ac' "10.0.0.9" (Ip4 167772169) M p);
    [|exact Hb|by split|reflexivity|by split].
  intros m [[= <-]|[= <-]]; apply map_Forall_empty.
Defined.

(** ** The database and the maps *)

(** A port added to an empty rule and taken out again leaves it empty. *)
Lemma add_one_remove (port : Z) :
  (add_port new_empty port).1 = true ->
  exists r', remove_port_from_rule (add_port new_empty port).2 port = Some (Delete, r').
Proof.
  intros _. destruct (add_port_refines new_empty port new_empty_wf) as [Hwf Hspec].
  set (r := (add_port new_empty port).2) in *.
  assert (rule_denote r = Ports {[port]}) as Hd.
  { change (rule_denote new_empty) with (Ports ∅) in Hspec. unfold spec_add in Hspec.
    rewrite bool_decide_eq_false_2, size_empty, bool_decide_eq_true_2 in Hspec
      by (set_solver || (unfold MAX_RULES_PORT; lia)).
    apply (f_equal snd) in Hspec. cbn [snd] in Hspec. rewrite <- Hspec. f_equal. set_solver. }
  assert (is_match_all r = false) as Hall by (unfold rule_denote in Hd; by destruct (is_match_all r)).
  destruct (remove_port_refines r port Hwf) as (b & r' & Hr & Hwf' & Hspec').
  exists r'. unfold remove_port_from_rule. rewrite Hall, Hr. rewrite Hd in Hspec'. simpl in Hspec'.
  injection Hspec' as _ Hd'. unfold rule_denote in Hd'. unfold is_empty.
  destruct (is_match_all r') eqn:Hall'; [done|]. injection Hd' as Hd'.
  pose proof (rule_size r' Hwf') as Hsz. rewrite <- Hd' in Hsz.
  replace ({[port]} ∖ {[port]} : gset Z) with (∅ : gset Z) in Hsz by set_solver.
  rewrite size_empty in Hsz. destruct Hwf' as [Hc _ _ _].
  replace (count r') with 0 by lia. done.
Qed.

(** adding a rule for an address that had none is all or nothing: a success
    puts the rule in the map and its row in the table, and a failure of the map
    or of the database leaves both as they were *)
Theorem add_ipv4_all_or_nothing (w : acl_world) (d : FlowDirection) (t : ListType) (bits port : Z)
    (m : gmap Z PortRule) :
  ipv4_list (aw_control w) d t = Some m -> map_wf m -> m !! to_be 4 bits = None -> 0 <= port ->
  match add_ipv4 w d t bits port with
  | Some (Ok _, w') =>
      mk_row V4 d t (print_ipv4 bits) port ∈ acl_rules (aw_tables w') /\
      exists m', ipv4_list (aw_control w') d t = Some m' /\
        forall q, rule_matches m' (to_be 4 bits) q = covers port q
  | Some (Err _, w') => aw_control w' = aw_control w /\ aw_tables w' = aw_tables w
  | None => False
  end.
Proof.
  intros Hm Hwf Hnone Hport. unfold add_ipv4, add_ipv4_list. rewrite Hm.
  pose proof (add_rule_matches m (to_be 4 bits) port Hwf) as Hadd.
  assert (forall x, ipv4_list (set_ipv4_list (aw_control w) d t x) d t = x) as Hget
    by (intros x; by destruct (aw_control w), d, t).
  assert (forall x y, set_ipv4_list (set_ipv4_list (aw_control w) d t x) d t y =
    set_ipv4_list (aw_control w) d t y) as Hset by (intros x y; by destruct (aw_control w), d, t).
  assert (set_ipv4_list (aw_control w) d t (Some m) = aw_control w) as Hsame
    by (rewrite <- Hm; by destruct (aw_control w), d, t).
  destruct (add (Some m) (to_be 4 bits) port) as [[[]|e] w1] eqn:Ha.
  2: { subst w1. by rewrite Hsame. }
  destruct w1 as [m1|]; [|done]. destruct Hadd as [Hwf1 Hadd].
  assert (exists r, m1 = <[to_be 4 bits := r]> m /\ (if port =? 0 then True else
     r = (add_port new_empty port).2 /\ (add_port new_empty port).1 = true)) as (r & Hr & Hrp).
  { unfold add, map_insert in Ha. rewrite Hnone, bool_decide_eq_true_2 in Ha by done.
    cbn [andb default] in Ha. destruct (MAX_RULES <=? size m)%nat.
    - destruct (port =? 0); [done|]. change (is_match_all (from_option id new_empty None)) with false in Ha.
      cbv iota in Ha. by destruct (add_port _ port) as [[] r'].
    - destruct (port =? 0); [injection Ha as <-; eauto|].
      change (from_option id new_empty None) with new_empty in Ha.
      change (is_match_all new_empty) with false in Ha. cbv iota in Ha.
      destruct (add_port new_empty port) as [[] r']; cbn [negb] in Ha; [injection Ha as <-; eauto|done]. }
  unfold repo_insert. cbn [set_control db_fails aw_control]. destruct (db_fails w).
  - unfold remove_ipv4_list. cbn [aw_control set_control fst snd]. rewrite Hget.
    assert (remove (Some m1) (to_be 4 bits) port = Some (Ok tt, Some m)) as ->.
    { unfold remove, map_remove. subst m1. rewrite lookup_insert_eq, delete_insert_eq, delete_id by done.
      destruct (port =? 0) eqn:Hp; [done|]. destruct Hrp as [-> Hok].
      destruct (add_one_remove port Hok) as (r' & Hrem). rewrite Hrem. done. }
    simpl. by rewrite Hset, Hsame.
  - cbn [aw_control aw_tables set_control]. split.
    + apply insert_row_in.
    + exists m1. split; [apply Hget|]. intros q. rewrite Hadd, Z.eqb_refl. simpl.
      unfold rule_matches. by rewrite Hnone.
Qed.

Definition fresh_control : AccessControl :=
  mk_ac (Some ∅) (Some ∅) (Some ∅) (Some ∅) (Some ∅) (Some ∅) (Some ∅) (Some ∅).

Lemma add_ipv4_all_or_nothing_witness :
  exists w', add_ipv4 (mk_aw fresh_control empty_tables true) Source Black 167772169 22 =
    Some (Err AclDatabase, w') /\ aw_control w' = fresh_control.
Proof.
  pose proof (add_ipv4_all_or_nothing (mk_aw fresh_control empty_tables true) Source Black 167772169 22 ∅
    eq_refl (map_Forall_empty _) eq_refl ltac:(lia)) as H.
  destruct (add_ipv4 (mk_aw fresh_control empty_tables true) Source Black 167772169 22)
    as [[[[]|e] w']|] eqn:E; [vm_compute in E; congruence| |done].
  exists w'. split; [|apply H]. assert (e = AclDatabase) as -> by (vm_compute in E; congruence). done.
Defined.

(** Finding: when the database rejects a rule that already existed, the rollback
    removes the existing rule from the kernel map, although its row stays; and
    removing the every-port rule of an address drops its single-port rules from
    the map while their rows stay *)
Theorem acl_rollback_and_removal_diverge :
  let w0 := mk_aw fresh_control empty_tables false in
  exists w1 w2 w3,
    add_ipv4 w0 Source Black 167772169 22 = Some (Ok tt, w1) /\
    (* the same rule again, while the database fails *)
    add_ipv4 (mk_aw (aw_control w1) (aw_tables w1) true) Source Black 167772169 22 =
      Some (Err AclDatabase, w2) /\
    ipv4_src_blacklist (aw_control w2) = Some ∅ /\ acl_rules (aw_tables w2) = acl_rules (aw_tables w1) /\
    (* removing port 0 with only port 22 listed *)
    remove_ipv4 w1 Source Black 167772169 0 = Some (Ok tt, w3) /\
    ipv4_src_blacklist (aw_control w3) = Some ∅ /\
    acl_rules (aw_tables w3) = [mk_row V4 Source Black "10.0.0.9" 22].
Proof. do 3 eexists. split_and!; vm_compute; reflexivity. Qed.
