(* ===== verification/Event.v ===== *)
(** * Detection events and attack types
    ([domain/common/event.rs], [domain/detection/attack_type.rs]) *)

From Stdlib Require Import ZArith Lia List String.
From Corelib Require Import SpecFloat.
From stdpp Require Import base list strings.
From S2P Require Import Prelude RStr Float.

Local Open Scope string_scope.
Local Open Scope Z_scope.

Inductive DetectionSource : Type := ML | Correlation | Beaconing | Suricata.

#[export] Instance DetectionSource_eq_dec : EqDecision DetectionSource.
Proof. solve_decision. Defined.

Definition source_str (s : DetectionSource) : string :=
  match s with
  | ML => "ML" | Correlation => "Correlation" | Beaconing => "Beaconing" | Suricata => "Suricata"
  end.

Definition one_of (s : string) (l : list string) : bool := existsb (String.eqb s) l.

Definition source_from_str (s : string) : option DetectionSource :=
  if one_of s ["ML"; "ml"] then Some ML
  else if one_of s ["Suricata"; "suricata"] then Some Suricata
  else if one_of s ["Beaconing"; "beaconing"; "CV"; "cv"] then Some Beaconing
  else if one_of s ["Correlation"; "correlation"; "Graph"; "graph"] then Some Correlation
  else None.

Record DetectionEvent : Type := mk_detection {
  dt_source : DetectionSource; dt_attack_type : string; dt_confidence : float;
  dt_source_ip : string; dt_dest_ip : string; dt_protocol : Z; dt_packet_count : Z;
  dt_flow_duration_us : Z; dt_ae_score : float; dt_anomaly_score : float; dt_c2_score : float }.

Record DetectionDiagnostic : Type := mk_diag {
  dg_source : DetectionSource; dg_name : string; dg_value : float }.

Record ThreatDetectedEvent : Type := mk_threat {
  te_attack_type : string; te_confidence : float; te_source_ip : string; te_dest_ip : string;
  te_flow_count : Z; te_packet_rate : float; te_protocol : Z; te_geoip_country : option string;
  te_is_repeat_offender : bool; te_sources : list DetectionSource; te_active_source_count : Z;
  te_fused_confidence : float; te_diagnostics : list DetectionDiagnostic }.

Inductive CanonicalAttackType : Type :=
  | BruteForce | PortScan | C2Beacon | DnsTunnel | SqlInjection | Xss | Exploit | LateralMovement
  | Reconnaissance | Cryptomining | DosDdos | BotActivity | Unknown.

#[export] Instance CanonicalAttackType_eq_dec : EqDecision CanonicalAttackType.
Proof. solve_decision. Defined.

Definition attack_str (c : CanonicalAttackType) : string :=
  match c with
  | BruteForce => "brute_force" | PortScan => "port_scan" | C2Beacon => "c2_beacon"
  | DnsTunnel => "dns_tunnel" | SqlInjection => "sql_injection" | Xss => "xss"
  | Exploit => "exploit" | LateralMovement => "lateral_movement"
  | Reconnaissance => "reconnaissance" | Cryptomining => "cryptomining" | DosDdos => "dos_ddos"
  | BotActivity => "bot_activity" | Unknown => "unknown"
  end.

Definition ALL_ATTACKS : list CanonicalAttackType :=
  [BruteForce; PortScan; C2Beacon; DnsTunnel; SqlInjection; Xss; Exploit; LateralMovement;
   Reconnaissance; Cryptomining; DosDdos; BotActivity; Unknown].

Definition canonical_from_str (s : string) : option CanonicalAttackType :=
  List.find (fun c => String.eqb (attack_str c) s) ALL_ATTACKS.

Definition translate_ml (label : string) : CanonicalAttackType :=
  if one_of label ["brute force"; "brute_force"; "bruteforce"] then BruteForce
  else if one_of label ["port_scan"; "portscan"] then PortScan
  else if one_of label ["reconnaissance"; "recon"] then Reconnaissance
  else if one_of label ["c2 communication"; "c2"; "c2_beacon"; "command_and_control"] then C2Beacon
  else if one_of label ["dns tunneling"; "dns_tunnel"; "dns tunnel"] then DnsTunnel
  else if one_of label ["sql injection"; "sql_injection"; "sqli"] then SqlInjection
  else if one_of label ["xss"; "cross_site_scripting"] then Xss
  else if one_of label ["web attack"; "web_attack"] then Exploit
  else if one_of label ["exploitation"; "exploit"] then Exploit
  else if one_of label ["dos/ddos"; "dos_ddos"; "ddos"; "dos"] then DosDdos
  else if one_of label ["cryptomining"; "cryptocurrency_mining"; "mining"] then Cryptomining
  else if one_of label ["bot"; "bot_activity"; "botnet"; "malware"] then BotActivity
  else if one_of label ["lateral movement"; "lateral_movement"] then LateralMovement
  else Unknown.

Definition translate_beaconing (_ : string) : CanonicalAttackType := C2Beacon.

Definition translate_correlation (label : string) : CanonicalAttackType :=
  if one_of label ["scan"; "port_scan"; "reconnaissance"] then PortScan
  else if one_of label ["lateral"; "lateral_movement"] then LateralMovement
  else if one_of label ["botnet"; "bot"; "bot_activity"] then BotActivity
  else Unknown.

Definition translate_suricata (label : string) : CanonicalAttackType :=
  if one_of label ["network-scan"] then PortScan
  else if one_of label ["attempted-recon"; "misc-activity"] then Reconnaissance
  else if one_of label ["attempted-admin"; "successful-admin"; "attempted-user"; "successful-user";
                        "shellcode-detect"; "attempted-exploit"] then Exploit
  else if one_of label ["web-application-attack"] then Exploit
  else if one_of label ["web-application-activity"] then Exploit
  else if one_of label ["sql-injection"] then SqlInjection
  else if one_of label ["xss"; "cross-site-scripting"] then Xss
  else if one_of label ["attempted-dos"; "successful-dos"; "denial-of-service"] then DosDdos
  else if one_of label ["trojan-activity"; "malware-cnc"; "command-and-control"] then C2Beacon
  else if one_of label ["suspicious-login"; "unsuccessful-user"; "brute-force"] then BruteForce
  else if one_of label ["coin-mining"; "policy-violation"] then Cryptomining
  else if one_of label ["dns-tunnel"; "protocol-command-decode"] then DnsTunnel
  else Unknown.

Definition translate (source : DetectionSource) (raw_label : string) : CanonicalAttackType :=
  let normalized := to_ascii_lowercase (trim raw_label) in
  match source with
  | ML => translate_ml normalized
  | Beaconing => translate_beaconing normalized
  | Correlation => translate_correlation normalized
  | Suricata => translate_suricata normalized
  end.

(** ** The detection channel

    The bounded [mpsc] channel to the orchestrator: the events in flight, its
    capacity, and whether the receiver is still there. *)

Record DetectionSender : Type := mk_sender {
  in_flight : list DetectionEvent; channel_capacity : nat; channel_open : bool }.

(** [send_detection_or_log]: [try_send], a refused event is dropped and logged. *)
Definition send_detection_or_log (tx : DetectionSender) (event : DetectionEvent) : bool * DetectionSender :=
  if channel_open tx && (length (in_flight tx) <? channel_capacity tx)%nat
  then (true, mk_sender (in_flight tx ++ [event])%list (channel_capacity tx) (channel_open tx))
  else (false, tx).

(** ** Lemmas *)

Lemma canonical_attack_str (c : CanonicalAttackType) : canonical_from_str (attack_str c) = Some c.
Proof. by destruct c. Qed.

Lemma source_str_roundtrip (s : DetectionSource) : source_from_str (source_str s) = Some s.
Proof. by destruct s. Qed.

Lemma canonical_from_str_inv (s : string) (c : CanonicalAttackType) :
  canonical_from_str s = Some c -> attack_str c = s.
Proof. intros H. apply List.find_some in H as [_ H]. by apply String.eqb_eq. Qed.
