(* ===== verification/Condition.v ===== *)
(** * Playbook conditions, actions and their validation
    ([domain/response/condition.rs], [playbook.rs], [playbook_validator.rs]) *)

From Stdlib Require Import ZArith Lia List Ascii String.
From Corelib Require Import SpecFloat.
From stdpp Require Import base list strings.
From S2P Require Import Prelude Abi RStr Float IpAddr Event.

Local Open Scope string_scope.
Local Open Scope Z_scope.

(** ** [fN::from_str] *)

(** Leading decimal digits: their value, how many, the rest. *)
Fixpoint take_digits (acc : Z) (n : nat) (s : string) : Z * nat * string :=
  match s with
  | String c s' => if is_digit c then take_digits (acc * 10 + (code c - 48)) (S n) s' else (acc, n, s)
  | EmptyString => (acc, n, s)
  end.

Definition read_sign (s : string) : bool * string :=
  match s with
  | String "-" s => (true, s)
  | String "+" s => (false, s)
  | _ => (false, s)
  end.

(** Mantissa and decimal exponent of a literal without its sign. *)
Definition read_decimal (s : string) : option (Z * Z) :=
  let '(m, n1, s) := take_digits 0 0 s in
  let '(m, n2, s) := match s with
                     | String "." s => take_digits m 0 s
                     | _ => (m, O, s)
                     end in
  if ((n1 + n2) =? 0)%nat then None
  else
    let exponent := match s with
      | "" => Some 0
      | String c s =>
          if Ascii.eqb c "e" || Ascii.eqb c "E" then
            let '(neg, s) := read_sign s in
            match take_digits 0 0 s with
            | (e, S _, "") => Some (if neg then - e else e)
            | _ => None
            end
          else None
      end in
    match exponent with
    | Some e => Some (m, e - Z.of_nat n2)
    | None => None
    end.

Definition decimal_float (prec emax m e : Z) : float :=
  if 0 <=? e then of_ratio prec emax (m * 10 ^ e) 1
  else of_ratio prec emax m (Z.to_pos (10 ^ (- e))).

Definition parse_float (prec emax : Z) (s : string) : option float :=
  let '(neg, body) := read_sign s in
  let sign (x : float) := if neg then SFopp x else x in
  if eq_ignore_ascii_case body "nan" then Some S754_nan
  else if eq_ignore_ascii_case body "inf" || eq_ignore_ascii_case body "infinity"
  then Some (sign (S754_infinity false))
  else
    match read_decimal body with
    | Some (m, e) => Some (sign (decimal_float prec emax m e))
    | None => None
    end.

Definition parse_f64 : string -> option float := parse_float 53 1024.
Definition parse_f32 : string -> option float := parse_float 24 128.

(** Whether the text is a number does not depend on the format. *)
Lemma parse_float_format (p e p' e' : Z) (s : string) :
  is_Some (parse_float p e s) -> is_Some (parse_float p' e' s).
Proof.
  unfold parse_float. destruct (read_sign s) as [neg body].
  destruct (eq_ignore_ascii_case body "nan"); [done|]. destruct (_ || _); [done|].
  destruct (read_decimal body) as [[m x]|]; [done|]. by intros [? ?].
Qed.

(** ** condition.rs *)

Inductive ConditionType : Type :=
  | Threshold | SourceCountry | IpPattern | RepeatOffender | Frequency | MultiSourceMin
  | SingleSourceHigh | FusedConfidenceAbove.

#[export] Instance ConditionType_eq_dec : EqDecision ConditionType.
Proof. solve_decision. Defined.

Definition condition_str (c : ConditionType) : string :=
  match c with
  | Threshold => "threshold" | SourceCountry => "source_country" | IpPattern => "ip_pattern"
  | RepeatOffender => "repeat_offender" | Frequency => "frequency"
  | MultiSourceMin => "multi_source_min" | SingleSourceHigh => "single_source_high"
  | FusedConfidenceAbove => "fused_confidence_above"
  end.

Definition condition_from_str (s : string) : option ConditionType :=
  if String.eqb s "threshold" then Some Threshold
  else if String.eqb s "source_country" then Some SourceCountry
  else if String.eqb s "ip_pattern" then Some IpPattern
  else if String.eqb s "repeat_offender" then Some RepeatOffender
  else if String.eqb s "frequency" then Some Frequency
  else if String.eqb s "multi_source_min" then Some MultiSourceMin
  else if String.eqb s "single_source_high" then Some SingleSourceHigh
  else if String.eqb s "fused_confidence_above" then Some FusedConfidenceAbove
  else None.

Definition default_operator (c : ConditionType) : string :=
  match c with
  | Threshold | Frequency | MultiSourceMin | SingleSourceHigh | FusedConfidenceAbove => ">="
  | SourceCountry | IpPattern => "in"
  | RepeatOffender => "=="
  end.

Record PlaybookCondition : Type := mk_condition {
  condition_type : ConditionType; operator : string; value : string; value2 : option string }.

(** What an evaluation reports besides its verdict. *)
Inductive detail : Type :=
  | InvalidOperator | InvalidValue | InvalidSourceIp | NeedsHistory | Observed.

Record ConditionEvaluation : Type := mk_eval { met : bool; details : detail }.

Definition is_valid_operator (c : ConditionType) (op : string) : bool :=
  match c with
  | Threshold | FusedConfidenceAbove => one_of op [">="; "<="]
  | SourceCountry | IpPattern => one_of op ["in"; "not_in"]
  | RepeatOffender => String.eqb op "=="
  | Frequency | MultiSourceMin | SingleSourceHigh => String.eqb op ">="
  end.

Definition prefix_mask_u32 (prefix : Z) : Z :=
  if prefix =? 0 then 0 else wrap 32 (Z.shiftl (umax 32) (32 - prefix)).
Definition prefix_mask_u128 (prefix : Z) : Z :=
  if prefix =? 0 then 0 else wrap 128 (Z.shiftl (umax 128) (128 - prefix)).

Definition validate_prefix (prefix max : Z) : option Z :=
  if prefix <=? max then Some prefix else None.

Definition parse_ip_pattern (pattern : string) : option (IpAddr * Z) :=
  let trimmed := trim pattern in
  match split_once "/" trimmed with
  | None =>
      let! ip := parse_ip trimmed else None in
      Some (ip, match ip with Ip4 _ => 32 | Ip6 _ => 128 end)
  | Some (ip_part, prefix_part) =>
      let! ip := parse_ip ip_part else None in
      let! prefix := parse_uint 8 prefix_part else None in
      Some (ip, prefix)
  end.

Definition ip_matches_cidr_pattern (pattern : string) (ip : IpAddr) : option bool :=
  let! (network, prefix) := parse_ip_pattern pattern else None in
  match network, ip with
  | Ip4 network, Ip4 ip =>
      let! prefix := validate_prefix prefix 32 else None in
      let mask := prefix_mask_u32 prefix in
      Some (Z.land network mask =? Z.land ip mask)
  | Ip6 network, Ip6 ip =>
      let! prefix := validate_prefix prefix 128 else None in
      let mask := prefix_mask_u128 prefix in
      Some (Z.land network mask =? Z.land ip mask)
  | _, _ => Some false
  end.

Definition is_valid_ip_pattern (pattern : string) : bool :=
  match parse_ip_pattern pattern with
  | Some (Ip4 _, prefix) => bool_decide (is_Some (validate_prefix prefix 32))
  | Some (Ip6 _, prefix) => bool_decide (is_Some (validate_prefix prefix 128))
  | None => false
  end.

Definition evaluate_event_fields (c : PlaybookCondition) (event : ThreatDetectedEvent)
    (default_single_source_min_conf : float) : ConditionEvaluation :=
  if negb (is_valid_operator (condition_type c) (operator c)) then mk_eval false InvalidOperator
  else
    match condition_type c with
    | Threshold =>
        let! threshold := parse_f64 (value c) else mk_eval false InvalidValue in
        let confidence := f64_of_f32 (te_confidence event) in
        mk_eval (if String.eqb (operator c) "<=" then fle confidence threshold
                 else fge confidence threshold) Observed
    | SourceCountry =>
        let matches := match te_geoip_country event with
          | Some country => existsb (fun candidate => eq_ignore_ascii_case (trim candidate) country)
                              (split "," (value c))
          | None => false
          end in
        mk_eval (if String.eqb (operator c) "not_in" then negb matches else matches) Observed
    | IpPattern =>
        let! ip := parse_ip (te_source_ip event) else mk_eval false InvalidSourceIp in
        let! matches := ip_matches_cidr_pattern (value c) ip else mk_eval false InvalidValue in
        mk_eval (if String.eqb (operator c) "not_in" then negb matches else matches) Observed
    | RepeatOffender =>
        let expected := eq_ignore_ascii_case (value c) "true" in
        mk_eval (Bool.eqb (te_is_repeat_offender event) expected) Observed
    | Frequency => mk_eval false NeedsHistory
    | MultiSourceMin =>
        let! required := parse_uint 64 (value c) else mk_eval false InvalidValue in
        mk_eval (te_active_source_count event >=? required) Observed
    | SingleSourceHigh =>
        let! target := source_from_str (value c) else mk_eval false InvalidValue in
        let min_conf := default default_single_source_min_conf
          (let! s := value2 c else None in parse_f32 s) in
        let solo := (te_active_source_count event =? 1) && bool_decide (te_sources event = [target]) in
        mk_eval (solo && fge (te_confidence event) min_conf) Observed
    | FusedConfidenceAbove =>
        let! threshold := parse_f32 (value c) else mk_eval false InvalidValue in
        mk_eval (if String.eqb (operator c) "<=" then fle (te_fused_confidence event) threshold
                 else fge (te_fused_confidence event) threshold) Observed
    end.

(** ** playbook.rs *)

Inductive ActionType : Type := BlockIp | AdjustRateLimit | SendTelegram | SendEmail | Webhook | Log.

#[export] Instance ActionType_eq_dec : EqDecision ActionType.
Proof. solve_decision. Defined.

Definition action_str (a : ActionType) : string :=
  match a with
  | BlockIp => "block_ip" | AdjustRateLimit => "adjust_rate_limit" | SendTelegram => "send_telegram"
  | SendEmail => "send_email" | Webhook => "webhook" | Log => "log"
  end.

Definition action_from_str (s : string) : option ActionType :=
  if String.eqb s "block_ip" then Some BlockIp
  else if String.eqb s "adjust_rate_limit" then Some AdjustRateLimit
  else if String.eqb s "send_telegram" then Some SendTelegram
  else if String.eqb s "send_email" then Some SendEmail
  else if String.eqb s "webhook" then Some Webhook
  else if String.eqb s "log" then Some Log
  else None.

Record PlaybookActionParams : Type := mk_params {
  ttl_secs : option Z; factor : option float; url : option string; timeout_secs : option Z;
  level : option string }.

Record PlaybookAction : Type := mk_action {
  action_order : Z; action_type : ActionType; params : PlaybookActionParams }.

Record Playbook : Type := mk_playbook {
  pb_id : Z; pb_name : string; pb_enabled : bool; pb_trigger : CanonicalAttackType;
  pb_cooldown_secs : Z; pb_actions : list PlaybookAction; pb_conditions : list PlaybookCondition }.

Definition matches_trigger (p : Playbook) (event : ThreatDetectedEvent) : bool :=
  pb_enabled p &&
  match canonical_from_str (te_attack_type event) with
  | Some t => bool_decide (pb_trigger p = t)
  | None => false
  end.

(** ** playbook_validator.rs *)

(** [SoarError::ValidationFailed]: the field at fault. *)
Inductive validation_error : Type := ValidationFailed (field : string).
Abbreviation validated := (result validation_error unit) (only parsing).

(** Observers of a [serde_json::Value]. *)
Class JsonValue : Type := {
  json : Type;
  js_is_object : json -> bool;
  js_get : json -> string -> option json;
  js_as_u64 : json -> option Z;
  js_as_f64 : json -> option float;
  js_as_str : json -> option string;
}.

Record CreateConditionInput : Type := mk_input {
  in_condition_type : string; in_operator : string; in_value : string; in_value2 : option string }.

Definition validate_optional_positive_i64 (field : string) (v : option Z) : validated :=
  match v with
  | Some v => if v <=? 0 then Err (ValidationFailed field) else Ok tt
  | None => Ok tt
  end.

Definition validate_cooldown_secs (cooldown_secs : Z) : validated :=
  if cooldown_secs <? 0 then Err (ValidationFailed "cooldown_secs") else Ok tt.

Definition parse_finite_f64 (v field : string) : result validation_error float :=
  match parse_f64 v with
  | Some x => if is_finite x then Ok x else Err (ValidationFailed field)
  | None => Err (ValidationFailed field)
  end.

(** [usize] and [u64] are both 64 bits wide. *)
Definition parse_positive_u64 (v field : string) : result validation_error Z :=
  match parse_uint 64 v with
  | Some x => if x >? 0 then Ok x else Err (ValidationFailed field)
  | None => Err (ValidationFailed field)
  end.

Definition parse_bool_literal (v field : string) : result validation_error bool :=
  let l := to_ascii_lowercase v in
  if String.eqb l "true" then Ok true
  else if String.eqb l "false" then Ok false else Err (ValidationFailed field).

Definition validate_condition_value (c : ConditionType) (i : CreateConditionInput) : validated :=
  match c with
  | Threshold | FusedConfidenceAbove =>
      let? _ := parse_finite_f64 (in_value i) (in_condition_type i) in Ok tt
  | Frequency | MultiSourceMin =>
      let? _ := parse_positive_u64 (in_value i) (in_condition_type i) in
      match in_value2 i with
      | Some v2 => let? _ := parse_positive_u64 v2 "value2" in Ok tt
      | None => Ok tt
      end
  | SourceCountry =>
      if forallb (fun part => is_empty (trim part)) (split "," (in_value i))
      then Err (ValidationFailed "source_country") else Ok tt
  | IpPattern =>
      if negb (is_valid_ip_pattern (in_value i)) then Err (ValidationFailed "ip_pattern") else Ok tt
  | RepeatOffender => let? _ := parse_bool_literal (in_value i) (in_condition_type i) in Ok tt
  | SingleSourceHigh =>
      match source_from_str (in_value i) with
      | None => Err (ValidationFailed "single_source_high")
      | Some _ =>
          match in_value2 i with
          | Some v2 => let? _ := parse_finite_f64 v2 "value2" in Ok tt
          | None => Ok tt
          end
      end
  end.

Definition validate_condition_input (i : CreateConditionInput) : validated :=
  match condition_from_str (in_condition_type i) with
  | None => Err (ValidationFailed "condition_type")
  | Some c =>
      if negb (is_valid_operator c (in_operator i)) then Err (ValidationFailed "operator")
      else validate_condition_value c i
  end.

Section Actions.
Context `{J : JsonValue}.

Definition RATE_LIMIT_FACTOR_MIN : float := f64_of_ratio 1 100.
Definition RATE_LIMIT_FACTOR_MAX : float := f64_of_Z 1.

Definition factor_in_range (f : float) : bool :=
  fle RATE_LIMIT_FACTOR_MIN f && fle f RATE_LIMIT_FACTOR_MAX.

Definition validate_optional_positive_u64 (field : string) (v : option json) : validated :=
  match v with
  | None => Ok tt
  | Some v =>
      match js_as_u64 v with
      | Some x => if x >? 0 then Ok tt else Err (ValidationFailed field)
      | None => Err (ValidationFailed field)
      end
  end.

Definition validate_optional_max_u64 (field : string) (v : option json) (max : Z) : validated :=
  match (let! v := v else None in js_as_u64 v) with
  | None => Ok tt
  | Some x => if x >? max then Err (ValidationFailed field) else Ok tt
  end.

Definition validate_optional_rate_limit_factor (v : option json) : validated :=
  match v with
  | None => Ok tt
  | Some v =>
      match js_as_f64 v with
      | Some f => if factor_in_range f then Ok tt else Err (ValidationFailed "factor")
      | None => Err (ValidationFailed "factor")
      end
  end.

Definition validate_required_non_empty_string (field : string) (v : option json) : validated :=
  match (let! v := v else None in js_as_str v) with
  | Some s => if is_empty (trim s) then Err (ValidationFailed field) else Ok tt
  | None => Err (ValidationFailed field)
  end.

Definition validate_optional_string (field : string) (v : option json) : validated :=
  match v with
  | None => Ok tt
  | Some v => if bool_decide (is_Some (js_as_str v)) then Ok tt else Err (ValidationFailed field)
  end.

Definition param (params : option json) (name : string) : option json :=
  let! p := params else None in js_get p name.

Definition validate_action (action_type : string) (params : option json) (max_ttl_secs : Z) : validated :=
  if match params with Some p => negb (js_is_object p) | None => false end
  then Err (ValidationFailed "params")
  else
    match action_from_str action_type with
    | Some BlockIp =>
        let? _ := validate_optional_positive_u64 "ttl_secs" (param params "ttl_secs") in
        validate_optional_max_u64 "ttl_secs" (param params "ttl_secs") max_ttl_secs
    | Some AdjustRateLimit =>
        let? _ := validate_optional_positive_u64 "ttl_secs" (param params "ttl_secs") in
        let? _ := validate_optional_max_u64 "ttl_secs" (param params "ttl_secs") max_ttl_secs in
        validate_optional_rate_limit_factor (param params "factor")
    | Some SendTelegram | Some SendEmail => Ok tt
    | Some Webhook =>
        let? _ := validate_required_non_empty_string "url" (param params "url") in
        validate_optional_positive_u64 "timeout_secs" (param params "timeout_secs")
    | Some Log => validate_optional_string "level" (param params "level")
    | None => Err (ValidationFailed "action_type")
    end.

(** [parse_action_params] (core/response/engine/playbook.rs). *)
Definition parse_action_params (p : json) : PlaybookActionParams :=
  mk_params (let! v := js_get p "ttl_secs" else None in js_as_u64 v)
    (let! v := js_get p "factor" else None in js_as_f64 v)
    (let! v := js_get p "url" else None in js_as_str v)
    (let! v := js_get p "timeout_secs" else None in js_as_u64 v)
    (let! v := js_get p "level" else None in js_as_str v).
End Actions.

(** ** A validated condition is always evaluated *)

Lemma is_ok_bind {E A B} (r : result E A) (f : A -> result E B) :
  is_ok (res_bind r f) = true -> exists a, r = Ok a /\ is_ok (f a) = true.
Proof. destruct r as [a|e]; simpl; [eauto|done]. Qed.

Lemma positive_parses (v field : string) :
  is_ok (parse_positive_u64 v field) = true -> is_Some (parse_uint 64 v).
Proof. unfold parse_positive_u64. by destruct (parse_uint 64 v). Qed.

Lemma finite_parses (v field : string) :
  is_ok (parse_finite_f64 v field) = true -> is_Some (parse_f64 v).
Proof. unfold parse_finite_f64. by destruct (parse_f64 v). Qed.

Lemma valid_pattern_matches (pattern : string) (ip : IpAddr) :
  is_valid_ip_pattern pattern = true -> is_Some (ip_matches_cidr_pattern pattern ip).
Proof.
  unfold is_valid_ip_pattern, ip_matches_cidr_pattern.
  destruct (parse_ip_pattern pattern) as [[[n|n] prefix]|]; [..|done];
    intros [p Hp]%bool_decide_eq_true; destruct ip; rewrite ?Hp; done.
Qed.

(** a condition the validator accepts, read back as the engine reads it, is
    evaluated on every event with a parsable source address: its operator and
    its value are never found invalid, and only a frequency condition is left
    to the history *)
Theorem validated_condition_evaluates (i : CreateConditionInput) (event : ThreatDetectedEvent)
    (min_conf : float) :
  is_ok (validate_condition_input i) = true -> is_Some (parse_ip (te_source_ip event)) ->
  exists c, condition_from_str (in_condition_type i) = Some c /\
    details (evaluate_event_fields (mk_condition c (in_operator i) (in_value i) (in_value2 i)) event
               min_conf) = if bool_decide (c = Frequency) then NeedsHistory else Observed.
Proof.
  unfold validate_condition_input. intros Hv [ip Hip].
  destruct (condition_from_str (in_condition_type i)) as [c|]; [|done]. exists c. split; [done|].
  destruct (is_valid_operator c (in_operator i)) eqn:Hop; [|done]. cbn [negb] in Hv.
  unfold evaluate_event_fields. cbn [condition_type operator value value2]. rewrite Hop. cbn [negb].
  destruct c; cbn [validate_condition_value] in Hv;
    rewrite ?bool_decide_eq_false_2, ?bool_decide_eq_true_2 by done; try done.
  - apply is_ok_bind in Hv as (x & Hx & _).
    destruct (finite_parses (in_value i) (in_condition_type i)) as [y ->]; [by rewrite Hx|done].
  - destruct (is_valid_ip_pattern (in_value i)) eqn:Hpat; [|done]. rewrite Hip.
    by destruct (valid_pattern_matches _ ip Hpat) as [b ->].
  - apply is_ok_bind in Hv as (x & Hx & _).
    destruct (positive_parses (in_value i) (in_condition_type i)) as [y ->]; [by rewrite Hx|done].
  - by destruct (source_from_str (in_value i)).
  - apply is_ok_bind in Hv as (x & Hx & _). unfold parse_f32.
    destruct (parse_float_format 53 1024 24 128 (in_value i)) as [y ->]; [|done].
    apply (finite_parses _ (in_condition_type i)). by rewrite Hx.
Qed.

Definition sample_threat : ThreatDetectedEvent :=
  mk_threat "port_scan" (f32_of_ratio 9 10) "10.1.2.3" "10.0.0.1" 1 (f64_of_Z 0) 6 (Some "TW") false
    [ML] 1 (f32_of_ratio 9 10) [].

Lemma validated_condition_evaluates_witness :
  exists c, condition_from_str "ip_pattern" = Some c /\
    details (evaluate_event_fields (mk_condition c "in" " 10.1.0.0/16 " None) sample_threat
               (f32_of_Z 1)) = Observed.
Proof.
  destruct (validated_condition_evaluates (mk_input "ip_pattern" "in" " 10.1.0.0/16 " None)
    sample_threat (f32_of_Z 1)) as (c & Hc & Hd); [vm_compute; reflexivity|vm_compute; eauto|].
  exists c. split; [exact Hc|]. cbn in Hc. injection Hc as <-. exact Hd.
Defined.

(** ** CIDR patterns *)

Lemma mask_bits (w p i : Z) :
  0 < p <= w -> 0 <= i ->
  Z.testbit (wrap w (Z.shiftl (umax w) (w - p))) i = (w - p <=? i) && (i <? w).
Proof.
  intros Hp Hi. unfold wrap, umax, pow2.
  replace (2 ^ w - 1) with (Z.ones w) by (rewrite Z.ones_equiv; lia).
  destruct (Z.ltb_spec i w).
  - rewrite Z.mod_pow2_bits_low by lia. rewrite Z.shiftl_spec by lia. rewrite andb_true_r.
    destruct (Z.leb_spec (w - p) i).
    + rewrite Z.ones_spec_low by lia. done.
    + by rewrite Z.testbit_neg_r by lia.
  - rewrite Z.mod_pow2_bits_high by lia. by rewrite andb_false_r.
Qed.

Lemma masked_eq_shift (w p x y : Z) :
  0 < p <= w -> in_width w x -> in_width w y ->
  (Z.land x (wrap w (Z.shiftl (umax w) (w - p))) =? Z.land y (wrap w (Z.shiftl (umax w) (w - p))))
  = (Z.shiftr x (w - p) =? Z.shiftr y (w - p)).
Proof.
  intros Hp [Hx0 Hx] [Hy0 Hy]. unfold pow2 in *.
  assert (forall z i, 0 <= z < 2 ^ w -> w <= i -> Z.testbit z i = false) as Hhigh.
  { intros z i Hz Hi. destruct (Z.eq_dec z 0) as [->|]; [apply Z.bits_0|].
    apply Z.bits_above_log2; [lia|]. apply Z.log2_lt_pow2; [lia|].
    eapply Z.lt_le_trans; [apply Hz|]. apply Z.pow_le_mono_r; lia. }
  apply Bool.eq_iff_eq_true. rewrite !Z.eqb_eq. split; intros Heq; apply Z.bits_inj'; intros i Hi.
  - rewrite !Z.shiftr_spec by lia. apply (f_equal (fun z => Z.testbit z (i + (w - p)))) in Heq.
    rewrite !Z.land_spec, !mask_bits in Heq by lia.
    destruct (Z.leb_spec (w - p) (i + (w - p))); [|lia].
    destruct (Z.ltb_spec (i + (w - p)) w).
    + by rewrite !andb_true_r in Heq.
    + by rewrite !Hhigh by lia.
  - rewrite !Z.land_spec, !mask_bits by lia.
    destruct (Z.leb_spec (w - p) i); [|by rewrite !andb_false_r]. f_equal.
    apply (f_equal (fun z => Z.testbit z (i - (w - p)))) in Heq.
    rewrite !Z.shiftr_spec in Heq by lia. by replace (i - (w - p) + (w - p)) with i in Heq by lia.
Qed.

(** The address family, its width and the value. *)
Definition ip_width (a : IpAddr) : Z := match a with Ip4 _ => 32 | Ip6 _ => 128 end.
Definition ip_bits (a : IpAddr) : Z := match a with Ip4 b | Ip6 b => b end.

(** an address matches a pattern [network/prefix] exactly when both are of
    the same family and agree on their first [prefix] bits *)
Theorem cidr_match_prefix (pattern : string) (network ip : IpAddr) (prefix : Z) :
  parse_ip_pattern pattern = Some (network, prefix) -> 0 <= prefix <= ip_width network ->
  in_width (ip_width network) (ip_bits network) -> in_width (ip_width ip) (ip_bits ip) ->
  ip_matches_cidr_pattern pattern ip =
    Some ((ip_width network =? ip_width ip) &&
          (ip_bits network / 2 ^ (ip_width network - prefix) =?
           ip_bits ip / 2 ^ (ip_width network - prefix))).
Proof.
  intros Hp Hprefix Hn Hi. unfold ip_matches_cidr_pattern. rewrite Hp.
  destruct network as [n|n], ip as [x|x]; simpl ip_width in *; simpl ip_bits in *; try done;
    unfold validate_prefix; rewrite (proj2 (Z.leb_le _ _)) by lia; f_equal;
    unfold prefix_mask_u32, prefix_mask_u128; rewrite <- !Z.shiftr_div_pow2 by lia.
  all: destruct (Z.eqb_spec prefix 0) as [->|]; [|apply masked_eq_shift; done || lia].
  all: rewrite !Z.land_0_r, Z.sub_0_r, !Z.shiftr_div_pow2 by lia.
  all: unfold in_width, pow2 in *; by rewrite !Z.div_small by lia.
Qed.

Lemma cidr_match_prefix_witness :
  ip_matches_cidr_pattern "192.168.0.0/16" (Ip4 3232243732) = Some true.
Proof.
  rewrite (cidr_match_prefix "192.168.0.0/16" (Ip4 3232235520) (Ip4 3232243732) 16);
    [vm_compute; reflexivity|vm_compute; reflexivity|simpl; lia|..];
    unfold in_width, pow2; simpl; lia.
Defined.
