(* ===== verification/Matcher.v ===== *)
(** * Playbook matching ([core/response/matcher.rs], [frequency.rs])

    The matcher keeps the cooldown of each (playbook, source) and the recent
    event times behind frequency conditions.  Instants are nanoseconds; one
    instant is read per handled event. *)

From Stdlib Require Import ZArith Lia List String Sorting.Sorted.
From Corelib Require Import SpecFloat.
From stdpp Require Import base list gmap strings sorting.
From S2P Require Import Prelude RStr Float Event Condition.

Local Open Scope string_scope.
Local Open Scope Z_scope.

Definition NS : Z := 1000000000.

(** [SoarConfig] (domain/common/config/soar.rs). *)
Record SoarConfig : Type := mk_soar_config {
  max_auto_block_cap : Z; max_ttl_secs : Z; handle_concurrency : Z; max_pending_unblock_retries : Z;
  default_block_ttl_secs : Z; default_rate_limit_factor : float; default_rate_limit_ttl_secs : Z;
  default_webhook_timeout_secs : Z; default_frequency_window_secs : Z;
  default_single_source_high_min_confidence : float; default_cooldown_expiry_secs : Z;
  rate_limit_cmd_channel_capacity : Z; frequency_max_tracked_keys : Z;
  frequency_max_events_per_key : Z; frequency_retention_secs : Z; fallback_cooldown_secs : Z;
  execution_list_limit : Z }.

(** [SoarConfig::validate]: the first field that is refused. *)
Definition require_config_field (b : bool) (field : string) : result string unit :=
  if b then Ok tt else Err field.

Definition soar_config_validate (c : SoarConfig) : result string unit :=
  let? _ := require_config_field (handle_concurrency c >? 0) "soar.handle_concurrency" in
  let? _ := require_config_field (rate_limit_cmd_channel_capacity c >? 0) "soar.rate_limit_cmd_channel_capacity" in
  let? _ := require_config_field (max_auto_block_cap c >? 0) "soar.max_auto_block_cap" in
  let? _ := require_config_field (max_ttl_secs c >? 0) "soar.max_ttl_secs" in
  let? _ := require_config_field (max_pending_unblock_retries c >=? 0) "soar.max_pending_unblock_retries" in
  let? _ := require_config_field (default_block_ttl_secs c >? 0) "soar.default_block_ttl_secs" in
  let? _ := require_config_field (default_block_ttl_secs c <=? max_ttl_secs c) "soar.default_block_ttl_secs" in
  let? _ := require_config_field (factor_in_range (default_rate_limit_factor c)) "soar.default_rate_limit_factor" in
  let? _ := require_config_field (default_rate_limit_ttl_secs c >? 0) "soar.default_rate_limit_ttl_secs" in
  let? _ := require_config_field (default_rate_limit_ttl_secs c <=? max_ttl_secs c) "soar.default_rate_limit_ttl_secs" in
  let? _ := require_config_field (default_webhook_timeout_secs c >? 0) "soar.default_webhook_timeout_secs" in
  let? _ := require_config_field (default_frequency_window_secs c >? 0) "soar.default_frequency_window_secs" in
  let? _ := require_config_field (default_cooldown_expiry_secs c >? 0) "soar.default_cooldown_expiry_secs" in
  let? _ := require_config_field (frequency_max_tracked_keys c >? 0) "soar.frequency_max_tracked_keys" in
  let? _ := require_config_field (execution_list_limit c >? 0) "soar.execution_list_limit" in
  let? _ := require_config_field (frequency_max_events_per_key c >? 0) "soar.frequency_max_events_per_key" in
  let? _ := require_config_field (frequency_retention_secs c >? 0) "soar.frequency_retention_secs" in
  let? _ := require_config_field (fallback_cooldown_secs c >=? 0) "soar.fallback_cooldown_secs" in
  require_config_field
    (fle (S754_zero false) (default_single_source_high_min_confidence c) &&
     fle (default_single_source_high_min_confidence c) (f32_of_Z 1))
    "soar.default_single_source_high_min_confidence".

(** ** frequency.rs *)

(** (playbook id, source address) *)
Abbreviation key := (Z * string)%type (only parsing).

Record FrequencyEntry : Type := mk_fentry { fe_events : list Z; fe_last_seen : Z }.

Record FrequencyTracker : Type := mk_ftracker {
  ft_events : gmap key FrequencyEntry;
  max_deque_size : Z; max_tracked_keys : Z; max_retention : Z }.

(** [FrequencyTracker::new] *)
Definition new_tracker (max_keys max_events retention_secs : Z) : FrequencyTracker :=
  mk_ftracker ∅ (Z.max max_events 1) (Z.max max_keys 1) (Z.max retention_secs 1 * NS).

(** [select_nth_unstable_by_key]: some permutation whose first [n] elements
    have the least keys. *)
Class SelectNth : Type := select_nth : nat -> list (key * Z) -> list (key * Z).
Class SelectNthLaws (S : SelectNth) : Prop := {
  select_perm : forall n l, Permutation (select_nth n l) l;
  select_least : forall n l x y, x ∈ take n (select_nth n l) -> y ∈ drop n (select_nth n l) -> x.2 <= y.2;
}.

Definition by_time (x y : key * Z) : Prop := x.2 <= y.2.
#[export] Instance by_time_dec : RelDecision by_time.
Proof. intros x y. unfold by_time. apply _. Defined.
#[export] Instance by_time_total : Total by_time.
Proof. intros x y. unfold by_time. lia. Qed.
#[export] Instance by_time_trans : Transitive by_time.
Proof. intros x y z. unfold by_time. lia. Qed.

#[export] Instance select_sorting : SelectNth := fun _ l => merge_sort by_time l.
#[export] Instance select_sorting_laws : SelectNthLaws select_sorting.
Proof.
  split; unfold select_nth, select_sorting.
  - intros. apply merge_sort_Permutation.
  - intros n l x y Hx Hy.
    pose proof (StronglySorted_merge_sort by_time l) as Hs.
    rewrite <- (take_drop n (merge_sort by_time l)) in Hs.
    by eapply StronglySorted_app_1_elem_of in Hs.
Qed.

Section Frequency.
Context `{Sel : SelectNth}.

Definition evict_oldest_inner (t : gmap key FrequencyEntry) (count : nat) (exclude : option key) :
    Z * gmap key FrequencyEntry :=
  let entries := map (fun e => (e.1, fe_last_seen e.2))
    (filter (fun e => Some e.1 <> exclude) (map_to_list t)) in
  let entries := if (count <? length entries)%nat then select_nth count entries else entries in
  fold_left (fun '(removed, t) e =>
      if bool_decide (is_Some (t !! e.1)) then (removed + 1, delete e.1 t) else (removed, t))
    (take count entries) (0, t).

(** The two [while] loops on the deque, its front first. *)
Definition pop_expired (now window_ns : Z) (d : list Z) : list Z :=
  drop_while (fun front => Z.max 0 (now - front) >? window_ns) d.

Definition trim_front (max : Z) (d : list Z) : list Z := drop (length d - Z.to_nat max) d.

Definition record_and_count (now : Z) (t : FrequencyTracker) (k : key) (window_secs : Z) :
    Z * FrequencyTracker :=
  let entry := default (mk_fentry [] now) (ft_events t !! k) in
  let d := pop_expired now (window_secs * NS) (fe_events entry) in
  let d := trim_front (max_deque_size t) (d ++ [now])%list in
  let m := <[k := mk_fentry d now]> (ft_events t) in
  let m := if Z.of_nat (size m) >? max_tracked_keys t
           then (evict_oldest_inner m (size m - Z.to_nat (max_tracked_keys t)) (Some k)).2 else m in
  (Z.of_nat (length d), mk_ftracker m (max_deque_size t) (max_tracked_keys t) (max_retention t)).

(** The [retain] of [cleanup]. *)
Definition retained (now retention : Z) (e : FrequencyEntry) : bool :=
  match last (fe_events e) with
  | None => false
  | Some newest => negb (Z.max 0 (now - newest) >? retention)
  end.

Definition frequency_cleanup (now : Z) (t : FrequencyTracker) : Z * FrequencyTracker :=
  let kept := filter (fun e => retained now (max_retention t) e.2 = true) (ft_events t) in
  let removed := Z.of_nat (size (ft_events t)) - Z.of_nat (size kept) in
  let '(more, m) :=
    if Z.of_nat (size kept) >? max_tracked_keys t
    then evict_oldest_inner kept (size kept - Z.to_nat (max_tracked_keys t)) None else (0, kept) in
  (removed + more, mk_ftracker m (max_deque_size t) (max_tracked_keys t) (max_retention t)).

(** ** matcher.rs *)

Record PlaybookMatcher : Type := mk_matcher {
  playbooks : list Playbook;
  whitelist : list string;                  (* admin_whitelist *)
  cooldowns : gmap key Z;
  frequency_tracker : FrequencyTracker;
  active_block_count : Z;
}.

Definition set_tracker (m : PlaybookMatcher) (t : FrequencyTracker) : PlaybookMatcher :=
  mk_matcher (playbooks m) (whitelist m) (cooldowns m) t (active_block_count m).
Definition set_cooldowns (m : PlaybookMatcher) (c : gmap key Z) : PlaybookMatcher :=
  mk_matcher (playbooks m) (whitelist m) c (frequency_tracker m) (active_block_count m).
Definition set_count (m : PlaybookMatcher) (c : Z) : PlaybookMatcher :=
  mk_matcher (playbooks m) (whitelist m) (cooldowns m) (frequency_tracker m) c.

Variable cfg : SoarConfig.

(** [PlaybookMatcher::new] *)
Definition new_matcher : PlaybookMatcher :=
  mk_matcher [] [] ∅
    (new_tracker (frequency_max_tracked_keys cfg) (frequency_max_events_per_key cfg)
       (frequency_retention_secs cfg)) 0.

Definition evaluate_single_condition (now : Z) (t : FrequencyTracker) (c : PlaybookCondition)
    (pb : Playbook) (event : ThreatDetectedEvent) : bool * FrequencyTracker :=
  if bool_decide (condition_type c = Frequency) then
    match parse_uint 64 (value c) with
    | None => (false, t)
    | Some required =>
        let window_secs := default (default_frequency_window_secs cfg)
          (let! s := value2 c else None in parse_uint 64 s) in
        let '(count, t) := record_and_count now t (pb_id pb, te_source_ip event) window_secs in
        (count >=? required, t)
    end
  else
    (met (evaluate_event_fields c event (default_single_source_high_min_confidence cfg)), t).

(** Conditions of the chosen kind in order, stopping at the first unmet one. *)
Fixpoint evaluate_pass (now : Z) (frequency : bool) (t : FrequencyTracker) (cs : list PlaybookCondition)
    (pb : Playbook) (event : ThreatDetectedEvent) : bool * FrequencyTracker :=
  match cs with
  | [] => (true, t)
  | c :: cs =>
      if Bool.eqb (bool_decide (condition_type c = Frequency)) frequency then
        let '(ok, t) := evaluate_single_condition now t c pb event in
        if ok then evaluate_pass now frequency t cs pb event else (false, t)
      else evaluate_pass now frequency t cs pb event
  end.

Definition evaluate_conditions (now : Z) (t : FrequencyTracker) (pb : Playbook)
    (event : ThreatDetectedEvent) : bool * FrequencyTracker :=
  let '(ok, t) := evaluate_pass now false t (pb_conditions pb) pb event in
  if ok then evaluate_pass now true t (pb_conditions pb) pb event else (false, t).

Fixpoint find_loop (now : Z) (t : FrequencyTracker) (pbs : list Playbook) (event : ThreatDetectedEvent) :
    list Playbook * FrequencyTracker :=
  match pbs with
  | [] => ([], t)
  | pb :: pbs =>
      if matches_trigger pb event then
        let '(ok, t) := evaluate_conditions now t pb event in
        let '(rest, t) := find_loop now t pbs event in
        (if ok then pb :: rest else rest, t)
      else find_loop now t pbs event
  end.

Definition find_matching_playbooks (now : Z) (m : PlaybookMatcher) (event : ThreatDetectedEvent) :
    list Playbook * PlaybookMatcher :=
  let '(l, t) := find_loop now (frequency_tracker m) (playbooks m) event in (l, set_tracker m t).

(** [elapsed()] never goes negative. *)
Definition elapsed (now last : Z) : Z := Z.max 0 (now - last).

Definition is_cooldown_active (now : Z) (m : PlaybookMatcher) (playbook_id : Z) (source_ip : string)
    (cooldown_secs : Z) : bool :=
  match cooldowns m !! (playbook_id, source_ip) with
  | Some last_exec => elapsed now last_exec / NS <? Z.max cooldown_secs 0
  | None => false
  end.

Definition record_cooldown (now : Z) (m : PlaybookMatcher) (playbook_id : Z) (source_ip : string) :
    PlaybookMatcher :=
  set_cooldowns m (<[(playbook_id, source_ip) := now]> (cooldowns m)).

(** The age at which [cleanup_expired_cooldowns] forgets a cooldown, seconds. *)
Definition cooldown_expiry_secs (m : PlaybookMatcher) : Z :=
  let max_cooldown_secs :=
    match map (fun p => Z.max (pb_cooldown_secs p) 0) (playbooks m) with
    | [] => default_cooldown_expiry_secs cfg
    | x :: l => fold_left Z.max l x
    end in
  Z.max (saturating_mul 64 max_cooldown_secs 2) (default_cooldown_expiry_secs cfg).

Definition cleanup_expired_cooldowns (now : Z) (m : PlaybookMatcher) : PlaybookMatcher :=
  let expiry := cooldown_expiry_secs m * NS in
  let m := set_cooldowns m (filter (fun e => elapsed now e.2 < expiry) (cooldowns m)) in
  set_tracker m (frequency_cleanup now (frequency_tracker m)).2.

(** One uncontended pass of the compare-and-swap loop. *)
Definition decrement_block_count (m : PlaybookMatcher) : PlaybookMatcher :=
  if active_block_count m =? 0 then m else set_count m (active_block_count m - 1).

(** ** Dry run *)

Record DryRunConditionResult : Type := mk_drc { dr_condition : PlaybookCondition; dr_met : bool; dr_note : detail }.

Record DryRunMatch : Type := mk_dry {
  dr_playbook_id : Z; dr_playbook_name : string; dr_enabled : bool; dr_trigger : CanonicalAttackType;
  trigger_matches : bool; has_frequency_condition : bool; would_fire : bool;
  dr_conditions : list DryRunConditionResult; dr_actions : list PlaybookAction }.

Definition simulate_condition (c : PlaybookCondition) (event : ThreatDetectedEvent) : DryRunConditionResult :=
  let r := evaluate_event_fields c event (default_single_source_high_min_confidence cfg) in
  mk_drc c (met r) (details r).

Definition simulate_playbook (pb : Playbook) (event : ThreatDetectedEvent) : DryRunMatch :=
  let conditions := map (fun c => simulate_condition c event) (pb_conditions pb) in
  mk_dry (pb_id pb) (pb_name pb) (pb_enabled pb) (pb_trigger pb)
    (match canonical_from_str (te_attack_type event) with
     | Some t => bool_decide (pb_trigger pb = t) | None => false end)
    (existsb (fun c => bool_decide (condition_type c = Frequency)) (pb_conditions pb))
    (matches_trigger pb event && forallb dr_met conditions)
    conditions (pb_actions pb).

Definition dry_run (m : PlaybookMatcher) (event : ThreatDetectedEvent) : list DryRunMatch :=
  map (fun pb => simulate_playbook pb event) (playbooks m).
End Frequency.

(** ** Frequency conditions count the events in the window *)

Section Window.
Context `{Sel : SelectNth} {SelL : SelectNthLaws Sel}.

(** An event time still inside the window at [now]. *)
Definition inside (now w t : Z) : Prop := now - t <= w.
#[local] Instance inside_dec (now w t : Z) : Decision (inside now w t).
Proof. unfold inside; apply _. Defined.

Lemma pop_expired_filter (now w : Z) (l : list Z) :
  0 <= w -> StronglySorted Z.le l -> pop_expired now w l = filter (inside now w) l.
Proof.
  intros Hw. induction 1 as [|t l Hs IH Hle]; [done|]. unfold pop_expired in *. simpl.
  rewrite filter_cons. unfold inside in *. destruct (Z.gtb_spec (Z.max 0 (now - t)) w).
  - rewrite decide_False by lia. apply IH.
  - rewrite decide_True by lia. f_equal. symmetry. rewrite filter_id; [done|].
    eapply Forall_impl; [exact Hle|]. intros x Hx. simpl in Hx. lia.
Qed.

Lemma sorted_drop (l : list Z) (i : nat) : StronglySorted Z.le l -> StronglySorted Z.le (drop i l).
Proof.
  intros Hs. revert i. induction Hs as [|t l Hs IH Hle]; intros [|i]; simpl; try constructor; auto.
Qed.

(** Popping from a suffix leaves what is in both. *)
Lemma inside_drop_length (now w : Z) (l : list Z) (i : nat) :
  0 <= w -> StronglySorted Z.le l ->
  length (filter (inside now w) (drop i l)) =
    Nat.min (length l - i) (length (filter (inside now w) l)).
Proof.
  intros Hw Hs. revert i. induction Hs as [|t l Hs IH Hle]; intros i; [by rewrite drop_nil|].
  destruct i as [|i].
  { rewrite drop_0, Nat.sub_0_r. pose proof (filter_length_le (inside now w) (t :: l)). lia. }
  cbn [drop]. rewrite IH, filter_cons. simpl length.
  case_decide as Hd; [|done]. simpl length.
  assert (filter (inside now w) l = l) as Hall; [|by rewrite Hall; lia].
  apply filter_id. eapply Forall_impl; [exact Hle|]. intros x Hx. unfold inside in *. simpl in Hx. lia.
Qed.

Definition deque_step (w max now : Z) (d : list Z) : list Z :=
  trim_front max (pop_expired now w d ++ [now]).

(** The deque is a suffix of all events, as long as the window allows. *)
Definition deque_inv (w max now : Z) (ts d : list Z) : Prop :=
  (exists i, d = drop i ts) /\
  length d = Nat.min (Z.to_nat max) (length (filter (inside now w) ts)).

Lemma deque_step_inv (w max last now : Z) (ts d : list Z) :
  0 <= w -> 1 <= max -> StronglySorted Z.le ts -> last <= now ->
  deque_inv w max last ts d -> deque_inv w max now (ts ++ [now]) (deque_step w max now d).
Proof.
  intros Hw Hmax Hs Hlast [[i Hd] Hlen]. unfold deque_step.
  rewrite pop_expired_filter by (rewrite ?Hd; auto using sorted_drop).
  assert (length (filter (inside now w) d) =
    Nat.min (Z.to_nat max) (length (filter (inside now w) ts))) as Hf.
  { rewrite Hd, inside_drop_length by done. rewrite Hd, length_drop in Hlen. rewrite Hlen.
    assert (length (filter (inside now w) ts) <= length (filter (inside last w) ts))%nat; [|lia].
    clear -Hlast. induction ts as [|t ts IH]; [done|]. rewrite !filter_cons. unfold inside in *.
    repeat case_decide; simpl; lia. }
  unfold deque_inv. rewrite filter_app, length_app, filter_cons, decide_True by (unfold inside; lia).
  rewrite filter_nil. cbn [length]. split.
  - assert (exists j, filter (inside now w) d = drop j ts) as [j Hj].
    { rewrite Hd, <- pop_expired_filter by auto using sorted_drop. clear.
      unfold pop_expired. generalize (drop_drop ts i). revert i.
      assert (forall (f : Z -> bool) l, exists j, drop_while f l = drop j l) as H.
      { intros f l. induction l as [|x l [j IH]]; [by exists 0%nat|]. simpl.
        destruct (f x); [by exists (S j)|by exists 0%nat]. }
      intros i Hdd. destruct (H (fun front => Z.max 0 (now - front) >? w) (drop i ts)) as [j ->].
      exists (i + j)%nat. apply drop_drop. }
    rewrite Hj. unfold trim_front.
    destruct (decide (j <= length ts)%nat).
    + eexists. rewrite <- (drop_app_le ts [now] j) by lia. rewrite drop_drop. done.
    + exists (length ts). rewrite (drop_ge ts j) by lia. simpl.
      rewrite drop_app_length. replace (1 - Z.to_nat max)%nat with 0%nat by lia. done.
  - unfold trim_front. rewrite length_drop, length_app, Hf. cbn [length]. lia.
Qed.

Lemma evict_keeps (m : gmap key FrequencyEntry) (n : nat) (k : key) :
  (evict_oldest_inner m n (Some k)).2 !! k = m !! k.
Proof.
  unfold evict_oldest_inner.
  set (entries := map _ _). set (chosen := take n _).
  assert (k ∉ map fst chosen) as Hk.
  { unfold chosen. intros Hin. apply list_elem_of_In, in_map_iff in Hin as ([k' x] & Hk & Hin).
    simpl in Hk. subst k'. assert (k ∉ map fst entries) as Hn.
    { unfold entries. intros Hin'. apply list_elem_of_In, in_map_iff in Hin' as ([k' y] & Hk & Hin').
      apply in_map_iff in Hin' as ([k'' e] & He & Hin'). simpl in *. injection He as -> <-. subst k'.
      apply list_elem_of_In, list_elem_of_filter in Hin' as [Hne _]. by simpl in Hne. }
    apply Hn, list_elem_of_In. apply list_elem_of_In, elem_of_take in Hin as (j & Hj & _).
    apply list_elem_of_lookup_2 in Hj.
    destruct (n <? length entries)%nat; [rewrite (select_perm n entries) in Hj|];
      apply list_elem_of_In in Hj; by apply (in_map fst) in Hj. }
  clearbody chosen. clear entries. generalize 0. revert m. induction chosen as [|[k' x] l IH]; intros m z; [done|].
  simpl in Hk. apply not_elem_of_cons in Hk as [Hne Hk]. simpl.
  case_bool_decide; rewrite IH by done; [by rewrite lookup_delete_ne by congruence|done].
Qed.

(** The record of one key after a call. *)
Lemma record_entry (now : Z) (t : FrequencyTracker) (k : key) (window_secs : Z) :
  let '(n, t') := record_and_count now t k window_secs in
  let d := deque_step (window_secs * NS) (max_deque_size t) now
             (fe_events (default (mk_fentry [] now) (ft_events t !! k))) in
  n = Z.of_nat (length d) /\ ft_events t' !! k = Some (mk_fentry d now) /\
  max_deque_size t' = max_deque_size t.
Proof.
  unfold record_and_count. cbn zeta. cbn [ft_events max_deque_size]. split_and!; [done| |done].
  fold (deque_step (window_secs * NS) (max_deque_size t) now
    (fe_events (default (mk_fentry [] now) (ft_events t !! k)))).
  destruct (_ >? _); [rewrite evict_keeps|]; by rewrite lookup_insert_eq.
Qed.

(** One key recorded at the given times; the count of the last call. *)
Fixpoint record_all (t : FrequencyTracker) (k : key) (window_secs : Z) (times : list Z) (n : Z) :
    Z * FrequencyTracker :=
  match times with
  | [] => (n, t)
  | now :: times => let '(n, t) := record_and_count now t k window_secs in record_all t k window_secs times n
  end.

Lemma record_all_inv (k : key) (window_secs max : Z) (times : list Z) (t : FrequencyTracker)
    (n last : Z) (ts : list Z) :
  0 <= window_secs -> 1 <= max -> max_deque_size t = max ->
  StronglySorted Z.le (ts ++ times) -> Forall (fun x => last <= x) times ->
  deque_inv (window_secs * NS) max last ts (fe_events (default (mk_fentry [] last) (ft_events t !! k))) ->
  match List.rev times with
  | [] => record_all t k window_secs times n = (n, t)
  | now :: _ => (record_all t k window_secs times n).1 =
      Z.min max (Z.of_nat (length (filter (inside now (window_secs * NS)) (ts ++ times)%list)))
  end.
Proof.
  intros Hw Hmax. revert t n last ts. induction times as [|now times IH]; intros t n last ts Ht Hs Hlast Hinv; [done|].
  apply Forall_cons in Hlast as [Hnow Hlast]. cbn [record_all].
  pose proof (record_entry now t k window_secs) as Hrec.
  destruct (record_and_count now t k window_secs) as [n1 t1]. destruct Hrec as (Hn1 & He1 & Hm1).
  assert (StronglySorted Z.le ts /\ Forall (fun x => now <= x) times) as [Hts Htimes].
  { split; [by eapply StronglySorted_app_1_l|].
    apply StronglySorted_app_1_r in Hs. by inversion Hs. }
  assert (deque_inv (window_secs * NS) max now (ts ++ [now])
    (deque_step (window_secs * NS) max now (fe_events (default (mk_fentry [] now) (ft_events t !! k))))) as Hinv1.
  { eapply deque_step_inv; [unfold NS; lia|done|done|exact Hnow|]. by destruct (ft_events t !! k). }
  rewrite Ht in He1, Hn1. specialize (IH t1 n1 now (ts ++ [now])%list).
  rewrite He1 in IH. rewrite <- app_assoc in IH. simpl in IH.
  specialize (IH ltac:(congruence) Hs Htimes Hinv1).
  simpl. destruct (List.rev times) as [|x l] eqn:Hrev; simpl.
  - apply (f_equal (@List.rev Z)) in Hrev. rewrite rev_involutive in Hrev. subst times. simpl in IH |- *.
    rewrite Hn1. destruct Hinv1 as [_ ->]. lia.
  - exact IH.
Qed.

(** a frequency condition counts the events of its playbook and source that
    lie in its window, up to the configured maximum, however often it was
    evaluated before (from the first event of the key on) *)
Theorem frequency_counts_window (t : FrequencyTracker) (k : key) (window_secs : Z)
    (times : list Z) (now n : Z) :
  0 <= window_secs -> 1 <= max_deque_size t -> ft_events t !! k = None ->
  StronglySorted Z.le (times ++ [now])%list ->
  (record_all t k window_secs (times ++ [now])%list n).1 =
    Z.min (max_deque_size t)
      (Z.of_nat (length (filter (fun x => now - x <= window_secs * NS) (times ++ [now])%list))).
Proof.
  intros Hw Hmax Hk Hs.
  destruct (times ++ [now])%list as [|t0 rest] eqn:Ht0; [by destruct times|].
  pose proof (record_all_inv k window_secs (max_deque_size t) (t0 :: rest) t n t0 [] Hw Hmax eq_refl Hs) as H.
  rewrite <- Ht0 in H at 2. rewrite rev_unit in H. simpl app in H. rewrite H; [done| |].
  - constructor; [lia|]. by inversion Hs.
  - rewrite Hk. simpl. split; [by exists 0%nat|]. simpl. lia.
Qed.
End Window.

Lemma frequency_counts_window_witness :
  (record_all (Sel := select_sorting) (new_tracker 2 3 60) (1, "10.0.0.1") 10
     [0; 5 * NS; 6 * NS; 7 * NS; 15 * NS; 100 * NS; 101 * NS] 0).1 = 2.
Proof.
  pose proof (frequency_counts_window (Sel := select_sorting) (new_tracker 2 3 60) (1, "10.0.0.1") 10
    [0; 5 * NS; 6 * NS; 7 * NS; 15 * NS; 100 * NS] (101 * NS) 0) as H.
  simpl app in H. rewrite H; [vm_compute; reflexivity|lia|simpl; lia|reflexivity|].
  repeat constructor; unfold NS; lia.
Defined.

(** ** Cooldowns survive the cleanup *)

Section Cooldown.
Context `{Sel : SelectNth}.
Variable cfg : SoarConfig.

Lemma fold_max_ge (l : list Z) (x : Z) : x <= fold_left Z.max l x.
Proof. revert x. induction l as [|y l IH]; intros x; simpl; [lia|]. specialize (IH (Z.max x y)). lia. Qed.

Lemma fold_max_in (l : list Z) (x y : Z) : y ∈ l -> y <= fold_left Z.max l x.
Proof.
  revert x. induction l as [|z l IH]; intros x; simpl; [by intros ?%not_elem_of_nil|].
  rewrite elem_of_cons. intros [->|Hy]; [|by apply IH]. pose proof (fold_max_ge l (Z.max x z)). lia.
Qed.

Lemma expiry_covers (m : PlaybookMatcher) (pb : Playbook) :
  pb ∈ playbooks m -> pb_cooldown_secs pb < pow2 63 ->
  Z.max (pb_cooldown_secs pb) 0 <= cooldown_expiry_secs cfg m.
Proof.
  intros Hin Hb. unfold cooldown_expiry_secs.
  assert (Z.max (pb_cooldown_secs pb) 0 ∈ map (fun p => Z.max (pb_cooldown_secs p) 0) (playbooks m)) as Hc
    by (by apply list_elem_of_In, (in_map (fun p => Z.max (pb_cooldown_secs p) 0)), list_elem_of_In).
  destruct (map _ _) as [|x l]; [by apply not_elem_of_nil in Hc|].
  assert (Z.max (pb_cooldown_secs pb) 0 <= fold_left Z.max l x) as Hle.
  { apply elem_of_cons in Hc as [->|Hc]; [apply fold_max_ge|by apply fold_max_in]. }
  unfold saturating_mul, umax, pow2 in *. lia.
Qed.

(** cleaning up never shortens the cooldown of a loaded playbook: whatever is
    active before the cleanup is active after it, and nothing becomes active *)
Theorem cleanup_keeps_cooldowns (m : PlaybookMatcher) (pb : Playbook) (ip : string) (now : Z) :
  pb ∈ playbooks m -> pb_cooldown_secs pb < pow2 63 ->
  is_cooldown_active now (cleanup_expired_cooldowns cfg now m) (pb_id pb) ip (pb_cooldown_secs pb) =
  is_cooldown_active now m (pb_id pb) ip (pb_cooldown_secs pb).
Proof.
  intros Hin Hb. pose proof (expiry_covers m pb Hin Hb) as He.
  unfold is_cooldown_active, cleanup_expired_cooldowns. cbn [set_tracker set_cooldowns cooldowns].
  destruct (cooldowns m !! (pb_id pb, ip)) as [last|] eqn:Hl.
  - destruct (decide (elapsed now last < cooldown_expiry_secs cfg m * NS)) as [Hlt|Hge].
    + by rewrite (map_lookup_filter_Some_2 _ _ _ _ Hl).
    + rewrite map_lookup_filter_None_2; [|right; intros x Hx; simplify_eq; done].
      symmetry. apply Z.ltb_ge. apply Z.div_le_lower_bound; [unfold NS; lia|]. unfold NS in *. lia.
  - by rewrite map_lookup_filter_None_2 by (by left).
Qed.

(** ** Dry run *)

Definition no_frequency (pb : Playbook) : bool :=
  negb (existsb (fun c => bool_decide (condition_type c = Frequency)) (pb_conditions pb)).

Lemma pass_no_frequency (now : Z) (b : bool) (t : FrequencyTracker) (cs : list PlaybookCondition)
    (pb : Playbook) (event : ThreatDetectedEvent) :
  existsb (fun c => bool_decide (condition_type c = Frequency)) cs = false ->
  evaluate_pass cfg now b t cs pb event =
    (b || forallb (fun c => met (evaluate_event_fields c event
             (default_single_source_high_min_confidence cfg))) cs, t).
Proof.
  induction cs as [|c cs IH]; simpl; [by rewrite orb_true_r|]. rewrite orb_false_iff. intros [Hc Hcs].
  rewrite Hc. specialize (IH Hcs). destruct b; simpl; [by rewrite IH|].
  unfold evaluate_single_condition. rewrite Hc.
  destruct (met (evaluate_event_fields c event (default_single_source_high_min_confidence cfg))); [by rewrite IH|done].
Qed.

Lemma find_loop_dry (now : Z) (t : FrequencyTracker) (pbs : list Playbook) (event : ThreatDetectedEvent) :
  forallb no_frequency pbs = true ->
  find_loop cfg now t pbs event =
    (List.filter (fun pb => would_fire (simulate_playbook cfg pb event)) pbs, t).
Proof.
  induction pbs as [|pb pbs IH]; [done|]. cbn [forallb find_loop List.filter].
  rewrite andb_true_iff. intros [Hnf Hpbs]. specialize (IH Hpbs).
  unfold no_frequency in Hnf. apply negb_true_iff in Hnf.
  assert (would_fire (simulate_playbook cfg pb event) =
    matches_trigger pb event && forallb (fun c => met (evaluate_event_fields c event
       (default_single_source_high_min_confidence cfg))) (pb_conditions pb)) as ->.
  { unfold simulate_playbook. cbn [would_fire]. f_equal.
    clear. induction (pb_conditions pb) as [|c cs IHc]; [done|]. cbn [map forallb]. rewrite IHc. reflexivity. }
  destruct (matches_trigger pb event); cbn [andb]; [|done].
  unfold evaluate_conditions. rewrite pass_no_frequency by done. cbn [orb].
  destruct (forallb _ (pb_conditions pb)); [rewrite pass_no_frequency by done; cbn [orb]|]; by rewrite IH.
Qed.

(** without frequency conditions the dry run predicts exactly the playbooks
    the engine selects, and selecting leaves the matcher unchanged; a playbook
    with a frequency condition is always predicted not to fire *)
Theorem dry_run_predicts (m : PlaybookMatcher) (event : ThreatDetectedEvent) (now : Z) :
  (forallb no_frequency (playbooks m) = true ->
   find_matching_playbooks cfg now m event =
     (List.filter (fun pb => would_fire (simulate_playbook cfg pb event)) (playbooks m), m)) /\
  (forall pb, no_frequency pb = false -> would_fire (simulate_playbook cfg pb event) = false).
Proof.
  split.
  - intros Hnf. unfold find_matching_playbooks. rewrite find_loop_dry by done. by destruct m.
  - intros pb Hf. unfold no_frequency in Hf. apply negb_false_iff in Hf.
    unfold simulate_playbook. cbn [would_fire]. apply andb_false_iff. right.
    apply existsb_exists in Hf as (c & Hin & Hc). apply bool_decide_eq_true in Hc.
    apply not_true_is_false. rewrite forallb_forall. intros Hall.
    specialize (Hall (simulate_condition cfg c event)).
    assert (dr_met (simulate_condition cfg c event) = false) as Hm.
    { unfold simulate_condition, evaluate_event_fields. cbn [dr_met]. rewrite Hc. by destruct (negb _). }
    rewrite Hall in Hm; [done|]. by apply (in_map (fun c => simulate_condition cfg c event)).
Qed.
End Cooldown.

(** The defaults of the settings macro, as far as the matcher reads them. *)
Definition default_soar_config : SoarConfig :=
  mk_soar_config 100 86400 16 5 1800 (f64_of_ratio 1 2) 600 10 60 (f32_of_ratio 95 100) 3600 64 50000 200 7200 300 100.

Definition sample_playbook : Playbook :=
  mk_playbook 1 "scan" true PortScan 60 [] [].

Lemma cleanup_keeps_cooldowns_witness :
  let m := mk_matcher [sample_playbook] [] {[(1, "10.0.0.1") := 0]}
             (new_tracker 10 10 60) 0 in
  is_cooldown_active (59 * NS) (cleanup_expired_cooldowns (Sel := select_sorting) default_soar_config
    (59 * NS) m) 1 "10.0.0.1" 60 = true.
Proof.
  intros m. refine (eq_trans (cleanup_keeps_cooldowns (Sel := select_sorting) default_soar_config m
    sample_playbook "10.0.0.1" (59 * NS) _ _) _); [by left|unfold pow2; simpl; lia|vm_compute; reflexivity].
Defined.

(** Finding: a fallback cooldown longer than the expiry derived from the playbooks is
    accepted by the configuration check, but forgotten by the cleanup before it
    has run out *)
Theorem fallback_cooldown_forgotten :
  exists cfg m now,
    soar_config_validate cfg = Ok tt /\
    is_cooldown_active now m (-1) "10.0.0.1" (fallback_cooldown_secs cfg) = true /\
    is_cooldown_active now (cleanup_expired_cooldowns (Sel := select_sorting) cfg now m) (-1) "10.0.0.1"
      (fallback_cooldown_secs cfg) = false.
Proof.
  exists (mk_soar_config 100 86400 16 5 1800 (f64_of_ratio 1 2) 600 10 60 (f32_of_ratio 95 100) 3600 64 50000 200
            7200 7200 100).
  exists (mk_matcher [sample_playbook] [] {[(-1, "10.0.0.1") := 0]} (new_tracker 10 10 60) 0).
  exists (3600 * NS). split_and!; vm_compute; reflexivity.
Qed.
