(* ===== verification/Soar.v ===== *)
(** * The response engine ([core/response/actions.rs], [engine/execution.rs],
    [engine/playbook.rs], [scheduler.rs], [playbook_service.rs])

    The engine's world: the tables, the kernel lists behind the blocking port,
    the matcher, the recorded executions and the rate-limit owner.  Every call
    that leaves the process takes one entry of [sw_faults]: [true] makes it
    fail before it has an effect, and an exhausted list means no failure.
    Handlers read their clocks once. *)

From Stdlib Require Import ZArith Lia List String.
From Corelib Require Import SpecFloat.
From stdpp Require Import base list gmap strings.
From S2P Require Import Prelude Abi PortRule RStr Float RateLimit IpAddr Tables Parsing Xdp AclMap Event Condition Matcher.

Local Open Scope string_scope.
Local Open Scope Z_scope.

Inductive soar_error : Type :=
  | Database
  | Acl (e : acl_error)
  | Rate (e : rl_error)
  | SoarActionFailed (action : string)
  | CapReached (cap : Z)
  | InvalidTtlNonPositive (ttl : Z)
  | InvalidTtl (ttl max : Z)
  | SoarTtlTooLarge (ttl : Z)
  | RateLimitUnavailable
  | InvalidRateLimitFactor (factor : float)
  | WebhookMissingParam (name : string)
  | WebhookHttpStatus (status : Z)
  | SoarInvalidIp (ip : string)
  | UnblockRuleNotFound (id : Z)
  | PendingUnblockQueueFailed (ip : string)
  | UnknownActionType | UnknownConditionType
  | InvalidConditionOperator (condition op : string).

(** The text an action reports. *)
Inductive action_message : Type :=
  | MonitorSkipped
  | BlockedFor (ip : string) (ttl : Z)
  | RateReply (r : reply)
  | TelegramSent | TelegramNotConfigured
  | EmailSent | NoRecipient | SmtpNotConfigured
  | WebhookSent (url : string) (status : Z)
  | LoggedAt (level : string).

(** Row of [soar_executions]. *)
Record Execution : Type := mk_exec {
  ex_playbook : Z; ex_ip : string; ex_trigger : string;
  ex_actions : list (ActionType * result soar_error action_message) }.

Record soar_world : Type := mk_sw {
  sw_tables : tables;
  sw_control : AccessControl;
  sw_matcher : PlaybookMatcher;
  sw_executions : list Execution;
  sw_rate : rl_world;
  sw_adjustment : option ActiveAdjustment;
  sw_faults : list bool;
}.

(** What a handler reads but does not change.  [date_max] is the last instant
    chrono represents, [webhook_status] the answer of the remote server. *)
Record Env : Type := mk_env {
  ev_cfg : SoarConfig;
  ev_enforce : bool;
  ev_now : Z;                      (* Instant, nanoseconds *)
  ev_utc : Z;                      (* Utc::now, seconds *)
  ev_date_max : Z;
  ev_rate_limit : bool;            (* a rate-limit owner exists *)
  ev_telegram : bool;
  ev_smtp : option string;         (* the sender's recipient *)
  ev_webhook_status : string -> Z;
}.

Definition soar (A : Type) : Type := sm soar_world soar_error A.

Definition set_tables (w : soar_world) (t : tables) : soar_world :=
  mk_sw t (sw_control w) (sw_matcher w) (sw_executions w) (sw_rate w) (sw_adjustment w) (sw_faults w).
Definition set_acs (w : soar_world) (ac : AccessControl) : soar_world :=
  mk_sw (sw_tables w) ac (sw_matcher w) (sw_executions w) (sw_rate w) (sw_adjustment w) (sw_faults w).
Definition set_matcher (w : soar_world) (m : PlaybookMatcher) : soar_world :=
  mk_sw (sw_tables w) (sw_control w) m (sw_executions w) (sw_rate w) (sw_adjustment w) (sw_faults w).
Definition set_executions (w : soar_world) (l : list Execution) : soar_world :=
  mk_sw (sw_tables w) (sw_control w) (sw_matcher w) l (sw_rate w) (sw_adjustment w) (sw_faults w).
Definition set_rate_state (w : soar_world) (r : rl_world) (a : option ActiveAdjustment) : soar_world :=
  mk_sw (sw_tables w) (sw_control w) (sw_matcher w) (sw_executions w) r a (sw_faults w).
Definition set_sw_faults (w : soar_world) (l : list bool) : soar_world :=
  mk_sw (sw_tables w) (sw_control w) (sw_matcher w) (sw_executions w) (sw_rate w) (sw_adjustment w) l.

(** One call that leaves the process. *)
Definition outside (e : soar_error) : soar unit := fun w =>
  match sw_faults w with
  | f :: fs => (if f then Err e else Ok tt, set_sw_faults w fs)
  | [] => (Ok tt, w)
  end.

Definition db_read {A} (f : tables -> A) : soar A :=
  run! outside Database in do! w := sm_get in sm_ret (f (sw_tables w)).
Definition db_write (f : tables -> tables) : soar unit :=
  run! outside Database in sm_modify (fun w => set_tables w (f (sw_tables w))).
Definition on_matcher (f : PlaybookMatcher -> PlaybookMatcher) : soar unit :=
  sm_modify (fun w => set_matcher w (f (sw_matcher w))).

Definition insert_soar_execution (e : Execution) : soar unit :=
  run! outside Database in sm_modify (fun w => set_executions w (sw_executions w ++ [e])%list).

(** The port calls of [block_ip_blocking] and [unblock_ip_blocking]; a panic of
    the blocking task is a join error. *)
Definition block_ip_blocking (ip : string) : soar unit :=
  run! outside (SoarActionFailed "block_ip") in
  fun w => let '(r, ac) := block_ip (sw_control w) ip in
           (match r with Ok _ => Ok tt | Err e => Err (Acl e) end, set_acs w ac).

Definition unblock_ip_blocking (ip : string) : soar unit :=
  run! outside (SoarActionFailed "unblock_ip") in
  fun w => match unblock_ip (sw_control w) ip with
           | Some (r, ac) => (match r with Ok _ => Ok tt | Err e => Err (Acl e) end, set_acs w ac)
           | None => (Err (SoarActionFailed "unblock_ip"), w)
           end.

(** ** actions.rs *)

Definition FALLBACK_PLAYBOOK_ID : Z := -1.

(** [ChronoDuration::try_seconds]: at most [i64::MAX] milliseconds. *)
Definition try_seconds (s : Z) : option Z :=
  if (s <? pow2 63) && (s <=? (pow2 63 - 1) / 1000) then Some s else None.

Definition validate_action_ttl (env : Env) (ttl_secs max_ttl : Z) : result soar_error unit :=
  if ttl_secs =? 0 then Err (InvalidTtlNonPositive ttl_secs)
  else if ttl_secs >? max_ttl then Err (InvalidTtl ttl_secs max_ttl)
  else
    let! _ := try_seconds ttl_secs else Err (SoarTtlTooLarge ttl_secs) in
    let! _ := checked_add_secs (ev_now env) ttl_secs else Err (SoarTtlTooLarge ttl_secs) in
    Ok tt.

Definition block_expiry_string (env : Env) (ttl_secs : Z) : result soar_error Z :=
  let! ttl := try_seconds ttl_secs else Err (SoarTtlTooLarge ttl_secs) in
  if ev_utc env + ttl <=? ev_date_max env then Ok (ev_utc env + ttl) else Err (SoarTtlTooLarge ttl_secs).

(** The compare-and-swap loop without contention; see [Cap] for the contended one. *)
Definition reserve_block (max_cap : Z) : soar unit := fun w =>
  let current_count := active_block_count (sw_matcher w) in
  if current_count >=? max_cap then (Err (CapReached max_cap), w)
  else (Ok tt, set_matcher w (set_count (sw_matcher w) (current_count + 1))).

Definition soar_ip_version (ip : string) : result soar_error IpVersion :=
  match ip_version_from_str ip with Ok v => Ok v | Err ip => Err (SoarInvalidIp ip) end.

(** What follows a failed commit: unblock, or queue the unblock. *)
Definition rollback_block (ip : string) : soar unit :=
  do! unblock_outcome := sm_try (unblock_ip_blocking ip) in
  match unblock_outcome with
  | Ok _ => sm_ret tt
  | Err _ => do! _ := sm_try (db_write (fun t => insert_pending_unblock t ip)) in sm_ret tt
  end.

Definition action_block_ip (env : Env) (action : PlaybookAction) (event : ThreatDetectedEvent)
    (playbook_id : Z) : soar action_message :=
  let ttl_secs := default (default_block_ttl_secs (ev_cfg env)) (ttl_secs (params action)) in
  let ip := te_source_ip event in
  run! sm_lift (validate_action_ttl env ttl_secs (max_ttl_secs (ev_cfg env))) in
  run! reserve_block (max_auto_block_cap (ev_cfg env)) in
  do! blocked := sm_try (block_ip_blocking ip) in
  match blocked with
  | Err e => run! on_matcher decrement_block_count in sm_fail e
  | Ok _ =>
      do! expires := sm_lift (block_expiry_string env ttl_secs) in
      do! version := sm_lift (soar_ip_version ip) in
      do! commit_result := sm_try (db_write (fun t =>
        commit_soar_block_to_db (ev_utc env) t ip version playbook_id expires)) in
      match commit_result with
      | Ok _ => sm_ret (BlockedFor ip ttl_secs)
      | Err e =>
          run! rollback_block ip in
          run! on_matcher decrement_block_count in
          sm_fail e
      end
  end.

(** One command to the rate-limit owner and its reply. *)
Definition rate_limit_owner (now : Z) (cmd : RateLimitCmd) : soar reply := fun w =>
  let '(r, a, rw) := run_cmd now cmd (sw_adjustment w) (sw_rate w) in
  (match r with Ok m => Ok m | Err e => Err (Rate e) end, set_rate_state w rw a).

Definition action_adjust_rate_limit (env : Env) (action : PlaybookAction) : soar action_message :=
  if negb (ev_rate_limit env) then sm_fail RateLimitUnavailable
  else
    let factor := default (default_rate_limit_factor (ev_cfg env)) (factor (params action)) in
    let ttl_secs := default (default_rate_limit_ttl_secs (ev_cfg env)) (ttl_secs (params action)) in
    if negb (factor_in_range factor) then sm_fail (InvalidRateLimitFactor factor)
    else
      run! sm_lift (validate_action_ttl env ttl_secs (max_ttl_secs (ev_cfg env))) in
      do! r := rate_limit_owner (ev_now env) (Adjust factor ttl_secs) in
      sm_ret (RateReply r).

Definition action_send_telegram (env : Env) : soar action_message :=
  if ev_telegram env then run! outside (SoarActionFailed "send_telegram") in sm_ret TelegramSent
  else sm_ret TelegramNotConfigured.

Definition action_send_email (env : Env) : soar action_message :=
  run! outside (SoarActionFailed "build_smtp_sender") in
  match ev_smtp env with
  | Some recipient =>
      if String.eqb recipient "" then sm_ret NoRecipient
      else run! outside (SoarActionFailed "send_email") in sm_ret EmailSent
  | None => sm_ret SmtpNotConfigured
  end.

Definition action_webhook (env : Env) (action : PlaybookAction) : soar action_message :=
  let! url := url (params action) else sm_fail (WebhookMissingParam "url") in
  run! outside (SoarActionFailed "webhook") in
  let status := ev_webhook_status env url in
  if (200 <=? status) && (status <? 300) then sm_ret (WebhookSent url status)
  else sm_fail (WebhookHttpStatus status).

Definition action_log (action : PlaybookAction) : soar action_message :=
  sm_ret (LoggedAt (default "warn" (level (params action)))).

Definition execute_action (env : Env) (action : PlaybookAction) (event : ThreatDetectedEvent)
    (playbook_id : Z) : soar action_message :=
  match action_type action with
  | BlockIp =>
      if negb (ev_enforce env) then sm_ret MonitorSkipped else action_block_ip env action event playbook_id
  | AdjustRateLimit =>
      if negb (ev_enforce env) then sm_ret MonitorSkipped else action_adjust_rate_limit env action
  | SendTelegram => action_send_telegram env
  | SendEmail => action_send_email env
  | Webhook => action_webhook env action
  | Log => action_log action
  end.

(** The loop of [execute_playbook]: every action runs, each result is kept. *)
Fixpoint execute_actions (env : Env) (actions : list PlaybookAction) (event : ThreatDetectedEvent)
    (playbook_id : Z) : soar (list (ActionType * result soar_error action_message)) :=
  match actions with
  | [] => sm_ret []
  | a :: actions =>
      do! r := sm_try (execute_action env a event playbook_id) in
      do! rest := execute_actions env actions event playbook_id in
      sm_ret ((action_type a, r) :: rest)
  end.

Definition is_whitelisted_source (m : PlaybookMatcher) (ip : string) : bool :=
  bool_decide (ip ∈ whitelist m).

Definition execute_playbook (env : Env) (playbook : Playbook) (event : ThreatDetectedEvent) : soar unit :=
  let ip := te_source_ip event in
  do! w := sm_get in
  if is_cooldown_active (ev_now env) (sw_matcher w) (pb_id playbook) ip (pb_cooldown_secs playbook)
  then sm_ret tt
  else if is_whitelisted_source (sw_matcher w) ip then sm_ret tt
  else
    do! action_results := execute_actions env (pb_actions playbook) event (pb_id playbook) in
    run! on_matcher (fun m => record_cooldown (ev_now env) m (pb_id playbook) ip) in
    insert_soar_execution (mk_exec (pb_id playbook) ip (te_attack_type event) action_results).

Inductive FallbackOutcome : Type := Blocked | BlockFailed | WhitelistSkipped | CooldownSkipped.

Definition fallback_action (cfg : SoarConfig) : PlaybookAction :=
  mk_action 1 BlockIp (mk_params (Some (default_block_ttl_secs cfg)) None None None None).

Definition execute_fallback (env : Env) (event : ThreatDetectedEvent) : soar FallbackOutcome :=
  let ip := te_source_ip event in
  do! w := sm_get in
  if is_whitelisted_source (sw_matcher w) ip then sm_ret WhitelistSkipped
  else if is_cooldown_active (ev_now env) (sw_matcher w) FALLBACK_PLAYBOOK_ID ip
            (fallback_cooldown_secs (ev_cfg env)) then sm_ret CooldownSkipped
  else
    do! block_result := sm_try (execute_action env (fallback_action (ev_cfg env)) event FALLBACK_PLAYBOOK_ID) in
    do! outcome :=
      (if is_ok block_result
       then run! on_matcher (fun m => record_cooldown (ev_now env) m FALLBACK_PLAYBOOK_ID ip) in sm_ret Blocked
       else sm_ret BlockFailed) in
    run! insert_soar_execution (mk_exec FALLBACK_PLAYBOOK_ID ip (te_attack_type event) [(BlockIp, block_result)]) in
    sm_ret outcome.

(** ** engine/execution.rs *)

Inductive ThreatHandleOutcome : Type :=
  | PlaybooksExecuted (count errors : nat)
  | Fallback (outcome : FallbackOutcome)
  | NoSourceIp.

Fixpoint execute_playbooks (env : Env) (l : list Playbook) (event : ThreatDetectedEvent) (errors : nat) :
    soar nat :=
  match l with
  | [] => sm_ret errors
  | pb :: l =>
      do! r := sm_try (execute_playbook env pb event) in
      execute_playbooks env l event (if is_ok r then errors else S errors)
  end.

Section Engine.
Context `{Sel : SelectNth}.

Definition find_matching (env : Env) (event : ThreatDetectedEvent) : soar (list Playbook) := fun w =>
  let '(l, m) := find_matching_playbooks (ev_cfg env) (ev_now env) (sw_matcher w) event in
  (Ok l, set_matcher w m).

Definition handle_threat_event (env : Env) (event : ThreatDetectedEvent) : soar ThreatHandleOutcome :=
  do! matching := find_matching env event in
  match matching with
  | [] =>
      if String.eqb (te_source_ip event) "" then sm_ret NoSourceIp
      else do! outcome := execute_fallback env event in sm_ret (Fallback outcome)
  | _ =>
      do! errors := execute_playbooks env matching event 0 in
      sm_ret (PlaybooksExecuted (length matching) errors)
  end.

(** One entry of [retry_pending_unblocks]; failed bookkeeping is logged. *)
Definition retry_pending (env : Env) (pu : PendingUnblock) : soar unit :=
  match pu_exhausted pu with
  | Some _ => sm_ret tt
  | None =>
      if pu_retry pu >=? max_pending_unblock_retries (ev_cfg env) then
        do! _ := sm_try (db_write (fun t =>
          mark_pending_unblock_exhausted (ev_utc env) t (pu_id pu) "max retries exceeded")) in sm_ret tt
      else
        do! r := sm_try (unblock_ip_blocking (pu_ip pu)) in
        match r with
        | Ok _ => do! _ := sm_try (db_write (fun t => delete_pending_unblock t (pu_id pu))) in sm_ret tt
        | Err _ => do! _ := sm_try (db_write (fun t => increment_pending_unblock_retry t (pu_id pu))) in sm_ret tt
        end
  end.

Definition retry_pending_unblocks (env : Env) : soar unit :=
  do! pending := sm_try (db_read list_pending_unblocks) in
  match pending with
  | Err _ => sm_ret tt
  | Ok pending => sm_iter (retry_pending env) pending
  end.

Definition recover_block (b : SoarBlock) : soar unit :=
  do! _ := sm_try (block_ip_blocking (sb_ip b)) in sm_ret tt.

Definition recover_active_blocks (env : Env) : soar unit :=
  run! retry_pending_unblocks env in
  do! active_blocks := db_read (list_active_soar_blocks (ev_utc env)) in
  sm_iter recover_block active_blocks.

Definition check_rate_limit_restoration (env : Env) : soar (option reply) :=
  if ev_rate_limit env then
    do! r := rate_limit_owner (ev_now env) RestoreIfExpired in sm_ret (Some r)
  else sm_ret None.

(** ** engine/playbook.rs *)

Record ActionView : Type := mk_action_view { av_order : Z; av_type : string; av_params : PlaybookActionParams }.

(** A row of the playbook tables; [av_params] is [parse_action_params] of the
    stored JSON. *)
Record PlaybookView : Type := mk_playbook_view {
  pv_id : Z; pv_name : string; pv_enabled : bool; pv_trigger : string; pv_cooldown_secs : Z;
  pv_actions : list ActionView; pv_conditions : list CreateConditionInput }.

Fixpoint load_actions (l : list ActionView) : result soar_error (list PlaybookAction) :=
  match l with
  | [] => Ok []
  | a :: l =>
      let! t := action_from_str (av_type a) else Err UnknownActionType in
      let? rest := load_actions l in
      Ok (mk_action (av_order a) t (av_params a) :: rest)
  end.

Fixpoint load_conditions (l : list CreateConditionInput) : result soar_error (list PlaybookCondition) :=
  match l with
  | [] => Ok []
  | c :: l =>
      let! ctype := condition_from_str (in_condition_type c) else Err UnknownConditionType in
      if negb (is_valid_operator ctype (in_operator c))
      then Err (InvalidConditionOperator (in_condition_type c) (in_operator c))
      else
        let? rest := load_conditions l in
        Ok (mk_condition ctype (in_operator c) (in_value c) (in_value2 c) :: rest)
  end.

Fixpoint load_playbooks (views : list PlaybookView) : result soar_error (list Playbook) :=
  match views with
  | [] => Ok []
  | view :: views =>
      let? actions := load_actions (pv_actions view) in
      let? conditions := load_conditions (pv_conditions view) in
      match canonical_from_str (pv_trigger view) with
      | None => load_playbooks views
      | Some t =>
          let? rest := load_playbooks views in
          Ok (mk_playbook (pv_id view) (pv_name view) (pv_enabled view) t (pv_cooldown_secs view)
                actions conditions :: rest)
      end
  end.

(** [reload_cache]; [views] is what [list_playbooks] returns. *)
Definition reload_cache (env : Env) (views : list PlaybookView) : soar unit :=
  run! outside Database in
  do! playbooks := sm_lift (load_playbooks views) in
  run! on_matcher (fun m => mk_matcher playbooks (whitelist m) (cooldowns m) (frequency_tracker m)
                              (active_block_count m)) in
  do! wl := db_read admin_whitelist in
  run! on_matcher (fun m => mk_matcher (Matcher.playbooks m) wl (cooldowns m) (frequency_tracker m)
                              (active_block_count m)) in
  do! count := db_read (count_active_soar_blocks (ev_utc env)) in
  on_matcher (fun m => set_count m count).

(** ** scheduler.rs *)

(** [commit_soar_unblock_to_db] through the port. *)
Definition commit_unblock (env : Env) (id : Z) (version : IpVersion) (ip : string) : soar unit :=
  run! outside Database in
  fun w => match commit_soar_unblock_to_db (ev_utc env) (sw_tables w) id version ip with
           | Some t => (Ok tt, set_tables w t)
           | None => (Err Database, w)
           end.

(** The loop over the expired rows; the addresses whose row was closed. *)
Fixpoint sweep_blocks (env : Env) (expired : list SoarBlock) (committed_unblocks : list string) :
    soar (list string) :=
  match expired with
  | [] => sm_ret committed_unblocks
  | block :: expired =>
      do! has_manual_rule := db_read (fun t => has_manual_acl_rule t (sb_ip block)) in
      if (has_manual_rule : bool) then
        run! db_write (fun t => mark_soar_block_unblocked (ev_utc env) t (sb_id block)) in
        run! on_matcher decrement_block_count in
        sweep_blocks env expired committed_unblocks
      else
        do! version := sm_lift (soar_ip_version (sb_ip block)) in
        run! commit_unblock env (sb_id block) version (sb_ip block) in
        run! on_matcher decrement_block_count in
        sweep_blocks env expired (committed_unblocks ++ [sb_ip block])%list
  end.

(** [unblock_committed_blocks]: completions in list order; the counts of
    removed and skipped addresses. *)
Fixpoint unblock_committed_blocks (source_ips : list string) (removed skipped : nat) : soar (nat * nat) :=
  match source_ips with
  | [] => sm_ret (removed, skipped)
  | ip :: source_ips =>
      do! r := sm_try (unblock_ip_blocking ip) in
      match r with
      | Err _ =>
          run! db_write (fun t => insert_pending_unblock t ip) in
          unblock_committed_blocks source_ips removed (S skipped)
      | Ok _ => unblock_committed_blocks source_ips (S removed) skipped
      end
  end.

Definition sweep (env : Env) : soar unit :=
  do! _ := sm_try (check_rate_limit_restoration env) in
  run! on_matcher (cleanup_expired_cooldowns (ev_cfg env) (ev_now env)) in
  do! expired := db_read (list_expired_soar_blocks (ev_utc env)) in
  match expired with
  | [] => sm_ret tt
  | _ =>
      do! committed_unblocks := sweep_blocks env expired [] in
      do! _ := unblock_committed_blocks committed_unblocks 0 0 in
      sm_ret tt
  end.

(** ** playbook_service.rs *)

Definition manual_unblock (env : Env) (id : Z) : soar unit :=
  do! found := db_read (fun t => find_soar_block_by_id t id) in
  let! block := found else sm_fail (UnblockRuleNotFound id) in
  let source_ip := sb_ip block in
  do! has_manual_rule := db_read (fun t => has_manual_acl_rule t source_ip) in
  do! version := sm_lift (soar_ip_version source_ip) in
  run! commit_unblock env id version source_ip in
  run! on_matcher decrement_block_count in
  if (has_manual_rule : bool) then sm_ret tt
  else
    do! r := sm_try (unblock_ip_blocking source_ip) in
    match r with
    | Ok _ => sm_ret tt
    | Err e =>
        do! queued := sm_try (db_write (fun t => insert_pending_unblock t source_ip)) in
        match queued with
        | Ok _ => sm_fail e
        | Err _ => sm_fail (PendingUnblockQueueFailed source_ip)
        end
    end.

Definition normalize_admin_whitelist_ip (ip : string) : result soar_error string :=
  match parse_ip (trim ip) with
  | Some a => Ok (print_ip a)
  | None => Err (SoarInvalidIp ip)
  end.

Definition add_whitelist (env : Env) (views : list PlaybookView) (ip : string) : soar unit :=
  do! ip := sm_lift (normalize_admin_whitelist_ip ip) in
  run! db_write (fun t => insert_admin_whitelist t ip) in
  reload_cache env views.

Definition remove_whitelist (env : Env) (views : list PlaybookView) (ip : string) : soar unit :=
  do! ip := sm_lift (normalize_admin_whitelist_ip ip) in
  run! db_write (fun t => delete_admin_whitelist t ip) in
  reload_cache env views.
End Engine.

(** ** Relations between worlds *)

(** Nothing that blocks or limits traffic differs, nor its bookkeeping. *)
Definition same_enforcement (w w' : soar_world) : Prop :=
  sw_control w' = sw_control w /\ sw_tables w' = sw_tables w /\
  sw_rate w' = sw_rate w /\ sw_adjustment w' = sw_adjustment w /\
  active_block_count (sw_matcher w') = active_block_count (sw_matcher w) /\
  whitelist (sw_matcher w') = whitelist (sw_matcher w).

#[export] Instance same_enforcement_preorder : PreOrder same_enforcement.
Proof. split; [intros w; by split_and!|]. unfold same_enforcement. intros x y z. intuition congruence. Qed.

Lemma outside_enforcement (e : soar_error) : keeps same_enforcement (outside e).
Proof. intros w. unfold outside. destruct (sw_faults w) as [|[] fs]; by split_and!. Qed.

Lemma insert_execution_enforcement (x : Execution) : keeps same_enforcement (insert_soar_execution x).
Proof. apply keeps_bind; [apply _|apply outside_enforcement|]. intros _ w. by split_and!. Qed.

Lemma record_cooldown_enforcement (now id : Z) (ip : string) :
  keeps same_enforcement (on_matcher (fun m => record_cooldown now m id ip)).
Proof. apply keeps_modify. by intros w; split_and!. Qed.

#[export] Hint Resolve outside_enforcement insert_execution_enforcement record_cooldown_enforcement : keeps.

Lemma find_matching_enforcement `{Sel : SelectNth} (env : Env) (event : ThreatDetectedEvent) :
  keeps same_enforcement (find_matching env event).
Proof.
  intros w. unfold find_matching, find_matching_playbooks. by destruct (find_loop _ _ _ _ _); split_and!.
Qed.
#[export] Hint Resolve find_matching_enforcement : keeps.

Section Monitor.
Context `{Sel : SelectNth}.
Variable env : Env.
Hypothesis monitor : ev_enforce env = false.

Lemma monitor_action (a : PlaybookAction) (event : ThreatDetectedEvent) (id : Z) :
  keeps same_enforcement (execute_action env a event id).
Proof.
  unfold execute_action, action_send_telegram, action_send_email, action_webhook, action_log.
  rewrite monitor. cbn [negb]. keeps_tac.
Qed.

Lemma monitor_actions (l : list PlaybookAction) (event : ThreatDetectedEvent) (id : Z) :
  keeps same_enforcement (execute_actions env l event id).
Proof.
  induction l as [|a l IH]; cbn [execute_actions]; keeps_tac. apply monitor_action.
Qed.

Lemma monitor_playbook (pb : Playbook) (event : ThreatDetectedEvent) :
  keeps same_enforcement (execute_playbook env pb event).
Proof. unfold execute_playbook. keeps_tac. apply monitor_actions. Qed.

Lemma monitor_playbooks (l : list Playbook) (event : ThreatDetectedEvent) (n : nat) :
  keeps same_enforcement (execute_playbooks env l event n).
Proof.
  revert n. induction l as [|pb l IH]; intros n; cbn [execute_playbooks]; keeps_tac.
  apply monitor_playbook.
Qed.

Lemma monitor_handle (event : ThreatDetectedEvent) : keeps same_enforcement (handle_threat_event env event).
Proof.
  unfold handle_threat_event, execute_fallback. keeps_tac; try apply monitor_action; apply monitor_playbooks.
Qed.
End Monitor.

(** C7: outside enforce mode no threat event changes a kernel list, a rate limit,
    a table, the whitelist or the block count, whatever playbooks match and
    whatever fails *)
Theorem monitor_mode_never_enforces `{Sel : SelectNth} (env : Env) (event : ThreatDetectedEvent)
    (w : soar_world) :
  ev_enforce env = false -> same_enforcement w (handle_threat_event env event w).2.
Proof. intros Hm. by apply monitor_handle. Qed.

(** ** The whitelist *)

Section Whitelist.
Context `{Sel : SelectNth}.

Lemma whitelisted_playbook (env : Env) (pb : Playbook) (event : ThreatDetectedEvent) (w : soar_world) :
  te_source_ip event ∈ whitelist (sw_matcher w) -> execute_playbook env pb event w = (Ok tt, w).
Proof.
  intros Hin. unfold execute_playbook, sm_bind, sm_get, is_whitelisted_source.
  rewrite bool_decide_eq_true_2 by done. by destruct (is_cooldown_active _ _ _ _ _).
Qed.

Lemma whitelisted_playbooks (env : Env) (l : list Playbook) (event : ThreatDetectedEvent) (n : nat)
    (w : soar_world) :
  te_source_ip event ∈ whitelist (sw_matcher w) -> execute_playbooks env l event n w = (Ok n, w).
Proof.
  intros Hin. revert n. induction l as [|pb l IH]; intros n; [done|]. cbn [execute_playbooks].
  unfold sm_bind at 1, sm_try at 1. rewrite whitelisted_playbook by done. apply IH.
Qed.

(** an event whose source is whitelisted changes nothing but the history of
    frequency conditions: no action runs, no cooldown starts, nothing is
    recorded, and the event is not an error *)
Theorem whitelisted_source_untouched (env : Env) (event : ThreatDetectedEvent) (w : soar_world) :
  te_source_ip event ∈ whitelist (sw_matcher w) ->
  exists outcome t,
    handle_threat_event env event w =
      (Ok outcome, set_matcher w (set_tracker (sw_matcher w) t)) /\
    (outcome = NoSourceIp \/ outcome = Fallback WhitelistSkipped \/
     exists n, outcome = PlaybooksExecuted n 0).
Proof.
  intros Hin. unfold handle_threat_event, find_matching, find_matching_playbooks. unfold sm_bind at 1.
  destruct (find_loop _ _ _ _ _) as [l t].
  set (w1 := set_matcher w (set_tracker (sw_matcher w) t)).
  assert (te_source_ip event ∈ whitelist (sw_matcher w1)) as Hin1 by done.
  destruct l as [|pb l].
  - destruct (String.eqb _ ""); [exists NoSourceIp, t; auto|].
    exists (Fallback WhitelistSkipped), t. split; [|auto].
    unfold sm_bind, execute_fallback, sm_bind, sm_get, is_whitelisted_source.
    by rewrite bool_decide_eq_true_2 by done.
  - exists (PlaybooksExecuted (length (pb :: l)) 0), t. split; [|eauto].
    unfold sm_bind. by rewrite whitelisted_playbooks.
Qed.
End Whitelist.

(** ** The block action *)

(** At most one of the coming calls fails. *)
Definition one_fault (w : soar_world) : Prop :=
  (length (List.filter id (sw_faults w)) <= 1)%nat.

Lemma outside_cases (e : soar_error) (w : soar_world) :
  exists fs, (outside e w = (Ok tt, set_sw_faults w fs) /\ (one_fault w -> one_fault (set_sw_faults w fs))) \/
    (outside e w = (Err e, set_sw_faults w fs) /\
     (one_fault w -> Forall (fun f => f = false) fs)).
Proof.
  unfold outside, one_fault. destruct w as [t ac m x r a [|[] fs]]; cbn.
  - exists []. left. split; [done|simpl; lia].
  - exists fs. right. split; [done|]. intros H.
    induction fs as [|[] fs IH]; constructor; simpl in *; try lia; auto.
  - exists fs. left. split; [done|simpl; lia].
Qed.

Lemma outside_calm (e : soar_error) (w : soar_world) :
  Forall (fun f => f = false) (sw_faults w) ->
  exists fs, outside e w = (Ok tt, set_sw_faults w fs) /\ Forall (fun f => f = false) fs.
Proof.
  intros Hc. unfold outside. destruct w as [t ac m x r a fs0]. simpl in *.
  destruct Hc as [|f fs -> Hc]; [by exists []|by exists fs].
Qed.

(** The list entry of an address. *)
Definition blocked_entry (ac : AccessControl) (a : IpAddr) : option PortRule :=
  match a with
  | Ip4 b => let! m := ipv4_src_blacklist ac else None in m !! to_be 4 b
  | Ip6 b => let! m := ipv6_src_blacklist ac else None in m !! to_be 16 b
  end.

Lemma block_ip_cases (ac : AccessControl) (ip : string) :
  (exists e, block_ip ac ip = (Err e, ac)) \/
  (exists a ac', block_ip ac ip = (Ok tt, ac') /\ parse_ip ip = Some a /\
     blocked_entry ac' a = Some new_match_all /\
     (blocked_entry ac a = None -> unblock_ip ac' ip = Some (Ok tt, ac))).
Proof.
  unfold block_ip, unblock_ip, add_ipv4_list, add_ipv6_list, remove_ipv4_list, remove_ipv6_list, add, remove.
  destruct (parse_ip ip) as [[b|b]|]; [| |by left; eexists]; cbn [ipv4_list ipv6_list Z.eqb].
  - unfold map_insert, map_remove. destruct ac as [[?|] [m|] ? ? ? ? ? ?];
      cbn [ipv4_src_blacklist set_ipv4_list]; try (left; eexists; reflexivity);
    (destruct (_ && _); [left; eexists; reflexivity|]); right; exists (Ip4 b); eexists;
      (split; [reflexivity|]); (split; [done|]); cbn;
      (split; [by rewrite lookup_insert_eq|]); intros Hn; rewrite lookup_insert_eq;
      by rewrite delete_insert_eq, delete_id.
  - unfold map_insert, map_remove. destruct ac as [? ? ? ? ? [m|] ? ?];
      cbn [ipv6_src_blacklist set_ipv6_list]; try (left; eexists; reflexivity);
    (destruct (_ && _); [left; eexists; reflexivity|]); right; exists (Ip6 b); eexists;
      (split; [reflexivity|]); (split; [done|]); cbn;
      (split; [by rewrite lookup_insert_eq|]); intros Hn; rewrite lookup_insert_eq;
      by rewrite delete_insert_eq, delete_id.
Qed.

Lemma parsed_version (ip : string) (a : IpAddr) :
  parse_ip ip = Some a -> exists v, soar_ip_version ip = Ok v.
Proof. unfold soar_ip_version, ip_version_from_str. intros ->. destruct a; eauto. Qed.

Lemma decrement_reserved (m : PlaybookMatcher) :
  0 <= active_block_count m -> decrement_block_count (set_count m (active_block_count m + 1)) = m.
Proof.
  intros H. unfold decrement_block_count. cbn [set_count active_block_count].
  destruct (Z.eqb_spec (active_block_count m + 1) 0); [lia|].
  destruct m. unfold set_count. cbn. f_equal. lia.
Qed.

(** The instants of a block stay in chrono's range. *)
Definition expiry_fits (env : Env) : Prop :=
  ev_utc env + max_ttl_secs (ev_cfg env) <= ev_date_max env.

Lemma valid_ttl_expires (env : Env) (ttl : Z) :
  expiry_fits env -> validate_action_ttl env ttl (max_ttl_secs (ev_cfg env)) = Ok tt ->
  block_expiry_string env ttl = Ok (ev_utc env + ttl).
Proof.
  unfold expiry_fits, validate_action_ttl, block_expiry_string. intros Hfit.
  destruct (_ =? 0); [done|]. destruct (Z.gtb_spec ttl (max_ttl_secs (ev_cfg env))); [done|].
  unfold try_seconds. destruct (_ && _); [|done]. intros _.
  destruct (Z.leb_spec (ev_utc env + ttl) (ev_date_max env)); [done|lia].
Qed.

(** What a block leaves behind, [w'] against [w], apart from the calls used up. *)
Definition block_committed (env : Env) (ip : string) (ttl playbook_id : Z) (w w' : soar_world) : Prop :=
  exists ac' v, block_ip (sw_control w) ip = (Ok tt, ac') /\ soar_ip_version ip = Ok v /\
    w' = mk_sw (commit_soar_block_to_db (ev_utc env) (sw_tables w) ip v playbook_id (ev_utc env + ttl)) ac'
           (set_count (sw_matcher w) (active_block_count (sw_matcher w) + 1)) (sw_executions w)
           (sw_rate w) (sw_adjustment w) (sw_faults w') /\
    active_block_count (sw_matcher w) < max_auto_block_cap (ev_cfg env).

(** What a failed block may leave: kernel list and queue of unblocks. *)
Definition block_undone (ip : string) (w w' : soar_world) : Prop :=
  exists ac t, w' = mk_sw t ac (sw_matcher w) (sw_executions w) (sw_rate w) (sw_adjustment w) (sw_faults w') /\
    (t = sw_tables w \/ t = insert_pending_unblock (sw_tables w) ip).

Definition restored (w w' : soar_world) : Prop := w' = set_sw_faults w (sw_faults w').

Definition fresh_address (w : soar_world) (ip : string) : Prop :=
  forall a, parse_ip ip = Some a -> blocked_entry (sw_control w) a = None.

Lemma restored_undone (ip : string) (w w' : soar_world) : restored w w' -> block_undone ip w w'.
Proof. intros ->. exists (sw_control w), (sw_tables w). split; [done|by left]. Qed.

Lemma unblock_blocking_frame (ip : string) (w : soar_world) :
  exists r ac fs, unblock_ip_blocking ip w = (r, set_acs (set_sw_faults w fs) ac).
Proof.
  unfold unblock_ip_blocking, sm_bind.
  destruct (outside_cases (SoarActionFailed "unblock_ip") w) as (fs & [[-> _]|[-> _]]).
  - cbn [sw_control set_sw_faults]. destruct (unblock_ip (sw_control w) ip) as [[r ac]|].
    + by exists (match r with Ok _ => Ok tt | Err e => Err (Acl e) end), ac, fs.
    + exists (Err (SoarActionFailed "unblock_ip")), (sw_control w), fs. by destruct w.
  - exists (Err (SoarActionFailed "unblock_ip")), (sw_control w), fs. by destruct w.
Qed.

Lemma db_write_frame (f : tables -> tables) (w : soar_world) :
  exists r t fs, db_write f w = (r, set_tables (set_sw_faults w fs) t) /\ (t = sw_tables w \/ t = f (sw_tables w)).
Proof.
  unfold db_write, sm_bind, sm_modify.
  destruct (outside_cases Database w) as (fs & [[-> _]|[-> _]]).
  - exists (Ok tt), (f (sw_tables w)), fs. split; [done|by right].
  - exists (Err Database), (sw_tables w), fs. split; [by destruct w|by left].
Qed.

Lemma rollback_block_frame (ip : string) (w : soar_world) :
  exists t ac fs, rollback_block ip w = (Ok tt, set_tables (set_acs (set_sw_faults w fs) ac) t) /\
    (t = sw_tables w \/ t = insert_pending_unblock (sw_tables w) ip).
Proof.
  unfold rollback_block, sm_bind, sm_try.
  destruct (unblock_blocking_frame ip w) as (r & ac & fs & ->). destruct r as [[]|e].
  - exists (sw_tables w), ac, fs. split; [by destruct w|by left].
  - destruct (db_write_frame (fun t => insert_pending_unblock t ip) (set_acs (set_sw_faults w fs) ac))
      as (r & t & fs' & -> & Ht). exists t, ac, fs'. by destruct w.
Qed.

(** Without a failure the rollback only unblocks. *)
Lemma rollback_block_calm (ip : string) (w : soar_world) (ac : AccessControl) :
  Forall (fun f => f = false) (sw_faults w) -> unblock_ip (sw_control w) ip = Some (Ok tt, ac) ->
  exists fs, rollback_block ip w = (Ok tt, set_acs (set_sw_faults w fs) ac).
Proof.
  intros Hc Hu. unfold rollback_block, sm_bind, sm_try, unblock_ip_blocking, sm_bind.
  destruct (outside_calm (SoarActionFailed "unblock_ip") w Hc) as (fs & -> & _).
  cbn [sw_control set_sw_faults]. rewrite Hu. by exists fs.
Qed.

(** From the reservation on: [w] is the world before it. *)
Lemma action_block_cases (env : Env) (action : PlaybookAction) (event : ThreatDetectedEvent)
    (playbook_id : Z) (w : soar_world) :
  expiry_fits env -> 0 <= active_block_count (sw_matcher w) ->
  let ttl := default (default_block_ttl_secs (ev_cfg env)) (ttl_secs (params action)) in
  let ip := te_source_ip event in
  match action_block_ip env action event playbook_id w with
  | (Ok msg, w') => msg = BlockedFor ip ttl /\ block_committed env ip ttl playbook_id w w'
  | (Err _, w') => block_undone ip w w' /\ (one_fault w -> fresh_address w ip -> restored w w')
  end.
Proof.
  intros Hfit Hpos ttl ip. unfold action_block_ip. fold ttl ip.
  unfold sm_bind at 1, sm_lift.
  destruct (validate_action_ttl env ttl (max_ttl_secs (ev_cfg env))) as [[]|e] eqn:Hv.
  2: { split; [apply restored_undone|]; by destruct w. }
  unfold sm_bind at 1, reserve_block.
  destruct (Z.geb_spec (active_block_count (sw_matcher w)) (max_auto_block_cap (ev_cfg env))) as [|Hcap].
  { split; [apply restored_undone|]; by destruct w. }
  set (w1 := set_matcher w _).
  assert (Hdec : forall t ac fs, on_matcher decrement_block_count (set_tables (set_acs (set_sw_faults w1 fs) ac) t) =
    (Ok tt, mk_sw t ac (sw_matcher w) (sw_executions w) (sw_rate w) (sw_adjustment w) fs)).
  { intros. unfold on_matcher, sm_modify, set_matcher, w1. cbn. by rewrite decrement_reserved. }
  unfold sm_bind at 1, sm_try at 1, block_ip_blocking, sm_bind at 1.
  destruct (outside_cases (SoarActionFailed "block_ip") w1) as (fs & [[-> Hf]|[-> Hf]]).
  2: { unfold sm_bind. change (set_sw_faults w1 fs) with (set_tables (set_acs (set_sw_faults w1 fs) (sw_control w)) (sw_tables w)).
       rewrite Hdec. cbn. split; [apply restored_undone|]; by destruct w. }
  cbn [sw_control set_sw_faults]. change (sw_control w1) with (sw_control w).
  destruct (block_ip_cases (sw_control w) ip) as [[e Hb]|(a & ac' & Hb & Ha & _ & Hun)]; rewrite Hb.
  { unfold sm_bind. change (set_acs (set_sw_faults w1 fs) (sw_control w)) with (set_tables (set_acs (set_sw_faults w1 fs) (sw_control w)) (sw_tables w)).
    rewrite Hdec. cbn. split; [apply restored_undone|]; by destruct w. }
  destruct (parsed_version ip a Ha) as [v Hver].
  unfold sm_bind at 1. rewrite (valid_ttl_expires env ttl Hfit Hv).
  unfold sm_bind at 1. rewrite Hver.
  set (w2 := set_acs (set_sw_faults w1 fs) ac').
  unfold sm_bind at 1, sm_try, db_write, sm_bind at 1, sm_modify.
  destruct (outside_cases Database w2) as (fs2 & [[-> _]|[-> Hf2]]).
  { split; [done|]. exists ac', v. by split_and!. }
  unfold sm_bind at 1.
  destruct (rollback_block_frame ip (set_sw_faults w2 fs2)) as (t & ac & fs3 & Hroll & Ht).
  pose proof Hroll as Hroll'. rewrite Hroll'. unfold sm_bind, sm_fail.
  change (set_tables (set_acs (set_sw_faults (set_sw_faults w2 fs2) fs3) ac) t)
    with (set_tables (set_acs (set_sw_faults w1 fs3) ac) t). rewrite Hdec. split.
  - exists ac, t. by split.
  - intros H1 Hfresh. specialize (Hf2 (Hf H1)). specialize (Hun (Hfresh a Ha)).
    destruct (rollback_block_calm ip (set_sw_faults w2 fs2) (sw_control w) Hf2 Hun) as [fs4 Hr4].
    rewrite Hr4 in Hroll. injection Hroll as Hfs Hac Htb.
    unfold restored. cbn. subst. by destruct w.
Qed.

(** C2: in enforce mode, for an address that no rule of the kernel list covers yet, with an
    expiry that can be computed and at most one failing call, a block either commits - the
    kernel list maps the address to the every-port rule, the block and its blacklist row
    are stored with the requested expiry, and the count grows within the cap - or changes
    nothing.  For an address that is listed the rollback releases it:
    [failed_block_releases_earlier] *)
Theorem block_action_all_or_nothing (env : Env) (action : PlaybookAction) (event : ThreatDetectedEvent)
    (playbook_id : Z) (w : soar_world) :
  ev_enforce env = true -> action_type action = BlockIp ->
  expiry_fits env -> 0 <= active_block_count (sw_matcher w) ->
  one_fault w -> fresh_address w (te_source_ip event) ->
  let ttl := default (default_block_ttl_secs (ev_cfg env)) (ttl_secs (params action)) in
  let ip := te_source_ip event in
  match execute_action env action event playbook_id w with
  | (Ok _, w') =>
      (exists a, parse_ip ip = Some a /\ blocked_entry (sw_control w') a = Some new_match_all) /\
      (exists b, b ∈ soar_block_rules (sw_tables w') /\ sb_ip b = ip /\ is_open b = true /\
         sb_expires b = ev_utc env + ttl /\ sb_playbook b = playbook_id) /\
      (exists v, soar_row v ip ∈ acl_rules (sw_tables w')) /\
      active_block_count (sw_matcher w') = active_block_count (sw_matcher w) + 1 /\
      active_block_count (sw_matcher w') <= max_auto_block_cap (ev_cfg env)
  | (Err _, w') => w' = set_sw_faults w (sw_faults w')
  end.
Proof.
  intros Henf Ht Hfit Hpos H1 Hfresh ttl ip. unfold execute_action. rewrite Ht, Henf. cbn [negb].
  pose proof (action_block_cases env action event playbook_id w Hfit Hpos) as H. fold ttl ip in H. cbn zeta in H.
  destruct (action_block_ip env action event playbook_id w) as [[msg|e] w']; [|by apply H].
  destruct H as [_ (ac' & v & Hb & Hv & -> & Hcap)]. cbn.
  destruct (block_ip_cases (sw_control w) ip) as [[e Hb']|(a & ac2 & Hb' & Ha & Hentry & _)]; [congruence|].
  replace ac2 with ac' in Hentry by congruence. split_and!; [by exists a| | |done|lia].
  - eexists. split; [apply elem_of_app; right; apply list_elem_of_singleton; reflexivity|]. done.
  - exists v. unfold commit_soar_block_to_db, insert_or_ignore. cbn.
    case_bool_decide as Hin; [done|]. apply elem_of_app. right. apply list_elem_of_singleton. done.
Qed.

(** ** The block count is the number of open blocks *)

Section Count.
Context `{Sel : SelectNth}.
Variable cap : Z.

Definition count_inv (w : soar_world) : Prop :=
  tables_wf (sw_tables w) /\ active_block_count (sw_matcher w) = open_count (sw_tables w) /\
  open_count (sw_tables w) <= cap.

(** Settings that agree with the cap and keep expiries in range. *)
Definition env_ok (env : Env) : Prop :=
  max_auto_block_cap (ev_cfg env) = cap /\ expiry_fits env.

Definition inv_kept (w w' : soar_world) : Prop := count_inv w -> count_inv w'.

#[export] Instance inv_kept_preorder : PreOrder inv_kept.
Proof. split; unfold inv_kept; [intros w; auto|intros x y z; auto]. Qed.

(** Block rows and count are as before. *)
Definition same_blocks (w w' : soar_world) : Prop :=
  soar_block_rules (sw_tables w') = soar_block_rules (sw_tables w) /\
  next_block (sw_tables w') = next_block (sw_tables w) /\
  active_block_count (sw_matcher w') = active_block_count (sw_matcher w).

#[export] Instance same_blocks_preorder : PreOrder same_blocks.
Proof. split; [by intros w; split_and!|]. unfold same_blocks. intros x y z. intuition congruence. Qed.

Lemma same_blocks_inv (w w' : soar_world) : same_blocks w w' -> inv_kept w w'.
Proof.
  intros (Hb & Hn & Hc). unfold inv_kept, count_inv, tables_wf, open_count. by rewrite Hb, Hn, Hc.
Qed.

Lemma keeps_blocks_inv {A} (m : soar A) : keeps same_blocks m -> keeps inv_kept m.
Proof. intros Hm w. apply same_blocks_inv, Hm. Qed.

Lemma outside_blocks (e : soar_error) : keeps same_blocks (outside e).
Proof. intros w. unfold outside. destruct (sw_faults w) as [|[] fs]; by split_and!. Qed.

Lemma db_read_blocks {A} (f : tables -> A) : keeps same_blocks (db_read f).
Proof. apply keeps_bind; [apply _|apply outside_blocks|]. intros _ w. by split_and!. Qed.

Lemma db_write_blocks (f : tables -> tables) :
  (forall t, soar_block_rules (f t) = soar_block_rules t /\ next_block (f t) = next_block t) ->
  keeps same_blocks (db_write f).
Proof.
  intros Hf. apply keeps_bind; [apply _|apply outside_blocks|]. intros _ w. simpl.
  destruct (Hf (sw_tables w)). by split_and!.
Qed.

Lemma on_matcher_blocks (f : PlaybookMatcher -> PlaybookMatcher) :
  (forall m, active_block_count (f m) = active_block_count m) -> keeps same_blocks (on_matcher f).
Proof. intros Hf. apply keeps_modify. intros w. split_and!; try done. apply Hf. Qed.

Lemma unblock_blocks (ip : string) : keeps same_blocks (unblock_ip_blocking ip).
Proof. intros w. destruct (unblock_blocking_frame ip w) as (r & ac & fs & ->). by split_and!. Qed.

Lemma block_blocks (ip : string) : keeps same_blocks (block_ip_blocking ip).
Proof.
  apply keeps_bind; [apply _|apply outside_blocks|]. intros _ w. destruct (block_ip _ _). by split_and!.
Qed.

Lemma owner_blocks (now : Z) (cmd : RateLimitCmd) : keeps same_blocks (rate_limit_owner now cmd).
Proof. intros w. unfold rate_limit_owner. destruct (run_cmd _ _ _ _) as [[r a] rw]. by split_and!. Qed.

#[local] Hint Resolve outside_blocks db_read_blocks unblock_blocks block_blocks owner_blocks : keeps.
#[local] Hint Extern 3 (keeps same_blocks (db_write _)) => apply db_write_blocks; done : keeps.
#[local] Hint Extern 3 (keeps same_blocks (on_matcher _)) => apply on_matcher_blocks; done : keeps.

Lemma insert_execution_blocks (x : Execution) : keeps same_blocks (insert_soar_execution x).
Proof. unfold insert_soar_execution. keeps_tac. Qed.

Lemma find_matching_blocks (env : Env) (event : ThreatDetectedEvent) :
  keeps same_blocks (find_matching env event).
Proof.
  intros w. unfold find_matching, find_matching_playbooks. by destruct (find_loop _ _ _ _ _); split_and!.
Qed.
#[local] Hint Resolve insert_execution_blocks find_matching_blocks keeps_blocks_inv : keeps.

(** *** Threat events *)

Lemma action_block_inv (env : Env) (a : PlaybookAction) (event : ThreatDetectedEvent) (id : Z) :
  env_ok env -> keeps inv_kept (action_block_ip env a event id).
Proof.
  intros [Hcap Hfit] w (Hwf & Hc & Hle).
  assert (0 <= active_block_count (sw_matcher w)) as Hpos by (rewrite Hc; unfold open_count; lia).
  pose proof (action_block_cases env a event id w Hfit Hpos) as H. cbn zeta in H.
  destruct (action_block_ip env a event id w) as [[msg|e] w'].
  - destruct H as [_ (ac' & v & _ & _ & -> & Hlt)]. split_and!; cbn [sw_tables sw_matcher snd].
    + by apply commit_block_wf.
    + rewrite commit_block_open. cbn. lia.
    + rewrite commit_block_open. lia.
  - destruct H as [(ac & t & -> & Ht) _].
    assert (soar_block_rules t = soar_block_rules (sw_tables w) /\ next_block t = next_block (sw_tables w))
      as [Hb Hn] by (by destruct Ht as [-> | ->]).
    unfold count_inv, tables_wf, open_count. cbn. by rewrite Hb, Hn.
Qed.

Lemma execute_action_inv (env : Env) (a : PlaybookAction) (event : ThreatDetectedEvent) (id : Z) :
  env_ok env -> keeps inv_kept (execute_action env a event id).
Proof.
  intros Henv. unfold execute_action.
  destruct (action_type a); [destruct (negb _); [|by apply action_block_inv]|..];
    unfold action_adjust_rate_limit, action_send_telegram, action_send_email, action_webhook, action_log;
    apply keeps_blocks_inv; keeps_tac.
Qed.

Lemma execute_actions_inv (env : Env) (l : list PlaybookAction) (event : ThreatDetectedEvent) (id : Z) :
  env_ok env -> keeps inv_kept (execute_actions env l event id).
Proof.
  intros Henv. induction l as [|a l IH]; cbn [execute_actions]; keeps_tac. by apply execute_action_inv.
Qed.

Lemma execute_playbook_inv (env : Env) (pb : Playbook) (event : ThreatDetectedEvent) :
  env_ok env -> keeps inv_kept (execute_playbook env pb event).
Proof. intros Henv. unfold execute_playbook. keeps_tac. by apply execute_actions_inv. Qed.

Lemma execute_playbooks_inv (env : Env) (l : list Playbook) (event : ThreatDetectedEvent) (n : nat) :
  env_ok env -> keeps inv_kept (execute_playbooks env l event n).
Proof.
  intros Henv. revert n. induction l as [|pb l IH]; intros n; cbn [execute_playbooks]; keeps_tac.
  by apply execute_playbook_inv.
Qed.

Lemma handle_inv (env : Env) (event : ThreatDetectedEvent) :
  env_ok env -> keeps inv_kept (handle_threat_event env event).
Proof.
  intros Henv. unfold handle_threat_event, execute_fallback.
  keeps_tac; try (by apply execute_action_inv); by apply execute_playbooks_inv.
Qed.

(** *** Recovery *)

Lemma retry_pending_blocks (env : Env) : keeps same_blocks (retry_pending_unblocks env).
Proof. unfold retry_pending_unblocks, retry_pending. keeps_tac. Qed.

Lemma recover_blocks (env : Env) : keeps same_blocks (recover_active_blocks env).
Proof. unfold recover_active_blocks, recover_block. keeps_tac. apply retry_pending_blocks. Qed.

(** *** Closing rows *)

Definition open_row (t : tables) (id : Z) : Prop :=
  exists b, find_soar_block_by_id t id = Some b /\ is_open b = true.

Lemma mark_keeps_open (now : Z) (t : tables) (id id' : Z) :
  id <> id' -> open_row t id' -> open_row (mark_soar_block_unblocked now t id) id'.
Proof.
  intros Hne (b & Hf & Ho). exists b. split; [|done].
  unfold find_soar_block_by_id, mark_soar_block_unblocked in *. cbn.
  revert Hf. induction (soar_block_rules t) as [|c l IH]; [done|]. simpl.
  destruct (Z.eqb_spec (sb_id c) id) as [Hc|Hc]; simpl; destruct (Z.eqb_spec (sb_id c) id'); auto.
  intros [= ->]. congruence.
Qed.

(** A world whose rows are those of [t] with [id] closed and one block less. *)
Lemma close_inv (now : Z) (t : tables) (id : Z) (w w' : soar_world) :
  soar_block_rules t = soar_block_rules (sw_tables w) -> next_block t = next_block (sw_tables w) ->
  open_row (sw_tables w) id ->
  sw_tables w' = mark_soar_block_unblocked now t id ->
  active_block_count (sw_matcher w') = active_block_count (decrement_block_count (sw_matcher w)) ->
  inv_kept w w'.
Proof.
  intros Hb Hn (b & Hf & Ho) Ht Hc (Hwf & Hcount & Hle).
  assert (tables_wf t) as Hwf' by (unfold tables_wf in *; by rewrite Hb, Hn).
  assert (find_soar_block_by_id t id = Some b) as Hf' by (unfold find_soar_block_by_id in *; by rewrite Hb).
  pose proof (mark_unblocked_open now t id b Hwf' Hf') as Hopen. rewrite Ho in Hopen.
  assert (open_count t = open_count (sw_tables w)) as Hoc by (unfold open_count; by rewrite Hb).
  assert (0 <= open_count (mark_soar_block_unblocked now t id)) by (unfold open_count; lia).
  unfold count_inv. rewrite Ht, Hc. split_and!; [by apply mark_unblocked_wf| |lia].
  unfold decrement_block_count. destruct (Z.eqb_spec (active_block_count (sw_matcher w)) 0) as [H0|H0]; cbn; lia.
Qed.

(** Either the row is closed and counted, or the step failed before both. *)
Definition closes (id : Z) (w : soar_world) (r : result soar_error unit * soar_world) : Prop :=
  match r with
  | (Ok _, w') => inv_kept w w' /\ (forall id', id <> id' -> open_row (sw_tables w) id' -> open_row (sw_tables w') id')
  | (Err _, w') => inv_kept w w'
  end.

Lemma decrement_ok (w : soar_world) :
  on_matcher decrement_block_count w = (Ok tt, set_matcher w (decrement_block_count (sw_matcher w))).
Proof. done. Qed.

Lemma mark_closes (env : Env) (id : Z) (w : soar_world) :
  open_row (sw_tables w) id ->
  closes id w ((run! db_write (fun t => mark_soar_block_unblocked (ev_utc env) t id) in
                on_matcher decrement_block_count) w).
Proof.
  intros Hopen. unfold sm_bind at 1, db_write, sm_bind at 1, sm_modify.
  destruct (outside_cases Database w) as (fs & [[-> _]|[-> _]]).
  - rewrite decrement_ok. split.
    + eapply (close_inv (ev_utc env) (sw_tables w)); try done.
    + intros id' Hne Ho. by apply mark_keeps_open.
  - apply same_blocks_inv. by split_and!.
Qed.

Lemma commit_unblock_closes (env : Env) (id : Z) (v : IpVersion) (ip : string) (w : soar_world) :
  open_row (sw_tables w) id ->
  closes id w ((run! commit_unblock env id v ip in on_matcher decrement_block_count) w).
Proof.
  intros Hopen. unfold sm_bind at 1, commit_unblock, sm_bind at 1.
  destruct (outside_cases Database w) as (fs & [[-> _]|[-> _]]).
  2: { apply same_blocks_inv. by split_and!. }
  cbn [sw_tables set_sw_faults]. unfold commit_soar_unblock_to_db.
  destruct Hopen as (b & Hf & Ho). rewrite Hf.
  match goal with |- context [mark_soar_block_unblocked _ ?t _] => set (t1 := t) end.
  assert (soar_block_rules t1 = soar_block_rules (sw_tables w) /\ next_block t1 = next_block (sw_tables w))
    as [Hb Hn] by (subst t1; by destruct (_ && _)).
  rewrite decrement_ok. split.
  - eapply (close_inv (ev_utc env) t1); try done. by exists b.
  - intros id' Hne (b' & Hf' & Ho'). apply mark_keeps_open; [done|]. exists b'. split; [|done].
    unfold find_soar_block_by_id in *. by rewrite Hb.
Qed.

Lemma sweep_blocks_inv (env : Env) (expired : list SoarBlock) (acc : list string) (w : soar_world) :
  Forall (fun b => open_row (sw_tables w) (sb_id b)) expired -> NoDup (map sb_id expired) ->
  inv_kept w (sweep_blocks env expired acc w).2.
Proof.
  revert acc w. induction expired as [|b l IH]; intros acc w Hopen Hnd; [by intros H|].
  apply Forall_cons in Hopen as [Hb Hl]. simpl map in Hnd. rewrite NoDup_cons in Hnd. destruct Hnd as [Hnin Hnd].
  cbn [sweep_blocks]. unfold sm_bind at 1.
  pose proof (db_read_blocks (fun t => has_manual_acl_rule t (sb_ip b)) w) as Hread.
  assert (sw_tables (db_read (fun t => has_manual_acl_rule t (sb_ip b)) w).2 = sw_tables w) as Htab.
  { unfold db_read, sm_bind. destruct (outside_cases Database w) as (fs & [[-> _]|[-> _]]); done. }
  destruct (db_read _ w) as [[manual|e] w1]; [|by apply same_blocks_inv].
  cbn [snd] in Hread, Htab. apply same_blocks_inv in Hread. rewrite <- Htab in Hb, Hl.
  assert (Hrest : forall acc m, closes (sb_id b) w1 (m w1) ->
    inv_kept w (sm_bind m (fun _ : unit => sweep_blocks env l acc) w1).2).
  { intros acc' m Hm. unfold sm_bind. destruct (m w1) as [[[]|e] w2]; cbn [closes] in Hm.
    - destruct Hm as [Hm Hkeep]. etransitivity; [exact Hread|]. etransitivity; [exact Hm|]. apply IH; [|done].
      rewrite Forall_forall in Hl |- *. intros x Hx. apply Hkeep; [|by apply Hl].
      intros He. apply Hnin. rewrite He. apply list_elem_of_In, in_map, list_elem_of_In, Hx.
    - etransitivity; [exact Hread|]. exact Hm. }
  destruct manual.
  - rewrite <- sm_bind_assoc. apply Hrest. by apply mark_closes.
  - unfold sm_bind at 1, sm_lift. destruct (soar_ip_version (sb_ip b)) as [v|e]; [|exact Hread].
    rewrite <- sm_bind_assoc. apply Hrest. by apply commit_unblock_closes.
Qed.

Lemma NoDup_filter_ids (f : SoarBlock -> bool) (l : list SoarBlock) :
  NoDup (map sb_id l) -> NoDup (map sb_id (List.filter f l)).
Proof.
  induction l as [|b l IH]; simpl; [done|]. rewrite NoDup_cons. intros [Hn Hl].
  destruct (f b); [|by apply IH]. simpl. rewrite NoDup_cons. split; [|by apply IH].
  intros Hin. apply Hn. apply list_elem_of_In, in_map_iff in Hin as (c & Hc & Hin).
  apply List.filter_In in Hin as [Hin _]. rewrite <- Hc. by apply list_elem_of_In, in_map.
Qed.

Lemma expired_open (now : Z) (t : tables) :
  tables_wf t ->
  Forall (fun b => open_row t (sb_id b)) (list_expired_soar_blocks now t) /\
  NoDup (map sb_id (list_expired_soar_blocks now t)).
Proof.
  intros Hwf. split; [|apply NoDup_filter_ids, Hwf].
  apply Forall_forall. intros b Hb. apply list_elem_of_In, List.filter_In in Hb as [Hin He].
  exists b. split; [by apply in_block_find, list_elem_of_In|]. unfold is_expired in He. by bool_to_prop.
Qed.

Lemma unblock_committed_blocks_same (l : list string) (n k : nat) :
  keeps same_blocks (unblock_committed_blocks l n k).
Proof. revert n k. induction l as [|ip l IH]; intros n k; cbn [unblock_committed_blocks]; keeps_tac. Qed.

Lemma sweep_prefix_blocks (env : Env) : keeps same_blocks
  (do! _ := sm_try (E' := soar_error) (check_rate_limit_restoration env) in
   on_matcher (cleanup_expired_cooldowns (ev_cfg env) (ev_now env))).
Proof. unfold check_rate_limit_restoration. keeps_tac. Qed.

Lemma sweep_inv (env : Env) : keeps inv_kept (sweep env).
Proof.
  intros w Hinv. unfold sweep. rewrite <- sm_bind_assoc.
  unfold sm_bind at 1. pose proof (same_blocks_inv _ _ (sweep_prefix_blocks env w) Hinv) as H1.
  destruct (sm_bind _ _ w) as [[[]|e] w1]; [|done]. cbn [snd] in H1.
  unfold sm_bind at 1, db_read, sm_bind at 1.
  destruct (outside_cases Database w1) as (fs & [[-> _]|[-> _]]);
    [|by apply (same_blocks_inv w1); [split_and!|]].
  unfold sm_bind at 1, sm_get, sm_ret.
  set (w2 := set_sw_faults w1 fs). assert (count_inv w2) as H2 by exact H1.
  destruct (expired_open (ev_utc env) (sw_tables w2) (proj1 H2)) as [Hopen Hnd].
  destruct (list_expired_soar_blocks (ev_utc env) (sw_tables w2)) as [|b l] eqn:Hl; [done|].
  pose proof (sweep_blocks_inv env (b :: l) [] w2 Hopen Hnd H2) as H3.
  unfold sm_bind at 1. destruct (sweep_blocks env (b :: l) [] w2) as [[ips|e] w3]; [|done].
  unfold sm_bind. pose proof (same_blocks_inv _ _ (unblock_committed_blocks_same ips 0 0 w3) H3) as H4.
  by destruct (unblock_committed_blocks ips 0 0 w3) as [[[]|e] w4].
Qed.

Lemma manual_unblock_inv (env : Env) (id : Z) (w : soar_world) :
  open_row (sw_tables w) id -> inv_kept w (manual_unblock env id w).2.
Proof.
  intros Hopen. unfold manual_unblock. unfold sm_bind at 1, db_read at 1, sm_bind at 1.
  destruct (outside_cases Database w) as (fs & [[-> _]|[-> _]]); [|by apply same_blocks_inv; split_and!].
  unfold sm_bind at 1, sm_get at 1, sm_ret at 1. cbn [sw_tables set_sw_faults].
  destruct Hopen as (b & Hf & Ho). rewrite Hf.
  unfold sm_bind at 1, db_read, sm_bind at 1.
  destruct (outside_cases Database (set_sw_faults w fs)) as (fs2 & [[-> _]|[-> _]]);
    [|by apply same_blocks_inv; split_and!].
  unfold sm_bind at 1, sm_get, sm_ret at 1. cbn [sw_tables set_sw_faults].
  unfold sm_bind at 1, sm_lift. destruct (soar_ip_version (sb_ip b)) as [v|e]; [|by apply same_blocks_inv; split_and!].
  rewrite <- sm_bind_assoc. unfold sm_bind at 1.
  pose proof (commit_unblock_closes env id v (sb_ip b) (set_sw_faults w fs2) (ex_intro _ b (conj Hf Ho))) as Hc.
  change (set_sw_faults (set_sw_faults w fs) fs2) with (set_sw_faults w fs2).
  destruct ((run! commit_unblock env id v (sb_ip b) in on_matcher decrement_block_count) (set_sw_faults w fs2))
    as [[[]|e] w3]; cbn [closes] in Hc.
  2: { transitivity (set_sw_faults w fs2); [by apply same_blocks_inv; split_and!|exact Hc]. }
  transitivity (set_sw_faults w fs2); [by apply same_blocks_inv; split_and!|].
  etransitivity; [apply Hc|]. revert w3 Hc. intros w3 _. revert w3.
  match goal with |- forall w3, inv_kept w3 (?m w3).2 => change (keeps inv_kept m) end.
  apply keeps_blocks_inv. keeps_tac.
Qed.

(** No row has run out without being swept. *)
Definition none_expired (now : Z) (t : tables) : Prop := list_expired_soar_blocks now t = [].

Lemma active_is_open (now : Z) (t : tables) :
  none_expired now t -> count_active_soar_blocks now t = open_count t.
Proof.
  unfold none_expired, list_expired_soar_blocks, count_active_soar_blocks, open_count.
  induction (soar_block_rules t) as [|b l IH]; [done|]. simpl. unfold is_expired, is_active at 1.
  destruct (is_open b); simpl; [|apply IH].
  destruct (Z.leb_spec (sb_expires b) now); [done|]. intros Hl. specialize (IH Hl).
  destruct (Z.gtb_spec (sb_expires b) now); [|lia]. simpl. lia.
Qed.

Lemma reload_cache_inv (env : Env) (views : list PlaybookView) (w : soar_world) :
  none_expired (ev_utc env) (sw_tables w) -> inv_kept w (reload_cache env views w).2.
Proof.
  intros Hnone Hinv. unfold reload_cache, db_read.
  repeat (unfold sm_bind at 1; try (unfold sm_lift; destruct (load_playbooks views) as [pbs|e]; [|done]);
    try match goal with
    | |- context [outside ?e ?x] =>
        let fs := fresh "fs" in destruct (outside_cases e x) as (fs & [[-> _]|[-> _]]); [|exact Hinv]
    end; cbn [on_matcher sm_modify sm_get sm_ret]).
  unfold count_inv, on_matcher, sm_modify. cbn. destruct Hinv as (Hwf & _ & Hle).
  split_and!; [done|by apply active_is_open|done].
Qed.

(** *** Runs of the engine *)

(** Everything that touches blocks, one handler at a time.  A manual unblock is
    of an open block and a reload finds no expired row: see
    [count_lags_behind_blocks] for what happens otherwise. *)
Inductive engine_step : soar_world -> soar_world -> Prop :=
  | step_event (env : Env) (event : ThreatDetectedEvent) (w : soar_world) :
      env_ok env -> engine_step w (handle_threat_event env event w).2
  | step_sweep (env : Env) (w : soar_world) : engine_step w (sweep env w).2
  | step_recover (env : Env) (w : soar_world) : engine_step w (recover_active_blocks env w).2
  | step_manual (env : Env) (id : Z) (w : soar_world) :
      open_row (sw_tables w) id -> engine_step w (manual_unblock env id w).2
  | step_reload (env : Env) (views : list PlaybookView) (w : soar_world) :
      none_expired (ev_utc env) (sw_tables w) -> engine_step w (reload_cache env views w).2
  | step_faults (fs : list bool) (w : soar_world) : engine_step w (set_sw_faults w fs).

Lemma engine_step_inv (w w' : soar_world) : engine_step w w' -> inv_kept w w'.
Proof.
  intros [env event w0 Henv|env w0|env w0|env id w0 Ho|env views w0 Hn|fs w0].
  - by apply handle_inv.
  - apply sweep_inv.
  - apply same_blocks_inv, recover_blocks.
  - by apply manual_unblock_inv.
  - by apply reload_cache_inv.
  - by apply same_blocks_inv; split_and!.
Qed.

End Count.

(** ** What a sweep leaves *)

Definition calm (w : soar_world) : Prop := Forall (fun f => f = false) (sw_faults w).

Lemma calm_outside (e : soar_error) (w : soar_world) :
  calm w -> exists fs, outside e w = (Ok tt, set_sw_faults w fs) /\ calm (set_sw_faults w fs).
Proof. intros Hc. destruct (outside_calm e w Hc) as (fs & -> & Hfs). by exists fs. Qed.

Lemma calm_db_read {A} (f : tables -> A) (w : soar_world) :
  calm w -> exists fs, db_read f w = (Ok (f (sw_tables w)), set_sw_faults w fs) /\ calm (set_sw_faults w fs).
Proof.
  intros Hc. unfold db_read, sm_bind. destruct (calm_outside Database w Hc) as (fs & -> & Hfs). by exists fs.
Qed.

Lemma calm_db_write (f : tables -> tables) (w : soar_world) :
  calm w -> exists fs, db_write f w = (Ok tt, set_tables (set_sw_faults w fs) (f (sw_tables w))) /\
    calm (set_sw_faults w fs).
Proof.
  intros Hc. unfold db_write, sm_bind. destruct (calm_outside Database w Hc) as (fs & -> & Hfs). by exists fs.
Qed.

Lemma unblock_ip_cases (ac : AccessControl) (ip : string) :
  exists r ac', unblock_ip ac ip = Some (r, ac') /\
    (forall a, blocked_entry ac a = None -> blocked_entry ac' a = None) /\
    (is_ok r = true -> forall a, parse_ip ip = Some a -> blocked_entry ac' a = None).
Proof.
  unfold unblock_ip, remove_ipv4_list, remove_ipv6_list, remove, map_remove.
  destruct (parse_ip ip) as [[b|b]|].
  3: { do 2 eexists. split; [reflexivity|]. by split. }
  - destruct ac as [? [m|] ? ? ? m6 ? ?]; cbn -[to_be].
    2: { do 2 eexists. split; [reflexivity|]. by split. }
    destruct (m !! to_be 4 b) eqn:Hm; (do 2 eexists; split; [reflexivity|]); cbn -[to_be]; [|by split].
    split; [|intros _ a [= <-]; apply lookup_delete_eq].
    intros [x|x]; cbn -[to_be]; [|done]. intros Hx. by apply lookup_delete_None; right.
  - destruct ac as [? m4 ? ? ? [m|] ? ?]; cbn -[to_be].
    2: { do 2 eexists. split; [reflexivity|]. by split. }
    destruct (m !! to_be 16 b) eqn:Hm; (do 2 eexists; split; [reflexivity|]); cbn -[to_be]; [|by split].
    split; [|intros _ a [= <-]; apply lookup_delete_eq].
    intros [x|x]; cbn -[to_be]; [done|]. intros Hx. by apply lookup_delete_None; right.
Qed.

(** Closing rows cannot turn an automatic rule into a manual one. *)
Lemma manual_mark (now : Z) (t : tables) (id : Z) (ip : string) :
  has_manual_acl_rule t ip = false -> has_manual_acl_rule (mark_soar_block_unblocked now t id) ip = false.
Proof.
  unfold has_manual_acl_rule, mark_soar_block_unblocked. cbn. rewrite !andb_false_iff.
  intros [H|H]; [by left|right]. revert H. induction (soar_block_rules t) as [|b l IH]; [done|]. simpl.
  rewrite orb_false_iff. intros [Hb Hl]. rewrite (IH Hl), orb_false_r.
  destruct (_ =? _); [|done]. cbn. by rewrite andb_false_r.
Qed.

Lemma manual_delete (t : tables) (row : AclRow) (ip : string) :
  has_manual_acl_rule t ip = false -> has_manual_acl_rule (delete_acl_rule t row) ip = false.
Proof.
  unfold has_manual_acl_rule, delete_acl_rule. cbn. rewrite !andb_false_iff.
  intros [H|H]; [left|by right]. revert H. induction (acl_rules t) as [|r l IH]; [done|]. simpl.
  rewrite orb_false_iff. intros [Hr Hl]. rewrite filter_cons.
  destruct (decide (r <> row)); cbn [existsb]; [rewrite Hr; by apply IH|by apply IH].
Qed.

(** [t'] is [t] with the rows of [ids] closed. *)
Definition closed_ids (t t' : tables) (ids : list Z) : Prop :=
  map sb_id (soar_block_rules t') = map sb_id (soar_block_rules t) /\
  (forall b, b ∈ soar_block_rules t' -> is_open b = true -> b ∈ soar_block_rules t /\ sb_id b ∉ ids) /\
  (forall b, b ∈ soar_block_rules t -> sb_id b ∉ ids -> b ∈ soar_block_rules t') /\
  (forall ip, has_manual_acl_rule t ip = false -> has_manual_acl_rule t' ip = false).

Lemma closed_ids_mark (now : Z) (t t1 : tables) (id : Z) :
  soar_block_rules t1 = soar_block_rules t ->
  (forall ip, has_manual_acl_rule t ip = false -> has_manual_acl_rule t1 ip = false) ->
  closed_ids t (mark_soar_block_unblocked now t1 id) [id].
Proof.
  intros Hb Hm. unfold closed_ids, mark_soar_block_unblocked. cbn. rewrite Hb. split_and!.
  - apply map_ids_update. intros b. by destruct (_ =? _).
  - intros b Hin Ho. apply list_elem_of_In, in_map_iff in Hin as (c & <- & Hin).
    destruct (Z.eqb_spec (sb_id c) id); [done|]. split; [by apply list_elem_of_In|set_solver].
  - intros b Hin Hn. apply list_elem_of_In, in_map_iff. exists b. split; [|by apply list_elem_of_In].
    destruct (Z.eqb_spec (sb_id b) id); [set_solver|done].
  - intros ip Hip. pose proof (manual_mark now t1 id ip (Hm ip Hip)) as H.
    unfold mark_soar_block_unblocked in H. by rewrite Hb in H.
Qed.

Lemma closed_ids_trans (t1 t2 t3 : tables) (l k : list Z) :
  closed_ids t1 t2 l -> closed_ids t2 t3 k -> closed_ids t1 t3 (l ++ k).
Proof.
  intros (A1 & A2 & A3 & A4) (B1 & B2 & B3 & B4). split_and!; [congruence| | |auto].
  - intros b Hin Ho. destruct (B2 b Hin Ho) as [Hin2 Hk]. destruct (A2 b Hin2 Ho). split; [done|set_solver].
  - intros b Hin Hn. apply B3; [apply A3; [done|set_solver]|set_solver].
Qed.

Lemma known_find (t : tables) (id : Z) :
  id ∈ map sb_id (soar_block_rules t) -> exists b, find_soar_block_by_id t id = Some b.
Proof.
  unfold find_soar_block_by_id. induction (soar_block_rules t) as [|b l IH]; [by intros ?%not_elem_of_nil|].
  simpl. rewrite elem_of_cons. destruct (Z.eqb_spec (sb_id b) id); [eauto|]. intros [->|Hin]; [done|auto].
Qed.

Lemma commit_unblock_closed (now : Z) (t : tables) (id : Z) (v : IpVersion) (ip : string) :
  id ∈ map sb_id (soar_block_rules t) ->
  exists t', commit_soar_unblock_to_db now t id v ip = Some t' /\ closed_ids t t' [id].
Proof.
  intros Hin. unfold commit_soar_unblock_to_db. destruct (known_find t id Hin) as (b & ->).
  eexists. split; [reflexivity|]. apply closed_ids_mark; [by destruct (_ && _)|].
  intros ip' Hip. destruct (_ && _); [by apply manual_delete|done].
Qed.

Lemma sweep_blocks_calm (env : Env) (l : list SoarBlock) (acc : list string) (w : soar_world) :
  calm w -> Forall (fun b => is_Some (parse_ip (sb_ip b))) l ->
  Forall (fun b => sb_id b ∈ map sb_id (soar_block_rules (sw_tables w))) l ->
  exists ips w', sweep_blocks env l acc w = (Ok (acc ++ ips)%list, w') /\ calm w' /\
    closed_ids (sw_tables w) (sw_tables w') (map sb_id l) /\
    (forall b, b ∈ l -> has_manual_acl_rule (sw_tables w) (sb_ip b) = false -> sb_ip b ∈ ips).
Proof.
  revert acc w. induction l as [|b l IH]; intros acc w Hc Hp Hid.
  { exists [], w. rewrite app_nil_r. split_and!; [done|done| |by intros b Hb%not_elem_of_nil].
    split_and!; try done. intros b' Hb' _. split; [done|]. by apply not_elem_of_nil. }
  apply Forall_cons in Hp as [[a Ha] Hp]. apply Forall_cons in Hid as [Hb Hid]. cbn [sweep_blocks].
  destruct (calm_db_read (fun t => has_manual_acl_rule t (sb_ip b)) w Hc) as (fs & Hr & Hc1).
  unfold sm_bind at 1. rewrite Hr. clear Hr.
  assert (Hstep : forall w2 acc2, calm w2 -> closed_ids (sw_tables w) (sw_tables w2) [sb_id b] ->
    exists ips w', sweep_blocks env l acc2 w2 = (Ok (acc2 ++ ips)%list, w') /\ calm w' /\
      closed_ids (sw_tables w) (sw_tables w') (map sb_id (b :: l)) /\
      (forall b', b' ∈ l -> has_manual_acl_rule (sw_tables w) (sb_ip b') = false -> sb_ip b' ∈ ips)).
  { intros w2 acc2 Hc2 Hcl. destruct (IH acc2 w2 Hc2 Hp) as (ips & w' & H1 & H2 & H3 & H4).
    { destruct Hcl as (Hm & _). by rewrite Hm. }
    exists ips, w'. split_and!; [done|done| |].
    - by apply (closed_ids_trans _ _ _ [sb_id b] _ Hcl).
    - intros b' Hin Hman. apply H4; [done|]. destruct Hcl as (_ & _ & _ & H). by apply H. }
  destruct (has_manual_acl_rule (sw_tables w) (sb_ip b)) eqn:Hman.
  - destruct (calm_db_write (fun t => mark_soar_block_unblocked (ev_utc env) t (sb_id b)) _ Hc1) as (fs2 & Hw & Hc2).
    unfold sm_bind at 1. rewrite Hw. unfold sm_bind at 1. rewrite decrement_ok.
    destruct (Hstep (set_matcher (set_tables (set_sw_faults (set_sw_faults w fs) fs2)
      (mark_soar_block_unblocked (ev_utc env) (sw_tables w) (sb_id b))) (decrement_block_count (sw_matcher w))) acc)
      as (ips & w' & H1 & H2 & H3 & H4); [exact Hc2|by apply closed_ids_mark|].
    exists ips, w'. split_and!; [exact H1|done|done|]. intros b' Hin Hm.
    apply elem_of_cons in Hin as [->|Hin]; [congruence|by apply H4].
  - destruct (parsed_version _ _ Ha) as [v Hv]. unfold sm_bind at 1, sm_lift. rewrite Hv.
    unfold sm_bind at 1, commit_unblock, sm_bind at 1.
    destruct (calm_outside Database _ Hc1) as (fs2 & -> & Hc2). cbn [sw_tables set_sw_faults].
    destruct (commit_unblock_closed (ev_utc env) (sw_tables w) (sb_id b) v (sb_ip b) Hb) as (t' & -> & Hcl).
    unfold sm_bind at 1. rewrite decrement_ok.
    destruct (Hstep (set_matcher (set_tables (set_sw_faults (set_sw_faults w fs) fs2) t')
      (decrement_block_count (sw_matcher w))) (acc ++ [sb_ip b])%list)
      as (ips & w' & H1 & H2 & H3 & H4); [exact Hc2|exact Hcl|].
    exists (sb_ip b :: ips), w'. rewrite <- app_assoc in H1. split_and!; [exact H1|done|done|].
    intros b' Hin Hm. apply elem_of_cons in Hin as [->|Hin]; [by left|right; by apply H4].
Qed.

(** An address waits in the queue of unblocks. *)
Definition queued (w : soar_world) (ip : string) : Prop :=
  exists p, p ∈ pending_unblock (sw_tables w) /\ pu_ip p = ip.

Definition released (w : soar_world) (ip : string) : Prop :=
  (forall a, parse_ip ip = Some a -> blocked_entry (sw_control w) a = None) \/ queued w ip.

(** One address unblocked or queued; what was released stays so. *)
Definition release_step (w w' : soar_world) : Prop :=
  (forall ip, released w ip -> released w' ip) /\
  soar_block_rules (sw_tables w') = soar_block_rules (sw_tables w) /\
  acl_rules (sw_tables w') = acl_rules (sw_tables w).

#[export] Instance release_step_preorder : PreOrder release_step.
Proof. split; [by intros w; split_and!|]. intros x y z (A1 & A2 & A3) (B1 & B2 & B3). split_and!; [auto|congruence..]. Qed.

Lemma unblock_committed_calm (l : list string) (n k : nat) (w : soar_world) :
  calm w ->
  exists r w', unblock_committed_blocks l n k w = (Ok r, w') /\ calm w' /\ release_step w w' /\
    Forall (released w') l.
Proof.
  revert n k w. induction l as [|ip l IH]; intros n k w Hc.
  { exists (n, k), w. split_and!; [done|done|reflexivity|constructor]. }
  cbn [unblock_committed_blocks]. unfold sm_bind at 1, sm_try at 1, unblock_ip_blocking, sm_bind at 1.
  destruct (calm_outside (SoarActionFailed "unblock_ip") w Hc) as (fs & -> & Hc1). cbn [sw_control set_sw_faults].
  destruct (unblock_ip_cases (sw_control w) ip) as (r & ac & -> & Hkeep & Hrel).
  set (w1 := set_acs (set_sw_faults w fs) ac).
  assert (release_step w w1) as Hs1.
  { split_and!; [|done|done]. intros ip' [Hn|Hq]; [left; intros a Ha; by apply Hkeep, Hn|by right]. }
  destruct r as [[]|e].
  - destruct (IH (S n) k w1 Hc1) as (r & w' & H1 & H2 & H3 & H4).
    exists r, w'. split_and!; [done|done|by etransitivity|]. constructor; [|done].
    destruct H3 as [H3 _]. apply H3. left. by apply Hrel.
  - destruct (calm_db_write (fun t => insert_pending_unblock t ip) w1 Hc1) as (fs2 & Hw & Hc2).
    unfold sm_bind at 1. rewrite Hw. set (w2 := set_tables (set_sw_faults w1 fs2) _).
    destruct (IH n (S k) w2 Hc2) as (r & w' & H1 & H2 & H3 & H4).
    assert (release_step w1 w2) as Hs2.
    { split_and!; [|done|done]. intros ip' [Hn|(p & Hp & He)]; [by left|]. right. exists p. split; [|done].
      apply elem_of_app. by left. }
    exists r, w'. split_and!; [done|done|by do 2 (etransitivity; [eassumption|])|]. constructor; [|done].
    destruct H3 as [H3 _]. apply H3. right. eexists. split; [apply elem_of_app; right; by left|done].
Qed.


(** ** What recovery leaves *)

(** The list of the address's family cannot take a new entry. *)
Definition no_room (ac : AccessControl) (a : IpAddr) : Prop :=
  match (match a with Ip4 _ => ipv4_src_blacklist ac | Ip6 _ => ipv6_src_blacklist ac end) with
  | None => True
  | Some m => (MAX_RULES <= size m)%nat
  end.

Definition covered (ac : AccessControl) (a : IpAddr) : Prop :=
  blocked_entry ac a = Some new_match_all \/ no_room ac a.

Lemma size_insert_ge (m : gmap Z PortRule) (k : Z) (r : PortRule) : (size m <= size (<[k := r]> m))%nat.
Proof.
  destruct (m !! k) eqn:Hk; [rewrite map_size_insert_Some by eauto; lia|rewrite map_size_insert_None by done; lia].
Qed.

Lemma block_ip_covers (ac : AccessControl) (ip : string) :
  (forall a, covered ac a -> covered (block_ip ac ip).2 a) /\
  (forall a, parse_ip ip = Some a -> covered (block_ip ac ip).2 a).
Proof.
  unfold block_ip, add_ipv4_list, add_ipv6_list, add, map_insert, covered, no_room.
  destruct (parse_ip ip) as [[b|b]|]; [| |by split]; cbn [ipv4_list ipv6_list Z.eqb].
  - destruct ac as [? [m|] ? ? ? m6 ? ?]; cbn -[to_be MAX_RULES]; [|split; [done|intros a [= <-]; cbn; auto]].
    destruct (bool_decide_reflect (m !! to_be 4 b = None)) as [Hn|Hs]; cbn -[to_be MAX_RULES];
      [destruct (Nat.leb_spec MAX_RULES (size m)) as [Hle|Hlt]|]; cbn -[to_be MAX_RULES].
    1: { split; [done|]. intros a [= <-]. cbn -[to_be MAX_RULES]. by right. }
    all: split; [|intros a [= <-]; left; cbn -[to_be MAX_RULES]; apply lookup_insert_eq].
    all: intros [x|x]; cbn -[to_be MAX_RULES]; [|done];
      (intros [Hx|Hx]; [left|right; pose proof (size_insert_ge m (to_be 4 b) new_match_all); lia]);
      rewrite lookup_insert; by case_decide.
  - destruct ac as [? m4 ? ? ? [m|] ? ?]; cbn -[to_be MAX_RULES]; [|split; [done|intros a [= <-]; cbn; auto]].
    destruct (bool_decide_reflect (m !! to_be 16 b = None)) as [Hn|Hs]; cbn -[to_be MAX_RULES];
      [destruct (Nat.leb_spec MAX_RULES (size m)) as [Hle|Hlt]|]; cbn -[to_be MAX_RULES].
    1: { split; [done|]. intros a [= <-]. cbn -[to_be MAX_RULES]. by right. }
    all: split; [|intros a [= <-]; left; cbn -[to_be MAX_RULES]; apply lookup_insert_eq].
    all: intros [x|x]; cbn -[to_be MAX_RULES]; [done|];
      (intros [Hx|Hx]; [left|right; pose proof (size_insert_ge m (to_be 16 b) new_match_all); lia]);
      rewrite lookup_insert; by case_decide.
Qed.

Lemma recover_loop_covers (l : list SoarBlock) (w : soar_world) :
  calm w ->
  exists w', sm_iter recover_block l w = (Ok tt, w') /\ calm w' /\
    (forall a, covered (sw_control w) a -> covered (sw_control w') a) /\
    (forall b a, b ∈ l -> parse_ip (sb_ip b) = Some a -> covered (sw_control w') a).
Proof.
  revert w. induction l as [|b l IH]; intros w Hc.
  { exists w. split_and!; [done|done|done|]. intros b a H. by apply not_elem_of_nil in H. }
  cbn [sm_iter]. unfold sm_bind at 1, recover_block at 1, sm_bind at 1, sm_try, block_ip_blocking, sm_bind at 1.
  destruct (calm_outside (SoarActionFailed "block_ip") w Hc) as (fs & -> & Hc1). cbn [sw_control set_sw_faults].
  destruct (block_ip_covers (sw_control w) (sb_ip b)) as [Hk Hb].
  destruct (block_ip (sw_control w) (sb_ip b)) as [r ac]. cbn [snd] in Hk, Hb.
  destruct (IH (set_acs (set_sw_faults w fs) ac) Hc1) as (w' & H1 & H2 & H3 & H4).
  exists w'. split_and!; [done|done|auto|].
  intros b' a Hin Ha. apply elem_of_cons in Hin as [->|Hin]; [by apply H3, Hb|by eapply H4].
Qed.

Definition stays_calm (w w' : soar_world) : Prop := calm w -> calm w'.
#[export] Instance stays_calm_preorder : PreOrder stays_calm.
Proof. split; unfold stays_calm; [by intros w|auto]. Qed.

Lemma outside_stays_calm (e : soar_error) : keeps stays_calm (outside e).
Proof. intros w Hc. by destruct (calm_outside e w Hc) as (fs & -> & Hfs). Qed.
#[local] Hint Resolve outside_stays_calm : keeps.

Lemma unblock_stays_calm (ip : string) : keeps stays_calm (unblock_ip_blocking ip).
Proof.
  apply keeps_bind; [apply _|apply outside_stays_calm|]. intros _ w Hc. by destruct (unblock_ip _ _) as [[r ac]|].
Qed.
Lemma db_stays_calm {A} (f : tables -> A) : keeps stays_calm (db_read f).
Proof. apply keeps_bind; [apply _|apply outside_stays_calm|]. by intros _ w Hc. Qed.
Lemma db_write_stays_calm (f : tables -> tables) : keeps stays_calm (db_write f).
Proof. apply keeps_bind; [apply _|apply outside_stays_calm|]. by intros _ w Hc. Qed.
#[local] Hint Resolve unblock_stays_calm db_stays_calm db_write_stays_calm : keeps.

Lemma retry_stays_calm (env : Env) : keeps stays_calm (retry_pending_unblocks env).
Proof. unfold retry_pending_unblocks, retry_pending. keeps_tac. Qed.

(** Nothing in the retries is reported as an error. *)
Lemma retry_pending_ok (env : Env) (p : PendingUnblock) (w : soar_world) :
  exists w1, retry_pending env p w = (Ok tt, w1).
Proof.
  unfold retry_pending, sm_bind, sm_try. destruct (pu_exhausted p); [by eexists|].
  destruct (_ >=? _); [destruct (db_write _ w); by eexists|].
  destruct (unblock_ip_blocking _ w) as [[[]|e] w1]; destruct (db_write _ w1); by eexists.
Qed.

Lemma retry_ok (env : Env) (w : soar_world) :
  exists w1, retry_pending_unblocks env w = (Ok tt, w1).
Proof.
  unfold retry_pending_unblocks. unfold sm_bind at 1, sm_try at 1.
  destruct (db_read list_pending_unblocks w) as [[l|e] w1]; [|by eexists].
  revert w1. induction l as [|p l IH]; intros w1; [by eexists|]. cbn [sm_iter]. unfold sm_bind.
  destruct (retry_pending_ok env p w1) as [w2 ->]. apply IH.
Qed.

(** recovery re-blocks every active block: its address is on the kernel list
    for every port unless that list is full or missing, even if an unblock of
    the same address was pending *)
Theorem recovery_reblocks_active (env : Env) (w : soar_world) :
  calm w ->
  exists w', recover_active_blocks env w = (Ok tt, w') /\
    forall b a, b ∈ soar_block_rules (sw_tables w) -> is_active (ev_utc env) b = true ->
      parse_ip (sb_ip b) = Some a -> covered (sw_control w') a.
Proof.
  intros Hc0. destruct (retry_ok env w) as [w1 Hr].
  pose proof (retry_stays_calm env w Hc0) as Hc. rewrite Hr in Hc. cbn [snd] in Hc.
  pose proof (retry_pending_blocks env w) as (Hb & _). rewrite Hr in Hb. cbn [snd] in Hb.
  unfold recover_active_blocks. unfold sm_bind at 1. rewrite Hr. unfold sm_bind at 1.
  destruct (calm_db_read (list_active_soar_blocks (ev_utc env)) w1 Hc) as (fs & -> & Hc1).
  destruct (recover_loop_covers (list_active_soar_blocks (ev_utc env) (sw_tables w1)) _ Hc1) as (w' & H1 & _ & _ & H4).
  exists w'. split; [exact H1|]. intros b a Hin Ha Hp. eapply H4; [|exact Hp].
  apply list_elem_of_In, List.filter_In. split; [|done]. rewrite Hb. by apply list_elem_of_In.
Qed.

(** ** Retries come to an end *)

(** One retry: the entry is gone, exhausted, or has one more attempt. *)
Definition retried (max : Z) (p p' : PendingUnblock) : Prop :=
  pu_id p' = pu_id p /\
  (is_Some (pu_exhausted p') \/
   (pu_exhausted p = None /\ pu_retry p < max /\ pu_exhausted p' = None /\ pu_retry p' = pu_retry p + 1)).

(** How many of the calls to come fail. *)
Definition failures (w : soar_world) : nat := length (filter (fun f => f = true) (sw_faults w)).

Lemma outside_failures (e : soar_error) (w : soar_world) :
  exists fs, (outside e w = (Ok tt, set_sw_faults w fs) /\ (failures (set_sw_faults w fs) <= failures w)%nat) \/
    (outside e w = (Err e, set_sw_faults w fs) /\ (failures (set_sw_faults w fs) < failures w)%nat).
Proof.
  unfold outside, failures. destruct w as [t ac m x r a [|[] fs]]; cbn [sw_faults set_sw_faults].
  - exists []. left. by split.
  - exists fs. right. split; [done|]. rewrite filter_cons_True by done. cbn. lia.
  - exists fs. left. split; [done|]. by rewrite filter_cons_False.
Qed.
Lemma db_write_failures (f : tables -> tables) (w : soar_world) :
  exists fs, (db_write f w = (Ok tt, set_tables (set_sw_faults w fs) (f (sw_tables w))) /\ (failures (set_sw_faults w fs) <= failures w)%nat) \/
    (db_write f w = (Err Database, set_sw_faults w fs) /\ (failures (set_sw_faults w fs) < failures w)%nat).
Proof.
  unfold db_write, sm_bind. destruct (outside_failures Database w) as (fs & [[-> H]|[-> H]]); exists fs; [left|right]; by split.
Qed.
Lemma unblock_failures (ip : string) (w : soar_world) : (failures (unblock_ip_blocking ip w).2 <= failures w)%nat.
Proof.
  unfold unblock_ip_blocking, sm_bind. destruct (outside_failures (SoarActionFailed "unblock_ip") w) as (fs & [[-> H]|[-> H]]); [|cbn [snd]; lia].
  by destruct (unblock_ip _ _) as [[r ac]|].
Qed.

(** What a retry of [p] makes of its own entry: an attempt, or nothing because a call failed. *)
Definition tried (env : Env) (p : PendingUnblock) (w w' : soar_world) : Prop :=
  (failures w' <= failures w)%nat /\ NoDup (map pu_id (pending_unblock (sw_tables w'))) /\
  (forall q, pu_id q <> pu_id p -> q ∈ pending_unblock (sw_tables w) <-> q ∈ pending_unblock (sw_tables w')) /\
  (forall q, q ∈ pending_unblock (sw_tables w') -> pu_id q = pu_id p ->
     retried (max_pending_unblock_retries (ev_cfg env)) p q \/ (q = p /\ (failures w' < failures w)%nat)).

Lemma pending_unique (l : list PendingUnblock) (p q : PendingUnblock) :
  NoDup (map pu_id l) -> p ∈ l -> q ∈ l -> pu_id q = pu_id p -> q = p.
Proof.
  induction l as [|x l IH]; intros Hnd Hp Hq Hid; [by apply not_elem_of_nil in Hq|].
  simpl in Hnd. apply NoDup_cons in Hnd as [Hx Hnd]. assert (forall y, y ∈ l -> pu_id y ∈ map pu_id l) as Hm by (intros y Hy; apply list_elem_of_fmap; by exists y).
  apply elem_of_cons in Hp, Hq. destruct Hq as [->|Hq], Hp as [->|Hp]; [done| | |by apply IH]; exfalso; apply Hx;
    [rewrite Hid|rewrite <- Hid]; by apply Hm.
Qed.

(** A write that fails leaves the entry; one that changes it in place makes an attempt. *)
Lemma tried_refused (env : Env) (p : PendingUnblock) (w w' : soar_world) :
  p ∈ pending_unblock (sw_tables w) -> NoDup (map pu_id (pending_unblock (sw_tables w))) ->
  sw_tables w' = sw_tables w -> (failures w' < failures w)%nat -> tried env p w w'.
Proof.
  intros Hin Hnd Ht Hf. unfold tried. rewrite Ht. split_and!; [lia|done|done|]. intros q Hq Hid. right. split; [by eapply pending_unique|done].
Qed.
Lemma tried_update (env : Env) (p : PendingUnblock) (f : tables -> tables) (g : PendingUnblock -> PendingUnblock) (w w0 : soar_world) :
  p ∈ pending_unblock (sw_tables w) -> NoDup (map pu_id (pending_unblock (sw_tables w))) ->
  (forall q, pu_id (g q) = pu_id q) -> retried (max_pending_unblock_retries (ev_cfg env)) p (g p) ->
  (forall t, pending_unblock (f t) = map (fun q => if pu_id q =? pu_id p then g q else q) (pending_unblock t)) ->
  sw_tables w0 = sw_tables w -> (failures w0 <= failures w)%nat ->
  exists w', (do! _ := sm_try (E' := soar_error) (db_write f) in sm_ret tt) w0 = (Ok tt, w') /\ tried env p w w'.
Proof.
  intros Hin Hnd Hg Hret Hf Ht0 Hle. unfold sm_bind, sm_try.
  destruct (db_write_failures f w0) as (fs & [[-> Hfs]|[-> Hfs]]); (eexists; split; [reflexivity|]).
  2: { apply tried_refused; [done|done|done|]. lia. }
  unfold tried. cbn. rewrite Hf, Ht0. split_and!.
  - unfold failures in *. cbn in *. lia.
  - rewrite map_map. erewrite map_ext; [exact Hnd|]. intros q. simpl. by destruct (_ =? _).
  - intros q Hq. rewrite !list_elem_of_In, in_map_iff. split.
    + intros Hi. exists q. by rewrite (proj2 (Z.eqb_neq _ _) Hq).
    + intros (x & <- & Hi). revert Hq. destruct (Z.eqb_spec (pu_id x) (pu_id p)); [by rewrite Hg|done].
  - intros q Hq Hid. apply list_elem_of_In, in_map_iff in Hq as (x & <- & Hi). apply list_elem_of_In in Hi.
    revert Hid. destruct (Z.eqb_spec (pu_id x) (pu_id p)) as [He|He]; [|done]. intros _. left. by rewrite (pending_unique _ p x Hnd Hin Hi He).
Qed.
Lemma tried_delete (env : Env) (p : PendingUnblock) (w w0 : soar_world) :
  p ∈ pending_unblock (sw_tables w) -> NoDup (map pu_id (pending_unblock (sw_tables w))) ->
  sw_tables w0 = sw_tables w -> (failures w0 <= failures w)%nat ->
  exists w', (do! _ := sm_try (E' := soar_error) (db_write (fun t => delete_pending_unblock t (pu_id p))) in sm_ret tt) w0 = (Ok tt, w') /\
    tried env p w w'.
Proof.
  intros Hin Hnd Ht0 Hle. unfold sm_bind, sm_try.
  destruct (db_write_failures (fun t => delete_pending_unblock t (pu_id p)) w0) as (fs & [[-> Hfs]|[-> Hfs]]); (eexists; split; [reflexivity|]).
  2: { apply tried_refused; [done|done|done|]. lia. }
  unfold tried. cbn. rewrite Ht0. split_and!.
  - unfold failures in *. cbn in *. lia.
  - clear -Hnd. induction (pending_unblock (sw_tables w)) as [|x l IH]; [done|]. rewrite filter_cons.
    simpl in Hnd. apply NoDup_cons in Hnd as [Hx Hnd]. case_decide; [|by apply IH].
    simpl. apply NoDup_cons. split; [|by apply IH]. intros (y & Hy & Hi)%list_elem_of_fmap. apply Hx.
    apply list_elem_of_filter in Hi as [_ Hi]. rewrite Hy. apply list_elem_of_fmap. by exists y.
  - intros q Hq. rewrite list_elem_of_filter. tauto.
  - intros q Hq Hid. by apply list_elem_of_filter in Hq as [Hq _].
Qed.

Lemma retry_one (env : Env) (p : PendingUnblock) (w : soar_world) :
  p ∈ pending_unblock (sw_tables w) -> NoDup (map pu_id (pending_unblock (sw_tables w))) ->
  exists w', retry_pending env p w = (Ok tt, w') /\ tried env p w w'.
Proof.
  intros Hin Hnd. unfold retry_pending. destruct (pu_exhausted p) as [e|] eqn:Hex.
  { exists w. split; [done|]. split_and!; [done..|]. intros q Hq Hid. left. rewrite (pending_unique _ p q Hnd Hin Hq Hid).
    split; [done|left; by rewrite Hex]. }
  destruct (Z.geb_spec (pu_retry p) (max_pending_unblock_retries (ev_cfg env))) as [Hge|Hlt].
  { eapply tried_update with (g := fun q => mk_pending (pu_id q) (pu_ip q) (pu_retry q) (Some (ev_utc env)) (Some "max retries exceeded"));
      try done. split; [done|by left; eexists]. }
  unfold sm_bind at 1, sm_try at 1. pose proof (unblock_failures (pu_ip p) w) as Hle.
  assert (sw_tables (unblock_ip_blocking (pu_ip p) w).2 = sw_tables w) as Ht1
    by (destruct (unblock_blocking_frame (pu_ip p) w) as (r & ac & fs & ->); done).
  destruct (unblock_ip_blocking (pu_ip p) w) as [[[]|e] w1]; cbn [snd] in Hle, Ht1; [by apply tried_delete|].
  eapply tried_update with (g := fun q => mk_pending (pu_id q) (pu_ip q) (pu_retry q + 1) (pu_exhausted q) (pu_error q));
    try done. split; [done|right]. cbn. by split_and!.
Qed.

Lemma retry_loop (env : Env) (l : list PendingUnblock) (w : soar_world) :
  Forall (fun p => p ∈ pending_unblock (sw_tables w)) l -> NoDup (map pu_id l) ->
  NoDup (map pu_id (pending_unblock (sw_tables w))) ->
  exists w', sm_iter (retry_pending env) l w = (Ok tt, w') /\ (failures w' <= failures w)%nat /\
    NoDup (map pu_id (pending_unblock (sw_tables w'))) /\
    (forall q, q ∈ pending_unblock (sw_tables w') ->
       (q ∈ pending_unblock (sw_tables w) /\ pu_id q ∉ map pu_id l) \/
       exists p, p ∈ l /\ (retried (max_pending_unblock_retries (ev_cfg env)) p q \/ (q = p /\ (failures w' < failures w)%nat))).
Proof.
  revert w. induction l as [|p l IH]; intros w Hin Hndl Hnd.
  { exists w. split_and!; try done. intros q Hq. left. split; [done|by apply not_elem_of_nil]. }
  apply Forall_cons in Hin as [Hp Hin]. simpl in Hndl. apply NoDup_cons in Hndl as [Hpl Hndl].
  assert (Hne : forall q, q ∈ l -> pu_id q <> pu_id p).
  { intros q Hq He. apply Hpl. rewrite <- He. apply list_elem_of_fmap. by exists q. }
  destruct (retry_one env p w Hp Hnd) as (w1 & Hr & Hf1 & Hnd1 & Hother & Hself).
  cbn [sm_iter]. unfold sm_bind at 1. rewrite Hr.
  destruct (IH w1) as (w' & H1 & H2 & H3 & H4); [|done|done|].
  { rewrite Forall_forall in Hin |- *. intros q Hq. apply Hother; [by apply Hne|by apply Hin]. }
  exists w'. split_and!; [done|lia|done|]. intros q Hq. destruct (H4 q Hq) as [[Hq1 Hn]|(p' & Hp' & Hret)].
  - destruct (Z.eq_dec (pu_id q) (pu_id p)) as [He|He].
    + right. exists p. split; [by left|]. destruct (Hself q Hq1 He) as [|[-> ?]]; [by left|right; split; [done|lia]].
    + left. split; [by apply Hother|]. simpl. by rewrite not_elem_of_cons.
  - right. exists p'. split; [by right|]. destruct Hret as [|[-> ?]]; [by left|right; split; [done|lia]].
Qed.

(** [n] calls of [retry_pending_unblocks], one per start. *)
Fixpoint retry_rounds (env : Env) (n : nat) : soar unit :=
  match n with
  | O => sm_ret tt
  | S n => run! retry_pending_unblocks env in retry_rounds env n
  end.

(** The rounds an entry needs while no call fails. *)
Definition rounds_left (max : Z) (p : PendingUnblock) : Z :=
  match pu_exhausted p with Some _ => 0 | None => Z.max 1 (max + 1 - pu_retry p) end.
Lemma retried_nearer (max : Z) (p q : PendingUnblock) : retried max p q -> rounds_left max q <= Z.max 0 (rounds_left max p - 1).
Proof.
  unfold rounds_left. intros (_ & [[e ->]|(-> & Hlt & -> & ->)]); [destruct (pu_exhausted p); lia|]. lia.
Qed.

(** One round: every entry comes nearer its end, or a call has failed. *)
Lemma retry_round (env : Env) (k : Z) (w : soar_world) :
  let max := max_pending_unblock_retries (ev_cfg env) in
  NoDup (map pu_id (pending_unblock (sw_tables w))) -> 0 <= k ->
  Forall (fun p => rounds_left max p <= k) (pending_unblock (sw_tables w)) ->
  exists w', retry_pending_unblocks env w = (Ok tt, w') /\ NoDup (map pu_id (pending_unblock (sw_tables w'))) /\
    (failures w' <= failures w)%nat /\
    Forall (fun p => rounds_left max p <= Z.max 0 (k - 1) \/ ((failures w' < failures w)%nat /\ rounds_left max p <= k)) (pending_unblock (sw_tables w')).
Proof.
  intros max Hnd Hk Hall. unfold retry_pending_unblocks, db_read. unfold sm_bind at 1, sm_try at 1, sm_bind at 1.
  destruct (outside_failures Database w) as (fs & [[-> Hf]|[-> Hf]]).
  2: { exists (set_sw_faults w fs). split_and!; [done|done|lia|]. eapply Forall_impl; [exact Hall|]. intros p Hp. right. by split. }
  unfold sm_bind at 1, sm_get, sm_ret. unfold list_pending_unblocks.
  destruct (retry_loop env (pending_unblock (sw_tables w)) (set_sw_faults w fs)) as (w' & H1 & H2 & H3 & H4); [by apply Forall_forall|done|done|].
  exists w'. split_and!; [exact H1|done|lia|]. apply Forall_forall. intros q Hq. rewrite Forall_forall in Hall.
  destruct (H4 q Hq) as [[Hin Hn]|(p & Hp & [Hret|[-> Hlt]])].
  - destruct Hn. apply list_elem_of_fmap. by exists q.
  - left. apply retried_nearer in Hret. specialize (Hall p Hp). fold max in Hret. lia.
  - right. split; [lia|by apply Hall].
Qed.

Lemma retry_rounds_left (env : Env) (n : nat) (k : Z) (w : soar_world) :
  let max := max_pending_unblock_retries (ev_cfg env) in
  NoDup (map pu_id (pending_unblock (sw_tables w))) -> 0 <= k -> k = 0 \/ k + Z.of_nat (failures w) <= Z.of_nat n ->
  Forall (fun p => rounds_left max p <= k) (pending_unblock (sw_tables w)) ->
  exists w', retry_rounds env n w = (Ok tt, w') /\ Forall (fun p => rounds_left max p <= 0) (pending_unblock (sw_tables w')).
Proof.
  intros max. revert k w. induction n as [|n IH]; intros k w Hnd Hk Hn Hall.
  { exists w. split; [done|]. eapply Forall_impl; [exact Hall|]. cbn. lia. }
  destruct (retry_round env k w Hnd Hk Hall) as (w1 & Hr & Hnd1 & Hf & Hall1). fold max in Hall1.
  cbn [retry_rounds]. unfold sm_bind at 1. rewrite Hr. destruct (decide (failures w1 < failures w)%nat) as [Hlt|Hge].
  - apply (IH k w1); [done|done|lia|]. eapply Forall_impl; [exact Hall1|]. cbn. lia.
  - apply (IH (Z.max 0 (k - 1)) w1); [done|lia|lia|]. eapply Forall_impl; [exact Hall1|]. cbn. lia.
Qed.

(** C6: The retry queue drains, whatever fails: every failing call delays it by one round at
    most, so after more rounds than the configured maximum and the number of failing calls
    together, every entry that is still queued is marked exhausted and left alone, even when
    no unblock ever succeeds. *)
Theorem pending_unblocks_settle (env : Env) (n : nat) (w : soar_world) :
  NoDup (map pu_id (pending_unblock (sw_tables w))) ->
  Forall (fun p => 0 <= pu_retry p) (pending_unblock (sw_tables w)) ->
  0 <= max_pending_unblock_retries (ev_cfg env) ->
  max_pending_unblock_retries (ev_cfg env) + Z.of_nat (failures w) < Z.of_nat n ->
  exists w', retry_rounds env n w = (Ok tt, w') /\
    Forall (fun p => is_Some (pu_exhausted p)) (pending_unblock (sw_tables w')).
Proof.
  intros Hnd Hall Hmax Hn.
  destruct (retry_rounds_left env n (max_pending_unblock_retries (ev_cfg env) + 1) w Hnd) as (w' & H1 & H2); [lia|right; lia| |].
  { eapply Forall_impl; [exact Hall|]. unfold rounds_left. intros p Hp. cbn in Hp. destruct (pu_exhausted p); lia. }
  exists w'. split; [done|]. eapply Forall_impl; [exact H2|]. unfold rounds_left. intros p Hp. cbn in Hp. destruct (pu_exhausted p); [by eexists|lia].
Qed.

(** ** Cooldowns *)

Lemma execute_actions_ok (env : Env) (l : list PlaybookAction) (event : ThreatDetectedEvent) (id : Z)
    (w : soar_world) :
  exists rs w', execute_actions env l event id w = (Ok rs, w').
Proof.
  revert w. induction l as [|a l IH]; intros w; [by do 2 eexists|]. cbn [execute_actions].
  unfold sm_bind at 1, sm_try. destruct (execute_action env a event id w) as [r w1].
  destruct (IH w1) as (rs & w2 & Hr). unfold sm_bind. rewrite Hr. by do 2 eexists.
Qed.

(** a playbook runs its actions at most once per source and cooldown: after a
    run, failing actions and a failing execution record included, the same
    playbook and source do nothing until the cooldown is over *)
Theorem playbook_runs_once_per_cooldown (env env' : Env) (pb : Playbook) (event event' : ThreatDetectedEvent)
    (w : soar_world) :
  is_cooldown_active (ev_now env) (sw_matcher w) (pb_id pb) (te_source_ip event) (pb_cooldown_secs pb) = false ->
  te_source_ip event' = te_source_ip event ->
  ev_now env' < ev_now env + pb_cooldown_secs pb * NS -> 0 < pb_cooldown_secs pb ->
  let w1 := (execute_playbook env pb event w).2 in
  execute_playbook env' pb event' w1 = (Ok tt, w1).
Proof.
  intros Hcd Hip Htime Hpos w1. subst w1.
  destruct (bool_decide_reflect (te_source_ip event ∈ whitelist (sw_matcher w))) as [Hwl|Hwl].
  { rewrite (whitelisted_playbook env pb event w Hwl). cbn [snd]. apply whitelisted_playbook. by rewrite Hip. }
  assert (exists w2, (execute_playbook env pb event w).2 = w2 /\
    cooldowns (sw_matcher w2) !! (pb_id pb, te_source_ip event) = Some (ev_now env)) as (w2 & -> & Hl).
  { unfold execute_playbook. unfold sm_bind at 1, sm_get. rewrite Hcd. unfold is_whitelisted_source.
    rewrite bool_decide_eq_false_2 by done. unfold sm_bind at 1.
    destruct (execute_actions_ok env (pb_actions pb) event (pb_id pb) w) as (rs & w2 & ->).
    unfold sm_bind at 1, on_matcher, sm_modify, insert_soar_execution, sm_bind.
    destruct (outside_cases Database (set_matcher w2 (record_cooldown (ev_now env) (sw_matcher w2) (pb_id pb)
      (te_source_ip event)))) as (fs & [[-> _]|[-> _]]); (eexists; split; [reflexivity|]); cbn;
      apply lookup_insert_eq. }
  unfold execute_playbook, sm_bind, sm_get. rewrite Hip.
  assert (is_cooldown_active (ev_now env') (sw_matcher w2) (pb_id pb) (te_source_ip event) (pb_cooldown_secs pb) = true)
    as ->; [|done].
  unfold is_cooldown_active. rewrite Hl. apply Z.ltb_lt. unfold elapsed.
  apply Z.div_lt_upper_bound; unfold NS in *; lia.
Qed.

(** ** The cap under contention

    [reserve_block] and [decrement_block_count] are compare-and-swap loops on a
    shared counter.  Each thread is at one point of its loop; a step is one
    atomic access of one thread, and threads interleave freely. *)

Module Cap.

Inductive pc : Type :=
  | Idle
  | Loaded (current_count : Z)         (* reserving, after the load *)
  | Holding                            (* a slot is reserved *)
  | Releasing
  | ReleaseLoaded (current : Z).       (* releasing, after the load *)

Record shared : Type := mk_shared { counter : Z; threads : list pc }.

Inductive cas_step (max_cap : Z) : shared -> shared -> Prop :=
  | reserve_load (s : shared) (i : nat) :
      threads s !! i = Some Idle -> counter s < max_cap ->
      cas_step max_cap s (mk_shared (counter s) (<[i := Loaded (counter s)]> (threads s)))
  | reserve_refused (s : shared) (i : nat) :
      threads s !! i = Some Idle -> max_cap <= counter s -> cas_step max_cap s s
  | reserve_swap (s : shared) (i : nat) (c : Z) :
      threads s !! i = Some (Loaded c) -> counter s = c ->
      cas_step max_cap s (mk_shared (c + 1) (<[i := Holding]> (threads s)))
  | reserve_retry (s : shared) (i : nat) (c : Z) :
      threads s !! i = Some (Loaded c) -> counter s <> c ->
      cas_step max_cap s (mk_shared (counter s) (<[i := Idle]> (threads s)))
  | release_start (s : shared) (i : nat) :
      threads s !! i = Some Holding ->
      cas_step max_cap s (mk_shared (counter s) (<[i := Releasing]> (threads s)))
  | release_none (s : shared) (i : nat) :
      threads s !! i = Some Releasing -> counter s = 0 ->
      cas_step max_cap s (mk_shared (counter s) (<[i := Idle]> (threads s)))
  | release_load (s : shared) (i : nat) :
      threads s !! i = Some Releasing -> counter s <> 0 ->
      cas_step max_cap s (mk_shared (counter s) (<[i := ReleaseLoaded (counter s)]> (threads s)))
  | release_swap (s : shared) (i : nat) (c : Z) :
      threads s !! i = Some (ReleaseLoaded c) -> counter s = c ->
      cas_step max_cap s (mk_shared (c - 1) (<[i := Idle]> (threads s)))
  | release_retry (s : shared) (i : nat) (c : Z) :
      threads s !! i = Some (ReleaseLoaded c) -> counter s <> c ->
      cas_step max_cap s (mk_shared (counter s) (<[i := Releasing]> (threads s))).

Definition holds_slot (p : pc) : bool :=
  match p with Holding | Releasing | ReleaseLoaded _ => true | Idle | Loaded _ => false end.

Definition holders (l : list pc) : Z := Z.of_nat (length (List.filter holds_slot l)).

Definition slot (p : pc) : Z := if holds_slot p then 1 else 0.

Lemma holders_insert (l : list pc) (i : nat) (p q : pc) :
  l !! i = Some p -> holders (<[i := q]> l) = holders l - slot p + slot q.
Proof.
  unfold holders, slot. revert i. induction l as [|x l IH]; intros [|i] Hi; try done.
  - injection Hi as ->. simpl. destruct (holds_slot p), (holds_slot q); simpl; lia.
  - specialize (IH i Hi). simpl in *. destruct (holds_slot x); simpl; lia.
Qed.

Lemma holders_slot (l : list pc) (i : nat) (p : pc) : l !! i = Some p -> slot p <= holders l.
Proof.
  unfold holders, slot. revert i. induction l as [|x l IH]; intros [|i] Hi; try done.
  - injection Hi as ->. simpl. destruct (holds_slot p); simpl; lia.
  - specialize (IH i Hi). simpl in *. destruct (holds_slot x); simpl; lia.
Qed.

(** What a thread read when it decided to reserve was below the cap. *)
Definition cas_inv (max_cap : Z) (s : shared) : Prop :=
  counter s = holders (threads s) /\ counter s <= max_cap /\
  Forall (fun p => match p with Loaded c => c < max_cap | _ => True end) (threads s).

Lemma cas_step_inv (max_cap : Z) (s s' : shared) :
  cas_step max_cap s s' -> cas_inv max_cap s -> cas_inv max_cap s'.
Proof.
  intros Hstep (Hc & Hle & Hl). destruct Hstep; unfold cas_inv; cbn [counter threads]; [|done|..];
    match goal with H : threads _ !! _ = Some _ |- _ =>
      rewrite (holders_insert _ _ _ _ H); pose proof (holders_slot _ _ _ H) as Hh;
      pose proof (Forall_lookup_1 _ _ _ _ Hl H) as Hp; unfold slot in *; simpl in *
    end; (split_and!; [lia|lia|apply Forall_insert; [done|simpl; lia || done]]).
Qed.

(** C3: however the threads interleave, the counter is the number of threads
    that hold a slot and never exceeds the cap: no update is lost and no two
    threads pass the check for the last slot *)
Theorem cap_never_exceeded (max_cap : Z) (n : nat) (s : shared) :
  0 <= max_cap -> rtc (cas_step max_cap) (mk_shared 0 (replicate n Idle)) s ->
  counter s = holders (threads s) /\ counter s <= max_cap.
Proof.
  intros Hcap. assert (cas_inv max_cap (mk_shared 0 (replicate n Idle))) as Hinit.
  { split_and!; cbn; [|done|by apply Forall_replicate].
    unfold holders. by induction n. }
  revert Hinit. generalize (mk_shared 0 (replicate n Idle)).
  intros s0 Hinit Hrun. assert (cas_inv max_cap s) as (H1 & H2 & _); [|done].
  induction Hrun as [|x y z Hxy Hyz IH]; [done|]. by apply IH, (cas_step_inv max_cap x).
Qed.

(** Two threads compete for one slot: the loser's swap fails. *)
Lemma cap_never_exceeded_witness :
  let s := mk_shared 1 [Holding; Idle] in
  rtc (cas_step 1) (mk_shared 0 (replicate 2 Idle)) s /\ counter s = holders (threads s) /\ counter s <= 1.
Proof.
  intros s. assert (rtc (cas_step 1) (mk_shared 0 (replicate 2 Idle)) s) as H.
  { eapply rtc_l; [apply (reserve_load _ _ 1); [reflexivity|cbn; lia]|].
    eapply rtc_l; [apply (reserve_load _ _ 0); [reflexivity|cbn; lia]|].
    eapply rtc_l; [apply (reserve_swap _ _ 0 0); reflexivity|].
    eapply rtc_l; [apply (reserve_retry _ _ 1 0); [reflexivity|cbn; lia]|].
    apply rtc_refl. }
  split; [exact H|]. apply (cap_never_exceeded 1 2 s); [lia|exact H].
Defined.
End Cap.

(** ** Concrete runs *)

#[local] Existing Instance select_sorting.

(** The default settings with the given cap. *)
Definition config_with_cap (cap : Z) : SoarConfig :=
  mk_soar_config cap 86400 16 5 1800 (f64_of_ratio 1 2) 600 10 60 (f32_of_ratio 95 100) 3600 64 50000 200 7200 300 100.

Definition env_at (cap : Z) (enforce : bool) (secs : Z) : Env :=
  mk_env (config_with_cap cap) enforce (secs * NS) (1700000000 + secs) 8210266876799 false false None (fun _ => 200).

Definition event_from (ip : string) : ThreatDetectedEvent :=
  mk_threat "port_scan" (f32_of_ratio 9 10) ip "10.0.0.1" 3 (f64_of_Z 10) 6 None false [ML] 1 (f32_of_ratio 9 10) [].

(** An engine without playbooks: every event takes the fallback block. *)
Definition start_world (cap : Z) (fs : list bool) : soar_world :=
  mk_sw empty_tables fresh_control (new_matcher (config_with_cap cap)) [] (mk_rl (Some (replicate 5 100)) ∅ []) None fs.

Definition block_first (cap : Z) : soar_world :=
  (handle_threat_event (env_at cap true 0) (event_from "203.0.113.7") (start_world cap [])).2.

Lemma monitor_mode_never_enforces_witness :
  same_enforcement (start_world 5 [])
    (handle_threat_event (env_at 5 false 0) (event_from "203.0.113.7") (start_world 5 [])).2 /\
  (handle_threat_event (env_at 5 false 0) (event_from "203.0.113.7") (start_world 5 [])).1 = Ok (Fallback Blocked).
Proof. split; [by apply monitor_mode_never_enforces|vm_compute; reflexivity]. Defined.

Lemma whitelisted_source_untouched_witness :
  let m := mk_matcher [sample_playbook] ["203.0.113.7"] ∅ (new_tracker 10 10 60) 0 in
  let w := set_matcher (start_world 5 []) m in
  exists outcome t, handle_threat_event (env_at 5 true 0) (event_from "203.0.113.7") w =
    (Ok outcome, set_matcher w (set_tracker m t)).
Proof.
  intros m w.
  destruct (whitelisted_source_untouched (env_at 5 true 0) (event_from "203.0.113.7") w) as (o & t & H & _);
    [by left|by exists o, t].
Defined.

Lemma block_action_all_or_nothing_witness :
  let w := start_world 1 [] in
  let r := execute_action (env_at 1 true 0) (fallback_action (config_with_cap 1)) (event_from "203.0.113.7") (-1) w in
  is_ok r.1 = true /\
  active_block_count (sw_matcher r.2) = 1 /\
  exists b, b ∈ soar_block_rules (sw_tables r.2) /\ sb_ip b = "203.0.113.7" /\ sb_expires b = 1700001800.
Proof.
  intros w r. split; [vm_compute; reflexivity|].
  pose proof (block_action_all_or_nothing (env_at 1 true 0) (fallback_action (config_with_cap 1))
    (event_from "203.0.113.7") (-1) w eq_refl eq_refl) as H. fold r in H.
  assert (is_ok r.1 = true) as Hok by (vm_compute; reflexivity).
  destruct r as [[m|e] w'] eqn:Hr; [|done].
  destruct H as (_ & (b & Hb & Hip & _ & He & _) & _ & Hc & _);
    [unfold expiry_fits; vm_compute; congruence|vm_compute; congruence|vm_compute; lia| |].
  - intros a [= <-]. reflexivity.
  - split; [exact Hc|]. exists b. split_and!; [exact Hb|exact Hip|exact He].
Defined.



Lemma recovery_reblocks_active_witness :
  let w := set_acs (block_first 2) fresh_control in      (* the kernel lists after a restart *)
  exists w', recover_active_blocks (env_at 2 true 60) w = (Ok tt, w') /\
    covered (sw_control w') (Ip4 3405803783).
Proof.
  intros w. destruct (recovery_reblocks_active (env_at 2 true 60) w) as (w' & H1 & H2); [constructor|].
  exists w'. split; [exact H1|].
  apply (H2 (mk_block 1 "203.0.113.7" (-1) 1700001800 None true false));
    [by left|vm_compute; reflexivity|vm_compute; reflexivity].
Defined.

Lemma pending_unblocks_settle_witness :
  let w := set_tables (start_world 2 [true; false; true]) (insert_pending_unblock empty_tables "203.0.113.7") in
  exists w', retry_rounds (env_at 2 true 0) 8 w = (Ok tt, w') /\
    Forall (fun p => is_Some (pu_exhausted p)) (pending_unblock (sw_tables w')).
Proof.
  intros w. apply (pending_unblocks_settle (env_at 2 true 0) 8 w);
    [apply NoDup_singleton|apply Forall_singleton; vm_compute; congruence|vm_compute; congruence|vm_compute; reflexivity].
Defined.

Lemma playbook_runs_once_per_cooldown_witness :
  let pb := mk_playbook 1 "scan" true PortScan 60 [fallback_action (config_with_cap 2)] [] in
  let w1 := (execute_playbook (env_at 2 true 0) pb (event_from "203.0.113.7") (start_world 2 [])).2 in
  execute_playbook (env_at 2 true 59) pb (event_from "203.0.113.7") w1 = (Ok tt, w1) /\
  length (sw_executions w1) = 1%nat.
Proof.
  intros pb w1. split; [|vm_compute; reflexivity].
  apply (playbook_runs_once_per_cooldown (env_at 2 true 0) (env_at 2 true 59) pb);
    [reflexivity|reflexivity|vm_compute; reflexivity|vm_compute; reflexivity].
Defined.

(** ** Where blocks and their bookkeeping come apart *)

(** Finding: the count falls behind the open blocks, and the cap is passed, when an
    unblock is repeated for a block that is already closed, and when the cache
    is reloaded between a block's expiry and the next sweep *)
Theorem count_lags_behind_blocks :
  (* cap 1: block, unblock, block another, unblock the first again, block a third *)
  (exists w, (run! handle_threat_event (env_at 1 true 0) (event_from "203.0.113.7") in
              run! manual_unblock (env_at 1 true 1) 1 in
              run! handle_threat_event (env_at 1 true 2) (event_from "203.0.113.8") in
              do! _ := sm_try (E' := soar_error) (manual_unblock (env_at 1 true 3) 1) in
              handle_threat_event (env_at 1 true 4) (event_from "203.0.113.9")) (start_world 1 []) =
             (Ok (Fallback Blocked), w) /\ open_count (sw_tables w) = 2) /\
  (* the first block expires, the cache is reloaded, a second block fits; the sweep closes only the first *)
  (exists w, (run! handle_threat_event (env_at 1 true 0) (event_from "203.0.113.7") in
              run! reload_cache (env_at 1 true 1800) [] in
              run! handle_threat_event (env_at 1 true 1801) (event_from "203.0.113.8") in
              sweep (env_at 1 true 1802)) (start_world 1 []) = (Ok tt, w) /\
     open_count (sw_tables w) = 1 /\ active_block_count (sw_matcher w) = 0).
Proof. split; eexists; (split; [vm_compute; reflexivity|vm_compute; done]). Qed.

(** A playbook that blocks for the given time. *)
Definition block_for (id ttl : Z) : Playbook :=
  mk_playbook id "block" true PortScan 0 [mk_action 1 BlockIp (mk_params (Some ttl) None None None None)] [].

(** Finding: when the shorter of two blocks of one address expires, the sweep takes the
    address out of the kernel list although the longer block is still active *)
Theorem sweep_unblocks_active_address :
  let r := (run! execute_playbook (env_at 5 true 0) (block_for 1 60) (event_from "203.0.113.7") in
            run! execute_playbook (env_at 5 true 0) (block_for 2 3600) (event_from "203.0.113.7") in
            sweep (env_at 5 true 60)) (start_world 5 []) in
  r.1 = Ok tt /\
  count_active_soar_blocks 1700000060 (sw_tables r.2) = 1 /\
  acl_rules (sw_tables r.2) = [soar_row V4 "203.0.113.7"] /\
  blocked_entry (sw_control r.2) (Ip4 3405803783) = None.
Proof. vm_compute. done. Qed.

(** Finding: when the database fails in the middle of a sweep, addresses whose rows
    were already closed stay in the kernel list for good: they are neither
    unblocked nor queued, and no later sweep finds them *)
Theorem sweep_failure_strands_block :
  let r := (run! execute_playbook (env_at 5 true 0) (block_for 1 60) (event_from "203.0.113.7") in
            run! execute_playbook (env_at 5 true 0) (block_for 1 60) (event_from "203.0.113.8") in
            run! sm_modify (fun w => set_sw_faults w [false; false; false; false; true]) in
            do! r := sm_try (E' := soar_error) (sweep (env_at 5 true 60)) in
            run! sweep (env_at 5 true 61) in
            sm_ret r) (start_world 5 []) in
  r.1 = Ok (Err Database) /\
  open_count (sw_tables r.2) = 0 /\ acl_rules (sw_tables r.2) = [] /\ pending_unblock (sw_tables r.2) = [] /\
  blocked_entry (sw_control r.2) (Ip4 3405803783) = Some new_match_all.
Proof. vm_compute. done. Qed.

(** Finding: when storing a second block of a blocked address fails, its rollback
    takes the address out of the kernel list although the first block is active *)
Theorem failed_block_releases_earlier :
  let r := (run! execute_playbook (env_at 5 true 0) (block_for 1 3600) (event_from "203.0.113.7") in
            run! sm_modify (fun w => set_sw_faults w [false; true]) in
            execute_playbook (env_at 5 true 1) (block_for 2 3600) (event_from "203.0.113.7"))
             (start_world 5 []) in
  r.1 = Ok tt /\
  count_active_soar_blocks 1700000001 (sw_tables r.2) = 1 /\
  blocked_entry (sw_control r.2) (Ip4 3405803783) = None.
Proof. vm_compute. done. Qed.
