(* ===== verification/FloatBounds.v ===== *)
(** * Rounding in the unit interval

    Bounds of the float operations on values between 0 and 1, for any format:
    products, complements and conversions of such values round to such values.
    Generic lemmas on the rounding of [SpecFloat], used for the fused
    confidence. *)

From Stdlib Require Import ZArith Lia Bool.
From Corelib Require Import SpecFloat.
From stdpp Require Import base tactics decidable.
From S2P Require Import Prelude Float.

Local Open Scope Z_scope.

Lemma digits2_pos_spec (m : positive) :
  2 ^ (Z.pos (digits2_pos m) - 1) <= Z.pos m < 2 ^ Z.pos (digits2_pos m).
Proof.
  induction m as [m IH|m IH|]; cbn [digits2_pos]; [| |done];
    rewrite Pos2Z.inj_succ, Z.pow_succ_r by lia;
    replace (Z.succ (Z.pos (digits2_pos m)) - 1) with (Z.succ (Z.pos (digits2_pos m) - 1)) by lia;
    rewrite Z.pow_succ_r by lia; lia.
Qed.

(** The number of digits is the least exponent above. *)
Lemma digits2_le (m : positive) (k : Z) : Z.pos m < 2 ^ k -> Z.pos (digits2_pos m) <= k.
Proof.
  intros H. pose proof (digits2_pos_spec m) as [Hl _].
  destruct (Z.le_gt_cases (Z.pos (digits2_pos m)) k); [done|].
  assert (2 ^ k <= 2 ^ (Z.pos (digits2_pos m) - 1)) by (apply Z.pow_le_mono_r; lia). lia.
Qed.

Lemma digits2_ge (m : positive) (k : Z) : 0 <= k -> 2 ^ (k - 1) <= Z.pos m -> k <= Z.pos (digits2_pos m).
Proof.
  intros Hk H. pose proof (digits2_pos_spec m) as [_ Hu].
  destruct (Z.le_gt_cases k (Z.pos (digits2_pos m))); [done|].
  assert (2 ^ Z.pos (digits2_pos m) <= 2 ^ (k - 1)) by (apply Z.pow_le_mono_r; lia). lia.
Qed.

Lemma iter_pos_nat {A} (f : A -> A) (n : positive) (x : A) :
  iter_pos f n x = Nat.iter (Pos.to_nat n) f x.
Proof.
  revert x. induction n as [n IH|n IH|]; intros x; cbn [iter_pos]; [| |done].
  - rewrite !IH, <- Nat.iter_add, Pos2Nat.inj_xI. rewrite <- Nat.iter_succ_r. f_equal. lia.
  - rewrite !IH, <- Nat.iter_add, Pos2Nat.inj_xO. f_equal. lia.
Qed.

(** [m] shifted right by [n]: the quotient, and no residue bits for an exact one. *)
Definition shifted (m n : Z) (mrs : shr_record) : Prop :=
  exists rest, m = shr_m mrs * 2 ^ n + rest /\ 0 <= rest < 2 ^ n /\ 0 <= shr_m mrs /\
    (rest = 0 -> loc_of_shr_record mrs = loc_Exact).

Lemma shr_1_shifted (m n : Z) (mrs : shr_record) :
  0 <= n -> shifted m n mrs -> shifted m (n + 1) (shr_1 mrs).
Proof.
  intros Hn (rest & Hm & Hr & H0 & He). unfold shifted. rewrite Z.pow_add_r by lia. change (2 ^ 1) with 2.
  destruct mrs as [[|[p|p|]|p] r s]; cbn [shr_1 shr_m] in *; [| | | |lia].
  - exists rest. split_and!; [lia|lia|lia|lia|]. intros H. specialize (He H). by destruct r, s.
  - exists (2 ^ n + rest). split_and!; lia.
  - exists rest. split_and!; [lia|lia|lia|lia|]. intros H. specialize (He H). by destruct r, s.
  - exists (2 ^ n + rest). split_and!; lia.
Qed.

Lemma shr_shifted (m e n : Z) :
  0 <= m -> 0 <= n ->
  exists mrs, shr (shr_record_of_loc m loc_Exact) e n = (mrs, e + n) /\ shifted m n mrs.
Proof.
  intros Hm Hn. assert (forall k : nat, shifted m (Z.of_nat k) (Nat.iter k shr_1 (shr_record_of_loc m loc_Exact))) as H.
  { induction k as [|k IH]; [exists 0; cbn; split_and!; (done || lia)|]. rewrite Nat2Z.inj_succ. apply shr_1_shifted; [lia|exact IH]. }
  destruct n as [|p|p]; [|exists (Nat.iter (Pos.to_nat p) shr_1 (shr_record_of_loc m loc_Exact))|lia].
  - exists (shr_record_of_loc m loc_Exact). rewrite Z.add_0_r. split; [done|apply (H 0%nat)].
  - unfold shr. rewrite iter_pos_nat. split; [done|]. specialize (H (Pos.to_nat p)). by rewrite positive_nat_Z in H.
Qed.

Lemma round_up_at_most (mx : Z) (l : location) :
  mx <= round_nearest_even mx l <= mx + 1 /\ (l = loc_Exact -> round_nearest_even mx l = mx).
Proof. destruct l as [|[]]; cbn; [lia| | |]; try (destruct (Z.even mx)); split; (lia || done). Qed.

Section Unit.
Variables prec emax : Z.
Hypothesis Hprec : 2 <= prec.
Hypothesis Hemax : prec < emax.

Notation fexp := (fexp prec emax).
Notation emin := (emin prec emax).

Definition canonical (m : positive) (e : Z) : Prop := fexp (Z.pos (digits2_pos m) + e) = e.

Definition fone : float := S754_finite false (Z.to_pos (2 ^ (prec - 1))) (1 - prec).

(** A canonical float between 0 and 1, of either zero. *)
Inductive unit_float : float -> Prop :=
  | unit_zero (s : bool) : unit_float (S754_zero s)
  | unit_finite (m : positive) (e : Z) :
      canonical m e -> e <= 1 - prec -> Z.pos m <= 2 ^ (- e) -> unit_float (S754_finite false m e).

Lemma fone_mantissa : Z.pos (Z.to_pos (2 ^ (prec - 1))) = 2 ^ (prec - 1).
Proof. apply Z2Pos.id. apply Z.pow_pos_nonneg; lia. Qed.

Lemma unit_float_bounds (x : float) :
  unit_float x -> fle (S754_zero false) x = true /\ fle x fone = true.
Proof.
  intros [s|m e Hc He Hm]; [by destruct s|]. split; [done|]. unfold fle, SFleb, SFcompare, fone.
  destruct (Z.compare_spec e (1 - prec)) as [->|Hlt|Hgt]; [|done|lia].
  assert (Pos.le m (Z.to_pos (2 ^ (prec - 1)))) as Hle.
  { unfold Pos.le. change (Z.compare (Z.pos m) (Z.pos (Z.to_pos (2 ^ (prec - 1)))) <> Gt).
    apply Z.compare_le_iff. rewrite fone_mantissa. replace (prec - 1) with (- (1 - prec)) by lia. done. }
  unfold Pos.le, Pos.compare in Hle. by destruct (Pos.compare_cont _ _ _).
Qed.

(** Shifting to the exponent of the format. *)
Lemma shr_fexp_exact (m : positive) (e : Z) :
  e <= fexp (Z.pos (digits2_pos m) + e) ->
  exists mrs, shr_fexp prec emax (Z.pos m) e loc_Exact = (mrs, fexp (Z.pos (digits2_pos m) + e)) /\
    shifted (Z.pos m) (fexp (Z.pos (digits2_pos m) + e) - e) mrs.
Proof.
  intros He. unfold shr_fexp. cbn [Zdigits2].
  destruct (shr_shifted (Z.pos m) e (fexp (Z.pos (digits2_pos m) + e) - e)) as (mrs & -> & H); [lia|lia|].
  exists mrs. split; [f_equal; lia|done].
Qed.

Lemma pow_split (a b : Z) : 0 <= a -> 0 <= b -> 2 ^ (a + b) = 2 ^ a * 2 ^ b.
Proof. intros. by rewrite Z.pow_add_r. Qed.

(** The mantissa after a shift has the digits left over. *)
Lemma shifted_digits (m : positive) (n : Z) (mrs : shr_record) (p : positive) :
  0 <= n -> shifted (Z.pos m) n mrs -> shr_m mrs = Z.pos p ->
  Z.pos (digits2_pos p) = Z.pos (digits2_pos m) - n.
Proof.
  intros Hn (rest & Hm & Hr & _) Hp. rewrite Hp in Hm.
  pose proof (digits2_pos_spec m) as [Hl Hu]. pose proof (Z.pow_pos_nonneg 2 n ltac:(lia) Hn) as Hpow.
  assert (n < Z.pos (digits2_pos m)) as Hlt.
  { destruct (Z.lt_ge_cases n (Z.pos (digits2_pos m))) as [|Hge]; [done|].
    assert (2 ^ Z.pos (digits2_pos m) <= 2 ^ n) by (apply Z.pow_le_mono_r; lia). nia. }
  apply Z.le_antisymm.
  - apply digits2_le. apply (Z.mul_lt_mono_pos_r (2 ^ n)); [done|].
    rewrite <- pow_split by lia. replace (Z.pos (digits2_pos m) - n + n) with (Z.pos (digits2_pos m)) by lia. lia.
  - apply digits2_ge; [lia|]. apply Z.lt_succ_r, (Z.mul_lt_mono_pos_r (2 ^ n)); [done|].
    rewrite <- pow_split by lia. replace (Z.pos (digits2_pos m) - n - 1 + n) with (Z.pos (digits2_pos m) - 1) by lia. nia.
Qed.

(** The last step of rounding, on the rounded mantissa. *)
Definition finish (r e : Z) : float :=
  let '(mrs, e') := shr_fexp prec emax r e loc_Exact in
  match shr_m mrs with
  | Z0 => S754_zero false
  | Zpos m => if e' <=? emax - prec then S754_finite false m e' else S754_infinity false
  | _ => S754_nan
  end.

Lemma finish_zero (e : Z) : finish 0 e = S754_zero false.
Proof.
  unfold finish, shr_fexp. cbn [Zdigits2]. rewrite Z.add_0_l.
  destruct (Z.le_gt_cases (fexp e) e) as [Hle|Hgt].
  - unfold shr. destruct (fexp e - e) eqn:Ez; [done|lia|done].
  - destruct (shr_shifted 0 e (fexp e - e)) as (mrs & -> & (rest & H1 & H2 & H3 & _)); [lia|lia|].
    pose proof (Z.pow_pos_nonneg 2 (fexp e - e) ltac:(lia) ltac:(lia)).
    by replace (shr_m mrs) with 0 by nia.
Qed.

(** Non-negative floats of the format; any zero. *)
Inductive plus_float : float -> Prop :=
  | plus_zero (s : bool) : plus_float (S754_zero s)
  | plus_finite (m : positive) (e : Z) : canonical m e -> plus_float (S754_finite false m e)
  | plus_infinity : plus_float (S754_infinity false).

Lemma finish_plus (m : positive) (e : Z) :
  e <= fexp (Z.pos (digits2_pos m) + e) -> plus_float (finish (Z.pos m) e).
Proof.
  intros He. unfold finish. destruct (shr_fexp_exact m e He) as (mrs & -> & Hs).
  destruct (shr_m mrs) as [|p|p] eqn:Hp; [apply plus_zero| |].
  2: { destruct Hs as (rest & _ & _ & H0 & _). lia. }
  destruct (_ <=? _); [apply plus_finite|apply plus_infinity].
  unfold canonical. rewrite (shifted_digits m (fexp (Z.pos (digits2_pos m) + e) - e) mrs p) by (done || lia).
  f_equal. lia.
Qed.

Lemma exponent_unit (m : positive) (e : Z) :
  e <= 0 -> Z.pos m <= 2 ^ (- e) -> fexp (Z.pos (digits2_pos m) + e) <= 1 - prec.
Proof.
  intros Hneg Hm. unfold SpecFloat.fexp, SpecFloat.emin. pose proof (digits2_le m (1 - e)) as Hd.
  assert (2 ^ (- e) < 2 ^ (1 - e)) by (apply Z.pow_lt_mono_r; lia). lia.
Qed.

Lemma finish_unit (m : positive) (e : Z) :
  e <= fexp (Z.pos (digits2_pos m) + e) -> e <= 0 -> Z.pos m <= 2 ^ (- e) -> unit_float (finish (Z.pos m) e).
Proof.
  intros He Hneg Hm. pose proof (finish_plus m e He) as Hplus. revert Hplus.
  pose proof (exponent_unit m e Hneg Hm) as He'.
  unfold finish. destruct (shr_fexp_exact m e He) as (mrs & -> & Hs).
  set (e' := fexp (Z.pos (digits2_pos m) + e)) in *.
  destruct (shr_m mrs) as [|p|p] eqn:Hp; [intros _; apply unit_zero| |by intros H; inversion H].
  rewrite (proj2 (Z.leb_le e' (emax - prec))) by lia. intros H. inversion H as [|? ? Hc|]. subst.
  apply unit_finite; [done|done|]. destruct Hs as (rest & Heq & Hrest & _). rewrite Hp in Heq.
  pose proof (Z.pow_pos_nonneg 2 (e' - e) ltac:(lia) ltac:(lia)) as Hpow.
  apply (Z.mul_le_mono_pos_r _ _ (2 ^ (e' - e))); [done|]. rewrite <- pow_split by lia.
  replace (- e' + (e' - e)) with (- e) by lia. lia.
Qed.

(** Rounding to the format: the mantissa before the last step. *)
Lemma round_steps (m : positive) (e : Z) :
  e <= fexp (Z.pos (digits2_pos m) + e) ->
  let e' := fexp (Z.pos (digits2_pos m) + e) in
  exists r, binary_round_aux prec emax false (Z.pos m) e loc_Exact = finish r e' /\ 0 <= r /\
    (forall p, r = Z.pos p -> e' <= fexp (Z.pos (digits2_pos p) + e')) /\
    (e' <= 0 -> Z.pos m <= 2 ^ (- e) -> r <= 2 ^ (- e')).
Proof.
  intros He e'. unfold binary_round_aux. destruct (shr_fexp_exact m e He) as (mrs & -> & Hs). fold e' in Hs |- *.
  pose proof Hs as (rest & Heq & Hrest & Hnn & Hex).
  destruct (round_up_at_most (shr_m mrs) (loc_of_shr_record mrs)) as [Hup Hexact].
  set (r := round_nearest_even (shr_m mrs) (loc_of_shr_record mrs)) in *.
  pose proof (Z.pow_pos_nonneg 2 (e' - e) ltac:(lia) ltac:(lia)) as Hpow.
  exists r. split_and!; [done|lia| |].
  - intros p Hp. subst e'. unfold SpecFloat.fexp in *. set (d := Z.pos (digits2_pos m)) in *.
    destruct (Z.le_gt_cases (d + e - prec) emin) as [Hsub|Hnorm]; [rewrite Z.max_r in * by done; lia|].
    rewrite Z.max_l in * by lia. assert (prec <= Z.pos (digits2_pos p)); [|lia].
    destruct (shr_m mrs) as [|q|q] eqn:Hq; [|rewrite <- Hq in *|lia].
    + exfalso. pose proof (digits2_pos_spec m) as [Hl _]. fold d in Hl.
      assert (2 ^ (d + e - prec - e) <= 2 ^ (d - 1)) by (apply Z.pow_le_mono_r; lia). lia.
    + pose proof (shifted_digits m (d + e - prec - e) mrs q ltac:(lia) Hs Hq) as Hdq. fold d in Hdq.
      pose proof (digits2_pos_spec q) as [Hlq _]. rewrite Hq in Hup. apply digits2_ge; [lia|].
      replace (prec - 1) with (Z.pos (digits2_pos q) - 1) by lia. lia.
  - intros Hneg Hm. assert (2 ^ (- e) = 2 ^ (- e') * 2 ^ (e' - e)) as Hsplit
      by (rewrite <- pow_split by lia; f_equal; lia).
    destruct (Z.eq_dec rest 0) as [Hz|Hz]; [rewrite Hexact by auto; nia|]. nia.
Qed.

(** A value in (0, 1] rounds to one in [0, 1]. *)
Lemma round_unit (m : positive) (e : Z) :
  e <= fexp (Z.pos (digits2_pos m) + e) -> e <= 0 -> Z.pos m <= 2 ^ (- e) ->
  unit_float (binary_round_aux prec emax false (Z.pos m) e loc_Exact).
Proof.
  intros He Hneg Hm. destruct (round_steps m e He) as (r & -> & Hr & Hgrow & Hle).
  pose proof (exponent_unit m e Hneg Hm) as He'.
  destruct r as [|p|p]; [rewrite finish_zero; apply unit_zero| |lia].
  apply finish_unit; [by apply Hgrow|lia|]. apply Hle; [lia|done].
Qed.

Lemma round_plus (m : positive) (e : Z) :
  e <= fexp (Z.pos (digits2_pos m) + e) ->
  plus_float (binary_round_aux prec emax false (Z.pos m) e loc_Exact).
Proof.
  intros He. destruct (round_steps m e He) as (r & -> & Hr & Hgrow & _).
  destruct r as [|p|p]; [rewrite finish_zero; apply plus_zero| |lia]. by apply finish_plus, Hgrow.
Qed.

(** Aligning makes the precondition of rounding hold. *)
Lemma digits2_iter_xO (m d : positive) :
  Z.pos (digits2_pos (Pos.iter xO m d)) = Z.pos (digits2_pos m) + Z.pos d /\
  Z.pos (Pos.iter xO m d) = Z.pos m * 2 ^ Z.pos d.
Proof.
  induction d as [|d [IH1 IH2]] using Pos.peano_ind; [cbn; lia|].
  rewrite Pos.iter_succ. cbn [digits2_pos]. split; [lia|].
  rewrite (Pos2Z.inj_succ d), Z.pow_succ_r by lia. rewrite Pos2Z.inj_xO. nia.
Qed.

Lemma align_spec (m : positive) (e : Z) :
  exists m' e', shl_align m e (fexp (Z.pos (digits2_pos m) + e)) = (m', e') /\
    e' <= fexp (Z.pos (digits2_pos m') + e') /\ e' <= e /\ Z.pos m' = Z.pos m * 2 ^ (e - e').
Proof.
  unfold shl_align. destruct (fexp (Z.pos (digits2_pos m) + e) - e) as [|d|d] eqn:Hd.
  - exists m, e. rewrite Z.sub_diag, Z.pow_0_r. split_and!; [done|lia|lia|lia].
  - exists m, e. rewrite Z.sub_diag, Z.pow_0_r. split_and!; [done|lia|lia|lia].
  - destruct (digits2_iter_xO m d) as [H1 H2]. exists (Pos.iter xO m d), (fexp (Z.pos (digits2_pos m) + e)).
    split_and!; [done| |lia|].
    + rewrite H1. replace (Z.pos (digits2_pos m) + Z.pos d + fexp (Z.pos (digits2_pos m) + e))
        with (Z.pos (digits2_pos m) + e) by lia. lia.
    + rewrite H2. f_equal. f_equal. lia.
Qed.

Lemma normalize_unit (m : Z) (e : Z) :
  0 <= m -> e <= 0 -> m <= 2 ^ (- e) -> unit_float (binary_normalize prec emax m e false).
Proof.
  intros H0 He Hm. destruct m as [|m|m]; [apply unit_zero| |lia]. cbn [binary_normalize]. unfold binary_round.
  destruct (align_spec m e) as (m' & e' & -> & H1 & H2 & H3). apply round_unit; [done|lia|].
  rewrite H3. replace (- e') with (- e + (e - e')) by lia. rewrite pow_split by lia.
  apply Z.mul_le_mono_nonneg_r; [|done]. apply Z.pow_nonneg. lia.
Qed.

Lemma normalize_plus (m : positive) (e : Z) : plus_float (binary_normalize prec emax (Z.pos m) e false).
Proof.
  cbn [binary_normalize]. unfold binary_round. destruct (align_spec m e) as (m' & e' & -> & H1 & _).
  by apply round_plus.
Qed.

(** ** Operations *)

Lemma unit_mul (x y : float) : unit_float x -> unit_float y -> unit_float (SFmul prec emax x y).
Proof.
  intros [s|m e Hc He Hm] [s'|m' e' Hc' He' Hm']; cbn [SFmul xorb]; try apply unit_zero.
  apply round_unit; [|lia|].
  - unfold canonical, SpecFloat.fexp in *.
    pose proof (digits2_pos_spec m) as [Hl _]. pose proof (digits2_pos_spec m') as [Hl' _].
    assert (Z.pos (digits2_pos m) + Z.pos (digits2_pos m') - 1 <= Z.pos (digits2_pos (m * m'))) as Hd.
    { apply digits2_ge; [lia|].
      replace (Z.pos (digits2_pos m) + Z.pos (digits2_pos m') - 1 - 1)
        with ((Z.pos (digits2_pos m) - 1) + (Z.pos (digits2_pos m') - 1)) by lia.
      rewrite pow_split by lia. rewrite Pos2Z.inj_mul.
      pose proof (Z.pow_nonneg 2 (Z.pos (digits2_pos m) - 1)). nia. }
    destruct (Z.le_gt_cases (Z.pos (digits2_pos m) + e - prec) emin); [rewrite Z.max_r in Hc by done; lia|].
    destruct (Z.le_gt_cases (Z.pos (digits2_pos m') + e' - prec) emin); [rewrite Z.max_r in Hc' by done; lia|].
    rewrite Z.max_l in Hc, Hc' by lia. lia.
  - replace (- (e + e')) with (- e + - e') by lia. rewrite pow_split, Pos2Z.inj_mul by lia.
    apply Z.mul_le_mono_nonneg; lia.
Qed.

Lemma shl_align_value (m : positive) (e e' : Z) :
  e' <= e -> Z.pos (shl_align m e e').1 = Z.pos m * 2 ^ (e - e').
Proof.
  intros He. unfold shl_align. destruct (e' - e) as [|d|d] eqn:Hd; cbn [fst].
  - replace (e - e') with 0 by lia. lia.
  - lia.
  - destruct (digits2_iter_xO m d) as [_ ->]. f_equal. f_equal. lia.
Qed.

Lemma unit_one_minus (x : float) : unit_float x -> unit_float (SFsub prec emax fone x).
Proof.
  intros [s|m e Hc He Hm]; unfold fone; cbn [SFsub].
  - apply unit_finite; [|lia|].
    + assert (Z.pos (digits2_pos (Z.to_pos (2 ^ (prec - 1)))) = prec) as Hd.
      { apply Z.le_antisymm; [apply digits2_le|apply digits2_ge; [lia|]]; rewrite fone_mantissa; [|lia].
        apply Z.pow_lt_mono_r; lia. }
      unfold canonical, SpecFloat.fexp, SpecFloat.emin. rewrite Hd. lia.
    + rewrite fone_mantissa. replace (- (1 - prec)) with (prec - 1) by lia. lia.
  - rewrite Z.min_r by lia. cbn [cond_Zopp]. rewrite !shl_align_value by lia. rewrite fone_mantissa, Z.sub_diag.
    rewrite <- pow_split by lia. replace (prec - 1 + (1 - prec - e)) with (- e) by lia.
    apply normalize_unit; lia.
Qed.

(** [clamp(0.0, 1.0)] of anything but NaN. *)
Lemma clamp_unit (x : float) :
  plus_float x -> unit_float (fclamp x (S754_zero false) fone).
Proof.
  assert (unit_float fone) as Hone by (apply (unit_one_minus (S754_zero false)), unit_zero).
  intros [s|m e Hc|]; unfold fclamp; [destruct s; apply unit_zero| |exact Hone].
  change (flt (S754_finite false m e) (S754_zero false)) with false. cbv iota zeta.
  unfold fgt, SFltb, SFcompare, fone. fold fone.
  destruct (Z.compare_spec (1 - prec) e) as [<-|Hlt|Hgt]; [|exact Hone|].
  - destruct (Pos.compare_cont Eq (Z.to_pos (2 ^ (prec - 1))) m) eqn:Hcmp; [| exact Hone|];
      (apply unit_finite; [done|lia|]; replace (- (1 - prec)) with (prec - 1) by lia; rewrite <- fone_mantissa;
       change (Pos.compare (Z.to_pos (2 ^ (prec - 1))) m = Eq) in Hcmp ||
       change (Pos.compare (Z.to_pos (2 ^ (prec - 1))) m = Gt) in Hcmp).
    + apply Pos.compare_eq in Hcmp. subst m. lia.
    + apply Pos.compare_gt_iff in Hcmp. lia.
  - apply unit_finite; [done|lia|]. unfold canonical, SpecFloat.fexp in Hc.
    pose proof (digits2_pos_spec m) as [_ Hu]. assert (2 ^ Z.pos (digits2_pos m) <= 2 ^ (- e)); [|lia].
    apply Z.pow_le_mono_r; lia.
Qed.

Lemma unit_plus (x : float) : unit_float x -> plus_float x.
Proof. intros [s|m e Hc He Hm]; [apply plus_zero|by apply plus_finite]. Qed.

(** Rounding is symmetric. *)
Lemma round_opp (m : Z) (e : Z) (l : location) :
  binary_round_aux prec emax true m e l = SFopp (binary_round_aux prec emax false m e l).
Proof.
  unfold binary_round_aux. destruct (shr_fexp prec emax m e l) as [mrs e'].
  destruct (shr_fexp prec emax _ e' loc_Exact) as [mrs' e'']. destruct (shr_m mrs'); [done| |done].
  by destruct (_ <=? _).
Qed.

(** [clamp(0.0, 1.0)] after a conversion from any format, of anything but NaN. *)
Lemma clamp_convert_unit (x : float) :
  x <> S754_nan -> unit_float (fclamp (convert prec emax x) (S754_zero false) fone).
Proof.
  intros Hx. destruct x as [s|s| |s m e]; cbn [convert]; [apply clamp_unit, plus_zero| |done|].
  - destruct s; [apply unit_zero|apply clamp_unit, plus_infinity].
  - destruct s; [|apply clamp_unit, normalize_plus]. cbn [binary_normalize]. unfold binary_round.
    destruct (align_spec m e) as (m' & e' & -> & H1 & _). rewrite round_opp.
    destruct (round_plus m' e' H1) as [s|m2 e2 _|]; cbn [SFopp negb].
    + apply clamp_unit, plus_zero.
    + apply unit_zero.
    + apply unit_zero.
Qed.
End Unit.

(** Conversion to a format with a smaller or equal range keeps the interval. *)
Lemma convert_unit (prec emax prec' emax' : Z) (x : float) :
  2 <= prec -> prec < emax -> 2 <= prec' -> prec' < emax' ->
  unit_float prec emax x -> unit_float prec' emax' (convert prec' emax' x).
Proof.
  intros H1 H2 H3 H4 [s|m e Hc He Hm]; cbn [convert]; [apply unit_zero|]. apply normalize_unit; lia.
Qed.

(** ** Widening a [f32] is exact and keeps comparisons *)

Lemma shr_fexp_canonical (prec emax : Z) (m : positive) (e : Z) :
  canonical prec emax m e -> shr_fexp prec emax (Z.pos m) e loc_Exact = (shr_record_of_loc (Z.pos m) loc_Exact, e).
Proof. unfold canonical, shr_fexp. cbn [Zdigits2]. intros ->. by rewrite Z.sub_diag. Qed.

Lemma round_canonical (prec emax : Z) (s : bool) (m : positive) (e : Z) :
  canonical prec emax m e -> e <= emax - prec -> binary_round_aux prec emax s (Z.pos m) e loc_Exact = S754_finite s m e.
Proof.
  intros Hc He. unfold binary_round_aux. rewrite (shr_fexp_canonical _ _ _ _ Hc).
  cbn [shr_m shr_record_of_loc loc_of_shr_record round_nearest_even]. rewrite (shr_fexp_canonical _ _ _ _ Hc).
  cbn [shr_m shr_record_of_loc]. by rewrite (proj2 (Z.leb_le _ _) He).
Qed.

Definition valid_f32 (x : float) : Prop := valid_binary 24 128 x = true.

(** What a finite [f32] becomes: the mantissa has all 53 digits. *)
Lemma widen_finite (s : bool) (m : positive) (e : Z) :
  valid_f32 (S754_finite s m e) ->
  exists m', f64_of_f32 (S754_finite s m e) = S754_finite s m' (Z.pos (digits2_pos m) + e - 53) /\
    Z.pos m' = Z.pos m * 2 ^ (53 - Z.pos (digits2_pos m)) /\
    Z.pos (digits2_pos m) <= 24 /\ (e = -149 \/ Z.pos (digits2_pos m) = 24 /\ -149 <= e).
Proof.
  unfold valid_f32. cbn [valid_binary]. unfold bounded, canonical_mantissa. intros [Hc%Z.eqb_eq He%Z.leb_le]%andb_true_iff.
  unfold SpecFloat.fexp, SpecFloat.emin in Hc. pose proof (Pos2Z.is_pos (digits2_pos m)) as Hd.
  set (d := Z.pos (digits2_pos m)) in *. assert (d <= 24 /\ (e = -149 \/ d = 24 /\ -149 <= e)) as [Hd1 Hd2] by lia.
  unfold f64_of_f32, convert.
  assert (binary_normalize 53 1024 (if s then Z.neg m else Z.pos m) e s = binary_round 53 1024 s m e) as -> by by destruct s.
  unfold binary_round, shl_align. fold d.
  assert (SpecFloat.fexp 53 1024 (d + e) = d + e - 53) as Hf by (unfold SpecFloat.fexp, SpecFloat.emin; lia).
  rewrite Hf. destruct (d + e - 53 - e) as [|p|p] eqn:Hp; [lia|lia|].
  destruct (digits2_iter_xO 53 ltac:(lia) m p) as [H1 H2]. exists (Pos.iter xO m p).
  split; [|split; [rewrite H2; by replace (53 - d) with (Z.pos p) by lia|done]]. apply round_canonical; [|lia].
  unfold canonical. rewrite H1. fold d. replace (d + Z.pos p + (d + e - 53)) with (d + e) by lia. done.
Qed.

Definition lex_compare (m1 : positive) (e1 : Z) (m2 : positive) (e2 : Z) : comparison :=
  match Z.compare e1 e2 with Eq => Pos.compare m1 m2 | c => c end.

Lemma widen_lex (s1 s2 : bool) (m1 m2 : positive) (e1 e2 : Z) :
  valid_f32 (S754_finite s1 m1 e1) -> valid_f32 (S754_finite s2 m2 e2) ->
  exists m1' m2', f64_of_f32 (S754_finite s1 m1 e1) = S754_finite s1 m1' (Z.pos (digits2_pos m1) + e1 - 53) /\
    f64_of_f32 (S754_finite s2 m2 e2) = S754_finite s2 m2' (Z.pos (digits2_pos m2) + e2 - 53) /\
    lex_compare m1' (Z.pos (digits2_pos m1) + e1 - 53) m2' (Z.pos (digits2_pos m2) + e2 - 53) = lex_compare m1 e1 m2 e2.
Proof.
  intros H1 H2. destruct (widen_finite _ _ _ H1) as (m1' & E1 & V1 & D1 & C1), (widen_finite _ _ _ H2) as (m2' & E2 & V2 & D2 & C2).
  exists m1', m2'. split; [done|]. split; [done|]. unfold lex_compare.
  pose proof (digits2_pos_spec m1) as [L1 U1]. pose proof (digits2_pos_spec m2) as [L2 U2].
  set (d1 := Z.pos (digits2_pos m1)) in *. set (d2 := Z.pos (digits2_pos m2)) in *.
  destruct (Z.compare_spec e1 e2) as [->|Hlt|Hgt].
  - destruct (Z.compare_spec (d1 + e2 - 53) (d2 + e2 - 53)) as [Heq|Hlt|Hgt].
    + assert (d1 = d2) as Hd by lia. change (Z.compare (Z.pos m1') (Z.pos m2') = Z.compare (Z.pos m1) (Z.pos m2)).
      rewrite V1, V2, Hd. pose proof (Z.pow_pos_nonneg 2 (53 - d2) ltac:(lia) ltac:(lia)).
      rewrite <- Zmult_compare_compat_r by lia. done.
    + symmetry. change (Z.compare (Z.pos m1) (Z.pos m2) = Lt). apply Z.compare_lt_iff.
      assert (2 ^ d1 <= 2 ^ (d2 - 1)) by (apply Z.pow_le_mono_r; lia). lia.
    + symmetry. change (Z.compare (Z.pos m1) (Z.pos m2) = Gt). apply Z.compare_gt_iff.
      assert (2 ^ d2 <= 2 ^ (d1 - 1)) by (apply Z.pow_le_mono_r; lia). lia.
  - by rewrite (proj2 (Z.compare_lt_iff _ _)) by lia.
  - by rewrite (proj2 (Z.compare_gt_iff _ _)) by lia.
Qed.

Lemma widen_compare (x y : float) : valid_f32 x -> valid_f32 y -> SFcompare (f64_of_f32 x) (f64_of_f32 y) = SFcompare x y.
Proof.
  intros Hx Hy. destruct x as [s1|s1| |s1 m1 e1], y as [s2|s2| |s2 m2 e2]; try done;
    try (destruct (widen_finite _ _ _ Hx) as (? & -> & _); by destruct s1);
    try (destruct (widen_finite _ _ _ Hy) as (? & -> & _); by destruct s2).
  - destruct (widen_lex _ _ _ _ _ _ Hx Hy) as (m1' & m2' & -> & -> & Hl). unfold lex_compare in Hl. cbn [SFcompare].
    destruct s1, s2; try done.
    + change (Pos.compare_cont Eq m1' m2') with (Pos.compare m1' m2'). change (Pos.compare_cont Eq m1 m2) with (Pos.compare m1 m2).
      destruct (Z.compare (_ + e1 - 53) _), (Z.compare e1 e2), (Pos.compare m1' m2'), (Pos.compare m1 m2); done.
    + change (Pos.compare_cont Eq m1' m2') with (Pos.compare m1' m2'). change (Pos.compare_cont Eq m1 m2) with (Pos.compare m1 m2).
      destruct (Z.compare (_ + e1 - 53) _), (Z.compare e1 e2), (Pos.compare m1' m2'), (Pos.compare m1 m2); done.
Qed.

(** Ordered bounds stay ordered. *)
Lemma widen_ordered (lo hi : float) :
  valid_f32 lo -> valid_f32 hi -> is_finite lo = true -> is_finite hi = true -> fgt lo hi = false ->
  fle (f64_of_f32 lo) (f64_of_f32 hi) = true.
Proof.
  intros Hl Hh Fl Fh Hgt. unfold fle, SFleb. rewrite widen_compare by done. unfold fgt, SFltb in Hgt.
  destruct lo as [s1|s1| |s1 m1 e1], hi as [s2|s2| |s2 m2 e2]; try done; cbn [SFcompare] in *; try (by destruct s1); try (by destruct s2).
  destruct s1, s2; try done;
    rewrite (Z.compare_antisym e1 e2) in Hgt; destruct (Z.compare e1 e2); try done; cbn [CompOpp] in Hgt;
    change (Pos.compare_cont Eq m1 m2) with (Pos.compare m1 m2); change (Pos.compare_cont Eq m2 m1) with (Pos.compare m2 m1) in Hgt;
    rewrite (Pos.compare_antisym m1 m2) in Hgt; by destruct (Pos.compare m1 m2).
Qed.
