(* ===== verification/Fusion.v ===== *)
(** * Fusion of detections (core/detection/orchestrator.rs, metrics.rs,
    domain/detection/fusion_math.rs)

    The orchestrator turns detections of four sources into threat events: it
    keeps one entry per (source address, canonical attack type) for the dedup
    window, emits when the entry opens and whenever another source joins it in
    its fusion window, and suppresses the rest.  Its three LRU caches are the
    [lru] crate's, a parameter with the documented laws.  Times are
    nanoseconds, one reading per detection; [geoip] is the lookup service. *)

From Stdlib Require Import ZArith Lia List String.
From Corelib Require Import SpecFloat.
From stdpp Require Import base list strings sets.
From S2P Require Import Prelude RStr Float FloatBounds IpAddr Event.

Local Open Scope string_scope.
Local Open Scope Z_scope.

(** ** fusion_math.rs *)

Definition f64_zero : float := S754_zero false.
Definition f64_one : float := f64_of_Z 1.

Definition sanitize_confidence (confidence : float) : float :=
  let value := f64_of_f32 confidence in
  if is_nan value then f64_zero else fclamp value f64_zero f64_one.

Definition fused_confidence (per_source : list float) : float :=
  match per_source with
  | [] => S754_zero false
  | _ =>
      let inverse := fold_left (fun inverse c => f64_mul inverse (f64_sub f64_one (sanitize_confidence c)))
                       per_source f64_one in
      f32_of_f64 (fclamp (f64_sub f64_one inverse) f64_zero f64_one)
  end.

Record FusionWindowLengths : Type := mk_windows {
  suricata_secs : Z; cv_secs : Z; ml_secs : Z; graph_secs : Z }.

Definition FUSION_WINDOW_MIN_SECS : Z := 1.
Definition FUSION_WINDOW_MAX_SECS : Z := 30.

(** [FusionWindowLengths::default] *)
Definition default_windows : FusionWindowLengths := mk_windows 10 8 2 5.

Definition for_source (w : FusionWindowLengths) (source : DetectionSource) : Z :=
  let raw := match source with
             | Suricata => suricata_secs w | Beaconing => cv_secs w
             | ML => ml_secs w | Correlation => graph_secs w
             end in
  Z.min FUSION_WINDOW_MAX_SECS (Z.max FUSION_WINDOW_MIN_SECS raw).

(** ** metrics.rs *)

Record FusionMetrics : Type := mk_metrics {
  total_emits : Z; multi_source_emits : Z; windows_evicted : Z;
  ml_fires : Z; suricata_fires : Z; beaconing_fires : Z; correlation_fires : Z }.

Definition new_metrics : FusionMetrics := mk_metrics 0 0 0 0 0 0 0.

(** [fetch_add(1)] wraps. *)
Definition bump (x : Z) : Z := wrapping_add 64 x 1.

Definition record_fire (m : FusionMetrics) (source : DetectionSource) : FusionMetrics :=
  let '(mk_metrics t u v a b c d) := m in
  match source with
  | ML => mk_metrics t u v (bump a) b c d
  | Suricata => mk_metrics t u v a (bump b) c d
  | Beaconing => mk_metrics t u v a b (bump c) d
  | Correlation => mk_metrics t u v a b c (bump d)
  end.

Definition record_emit (m : FusionMetrics) (source_count : Z) : FusionMetrics :=
  let '(mk_metrics t u v a b c d) := m in
  mk_metrics (bump t) (if source_count >=? 2 then bump u else u) v a b c d.

Definition record_eviction (m : FusionMetrics) : FusionMetrics :=
  let '(mk_metrics t u v a b c d) := m in mk_metrics t u (bump v) a b c d.

Definition ratio (numerator denominator : Z) : float :=
  if denominator =? 0 then f64_zero else f64_div (f64_of_Z numerator) (f64_of_Z denominator).

Definition saturating_sum (values : list Z) : Z := fold_left (saturating_add 64) values 0.

Record FusionMetricsSnapshot : Type := mk_snapshot {
  sn_total_emits : Z; sn_multi_source_emits : Z; agreed_rate : float;
  sn_windows_evicted : Z; window_drop_rate : float;
  per_source_fires : list (DetectionSource * Z); per_source_fire_rate : list (DetectionSource * float) }.

Definition snapshot (m : FusionMetrics) : FusionMetricsSnapshot :=
  let fires := [(ML, ml_fires m); (Suricata, suricata_fires m); (Beaconing, beaconing_fires m);
                (Correlation, correlation_fires m)] in
  let total_fires := saturating_sum (map snd fires) in
  mk_snapshot (total_emits m) (multi_source_emits m) (ratio (multi_source_emits m) (total_emits m))
    (windows_evicted m)
    (ratio (windows_evicted m) (saturating_sum [total_emits m; windows_evicted m]))
    fires (map (fun f => (f.1, ratio f.2 total_fires)) fires).

(** ** The [lru] crate *)

Definition assoc {K V} `{EqDecision K} (k : K) (l : list (K * V)) : option V :=
  snd <$> List.find (fun e => bool_decide (e.1 = k)) l.
Definition without {K V} `{EqDecision K} (k : K) (l : list (K * V)) : list (K * V) :=
  List.filter (fun e => negb (bool_decide (e.1 = k))) l.

(** Caches by their entries, most recently used first (the order of [iter]).
    [get] and [get_mut] move the entry to the front; [put] replaces or adds an
    entry there and drops the last one of a full cache. *)
Class LruCache (C : Type -> Type -> Type) : Type := {
  lru_new : forall {K V : Type}, nat -> C K V;
  lru_cap : forall {K V : Type}, C K V -> nat;
  lru_entries : forall {K V : Type}, C K V -> list (K * V);
  lru_get : forall {K V : Type} `{EqDecision K}, K -> C K V -> option V * C K V;
  lru_put : forall {K V : Type} `{EqDecision K}, K -> V -> C K V -> C K V;
  lru_pop : forall {K V : Type} `{EqDecision K}, K -> C K V -> C K V;
}.

Class LruLaws (C : Type -> Type -> Type) `{LruCache C} : Prop := {
  lru_new_spec : forall K V n, lru_entries (C := C) (K := K) (V := V) (lru_new n) = [] /\
    lru_cap (C := C) (K := K) (V := V) (lru_new n) = n;
  lru_get_spec : forall K V `{EqDecision K} (k : K) (c : C K V),
    (lru_get k c).1 = assoc k (lru_entries c) /\
    lru_entries (lru_get k c).2 =
      (match assoc k (lru_entries c) with
       | Some v => (k, v) :: without k (lru_entries c)
       | None => lru_entries c
       end) /\
    lru_cap (lru_get k c).2 = lru_cap c;
  lru_put_spec : forall K V `{EqDecision K} (k : K) (v : V) (c : C K V),
    lru_entries (lru_put k v c) = take (lru_cap c) ((k, v) :: without k (lru_entries c)) /\
    lru_cap (lru_put k v c) = lru_cap c;
  lru_pop_spec : forall K V `{EqDecision K} (k : K) (c : C K V),
    lru_entries (lru_pop k c) = without k (lru_entries c) /\ lru_cap (lru_pop k c) = lru_cap c;
}.

(** A list cache. *)
Record list_cache (K V : Type) : Type := mk_cache { lc_cap : nat; lc_entries : list (K * V) }.
Arguments mk_cache {K V}.
Arguments lc_cap {K V}.
Arguments lc_entries {K V}.

#[export] Instance list_lru : LruCache list_cache := {
  lru_new := fun _ _ n => mk_cache n [];
  lru_cap := fun _ _ => lc_cap;
  lru_entries := fun _ _ => lc_entries;
  lru_get := fun _ _ _ k c =>
    match assoc k (lc_entries c) with
    | Some v => (Some v, mk_cache (lc_cap c) ((k, v) :: without k (lc_entries c)))
    | None => (None, c)
    end;
  lru_put := fun _ _ _ k v c => mk_cache (lc_cap c) (take (lc_cap c) ((k, v) :: without k (lc_entries c)));
  lru_pop := fun _ _ _ k c => mk_cache (lc_cap c) (without k (lc_entries c));
}.

#[export] Instance list_lru_laws : LruLaws list_cache.
Proof.
  split; try done. intros K V Hdec k c. cbn -[assoc without].
  by destruct (assoc k (lc_entries c)).
Qed.

(** ** orchestrator.rs *)

Record SourceSample : Type := mk_sample {
  ss_source : DetectionSource; ss_confidence : float; local_attack_type : string;
  ss_diagnostics : list DetectionDiagnostic }.

Record DedupEntry : Type := mk_dedup {
  de_sources : list SourceSample; first_emitted_at : Z; emitted_at : Z; fusion_window : Z }.

Abbreviation dedup_key := (string * CanonicalAttackType)%type (only parsing).

(** [build_fusion_audit_detail], before its rendering as JSON. *)
Record FusionAudit : Type := mk_audit {
  fa_src_ip : string; fa_attack_type : string; fa_fused : float; fa_per_source : list SourceSample }.

Definition SEC : Z := 1000000000.

Section Orchestrator.
Context {C : Type -> Type -> Type} `{Lru : LruCache C}.
Variable geoip : option (IpAddr -> option string).

Record DetectionOrchestrator : Type := mk_orch {
  metrics : FusionMetrics;
  src_ip_counts : C string Z;
  repeat_tracker : C string Z;
  dedup : C dedup_key DedupEntry;
  dedup_window : Z;
  repeat_offender_window : Z;
  fusion_windows : FusionWindowLengths;
}.

Definition set_metrics (o : DetectionOrchestrator) (m : FusionMetrics) : DetectionOrchestrator :=
  mk_orch m (src_ip_counts o) (repeat_tracker o) (dedup o) (dedup_window o) (repeat_offender_window o)
    (fusion_windows o).
Definition set_trackers (o : DetectionOrchestrator) (c r : C string Z) : DetectionOrchestrator :=
  mk_orch (metrics o) c r (dedup o) (dedup_window o) (repeat_offender_window o) (fusion_windows o).
Definition set_dedup (o : DetectionOrchestrator) (d : C dedup_key DedupEntry) : DetectionOrchestrator :=
  mk_orch (metrics o) (src_ip_counts o) (repeat_tracker o) d (dedup_window o) (repeat_offender_window o)
    (fusion_windows o).

(** A zero capacity becomes one. *)
Definition nonzero_cache_size (value : nat) : nat := match value with O => 1 | S _ => value end.

(** [DetectionOrchestrator::new], windows in seconds. *)
Definition new_orchestrator (source_count_max_entries repeat_tracker_max_entries max_dedup_entries : nat)
    (dedup_window_secs repeat_offender_window_secs : Z) : DetectionOrchestrator :=
  mk_orch new_metrics (lru_new (nonzero_cache_size source_count_max_entries))
    (lru_new (nonzero_cache_size repeat_tracker_max_entries)) (lru_new (nonzero_cache_size max_dedup_entries))
    (dedup_window_secs * SEC) (repeat_offender_window_secs * SEC) default_windows.

Definition diagnostics_for_event (event : DetectionEvent) : list DetectionDiagnostic :=
  match dt_source event with
  | ML => [mk_diag ML "ae_score" (dt_ae_score event); mk_diag ML "anomaly_score" (dt_anomaly_score event);
           mk_diag ML "c2_score" (dt_c2_score event)]
  | _ => []
  end.

Definition with_attack_type (event : DetectionEvent) (t : string) : DetectionEvent :=
  mk_detection (dt_source event) t (dt_confidence event) (dt_source_ip event) (dt_dest_ip event)
    (dt_protocol event) (dt_packet_count event) (dt_flow_duration_us event) (dt_ae_score event)
    (dt_anomaly_score event) (dt_c2_score event).

Definition enrich (now : Z) (o : DetectionOrchestrator) (event : DetectionEvent) :
    ThreatDetectedEvent * DetectionOrchestrator :=
  let src_ip := dt_source_ip event in
  let packet_rate :=
    if dt_flow_duration_us event >? 0
    then f64_div (f64_of_Z (dt_packet_count event))
           (f64_div (f64_of_Z (dt_flow_duration_us event)) (f64_of_Z 1000000))
    else f64_zero in
  let '(count, counts) := lru_get src_ip (src_ip_counts o) in
  let hit_count := match count with Some c => saturating_add 32 c 1 | None => 1 end in
  let counts := lru_put src_ip hit_count counts in
  let '(last, tracker) := lru_get src_ip (repeat_tracker o) in
  let is_repeat := match last with
                   | Some last => Z.max 0 (now - last) <? repeat_offender_window o
                   | None => false
                   end in
  let tracker := lru_put src_ip now tracker in
  let geoip_country :=
    let! svc := geoip else None in
    let! ip := parse_ip src_ip else None in
    svc ip in
  (mk_threat (dt_attack_type event) (dt_confidence event) src_ip (dt_dest_ip event) hit_count packet_rate
     (dt_protocol event) geoip_country is_repeat [dt_source event] 1 (dt_confidence event)
     (diagnostics_for_event event),
   set_trackers o counts tracker).

(** The event and its audit record; [None] when the entry is missing. *)
Definition emit_fused (now : Z) (o : DetectionOrchestrator) (trigger_event : DetectionEvent) (key : dedup_key) :
    option (ThreatDetectedEvent * FusionAudit) * DetectionOrchestrator :=
  let '(found, d) := lru_get key (dedup o) in
  let o := set_dedup o d in
  match found with
  | None => (None, o)
  | Some entry =>
      let per_source_samples := de_sources entry in
      let sources := map ss_source per_source_samples in
      let fused := fused_confidence (map ss_confidence per_source_samples) in
      let '(t, o) := enrich now o trigger_event in
      let threat_event :=
        mk_threat (te_attack_type t) fused (te_source_ip t) (te_dest_ip t) (te_flow_count t) (te_packet_rate t)
          (te_protocol t) (te_geoip_country t) (te_is_repeat_offender t) sources
          (Z.of_nat (length sources)) fused (flat_map ss_diagnostics per_source_samples) in
      let o := set_metrics o (record_emit (metrics o) (te_active_source_count threat_event)) in
      (Some (threat_event,
             mk_audit (dt_source_ip trigger_event) (dt_attack_type trigger_event) fused per_source_samples), o)
  end.

Definition sample_of (event : DetectionEvent) (raw_label : string) : SourceSample :=
  mk_sample (dt_source event) (dt_confidence event) raw_label (diagnostics_for_event event).

(** The part of [handle_detection] after the lookup: a new entry. *)
Definition open_entry (now : Z) (o : DetectionOrchestrator) (event : DetectionEvent) (raw_label : string)
    (key : dedup_key) : option (ThreatDetectedEvent * FusionAudit) * DetectionOrchestrator :=
  let window := for_source (fusion_windows o) (dt_source event) * SEC in
  let was_full := (lru_cap (dedup o) <=? length (lru_entries (dedup o)))%nat in
  let key_was_absent := negb (bool_decide (is_Some (assoc key (lru_entries (dedup o))))) in
  let o := if was_full && key_was_absent then set_metrics o (record_eviction (metrics o)) else o in
  let o := set_dedup o (lru_put key (mk_dedup [sample_of event raw_label] now now window) (dedup o)) in
  emit_fused now o event key.

(** [find] and update in place when the new confidence is higher. *)
Fixpoint raise_confidence (event : DetectionEvent) (raw_label : string) (l : list SourceSample) :
    list SourceSample :=
  match l with
  | [] => []
  | s :: l =>
      if bool_decide (ss_source s = dt_source event) then
        (if flt (ss_confidence s) (dt_confidence event)
         then mk_sample (ss_source s) (dt_confidence event) raw_label (diagnostics_for_event event) else s) :: l
      else s :: raise_confidence event raw_label l
  end.

Definition handle_detection (now : Z) (o : DetectionOrchestrator) (event : DetectionEvent) :
    option (ThreatDetectedEvent * FusionAudit) * DetectionOrchestrator :=
  let o := set_metrics o (record_fire (metrics o) (dt_source event)) in
  let raw_label := dt_attack_type event in
  let canonical := translate (dt_source event) raw_label in
  let event := with_attack_type event (attack_str canonical) in
  let key := (dt_source_ip event, canonical) in
  let '(found, d) := lru_get key (dedup o) in
  let o := set_dedup o d in
  match found with
  | None => open_entry now o event raw_label key
  | Some entry =>
      let since_first := Z.max 0 (now - first_emitted_at entry) in
      if since_first >=? dedup_window o then
        open_entry now (set_dedup o (lru_pop key (dedup o))) event raw_label key
      else if since_first <? fusion_window entry then
        let is_new_source :=
          negb (existsb (fun s => bool_decide (ss_source s = dt_source event)) (de_sources entry)) in
        if is_new_source then
          let entry := mk_dedup (de_sources entry ++ [sample_of event raw_label]) (first_emitted_at entry) now
                         (fusion_window entry) in
          emit_fused now (set_dedup o (lru_put key entry (dedup o))) event key
        else
          let entry := mk_dedup (raise_confidence event raw_label (de_sources entry)) (first_emitted_at entry)
                         (emitted_at entry) (fusion_window entry) in
          (None, set_dedup o (lru_put key entry (dedup o)))
      else (None, o)
  end.

Definition entry_expired (now : Z) (o : DetectionOrchestrator) (e : DedupEntry) : bool :=
  Z.max 0 (now - first_emitted_at e) >=? dedup_window o.

Definition cleanup_expired (now : Z) (o : DetectionOrchestrator) : DetectionOrchestrator :=
  let expired := map fst (List.filter (fun e => entry_expired now o e.2) (lru_entries (dedup o))) in
  set_dedup o (fold_left (fun d key => lru_pop key d) expired (dedup o)).

(** One turn of the [select!] loop. *)
Inductive turn : Type := Detection (event : DetectionEvent) | CleanupTick.

Definition run_turn (now : Z) (o : DetectionOrchestrator) (t : turn) :
    option (ThreatDetectedEvent * FusionAudit) * DetectionOrchestrator :=
  match t with
  | Detection event => handle_detection now o event
  | CleanupTick => (None, cleanup_expired now o)
  end.

(** The loop, over turns with their times; the emitted events in order. *)
Fixpoint run_turns (o : DetectionOrchestrator) (l : list (Z * turn)) :
    list (ThreatDetectedEvent * FusionAudit) * DetectionOrchestrator :=
  match l with
  | [] => ([], o)
  | (now, t) :: l =>
      let '(e, o) := run_turn now o t in
      let '(es, o) := run_turns o l in
      ((option_list e ++ es)%list, o)
  end.
End Orchestrator.

(** ** The fused confidence *)

Lemma f64_one_fone : f64_one = fone 53.
Proof. vm_compute. reflexivity. Qed.

Lemma sanitize_unit (c : float) : unit_float 53 1024 (sanitize_confidence c).
Proof.
  unfold sanitize_confidence. rewrite f64_one_fone. destruct c as [s|s| |s m e] eqn:Hc; [| |apply unit_zero|];
    rewrite <- Hc; pose proof (clamp_convert_unit 53 1024 ltac:(lia) ltac:(lia) c ltac:(by subst)) as H;
    unfold f64_of_f32, f64_zero; destruct (is_nan _); [apply unit_zero|exact H|apply unit_zero|exact H|apply unit_zero|exact H].
Qed.

Lemma fold_unit (l : list float) (x : float) :
  unit_float 53 1024 x ->
  unit_float 53 1024 (fold_left (fun inverse c => f64_mul inverse (f64_sub f64_one (sanitize_confidence c))) l x).
Proof.
  revert x. induction l as [|c l IH]; intros x Hx; [done|]. cbn [fold_left]. apply IH.
  apply (unit_mul 53 1024); [lia|lia|done|]. rewrite f64_one_fone.
  apply (unit_one_minus 53 1024); [lia|lia|apply sanitize_unit].
Qed.

Lemma fused_unit (l : list float) : unit_float 24 128 (fused_confidence l).
Proof.
  unfold fused_confidence. destruct l as [|c l]; [apply unit_zero|].
  apply (convert_unit 53 1024); [lia|lia|lia|lia|]. rewrite f64_one_fone.
  apply (clamp_unit 53 1024); [lia|lia|]. apply unit_plus. apply (unit_one_minus 53 1024); [lia|lia|].
  pose proof (fold_unit (c :: l) f64_one) as H. rewrite f64_one_fone in H. apply H.
  apply (unit_one_minus 53 1024 ltac:(lia) ltac:(lia) (S754_zero false)), unit_zero.
Qed.

Definition in_unit (x : float) : Prop := fle (S754_zero false) x = true /\ fle x (f32_of_Z 1) = true.

Lemma fused_in_unit (l : list float) : in_unit (fused_confidence l).
Proof.
  unfold in_unit. replace (f32_of_Z 1) with (fone 24) by (vm_compute; reflexivity).
  apply (unit_float_bounds 24 128); [lia|apply fused_unit].
Qed.

(** The fused confidence lies between 0 and 1 for any number of samples and
    any floats in them, infinities and NaN included: every rounding of the
    product stays in the interval *)
Theorem fused_confidence_bounds (per_source : list float) :
  fle (S754_zero false) (fused_confidence per_source) = true /\
  fle (fused_confidence per_source) (f32_of_Z 1) = true.
Proof. apply fused_in_unit. Qed.

(** ** Cache entries *)

Section Assoc.
Context {K V : Type} `{EqDecision K}.

Lemma assoc_cons (k k' : K) (v : V) (l : list (K * V)) :
  assoc k' ((k, v) :: l) = if bool_decide (k = k') then Some v else assoc k' l.
Proof. unfold assoc. cbn. by case_bool_decide. Qed.

Lemma assoc_without (k k' : K) (l : list (K * V)) :
  assoc k' (without k l) = if bool_decide (k' = k) then None else assoc k' l.
Proof.
  unfold assoc, without. induction l as [|[a v] l IH]; cbn; [by case_bool_decide|].
  case_bool_decide; cbn; case_bool_decide; simplify_eq; cbn; rewrite ?IH; by repeat case_bool_decide.
Qed.

Lemma length_without (k : K) (l : list (K * V)) : (length (without k l) <= length l)%nat.
Proof. unfold without. induction l as [|x l IH]; cbn; [done|]. destruct (negb _); cbn; lia. Qed.

Lemma length_without_in (k : K) (l : list (K * V)) :
  is_Some (assoc k l) -> (length (without k l) < length l)%nat.
Proof.
  unfold assoc, without. induction l as [|[a v] l IH]; cbn; [by intros [? ?]|].
  pose proof (length_without k l) as Hle. unfold without in Hle. case_bool_decide; cbn; [lia|].
  intros Hs. specialize (IH Hs). lia.
Qed.

Lemma Forall_without (P : K * V -> Prop) (k : K) (l : list (K * V)) : Forall P l -> Forall P (without k l).
Proof. induction 1 as [|x l Hx Hl IH]; cbn; [done|]. destruct (negb _); [by constructor|done]. Qed.

Lemma nodup_without (k : K) (l : list (K * V)) :
  NoDup (map fst l) -> NoDup (map fst (without k l)) /\ k ∉ map fst (without k l).
Proof.
  induction l as [|[a v] l IH]; cbn [map without List.filter]; [split; [constructor|by apply not_elem_of_nil]|].
  rewrite NoDup_cons. intros [Ha Hl]. destruct (IH Hl) as [H1 H2]. cbn [fst].
  case_bool_decide; cbn [negb]; [by split|]. cbn [map fst]. rewrite NoDup_cons, not_elem_of_cons. split_and!; auto.
  intros Hin. apply Ha. apply list_elem_of_In, in_map_iff in Hin as ([b w] & <- & Hin).
  apply List.filter_In in Hin as [Hin _]. cbn. apply (in_map fst) in Hin. by apply list_elem_of_In.
Qed.

Lemma assoc_in (k : K) (v : V) (l : list (K * V)) : assoc k l = Some v -> (k, v) ∈ l.
Proof.
  unfold assoc. induction l as [|[a w] l IH]; cbn; [done|]. case_bool_decide; cbn.
  - intros [= ->]. subst. by left.
  - intros Hf. right. by apply IH.
Qed.
End Assoc.

Section Laws.
Context {C : Type -> Type -> Type} `{Lru : LruCache C} {LruL : LruLaws C}.
Context {K V : Type} `{EqDecision K}.

Lemma get_forall (P : K * V -> Prop) (k : K) (c : C K V) :
  Forall P (lru_entries c) -> Forall P (lru_entries (lru_get k c).2).
Proof.
  intros HP. destruct (lru_get_spec K V k c) as (_ & -> & _).
  destruct (assoc k (lru_entries c)) as [v|] eqn:Hk; [|done]. constructor; [|by apply Forall_without].
  rewrite Forall_forall in HP. by apply HP, assoc_in.
Qed.

Lemma put_forall (P : K * V -> Prop) (k : K) (v : V) (c : C K V) :
  Forall P (lru_entries c) -> P (k, v) -> Forall P (lru_entries (lru_put k v c)).
Proof.
  intros HP Hv. destruct (lru_put_spec K V k v c) as [-> _]. apply Forall_take.
  constructor; [done|by apply Forall_without].
Qed.

Lemma pop_forall (P : K * V -> Prop) (k : K) (c : C K V) :
  Forall P (lru_entries c) -> Forall P (lru_entries (lru_pop k c)).
Proof. intros HP. destruct (lru_pop_spec K V k c) as [-> _]. by apply Forall_without. Qed.

Lemma get_nodup (k : K) (c : C K V) :
  NoDup (map fst (lru_entries c)) -> NoDup (map fst (lru_entries (lru_get k c).2)).
Proof.
  intros Hn. destruct (lru_get_spec K V k c) as (_ & -> & _).
  destruct (assoc k (lru_entries c)); [|done]. cbn [map fst]. rewrite NoDup_cons.
  destruct (nodup_without k _ Hn). by split.
Qed.

Lemma put_nodup (k : K) (v : V) (c : C K V) :
  NoDup (map fst (lru_entries c)) -> NoDup (map fst (lru_entries (lru_put k v c))).
Proof.
  intros Hn. destruct (lru_put_spec K V k v c) as [-> _]. rewrite <- firstn_map.
  eapply sublist_NoDup; [|apply sublist_take]. cbn [map fst]. rewrite NoDup_cons.
  destruct (nodup_without k _ Hn). by split.
Qed.

Lemma pop_nodup (k : K) (c : C K V) :
  NoDup (map fst (lru_entries c)) -> NoDup (map fst (lru_entries (lru_pop k c))).
Proof. intros Hn. destruct (lru_pop_spec K V k c) as [-> _]. by apply nodup_without. Qed.

Lemma get_assoc (k k' : K) (c : C K V) : assoc k' (lru_entries (lru_get k c).2) = assoc k' (lru_entries c).
Proof.
  destruct (lru_get_spec K V k c) as (_ & -> & _). destruct (assoc k (lru_entries c)) eqn:Hk; [|done].
  rewrite assoc_cons, assoc_without. repeat case_bool_decide; congruence.
Qed.

Lemma get_length (k : K) (c : C K V) : (length (lru_entries (lru_get k c).2) <= length (lru_entries c))%nat.
Proof.
  destruct (lru_get_spec K V k c) as (_ & -> & _). destruct (assoc k (lru_entries c)) eqn:Hk; [|done].
  pose proof (length_without_in k (lru_entries c) ltac:(by rewrite Hk)). cbn. lia.
Qed.

(** Nothing is evicted while there is room. *)
Lemma put_assoc (k k' : K) (v : V) (c : C K V) :
  (length (lru_entries c) < lru_cap c)%nat ->
  assoc k' (lru_entries (lru_put k v c)) = if bool_decide (k = k') then Some v else assoc k' (lru_entries c).
Proof.
  intros Hroom. destruct (lru_put_spec K V k v c) as [-> _]. pose proof (length_without k (lru_entries c)).
  rewrite take_ge by (cbn; lia). rewrite assoc_cons, assoc_without. repeat case_bool_decide; congruence.
Qed.

Lemma put_length (k : K) (v : V) (c : C K V) :
  (length (lru_entries (lru_put k v c)) <= S (length (lru_entries c)))%nat.
Proof.
  destruct (lru_put_spec K V k v c) as [-> _]. rewrite length_take. cbn.
  pose proof (length_without k (lru_entries c)). lia.
Qed.

(** A fresh entry is at the front, whatever was evicted for it. *)
Lemma put_self (k : K) (v : V) (c : C K V) :
  (1 <= lru_cap c)%nat -> assoc k (lru_entries (lru_put k v c)) = Some v.
Proof.
  intros Hcap. destruct (lru_put_spec K V k v c) as [-> _]. destruct (lru_cap c); [lia|].
  cbn [take]. rewrite assoc_cons. by rewrite bool_decide_eq_true_2.
Qed.

Lemma pop_assoc (k k' : K) (c : C K V) :
  assoc k' (lru_entries (lru_pop k c)) = if bool_decide (k' = k) then None else assoc k' (lru_entries c).
Proof. destruct (lru_pop_spec K V k c) as [-> _]. apply assoc_without. Qed.

Lemma pop_length (k : K) (c : C K V) : (length (lru_entries (lru_pop k c)) <= length (lru_entries c))%nat.
Proof. destruct (lru_pop_spec K V k c) as [-> _]. apply length_without. Qed.
End Laws.

(** ** One detection *)

Section Steps.
Context {C : Type -> Type -> Type} `{Lru : LruCache C} {LruL : LruLaws C}.
Variable geoip : option (IpAddr -> option string).

Abbreviation orch := (DetectionOrchestrator (C := C)) (only parsing).

Definition entries (o : orch) : list (dedup_key * DedupEntry) := lru_entries (dedup o).
Definition entry (o : orch) (k : dedup_key) : option DedupEntry := assoc k (entries o).
Definition source_list (e : DedupEntry) : list DetectionSource := map ss_source (de_sources e).

(** The threat event is about this key and lists these sources. *)
Definition describes (t : ThreatDetectedEvent) (k : dedup_key) (sources : list DetectionSource) : Prop :=
  te_source_ip t = k.1 /\ te_attack_type t = attack_str k.2 /\ te_sources t = sources /\
  te_active_source_count t = Z.of_nat (length sources) /\
  te_confidence t = te_fused_confidence t /\ in_unit (te_fused_confidence t).

Lemma emit_fused_spec (now : Z) (o : orch) (ev : DetectionEvent) (k : dedup_key) (e : DedupEntry) :
  entry o k = Some e -> dt_source_ip ev = k.1 -> dt_attack_type ev = attack_str k.2 ->
  exists t a o', emit_fused geoip now o ev k = (Some (t, a), o') /\ describes t k (source_list e) /\
    dedup o' = (lru_get k (dedup o)).2 /\ dedup_window o' = dedup_window o.
Proof.
  intros He Hip Hat. unfold emit_fused, entry, entries in *. destruct (lru_get_spec _ _ k (dedup o)) as (Hget & _).
  rewrite He in Hget. destruct (lru_get k (dedup o)) as [found d]. cbn [fst snd] in *. subst found.
  destruct (enrich geoip now (set_dedup o d) ev) as [t o1] eqn:Hen.
  assert (te_source_ip t = dt_source_ip ev /\ te_attack_type t = dt_attack_type ev /\
    dedup o1 = d /\ dedup_window o1 = dedup_window o) as (H1 & H2 & H3 & H4).
  { unfold enrich in Hen. destruct (lru_get _ (src_ip_counts _)). destruct (lru_get _ (repeat_tracker _)).
    by injection Hen as <- <-. }
  do 3 eexists. split; [reflexivity|]. split_and!; [|by destruct o1|by destruct o1].
  unfold describes, source_list. cbn. rewrite H1, H2. split_and!; try done; apply fused_in_unit.
Qed.

Lemma raise_sources (ev : DetectionEvent) (raw : string) (l : list SourceSample) :
  map ss_source (raise_confidence ev raw l) = map ss_source l.
Proof.
  induction l as [|s l IH]; cbn [raise_confidence map]; [done|]. case_bool_decide; cbn [map]; [|by rewrite IH].
  by destruct (flt _ _).
Qed.

Definition event_key (ev : DetectionEvent) : dedup_key :=
  (dt_source_ip ev, translate (dt_source ev) (dt_attack_type ev)).

(** How one detection treats the entry [found] of its key: it opens a new entry,
    joins the entry as a new source, or is suppressed. *)
Definition opens (now : Z) (o : orch) (found : option DedupEntry) (src : DetectionSource)
    (sources : list DetectionSource) (first : Z) : Prop :=
  (match found with Some e => entry_expired now o e = true | None => True end) /\
  sources = [src] /\ first = now.
Definition joins (now : Z) (o : orch) (found : option DedupEntry) (src : DetectionSource)
    (sources : list DetectionSource) (first : Z) : Prop :=
  exists e, found = Some e /\ entry_expired now o e = false /\
    Z.max 0 (now - first_emitted_at e) < fusion_window e /\ src ∉ source_list e /\
    sources = (source_list e ++ [src])%list /\ first = first_emitted_at e.
Definition suppressed (now : Z) (o : orch) (found : option DedupEntry) (src : DetectionSource)
    (sources : list DetectionSource) (first : Z) : Prop :=
  exists e, found = Some e /\ entry_expired now o e = false /\
    (src ∈ source_list e \/ fusion_window e <= Z.max 0 (now - first_emitted_at e)) /\
    sources = source_list e /\ first = first_emitted_at e.

(** Entries of other keys and sizes, whatever happened to this key. *)
Definition frame (k : dedup_key) (o o' : orch) : Prop :=
  dedup_window o' = dedup_window o /\ lru_cap (dedup o') = lru_cap (dedup o) /\
  (length (entries o') <= S (length (entries o)))%nat /\
  ((length (entries o) < lru_cap (dedup o))%nat -> forall k', k' <> k -> entry o' k' = entry o k') /\
  (forall P : dedup_key * DedupEntry -> Prop, Forall P (entries o) ->
     (forall e, entry o' k = Some e -> P (k, e)) -> Forall P (entries o')) /\
  (NoDup (map fst (entries o)) -> NoDup (map fst (entries o'))).

(** A put, then the get of the emission. *)
Lemma frame_put (k : dedup_key) (v : DedupEntry) (o o' : orch) (c d : C dedup_key DedupEntry) :
  (1 <= lru_cap (dedup o))%nat ->
  lru_cap c = lru_cap (dedup o) -> (length (lru_entries c) <= length (entries o))%nat ->
  (forall k', k' <> k -> assoc k' (lru_entries c) = entry o k') ->
  (forall P : dedup_key * DedupEntry -> Prop, Forall P (entries o) -> Forall P (lru_entries c)) ->
  (NoDup (map fst (entries o)) -> NoDup (map fst (lru_entries c))) ->
  d = lru_put k v c -> dedup o' = d \/ dedup o' = (lru_get k d).2 -> dedup_window o' = dedup_window o ->
  frame k o o' /\ entry o' k = Some v.
Proof.
  intros Hcap Hc Hlen Hother Hall Hnd -> Hd Hw. unfold frame, entry, entries in *.
  destruct (lru_put_spec _ _ k v c) as [_ Hpc]. pose proof (put_length k v c) as Hpl.
  pose proof (get_length k (lru_put k v c)) as Hgl. destruct (lru_get_spec _ _ k (lru_put k v c)) as (_ & _ & Hgc).
  assert (Hk : assoc k (lru_entries (dedup o')) = Some v).
  { destruct Hd as [-> | ->]; [|rewrite get_assoc]; apply put_self; lia. }
  split; [|done]. split_and!; [done|destruct Hd as [-> | ->]; congruence|destruct Hd as [-> | ->]; lia| | |].
  - intros Hroom k' Hne. rewrite <- Hother by done.
    destruct Hd as [-> | ->]; [|rewrite get_assoc]; rewrite put_assoc by lia;
      by rewrite bool_decide_eq_false_2 by congruence.
  - intros P HP Hnew. specialize (Hnew v Hk). destruct Hd as [-> | ->].
    + apply put_forall; auto.
    + apply get_forall, put_forall; auto.
  - intros Hn. destruct Hd as [-> | ->]; [|apply get_nodup]; apply put_nodup; auto.
Qed.

Lemma frame_same (k : dedup_key) (o o' : orch) :
  dedup o' = (lru_get k (dedup o)).2 -> dedup_window o' = dedup_window o -> frame k o o'.
Proof.
  intros Hd Hw. unfold frame, entry, entries. rewrite Hd.
  destruct (lru_get_spec _ _ k (dedup o)) as (_ & _ & Hgc). pose proof (get_length k (dedup o)).
  split_and!; [done|done|lia| | |].
  - intros _ k' _. apply get_assoc.
  - intros P HP _. by apply get_forall.
  - apply get_nodup.
Qed.

Lemma open_entry_spec (now : Z) (o o1 : orch) (ev ev1 : DetectionEvent) (raw : string) (k : dedup_key) :
  (1 <= lru_cap (dedup o))%nat ->
  lru_cap (dedup o1) = lru_cap (dedup o) -> (length (entries o1) <= length (entries o))%nat ->
  (forall k', k' <> k -> entry o1 k' = entry o k') ->
  (forall P : dedup_key * DedupEntry -> Prop, Forall P (entries o) -> Forall P (entries o1)) ->
  (NoDup (map fst (entries o)) -> NoDup (map fst (entries o1))) ->
  dedup_window o1 = dedup_window o -> dt_source_ip ev1 = k.1 -> dt_attack_type ev1 = attack_str k.2 ->
  exists t a o', open_entry geoip now o1 ev1 raw k = (Some (t, a), o') /\ describes t k [dt_source ev1] /\
    frame k o o' /\
    (exists e, entry o' k = Some e /\ source_list e = [dt_source ev1] /\ first_emitted_at e = now).
Proof.
  intros Hcap Hc Hlen Hother Hall Hnd Hw Hip Hat. unfold open_entry.
  set (v := mk_dedup [sample_of ev1 raw] now now (for_source (fusion_windows o1) (dt_source ev1) * SEC)).
  match goal with |- context [if ?b then set_metrics o1 ?m else o1] => set (o2 := if b then set_metrics o1 m else o1) end.
  assert (dedup o2 = dedup o1 /\ dedup_window o2 = dedup_window o1 /\
    fusion_windows o2 = fusion_windows o1) as (Hd2 & Hw2 & _) by (subst o2; by destruct (_ && _)).
  set (o3 := set_dedup o2 (lru_put k v (dedup o2))).
  assert (entry o3 k = Some v) as Hk.
  { unfold entry, entries. subst o3. cbn. rewrite Hd2. apply put_self. lia. }
  destruct (emit_fused_spec now o3 ev1 k v Hk Hip Hat) as (t & a & o' & He & Hdesc & Hd & Hwin).
  destruct (frame_put k v o o' (dedup o1) (lru_put k v (dedup o1)) Hcap Hc Hlen Hother Hall Hnd eq_refl) as [Hf Hk'].
  { right. rewrite Hd. subst o3. cbn. by rewrite Hd2. }
  { rewrite Hwin. subst o3. cbn. congruence. }
  exists t, a, o'. split_and!; [exact He|exact Hdesc|exact Hf|]. exists v. by split_and!.
Qed.

Lemma handle_spec (now : Z) (o : orch) (ev : DetectionEvent) :
  (1 <= lru_cap (dedup o))%nat ->
  let k := event_key ev in
  let '(r, o') := handle_detection geoip now o ev in
  frame k o o' /\
  exists e', entry o' k = Some e' /\
    match r with
    | Some (t, _) => describes t k (source_list e') /\
        (opens now o (entry o k) (dt_source ev) (source_list e') (first_emitted_at e') \/
         joins now o (entry o k) (dt_source ev) (source_list e') (first_emitted_at e'))
    | None => suppressed now o (entry o k) (dt_source ev) (source_list e') (first_emitted_at e')
    end.
Proof.
  intros Hcap k. unfold handle_detection. fold (event_key ev). fold k.
  change (translate (dt_source ev) (dt_attack_type ev)) with k.2.
  set (ev1 := with_attack_type ev (attack_str k.2)). set (o0 := set_metrics o _).
  change (dedup o0) with (dedup o). change (dt_source_ip ev1, k.2) with k.
  destruct (lru_get_spec _ _ k (dedup o)) as (Hget & _ & Hgc). pose proof (get_length k (dedup o)) as Hgl.
  pose proof (fun k' => get_assoc k k' (dedup o)) as Hga. pose proof (fun P => get_forall P k (dedup o)) as Hgf.
  pose proof (get_nodup k (dedup o)) as Hgn.
  destruct (lru_get k (dedup o)) as [found d] eqn:Hg. cbn [fst snd] in *.
  change (assoc k (lru_entries (dedup o))) with (entry o k) in Hget. rewrite <- Hget.
  destruct found as [e|].
  2: { destruct (open_entry_spec now o (set_dedup o0 d) ev ev1 (dt_attack_type ev) k Hcap Hgc Hgl
         (fun k' _ => Hga k') Hgf Hgn eq_refl eq_refl eq_refl) as (t & a & o' & -> & Hdesc & Hf & e' & Hk & Hs & Hfirst).
       split; [exact Hf|]. exists e'. split; [exact Hk|]. rewrite Hs. split; [exact Hdesc|]. left.
       by split_and!. }
  change (dedup_window (set_dedup o0 d)) with (dedup_window o). change (dedup (set_dedup o0 d)) with d.
  destruct (Z.max 0 (now - first_emitted_at e) >=? dedup_window o) eqn:Hexp.
  { destruct (open_entry_spec now o (set_dedup (set_dedup o0 d) (lru_pop k d)) ev ev1 (dt_attack_type ev) k Hcap)
      as (t & a & o' & -> & Hdesc & Hf & e' & Hk & Hs & Hfirst); try done.
    - cbn. destruct (lru_pop_spec _ _ k d) as [_ ->]. done.
    - unfold entries. cbn. pose proof (pop_length k d). lia.
    - intros k' Hne. unfold entry, entries. cbn. rewrite pop_assoc, bool_decide_eq_false_2 by done. apply Hga.
    - intros P HP. unfold entries. cbn. apply pop_forall. by apply Hgf.
    - intros Hn. unfold entries. cbn. apply pop_nodup. by apply Hgn.
    - split; [exact Hf|]. exists e'. split; [exact Hk|]. rewrite Hs. split; [exact Hdesc|]. left. by split_and!. }
  assert (entry_expired now o e = false) as Hex by exact Hexp.
  destruct (Z.ltb_spec (Z.max 0 (now - first_emitted_at e)) (fusion_window e)) as [Hin|Hout].
  2: { split; [apply frame_same; [cbn; by rewrite Hg|done]|]. exists e. split.
       - unfold entry, entries. cbn. rewrite Hga. done.
       - exists e. split_and!; try done. by right. }
  change (dt_source ev1) with (dt_source ev).
  destruct (existsb (fun s => bool_decide (ss_source s = dt_source ev)) (de_sources e)) eqn:Hnew; cbn [negb].
  - set (e' := mk_dedup _ _ _ _).
    destruct (frame_put k e' o (set_dedup (set_dedup o0 d) (lru_put k e' d)) d (lru_put k e' d) Hcap Hgc Hgl
      (fun k' _ => Hga k') Hgf Hgn eq_refl (or_introl eq_refl) eq_refl) as [Hf Hk].
    split; [exact Hf|]. exists e'. split; [exact Hk|]. exists e.
    assert (source_list e' = source_list e) as Hsl by apply raise_sources.
    split_and!; try done. left. apply existsb_exists in Hnew as (s & Hin' & Hs). apply bool_decide_eq_true in Hs.
    rewrite <- Hs. by apply list_elem_of_In, in_map.
  - set (e' := mk_dedup _ _ _ _).
    assert (entry (set_dedup (set_dedup o0 d) (lru_put k e' d)) k = Some e') as Hk0
      by (unfold entry, entries; cbn; apply put_self; rewrite Hgc; done).
    destruct (emit_fused_spec now (set_dedup (set_dedup o0 d) (lru_put k e' d)) ev1 k e' Hk0 eq_refl eq_refl)
      as (t & a & o' & He & Hdesc & Hd & Hwin).
    destruct (frame_put k e' o o' d (lru_put k e' d) Hcap Hgc Hgl (fun k' _ => Hga k') Hgf Hgn eq_refl
      (or_intror Hd) Hwin) as [Hf Hk].
    rewrite He. split; [exact Hf|]. exists e'. split; [exact Hk|]. split; [exact Hdesc|]. right. exists e.
    split_and!; try done; [|unfold source_list; cbn; by rewrite map_app].
    intros Hmem. apply list_elem_of_In, in_map_iff in Hmem as (s & Hs & Hin').
    assert (existsb (fun s => bool_decide (ss_source s = dt_source ev)) (de_sources e) = true); [|congruence].
    apply existsb_exists. exists s. split; [done|]. by apply bool_decide_eq_true.
Qed.

(** *** The invariant *)

Definition entry_ok (e : dedup_key * DedupEntry) : Prop := NoDup (source_list e.2) /\ source_list e.2 <> [].

Definition orch_ok (o : orch) : Prop :=
  Forall entry_ok (entries o) /\ NoDup (map fst (entries o)) /\ (1 <= lru_cap (dedup o))%nat.

Lemma entry_of_ok (o : orch) (k : dedup_key) (e : DedupEntry) :
  orch_ok o -> entry o k = Some e -> NoDup (source_list e) /\ source_list e <> [].
Proof. intros (Hall & _) He. rewrite Forall_forall in Hall. by apply (Hall (k, e)), assoc_in. Qed.

Lemma nodup_sources_bound (l : list DetectionSource) : NoDup l -> (length l <= 4)%nat.
Proof.
  intros Hn. change 4%nat with (length [ML; Correlation; Beaconing; Suricata]).
  apply List.NoDup_incl_length; [by apply NoDup_ListNoDup|]. intros [] _; cbn; tauto.
Qed.

(** What every published event satisfies. *)
Definition event_ok (t : ThreatDetectedEvent) : Prop :=
  NoDup (te_sources t) /\ te_active_source_count t = Z.of_nat (length (te_sources t)) /\
  1 <= te_active_source_count t <= 4 /\ te_confidence t = te_fused_confidence t /\
  in_unit (te_fused_confidence t) /\ (exists c, canonical_from_str (te_attack_type t) = Some c).

Lemma joined_sources_ok (o : orch) (now : Z) (k : dedup_key) (src : DetectionSource) (l : list DetectionSource) (f : Z) :
  orch_ok o ->
  opens now o (entry o k) src l f \/ joins now o (entry o k) src l f \/ suppressed now o (entry o k) src l f ->
  NoDup l /\ l <> [].
Proof.
  intros Hok [(_ & -> & _)|[(e & He & _ & _ & Hn & -> & _)|(e & He & _ & _ & -> & _)]].
  - split; [apply NoDup_singleton|done].
  - destruct (entry_of_ok o k e Hok He) as [Hnd _]. split; [|by destruct (source_list e)].
    apply NoDup_app. split_and!; [done| |apply NoDup_singleton].
    intros x Hx Hx'. apply list_elem_of_singleton in Hx'. by subst.
  - by apply (entry_of_ok o k e).
Qed.

Lemma handle_ok (now : Z) (o : orch) (ev : DetectionEvent) :
  orch_ok o ->
  orch_ok (handle_detection geoip now o ev).2 /\
  Forall (fun x => event_ok x.1) (option_list (handle_detection geoip now o ev).1).
Proof.
  intros Hok. pose proof (handle_spec now o ev (proj2 (proj2 Hok))) as H. cbn zeta in H.
  destruct (handle_detection geoip now o ev) as [r o']. destruct H as ((_ & Hcap & _ & _ & Hall & Hnd) & e' & He' & Hr).
  assert (NoDup (source_list e') /\ source_list e' <> []) as He.
  { eapply (joined_sources_ok o now (event_key ev) (dt_source ev) _ (first_emitted_at e') Hok).
    destruct r as [[t a]|]; [destruct Hr as [_ [Hr|Hr]]|]; auto. }
  split.
  - destruct Hok as (H1 & H2 & H3). split_and!; [|by apply Hnd|cbn; lia].
    apply Hall; [done|]. intros e2 He2. rewrite He' in He2. by injection He2 as <-.
  - destruct r as [[t a]|]; cbn; [|constructor]. apply Forall_singleton.
    destruct Hr as [(Hip & Hat & Hs & Hc & Hcf & Hu) _]. unfold event_ok. cbn [fst]. rewrite Hs, Hc, Hat.
    split_and!; try done; try apply He.
    + destruct (source_list e'); [by destruct He|cbn; lia].
    + pose proof (nodup_sources_bound _ (proj1 He)). lia.
    + eexists. apply canonical_attack_str.
Qed.

Lemma pops_spec (ks : list dedup_key) (c : C dedup_key DedupEntry) :
  let c' := fold_left (fun d key => lru_pop key d) ks c in
  (forall k, assoc k (lru_entries c') = if bool_decide (k ∈ ks) then None else assoc k (lru_entries c)) /\
  (forall P : dedup_key * DedupEntry -> Prop, Forall P (lru_entries c) -> Forall P (lru_entries c')) /\
  (NoDup (map fst (lru_entries c)) -> NoDup (map fst (lru_entries c'))) /\
  lru_cap c' = lru_cap c /\ (length (lru_entries c') <= length (lru_entries c))%nat.
Proof.
  revert c. induction ks as [|x ks IH]; intros c; cbn [fold_left].
  - by split_and!.
  - destruct (IH (lru_pop x c)) as (H1 & H2 & H3 & H4 & H5). destruct (lru_pop_spec _ _ x c) as [_ Hc].
    pose proof (pop_length x c). split_and!; [| | |congruence|lia].
    + intros k. rewrite H1, pop_assoc. repeat case_bool_decide; set_solver.
    + intros P HP. by apply H2, pop_forall.
    + intros Hn. by apply H3, pop_nodup.
Qed.

Lemma cleanup_spec (now : Z) (o : orch) :
  NoDup (map fst (entries o)) ->
  let o' := cleanup_expired now o in
  (forall k, entry o' k = match entry o k with
                          | Some e => if entry_expired now o e then None else Some e
                          | None => None
                          end) /\
  (orch_ok o -> orch_ok o') /\ dedup_window o' = dedup_window o /\
  lru_cap (dedup o') = lru_cap (dedup o) /\ (length (entries o') <= length (entries o))%nat.
Proof.
  intros Hn o'. unfold o', cleanup_expired.
  set (ks := map fst (List.filter (fun e => entry_expired now o e.2) (lru_entries (dedup o)))).
  destruct (pops_spec ks (dedup o)) as (H1 & H2 & H3 & H4 & H5).
  split_and!; [| |done|done|done].
  - intros k. unfold entry, entries. cbn [dedup set_dedup]. rewrite H1.
    destruct (assoc k (lru_entries (dedup o))) as [e|] eqn:He; [|by case_bool_decide].
    assert (k ∈ ks <-> entry_expired now o e = true) as Hiff; [|by case_bool_decide; destruct (entry_expired now o e); intuition].
    unfold ks. rewrite list_elem_of_In, in_map_iff. split.
    + intros ([k' e'] & <- & Hin). apply List.filter_In in Hin as [Hin Hex].
      assert (e' = e) as ->; [|done]. apply assoc_in in He. cbn [fst] in *. apply list_elem_of_In in Hin.
      unfold entries in Hn. clear -Hn He Hin. induction (lru_entries (dedup o)) as [|[a v] l IH]; [by apply not_elem_of_nil in He|].
      cbn [map fst] in Hn. rewrite NoDup_cons in Hn. destruct Hn as [Ha Hl].
      assert (forall w, (k', w) ∈ l -> k' ∈ map fst l) as Hm
        by (intros w Hw; apply list_elem_of_In, in_map_iff; exists (k', w); split; [done|by apply list_elem_of_In]).
      apply elem_of_cons in He. apply elem_of_cons in Hin.
      destruct He as [He|He], Hin as [Hin|Hin]; [congruence| | |by apply IH];
        exfalso; simplify_eq; eauto.
    + intros Hex. exists (k, e). split; [done|]. apply List.filter_In. split; [by apply list_elem_of_In, assoc_in|done].
  - intros (A & B & D). split_and!; [by apply H2|by apply H3|cbn; lia].
Qed.

Lemma run_turn_ok (now : Z) (o : orch) (t : turn) :
  orch_ok o ->
  orch_ok (run_turn geoip now o t).2 /\ Forall (fun x => event_ok x.1) (option_list (run_turn geoip now o t).1).
Proof.
  intros Hok. destruct t as [ev|]; cbn [run_turn fst snd]; [by apply handle_ok|].
  split; [|constructor]. by apply cleanup_spec; [apply Hok|].
Qed.

Lemma run_turns_ok (l : list (Z * turn)) (o : orch) :
  orch_ok o -> Forall (fun x => event_ok x.1) (run_turns geoip o l).1.
Proof.
  revert o. induction l as [|[now t] l IH]; intros o Hok; cbn [run_turns]; [constructor|].
  destruct (run_turn_ok now o t Hok) as [H1 H2]. destruct (run_turn geoip now o t) as [e o1].
  specialize (IH o1 H1). destruct (run_turns geoip o1 l) as [es o2]. cbn [fst snd] in *. by apply Forall_app.
Qed.

(** *** Events per window *)

Definition for_key (k : dedup_key) (x : ThreatDetectedEvent * FusionAudit) : bool :=
  String.eqb (te_source_ip x.1) k.1 && String.eqb (te_attack_type x.1) (attack_str k.2).

Definition emitted (k : dedup_key) (l : list (ThreatDetectedEvent * FusionAudit)) : nat :=
  length (List.filter (for_key k) l).

Lemma describes_for_key (x : ThreatDetectedEvent * FusionAudit) (k k' : dedup_key) (l : list DetectionSource) :
  describes x.1 k l -> for_key k' x = bool_decide (k = k').
Proof.
  intros (Hip & Hat & _). unfold for_key. rewrite Hip, Hat. destruct k as [s c], k' as [s' c']. cbn.
  destruct (String.eqb_spec s s') as [->|Hs]; cbn; [|symmetry; apply bool_decide_eq_false_2; congruence].
  destruct (String.eqb_spec (attack_str c) (attack_str c')) as [Hc|Hc].
  - symmetry. apply bool_decide_eq_true_2. apply (f_equal canonical_from_str) in Hc.
    rewrite !canonical_attack_str in Hc. congruence.
  - symmetry. apply bool_decide_eq_false_2. congruence.
Qed.

(** [n] events were published for [k] since [t0], all for its present entry. *)
Definition published (k : dedup_key) (t0 : Z) (o : orch) (n : nat) : Prop :=
  (entry o k = None /\ n = 0%nat) \/
  (exists e, entry o k = Some e /\ t0 <= first_emitted_at e /\ (n <= length (source_list e))%nat).

Lemma live_entry (o : orch) (now t0 : Z) (e : DedupEntry) :
  t0 <= now < t0 + dedup_window o -> t0 <= first_emitted_at e -> entry_expired now o e = false.
Proof. intros Ht He. unfold entry_expired. rewrite Z.geb_leb. apply Z.leb_gt. lia. Qed.

Lemma published_turn (k : dedup_key) (t0 now : Z) (o : orch) (t : turn) (n : nat) :
  orch_ok o -> t0 <= now < t0 + dedup_window o -> (length (entries o) < lru_cap (dedup o))%nat ->
  published k t0 o n ->
  let r := run_turn geoip now o t in
  published k t0 r.2 (n + emitted k (option_list r.1)) /\ dedup_window r.2 = dedup_window o /\
  lru_cap (dedup r.2) = lru_cap (dedup o) /\ (length (entries r.2) <= S (length (entries o)))%nat.
Proof.
  intros Hok Ht Hroom Hpub. destruct t as [ev|]; cbn [run_turn].
  2: { destruct (cleanup_spec now o (proj1 (proj2 Hok))) as (H1 & _ & H3 & H4 & H5). cbn [fst snd option_list].
       split_and!; [|done|done|lia]. rewrite Nat.add_0_r. destruct Hpub as [[Hn ->]|(e & He & Hf & Hle)].
       - left. by rewrite H1, Hn.
       - right. exists e. rewrite H1, He. by rewrite (live_entry o now t0). }
  pose proof (handle_spec now o ev (proj2 (proj2 Hok))) as H. cbn zeta in H.
  destruct (handle_detection geoip now o ev) as [r o']. cbn [fst snd] in *.
  destruct H as ((Hw & Hc & Hlen & Hother & _) & e' & He' & Hr). split_and!; [|done|done|done].
  destruct (decide (k = event_key ev)) as [->|Hne].
  2: { assert (emitted k (option_list r) = 0%nat) as ->.
       { destruct r as [[t a]|]; [|done]. destruct Hr as [Hd _]. unfold emitted. cbn.
         by rewrite (describes_for_key (t, a) _ _ _ Hd), bool_decide_eq_false_2 by congruence. }
       rewrite Nat.add_0_r. unfold published. by rewrite (Hother Hroom k Hne). }
  right. exists e'. split; [done|]. destruct r as [[t a]|].
  - destruct Hr as [Hd Hr]. assert (emitted (event_key ev) (option_list (Some (t, a))) = 1%nat) as ->.
    { unfold emitted. cbn. by rewrite (describes_for_key (t, a) _ _ _ Hd), bool_decide_eq_true_2. }
    destruct Hr as [(Hex & Hs & Hf)|(e & He & _ & _ & _ & Hs & Hf)]; rewrite Hs, Hf.
    + destruct Hpub as [[Hn ->]|(e & He & Hfe & _)]; [cbn; lia|].
      rewrite He in Hex. rewrite (live_entry o now t0) in Hex; done.
    + destruct Hpub as [[Hn _]|(e2 & He2 & Hfe & Hle)]; [congruence|]. rewrite He2 in He. injection He as ->.
      rewrite length_app. cbn. lia.
  - destruct Hr as (e & He & _ & _ & Hs & Hf). rewrite Hs, Hf. cbn [option_list emitted].
    destruct Hpub as [[Hn _]|(e2 & He2 & Hfe & Hle)]; [congruence|]. rewrite He2 in He. injection He as ->.
    unfold emitted. cbn. lia.
Qed.

Lemma published_turns (k : dedup_key) (t0 : Z) (l : list (Z * turn)) (o : orch) (n : nat) :
  orch_ok o -> Forall (fun x => t0 <= x.1 < t0 + dedup_window o) l ->
  (length (entries o) + length l <= lru_cap (dedup o))%nat -> published k t0 o n ->
  (n + emitted k (run_turns geoip o l).1 <= 4)%nat.
Proof.
  revert o n. induction l as [|[now t] l IH]; intros o n Hok Ht Hroom Hpub; cbn [run_turns].
  - destruct Hpub as [[_ ->]|(e & He & _ & Hle)]; [cbn; lia|].
    pose proof (nodup_sources_bound _ (proj1 (entry_of_ok o k e Hok He))). cbn. lia.
  - apply Forall_cons in Ht as [Hnow Ht]. cbn in Hnow, Hroom.
    destruct (published_turn k t0 now o t n Hok Hnow ltac:(lia) Hpub) as (Hp & Hw & Hc & Hl).
    destruct (run_turn_ok now o t Hok) as [Hok1 _]. destruct (run_turn geoip now o t) as [e o1]. cbn [fst snd] in *.
    specialize (IH o1 (n + emitted k (option_list e))%nat Hok1). rewrite Hw, Hc in IH.
    specialize (IH Ht ltac:(lia) Hp). destruct (run_turns geoip o1 l) as [es o2]. cbn [fst] in *.
    unfold emitted in *. rewrite List.filter_app, length_app. lia.
Qed.
End Steps.

(** ** Properties of the orchestrator, for any cache with the documented laws *)

Section Properties.
Context {C : Type -> Type -> Type} `{Lru : LruCache C} {LruL : LruLaws C}.
Variable geoip : option (IpAddr -> option string).

(** a detection publishes an event exactly when its source and type have no
    live entry, or when it is a new source within the entry's fusion window;
    the event then lists the entry's sources, and otherwise the detection is
    suppressed and the entry keeps its sources and its start *)
Theorem detection_published_when (now : Z) (o : DetectionOrchestrator) (ev : DetectionEvent) :
  (1 <= lru_cap (dedup o))%nat ->
  let k := event_key ev in
  let '(r, o') := handle_detection geoip now o ev in
  exists e', entry o' k = Some e' /\
    match r with
    | Some (t, _) => describes t k (source_list e') /\
        (opens now o (entry o k) (dt_source ev) (source_list e') (first_emitted_at e') \/
         joins now o (entry o k) (dt_source ev) (source_list e') (first_emitted_at e'))
    | None => suppressed now o (entry o k) (dt_source ev) (source_list e') (first_emitted_at e')
    end.
Proof.
  intros Hcap k. pose proof (handle_spec geoip now o ev Hcap) as H. cbn zeta in H. fold k in H.
  destruct (handle_detection geoip now o ev) as [r o']. by destruct H as [_ H].
Qed.

(** every event the orchestrator ever publishes names a canonical attack type
    and one to four distinct sources, counts them correctly, and carries a
    fused confidence between 0 and 1, whatever labels, floats and capacities
    come in *)
Theorem published_events_well_formed (n1 n2 n3 : nat) (w1 w2 : Z) (l : list (Z * turn)) :
  Forall (fun x => event_ok x.1) (run_turns geoip (new_orchestrator (C := C) n1 n2 n3 w1 w2) l).1.
Proof.
  apply run_turns_ok. unfold orch_ok, entries, new_orchestrator. cbn [dedup].
  destruct (lru_new_spec dedup_key DedupEntry (nonzero_cache_size n3)) as [-> ->].
  split_and!; [constructor|constructor|destruct n3; cbn; lia].
Qed.

(** within one dedup window the response engine sees at most four events for
    a source address and attack type, however many detections the four sources
    send and whatever else happens, as long as the cache has room *)
Theorem at_most_four_events_per_window (o : DetectionOrchestrator (C := C)) (k : dedup_key)
    (t0 : Z) (l : list (Z * turn)) :
  orch_ok o -> entry o k = None -> Forall (fun x => t0 <= x.1 < t0 + dedup_window o) l ->
  (length (entries o) + length l <= lru_cap (dedup o))%nat ->
  (emitted k (run_turns geoip o l).1 <= 4)%nat.
Proof. intros Hok Hnone Ht Hroom. apply (published_turns geoip k t0 l o 0 Hok Ht Hroom). by left. Qed.
End Properties.

(** ** A concrete run *)

Definition sample_detection (src : DetectionSource) (label : string) (confidence : float) : DetectionEvent :=
  mk_detection src label confidence "203.0.113.7" "10.0.0.1" 6 12 2000000 f64_zero f64_zero f64_zero.

Definition sample_orchestrator : DetectionOrchestrator (C := list_cache) := new_orchestrator 10 10 10 30 7200.

(** Two sources agree on a scan, one repeats itself, a cleanup comes between. *)
Definition sample_turns : list (Z * turn) :=
  [(0, Detection (sample_detection Suricata "network-scan" (f32_of_ratio 1 2)));
   (1 * SEC, Detection (sample_detection Correlation "port_scan" (f32_of_ratio 1 2)));
   (2 * SEC, Detection (sample_detection Correlation "port_scan" (f32_of_ratio 9 10)));
   (3 * SEC, CleanupTick)].

Lemma detection_published_when_witness :
  exists t a o', handle_detection None 0 sample_orchestrator (sample_detection Suricata "network-scan" (f32_of_ratio 1 2)) =
    (Some (t, a), o') /\ te_active_source_count t = 1.
Proof.
  pose proof (detection_published_when (C := list_cache) None 0 sample_orchestrator
    (sample_detection Suricata "network-scan" (f32_of_ratio 1 2)) (le_n_S 0 9 (Nat.le_0_l 9))) as H. cbn zeta in H.
  destruct (handle_detection None 0 sample_orchestrator (sample_detection Suricata "network-scan" (f32_of_ratio 1 2)))
    as [[[t a]|] o'].
  - exists t, a, o'. split; [done|]. destruct H as (e' & _ & (_ & _ & _ & -> & _) & [(_ & -> & _)|(e & He & _)]); [done|].
    vm_compute in He. discriminate.
  - exfalso. destruct H as (e' & _ & e & He & _). vm_compute in He. discriminate.
Defined.

Lemma published_events_well_formed_witness :
  let es := (run_turns None sample_orchestrator sample_turns).1 in
  Forall (fun x => event_ok x.1) es /\ map (fun x => te_sources x.1) es = [[Suricata]; [Suricata; Correlation]].
Proof.
  split; [apply (published_events_well_formed (C := list_cache) None 10 10 10 30 7200)|vm_compute; reflexivity].
Defined.

Lemma at_most_four_events_per_window_witness :
  let es := (run_turns None sample_orchestrator sample_turns).1 in
  (emitted ("203.0.113.7", translate Suricata "network-scan") es <= 4)%nat /\ length es = 2%nat.
Proof.
  split; [|vm_compute; reflexivity].
  apply (at_most_four_events_per_window (C := list_cache) None sample_orchestrator _ 0).
  - split_and!; [constructor|constructor|exact (le_n_S 0 9 (Nat.le_0_l 9))].
  - reflexivity.
  - repeat (apply Forall_cons; split; [vm_compute; split; congruence|]). constructor.
  - exact (proj1 (Nat.leb_le 4 10) eq_refl).
Defined.
