(* ===== verification/DnsFilter.v ===== *)
(** * The DNS filter

    [DnsFilter] keeps the blocked domains as wire-format names, the bytes a
    DNS query carries, and matches the question of every query against them
    (core/data_plane/dns_filter.rs; the name is net-guardia-abi/src/model/
    dns_name.rs).  [DnsFilterService] keeps the set and its database rows
    together (core/data_plane/dns_filter_service.rs, adapter/persistence/
    enforcement.rs).  The filter indexes untrusted frames and fixed arrays, so
    every index has an outcome as in [Parsing]: [Fault] is Rust's panic. *)

From Stdlib Require Import ZArith Lia List Ascii String.
From stdpp Require Import base list gmap sets strings.
From S2P Require Import Prelude Parsing RStr.

Local Open Scope string_scope.
Local Open Scope Z_scope.

Inductive dns_error : Type :=
  | DnsLabelOutOfRange (len : Z) | InvalidDnsDomain (label : string)
  | DnsDomainTooLong (domain : string) | TooManyDnsDomains (max : Z) | DnsDatabase
  | DnsPanic.

#[export] Instance dns_error_eq_dec : EqDecision dns_error.
Proof. solve_decision. Defined.

(** ** Names *)

Definition ETH_HEADER_LEN : Z := 14.
Definition ETH_TYPE_IPV4 : Z := 2048.
Definition ETH_TYPE_IPV6 : Z := 34525.
Definition IPV4_MIN_HEADER_LEN : Z := 20.
Definition IPV6_HEADER_LEN : Z := 40.
Definition UDP_HEADER_LEN : Z := 8.
Definition UDP_PROTOCOL_NUMBER : Z := 17.
Definition DNS_PORT : Z := 53.
Definition DNS_HEADER_LEN : Z := 12.
Definition DNS_RESPONSE_FLAG : Z := 128.
Definition DNS_NAME_CAPACITY : Z := 128.
Definition DNS_LABEL_CAPACITY : Z := 64.
Definition DNS_MAX_LABELS : nat := 32.

(** [DnsName { data: [u8; 128] }]: a list of 128 bytes. *)
Definition DnsName : Type := bytes.
Definition zeroed : DnsName := replicate 128 0.

(** A write of a slice into a fixed array; out of range panics. *)
Definition store (a : bytes) (off : Z) (bs : bytes) : mem bytes :=
  if (0 <=? off) && (off + plen bs <=? plen a)
  then Val (take (Z.to_nat off) a ++ bs ++ drop (Z.to_nat (off + plen bs)) a)%list else Fault.

(** [str::to_lowercase] maps by Unicode tables; on ASCII it is the ASCII map. *)
Class Lowercase : Type := to_lowercase : string -> string.
Definition is_ascii (s : string) : bool := all_bytes (fun c => code c <? 128) s.
Class LowercaseLaws (L : Lowercase) : Prop :=
  law_lowercase : forall s, is_ascii s = true -> to_lowercase s = to_ascii_lowercase s.

#[export] Instance ascii_lowercase : Lowercase := to_ascii_lowercase.
#[export] Instance ascii_lowercase_laws : LowercaseLaws ascii_lowercase.
Proof. done. Qed.

Definition is_ascii_alphanumeric (b : Z) : bool :=
  ((48 <=? b) && (b <=? 57)) || ((65 <=? b) && (b <=? 90)) || ((97 <=? b) && (b <=? 122)).
Definition is_ascii_uppercase (b : Z) : bool := (65 <=? b) && (b <=? 90).

Definition is_valid_domain_label (label : bytes) : bool :=
  match head label with Some b => is_ascii_alphanumeric b | None => false end
  && match last label with Some b => is_ascii_alphanumeric b | None => false end
  && forallb (fun b => is_ascii_alphanumeric b || (b =? 45)) label.

Section Names.
Context `{L : Lowercase}.

(** [domain.trim().trim_end_matches('.').to_lowercase()] *)
Definition canonical_dns_domain (domain : string) : string :=
  to_lowercase (trim_end_matches "." (trim domain)).

(** The loop of [domain_to_wire_format] over the labels. *)
Fixpoint write_labels (domain : string) (labels : list string) (name : DnsName) (pos : Z) :
    mem (result dns_error (DnsName * Z)) :=
  match labels with
  | [] => Val (Ok (name, pos))
  | label :: labels =>
      let label_bytes := str_bytes label in
      let label_len := plen label_bytes in
      if (label_len =? 0) || (64 <=? label_len) then Val (Err (DnsLabelOutOfRange label_len))
      else if negb (is_valid_domain_label label_bytes) then Val (Err (InvalidDnsDomain label))
      else if 128 <=? pos + 1 + label_len then Val (Err (DnsDomainTooLong domain))
      else
        let* name := store name pos [wrap 8 label_len] in
        let* name := store name (pos + 1) label_bytes in
        write_labels domain labels name (pos + 1 + label_len)
  end.

Definition domain_to_wire_format (domain : string) : mem (result dns_error DnsName) :=
  let domain := canonical_dns_domain domain in
  let* r := write_labels domain (split "." domain) zeroed 0 in
  match r with
  | Err e => Val (Err e)
  | Ok (name, pos) =>
      if pos <? 128 then let* name := store name pos [0] in Val (Ok name) else Val (Ok name)
  end.
End Names.

(** [str::from_utf8]: the byte sequences of RFC 3629. *)
Definition cont (b : Z) : bool := (128 <=? b) && (b <=? 191).
Fixpoint is_utf8 (l : bytes) : bool :=
  match l with
  | [] => true
  | a :: l1 =>
      if a <? 128 then is_utf8 l1
      else
        match l1 with
        | b :: l2 =>
            if (194 <=? a) && (a <=? 223) then cont b && is_utf8 l2
            else
              match l2 with
              | c :: l3 =>
                  if (224 <=? a) && (a <=? 239) then
                    cont b && cont c && negb ((a =? 224) && (b <? 160))
                    && negb ((a =? 237) && (159 <? b)) && is_utf8 l3
                  else
                    match l3 with
                    | d :: l4 =>
                        (240 <=? a) && (a <=? 244) && cont b && cont c && cont d
                        && negb ((a =? 240) && (b <? 144)) && negb ((a =? 244) && (143 <? b))
                        && is_utf8 l4
                    | [] => false
                    end
              | [] => false
              end
        | [] => false
        end
  end.

Definition bytes_str (l : bytes) : string :=
  fold_right (fun b s => String (ascii_of_nat (Z.to_nat b)) s) "" l.

(** The loop of [wire_format_to_domain]; [None] when the fuel ends, which 65
    rounds exclude (every label takes two bytes of the 128 or more). *)
Fixpoint read_labels (fuel : nat) (name : DnsName) (domain : string) (pos : Z) :
    option (mem (option string)) :=
  match fuel with
  | O => None
  | S fuel =>
      if 128 <=? pos then Some (Val (Some domain))
      else
        match load_u8 name pos with
        | Fault => Some Fault
        | Val label_len =>
            if label_len =? 0 then Some (Val (Some domain))
            else if (64 <=? label_len) || (128 <? pos + 1 + label_len) then Some (Val None)
            else
              let pos := pos + 1 in
              match load name pos label_len with
              | Fault => Some Fault
              | Val label =>
                  if negb (is_utf8 label) then Some (Val None)
                  else
                    let domain := if is_empty domain then domain else domain ++ "." in
                    read_labels fuel name (domain ++ bytes_str label) (pos + label_len)
              end
        end
  end.

Definition wire_format_to_domain (name : DnsName) : option (mem (option string)) :=
  match read_labels 65 name "" 0 with
  | Some (Val (Some domain)) => Some (Val (if is_empty domain then None else Some domain))
  | r => r
  end.

(** ** Queries *)

(** [parse_query_name] up to the question: where the name starts and where the
    UDP payload ends. *)
Definition query_bounds (raw : bytes) : mem (option (Z * Z)) :=
  if plen raw <? ETH_HEADER_LEN then Val None
  else
    let* eth_type := load_be16 raw 12 in
    let* l3 :=
      (if eth_type =? ETH_TYPE_IPV4 then
         if plen raw <? ETH_HEADER_LEN + IPV4_MIN_HEADER_LEN then Val None
         else
           let* b := load_u8 raw 14 in
           let ihl := Z.land b 15 * 4 in
           if ihl <? IPV4_MIN_HEADER_LEN then Val None
           else
             let* total_len := load_be16 raw 16 in
             if (total_len <? ihl) || (plen raw <? ETH_HEADER_LEN + total_len) then Val None
             else
               let* proto := load_u8 raw (ETH_HEADER_LEN + 9) in
               if negb (proto =? UDP_PROTOCOL_NUMBER) then Val None
               else Val (Some (ihl, ETH_HEADER_LEN + total_len))
       else if eth_type =? ETH_TYPE_IPV6 then
         if plen raw <? ETH_HEADER_LEN + IPV6_HEADER_LEN + UDP_HEADER_LEN then Val None
         else
           let* proto := load_u8 raw (ETH_HEADER_LEN + 6) in
           if negb (proto =? UDP_PROTOCOL_NUMBER) then Val None
           else
             let* payload_len := load_be16 raw 18 in
             if plen raw <? ETH_HEADER_LEN + IPV6_HEADER_LEN + payload_len then Val None
             else Val (Some (IPV6_HEADER_LEN, ETH_HEADER_LEN + IPV6_HEADER_LEN + payload_len))
       else Val None) in
    match l3 with
    | None => Val None
    | Some (l3_header_len, l3_payload_end) =>
        let udp_start := ETH_HEADER_LEN + l3_header_len in
        if l3_payload_end <? udp_start + UDP_HEADER_LEN then Val None
        else
          let* dst_port := load_be16 raw (udp_start + 2) in
          if negb (dst_port =? DNS_PORT) then Val None
          else
            let* udp_len := load_be16 raw (udp_start + 4) in
            if (udp_len <? UDP_HEADER_LEN) || (l3_payload_end <? udp_start + udp_len) then Val None
            else
              let udp_payload_end := udp_start + udp_len in
              let dns_header_offset := udp_start + UDP_HEADER_LEN in
              if udp_payload_end <? dns_header_offset + DNS_HEADER_LEN then Val None
              else
                let* flags := load_u8 raw (dns_header_offset + 2) in
                if negb (Z.land flags DNS_RESPONSE_FLAG =? 0) then Val None
                else
                  let* qd0 := load_u8 raw (dns_header_offset + 4) in
                  let* qd1 := load_u8 raw (dns_header_offset + 5) in
                  if (qd0 =? 0) && (qd1 =? 0) then Val None
                  else
                    let dns_qname_offset := dns_header_offset + DNS_HEADER_LEN in
                    if udp_payload_end <=? dns_qname_offset then Val None
                    else Val (Some (dns_qname_offset, udp_payload_end))
    end.

Definition lower_byte (b : Z) : Z := if is_ascii_uppercase b then b + 32 else b.

(** [for j in 0..ll]: the bytes of one label. *)
Fixpoint copy_label (raw : bytes) (at_ : Z) (n : nat) (name : DnsName) (out : Z) : mem (DnsName * Z) :=
  match n with
  | O => Val (name, out)
  | S n =>
      let* b := load_u8 raw at_ in
      let* name := store name out [lower_byte b] in
      copy_label raw (at_ + 1) n name (out + 1)
  end.

(** [for _ in 0..DNS_MAX_LABELS]: the question's labels. *)
Fixpoint copy_labels (rounds : nat) (raw : bytes) (udp_payload_end pos : Z) (name : DnsName) (out : Z) :
    mem (option (DnsName * Z)) :=
  match rounds with
  | O => Val None
  | S rounds =>
      if udp_payload_end <=? pos then Val None
      else
        let* ll := load_u8 raw pos in
        if ll =? 0 then
          if out <? DNS_NAME_CAPACITY then
            let* name := store name out [0] in Val (Some (name, out + 1))
          else Val (Some (name, out + 1))
        else if DNS_LABEL_CAPACITY <=? ll then Val None
        else if DNS_NAME_CAPACITY <=? out + 1 + ll then Val None
        else if udp_payload_end <? pos + 1 + ll then Val None
        else
          let* name := store name out [wrap 8 ll] in
          let* r := copy_label raw (pos + 1) (Z.to_nat ll) name (out + 1) in
          copy_labels rounds raw udp_payload_end (pos + (1 + ll)) r.1 r.2
  end.

Definition parse_query_name (raw : bytes) : mem (option (DnsName * Z)) :=
  let* bounds := query_bounds raw in
  match bounds with
  | None => Val None
  | Some (pos, udp_payload_end) => copy_labels DNS_MAX_LABELS raw udp_payload_end pos zeroed 0
  end.

(** ** The blacklist *)

Abbreviation names := (gset (list Z)) (only parsing).

(** [parent.data[..k].copy_from_slice(&name.data[offset..offset + k])] *)
Definition parent_name (name : DnsName) (name_len offset : Z) : mem DnsName :=
  let remaining := name_len - offset in
  let* part := load name offset (Z.min remaining DNS_NAME_CAPACITY) in
  store zeroed 0 part.

(** The loop of [is_blacklisted]; [None] when the fuel ends. *)
Fixpoint parents_blacklisted (fuel : nat) (blacklist : names) (name : DnsName) (name_len offset : Z) :
    option (mem bool) :=
  match fuel with
  | O => None
  | S fuel =>
      if (name_len <=? offset) || (DNS_NAME_CAPACITY <=? offset) then Some (Val false)
      else
        match load_u8 name offset with
        | Fault => Some Fault
        | Val lbl =>
            if lbl =? 0 then Some (Val false)
            else
              let offset := offset + (1 + lbl) in
              if (name_len <=? offset) || (DNS_NAME_CAPACITY <=? offset) then Some (Val false)
              else
                match load_u8 name offset with
                | Fault => Some Fault
                | Val b =>
                    if b =? 0 then Some (Val false)
                    else
                      match parent_name name name_len offset with
                      | Fault => Some Fault
                      | Val parent =>
                          if bool_decide (parent ∈ blacklist) then Some (Val true)
                          else parents_blacklisted fuel blacklist name name_len offset
                      end
                end
        end
  end.

Definition is_blacklisted (blacklist : names) (name : DnsName) (name_len : Z) : option (mem bool) :=
  if bool_decide (blacklist = ∅) then Some (Val false)
  else if bool_decide (name ∈ blacklist) then Some (Val true)
  else parents_blacklisted 65 blacklist name name_len 0.

Definition is_query_blacklisted (blacklist : names) (raw : bytes) : option (mem bool) :=
  match parse_query_name raw with
  | Fault => Some Fault
  | Val None => Some (Val false)
  | Val (Some (name, name_len)) => is_blacklisted blacklist name name_len
  end.

(** ** Names as padded label sequences *)

Definition enc (ls : list bytes) : bytes := concat (map (fun l => plen l :: l) ls).
Definition pad (x : bytes) : DnsName := (x ++ replicate (128 - length x) 0)%list.
Definition label_ok (l : bytes) : Prop := 1 <= plen l < 64.

(** The wire name of a label sequence. *)
Definition wire (ls : list bytes) : DnsName := pad (enc ls).
(** What fits a [DnsName] with its terminator. *)
Definition wire_ok (ls : list bytes) : Prop := Forall label_ok ls /\ plen (enc ls) < 128.

Lemma enc_cons (l : bytes) (ls : list bytes) : enc (l :: ls) = (plen l :: l ++ enc ls)%list.
Proof. done. Qed.

Lemma enc_app (ls ks : list bytes) : enc (ls ++ ks)%list = (enc ls ++ enc ks)%list.
Proof. unfold enc. by rewrite map_app, concat_app. Qed.

Lemma enc_snoc (ls : list bytes) (l : bytes) : enc (ls ++ [l])%list = (enc ls ++ [plen l] ++ l)%list.
Proof. rewrite enc_app, enc_cons. unfold enc. simpl. by rewrite app_nil_r. Qed.

Lemma plen_pad (x : bytes) : plen x <= 128 -> plen (pad x) = 128.
Proof. unfold plen, pad. intros. rewrite length_app, length_replicate. lia. Qed.

Lemma pad_nil : pad [] = zeroed.
Proof. done. Qed.

Lemma store_pad (p bs : bytes) :
  plen p + plen bs <= 128 -> store (pad p) (plen p) bs = Val (pad (p ++ bs)%list).
Proof.
  intros H. unfold store. pose proof (plen_nonneg p). pose proof (plen_nonneg bs).
  rewrite (proj2 (Z.leb_le 0 (plen p))), plen_pad, (proj2 (Z.leb_le _ 128)) by lia. simpl. f_equal.
  unfold pad, plen in *. rewrite <- Nat2Z.inj_add, !Nat2Z.id.
  rewrite take_app_le, firstn_all by lia. rewrite <- app_assoc. f_equal. f_equal.
  rewrite drop_app_ge by lia. rewrite drop_replicate, length_app. f_equal. lia.
Qed.

Lemma wrap_len (l : bytes) : label_ok l -> wrap 8 (plen l) = plen l.
Proof. intros [? ?]. apply wrap_small. unfold in_width, pow2. lia. Qed.

(** The terminator is already there. *)
Lemma store_terminator (p : bytes) : plen p < 128 -> store (pad p) (plen p) [0] = Val (pad p).
Proof.
  intros Hp. rewrite store_pad by (change (plen [0]) with 1; lia). f_equal. unfold pad, plen in *.
  rewrite length_app. simpl length. rewrite <- app_assoc. f_equal.
  replace (128 - length p)%nat with (S (128 - (length p + 1))) by lia. done.
Qed.

Lemma pad_terminated (p : bytes) :
  plen p < 128 -> pad p = (p ++ 0 :: replicate (127 - length p) 0)%list.
Proof.
  unfold pad, plen. intros. f_equal. by replace (128 - length p)%nat with (S (127 - length p)) by lia.
Qed.

(** ** The encoding is injective *)

Lemma enc_terminated_inj (ls ks : list bytes) (s t : bytes) :
  Forall label_ok ls -> Forall label_ok ks ->
  (enc ls ++ 0 :: s = enc ks ++ 0 :: t)%list -> ls = ks.
Proof.
  intros Hls. revert ks. induction Hls as [|l ls Hl Hls IH]; intros ks Hks.
  - destruct Hks as [|k ks Hk]; [done|]. rewrite enc_cons. intros [= H _]. destruct Hk. lia.
  - destruct Hks as [|k ks Hk Hks]; rewrite ?enc_cons; [intros [= H _]; destruct Hl; lia|].
    intros [= Hlen H]. rewrite <- !app_assoc in H. unfold plen in Hlen. apply Nat2Z.inj in Hlen.
    apply app_inj_1 in H as [-> H]; [|done]. f_equal. by apply IH.
Qed.

Lemma wire_inj (ls ks : list bytes) : wire_ok ls -> wire_ok ks -> wire ls = wire ks -> ls = ks.
Proof.
  intros [Hls Hl] [Hks Hk]. unfold wire. rewrite !pad_terminated by done.
  by apply enc_terminated_inj.
Qed.

Lemma wire_ok_suffix (ls ks : list bytes) : wire_ok (ls ++ ks)%list -> wire_ok ks.
Proof.
  intros [Hf Hlen]. apply Forall_app in Hf as [_ Hf]. split; [done|].
  rewrite enc_app, plen_app in Hlen. pose proof (plen_nonneg (enc ls)). lia.
Qed.

(** ** Parsing a question *)

Definition lower_label (l : bytes) : bytes := map lower_byte l.

Lemma plen_lower (l : bytes) : plen (lower_label l) = plen l.
Proof. unfold plen, lower_label. by rewrite length_map. Qed.

Lemma plen_enc_lower (ls : list bytes) : plen (enc (map lower_label ls)) = plen (enc ls).
Proof.
  induction ls as [|l ls IH]; [done|]. simpl map.
  by rewrite !enc_cons, !plen_cons, !plen_app, IH, !plen_lower.
Qed.

Lemma label_ok_lower (l : bytes) : label_ok l -> label_ok (lower_label l).
Proof. unfold label_ok. by rewrite plen_lower. Qed.

Lemma wire_ok_lower (ls : list bytes) : wire_ok ls -> wire_ok (map lower_label ls).
Proof.
  intros [Hf Hl]. split; [|by rewrite plen_enc_lower].
  induction Hf; simpl; constructor; auto using label_ok_lower. apply IHHf.
  rewrite enc_cons, plen_cons, plen_app in Hl. pose proof (plen_nonneg x). lia.
Qed.

Lemma copy_label_app (pre l s p : bytes) :
  plen p + plen l <= 128 ->
  copy_label (pre ++ l ++ s)%list (plen pre) (length l) (pad p) (plen p)
    = Val (pad (p ++ lower_label l)%list, plen p + plen l).
Proof.
  revert pre p. induction l as [|b l IH]; intros pre p Hp.
  - cbn [copy_label length lower_label map]. rewrite app_nil_r. change (plen []) with 0. by rewrite Z.add_0_r.
  - rewrite plen_cons in Hp. pose proof (plen_nonneg l). cbn [copy_label length app].
    rewrite load_u8_app by done. cbn [mem_bind].
    rewrite store_pad by (change (plen [lower_byte b]) with 1; lia). cbn [mem_bind].
    change (pre ++ b :: l ++ s)%list with (pre ++ [b] ++ l ++ s)%list. rewrite app_assoc.
    change 1 with (plen [b]) at 1. rewrite <- plen_app.
    replace (plen p + 1) with (plen (p ++ [lower_byte b])%list) by (by rewrite plen_app).
    rewrite IH by (rewrite plen_app; change (plen [lower_byte b]) with 1; lia).
    rewrite <- app_assoc, plen_app, (plen_cons b). change (plen [lower_byte b]) with 1.
    change ([lower_byte b] ++ lower_label l)%list with (lower_label (b :: l)). do 2 f_equal. lia.
Qed.

(** One round on a label that fits. *)
Lemma copy_labels_label (rounds : nat) (pre l s p : bytes) (e : Z) :
  label_ok l -> plen p + 1 + plen l < 128 -> plen pre + 1 + plen l <= e ->
  copy_labels (S rounds) (pre ++ plen l :: l ++ s)%list e (plen pre) (pad p) (plen p)
    = copy_labels rounds ((pre ++ plen l :: l) ++ s)%list e (plen (pre ++ plen l :: l)%list)
        (pad (p ++ plen l :: lower_label l)%list) (plen (p ++ plen l :: lower_label l)%list).
Proof.
  intros Hl Hp He. pose proof Hl as [Hl1 Hl2]. cbn [copy_labels].
  rewrite (proj2 (Z.leb_gt e (plen pre))), load_u8_app by (done || lia). cbn [mem_bind].
  unfold DNS_LABEL_CAPACITY, DNS_NAME_CAPACITY.
  rewrite (proj2 (Z.eqb_neq (plen l) 0)), (proj2 (Z.leb_gt 64 (plen l))), (proj2 (Z.leb_gt 128 _)),
    (proj2 (Z.ltb_ge e _)) by lia.
  rewrite wrap_len, store_pad by (try done; change (plen [plen l]) with 1; lia). cbn [mem_bind].
  change (pre ++ plen l :: l ++ s)%list with (pre ++ [plen l] ++ l ++ s)%list.
  rewrite (app_assoc pre [plen l]).
  change (plen pre + 1) with (plen pre + plen [plen l]). rewrite <- plen_app.
  change (plen p + 1) with (plen p + plen [plen l]). rewrite <- plen_app.
  unfold plen at 4. rewrite Nat2Z.id.
  rewrite copy_label_app by (rewrite plen_app; change (plen [plen l]) with 1; lia). cbn [mem_bind fst snd].
  rewrite <- !app_assoc. cbn [app]. f_equal.
  - rewrite plen_app, plen_cons. lia.
  - rewrite !plen_app, (plen_cons _ (lower_label l)), plen_lower. change (plen [plen l]) with 1. lia.
Qed.

Lemma copy_labels_end (rounds : nat) (pre s p : bytes) (e : Z) :
  plen p < 128 -> plen pre < e ->
  copy_labels (S rounds) (pre ++ 0 :: s)%list e (plen pre) (pad p) (plen p) = Val (Some (pad p, plen p + 1)).
Proof.
  intros Hp He. cbn [copy_labels]. rewrite (proj2 (Z.leb_gt e (plen pre))), load_u8_app by (done || lia).
  cbn [mem_bind Z.eqb]. unfold DNS_NAME_CAPACITY. rewrite (proj2 (Z.ltb_lt (plen p) 128)) by lia.
  by rewrite store_terminator.
Qed.

(** A question of fewer labels than rounds that fits a name is copied. *)
Lemma copy_labels_complete (ls : list bytes) (rounds : nat) (pre s p : bytes) (e : Z) :
  Forall label_ok ls -> (length ls < rounds)%nat ->
  plen p + plen (enc ls) < 128 -> plen pre + plen (enc ls) < e ->
  copy_labels rounds (pre ++ enc ls ++ 0 :: s)%list e (plen pre) (pad p) (plen p)
    = Val (Some (pad (p ++ enc (map lower_label ls))%list, plen p + plen (enc ls) + 1)).
Proof.
  intros Hls. revert rounds pre p. induction Hls as [|l ls Hl Hls IH]; intros rounds pre p Hr Hp He.
  - destruct rounds as [|rounds]; [simpl in Hr; lia|]. change (enc (map lower_label [])) with (@nil Z).
    change (enc []) with (@nil Z) in *. change (plen []) with 0 in *. cbn [app]. rewrite app_nil_r, copy_labels_end by lia. do 3 f_equal. lia.
  - destruct rounds as [|rounds]; [simpl in Hr; lia|]. simpl in Hr.
    rewrite enc_cons, plen_cons, plen_app in *. pose proof (plen_nonneg (enc ls)).
    cbn [app]. rewrite <- app_assoc, copy_labels_label by (done || lia).
    assert (plen (pre ++ plen l :: l)%list = plen pre + 1 + plen l) by (rewrite plen_app, plen_cons; lia).
    assert (plen (p ++ plen l :: lower_label l)%list = plen p + 1 + plen l)
      by (rewrite plen_app, plen_cons, plen_lower; lia).
    rewrite IH by lia. simpl map. rewrite enc_cons, plen_lower, <- app_assoc. cbn [app].
    do 3 f_equal. lia.
Qed.

(** What a result says about the bytes; no read or write is out of range. *)
Lemma copy_labels_sound (rounds : nat) (pre suf p : bytes) (e : Z) :
  bytes_ok suf -> plen p < 128 -> e <= plen (pre ++ suf)%list ->
  exists r, copy_labels rounds (pre ++ suf)%list e (plen pre) (pad p) (plen p) = Val r /\
    forall n k, r = Some (n, k) -> exists ls s,
      suf = (enc ls ++ 0 :: s)%list /\ Forall label_ok ls /\ (length ls < rounds)%nat /\
      plen p + plen (enc ls) < 128 /\ plen pre + plen (enc ls) < e /\
      n = pad (p ++ enc (map lower_label ls))%list /\ k = plen p + plen (enc ls) + 1.
Proof.
  revert pre suf p. induction rounds as [|rounds IH]; intros pre suf p Hok Hp He; [by exists None|].
  destruct (Z.leb_spec e (plen pre)) as [Hpos|Hpos].
  { exists None. cbn [copy_labels]. by rewrite (proj2 (Z.leb_le e (plen pre))). }
  destruct suf as [|ll suf]; [rewrite app_nil_r in He; lia|].
  inversion Hok as [|? ? [Hb1 Hb2] Hok']; subst.
  destruct (Z.eqb_spec ll 0) as [->|Hll].
  { exists (Some (pad p, plen p + 1)). rewrite copy_labels_end by done. split; [done|].
    intros n k [= <- <-]. exists [], suf. change (enc []) with (@nil Z). change (plen []) with 0. simpl.
    rewrite app_nil_r. split_and!; done || lia. }
  destruct (Z.leb_spec 64 ll) as [H64|H64]; [|destruct (Z.leb_spec 128 (plen p + 1 + ll)) as [H128|H128];
    [|destruct (Z.ltb_spec e (plen pre + 1 + ll)) as [Hend|Hend]]].
  1-3: exists None; split; [|done]; cbn [copy_labels];
    rewrite (proj2 (Z.leb_gt e (plen pre))), load_u8_app by (done || lia); cbn [mem_bind];
    unfold DNS_LABEL_CAPACITY, DNS_NAME_CAPACITY;
    rewrite (proj2 (Z.eqb_neq ll 0)) by done.
  1: by rewrite (proj2 (Z.leb_le 64 ll)).
  1: by rewrite (proj2 (Z.leb_gt 64 ll)), (proj2 (Z.leb_le 128 _)).
  1: by rewrite (proj2 (Z.leb_gt 64 ll)), (proj2 (Z.leb_gt 128 _)), (proj2 (Z.ltb_lt e _)).
  rewrite plen_app, plen_cons in He.
  set (l := take (Z.to_nat ll) suf). set (rest := drop (Z.to_nat ll) suf).
  assert (suf = (l ++ rest)%list) as Hsuf by (unfold l, rest; by rewrite take_drop).
  assert (plen l = ll) as Hlen by (unfold plen, l in *; rewrite length_take; lia).
  assert (label_ok l) as Hl by (unfold label_ok; lia).
  rewrite Hsuf in Hok' |- *. apply Forall_app in Hok' as [_ Hrest]. rewrite <- Hlen.
  rewrite copy_labels_label by (done || lia).
  destruct (IH (pre ++ plen l :: l)%list rest (p ++ plen l :: lower_label l)%list) as (r & Hr & Hspec).
  - done.
  - rewrite plen_app, plen_cons, plen_lower. lia.
  - rewrite Hsuf, plen_app in He. rewrite !plen_app, plen_cons. lia.
  - exists r. split; [done|]. intros n k Hnk. destruct (Hspec n k Hnk) as (ls & s & Hs & Hf & Hn & H1 & H2 & H3 & H4).
    rewrite !plen_app, !plen_cons, ?plen_lower in *. exists (l :: ls), s.
    rewrite enc_cons, plen_cons, plen_app. simpl map. rewrite enc_cons, plen_lower.
    split_and!; try lia.
    + cbn [app]. by rewrite Hs, <- app_assoc.
    + by constructor.
    + simpl. lia.
    + rewrite H3. by rewrite <- app_assoc.
Qed.

(** ** Every read of a frame is in range *)

Lemma query_bounds_ends (raw : bytes) :
  bytes_ok raw ->
  ends (query_bounds raw) (fun r => forall q e, r = Some (q, e) -> 0 <= q < e /\ e <= plen raw).
Proof.
  intros Hok. unfold query_bounds, ETH_HEADER_LEN, IPV4_MIN_HEADER_LEN, IPV6_HEADER_LEN, UDP_HEADER_LEN,
    DNS_HEADER_LEN. repeat ends_step; [done|].
  apply ends_bind with (fun r => forall l e, r = Some (l, e) -> 20 <= l /\ e <= plen raw).
  - repeat ends_step; intros l e ?; simplify_eq; lia.
  - intros [[l3 e3]|] Hb; [|by apply ends_val]. destruct (Hb _ _ eq_refl) as [Hl He].
    repeat ends_step; intros q e ?; simplify_eq; lia.
Qed.

(** ** The question of a frame *)

(** The frame is a DNS query over UDP whose first question carries the labels
    [ls] (before the end of the UDP payload). *)
Definition question (raw : bytes) (ls : list bytes) : Prop :=
  exists pre s e, raw = (pre ++ enc ls ++ 0 :: s)%list /\ Forall label_ok ls /\
    query_bounds raw = Val (Some (plen pre, e)) /\ plen pre + plen (enc ls) < e.

Lemma parse_query_name_complete (raw : bytes) (ls : list bytes) :
  question raw ls -> (length ls < 32)%nat -> plen (enc ls) < 128 ->
  parse_query_name raw = Val (Some (wire (map lower_label ls), plen (enc ls) + 1)).
Proof.
  intros (pre & s & e & Hraw & Hls & Hb & He) Hn Hlen. unfold parse_query_name. rewrite Hb. cbn [mem_bind].
  rewrite Hraw. change 0 with (plen []) at 2. rewrite <- pad_nil.
  rewrite copy_labels_complete by (try done; change (plen []) with 0; lia).
  change (plen []) with 0. done.
Qed.

Lemma parse_query_name_ends (raw : bytes) :
  bytes_ok raw ->
  ends (parse_query_name raw) (fun r => forall n k, r = Some (n, k) -> exists ls,
    question raw ls /\ (length ls < 32)%nat /\ plen (enc ls) < 128 /\
    n = wire (map lower_label ls) /\ k = plen (enc ls) + 1).
Proof.
  intros Hok. unfold parse_query_name. destruct (query_bounds_ends raw Hok) as (r & Hr & Hspec).
  rewrite Hr. cbn [mem_bind]. destruct r as [[q e]|]; [|by apply ends_val].
  destruct (Hspec q e eq_refl) as [Hq He].
  assert (plen (take (Z.to_nat q) raw) = q) as Hpre by (unfold plen in *; rewrite length_take; lia).
  destruct (copy_labels_sound DNS_MAX_LABELS (take (Z.to_nat q) raw) (drop (Z.to_nat q) raw) [] e)
    as (r & Hcopy & Hsound).
  - by apply Forall_drop.
  - done.
  - by rewrite take_drop.
  - rewrite take_drop, Hpre, pad_nil in Hcopy. change (plen []) with 0 in Hcopy. exists r. split; [done|].
    intros n k Hnk. destruct (Hsound n k Hnk) as (ls & s & Hs & Hf & Hn & H1 & H2 & H3 & H4).
    exists ls. change (plen []) with 0 in *. split_and!; try done; try lia.
    exists (take (Z.to_nat q) raw), s, e. rewrite <- Hs, take_drop, Hpre in *. done.
Qed.

(** ** Matching against the blacklist *)

(** A name matches when it or a parent domain is listed. *)
Fixpoint parent_listed (blacklist : names) (ls : list bytes) : bool :=
  match ls with
  | [] => false
  | _ :: [] => false
  | _ :: ls => bool_decide (wire ls ∈ blacklist) || parent_listed blacklist ls
  end.

Lemma pad_snoc_zero (p : bytes) : plen p < 128 -> pad (p ++ [0])%list = pad p.
Proof.
  intros Hp. pose proof (store_terminator p Hp) as H.
  rewrite store_pad in H by (change (plen [0]) with 1; lia). by injection H.
Qed.

Lemma parent_name_wire (ds ks : list bytes) :
  wire_ok (ds ++ ks)%list ->
  parent_name (wire (ds ++ ks)%list) (plen (enc (ds ++ ks)%list) + 1) (plen (enc ds)) = Val (wire ks).
Proof.
  intros [_ Hlen]. unfold parent_name, wire, DNS_NAME_CAPACITY. rewrite pad_terminated by done.
  rewrite !enc_app, plen_app in *. pose proof (plen_nonneg (enc ds)). pose proof (plen_nonneg (enc ks)).
  replace (Z.min _ 128) with (plen (enc ks ++ [0])%list) by (rewrite plen_app; change (plen [0]) with 1; lia).
  rewrite <- app_assoc. change (?x ++ 0 :: ?y)%list with (x ++ [0] ++ y)%list.
  rewrite (app_assoc (enc ks)), load_app by done. cbn [mem_bind]. rewrite <- pad_nil.
  change (store (pad []) 0) with (store (pad []) (plen [])). cbn [app].
  rewrite store_pad by (rewrite plen_app; change (plen []) with 0; change (plen [0]) with 1; lia).
  cbn [app]. by rewrite pad_snoc_zero by lia.
Qed.

Lemma wire_byte (ds ks : list bytes) (l : bytes) :
  wire_ok (ds ++ l :: ks)%list -> load_u8 (wire (ds ++ l :: ks)%list) (plen (enc ds)) = Val (plen l).
Proof. intros _. unfold wire, pad. rewrite enc_app, enc_cons, <- app_assoc. cbn [app]. by apply load_u8_app. Qed.

Lemma wire_byte_end (ds : list bytes) : wire_ok ds -> load_u8 (wire ds) (plen (enc ds)) = Val 0.
Proof. intros [_ Hlen]. unfold wire. rewrite pad_terminated by done. by apply load_u8_app. Qed.

Lemma plen_enc_snoc (ds : list bytes) (l : bytes) :
  plen (enc (ds ++ [l])%list) = plen (enc ds) + (1 + plen l).
Proof. rewrite enc_snoc, !plen_app. change (plen [plen l]) with 1. lia. Qed.

Lemma parents_blacklisted_wire (blacklist : names) (ls : list bytes) (fuel : nat) (ds : list bytes) :
  wire_ok (ds ++ ls)%list -> (length ls < fuel)%nat ->
  parents_blacklisted fuel blacklist (wire (ds ++ ls)%list) (plen (enc (ds ++ ls)%list) + 1) (plen (enc ds))
    = Some (Val (parent_listed blacklist ls)).
Proof.
  revert fuel ds. induction ls as [|l ls IH]; intros fuel ds Hok Hf; (destruct fuel as [|fuel]; [simpl in Hf; lia|]);
    cbn [parents_blacklisted]; unfold DNS_NAME_CAPACITY; pose proof Hok as [Hls Hlen];
    pose proof (plen_nonneg (enc ds)).
  - rewrite app_nil_r in *. rewrite (proj2 (Z.leb_gt _ (plen (enc ds)))), (proj2 (Z.leb_gt 128 _)) by lia.
    cbn [orb]. by rewrite wire_byte_end.
  - pose proof Hls as Hls'. apply Forall_app in Hls' as [_ Hls']. inversion Hls' as [|? ? Hl Hls'']; subst.
    assert (plen (enc (ds ++ l :: ls)%list) = plen (enc ds) + (1 + plen l) + plen (enc ls)) as Hplen
      by (rewrite enc_app, enc_cons, plen_app, plen_cons, plen_app; lia).
    pose proof (plen_nonneg (enc ls)). destruct Hl as [Hl1 Hl2].
    rewrite (proj2 (Z.leb_gt _ (plen (enc ds)))), (proj2 (Z.leb_gt 128 (plen (enc ds)))) by lia. cbn [orb].
    rewrite wire_byte by done. rewrite (proj2 (Z.eqb_neq (plen l) 0)) by lia.
    rewrite <- plen_enc_snoc in *. cbv zeta.
    rewrite (proj2 (Z.leb_gt _ (plen (enc (ds ++ [l])%list)))), (proj2 (Z.leb_gt 128 _)) by lia. cbn [orb].
    replace (ds ++ l :: ls)%list with ((ds ++ [l]) ++ ls)%list in * by (by rewrite <- app_assoc).
    destruct ls as [|k ls].
    + rewrite app_nil_r in *. by rewrite wire_byte_end.
    + inversion Hls'' as [|? ? Hk _]; subst. destruct Hk as [Hk1 Hk2].
      rewrite wire_byte by done. rewrite (proj2 (Z.eqb_neq (plen k) 0)) by lia.
      rewrite parent_name_wire by done. cbn [parent_listed].
      case_bool_decide; [done|]. apply IH; [done|]. simpl in Hf |- *. lia.
Qed.

Lemma label_count (ls : list bytes) : Forall label_ok ls -> 2 * Z.of_nat (length ls) <= plen (enc ls).
Proof.
  induction 1 as [|l ls [Hl _] Hls IH]; [done|]. rewrite enc_cons, plen_cons, plen_app. simpl length. lia.
Qed.

Lemma is_blacklisted_wire (blacklist : names) (ls : list bytes) :
  wire_ok ls ->
  is_blacklisted blacklist (wire ls) (plen (enc ls) + 1)
    = Some (Val (bool_decide (wire ls ∈ blacklist) || parent_listed blacklist ls)).
Proof.
  intros Hok. unfold is_blacklisted. case_bool_decide as He.
  - subst. rewrite bool_decide_eq_false_2 by set_solver. do 2 f_equal. symmetry.
    induction ls as [|l [|k ls] IH]; [done..|]. cbn [parent_listed].
    rewrite bool_decide_eq_false_2 by set_solver. apply IH.
    by apply (wire_ok_suffix [l]).
  - case_bool_decide; [done|]. change 0 with (plen (enc [])).
    apply (parents_blacklisted_wire blacklist ls 65 []); [done|].
    destruct Hok as [Hf Hlen]. pose proof (label_count ls Hf). lia.
Qed.

Lemma parent_listed_spec (blacklist : names) (ls : list bytes) :
  bool_decide (wire ls ∈ blacklist) || parent_listed blacklist ls = true <->
  exists ds ks, ls = (ds ++ ks)%list /\ (ks = [] -> ls = []) /\ wire ks ∈ blacklist.
Proof.
  induction ls as [|l ls IH].
  - simpl. rewrite orb_false_r, bool_decide_eq_true. split.
    + intros H. by exists [], [].
    + intros (ds & ks & Heq & _ & H). symmetry in Heq. by apply app_eq_nil in Heq as [-> ->].
  - rewrite orb_true_iff, bool_decide_eq_true. split.
    + intros [H|H]; [by exists [], (l :: ls)|]. destruct ls as [|k ls]; [done|].
      apply IH in H as (ds & ks & Heq & Hks & H). exists (l :: ds), ks.
      split_and!; [by rewrite Heq|intros ->; by specialize (Hks eq_refl)|done].
    + intros ([|d ds] & ks & Heq & Hks & H); simpl in Heq; [left; by subst|].
      injection Heq as <- ->. right. destruct (ds ++ ks)%list as [|k ls] eqn:E.
      { apply app_eq_nil in E as [-> ->]. by specialize (Hks eq_refl). }
      apply IH. exists ds, ks. split_and!; try done. intros ->. by specialize (Hks eq_refl).
Qed.

(** ** Domains as wire names *)

Definition domain_labels `{L : Lowercase} (domain : string) : list bytes :=
  map str_bytes (split "." (canonical_dns_domain domain)).

(** A label the filter accepts. *)
Definition good_label (l : bytes) : Prop := label_ok l /\ is_valid_domain_label l = true.
Definition valid_labels (ls : list bytes) : Prop := Forall good_label ls /\ plen (enc ls) < 128.

Lemma valid_labels_wire_ok (ls : list bytes) : valid_labels ls -> wire_ok ls.
Proof. intros [Hf Hl]. split; [|done]. eapply Forall_impl; [done|]. by intros l [? _]. Qed.

Lemma write_labels_ends (domain : string) (ls : list string) (p : bytes) :
  plen p < 128 ->
  let fits := Forall good_label (map str_bytes ls) /\ plen p + plen (enc (map str_bytes ls)) < 128 in
  ends (write_labels domain ls (pad p) (plen p)) (fun r =>
    match r with
    | Ok (n, k) => fits /\ n = pad (p ++ enc (map str_bytes ls))%list /\ k = plen p + plen (enc (map str_bytes ls))
    | Err _ => ~ fits
    end).
Proof.
  revert p. induction ls as [|l ls IH]; intros p Hp; cbn [write_labels map].
  - apply ends_val. change (enc []) with (@nil Z). rewrite app_nil_r. change (plen []) with 0. split_and!; done || lia.
  - rewrite enc_cons, plen_cons, plen_app. pose proof (plen_nonneg (enc (map str_bytes ls))) as Hnn.
    set (len := plen (str_bytes l)).
    assert (forall (P : Prop), (good_label (str_bytes l) -> plen p + 1 + len < 128 -> P) ->
      Forall good_label (str_bytes l :: map str_bytes ls) /\
      plen p + (1 + (len + plen (enc (map str_bytes ls)))) < 128 -> P) as Hno
      by (intros P HP [Hf ?]; inversion Hf; apply HP; [done|lia]).
    destruct ((len =? 0) || (64 <=? len)) eqn:Hrange; [|destruct (is_valid_domain_label (str_bytes l)) eqn:Hvalid;
      cbn [negb]; [destruct (Z.leb_spec 128 (plen p + 1 + len)) as [Hlong|Hlong]|]].
    + apply ends_val. refine (Hno False _). intros [[? ?] _] _. apply orb_true_iff in Hrange as [?|?]; bool_to_prop; lia.
    + apply ends_val. refine (Hno False _). intros _ ?. lia.
    + bool_to_prop. unfold len in *.
      assert (label_ok (str_bytes l)) as Hl by (unfold label_ok; pose proof (plen_nonneg (str_bytes l)); lia).
      destruct Hl as [Hl1 Hl2]. rewrite wrap_len by done.
      rewrite store_pad by (change (plen [plen (str_bytes l)]) with 1; lia). cbn [mem_bind].
      replace (plen p + 1) with (plen (p ++ [plen (str_bytes l)])%list) by (by rewrite plen_app).
      rewrite store_pad by (rewrite plen_app; change (plen [plen (str_bytes l)]) with 1; lia). cbn [mem_bind].
      rewrite <- plen_app.
      destruct (IH ((p ++ [plen (str_bytes l)]) ++ str_bytes l)%list) as (r & Hr & Hspec).
      { rewrite !plen_app. change (plen [plen (str_bytes l)]) with 1. lia. }
      exists r. split; [done|]. rewrite !plen_app in Hspec. change (plen [plen (str_bytes l)]) with 1 in Hspec.
      destruct r as [[n k]|e].
      * destruct Hspec as ((Hf & Hlen) & Hn & Hk). split_and!; [by constructor; [split|]|lia| |lia].
        rewrite Hn, <- !app_assoc. done.
      * intros [Hf ?]. inversion Hf; subst. apply Hspec. split; [done|lia].
    + apply ends_val. refine (Hno False _). intros [_ ?] _. congruence.
Qed.

Section Domains.
Context `{L : Lowercase}.

(** A domain is accepted exactly when its labels are valid and fit; nothing is
    read or written out of range. *)
Lemma domain_to_wire_format_ends (domain : string) :
  ends (domain_to_wire_format domain) (fun r =>
    match r with
    | Ok n => valid_labels (domain_labels domain) /\ n = wire (domain_labels domain)
    | Err _ => ~ valid_labels (domain_labels domain)
    end).
Proof.
  unfold domain_to_wire_format, valid_labels, domain_labels. cbv zeta.
  eapply ends_bind; [rewrite <- pad_nil; apply (write_labels_ends _ _ []); done|].
  change (plen []) with 0. intros [[n k]|e] Hr; [|by apply ends_val].
  destruct Hr as ((Hf & Hlen) & -> & ->). cbn [app]. rewrite Z.add_0_l in *.
  rewrite (proj2 (Z.ltb_lt _ 128)), store_terminator by done. by apply ends_val.
Qed.
End Domains.

Lemma map_str_bytes_inj (a b : list string) : map str_bytes a = map str_bytes b -> a = b.
Proof.
  revert b. induction a as [|x a IH]; intros [|y b]; try done. cbn [map]. intros [= Hx Hab].
  apply str_bytes_inj in Hx as ->. f_equal. by apply IH.
Qed.

Lemma bytes_str_bytes (s : string) : bytes_str (str_bytes s) = s.
Proof.
  induction s as [|c s IH]; [done|]. unfold bytes_str in *. simpl.
  by rewrite Nat2Z.id, ascii_nat_embedding, IH.
Qed.

Lemma join_split (c : ascii) (s : string) : join (String c "") (split c s) = s.
Proof.
  induction s as [|a s IH]; [done|]. cbn [split]. pose proof (split_nonempty c s) as Hne.
  destruct (Ascii.eqb_spec a c) as [->|].
  - destruct (split c s) as [|p ps] eqn:E; [done|]. change (join (String c "") ("" :: p :: ps))
      with ("" ++ String c (join (String c "") (p :: ps))). by rewrite IH.
  - destruct (split c s) as [|p [|q ps]] eqn:E; [done|..]; rewrite <- IH; done.
Qed.

Lemma alnum_utf8 (l : bytes) :
  forallb (fun b => is_ascii_alphanumeric b || (b =? 45)) l = true -> is_utf8 l = true.
Proof.
  induction l as [|b l IH]; [done|]. cbn [forallb]. intros [Hb Hl]%andb_true_iff. cbn [is_utf8].
  unfold is_ascii_alphanumeric in Hb.
  assert (b < 128) by (rewrite !orb_true_iff, !andb_true_iff, !Z.leb_le, Z.eqb_eq in Hb; lia).
  rewrite (proj2 (Z.ltb_lt b 128)) by done. by apply IH.
Qed.

Lemma good_label_utf8 (l : bytes) : good_label l -> is_utf8 l = true.
Proof. intros [_ H]. unfold is_valid_domain_label in H. apply andb_true_iff in H as [_ H]. by apply alnum_utf8. Qed.

(** What [read_labels] appends: each label after a dot, none before the first. *)
Fixpoint append_labels (domain : string) (ls : list bytes) : string :=
  match ls with
  | [] => domain
  | l :: ls => append_labels ((if is_empty domain then domain else domain ++ ".") ++ bytes_str l) ls
  end.

Lemma read_labels_wire (ls ds : list bytes) (fuel : nat) (domain : string) :
  valid_labels (ds ++ ls)%list -> (length ls < fuel)%nat ->
  read_labels fuel (wire (ds ++ ls)%list) domain (plen (enc ds)) = Some (Val (Some (append_labels domain ls))).
Proof.
  revert ds fuel domain. induction ls as [|l ls IH]; intros ds fuel domain Hv Hf;
    (destruct fuel as [|fuel]; [simpl in Hf; lia|]); cbn [read_labels append_labels];
    pose proof (valid_labels_wire_ok _ Hv) as Hok; destruct Hv as [Hg Hlen].
  - rewrite app_nil_r in *. rewrite (proj2 (Z.leb_gt 128 _)) by lia. by rewrite wire_byte_end.
  - assert (plen (enc (ds ++ l :: ls)%list) = plen (enc ds) + (1 + plen l) + plen (enc ls)) as Hplen
      by (rewrite enc_app, enc_cons, plen_app, plen_cons, plen_app; lia).
    pose proof (plen_nonneg (enc ls)). pose proof (plen_nonneg (enc ds)).
    pose proof Hg as Hg'. apply Forall_app in Hg' as [_ Hg']. inversion Hg' as [|? ? Hl Hg'']; subst.
    pose proof Hl as [[Hl1 Hl2] _].
    rewrite (proj2 (Z.leb_gt 128 (plen (enc ds)))), wire_byte by (done || lia).
    rewrite (proj2 (Z.eqb_neq (plen l) 0)), (proj2 (Z.leb_gt 64 _)), (proj2 (Z.ltb_ge 128 _)) by lia. cbn [orb].
    assert (load (wire (ds ++ l :: ls)%list) (plen (enc ds) + 1) (plen l) = Val l) as ->.
    { replace (plen (enc ds) + 1) with (plen (enc ds ++ [plen l])%list) by (by rewrite plen_app).
      assert (exists t, wire (ds ++ l :: ls)%list = ((enc ds ++ [plen l]) ++ l ++ t)%list) as [t ->].
      { unfold wire, pad. rewrite enc_app, enc_cons. eexists. rewrite <- !app_assoc. cbn [app].
        by rewrite <- app_assoc. }
      by apply load_app. }
    rewrite good_label_utf8 by done. cbn [negb].
    replace (plen (enc ds) + 1 + plen l) with (plen (enc (ds ++ [l])%list)) by (rewrite plen_enc_snoc; lia).
    replace (ds ++ l :: ls)%list with ((ds ++ [l]) ++ ls)%list in * by (by rewrite <- app_assoc).
    apply IH; [done|]. simpl in Hf. lia.
Qed.

Lemma append_labels_join (domain : string) (ps : list string) :
  domain <> "" -> append_labels domain (map str_bytes ps) = join "." (domain :: ps).
Proof.
  revert domain. induction ps as [|p ps IH]; intros domain Hd; [done|]. cbn [map append_labels].
  unfold is_empty. rewrite (proj2 (String.eqb_neq domain "")), bytes_str_bytes by done.
  assert ((domain ++ ".") ++ p <> "") as Hne by (by destruct domain).
  rewrite IH by done. rewrite <- string_app_assoc. destruct ps as [|q ps]; [done|].
  change (join "." (domain :: p :: q :: ps)) with (domain ++ "." ++ p ++ "." ++ join "." (q :: ps)).
  change (join "." ((domain ++ "." ++ p) :: q :: ps)) with ((domain ++ "." ++ p) ++ "." ++ join "." (q :: ps)).
  by rewrite !string_app_assoc.
Qed.

Section RoundTrip.
Context `{L : Lowercase}.

Lemma wire_to_domain (domain : string) :
  valid_labels (domain_labels domain) ->
  wire_format_to_domain (wire (domain_labels domain)) = Some (Val (Some (canonical_dns_domain domain))).
Proof.
  intros Hv. unfold wire_format_to_domain. pose proof Hv as [Hg Hlen].
  change 0 with (plen (enc [])).
  pose proof (valid_labels_wire_ok _ Hv) as [Hok _]. pose proof (label_count _ Hok).
  assert (length (domain_labels domain) < 65)%nat as Hf by lia.
  pose proof (read_labels_wire (domain_labels domain) [] 65 "" Hv Hf) as Hr. cbn [app] in Hr. rewrite Hr.
  unfold domain_labels in *. set (d := canonical_dns_domain domain) in *.
  pose proof (join_split "." d) as Hjoin. pose proof (split_nonempty "." d).
  destruct (split "." d) as [|p ps]; [done|].
  cbn [map append_labels]. inversion Hg as [|? ? [[Hp _] _]]; subst.
  assert (p <> "") as Hpne by (by intros ->).
  change (is_empty "") with true. cbv iota. rewrite append_nil, bytes_str_bytes, append_labels_join, Hjoin by done.
  destruct d as [|c d]; [|done]. exfalso. by destruct ps, p.
Qed.

(** ** The filter's operations *)

(** The outcome as a [Result]; [domain_to_wire_format_ends] excludes the panic. *)
Definition wire_of (domain : string) : result dns_error DnsName :=
  match domain_to_wire_format domain with Val r => r | Fault => Err DnsPanic end.

Lemma wire_of_ok (domain : string) (n : DnsName) :
  wire_of domain = Ok n <-> valid_labels (domain_labels domain) /\ n = wire (domain_labels domain).
Proof.
  unfold wire_of. destruct (domain_to_wire_format_ends domain) as (r & -> & Hr).
  destruct r as [n'|e]; [|split; [done|tauto]]. destruct Hr as [Hv ->]. split; [by intros [= <-]|by intros [_ ->]].
Qed.
End RoundTrip.

(** [list_domains]: what the set's names read back as. *)
Definition list_domains (blacklist : names) : list string :=
  omap (fun n => match wire_format_to_domain n with Some (Val r) => r | _ => None end) (elements blacklist).

(** ** The service *)

(** The set of the filter, the rows of [dns_blacklist] (its primary key is the
    domain) and the outcomes of the next database calls ([true]: it fails). *)
Record dns_world : Type := mk_dns {
  dns_set : gset (list Z);
  dns_rows : gset string;
  dns_faults : list bool;
}.

Abbreviation dns := (sm dns_world dns_error) (only parsing).

Definition with_set (f : gset (list Z) -> gset (list Z)) (w : dns_world) : dns_world :=
  mk_dns (f (dns_set w)) (dns_rows w) (dns_faults w).
Definition with_rows (f : gset string -> gset string) (w : dns_world) : dns_world :=
  mk_dns (dns_set w) (f (dns_rows w)) (dns_faults w).

(** A database call: one outcome is used up; a failed transaction writes nothing. *)
Definition db_call (f : gset string -> gset string) : dns unit := fun w =>
  let w' := mk_dns (dns_set w) (dns_rows w) (tl (dns_faults w)) in
  if default false (head (dns_faults w)) then (Err DnsDatabase, w') else (Ok tt, with_rows f w').

Section Service.
Context `{L : Lowercase}.

(** [DnsFilter::add_domain], [validate_domain], [remove_domain] *)
Definition add_domain (domain : string) : dns unit :=
  do! name := sm_lift (wire_of domain) in sm_modify (with_set (fun s => {[name]} ∪ s)).
Definition validate_domain (domain : string) : result dns_error unit :=
  let? _ := wire_of domain in Ok tt.
Definition remove_domain (domain : string) : dns unit :=
  do! name := sm_lift (wire_of domain) in sm_modify (with_set (fun s => s ∖ {[name]})).

(** [INSERT OR IGNORE] and [DELETE] of every domain, in one transaction. *)
Definition insert_dns_domains (domains : list string) : dns unit :=
  db_call (fun rows => rows ∪ list_to_set domains).
Definition delete_dns_domains (domains : list string) : dns unit :=
  db_call (fun rows => rows ∖ list_to_set domains).

(** [restore]: a failing [load_dns_domains] returns, a failing domain is logged. *)
Definition restore : dns unit := fun w =>
  match db_call id w with
  | (Err _, w) => (Ok tt, w)
  | (Ok _, w) =>
      sm_iter (fun domain => do! _ := sm_try (add_domain domain) in sm_ret tt) (elements (dns_rows w)) w
  end.

Definition ensure_request_within_limit (max_domains : Z) (domains : list string) : result dns_error unit :=
  if max_domains <? Z.of_nat (length domains) then Err (TooManyDnsDomains max_domains) else Ok tt.

Fixpoint normalize_from (seen : gset string) (normalized domains : list string) :
    result dns_error (list string) :=
  match domains with
  | [] => Ok normalized
  | domain :: domains =>
      let domain := canonical_dns_domain domain in
      let? _ := validate_domain domain in
      if bool_decide (domain ∈ seen) then normalize_from seen normalized domains
      else normalize_from ({[domain]} ∪ seen) (normalized ++ [domain])%list domains
  end.
Definition normalized_domains (domains : list string) : result dns_error (list string) :=
  normalize_from ∅ [] domains.

(** Errors of a rollback are logged. *)
Definition rollback_added (domains : list string) : dns unit :=
  sm_iter (fun domain => do! _ := sm_try (remove_domain domain) in sm_ret tt) domains.
Definition rollback_removed (domains : list string) : dns unit :=
  sm_iter (fun domain => do! _ := sm_try (add_domain domain) in sm_ret tt) domains.

(** The loop of [add_domains] and [remove_domains]: [op] on every domain,
    [undo] on those done when one fails. *)
Fixpoint apply_domains (op : string -> dns unit) (undo : list string -> dns unit)
    (applied domains : list string) : dns (list string) :=
  match domains with
  | [] => sm_ret applied
  | domain :: domains =>
      do! r := sm_try (op domain) in
      match r with
      | Err err => run! undo applied in sm_fail err
      | Ok _ => apply_domains op undo (applied ++ [domain])%list domains
      end
  end.

Definition add_domains (max_domains : Z) (domains : list string) : dns Z :=
  run! sm_lift (ensure_request_within_limit max_domains domains) in
  do! domains := sm_lift (normalized_domains domains) in
  do! applied := apply_domains add_domain rollback_added [] domains in
  do! r := sm_try (insert_dns_domains domains) in
  match r with
  | Err err => run! rollback_added applied in sm_fail err
  | Ok _ => sm_ret (Z.of_nat (length domains))
  end.

Definition remove_domains (max_domains : Z) (domains : list string) : dns Z :=
  run! sm_lift (ensure_request_within_limit max_domains domains) in
  do! domains := sm_lift (normalized_domains domains) in
  do! applied := apply_domains remove_domain rollback_removed [] domains in
  do! r := sm_try (delete_dns_domains domains) in
  match r with
  | Err err => run! rollback_removed applied in sm_fail err
  | Ok _ => sm_ret (Z.of_nat (length domains))
  end.

(** ** What the service does *)

Definition names_of (domains : list string) : gset (list Z) :=
  list_to_set (map (fun d => wire (domain_labels d)) domains).
#[local] Arguments names_of : simpl never.
Definition all_valid (domains : list string) : Prop :=
  Forall (fun d => valid_labels (domain_labels d)) domains.

Lemma wire_of_valid (d : string) : valid_labels (domain_labels d) -> wire_of d = Ok (wire (domain_labels d)).
Proof. intros H. by apply wire_of_ok. Qed.

Lemma names_of_cons (d : string) (ds : list string) : names_of (d :: ds) = {[wire (domain_labels d)]} ∪ names_of ds.
Proof. done. Qed.

Lemma rollback_added_run (ds : list string) (w : dns_world) :
  all_valid ds -> rollback_added ds w = (Ok tt, with_set (fun s => s ∖ names_of ds) w).
Proof.
  unfold rollback_added. intros Hv. revert w. induction Hv as [|d ds Hd Hds IH]; intros [s r f]; cbn [sm_iter].
  - unfold sm_ret, with_set. simpl. do 2 f_equal. set_solver.
  - unfold sm_bind, sm_try, remove_domain, sm_lift. rewrite wire_of_valid by done. cbn.
    rewrite IH. unfold with_set. simpl. do 2 f_equal. rewrite names_of_cons. set_solver.
Qed.

Lemma rollback_removed_run (ds : list string) (w : dns_world) :
  all_valid ds -> rollback_removed ds w = (Ok tt, with_set (fun s => s ∪ names_of ds) w).
Proof.
  unfold rollback_removed. intros Hv. revert w. induction Hv as [|d ds Hd Hds IH]; intros [s r f]; cbn [sm_iter].
  - unfold sm_ret, with_set. simpl. do 2 f_equal. set_solver.
  - unfold sm_bind, sm_try, add_domain, sm_lift. rewrite wire_of_valid by done. cbn.
    rewrite IH. unfold with_set. simpl. do 2 f_equal. rewrite names_of_cons. set_solver.
Qed.

Lemma add_all_run (ds applied : list string) (undo : list string -> dns unit) (w : dns_world) :
  all_valid ds ->
  apply_domains add_domain undo applied ds w
    = (Ok (applied ++ ds)%list, with_set (fun s => s ∪ names_of ds) w).
Proof.
  intros Hv. revert applied w. induction Hv as [|d ds Hd Hds IH]; intros applied [s r f]; cbn [apply_domains].
  - rewrite app_nil_r. unfold sm_ret, with_set. simpl. do 2 f_equal. set_solver.
  - unfold sm_bind, sm_try, add_domain, sm_lift. rewrite wire_of_valid by done. cbn.
    rewrite IH, <- app_assoc. unfold with_set. simpl. do 2 f_equal. rewrite names_of_cons. set_solver.
Qed.

Lemma remove_all_run (ds applied : list string) (undo : list string -> dns unit) (w : dns_world) :
  all_valid ds ->
  apply_domains remove_domain undo applied ds w
    = (Ok (applied ++ ds)%list, with_set (fun s => s ∖ names_of ds) w).
Proof.
  intros Hv. revert applied w. induction Hv as [|d ds Hd Hds IH]; intros applied [s r f]; cbn [apply_domains].
  - rewrite app_nil_r. unfold sm_ret, with_set. simpl. do 2 f_equal. set_solver.
  - unfold sm_bind, sm_try, remove_domain, sm_lift. rewrite wire_of_valid by done. cbn.
    rewrite IH, <- app_assoc. unfold with_set. simpl. do 2 f_equal. rewrite names_of_cons. set_solver.
Qed.

(** Normalising keeps the canonical domains, each once, and refuses an invalid one. *)
Lemma normalize_from_spec (domains normalized : list string) (seen : gset string) :
  seen = list_to_set normalized -> NoDup normalized -> all_valid normalized ->
  match normalize_from seen normalized domains with
  | Ok ds => NoDup ds /\ all_valid ds /\
      forall d, d ∈ ds <-> d ∈ normalized \/ d ∈ map canonical_dns_domain domains
  | Err _ => ~ all_valid (map canonical_dns_domain domains)
  end.
Proof.
  revert normalized seen. induction domains as [|d ds IH]; intros normalized seen -> Hnd Hv; cbn [normalize_from map].
  - split_and!; try done. intros d. set_solver.
  - unfold validate_domain, wire_of. set (c := canonical_dns_domain d).
    destruct (domain_to_wire_format_ends c) as ([n|e] & -> & Hr); cbn [res_bind].
    2: { intros Ha. inversion Ha; subst. by apply Hr. }
    destruct Hr as [Hc _]. case_bool_decide as Hin.
    + specialize (IH normalized _ eq_refl Hnd Hv). destruct (normalize_from _ _ _) as [ks|e].
      * destruct IH as (? & ? & Hks). split_and!; try done. intros k. rewrite Hks, elem_of_cons.
        split; [tauto|]. intros [?|[->|?]]; [tauto| |tauto]. left. set_solver.
      * intros Ha. inversion Ha; subst. by apply IH.
    + assert (({[c]} : gset string) ∪ list_to_set normalized = list_to_set (normalized ++ [c])%list) as Hseen by set_solver.
      assert (NoDup (normalized ++ [c])%list) as Hnd'.
      { apply NoDup_app. split_and!; [done| |apply NoDup_singleton]. set_solver. }
      assert (all_valid (normalized ++ [c])%list) as Hv' by (apply Forall_app; split; [done|by constructor]).
      specialize (IH _ _ Hseen Hnd' Hv'). destruct (normalize_from _ _ _) as [ks|e].
      * destruct IH as (? & ? & Hks). split_and!; try done. intros k. rewrite Hks. set_solver.
      * intros Ha. inversion Ha; subst. by apply IH.
Qed.
End Service.

(** ** Termination on every array *)

Lemma read_labels_ends (fuel : nat) (name : DnsName) (domain : string) (pos : Z) :
  bytes_ok name -> plen name = 128 -> 0 <= pos <= 128 -> 128 < pos + 2 * Z.of_nat fuel ->
  exists r, read_labels fuel name domain pos = Some (Val r).
Proof.
  intros Hok Hlen. revert domain pos. induction fuel as [|fuel IH]; intros domain pos Hp Hf; cbn [read_labels]; [lia|].
  - destruct (Z.leb_spec 128 pos); [by eexists|].
    destruct (load_u8_ends name pos Hok) as (ll & -> & Hll); [lia..|].
    destruct (Z.eqb_spec ll 0); [by eexists|].
    destruct ((64 <=? ll) || (128 <? pos + 1 + ll)) eqn:Hb; [by eexists|]. bool_to_prop. cbv zeta.
    destruct (load_ends name (pos + 1) ll Hok) as (part & -> & _); [lia..|].
    destruct (negb (is_utf8 part)); [by eexists|]. apply IH; lia.
Qed.

Lemma parents_blacklisted_ends (fuel : nat) (blacklist : names) (name : DnsName) (name_len offset : Z) :
  bytes_ok name -> plen name = 128 -> name_len <= 128 -> 0 <= offset <= 128 -> 128 < offset + 2 * Z.of_nat fuel ->
  exists r, parents_blacklisted fuel blacklist name name_len offset = Some (Val r).
Proof.
  intros Hok Hlen Hn. revert offset. induction fuel as [|fuel IH]; intros offset Hp Hf; cbn [parents_blacklisted];
    [lia|]; unfold DNS_NAME_CAPACITY.
  - destruct (Z.leb_spec name_len offset); [by eexists|]. destruct (Z.leb_spec 128 offset); [by eexists|]. cbn [orb].
    destruct (load_u8_ends name offset Hok) as (ll & -> & Hll); [lia..|].
    destruct (Z.eqb_spec ll 0); [by eexists|]. cbv zeta.
    destruct ((name_len <=? offset + (1 + ll)) || (128 <=? offset + (1 + ll))) eqn:Hb; [by eexists|]. bool_to_prop.
    destruct (load_u8_ends name (offset + (1 + ll)) Hok) as (b & -> & _); [lia..|].
    destruct (b =? 0); [by eexists|]. unfold parent_name, DNS_NAME_CAPACITY.
    destruct (load_ends name (offset + (1 + ll)) (Z.min (name_len - (offset + (1 + ll))) 128) Hok)
      as (part & -> & Hpart & Hplen); [lia..|]. cbn [mem_bind]. rewrite <- pad_nil.
    change (store (pad []) 0) with (store (pad []) (plen [])).
    rewrite store_pad by (change (plen []) with 0; lia).
    case_bool_decide; [by eexists|]. apply IH; lia.
Qed.

(** Both loops over a stored name come to an end without an index out of
    range, whatever 128 bytes the name holds: reading it back as a domain, and
    looking for a listed parent when the length is at most the array's. *)
Theorem name_loops_terminate (blacklist : names) (name : DnsName) (name_len : Z) :
  bytes_ok name -> length name = 128%nat -> name_len <= 128 ->
  (exists r, wire_format_to_domain name = Some (Val r)) /\
  (exists b, is_blacklisted blacklist name name_len = Some (Val b)).
Proof.
  intros Hok Hlen Hn. assert (plen name = 128) as Hp by (unfold plen; lia). split.
  - unfold wire_format_to_domain.
    destruct (read_labels_ends 65 name "" 0 Hok Hp) as (r & ->); [lia..|]. destruct r; by eexists.
  - unfold is_blacklisted. case_bool_decide; [by eexists|]. case_bool_decide; [by eexists|].
    apply parents_blacklisted_ends; done || lia.
Qed.

Lemma name_loops_terminate_witness :
  (exists r, wire_format_to_domain (replicate 128 1) = Some (Val r)) /\
  (exists b, is_blacklisted {[zeroed]} (replicate 128 1) 128 = Some (Val b)).
Proof.
  apply (name_loops_terminate {[zeroed]} (replicate 128 1) 128);
    [apply Forall_replicate; unfold byte_ok; lia|done|lia].
Defined.

(** ** What the filter blocks *)

Section Filter.
Context `{L : Lowercase}.

(** The set holds the names of the domains [D]. *)
Definition lists (blacklist : names) (D : list string) : Prop :=
  forall n, n ∈ blacklist <-> exists d, d ∈ D /\ wire_of d = Ok n.

Lemma domain_labels_nonempty (d : string) : domain_labels d <> [].
Proof.
  unfold domain_labels. pose proof (split_nonempty "." (canonical_dns_domain d)).
  by destruct (split "." (canonical_dns_domain d)).
Qed.

Lemma listed_suffix (blacklist : names) (D : list string) (ls : list bytes) :
  lists blacklist D -> wire_ok ls ->
  bool_decide (wire ls ∈ blacklist) || parent_listed blacklist ls = true <->
  exists d, d ∈ D /\ valid_labels (domain_labels d) /\ domain_labels d `suffix_of` ls.
Proof.
  intros HD Hok. rewrite parent_listed_spec. split.
  - intros (ds & ks & -> & _ & Hin). apply HD in Hin as (d & Hd & Hw). apply wire_of_ok in Hw as [Hv Hw].
    exists d. split_and!; [done..|]. exists ds. f_equal.
    apply wire_inj; [by apply (wire_ok_suffix ds)|by apply valid_labels_wire_ok|done].
  - intros (d & Hd & Hv & ds & ->). exists ds, (domain_labels d). split_and!; [done| |].
    + intros Hn. by destruct (domain_labels_nonempty d).
    + apply HD. exists d. split; [done|]. by apply wire_of_ok.
Qed.

Lemma enc_prefix_unique (pre1 pre2 : bytes) (ls ks : list bytes) (s t : bytes) :
  (pre1 ++ enc ls ++ 0 :: s = pre2 ++ enc ks ++ 0 :: t)%list -> plen pre1 = plen pre2 ->
  Forall label_ok ls -> Forall label_ok ks -> ls = ks.
Proof.
  intros Heq Hlen Hls Hks. unfold plen in Hlen. apply Nat2Z.inj in Hlen.
  apply app_inj_1 in Heq as [_ Heq]; [|done]. by eapply enc_terminated_inj.
Qed.

Lemma question_unique (raw : bytes) (ls ks : list bytes) : question raw ls -> question raw ks -> ls = ks.
Proof.
  intros (pre & s & e & H1 & H2 & H3 & _) (pre' & s' & e' & H1' & H2' & H3' & _).
  rewrite H3 in H3'. injection H3' as Hp _. rewrite H1 in H1'. by eapply enc_prefix_unique.
Qed.

(** C18: The verdict on a frame: no byte outside the frame or the name is
    touched, and the frame is reported exactly when it is a DNS query whose
    question, in lower case, ends in the labels of a listed domain (the domain
    itself or any subdomain of it) and has fewer than 32 labels and 128 bytes. *)
Theorem query_blacklisted_iff (blacklist : names) (D : list string) (raw : bytes) :
  bytes_ok raw -> lists blacklist D ->
  exists b, is_query_blacklisted blacklist raw = Some (Val b) /\
    (b = true <-> exists ls d, question raw ls /\ (length ls < 32)%nat /\ plen (enc ls) < 128 /\
       d ∈ D /\ valid_labels (domain_labels d) /\ domain_labels d `suffix_of` map lower_label ls).
Proof.
  intros Hok HD. unfold is_query_blacklisted. destruct (parse_query_name_ends raw Hok) as (r & Hr & Hspec).
  rewrite Hr. destruct r as [[n k]|].
  - destruct (Hspec n k eq_refl) as (ls & Hq & Hlen & Hp & -> & ->). clear Hspec.
    assert (wire_ok (map lower_label ls)) as Hw.
    { apply wire_ok_lower. split; [|done]. by destruct Hq as (? & ? & ? & ? & ? & _). }
    rewrite <- plen_enc_lower, is_blacklisted_wire by done. eexists. split; [done|].
    rewrite (listed_suffix _ D) by done. split.
    + intros (d & ? & ? & ?). by exists ls, d.
    + intros (ks & d & Hq' & _ & _ & ? & ? & ?). exists d. by rewrite (question_unique _ _ _ Hq Hq').
  - exists false. split; [done|]. split; [done|]. intros (ls & d & Hq & Hlen & Hp & _).
    by rewrite (parse_query_name_complete raw ls) in Hr.
Qed.

(** A question with more labels or bytes passes, whatever is listed. *)
Lemma long_question_passes (blacklist : names) (raw : bytes) (ls : list bytes) :
  bytes_ok raw -> question raw ls -> (32 <= length ls)%nat \/ 128 <= plen (enc ls) ->
  is_query_blacklisted blacklist raw = Some (Val false).
Proof.
  intros Hok Hq Hlong. unfold is_query_blacklisted. destruct (parse_query_name_ends raw Hok) as (r & Hr & Hspec).
  rewrite Hr. destruct r as [[n k]|]; [|done].
  destruct (Hspec n k eq_refl) as (ks & Hq' & Hlen & Hp & _). rewrite (question_unique _ _ _ Hq Hq') in Hlong. lia.
Qed.

(** C19: A domain that is accepted reads back from its wire name as its canonical
    form, and two accepted domains share a wire name exactly when their
    canonical forms agree. *)
Theorem domain_round_trip (d : string) (n : DnsName) :
  wire_of d = Ok n ->
  wire_format_to_domain n = Some (Val (Some (canonical_dns_domain d))) /\
  forall d', wire_of d' = Ok n <-> canonical_dns_domain d' = canonical_dns_domain d.
Proof.
  intros [Hv ->]%wire_of_ok. split; [by apply wire_to_domain|]. intros d'. rewrite wire_of_ok.
  unfold domain_labels in *. split; [|by intros ->]. intros [Hv' Hw].
  apply wire_inj in Hw; [|by apply valid_labels_wire_ok..].
  apply map_str_bytes_inj in Hw.
  by rewrite <- (join_split "." (canonical_dns_domain d')), <- Hw, join_split.
Qed.
End Filter.

(** ** Runs *)

(** An IPv4 query: Ethernet, IP and UDP headers, DNS header, question name. *)
Definition query_frame (qname : bytes) : bytes :=
  (replicate 12 0 ++ [8; 0] ++
   [69; 0; 0; plen qname + 41; 0; 0; 0; 0; 64; 17; 0; 0; 10; 0; 0; 1; 8; 8; 8; 8] ++
   [4; 210; 0; 53; 0; plen qname + 21; 0; 0] ++
   [0; 1; 1; 0; 0; 1; 0; 0; 0; 0; 0; 0] ++ qname ++ [0])%list.

Definition sample_query : bytes := query_frame (enc (map str_bytes ["www"; "Evil"; "com"])).
Definition sample_list : gset (list Z) := {[wire (map str_bytes ["evil"; "com"])]}.

Lemma sample_list_lists : lists sample_list ["evil.com"].
Proof.
  intros n. unfold sample_list. rewrite elem_of_singleton. split.
  - intros ->. exists "evil.com". split; [by constructor|]. by vm_compute.
  - intros (d & Hd & Hw). apply list_elem_of_singleton in Hd as ->. vm_compute in Hw. by injection Hw as <-.
Qed.

Lemma query_blacklisted_iff_witness :
  is_query_blacklisted sample_list sample_query = Some (Val true) /\
  exists b, is_query_blacklisted sample_list sample_query = Some (Val b) /\
    (b = true <-> exists ls d, question sample_query ls /\ (length ls < 32)%nat /\ plen (enc ls) < 128 /\
       d ∈ ["evil.com"] /\ valid_labels (domain_labels d) /\ domain_labels d `suffix_of` map lower_label ls).
Proof.
  split; [by vm_compute|]. apply (query_blacklisted_iff sample_list ["evil.com"] sample_query).
  - apply (bool_decide_unpack _). by vm_compute.
  - apply sample_list_lists.
Defined.

Lemma domain_round_trip_witness :
  wire_format_to_domain (wire (map str_bytes ["evil"; "com"])) = Some (Val (Some "evil.com")) /\
  (wire_of "evil.com" = Ok (wire (map str_bytes ["evil"; "com"])) <->
   canonical_dns_domain "evil.com" = canonical_dns_domain " EVIL.com.. ").
Proof.
  pose proof (domain_round_trip (L := ascii_lowercase) " EVIL.com.. " (wire (map str_bytes ["evil"; "com"]))
    ltac:(vm_compute; reflexivity)) as [H1 H2].
  split; [exact H1|apply H2].
Defined.

(** A subdomain of a listed domain with 32 labels gets through. *)
Lemma deep_subdomain_passes :
  let deep := query_frame (enc (replicate 30 (str_bytes "a") ++ map str_bytes ["evil"; "com"])%list) in
  is_query_blacklisted sample_list deep = Some (Val false) /\
  is_query_blacklisted sample_list
    (query_frame (enc (replicate 29 (str_bytes "a") ++ map str_bytes ["evil"; "com"])%list)) = Some (Val true).
Proof. vm_compute. done. Qed.

(** ** The service's results *)

Section Results.
Context `{L : Lowercase}.

(** Rows and set agree: a name is filtered when a stored row has that name. *)
Definition synced (w : dns_world) : Prop :=
  forall n, n ∈ dns_set w <-> exists d, d ∈ dns_rows w /\ wire_of d = Ok n.

Definition canonicals (domains : list string) : gset string := list_to_set (map canonical_dns_domain domains).
Definition canonical_names (domains : list string) : gset (list Z) := names_of (map canonical_dns_domain domains).

Lemma names_of_spec (ds : list string) (n : list Z) :
  n ∈ names_of ds <-> exists d, d ∈ ds /\ n = wire (domain_labels d).
Proof.
  unfold names_of. rewrite elem_of_list_to_set. split.
  - intros H. apply list_elem_of_In, in_map_iff in H as (d & <- & Hd). exists d. by rewrite list_elem_of_In.
  - intros (d & Hd & ->). apply list_elem_of_In, in_map_iff. exists d. by rewrite <- list_elem_of_In.
Qed.

Lemma normalized_domains_spec (domains : list string) :
  match normalized_domains domains with
  | Ok ds => all_valid (map canonical_dns_domain domains) /\ all_valid ds /\
      (list_to_set ds : gset string) = canonicals domains /\ names_of ds = canonical_names domains /\
      Z.of_nat (length ds) = Z.of_nat (size (canonicals domains))
  | Err _ => ~ all_valid (map canonical_dns_domain domains)
  end.
Proof.
  pose proof (normalize_from_spec domains [] ∅ eq_refl (NoDup_nil_2) (Forall_nil_2 _)) as H.
  unfold normalized_domains. destruct (normalize_from ∅ [] domains) as [ds|e]; [|done].
  destruct H as (Hnd & Hv & Hds).
  assert ((list_to_set ds : gset string) = canonicals domains) as Hset.
  { apply set_eq. intros d. unfold canonicals. rewrite !elem_of_list_to_set, Hds. set_solver. }
  split_and!; try done.
  - apply Forall_forall. intros d Hd. unfold all_valid in Hv. rewrite Forall_forall in Hv. apply Hv, Hds. by right.
  - apply set_eq. intros n. unfold canonical_names. rewrite !names_of_spec. split; intros (d & Hd & ->); exists d; split; try done.
    + apply Hds in Hd as [Hd|Hd]; [set_solver|done].
    + apply Hds. by right.
  - rewrite <- Hset. by rewrite size_list_to_set.
Qed.

(** The part [add_domains] and [remove_domains] share: the checks of a request. *)
Lemma checked_request {A} (max_domains : Z) (domains : list string) (k : list string -> dns A) (w : dns_world) :
  let m := run! sm_lift (ensure_request_within_limit max_domains domains) in
           do! domains := sm_lift (normalized_domains domains) in k domains in
  (exists e, m w = (Err e, w) /\
     (e = TooManyDnsDomains max_domains \/ ~ all_valid (map canonical_dns_domain domains))) \/
  (Z.of_nat (length domains) <= max_domains /\ all_valid (map canonical_dns_domain domains) /\
   exists ds, all_valid ds /\ (list_to_set ds : gset string) = canonicals domains /\
     names_of ds = canonical_names domains /\ Z.of_nat (length ds) = Z.of_nat (size (canonicals domains)) /\
     m w = k ds w).
Proof.
  unfold sm_bind, sm_lift, ensure_request_within_limit.
  destruct (Z.ltb_spec max_domains (Z.of_nat (length domains))); [left; eexists; split; [done|by left]|].
  pose proof (normalized_domains_spec domains) as Hn. destruct (normalized_domains domains) as [ds|e].
  - destruct Hn as (? & ? & ? & ? & ?). right. split_and!; [done..|]. by exists ds.
  - left. exists e. split; [done|by right].
Qed.

Ltac check_request max_domains domains w :=
  match goal with
  | |- context [sm_bind (sm_lift _) (fun _ => sm_bind (sm_lift _) ?k) w] =>
      destruct (checked_request max_domains domains k w)
        as [(?e & -> & ?He)|(?Hlen & ?Hv & ?ds & ?Hds & ?Hset & ?Hnames & ?Hk & ->)];
      [split; [done|by left]|]
  end.

Lemma add_domains_run (max_domains : Z) (domains : list string) (w : dns_world) :
  match add_domains max_domains domains w with
  | (Ok k, w') =>
      Z.of_nat (length domains) <= max_domains /\ all_valid (map canonical_dns_domain domains) /\
      k = Z.of_nat (size (canonicals domains)) /\
      dns_rows w' = dns_rows w ∪ canonicals domains /\ dns_set w' = dns_set w ∪ canonical_names domains
  | (Err e, w') =>
      dns_rows w' = dns_rows w /\
      ((w' = w /\ (e = TooManyDnsDomains max_domains \/ ~ all_valid (map canonical_dns_domain domains))) \/
       (e = DnsDatabase /\ dns_set w' = dns_set w ∖ canonical_names domains))
  end.
Proof.
  unfold add_domains.
  check_request max_domains domains w.
  unfold sm_bind at 1. rewrite add_all_run by done. cbn [app].
  unfold sm_bind, sm_try, insert_dns_domains, db_call. destruct w as [s r f]. cbn [with_set dns_faults dns_set dns_rows].
  destruct (default false (head f)).
  - rewrite rollback_added_run by done. cbn. split; [done|]. right. split; [done|]. rewrite Hnames. set_solver.
  - unfold sm_ret. cbn. rewrite Hset, Hnames. done.
Qed.

(** Removing mirrors adding. *)
Lemma remove_domains_outcome (max_domains : Z) (domains : list string) (w : dns_world) :
  match remove_domains max_domains domains w with
  | (Ok k, w') =>
      Z.of_nat (length domains) <= max_domains /\ all_valid (map canonical_dns_domain domains) /\
      k = Z.of_nat (size (canonicals domains)) /\
      dns_rows w' = dns_rows w ∖ canonicals domains /\ dns_set w' = dns_set w ∖ canonical_names domains
  | (Err e, w') =>
      dns_rows w' = dns_rows w /\
      ((w' = w /\ (e = TooManyDnsDomains max_domains \/ ~ all_valid (map canonical_dns_domain domains))) \/
       (e = DnsDatabase /\ dns_set w' = dns_set w ∪ canonical_names domains))
  end.
Proof.
  unfold remove_domains.
  check_request max_domains domains w.
  unfold sm_bind at 1. rewrite remove_all_run by done. cbn [app].
  unfold sm_bind, sm_try, delete_dns_domains, db_call. destruct w as [s r f]. cbn [with_set dns_faults dns_set dns_rows].
  destruct (default false (head f)).
  - rewrite rollback_removed_run by done. cbn. split; [done|]. right. split; [done|]. rewrite Hnames.
    apply set_eq. intros n. destruct (decide (n ∈ canonical_names domains)); set_solver.
  - unfold sm_ret. cbn. rewrite Hset, Hnames. done.
Qed.

(** Adding keeps rows and set in agreement, unless a failing request named a
    domain that was there ([failed_add_unblocks]). *)
Lemma add_domains_synced (max_domains : Z) (domains : list string) (w : dns_world) :
  synced w -> dns_set w ## canonical_names domains \/ is_ok (add_domains max_domains domains w).1 = true ->
  synced (add_domains max_domains domains w).2.
Proof.
  intros Hs Hc. pose proof (add_domains_run max_domains domains w) as H.
  destruct (add_domains max_domains domains w) as [[k|e] w'].
  - destruct H as (_ & Hv & _ & Hr & Hset). intros n. cbn [snd]. rewrite Hr, Hset, elem_of_union, (Hs n).
    unfold canonical_names, canonicals. rewrite names_of_spec. setoid_rewrite elem_of_union.
    setoid_rewrite elem_of_list_to_set. split.
    + intros [(d & ? & ?)|(d & Hd & ->)]; exists d; [tauto|]. split; [tauto|]. apply wire_of_valid.
      unfold all_valid in Hv. rewrite Forall_forall in Hv. by apply Hv.
    + intros (d & [Hd|Hd] & Hw); [left; by exists d|right]. exists d. split; [done|]. by apply wire_of_ok in Hw as [_ ->].
  - destruct Hc as [Hc|Hc]; [|done]. destruct H as (Hr & [[-> _]|[_ Hset]]); [done|].
    intros n. cbn [snd]. rewrite Hr, Hset, <- (Hs n). set_solver.
Qed.

(** Adding domains: a request within the limit whose domains are all valid
    and whose transaction succeeds stores the canonical forms and filters their
    names, and returns how many distinct ones there were; an invalid request
    changes nothing; a failed transaction leaves the rows alone and takes the
    request's names out of the set, so a request of new domains has no effect. *)
Theorem add_domains_outcome (max_domains : Z) (domains : list string) (w : dns_world) :
  match add_domains max_domains domains w with
  | (Ok k, w') =>
      Z.of_nat (length domains) <= max_domains /\ all_valid (map canonical_dns_domain domains) /\
      k = Z.of_nat (size (canonicals domains)) /\
      dns_rows w' = dns_rows w ∪ canonicals domains /\ dns_set w' = dns_set w ∪ canonical_names domains
  | (Err e, w') =>
      dns_rows w' = dns_rows w /\
      ((w' = w /\ (e = TooManyDnsDomains max_domains \/ ~ all_valid (map canonical_dns_domain domains))) \/
       (e = DnsDatabase /\ dns_set w' = dns_set w ∖ canonical_names domains))
  end.
Proof. apply add_domains_run. Qed.

Lemma exists_cons {A} (P : A -> Prop) (x : A) (l : list A) :
  (exists y, y ∈ x :: l /\ P y) <-> P x \/ exists y, y ∈ l /\ P y.
Proof.
  setoid_rewrite elem_of_cons. split; [intros (y & [->|?] & ?); eauto|intros [?|(y & ? & ?)]; eauto].
Qed.

Lemma restore_iter (ds : list string) (w : dns_world) :
  let r := sm_iter (E := dns_error) (fun domain => do! _ := sm_try (add_domain domain) in sm_ret tt) ds w in
  dns_rows r.2 = dns_rows w /\
  forall n, n ∈ dns_set r.2 <-> n ∈ dns_set w \/ exists d, d ∈ ds /\ wire_of d = Ok n.
Proof.
  revert w. induction ds as [|d ds IH]; intros w; cbn [sm_iter].
  - cbn. split; [done|]. set_solver.
  - unfold sm_bind, sm_try, add_domain at 1 3, sm_bind, sm_lift. destruct (wire_of d) as [n|e] eqn:Hd; cbn.
    + destruct (IH (with_set (fun s => {[n]} ∪ s) w)) as [Hr Hs]. split; [exact Hr|].
      intros k. etransitivity; [apply Hs|]. cbn. rewrite elem_of_union, elem_of_singleton, exists_cons, Hd.
      assert (Ok (E := dns_error) n = Ok k <-> k = n) as -> by (split; congruence). tauto.
    + destruct (IH w) as [Hr Hs]. split; [exact Hr|]. intros k. etransitivity; [apply Hs|]. rewrite exists_cons, Hd.
      assert (Err e = Ok k <-> False) as -> by done. tauto.
Qed.

(** A restart with a readable database filters exactly what is stored. *)
Lemma restore_synced (w : dns_world) :
  dns_set w = ∅ -> default false (head (dns_faults w)) = false ->
  synced (restore w).2 /\ dns_rows (restore w).2 = dns_rows w.
Proof.
  destruct w as [s r f]. cbn [dns_set dns_faults dns_rows]. intros -> Hf. unfold restore, db_call.
  cbn [dns_faults dns_set dns_rows]. rewrite Hf.
  match goal with
  | |- context [sm_iter ?f ?l ?w] =>
      assert (dns_rows (sm_iter f l w).2 = dns_rows w /\
        forall n, n ∈ dns_set (sm_iter f l w).2 <-> n ∈ dns_set w \/ exists d, d ∈ l /\ wire_of d = Ok n) as [Hr Hs]
        by apply restore_iter; destruct (sm_iter f l w) as [res w']
  end.
  cbn in Hr, Hs |- *. split; [|done]. intros n. rewrite Hs, Hr. setoid_rewrite elem_of_elements. set_solver.
Qed.
End Results.

(** A failing request to add a listed domain takes it out of the filter: the row
    stays, the name is gone until a restart. *)
Lemma failed_add_unblocks :
  let w := mk_dns sample_list {["evil.com"]} [true] in
  let r := add_domains 10 ["evil.com"] w in
  synced w /\ r.1 = Err DnsDatabase /\ dns_rows r.2 = {["evil.com"]} /\ dns_set r.2 = ∅ /\
  is_query_blacklisted (dns_set r.2) sample_query = Some (Val false).
Proof.
  split; [|by vm_compute]. intros n. cbn [dns_set dns_rows]. rewrite (sample_list_lists n). set_solver.
Qed.

(** A domain stored under a form that is not canonical survives its removal. *)
Lemma removed_domain_returns :
  let w0 := mk_dns ∅ ∅ [] in
  let w1 := (add_domains 10 ["evil.com. ."] w0).2 in
  let w2 := (remove_domains 10 ["evil.com"] w1).2 in
  let w3 := (restore (mk_dns ∅ (dns_rows w2) [])).2 in
  dns_set w1 = sample_list /\ dns_set w2 = ∅ /\ dns_rows w2 = {["evil.com. "]} /\ dns_set w3 = sample_list.
Proof. vm_compute. done. Qed.
