(* ===== verification/Correlation.v ===== *)
(** * The correlation engine

    Three detectors count distinct peers over windows of flow observations:
    sources per destination port (botnet), ports per source (scan), internal
    destinations per internal source (lateral movement).  [TimedSet] is the
    state they share per key, [capped_cleanup] bounds their maps
    (core/correlation/botnet.rs, scan.rs, lateral.rs, correlation_cleanup.rs,
    engine.rs).  Instants are nanoseconds. *)

From Stdlib Require Import ZArith Lia List String.
From Corelib Require Import SpecFloat.
From stdpp Require Import base list gmap sets strings.
From S2P Require Import Prelude RStr Float IpAddr Event.

Local Open Scope string_scope.
Local Open Scope Z_scope.

Record FlowObservation : Type := mk_flow {
  src_ip : string; dst_ip : string; dst_port : Z; protocol : Z;
  packet_count : Z; flow_duration_us : Z }.

(** [Instant::duration_since]: zero for a later instant. *)
Definition duration_since (now earlier : Z) : Z := Z.max 0 (now - earlier).
Definition from_secs (s : Z) : Z := s * 1000000000.

Record CorrelationDetectorParams : Type := mk_params { window_secs : Z; threshold : Z }.

(** [CorrelationDetectorParams::validate] accepts. *)
Definition validate_params (p : CorrelationDetectorParams) : bool :=
  (0 <? window_secs p) && (0 <? threshold p).

(** ** Timed sets *)

(** [TimedSourceSet], [TimedPortSet], [TimedDestSet]: the distinct items of the
    running window and the last alert. *)
Record TimedSet (I : Type) `{Countable I} : Type := mk_timed {
  items : gset I; window_start : Z; last_alerted : option Z }.
Arguments mk_timed {I _ _} items window_start last_alerted.
Arguments items {I _ _}.
Arguments window_start {I _ _}.
Arguments last_alerted {I _ _}.

Section Timed.
Context {K I : Type} `{Countable K} `{Countable I}.

(** [or_insert_with] *)
Definition fresh_set (now : Z) : TimedSet I := mk_timed ∅ now None.

(** The block that decides on an alert: the number of items, if one is due. *)
Definition observe (window threshold now : Z) (x : I) (set : TimedSet I) : option Z * TimedSet I :=
  let set :=
    if window <=? duration_since now (window_start set) then mk_timed ∅ now (last_alerted set) else set in
  let set := mk_timed ({[x]} ∪ items set) (window_start set) (last_alerted set) in
  if threshold <=? Z.of_nat (size (items set)) then
    match last_alerted set with
    | Some last =>
        if duration_since now last <? window then (None, mk_timed ∅ now (last_alerted set))
        else (Some (Z.of_nat (size (items set))), set)
    | None => (Some (Z.of_nat (size (items set))), set)
    end
  else (None, set).

(** After an alert: cleared, and the instant is kept. *)
Definition alerted (now : Z) (_ : TimedSet I) : TimedSet I := mk_timed ∅ now (Some now).

(** [process] on the map of sets: the number of items of an alert. *)
Definition process_key (window threshold now : Z) (k : K) (x : I) (state : gmap K (TimedSet I)) :
    option Z * gmap K (TimedSet I) :=
  let '(should_alert, set) := observe window threshold now x (default (fresh_set now) (state !! k)) in
  let state := <[k := set]> state in
  match should_alert with
  | Some n => (Some n, alter (alerted now) k state)
  | None => (None, state)
  end.
End Timed.

(** [capped_cleanup]: stale entries go, then as many more as exceed the cap, in
    the order in which the map happens to iterate. *)
Definition capped_cleanup {K V : Type} `{Countable K} (order : gmap K V -> list K)
    (state : gmap K V) (window max_tracked now : Z) (start : V -> Z) : Z * gmap K V :=
  let before := Z.of_nat (size state) in
  let state := filter (fun kv => duration_since now (start kv.2) < window) state in
  let state :=
    if max_tracked <? Z.of_nat (size state) then
      let excess := Z.of_nat (size state) - max_tracked in
      let keys_to_remove := take (Z.to_nat excess) (order state) in
      foldr delete state keys_to_remove
    else state in
  (saturating_sub before (Z.of_nat (size state)), state).

(** The iteration order of a [DashMap]: every key once. *)
Definition key_order {K V : Type} `{Countable K} (order : gmap K V -> list K) : Prop :=
  forall m, order m ≡ₚ map fst (map_to_list m).

(** ** The detectors *)

Definition f32_const (n : Z) (d : positive) : float := f32_of_ratio n d.

Definition correlation_event (attack : CanonicalAttackType) (confidence : float)
    (source_ip dest_ip : string) (alert : FlowObservation) : DetectionEvent :=
  mk_detection Event.Correlation (attack_str attack) confidence source_ip dest_ip (protocol alert)
    (packet_count alert) (flow_duration_us alert) (S754_zero false) (S754_zero false) (S754_zero false).

Module Botnet.

(** [BotnetKey]: destination address, protocol, destination port. *)
Definition BotnetKey : Type := string * Z * Z.
Definition botnet_key (alert : FlowObservation) : BotnetKey := (dst_ip alert, protocol alert, dst_port alert).

Record BotnetDetector : Type := mk_botnet {
  state : gmap BotnetKey (TimedSet string); window : Z; threshold_ : Z; max_tracked : Z }.

Definition new (params : CorrelationDetectorParams) (max_tracked : Z) : BotnetDetector :=
  mk_botnet ∅ (from_secs (window_secs params)) (threshold params) max_tracked.

Definition process (d : BotnetDetector) (now : Z) (alert : FlowObservation) :
    option DetectionEvent * BotnetDetector :=
  let '(should_alert, st) :=
    process_key (window d) (threshold_ d) now (botnet_key alert) (src_ip alert) (state d) in
  let d := mk_botnet st (window d) (threshold_ d) (max_tracked d) in
  match should_alert with
  | Some _ => (Some (correlation_event BotActivity (f32_const 85 100) (src_ip alert) (dst_ip alert) alert), d)
  | None => (None, d)
  end.

Definition cleanup (order : gmap BotnetKey (TimedSet string) -> list BotnetKey)
    (d : BotnetDetector) (now : Z) : Z * BotnetDetector :=
  let '(n, st) := capped_cleanup order (state d) (window d) (max_tracked d) now window_start in
  (n, mk_botnet st (window d) (threshold_ d) (max_tracked d)).
End Botnet.

Module Scan.

(** The set's [last_dst_ip] is written before every read, with the address of
    the observation at hand, so it is that address. *)
Record ScanDetector : Type := mk_scan {
  state : gmap string (TimedSet Z); window : Z; threshold_ : Z; max_tracked : Z }.

Definition new (params : CorrelationDetectorParams) (max_tracked : Z) : ScanDetector :=
  mk_scan ∅ (from_secs (window_secs params)) (threshold params) max_tracked.

Definition process (d : ScanDetector) (now : Z) (alert : FlowObservation) :
    option DetectionEvent * ScanDetector :=
  let '(should_alert, st) :=
    process_key (window d) (threshold_ d) now (src_ip alert) (dst_port alert) (state d) in
  let d := mk_scan st (window d) (threshold_ d) (max_tracked d) in
  match should_alert with
  | Some _ => (Some (correlation_event PortScan (f32_const 80 100) (src_ip alert) (dst_ip alert) alert), d)
  | None => (None, d)
  end.

Definition cleanup (order : gmap string (TimedSet Z) -> list string)
    (d : ScanDetector) (now : Z) : Z * ScanDetector :=
  let '(n, st) := capped_cleanup order (state d) (window d) (max_tracked d) now window_start in
  (n, mk_scan st (window d) (threshold_ d) (max_tracked d)).
End Scan.

Module Lateral.

Record LateralMovementDetector : Type := mk_lateral {
  state : gmap string (TimedSet string); window : Z; threshold_ : Z; max_tracked : Z }.

Definition new (params : CorrelationDetectorParams) (max_tracked : Z) : LateralMovementDetector :=
  mk_lateral ∅ (from_secs (window_secs params)) (threshold params) max_tracked.

Definition process (d : LateralMovementDetector) (now : Z) (alert : FlowObservation) :
    option DetectionEvent * LateralMovementDetector :=
  if negb (is_internal_ip (src_ip alert)) || negb (is_internal_ip (dst_ip alert)) then (None, d)
  else
    let '(should_alert, st) :=
      process_key (window d) (threshold_ d) now (src_ip alert) (dst_ip alert) (state d) in
    let d := mk_lateral st (window d) (threshold_ d) (max_tracked d) in
    match should_alert with
    | Some _ =>
        (Some (correlation_event LateralMovement (f32_const 75 100) (src_ip alert) (dst_ip alert) alert), d)
    | None => (None, d)
    end.

Definition cleanup (order : gmap string (TimedSet string) -> list string)
    (d : LateralMovementDetector) (now : Z) : Z * LateralMovementDetector :=
  let '(n, st) := capped_cleanup order (state d) (window d) (max_tracked d) now window_start in
  (n, mk_lateral st (window d) (threshold_ d) (max_tracked d)).
End Lateral.

(** ** The engine *)

Record CorrelationConfig : Type := mk_correlation_config {
  cc_scan : CorrelationDetectorParams; cc_lateral : CorrelationDetectorParams;
  cc_botnet : CorrelationDetectorParams; max_tracked_entries : Z }.

(** [CorrelationConfig::validate] accepts. *)
Definition validate_config (c : CorrelationConfig) : bool :=
  (0 <? max_tracked_entries c) && validate_params (cc_scan c) && validate_params (cc_lateral c)
  && validate_params (cc_botnet c).

Record CorrelationEngine : Type := mk_engine {
  botnet : Botnet.BotnetDetector; scan : Scan.ScanDetector; lateral : Lateral.LateralMovementDetector;
  detection_tx : DetectionSender }.

Definition new_engine (correlation : CorrelationConfig) (detection_tx : DetectionSender) : CorrelationEngine :=
  let max_tracked := max_tracked_entries correlation in
  mk_engine (Botnet.new (cc_botnet correlation) max_tracked) (Scan.new (cc_scan correlation) max_tracked)
    (Lateral.new (cc_lateral correlation) max_tracked) detection_tx.

Definition send (tx : DetectionSender) (event : option DetectionEvent) : DetectionSender :=
  match event with Some e => (send_detection_or_log tx e).2 | None => tx end.

(** Each detector reads the clock for itself. *)
Definition process_alert (e : CorrelationEngine) (now_botnet now_scan now_lateral : Z)
    (alert : FlowObservation) : CorrelationEngine :=
  let '(ev, b) := Botnet.process (botnet e) now_botnet alert in
  let tx := send (detection_tx e) ev in
  let '(ev, s) := Scan.process (scan e) now_scan alert in
  let tx := send tx ev in
  let '(ev, l) := Lateral.process (lateral e) now_lateral alert in
  let tx := send tx ev in
  mk_engine b s l tx.

(** [cleanup] of the three maps, with the orders in which they iterate. *)
Definition cleanup (order_botnet : gmap Botnet.BotnetKey (TimedSet string) -> list Botnet.BotnetKey)
    (order_scan : gmap string (TimedSet Z) -> list string)
    (order_lateral : gmap string (TimedSet string) -> list string)
    (e : CorrelationEngine) (now_botnet now_scan now_lateral : Z) : CorrelationEngine :=
  mk_engine (Botnet.cleanup order_botnet (botnet e) now_botnet).2 (Scan.cleanup order_scan (scan e) now_scan).2
    (Lateral.cleanup order_lateral (lateral e) now_lateral).2 (detection_tx e).

(** ** Runs of one detector *)

Section Runs.
Context {K I : Type} `{Countable K} `{Countable I}.
Variable window threshold max_tracked : Z.
Variable order : gmap K (TimedSet I) -> list K.

Inductive op : Type :=
  | Seen (now : Z) (k : K) (x : I)
  | Clean (now : Z).
Definition op_time (o : op) : Z := match o with Seen now _ _ => now | Clean now => now end.

(** One operation; the alerts raised so far, newest first: instant, key, items. *)
Definition step (o : op) (s : list (Z * K * Z) * gmap K (TimedSet I)) : list (Z * K * Z) * gmap K (TimedSet I) :=
  match o with
  | Seen now k x =>
      let '(r, st) := process_key window threshold now k x s.2 in
      (match r with Some n => (now, k, n) :: s.1 | None => s.1 end, st)
  | Clean now => (s.1, (capped_cleanup order s.2 window max_tracked now window_start).2)
  end.

(** The operations, newest first. *)
Definition run (ops : list op) : list (Z * K * Z) * gmap K (TimedSet I) := foldr step ([], ∅) ops.

(** Instants do not go backwards. *)
Fixpoint monotone (ops : list op) : Prop :=
  match ops with
  | [] => True
  | o :: ops => Forall (fun o' => op_time o' <= op_time o) ops /\ monotone ops
  end.

Definition clock (ops : list op) (now : Z) : Prop := Forall (fun o => op_time o <= now) ops.

(** [x] was seen for [k] within the window that ends at [now]. *)
Definition seen_since (ops : list op) (k : K) (from now : Z) (x : I) : Prop :=
  exists t, Seen t k x ∈ ops /\ from <= t <= now.

Definition set_justified (ops : list op) (now : Z) (k : K) (set : TimedSet I) : Prop :=
  window_start set <= now /\
  (forall last, last_alerted set = Some last -> last <= window_start set) /\
  forall x, x ∈ items set -> seen_since ops k (window_start set) now x.

Lemma duration_since_le (a b : Z) : b <= a -> duration_since a b = a - b.
Proof. unfold duration_since. lia. Qed.

(** What [observe] does, given that the state is justified by the past. *)
Lemma observe_spec (ops : list op) (now : Z) (k : K) (x : I) (set : TimedSet I) :
  0 < window -> set_justified ops now k set ->
  let '(r, set') := observe window threshold now x set in
  let ops' := Seen now k x :: ops in
  set_justified ops' now k set' /\ last_alerted set' = last_alerted set /\
  match r with
  | None => True
  | Some n =>
      threshold <= n /\ (forall last, last_alerted set = Some last -> window <= now - last) /\
      exists D : gset I, Z.of_nat (size D) = n /\ forall y, y ∈ D -> seen_since ops' k (now - window + 1) now y
  end.
Proof.
  intros Hw (Hs & Hl & Hitems). unfold observe. set (ops' := Seen now k x :: ops).
  set (s1 := if window <=? duration_since now (window_start set) then _ else set).
  assert (set_justified ops' now k s1 /\ last_alerted s1 = last_alerted set /\ now - window < window_start s1)
    as ((Hs1 & Hl1 & Hi1) & Hsame & Hrecent).
  { unfold s1. rewrite duration_since_le by done. destruct (Z.leb_spec window (now - window_start set)).
    - unfold set_justified. cbn. split_and!; try done; try lia.
      intros last Hlast. specialize (Hl _ Hlast). lia.
    - unfold set_justified. split_and!; try done; try lia. intros y Hy.
      destruct (Hitems y Hy) as (t & Ht & Hr). exists t. split; [by constructor|done]. }
  set (s2 := mk_timed ({[x]} ∪ items s1) (window_start s1) (last_alerted s1)).
  assert (set_justified ops' now k s2) as Hj2.
  { split_and!; try done. cbn. intros y [->%elem_of_singleton|Hy]%elem_of_union; [|by apply Hi1].
    exists now. split; [by constructor|lia]. }
  assert (set_justified ops' now k (mk_timed ∅ now (last_alerted s2))) as Hempty.
  { split_and!; cbn; [done| |set_solver]. intros last Hlast. specialize (Hl1 last Hlast). lia. }
  change (items (mk_timed ({[x]} ∪ items s1) (window_start s1) (last_alerted s1))) with (items s2).
  change (last_alerted (mk_timed ({[x]} ∪ items s1) (window_start s1) (last_alerted s1))) with (last_alerted s2).
  change (mk_timed ({[x]} ∪ items s1) (window_start s1) (last_alerted s1)) with s2.
  assert (exists D : gset I, Z.of_nat (size D) = Z.of_nat (size (items s2)) /\
    forall y, y ∈ D -> seen_since ops' k (now - window + 1) now y) as HD.
  { exists (items s2). split; [done|]. intros y Hy. destruct Hj2 as (_ & _ & Hi2).
    destruct (Hi2 y Hy) as (t & Ht & Hr). exists t. split; [done|]. cbn in Hr. lia. }
  destruct (Z.leb_spec threshold (Z.of_nat (size (items s2)))); [|by split_and!].
  assert (last_alerted s2 = last_alerted set) as Hsame2 by done.
  destruct (last_alerted s2) as [last|] eqn:Hlast.
  - assert (last <= now) by (specialize (Hl1 last ltac:(congruence)); lia).
    rewrite duration_since_le by done. destruct (Z.ltb_spec (now - last) window).
    + by split_and!.
    + split_and!; try done. intros l Hl'. rewrite <- Hsame2 in Hl'. injection Hl' as <-. lia.
  - split_and!; try done. intros l Hl'. by rewrite <- Hsame2 in Hl'.
Qed.

Lemma seen_since_weaken (o : op) (ops : list op) (k : K) (from from' now now' : Z) (x : I) :
  from' <= from -> now <= now' -> seen_since ops k from now x -> seen_since (o :: ops) k from' now' x.
Proof. intros Hf Hn (t & Ht & Hr). exists t. split; [by constructor|lia]. Qed.

Lemma set_justified_weaken (o : op) (ops : list op) (now now' : Z) (k : K) (set : TimedSet I) :
  now <= now' -> set_justified ops now k set -> set_justified (o :: ops) now' k set.
Proof.
  intros Hn (Hs & Hl & Hi). split; [lia|]. split; [done|]. intros x Hx.
  by apply (seen_since_weaken o ops k (window_start set) _ now); [lia..|apply Hi].
Qed.

Lemma alter_insert_same (f : TimedSet I -> TimedSet I) (k : K) (v : TimedSet I) (m : gmap K (TimedSet I)) :
  alter f k (<[k := v]> m) = <[k := f v]> m.
Proof.
  apply map_eq. intros j. destruct (decide (j = k)) as [->|Hj].
  - by rewrite lookup_alter_eq, !lookup_insert_eq.
  - by rewrite lookup_alter_ne, !lookup_insert_ne by done.
Qed.

Lemma process_key_run (now : Z) (k : K) (x : I) (m : gmap K (TimedSet I)) :
  process_key window threshold now k x m =
    let '(r, set) := observe window threshold now x (default (fresh_set now) (m !! k)) in
    (r, <[k := if r then mk_timed ∅ now (Some now) else set]> m).
Proof.
  unfold process_key. destruct (observe _ _ _ _ _) as [[n|] set]; [|done]. by rewrite alter_insert_same.
Qed.

Lemma lookup_foldr_delete {V} (ks : list K) (m : gmap K V) (k : K) (v : V) :
  foldr delete m ks !! k = Some v -> m !! k = Some v.
Proof.
  induction ks as [|j ks IH]; [done|]. simpl. rewrite lookup_delete_Some. intros [_ ?]. by apply IH.
Qed.

Lemma capped_cleanup_sub (m : gmap K (TimedSet I)) (now : Z) (k : K) (set : TimedSet I) :
  (capped_cleanup order m window max_tracked now window_start).2 !! k = Some set -> m !! k = Some set.
Proof.
  unfold capped_cleanup. cbn [snd]. destruct (max_tracked <? _); intros Hk.
  - apply lookup_foldr_delete in Hk. by apply map_lookup_filter_Some in Hk as [? _].
  - by apply map_lookup_filter_Some in Hk as [? _].
Qed.

(** Below the cap only stale entries go. *)
Lemma capped_cleanup_keeps (m : gmap K (TimedSet I)) (now : Z) (k : K) :
  Z.of_nat (size m) <= max_tracked ->
  (capped_cleanup order m window max_tracked now window_start).2 !! k
    = (set ← m !! k; if duration_since now (window_start set) <? window then Some set else None).
Proof.
  intros Hsize. unfold capped_cleanup. cbn [snd].
  assert (size (filter (fun kv : K * TimedSet I => (duration_since now (window_start kv.2) < window)%Z) m) <= size m)%nat
    by (apply map_subseteq_size, map_filter_subseteq).
  rewrite (proj2 (Z.ltb_ge _ _)) by lia. rewrite map_lookup_filter.
  destruct (m !! k) as [set|]; [|done]. cbn. destruct (Z.ltb_spec (duration_since now (window_start set)) window) as [Hlt|Hge].
  - by rewrite option_guard_True.
  - rewrite option_guard_False; [done|]. cbn. lia.
Qed.

(** Every set of a run holds what was seen since its window began. *)
Lemma run_justified (ops : list op) (now : Z) :
  0 < window -> monotone ops -> clock ops now ->
  forall k set, (run ops).2 !! k = Some set -> set_justified ops now k set.
Proof.
  intros Hw. revert now. induction ops as [|o ops IH]; intros now Hm Hc k set; [done|].
  destruct Hm as [Ho Hm]. inversion Hc as [|? ? Hon Hcs]; subst. cbn [run foldr].
  specialize (IH (op_time o) Hm Ho). fold (run ops). destruct o as [t k' x|t]; cbn [step op_time] in *.
  - rewrite process_key_run.
    assert (set_justified ops t k' (default (fresh_set t) ((run ops).2 !! k'))) as Hj.
    { destruct ((run ops).2 !! k') as [s|] eqn:Hs; [by apply IH|].
      unfold set_justified. cbn. split_and!; try done. }
    pose proof (observe_spec ops t k' x _ Hw Hj) as Hspec.
    destruct (observe window threshold t x _) as [r s']. destruct Hspec as (Hj' & Hl & _).
    cbn [snd]. destruct (decide (k = k')) as [->|Hk].
    + rewrite lookup_insert_eq. intros [= <-]. destruct r as [n|].
      * unfold set_justified. cbn. split_and!; [lia| |set_solver]. intros l [= <-]. done.
      * destruct Hj' as (Hs & Hl' & Hi). split; [lia|]. split; [done|]. intros y Hy.
        destruct (Hi y Hy) as (u & Hu & Hr). exists u. split; [done|lia].
    + rewrite lookup_insert_ne by done. intros Hs. by apply set_justified_weaken with t, IH.
  - intros Hs. apply capped_cleanup_sub in Hs. by apply set_justified_weaken with t, IH.
Qed.

(** The keys seen. *)
Definition keys_seen (ops : list op) : gset K :=
  foldr (fun o ks => match o with Seen _ k _ => {[k]} ∪ ks | Clean _ => ks end) ∅ ops.

Lemma run_keys (ops : list op) (k : K) : is_Some ((run ops).2 !! k) -> k ∈ keys_seen ops.
Proof.
  induction ops as [|o ops IH]; [by intros [? ?]|]. cbn [run foldr keys_seen]. fold (run ops).
  destruct o as [t k' x|t]; cbn [step].
  - rewrite process_key_run. destruct (observe _ _ _ _ _) as [r s']. cbn [snd].
    destruct (decide (k = k')) as [->|Hk]; [set_solver|]. rewrite lookup_insert_ne by done. set_solver.
  - intros [s Hs]. apply capped_cleanup_sub in Hs. apply IH. by eexists.
Qed.

Lemma run_size (ops : list op) : (size (run ops).2 <= size (keys_seen ops))%nat.
Proof.
  rewrite <- (size_dom (D := gset K)). apply subseteq_size. intros k Hk. apply run_keys. by apply elem_of_dom.
Qed.

(** Alerts of one key are a window apart. *)
Fixpoint spaced (alerts : list (Z * K * Z)) : Prop :=
  match alerts with
  | [] => True
  | (t, k, n) :: alerts => (forall t' n', (t', k, n') ∈ alerts -> window <= t - t') /\ spaced alerts
  end.

(** What the state remembers of an alert. *)
Definition remembered (m : gmap K (TimedSet I)) (now t : Z) (k : K) : Prop :=
  window <= now - t \/ exists set last, m !! k = Some set /\ last_alerted set = Some last /\ t <= last.

Lemma run_spaced (ops : list op) (now : Z) :
  0 < window -> monotone ops -> clock ops now -> Z.of_nat (size (keys_seen ops)) <= max_tracked ->
  spaced (run ops).1 /\ forall t k n, (t, k, n) ∈ (run ops).1 -> remembered (run ops).2 now t k.
Proof.
  intros Hw. revert now. induction ops as [|o ops IH]; intros now Hm Hc Hcap; [split; [done|set_solver]|].
  pose proof Hm as [Ho Hm']. inversion Hc as [|? ? Hon Hcs]; subst.
  assert (size (keys_seen ops) <= size (keys_seen (o :: ops)))%nat
    by (apply subseteq_size; destruct o; set_solver).
  destruct (IH (op_time o) Hm' Ho ltac:(lia)) as [Hsp Hrem]. clear IH.
  pose proof (run_justified ops (op_time o) Hw Hm' Ho) as Hjust.
  pose proof (run_size ops) as Hsize. cbn [run foldr]. fold (run ops).
  destruct o as [t k x|t]; cbn [step op_time] in *.
  - rewrite process_key_run.
    assert (set_justified ops t k (default (fresh_set t) ((run ops).2 !! k))) as Hj.
    { destruct ((run ops).2 !! k) as [s|] eqn:Hs; [by apply Hjust|]. unfold set_justified. cbn. by split_and!. }
    pose proof (observe_spec ops t k x _ Hw Hj) as Hspec.
    destruct (observe window threshold t x _) as [r s'] eqn:Hobs. destruct Hspec as (_ & Hl & Hr).
    assert (forall u k' n, (u, k', n) ∈ (run ops).1 ->
      remembered (<[k := if r then mk_timed ∅ t (Some t) else s']> (run ops).2) now u k') as Hold.
    { intros u k' n Hin. destruct (Hrem u k' n Hin) as [?|(s & last & Hs & Hlast & Hle)]; [left; lia|].
      destruct (decide (k' = k)) as [->|Hk]; [|right; exists s, last; by rewrite lookup_insert_ne].
      right. destruct (Hjust k s Hs) as (? & Hls & _). specialize (Hls last Hlast).
      destruct r as [m|]; rewrite lookup_insert_eq.
      - exists (mk_timed ∅ t (Some t)), t. split_and!; try done. lia.
      - exists s', last. split_and!; try done. by rewrite Hl, Hs. }
    destruct r as [n|]; cbn [fst snd]; [|by split].
    destruct Hr as (_ & Hgap & _). split.
    + split; [|done]. intros t' n' Hin. destruct (Hrem t' k n' Hin) as [?|(s & last & Hs & Hlast & Hle)]; [done|].
      rewrite Hs in Hgap. specialize (Hgap last Hlast). lia.
    + intros u k' n' [Heq|Hin]%elem_of_cons; [|by eapply Hold].
      injection Heq as -> -> ->. right. exists (mk_timed ∅ t (Some t)), t.
      by rewrite lookup_insert_eq.
  - cbn [fst snd]. split; [done|]. intros u k n Hin.
    destruct (Hrem u k n Hin) as [?|(s & last & Hs & Hlast & Hle)]; [left; lia|].
    destruct (Hjust k s Hs) as (Hst & Hls & _). specialize (Hls last Hlast).
    destruct (Z.le_gt_cases window (now - u)) as [?|Hrecent]; [by left|]. right. exists s, last.
    split; [|done]. rewrite capped_cleanup_keeps by lia. rewrite Hs. cbn. rewrite duration_since_le by done.
    rewrite (proj2 (Z.ltb_lt _ _)); [done|]. lia.
Qed.

(** Every alert has enough items, all seen within its window. *)
Lemma run_alerts_sound (ops : list op) :
  0 < window -> monotone ops ->
  forall t k n, (t, k, n) ∈ (run ops).1 ->
    threshold <= n /\
    exists D : gset I, Z.of_nat (size D) = n /\ forall x, x ∈ D -> seen_since ops k (t - window + 1) t x.
Proof.
  intros Hw. induction ops as [|o ops IH]; intros Hm t k n; [set_solver|].
  destruct Hm as [Ho Hm]. cbn [run foldr]. fold (run ops). intros Hin.
  assert ((t, k, n) ∈ (run ops).1 -> threshold <= n /\ exists D : gset I, Z.of_nat (size D) = n /\
    forall x, x ∈ D -> seen_since (o :: ops) k (t - window + 1) t x) as Hold.
  { intros Hin'. destruct (IH Hm t k n Hin') as (Hn & D & HD & Hs). split; [done|]. exists D. split; [done|].
    intros x Hx. by apply (seen_since_weaken o ops k (t - window + 1) _ t); [lia..|apply Hs]. }
  destruct o as [u k' x|u]; cbn [step] in Hin; [|by apply Hold].
  rewrite process_key_run in Hin. cbn [op_time] in Ho.
  assert (set_justified ops u k' (default (fresh_set u) ((run ops).2 !! k'))) as Hj.
  { destruct ((run ops).2 !! k') as [s|] eqn:Hs; [by apply (run_justified ops u)|].
    unfold set_justified. cbn. by split_and!. }
  pose proof (observe_spec ops u k' x _ Hw Hj) as Hspec.
  destruct (observe window threshold u x _) as [[m|] s']; cbn [fst] in Hin; [|by apply Hold].
  apply elem_of_cons in Hin as [Heq|Hin]; [|by apply Hold]. injection Heq as -> -> ->.
  by destruct Hspec as (_ & _ & Hn & _ & HD).
Qed.
End Runs.

(** A cleanup keeps fresh entries only, at most [max_tracked] of them, and
    counts what it removed. *)
Lemma foldr_delete_size {K V} `{Countable K} (ks : list K) (m : gmap K V) :
  NoDup ks -> (forall k, k ∈ ks -> is_Some (m !! k)) ->
  Z.of_nat (size (foldr delete m ks)) = Z.of_nat (size m) - Z.of_nat (length ks).
Proof.
  intros Hnd. induction Hnd as [|k ks Hk Hnd IH]; intros Hin; cbn [foldr length]; [lia|].
  destruct (Hin k ltac:(by left)) as [v Hv].
  assert (foldr delete m ks !! k = Some v) as Hlook.
  { clear IH Hin Hnd. induction ks as [|j ks IH]; [done|]. cbn [foldr]. apply not_elem_of_cons in Hk as [Hj Hk].
    rewrite lookup_delete_ne by done. by apply IH. }
  assert (size (foldr delete m ks) <> 0)%nat.
  { intros Hz. apply map_size_empty_inv in Hz. by rewrite Hz, lookup_empty in Hlook. }
  rewrite map_size_delete_Some by done. rewrite <- Nat.sub_1_r, Nat2Z.inj_sub by lia. rewrite IH; [lia|]. intros j Hj. apply Hin. by right.
Qed.

Lemma capped_cleanup_bounded {K V} `{Countable K} (order : gmap K V -> list K) (m : gmap K V)
    (window max_tracked now : Z) (start : V -> Z) :
  key_order order -> 0 <= max_tracked ->
  let '(removed, m') := capped_cleanup order m window max_tracked now start in
  Z.of_nat (size m') <= max_tracked /\ m' ⊆ m /\ removed = Z.of_nat (size m) - Z.of_nat (size m') /\
  map_Forall (fun _ v => duration_since now (start v) < window) m'.
Proof.
  intros Hord Hmax. unfold capped_cleanup.
  set (m1 := filter (fun kv : K * V => duration_since now (start kv.2) < window) m).
  assert (m1 ⊆ m) as Hsub by apply map_filter_subseteq.
  assert (map_Forall (fun _ v => duration_since now (start v) < window) m1) as Hfresh
    by (intros k v Hv; by apply map_lookup_filter_Some in Hv as [_ ?]).
  assert (size m1 <= size m)%nat by (by apply map_subseteq_size).
  destruct (Z.ltb_spec max_tracked (Z.of_nat (size m1))) as [Hover|Hunder].
  - set (ks := take (Z.to_nat (Z.of_nat (size m1) - max_tracked)) (order m1)).
    pose proof (Hord m1) as Hperm.
    assert (length (order m1) = size m1) as Hlen.
    { rewrite Hperm, length_map. by rewrite length_map_to_list. }
    assert (NoDup ks) as Hnd.
    { apply (sublist_NoDup _ (order m1)); [|apply sublist_take]. rewrite Hperm. apply NoDup_fst_map_to_list. }
    assert (forall k, k ∈ ks -> is_Some (m1 !! k)) as Hin.
    { intros k Hk. apply elem_of_take in Hk as (i & Hi & _). apply list_elem_of_lookup_2 in Hi.
      rewrite Hperm in Hi. apply list_elem_of_In, in_map_iff in Hi as ([k' v] & <- & Hv).
      apply list_elem_of_In, elem_of_map_to_list in Hv. by eexists. }
    assert (Z.of_nat (length ks) = Z.of_nat (size m1) - max_tracked) as Hks
      by (unfold ks; rewrite length_take; lia).
    pose proof (foldr_delete_size ks m1 Hnd Hin) as Hsize.
    assert (foldr delete m1 ks ⊆ m1) as Hsub1
      by (apply map_subseteq_spec; intros k v Hv; by apply lookup_foldr_delete in Hv).
    split_and!; [lia|by etransitivity|unfold saturating_sub; lia|].
    intros k v Hv. eapply Hfresh. by eapply map_subseteq_spec.
  - split_and!; [lia|done|unfold saturating_sub; lia|done].
Qed.

(** ** Runs of the engine *)

Section Engine.
Variable cfg : CorrelationConfig.
Variable order_botnet : gmap Botnet.BotnetKey (TimedSet string) -> list Botnet.BotnetKey.
Variable order_scan : gmap string (TimedSet Z) -> list string.
Variable order_lateral : gmap string (TimedSet string) -> list string.

(** An observation or a cleanup, with the instants the three detectors read. *)
Inductive engine_op : Type :=
  | Alert (now_botnet now_scan now_lateral : Z) (f : FlowObservation)
  | Tidy (now_botnet now_scan now_lateral : Z).

Definition engine_step (o : engine_op) (e : CorrelationEngine) : CorrelationEngine :=
  match o with
  | Alert b s l f => process_alert e b s l f
  | Tidy b s l => cleanup order_botnet order_scan order_lateral e b s l
  end.

(** The operations, newest first, from the new engine. *)
Definition engine_run (tx : DetectionSender) (ops : list engine_op) : CorrelationEngine :=
  foldr engine_step (new_engine cfg tx) ops.

(** What one detector sees of the operations. *)
Definition botnet_ops (ops : list engine_op) : list (op (K := Botnet.BotnetKey) (I := string)) :=
  map (fun o => match o with
                | Alert b _ _ f => Seen b (Botnet.botnet_key f) (src_ip f)
                | Tidy b _ _ => Clean b
                end) ops.
Definition scan_ops (ops : list engine_op) : list (op (K := string) (I := Z)) :=
  map (fun o => match o with
                | Alert _ s _ f => Seen s (src_ip f) (dst_port f)
                | Tidy _ s _ => Clean s
                end) ops.
Definition internal_flow (f : FlowObservation) : bool := is_internal_ip (src_ip f) && is_internal_ip (dst_ip f).
Definition lateral_ops (ops : list engine_op) : list (op (K := string) (I := string)) :=
  omap (fun o => match o with
                 | Alert _ _ l f => if internal_flow f then Some (Seen l (src_ip f) (dst_ip f)) else None
                 | Tidy _ _ l => Some (Clean l)
                 end) ops.

Definition windows_positive : Prop :=
  0 < window_secs (cc_botnet cfg) /\ 0 < window_secs (cc_scan cfg) /\ 0 < window_secs (cc_lateral cfg).

Definition clocks_monotone (ops : list engine_op) : Prop :=
  monotone (botnet_ops ops) /\ monotone (scan_ops ops) /\ monotone (lateral_ops ops).

Abbreviation run_botnet ops :=
  (run (from_secs (window_secs (cc_botnet cfg))) (threshold (cc_botnet cfg)) (max_tracked_entries cfg)
    order_botnet (botnet_ops ops)).
Abbreviation run_scan ops :=
  (run (from_secs (window_secs (cc_scan cfg))) (threshold (cc_scan cfg)) (max_tracked_entries cfg)
    order_scan (scan_ops ops)).
Abbreviation run_lateral ops :=
  (run (from_secs (window_secs (cc_lateral cfg))) (threshold (cc_lateral cfg)) (max_tracked_entries cfg)
    order_lateral (lateral_ops ops)).

(** One observation, detector by detector, as a step of its run. *)
Lemma botnet_process_step (s : list (Z * Botnet.BotnetKey * Z) * gmap _ _) (w th c now : Z) (f : FlowObservation) :
  let s' := step w th c order_botnet (Seen now (Botnet.botnet_key f) (src_ip f)) s in
  Botnet.process (Botnet.mk_botnet s.2 w th c) now f
    = ((if (process_key w th now (Botnet.botnet_key f) (src_ip f) s.2).1
        then Some (correlation_event BotActivity (f32_const 85 100) (src_ip f) (dst_ip f) f) else None),
       Botnet.mk_botnet s'.2 w th c).
Proof.
  unfold Botnet.process, step. cbn [Botnet.state Botnet.window Botnet.threshold_ Botnet.max_tracked].
  by destruct (process_key _ _ _ _ _ _) as [[n|] st].
Qed.

Lemma scan_process_step (s : list (Z * string * Z) * gmap _ _) (w th c now : Z) (f : FlowObservation) :
  let s' := step w th c order_scan (Seen now (src_ip f) (dst_port f)) s in
  Scan.process (Scan.mk_scan s.2 w th c) now f
    = ((if (process_key w th now (src_ip f) (dst_port f) s.2).1
        then Some (correlation_event PortScan (f32_const 80 100) (src_ip f) (dst_ip f) f) else None),
       Scan.mk_scan s'.2 w th c).
Proof.
  unfold Scan.process, step. cbn [Scan.state Scan.window Scan.threshold_ Scan.max_tracked].
  by destruct (process_key _ _ _ _ _ _) as [[n|] st].
Qed.

Lemma lateral_process_step (s : list (Z * string * Z) * gmap _ _) (w th c now : Z) (f : FlowObservation) :
  let s' := if internal_flow f then step w th c order_lateral (Seen now (src_ip f) (dst_ip f)) s else s in
  Lateral.process (Lateral.mk_lateral s.2 w th c) now f
    = ((if internal_flow f then
          if (process_key w th now (src_ip f) (dst_ip f) s.2).1
          then Some (correlation_event LateralMovement (f32_const 75 100) (src_ip f) (dst_ip f) f) else None
        else None),
       Lateral.mk_lateral s'.2 w th c).
Proof.
  unfold Lateral.process, step, internal_flow.
  destruct (is_internal_ip (src_ip f)), (is_internal_ip (dst_ip f)); cbn [negb orb andb]; try done.
  cbn [Lateral.state Lateral.window Lateral.threshold_ Lateral.max_tracked].
  by destruct (process_key _ _ _ _ _ _) as [[n|] st].
Qed.

Lemma lateral_ops_alert (b s l : Z) (f : FlowObservation) (ops : list engine_op) :
  lateral_ops (Alert b s l f :: ops)
    = if internal_flow f then Seen l (src_ip f) (dst_ip f) :: lateral_ops ops else lateral_ops ops.
Proof. unfold lateral_ops. simpl. by destruct (internal_flow f). Qed.

(** The engine's maps are those of the three runs. *)
Lemma engine_run_states (tx : DetectionSender) (ops : list engine_op) :
  let e := engine_run tx ops in
  botnet e = Botnet.mk_botnet (run_botnet ops).2 (from_secs (window_secs (cc_botnet cfg)))
    (threshold (cc_botnet cfg)) (max_tracked_entries cfg) /\
  scan e = Scan.mk_scan (run_scan ops).2 (from_secs (window_secs (cc_scan cfg)))
    (threshold (cc_scan cfg)) (max_tracked_entries cfg) /\
  lateral e = Lateral.mk_lateral (run_lateral ops).2 (from_secs (window_secs (cc_lateral cfg)))
    (threshold (cc_lateral cfg)) (max_tracked_entries cfg).
Proof.
  induction ops as [|o ops (Hb & Hs & Hl)]; [done|]. cbn [engine_run foldr]. fold (engine_run tx ops).
  destruct (engine_run tx ops) as [b s l d]. cbn in Hb, Hs, Hl. subst b s l.
  destruct o as [nb ns nl f|nb ns nl]; cbn [engine_step].
  - unfold process_alert. cbn [botnet scan lateral].
    rewrite botnet_process_step, scan_process_step, lateral_process_step, lateral_ops_alert.
    cbn [botnet scan lateral]. split_and!; [done..|]. by destruct (internal_flow f).
  - done.
Qed.

(** What an alert of the engine rests on. *)
Definition near (window t t' : Z) : Prop := t - from_secs window < t' <= t.
Definition event_justified (ops : list engine_op) (e : DetectionEvent) : Prop :=
  dt_source e = Event.Correlation /\
  ((dt_attack_type e = attack_str BotActivity /\ exists b s l f (D : gset string),
      Alert b s l f ∈ ops /\ dt_dest_ip e = dst_ip f /\ threshold (cc_botnet cfg) <= Z.of_nat (size D) /\
      forall a, a ∈ D -> exists b' s' l' f', Alert b' s' l' f' ∈ ops /\ src_ip f' = a /\
        Botnet.botnet_key f' = Botnet.botnet_key f /\ near (window_secs (cc_botnet cfg)) b b') \/
   (dt_attack_type e = attack_str PortScan /\ exists s (D : gset Z),
      threshold (cc_scan cfg) <= Z.of_nat (size D) /\
      forall p, p ∈ D -> exists b' s' l' f', Alert b' s' l' f' ∈ ops /\ src_ip f' = dt_source_ip e /\
        dst_port f' = p /\ near (window_secs (cc_scan cfg)) s s') \/
   (dt_attack_type e = attack_str LateralMovement /\ exists l (D : gset string),
      is_internal_ip (dt_source_ip e) = true /\ threshold (cc_lateral cfg) <= Z.of_nat (size D) /\
      forall a, a ∈ D -> exists b' s' l' f', Alert b' s' l' f' ∈ ops /\ src_ip f' = dt_source_ip e /\
        dst_ip f' = a /\ is_internal_ip a = true /\ near (window_secs (cc_lateral cfg)) l l')).

Lemma event_justified_weaken (o : engine_op) (ops : list engine_op) (e : DetectionEvent) :
  event_justified ops e -> event_justified (o :: ops) e.
Proof.
  intros (Hs & [(? & b & s & l & f & D & Hin & ? & ? & HD)|[(? & s & D & ? & HD)|(? & l & D & ? & ? & HD)]]);
    (split; [done|]); [left|right; left|right; right]; (split; [done|]).
  - exists b, s, l, f, D. split_and!; [by constructor|done..|]. intros a Ha.
    destruct (HD a Ha) as (? & ? & ? & ? & ? & ?). do 4 eexists. split; [by constructor|done].
  - exists s, D. split; [done|]. intros a Ha.
    destruct (HD a Ha) as (? & ? & ? & ? & ? & ?). do 4 eexists. split; [by constructor|done].
  - exists l, D. split_and!; [done..|]. intros a Ha.
    destruct (HD a Ha) as (? & ? & ? & ? & ? & ?). do 4 eexists. split; [by constructor|done].
Qed.

(** An alert of a step is one of its run. *)
Lemma step_alert {K I} `{Countable K, Countable I} (order : gmap K (TimedSet I) -> list K)
    (s : list (Z * K * Z) * gmap K (TimedSet I)) (w th c now n : Z) (k : K) (x : I) :
  (process_key w th now k x s.2).1 = Some n -> (now, k, n) ∈ (step w th c order (Seen now k x) s).1.
Proof. unfold step. destruct (process_key _ _ _ _ _ _) as [r st]. cbn. intros ->. by left. Qed.

Lemma send_in_flight (tx : DetectionSender) (ev : option DetectionEvent) (e : DetectionEvent) :
  e ∈ in_flight (send tx ev) -> e ∈ in_flight tx \/ ev = Some e.
Proof.
  destruct ev as [e'|]; [|by left]. cbn. unfold send_detection_or_log. destruct (_ && _); cbn; [|by left].
  rewrite elem_of_app, list_elem_of_singleton. intros [?| ->]; auto.
Qed.

Lemma botnet_ops_seen (ops : list engine_op) (t : Z) (k : Botnet.BotnetKey) (x : string) :
  Seen t k x ∈ botnet_ops ops ->
  exists s l f, Alert t s l f ∈ ops /\ Botnet.botnet_key f = k /\ src_ip f = x.
Proof.
  intros Hin. apply list_elem_of_In, in_map_iff in Hin as ([b s l f|b s l] & Heq & Hin); [|done].
  injection Heq as <- <- <-. exists s, l, f. by rewrite list_elem_of_In.
Qed.

Lemma scan_ops_seen (ops : list engine_op) (t : Z) (k : string) (x : Z) :
  Seen t k x ∈ scan_ops ops -> exists b l f, Alert b t l f ∈ ops /\ src_ip f = k /\ dst_port f = x.
Proof.
  intros Hin. apply list_elem_of_In, in_map_iff in Hin as ([b s l f|b s l] & Heq & Hin); [|done].
  injection Heq as <- <- <-. exists b, l, f. by rewrite list_elem_of_In.
Qed.

Lemma lateral_ops_seen (ops : list engine_op) (t : Z) (k x : string) :
  Seen t k x ∈ lateral_ops ops ->
  exists b s f, Alert b s t f ∈ ops /\ src_ip f = k /\ dst_ip f = x /\ is_internal_ip x = true.
Proof.
  intros Hin. apply list_elem_of_omap in Hin as ([b s l f|b s l] & Hin & Heq); [|done].
  unfold internal_flow in Heq. destruct (is_internal_ip (src_ip f)) eqn:?, (is_internal_ip (dst_ip f)) eqn:?; try done.
  injection Heq as <- <- <-. by exists b, s, f.
Qed.

Section Alerts.
Context (tx : DetectionSender) (ops : list engine_op) (b s l : Z) (f : FlowObservation).
Hypothesis Hw : windows_positive.
Hypothesis Hm : clocks_monotone (Alert b s l f :: ops).
Abbreviation ops' := (Alert b s l f :: ops).

Lemma botnet_alert_justified :
  (process_key (from_secs (window_secs (cc_botnet cfg))) (threshold (cc_botnet cfg)) b (Botnet.botnet_key f)
    (src_ip f) (run_botnet ops).2).1 <> None ->
  event_justified ops' (correlation_event BotActivity (f32_const 85 100) (src_ip f) (dst_ip f) f).
Proof.
  intros Hn. destruct (process_key _ _ _ _ _ _).1 as [n|] eqn:Hk; [|done]. clear Hn.
  destruct Hw as (Hwb & _ & _). destruct Hm as (Hmb & _ & _).
  apply (step_alert order_botnet _ _ _ (max_tracked_entries cfg)) in Hk.
  assert (0 < from_secs (window_secs (cc_botnet cfg))) as Hpos by (unfold from_secs; lia).
  destruct (run_alerts_sound _ _ _ order_botnet (botnet_ops ops') Hpos Hmb b (Botnet.botnet_key f) n Hk)
    as (Hth & D & HD & Hseen).
  split; [done|]. left. split; [done|]. exists b, s, l, f, D. split_and!; [by constructor|done|lia|].
  intros a Ha. destruct (Hseen a Ha) as (t & Ht & Hr). apply botnet_ops_seen in Ht as (s' & l' & f' & Hin & Hkey & Hsrc).
  exists t, s', l', f'. split_and!; [done..|]. unfold near. lia.
Qed.

Lemma scan_alert_justified :
  (process_key (from_secs (window_secs (cc_scan cfg))) (threshold (cc_scan cfg)) s (src_ip f)
    (dst_port f) (run_scan ops).2).1 <> None ->
  event_justified ops' (correlation_event PortScan (f32_const 80 100) (src_ip f) (dst_ip f) f).
Proof.
  intros Hn. destruct (process_key _ _ _ _ _ _).1 as [n|] eqn:Hk; [|done]. clear Hn.
  destruct Hw as (_ & Hws & _). destruct Hm as (_ & Hms & _).
  apply (step_alert order_scan _ _ _ (max_tracked_entries cfg)) in Hk.
  assert (0 < from_secs (window_secs (cc_scan cfg))) as Hpos by (unfold from_secs; lia).
  destruct (run_alerts_sound _ _ _ order_scan (scan_ops ops') Hpos Hms s (src_ip f) n Hk) as (Hth & D & HD & Hseen).
  split; [done|]. right; left. split; [done|]. exists s, D. split; [lia|].
  intros a Ha. destruct (Hseen a Ha) as (t & Ht & Hr). apply scan_ops_seen in Ht as (b' & l' & f' & Hin & Hkey & Hsrc).
  exists b', t, l', f'. split_and!; [done..|]. unfold near. lia.
Qed.

Lemma lateral_alert_justified :
  internal_flow f = true ->
  (process_key (from_secs (window_secs (cc_lateral cfg))) (threshold (cc_lateral cfg)) l (src_ip f)
    (dst_ip f) (run_lateral ops).2).1 <> None ->
  event_justified ops' (correlation_event LateralMovement (f32_const 75 100) (src_ip f) (dst_ip f) f).
Proof.
  intros Hi Hn. destruct (process_key _ _ _ _ _ _).1 as [n|] eqn:Hk; [|done]. clear Hn.
  destruct Hw as (_ & _ & Hwl). destruct Hm as (_ & _ & Hml). rewrite lateral_ops_alert, Hi in Hml.
  apply (step_alert order_lateral _ _ _ (max_tracked_entries cfg)) in Hk.
  assert (0 < from_secs (window_secs (cc_lateral cfg))) as Hpos by (unfold from_secs; lia).
  destruct (run_alerts_sound _ _ _ order_lateral _ Hpos Hml l (src_ip f) n Hk) as (Hth & D & HD & Hseen).
  split; [done|]. right; right. split; [done|]. exists l, D.
  unfold internal_flow in Hi. apply andb_true_iff in Hi as [Hi1 Hi2]. split_and!; [done|lia|].
  intros a Ha. destruct (Hseen a Ha) as (t & Ht & Hr).
  assert (Seen t (src_ip f) a ∈ lateral_ops ops') as Ht'
    by (rewrite lateral_ops_alert; unfold internal_flow; by rewrite Hi1, Hi2).
  apply lateral_ops_seen in Ht' as (b' & s' & f' & Hin & Hkey & Hdst & Hint).
  exists b', s', t, f'. split_and!; [done..|]. unfold near. lia.
Qed.
End Alerts.

Lemma clocks_monotone_tail (o : engine_op) (ops : list engine_op) : clocks_monotone (o :: ops) -> clocks_monotone ops.
Proof.
  intros (Hb & Hs & Hl). split; [apply Hb|]. split; [apply Hs|].
  destruct o as [b s l f|b s l]; [rewrite lateral_ops_alert in Hl; destruct (internal_flow f); [apply Hl|done]|apply Hl].
Qed.

(** C25: Every detection the engine sends is justified: a bot alert by the
    configured number of distinct sources that contacted one address, protocol
    and port, a scan alert by that many distinct ports one source contacted, a
    lateral-movement alert by that many distinct internal destinations of an
    internal source, all within the detector's window before the alert. *)
Theorem engine_events_justified (tx : DetectionSender) (ops : list engine_op) :
  windows_positive -> clocks_monotone ops ->
  forall e, e ∈ in_flight (detection_tx (engine_run tx ops)) -> e ∈ in_flight tx \/ event_justified ops e.
Proof.
  intros Hw. induction ops as [|o ops IH]; intros Hm e; [by left|].
  specialize (IH (clocks_monotone_tail o ops Hm) e).
  pose proof (engine_run_states tx ops) as (Hb & Hs & Hl).
  cbn [engine_run foldr]. fold (engine_run tx ops).
  assert (e ∈ in_flight (detection_tx (engine_run tx ops)) -> e ∈ in_flight tx \/ event_justified (o :: ops) e) as Hold
    by (intros Hin; destruct (IH Hin); [by left|right; by apply event_justified_weaken]).
  destruct o as [b s l f|b s l]; [|done]. cbn [engine_step]. unfold process_alert.
  rewrite Hb, Hs, Hl, botnet_process_step, scan_process_step, lateral_process_step. cbn [detection_tx].
  intros Hin. apply send_in_flight in Hin as [Hin|Hev];
    [apply send_in_flight in Hin as [Hin|Hev]; [apply send_in_flight in Hin as [Hin|Hev]; [by apply Hold|]|]|].
  - right. destruct (process_key _ _ _ _ _ _).1 eqn:Hk; [|done]. injection Hev as <-.
    apply botnet_alert_justified; [done..|]. by rewrite Hk.
  - right. destruct (process_key _ _ s _ _ _).1 eqn:Hk; [|done]. injection Hev as <-.
    apply scan_alert_justified; [done..|]. by rewrite Hk.
  - right. destruct (internal_flow f) eqn:Hi; [|done].
    destruct (process_key _ _ l _ _ _).1 eqn:Hk; [|done]. injection Hev as <-.
    apply lateral_alert_justified; [done..|]. by rewrite Hk.
Qed.

End Engine.

(** As long as the keys seen fit the cap, two alerts a detector raises for
    one key are at least a window apart, cleanups in between included. *)
Theorem alerts_spaced {K I} `{Countable K, Countable I} (window threshold max_tracked : Z)
    (order : gmap K (TimedSet I) -> list K) (ops : list op) :
  0 < window -> monotone ops -> Z.of_nat (size (keys_seen ops)) <= max_tracked ->
  spaced window (run window threshold max_tracked order ops).1.
Proof.
  intros Hw Hm Hcap. destruct ops as [|o ops]; [done|].
  apply (run_spaced window threshold max_tracked order (o :: ops) (op_time o)); [done..| |done].
  destruct Hm as [Ho _]. by constructor.
Qed.

(** ** A run *)

Definition sample_config : CorrelationConfig :=
  mk_correlation_config (mk_params 120 20) (mk_params 300 5) (mk_params 300 2) 10000.
Definition sample_flow (src : string) : FlowObservation := mk_flow src "203.0.113.9" 6667 6 10 1000.
Definition sample_ops : list engine_op :=
  [Alert 3000000000 3000000001 3000000002 (sample_flow "198.51.100.2");
   Tidy 2000000000 2000000001 2000000002;
   Alert 1000000000 1000000001 1000000002 (sample_flow "198.51.100.1")].
Definition no_order {K V} `{Countable K} (m : gmap K V) : list K := map fst (map_to_list m).
Definition sample_engine : CorrelationEngine :=
  engine_run sample_config no_order no_order no_order (mk_sender [] 16 true) sample_ops.

Lemma engine_events_justified_witness :
  length (in_flight (detection_tx sample_engine)) = 1%nat /\
  forall e, e ∈ in_flight (detection_tx sample_engine) -> e ∈ [] \/ event_justified sample_config sample_ops e.
Proof.
  split; [by vm_compute|].
  assert (lateral_ops sample_ops = [Clean 2000000002]) as Hl by (vm_compute; reflexivity).
  apply (engine_events_justified sample_config no_order no_order no_order (mk_sender [] 16 true) sample_ops).
  - unfold windows_positive. cbn. lia.
  - unfold clocks_monotone. rewrite Hl. cbn.
    repeat first [done | apply Forall_nil_2 | apply Forall_cons; split | cbn; lia | split].
Defined.

Lemma alerts_spaced_witness :
  let ops := [Seen 6 "k" "a"; Seen 5 "k" "b"; Clean 3; Seen 2 "k" "b"; Seen 1 "k" "a"] in
  (run 3 2 10 no_order ops).1 = [(6, "k", 2); (2, "k", 2)] /\ spaced 3 (run 3 2 10 no_order ops).1.
Proof.
  split; [by vm_compute|]. apply (alerts_spaced 3 2 10 no_order); [lia| |vm_compute; done].
  cbn. repeat first [done | apply Forall_nil_2 | apply Forall_cons; split | cbn; lia | split].
Defined.
