(* ===== verification/Beaconing.v ===== *)
(** * Beaconing detection

    A flow that is contacted at regular intervals looks like a beacon.  The
    detector keeps the last instants per flow, compares the coefficient of
    variation of their intervals with a threshold, and alerts at most once per
    cooldown (core/detection/beaconing.rs). *)

From Stdlib Require Import ZArith Lia List String.
From Corelib Require Import SpecFloat.
From stdpp Require Import base list gmap sets strings.
From S2P Require Import Prelude RStr Float Event Correlation.

Local Open Scope string_scope.
Local Open Scope Z_scope.

(** [Duration::as_secs_f64] of a duration in nanoseconds. *)
Definition as_secs_f64 (nanos : Z) : float :=
  f64_add (f64_of_Z (nanos / 1000000000)) (f64_div (f64_of_Z (nanos mod 1000000000)) (f64_of_Z 1000000000)).

(** [f64::MAX] *)
Definition f64_MAX : float := S754_finite false (Z.to_pos (2 ^ 53 - 1)) 971.
Definition fzero : float := S754_zero false.

(** The loop of [compute_cv] over [windows(2)]: sum, sum of squares, count. *)
Fixpoint sum_intervals (timestamps : list Z) (sum sum_sq : float) (count : Z) : float * float * Z :=
  match timestamps with
  | t0 :: (t1 :: _) as rest =>
      let interval := as_secs_f64 (duration_since t1 t0) in
      sum_intervals rest (f64_add sum interval) (f64_add sum_sq (f64_mul interval interval)) (count + 1)
  | _ => (sum, sum_sq, count)
  end.

Definition compute_cv (timestamps : list Z) : float :=
  if (length timestamps <? 2)%nat then f64_MAX
  else
    let '(sum, sum_sq, count) := sum_intervals timestamps fzero fzero 0 in
    let n := f64_of_Z count in
    let mean := f64_div sum n in
    if fle mean fzero then f64_MAX
    else
      let variance := fmax (f64_sub (f64_div sum_sq n) (f64_mul mean mean)) fzero in
      f64_div (f64_sqrt variance) mean.

(** [BeaconingKey]: source, destination, protocol, destination port. *)
Definition BeaconingKey : Type := string * string * Z * Z.

Record CachedFlow : Type := mk_cached { timestamps : list Z; last_alerted : option Z }.

Record BeaconingState : Type := mk_beaconing {
  flow_cache : gmap BeaconingKey CachedFlow;
  min_observations : Z; cv_threshold : float; max_cache_entries : Z;
  max_timestamps_per_flow : Z; expiry_secs : Z; alert_cooldown_secs : Z }.

Definition with_cache (s : BeaconingState) (cache : gmap BeaconingKey CachedFlow) : BeaconingState :=
  mk_beaconing cache (min_observations s) (cv_threshold s) (max_cache_entries s)
    (max_timestamps_per_flow s) (expiry_secs s) (alert_cooldown_secs s).

Record BeaconingConfig : Type := mk_beaconing_config {
  bc_analysis_interval_secs : Z; bc_min_observations : Z; bc_cv_threshold : float;
  bc_max_cache_entries : Z; bc_max_timestamps_per_flow : Z; bc_expiry_secs : Z;
  bc_alert_cooldown_secs : Z }.

(** [BeaconingConfig::validate] accepts. *)
Definition validate_beaconing (c : BeaconingConfig) : bool :=
  (0 <? bc_min_observations c) && (0 <? bc_analysis_interval_secs c)
  && (is_finite (bc_cv_threshold c) && fgt (bc_cv_threshold c) fzero)
  && (0 <? bc_max_cache_entries c) && (1 <? bc_max_timestamps_per_flow c)
  && (bc_min_observations c <=? bc_max_timestamps_per_flow c) && (0 <? bc_expiry_secs c).

Definition new_state (c : BeaconingConfig) : BeaconingState :=
  mk_beaconing ∅ (bc_min_observations c) (bc_cv_threshold c) (bc_max_cache_entries c)
    (bc_max_timestamps_per_flow c) (bc_expiry_secs c) (bc_alert_cooldown_secs c).

Definition flow_key (alert : FlowObservation) : BeaconingKey :=
  (src_ip alert, dst_ip alert, protocol alert, dst_port alert).

Definition record_flow (now : Z) (alert : FlowObservation) (s : BeaconingState) : BeaconingState :=
  let key := flow_key alert in
  let entry := default (mk_cached [] None) (flow_cache s !! key) in
  let stamps := (timestamps entry ++ [now])%list in
  let stamps :=
    if max_timestamps_per_flow s <? Z.of_nat (length stamps)
    then drop (Z.to_nat (Z.of_nat (length stamps) - max_timestamps_per_flow s)) stamps else stamps in
  with_cache s (<[key := mk_cached stamps (last_alerted entry)]> (flow_cache s)).

(** The flow's entry in [candidates], if it is one. *)
Definition candidate (s : BeaconingState) (now : Z) (flow : CachedFlow) : option (float * Z) :=
  if Z.of_nat (length (timestamps flow)) <? min_observations s then None
  else if match last_alerted flow with
          | Some last => duration_since now last <? from_secs (alert_cooldown_secs s)
          | None => false
          end
  then None
  else
    let cv := compute_cv (timestamps flow) in
    if flt cv (cv_threshold s) then Some (cv, Z.of_nat (length (timestamps flow))) else None.

(** [(1.0 - cv / threshold) as f32 * 0.5 + 0.5] *)
Definition beacon_confidence (cv threshold : float) : float :=
  let half := f32_of_ratio 1 2 in
  f32_add (f32_mul (f32_of_f64 (f64_sub (f64_of_Z 1) (f64_div cv threshold))) half) half.

Definition beacon_event (key : BeaconingKey) (cv threshold : float) (count : Z) : DetectionEvent :=
  let '(src, dst, proto, _) := key in
  mk_detection Event.Beaconing (attack_str C2Beacon) (beacon_confidence cv threshold) src dst proto count 0
    fzero fzero fzero.

(** The first loop of [analyze], in the order of the map. *)
Definition candidates (order : gmap BeaconingKey CachedFlow -> list BeaconingKey) (s : BeaconingState) (now : Z) :
    list (BeaconingKey * float * Z) :=
  omap (fun key =>
    match flow_cache s !! key with
    | Some flow => (fun c => (key, c.1, c.2)) <$> candidate s now flow
    | None => None
    end) (order (flow_cache s)).

Definition mark_alerted (now : Z) (flow : CachedFlow) : CachedFlow := mk_cached (timestamps flow) (Some now).

Definition analyze (order : gmap BeaconingKey CachedFlow -> list BeaconingKey) (now : Z) (s : BeaconingState) :
    list DetectionEvent * BeaconingState :=
  let found := candidates order s now in
  (map (fun '(key, cv, count) => beacon_event key cv (cv_threshold s) count) found,
   with_cache s (foldl (fun cache c => alter (mark_alerted now) c.1.1 cache) (flow_cache s) found)).

(** The predicate of [retain]: the last instant is not expired. *)
Definition fresh (s : BeaconingState) (now : Z) (flow : CachedFlow) : bool :=
  match last (timestamps flow) with
  | Some t => duration_since now t <? from_secs (expiry_secs s)
  | None => false
  end.

Definition cleanup (order : gmap BeaconingKey CachedFlow -> list BeaconingKey) (now : Z) (s : BeaconingState) :
    BeaconingState :=
  let cache := filter (fun kv : BeaconingKey * CachedFlow => fresh s now kv.2 = true) (flow_cache s) in
  with_cache s
    (if max_cache_entries s <? Z.of_nat (size cache) then
       let excess := Z.of_nat (size cache) - max_cache_entries s in
       foldr delete cache (take (Z.to_nat excess) (order cache))
     else cache).

(** One turn of [run]: an observation, or a tick (analysis, then cleanup, each
    with its own clock). *)
Inductive turn : Type :=
  | Observed (now : Z) (alert : FlowObservation)
  | Tick (now_analyze now_cleanup : Z).

Record BeaconingDetector : Type := mk_detector { state : BeaconingState; detection_tx : DetectionSender }.

Definition run_turn (order : gmap BeaconingKey CachedFlow -> list BeaconingKey) (t : turn) (d : BeaconingDetector) :
    BeaconingDetector :=
  match t with
  | Observed now alert => mk_detector (record_flow now alert (state d)) (detection_tx d)
  | Tick now_analyze now_cleanup =>
      let '(events, s) := analyze order now_analyze (state d) in
      let tx := foldl (fun tx e => (send_detection_or_log tx e).2) (detection_tx d) events in
      mk_detector (cleanup order now_cleanup s) tx
  end.

(** ** What an analysis reports *)

(** The flow is due: enough observations, out of cooldown, regular. *)
Definition due (s : BeaconingState) (now : Z) (flow : CachedFlow) : Prop :=
  min_observations s <= Z.of_nat (length (timestamps flow)) /\
  (forall last, last_alerted flow = Some last -> from_secs (alert_cooldown_secs s) <= duration_since now last) /\
  flt (compute_cv (timestamps flow)) (cv_threshold s) = true.

Lemma candidate_spec (s : BeaconingState) (now : Z) (flow : CachedFlow) (cv : float) (n : Z) :
  candidate s now flow = Some (cv, n) <->
  due s now flow /\ cv = compute_cv (timestamps flow) /\ n = Z.of_nat (length (timestamps flow)).
Proof.
  unfold candidate, due. destruct (Z.ltb_spec (Z.of_nat (length (timestamps flow))) (min_observations s)).
  { split; [done|]. intros ((? & _) & _). lia. }
  destruct (last_alerted flow) as [last|].
  - destruct (Z.ltb_spec (duration_since now last) (from_secs (alert_cooldown_secs s))).
    { split; [done|]. intros ((_ & Hc & _) & _). specialize (Hc last eq_refl). lia. }
    cbv zeta. destruct (flt _ _) eqn:Hf; (split; [|intros ((_ & _ & ?) & ? & ?); congruence]); [|done].
    intros [= <- <-]. split_and!; try done. intros ? [= <-]. lia.
  - cbv zeta. destruct (flt _ _) eqn:Hf; (split; [|intros ((_ & _ & ?) & ? & ?); congruence]); [|done].
    by intros [= <- <-].
Qed.

Lemma candidates_spec (order : gmap BeaconingKey CachedFlow -> list BeaconingKey) (s : BeaconingState)
    (now : Z) (key : BeaconingKey) (cv : float) (n : Z) :
  key_order order ->
  (key, cv, n) ∈ candidates order s now <->
  exists flow, flow_cache s !! key = Some flow /\ due s now flow /\
    cv = compute_cv (timestamps flow) /\ n = Z.of_nat (length (timestamps flow)).
Proof.
  intros Hord. unfold candidates. rewrite list_elem_of_omap. split.
  - intros (k & _ & Hk). destruct (flow_cache s !! k) as [flow|] eqn:Hf; [|done].
    destruct (candidate s now flow) as [[cv' n']|] eqn:Hc; [|done]. cbn in Hk. injection Hk as <- <- <-.
    exists flow. split; [done|]. by apply candidate_spec.
  - intros (flow & Hf & Hc). apply candidate_spec in Hc. exists key. split; [|by rewrite Hf, Hc].
    rewrite (Hord (flow_cache s)). apply list_elem_of_In, in_map_iff. exists (key, flow).
    split; [done|]. apply list_elem_of_In. by apply elem_of_map_to_list.
Qed.

Lemma foldl_mark (now : Z) (found : list (BeaconingKey * float * Z)) (cache : gmap BeaconingKey CachedFlow)
    (key : BeaconingKey) :
  foldl (fun cache c => alter (mark_alerted now) c.1.1 cache) cache found !! key
    = if bool_decide (key ∈ map (fun c => c.1.1) found) then mark_alerted now <$> cache !! key else cache !! key.
Proof.
  revert cache. induction found as [|[[k cv] n] found IH]; intros cache; [done|]. cbn [foldl map fst].
  rewrite IH. destruct (decide (k = key)) as [->|Hk].
  - rewrite lookup_alter_eq, (bool_decide_eq_true_2 (key ∈ key :: _)) by (by left).
    case_bool_decide; [|done]. by destruct (cache !! key).
  - rewrite lookup_alter_ne by done. case_bool_decide as H1; case_bool_decide as H2; try done.
    + destruct H2. by right.
    + by apply elem_of_cons in H2 as [?|?].
Qed.

Lemma analyze_cache (order : gmap BeaconingKey CachedFlow -> list BeaconingKey) (now : Z) (s : BeaconingState)
    (key : BeaconingKey) (flow : CachedFlow) :
  key_order order -> flow_cache s !! key = Some flow ->
  (due s now flow -> flow_cache (analyze order now s).2 !! key = Some (mark_alerted now flow)) /\
  (~ due s now flow -> flow_cache (analyze order now s).2 !! key = Some flow).
Proof.
  intros Hord Hf. unfold analyze. cbn [snd with_cache flow_cache]. rewrite foldl_mark, Hf.
  assert (key ∈ map (fun c => c.1.1) (candidates order s now) <-> due s now flow) as Hin.
  { rewrite list_elem_of_In, in_map_iff. split.
    - intros ([[k cv] n] & Hk & Hin). cbn in Hk. subst k. apply list_elem_of_In, candidates_spec in Hin as (f & Hf' & ? & _); [|done].
      congruence.
    - intros Hd. eexists (key, _, _). split; [done|]. apply list_elem_of_In. apply candidates_spec; [done|].
      exists flow. split_and!; done. }
  case_bool_decide as Hb; (split; [intros Hd|intros Hd]); try done; tauto.
Qed.

(** An analysis reports exactly the flows that are due: at least the minimum
    of observations, no alert within the cooldown, and a coefficient of
    variation of the intervals below the threshold; it marks those and leaves
    every other flow as it was. *)
Theorem analyze_reports_due (order : gmap BeaconingKey CachedFlow -> list BeaconingKey) (now : Z) (s : BeaconingState) :
  key_order order ->
  (forall e, e ∈ (analyze order now s).1 <->
     exists key flow, flow_cache s !! key = Some flow /\ due s now flow /\
       e = beacon_event key (compute_cv (timestamps flow)) (cv_threshold s) (Z.of_nat (length (timestamps flow)))) /\
  forall key flow, flow_cache s !! key = Some flow ->
    (due s now flow -> flow_cache (analyze order now s).2 !! key = Some (mark_alerted now flow)) /\
    (~ due s now flow -> flow_cache (analyze order now s).2 !! key = Some flow).
Proof.
  intros Hord. split; [|intros; by apply analyze_cache]. intros e. unfold analyze. cbn [fst].
  rewrite list_elem_of_In, in_map_iff. split.
  - intros ([[key cv] n] & <- & Hin). apply list_elem_of_In, candidates_spec in Hin as (flow & ? & ? & -> & ->); [|done].
    by exists key, flow.
  - intros (key & flow & Hf & Hd & ->). eexists (key, _, _). split; [done|]. apply list_elem_of_In.
    apply candidates_spec; [done|]. by exists flow.
Qed.

(** ** Cooldown and bounds *)

Definition observe_all (obs : list (Z * FlowObservation)) (s : BeaconingState) : BeaconingState :=
  foldl (fun s o => record_flow o.1 o.2 s) s obs.

Lemma record_flow_alerted (now : Z) (alert : FlowObservation) (s : BeaconingState) (key : BeaconingKey) (flow : CachedFlow) :
  flow_cache s !! key = Some flow ->
  exists flow', flow_cache (record_flow now alert s) !! key = Some flow' /\ last_alerted flow' = last_alerted flow.
Proof.
  intros Hf. unfold record_flow. cbn [with_cache flow_cache]. destruct (decide (flow_key alert = key)) as [<-|Hk].
  - rewrite lookup_insert_eq, Hf. by eexists.
  - rewrite lookup_insert_ne by done. by exists flow.
Qed.

Lemma observe_all_alerted (obs : list (Z * FlowObservation)) (s : BeaconingState) (key : BeaconingKey) (flow : CachedFlow) :
  flow_cache s !! key = Some flow ->
  exists flow', flow_cache (observe_all obs s) !! key = Some flow' /\ last_alerted flow' = last_alerted flow.
Proof.
  revert s flow. induction obs as [|[now alert] obs IH]; intros s flow Hf; [by exists flow|].
  destruct (record_flow_alerted now alert s key flow Hf) as (f1 & H1 & <-). cbn [observe_all foldl]. by apply IH.
Qed.

Lemma observe_all_settings (obs : list (Z * FlowObservation)) (s : BeaconingState) :
  alert_cooldown_secs (observe_all obs s) = alert_cooldown_secs s.
Proof. revert s. induction obs as [|o obs IH]; intros s; [done|]. exact (IH (record_flow o.1 o.2 s)). Qed.

(** A flow that was reported is not reported again within the cooldown,
    whatever is observed in between. *)
Theorem no_repeat_within_cooldown (order : gmap BeaconingKey CachedFlow -> list BeaconingKey) (s : BeaconingState)
    (now now' : Z) (obs : list (Z * FlowObservation)) (key : BeaconingKey) (cv cv' : float) (n n' : Z) :
  key_order order -> (key, cv, n) ∈ candidates order s now ->
  now <= now' < now + from_secs (alert_cooldown_secs s) ->
  (key, cv', n') ∉ candidates order (observe_all obs (analyze order now s).2) now'.
Proof.
  intros Hord Hin Hnow Hin'. apply candidates_spec in Hin as (flow & Hf & Hd & _); [|done].
  apply candidates_spec in Hin' as (flow' & Hf' & Hd' & _); [|done].
  destruct (analyze_cache order now s key flow Hord Hf) as [Hm _]. specialize (Hm Hd).
  destruct (observe_all_alerted obs _ key _ Hm) as (f1 & H1 & Hl). rewrite H1 in Hf'. injection Hf' as ->.
  destruct Hd' as (_ & Hc & _). specialize (Hc now Hl). rewrite observe_all_settings in Hc.
  unfold analyze, duration_since in Hc. cbn in Hc. lia.
Qed.

(** No flow keeps more instants than its maximum. *)
Definition stamps_bounded (s : BeaconingState) : Prop :=
  map_Forall (fun _ f => Z.of_nat (length (timestamps f)) <= max_timestamps_per_flow s) (flow_cache s).

Lemma record_flow_bounded (now : Z) (alert : FlowObservation) (s : BeaconingState) :
  0 <= max_timestamps_per_flow s -> stamps_bounded s -> stamps_bounded (record_flow now alert s).
Proof.
  intros Hmax Hb. unfold stamps_bounded, record_flow. cbn [with_cache flow_cache max_timestamps_per_flow].
  apply map_Forall_insert_2; [|done]. cbn [timestamps].
  destruct (Z.ltb_spec (max_timestamps_per_flow s) (Z.of_nat (length (timestamps (default (mk_cached [] None) (flow_cache s !! flow_key alert)) ++ [now])))) as [H|H]; [|done].
  rewrite length_drop. lia.
Qed.

Lemma analyze_bounded (order : gmap BeaconingKey CachedFlow -> list BeaconingKey) (now : Z) (s : BeaconingState) :
  stamps_bounded s -> stamps_bounded (analyze order now s).2.
Proof.
  intros Hb key flow. unfold analyze. cbn [snd with_cache flow_cache max_timestamps_per_flow]. rewrite foldl_mark.
  case_bool_decide; [|by apply Hb]. destruct (flow_cache s !! key) as [f|] eqn:Hf; [|done].
  intros [= <-]. cbn. by apply (Hb key).
Qed.

Lemma cleanup_sub (order : gmap BeaconingKey CachedFlow -> list BeaconingKey) (now : Z) (s : BeaconingState)
    (key : BeaconingKey) (flow : CachedFlow) :
  flow_cache (cleanup order now s) !! key = Some flow -> flow_cache s !! key = Some flow.
Proof.
  unfold cleanup. cbn [with_cache flow_cache]. destruct (_ <? _); intros Hk; [apply lookup_foldr_delete in Hk|];
    by apply map_lookup_filter_Some in Hk as [? _].
Qed.

Lemma run_turn_bounded (order : gmap BeaconingKey CachedFlow -> list BeaconingKey) (t : turn) (d : BeaconingDetector) :
  0 <= max_timestamps_per_flow (state d) -> stamps_bounded (state d) ->
  max_timestamps_per_flow (state (run_turn order t d)) = max_timestamps_per_flow (state d) /\
  stamps_bounded (state (run_turn order t d)).
Proof.
  intros Hmax Hb. destruct t as [now alert|now1 now2]; cbn [run_turn].
  - split; [done|]. by apply record_flow_bounded.
  - pose proof (analyze_bounded order now1 (state d) Hb) as Ha. unfold analyze in *. cbn [snd] in Ha.
    split; [done|]. intros key flow Hk. apply cleanup_sub in Hk. by apply (Ha key).
Qed.

(** An alert is forgotten with its flow: after the flow expired, a new one with
    the same key is reported again although the cooldown is not over. *)
Definition sample_state : BeaconingState := mk_beaconing ∅ 3 (f64_of_ratio 3 10) 100 10 600 300.
Definition at_ (secs : Z) : turn := Observed (from_secs secs) (mk_flow "10.0.0.5" "198.51.100.7" 443 6 1 1).
Definition tick (secs : Z) : turn := Tick (from_secs secs) (from_secs secs).
Definition run_detector (turns : list turn) : BeaconingDetector :=
  foldl (fun d t => run_turn (fun m => map fst (map_to_list m)) t d)
    (mk_detector sample_state (mk_sender [] 16 true)) turns.

Lemma cooldown_lost_with_flow :
  length (in_flight (detection_tx (run_detector
    [at_ 0; at_ 10; at_ 20; tick 310; tick 610; tick 620; at_ 621; at_ 622; at_ 623; tick 625]))) = 3%nat.
Proof. by vm_compute. Qed.

(** ** Witnesses *)

Definition list_order (m : gmap BeaconingKey CachedFlow) : list BeaconingKey := map fst (map_to_list m).
Lemma list_order_ok : key_order list_order.
Proof. by intros m. Qed.

Definition regular_state : BeaconingState := state (run_detector [at_ 0; at_ 10; at_ 20]).
Definition sample_key : BeaconingKey := ("10.0.0.5", "198.51.100.7", 6, 443).

Lemma analyze_reports_due_witness :
  length (analyze list_order (from_secs 30) regular_state).1 = 1%nat /\
  forall e, e ∈ (analyze list_order (from_secs 30) regular_state).1 <->
     exists key flow, flow_cache regular_state !! key = Some flow /\ due regular_state (from_secs 30) flow /\
       e = beacon_event key (compute_cv (timestamps flow)) (cv_threshold regular_state) (Z.of_nat (length (timestamps flow))).
Proof.
  split; [by vm_compute|]. apply (analyze_reports_due list_order (from_secs 30) regular_state), list_order_ok.
Defined.

Lemma no_repeat_within_cooldown_witness :
  (sample_key, fzero, 5) ∉ candidates list_order
    (observe_all [(from_secs 40, mk_flow "10.0.0.5" "198.51.100.7" 443 6 1 1)]
      (analyze list_order (from_secs 30) regular_state).2) (from_secs 329).
Proof.
  apply (no_repeat_within_cooldown list_order regular_state (from_secs 30) (from_secs 329)
    [(from_secs 40, mk_flow "10.0.0.5" "198.51.100.7" 443 6 1 1)] sample_key fzero fzero 3 5 list_order_ok).
  - vm_compute. left.
  - vm_compute. split; [discriminate|done].
Defined.
