(* ===== verification/FlowTracker.v ===== *)
(** * Flow tracking

    User space parses the frames the kernel hands it
    (common/utils/packet_parser.rs), assigns each packet to a bidirectional
    flow, and keeps counters, packet samples, idle and active periods and bulk
    transfers per flow (core/inference/flow_tracker.rs,
    domain/detection/flow_tracker.rs, ml_detection.rs).  The cache of flows is
    moka's; it may evict an entry at any time, which is a step of its own. *)

From Stdlib Require Import ZArith Lia List.
From stdpp Require Import base list gmap sets.
From S2P Require Import Prelude Abi Parsing.

Local Open Scope Z_scope.

(** ** Packets *)

Inductive IpVersion : Type := V4 | V6.
#[export] Instance IpVersion_eq_dec : EqDecision IpVersion.
Proof. solve_decision. Defined.
#[export] Instance IpVersion_countable : Countable IpVersion.
Proof.
  apply (inj_countable' (fun v => match v with V4 => false | V6 => true end)
    (fun b : bool => if b then V6 else V4)). by intros [].
Defined.

Definition is_v6 (v : IpVersion) : bool := match v with V6 => true | V4 => false end.

Inductive Direction : Type := Ingress | Egress.
#[export] Instance Direction_eq_dec : EqDecision Direction.
Proof. solve_decision. Defined.

Record UserPacket : Type := mk_user {
  up_ip_version : IpVersion; up_protocol : Z; up_tcp_flags : Z;
  up_src_ip : bytes; up_dst_ip : bytes; up_src_port : Z; up_dst_port : Z;
  up_packet_length : Z; up_payload_length : Z; up_header_length : Z;
  up_tcp_window_size : Z; up_timestamp_us : Z; up_is_forward : bool }.

Definition with_forward (p : UserPacket) (fwd : bool) : UserPacket :=
  mk_user (up_ip_version p) (up_protocol p) (up_tcp_flags p) (up_src_ip p) (up_dst_ip p)
    (up_src_port p) (up_dst_port p) (up_packet_length p) (up_payload_length p) (up_header_length p)
    (up_tcp_window_size p) (up_timestamp_us p) fwd.

Definition ETH_HEADER_LEN : Z := 14.
Definition IPV4_MIN_HEADER_LEN : Z := 20.
Definition IPV6_HEADER_LEN : Z := 40.
Definition TCP_MIN_HEADER_LEN : Z := 20.
Definition UDP_HEADER_LEN : Z := 8.

(** [let mut ip = [0u8; 16]; ip[..4].copy_from_slice(l)] *)
Definition pad_ip (l : bytes) : bytes := (l ++ replicate 12 0)%list.

Definition parse_ipv4 (packet_data : bytes) (timestamp_us : Z) : mem (option (UserPacket * Z)) :=
  if plen packet_data <? ETH_HEADER_LEN + IPV4_MIN_HEADER_LEN then Val None
  else
    let ip := ETH_HEADER_LEN in
    let* b0 := load_u8 packet_data ip in
    if negb (Z.shiftr b0 4 =? 4) then Val None
    else
      let* protocol_byte := load_u8 packet_data (ip + 9) in
      let ihl := Z.land b0 15 * 4 in
      let* total_len := load_be16 packet_data (ip + 2) in
      if (ihl <? IPV4_MIN_HEADER_LEN) || (total_len <? ihl)
         || (plen packet_data <? ETH_HEADER_LEN + total_len) then Val None
      else
        let* src := load packet_data (ip + 12) 4 in
        let* dst := load packet_data (ip + 16) 4 in
        if total_len <? ihl + 4 then Val None
        else
          let transport := ip + ihl in
          let* src_port := load_be16 packet_data transport in
          let* dst_port := load_be16 packet_data (transport + 2) in
          let* parts :=
            (if protocol_byte =? 6 then
               if total_len <? ihl + TCP_MIN_HEADER_LEN then Val None
               else
                 let* b12 := load_u8 packet_data (transport + 12) in
                 let data_offset := Z.shiftr b12 4 * 4 in
                 if (data_offset <? TCP_MIN_HEADER_LEN) || (total_len <? ihl + data_offset) then Val None
                 else
                   let* flags := load_u8 packet_data (transport + 13) in
                   let* window := load_be16 packet_data (transport + 14) in
                   Val (Some (flags, window, data_offset, saturating_sub total_len ihl))
             else if protocol_byte =? 17 then
               if total_len <? ihl + UDP_HEADER_LEN then Val None
               else
                 let* udp_len := load_be16 packet_data (transport + 4) in
                 if (udp_len <? UDP_HEADER_LEN) || (total_len <? ihl + udp_len) then Val None
                 else Val (Some (0, 0, UDP_HEADER_LEN, udp_len))
             else Val None) in
          match parts with
          | None => Val None
          | Some (tcp_flags, tcp_window_size, header_length, transport_len) =>
              let payload_length := saturating_sub transport_len header_length in
              let payload_start := ETH_HEADER_LEN + ihl + header_length in
              Val (Some (mk_user V4 protocol_byte tcp_flags (pad_ip src) (pad_ip dst) src_port dst_port
                           total_len payload_length header_length tcp_window_size timestamp_us false,
                         payload_start))
          end.

Definition parse_ipv6 (packet_data : bytes) (timestamp_us : Z) : mem (option (UserPacket * Z)) :=
  if plen packet_data <? ETH_HEADER_LEN + IPV6_HEADER_LEN then Val None
  else
    let ip := ETH_HEADER_LEN in
    let* b0 := load_u8 packet_data ip in
    if negb (Z.shiftr b0 4 =? 6) then Val None
    else
      let* protocol_byte := load_u8 packet_data (ip + 6) in
      let* src := load packet_data (ip + 8) 16 in
      let* dst := load packet_data (ip + 24) 16 in
      let* payload_len := load_be16 packet_data (ip + 4) in
      let total_len := payload_len + IPV6_HEADER_LEN in
      if (plen packet_data <? ETH_HEADER_LEN + total_len) || (payload_len <? 4) then Val None
      else
        let transport := ip + IPV6_HEADER_LEN in
        let* src_port := load_be16 packet_data transport in
        let* dst_port := load_be16 packet_data (transport + 2) in
        let* parts :=
          (if protocol_byte =? 6 then
             if payload_len <? TCP_MIN_HEADER_LEN then Val None
             else
               let* b12 := load_u8 packet_data (transport + 12) in
               let data_offset := Z.shiftr b12 4 * 4 in
               if (data_offset <? TCP_MIN_HEADER_LEN) || (payload_len <? data_offset) then Val None
               else
                 let* flags := load_u8 packet_data (transport + 13) in
                 let* window := load_be16 packet_data (transport + 14) in
                 Val (Some (flags, window, data_offset, payload_len))
           else if protocol_byte =? 17 then
             if payload_len <? UDP_HEADER_LEN then Val None
             else
               let* udp_len := load_be16 packet_data (transport + 4) in
               if (udp_len <? UDP_HEADER_LEN) || (payload_len <? udp_len) then Val None
               else Val (Some (0, 0, UDP_HEADER_LEN, udp_len))
           else Val None) in
        match parts with
        | None => Val None
        | Some (tcp_flags, tcp_window_size, header_length, transport_len) =>
            let payload_length := saturating_sub transport_len header_length in
            let payload_start := ETH_HEADER_LEN + IPV6_HEADER_LEN + header_length in
            Val (Some (mk_user V6 protocol_byte tcp_flags src dst src_port dst_port
                         total_len payload_length header_length tcp_window_size timestamp_us false,
                       payload_start))
        end.

Definition parse_packet_at (packet_data : bytes) (timestamp_us : Z) : mem (option (UserPacket * Z)) :=
  if plen packet_data <? ETH_HEADER_LEN then Val None
  else
    let* eth_type := load_be16 packet_data 12 in
    if eth_type =? 2048 then parse_ipv4 packet_data timestamp_us
    else if eth_type =? 34525 then parse_ipv6 packet_data timestamp_us
    else Val None.

(** ** Flow keys *)

Record FlowKey : Type := mk_key {
  fk_src_ip : bytes; fk_dst_ip : bytes; fk_src_port : Z; fk_dst_port : Z;
  fk_protocol : Z; fk_ip_version : IpVersion }.

#[export] Instance FlowKey_eq_dec : EqDecision FlowKey.
Proof. solve_decision. Defined.
#[export] Instance FlowKey_countable : Countable FlowKey.
Proof.
  apply (inj_countable'
    (fun k => (fk_src_ip k, fk_dst_ip k, fk_src_port k, fk_dst_port k, fk_protocol k, fk_ip_version k))
    (fun '(a, b, c, d, e, f) => mk_key a b c d e f)). by intros [].
Defined.

Definition from_packet (p : UserPacket) : FlowKey :=
  mk_key (up_src_ip p) (up_dst_ip p) (up_src_port p) (up_dst_port p) (up_protocol p) (up_ip_version p).
Definition reverse (k : FlowKey) : FlowKey :=
  mk_key (fk_dst_ip k) (fk_src_ip k) (fk_dst_port k) (fk_src_port k) (fk_protocol k) (fk_ip_version k).

(** ** Flow data *)

Record FlowLimits : Type := mk_limits {
  max_packets_per_direction : nat; max_periods : nat; idle_threshold_us : Z;
  bulk_min_packets : Z; bulk_min_bytes : Z; idle_timeout_us : Z; terminated_timeout_us : Z }.

Record PacketData : Type := mk_pdata {
  pd_timestamp_us : Z; pd_length : Z; pd_header_length : Z; pd_payload_length : Z; pd_flags : Z }.

Record BulkState : Type := mk_bulk {
  bulk_count : Z; b_total_bytes : Z; b_total_packets : Z; b_total_duration_us : Z;
  last_bulk_bytes : Z; last_bulk_packets : Z; last_bulk_start_us : Z; last_bulk_packet_us : Z;
  in_bulk : bool }.

(** [BulkState::default()] *)
Definition default_bulk : BulkState := mk_bulk 0 0 0 0 0 0 0 0 false.

(** The counters of TCP flags. *)
Record FlagCounts : Type := mk_flags {
  fin_count : Z; syn_count : Z; rst_count : Z; psh_count : Z;
  ack_count : Z; urg_count : Z; cwe_count : Z; ece_count : Z }.

(** What a flow keeps for each of its two directions. *)
Record Side : Type := mk_side {
  packets : list PacketData; total_bytes : Z; header_bytes : Z; init_win_bytes : Z; bulk_state : BulkState }.

(** [FlowData], its [fwd_*] and [bwd_*] fields grouped by direction. *)
Record FlowData : Type := mk_flow_data {
  flow_key : FlowKey; direction : Direction; start_time_us : Z; last_time_us : Z;
  fwd : Side; bwd : Side; flags : FlagCounts;
  active_periods : list Z; idle_periods : list Z; last_packet_time : Z;
  act_data_pkt_fwd : Z; is_first_packet : bool }.

Definition new_flow (key : FlowKey) (first_packet : UserPacket) (dir : Direction) : FlowData :=
  mk_flow_data key dir (up_timestamp_us first_packet) (up_timestamp_us first_packet)
    (mk_side [] 0 0 (if up_is_forward first_packet then up_tcp_window_size first_packet else 0) default_bulk)
    (mk_side [] 0 0 (if negb (up_is_forward first_packet) then up_tcp_window_size first_packet else 0) default_bulk)
    (mk_flags 0 0 0 0 0 0 0 0) [] [] (up_timestamp_us first_packet) 0 true.

(** [+= 1] on a [u32], [+= x] on a [u64]: wrapping in release builds. *)
Definition incr32 (n : Z) : Z := wrapping_add 32 n 1.
Definition add64 (a b : Z) : Z := wrapping_add 64 a b.

Definition flag_set (fl bit : Z) : bool := negb (Z.land fl bit =? 0).
Definition count_flags (fl : Z) (c : FlagCounts) : FlagCounts :=
  let bump bit n := if flag_set fl bit then incr32 n else n in
  mk_flags (bump TCP_FIN (fin_count c)) (bump TCP_SYN (syn_count c)) (bump TCP_RST (rst_count c))
    (bump TCP_PSH (psh_count c)) (bump TCP_ACK (ack_count c)) (bump TCP_URG (urg_count c))
    (bump TCP_CWR (cwe_count c)) (bump TCP_ECE (ece_count c)).

Definition update_bulk_state (b : BulkState) (packet : PacketData) (limits : FlowLimits) : BulkState :=
  if 0 <? pd_payload_length packet then
    if negb (in_bulk b) then
      mk_bulk (bulk_count b) (b_total_bytes b) (b_total_packets b) (b_total_duration_us b)
        (pd_length packet) 1 (pd_timestamp_us packet) (pd_timestamp_us packet) true
    else
      mk_bulk (bulk_count b) (b_total_bytes b) (b_total_packets b) (b_total_duration_us b)
        (add64 (last_bulk_bytes b) (pd_length packet)) (add64 (last_bulk_packets b) 1)
        (last_bulk_start_us b) (pd_timestamp_us packet) true
  else if in_bulk b && (bulk_min_packets limits <=? last_bulk_packets b)
          && (bulk_min_bytes limits <=? last_bulk_bytes b) then
    mk_bulk (incr32 (bulk_count b)) (add64 (b_total_bytes b) (last_bulk_bytes b))
      (add64 (b_total_packets b) (last_bulk_packets b))
      (add64 (b_total_duration_us b) (saturating_sub (last_bulk_packet_us b) (last_bulk_start_us b)))
      0 0 0 0 false
  else
    mk_bulk (bulk_count b) (b_total_bytes b) (b_total_packets b) (b_total_duration_us b) 0 0 0 0 false.

(** The branch of [add_packet] for one direction. *)
Definition add_to_side (packet : UserPacket) (data : PacketData) (limits : FlowLimits) (s : Side) : Side :=
  mk_side
    (if (length (packets s) <? max_packets_per_direction limits)%nat then packets s ++ [data] else packets s)%list
    (add64 (total_bytes s) (up_packet_length packet)) (add64 (header_bytes s) (up_header_length packet))
    (if init_win_bytes s =? 0 then up_tcp_window_size packet else init_win_bytes s)
    (update_bulk_state (bulk_state s) data limits).

Definition add_packet (packet : UserPacket) (limits : FlowLimits) (f : FlowData) : FlowData :=
  let data := mk_pdata (up_timestamp_us packet) (up_packet_length packet) (up_header_length packet)
                (up_payload_length packet) (up_tcp_flags packet) in
  let counts := count_flags (up_tcp_flags packet) (flags f) in
  let iat := saturating_sub (up_timestamp_us packet) (last_packet_time f) in
  let idle :=
    if idle_threshold_us limits <? iat then
      if (length (idle_periods f) <? max_periods limits)%nat then idle_periods f ++ [iat] else idle_periods f
    else idle_periods f in
  let active :=
    if idle_threshold_us limits <? iat then active_periods f
    else if (0 <? iat) && (length (active_periods f) <? max_periods limits)%nat
    then active_periods f ++ [iat] else active_periods f in
  let act :=
    if is_first_packet f then act_data_pkt_fwd f
    else if up_is_forward packet && (0 <? up_payload_length packet) then incr32 (act_data_pkt_fwd f)
    else act_data_pkt_fwd f in
  mk_flow_data (flow_key f) (direction f) (start_time_us f) (up_timestamp_us packet)
    (if up_is_forward packet then add_to_side packet data limits (fwd f) else fwd f)
    (if up_is_forward packet then bwd f else add_to_side packet data limits (bwd f))
    counts active idle (up_timestamp_us packet) act false.

Definition duration_us (f : FlowData) : Z := saturating_sub (last_time_us f) (start_time_us f).
Definition packet_count (f : FlowData) : nat := length (packets (fwd f)) + length (packets (bwd f)).

(** ** The tracker *)

Record TrackedFlow : Type := mk_tracked { data : FlowData; last_inferred_us : Z }.

(** [max_capacity] is the bound of the cache. *)
Record FlowTracker : Type := mk_tracker {
  active : gmap FlowKey TrackedFlow; limits : FlowLimits; max_capacity : Z }.

Definition new_tracker (max_flows : Z) (limits : FlowLimits) : FlowTracker :=
  mk_tracker ∅ limits (Z.max max_flows 1).

Definition with_active (t : FlowTracker) (m : gmap FlowKey TrackedFlow) : FlowTracker :=
  mk_tracker m (limits t) (max_capacity t).

Definition update_data (f : FlowData -> FlowData) (e : TrackedFlow) : TrackedFlow :=
  mk_tracked (f (data e)) (last_inferred_us e).

(** Whose flow a first packet opens: the key and whether the packet is forward. *)
Definition initial_key (packet_key : FlowKey) (tcp_flags : Z) (is_ingress : bool) : FlowKey * bool :=
  let syn := flag_set tcp_flags TCP_SYN in
  let ack := flag_set tcp_flags TCP_ACK in
  if syn && ack then if is_ingress then (reverse packet_key, false) else (packet_key, true)
  else if syn then (packet_key, true)
  else if is_ingress then (reverse packet_key, false)
  else (packet_key, true).

Definition process_packet (packet : UserPacket) (is_ingress : bool) (t : FlowTracker) : FlowTracker :=
  let packet_key := from_packet packet in
  match active t !! packet_key with
  | Some entry =>
      let packet := with_forward packet true in
      with_active t (<[packet_key := update_data (add_packet packet (limits t)) entry]> (active t))
  | None =>
      let reversed_key := reverse packet_key in
      match active t !! reversed_key with
      | Some entry =>
          let packet := with_forward packet false in
          with_active t (<[reversed_key := update_data (add_packet packet (limits t)) entry]> (active t))
      | None =>
          let '(actual_key, is_forward) := initial_key packet_key (up_tcp_flags packet) is_ingress in
          let packet := with_forward packet is_forward in
          let initiator_direction :=
            if is_forward then if is_ingress then Ingress else Egress
            else if is_ingress then Egress else Ingress in
          let entry := mk_tracked (new_flow actual_key packet initiator_direction) 0 in
          with_active t (<[actual_key := update_data (add_packet packet (limits t)) entry]> (active t))
      end
  end.

(** [get_filtered_flow_stats], in the order in which the cache iterates. *)
Definition get_filtered_flow_stats {T} (order : gmap FlowKey TrackedFlow -> list FlowKey)
    (filter : FlowData -> bool) (convert : FlowData -> T) (t : FlowTracker) : list T :=
  omap (fun k => match active t !! k with
                 | Some e => if filter (data e) then Some (convert (data e)) else None
                 | None => None
                 end) (order (active t)).
Definition get_flow_stats {T} (order : gmap FlowKey TrackedFlow -> list FlowKey)
    (convert : FlowData -> T) (t : FlowTracker) : list T :=
  omap (fun k => (fun e => convert (data e)) <$> active t !! k) (order (active t)).

(** The loop of [get_uninferred_flows] over the cache. *)
Fixpoint take_uninferred (limit : nat) (keys : list FlowKey) (clones : list FlowData)
    (m : gmap FlowKey TrackedFlow) : list FlowData * gmap FlowKey TrackedFlow :=
  match keys with
  | [] => (clones, m)
  | k :: keys =>
      if (limit <=? length clones)%nat then (clones, m)
      else
        match m !! k with
        | Some e =>
            if last_inferred_us e <? last_time_us (data e)
            then take_uninferred limit keys (clones ++ [data e])%list
                   (<[k := mk_tracked (data e) (last_time_us (data e))]> m)
            else take_uninferred limit keys clones m
        | None => take_uninferred limit keys clones m
        end
  end.
Definition get_uninferred_flows (order : gmap FlowKey TrackedFlow -> list FlowKey) (limit : nat) (t : FlowTracker) :
    list FlowData * FlowTracker :=
  let '(clones, m) := take_uninferred limit (order (active t)) [] (active t) in (clones, with_active t m).

Definition summary_stats (t : FlowTracker) : Z * Z * Z :=
  map_fold (fun _ e '(flows, bytes, pkts) =>
    (flows + 1, add64 bytes (add64 (total_bytes (fwd (data e))) (total_bytes (bwd (data e)))),
     pkts + Z.of_nat (packet_count (data e)))) (0, 0, 0) (active t).

(** The predicate of [cleanup_stale_flows]. *)
Definition is_stale (limits : FlowLimits) (now_us : Z) (f : FlowData) : bool :=
  let idle := saturating_sub now_us (last_time_us f) in
  let is_terminated := (0 <? fin_count (flags f)) || (0 <? rst_count (flags f)) in
  if is_terminated then terminated_timeout_us limits <=? idle else idle_timeout_us limits <=? idle.

Definition cleanup_stale_flows (now_us : Z) (t : FlowTracker) : Z * FlowTracker :=
  let keys_to_remove := map fst (map_to_list
    (filter (fun kv : FlowKey * TrackedFlow => is_stale (limits t) now_us (data kv.2) = true) (active t))) in
  (Z.of_nat (length keys_to_remove), with_active t (foldr delete (active t) keys_to_remove)).

(** The cache's own eviction: an entry goes. *)
Definition evict (k : FlowKey) (t : FlowTracker) : FlowTracker := with_active t (delete k (active t)).

(** ** The parser stays inside the frame *)

(** What a parsed packet satisfies: its fields have their widths and its
    payload lies in the frame. *)
Record user_packet_ok (frame : bytes) (p : UserPacket) (payload_start : Z) : Prop := {
  ok_src : length (up_src_ip p) = 16%nat /\ bytes_ok (up_src_ip p);
  ok_dst : length (up_dst_ip p) = 16%nat /\ bytes_ok (up_dst_ip p);
  ok_proto : up_protocol p = 6 \/ up_protocol p = 17;
  ok_ports : in_width 16 (up_src_port p) /\ in_width 16 (up_dst_port p);
  ok_flags : in_width 8 (up_tcp_flags p);
  ok_window : in_width 16 (up_tcp_window_size p);
  ok_header : UDP_HEADER_LEN <= up_header_length p <= 60;
  ok_payload : 0 <= up_payload_length p /\
    payload_start + up_payload_length p <= ETH_HEADER_LEN + up_packet_length p <= plen frame;
}.

Ltac ends_load :=
  match goal with
  | |- ends (mem_bind (load _ _ _) _) _ =>
      eapply ends_bind; [apply load_ends; [done|lia..]|cbv beta; intros ? [? ?]]
  end.

Lemma length_of_plen (l : bytes) (n : nat) : plen l = Z.of_nat n -> length l = n.
Proof. unfold plen. lia. Qed.

Lemma pad_ip_ok (l : bytes) : bytes_ok l -> plen l = 4 -> length (pad_ip l) = 16%nat /\ bytes_ok (pad_ip l).
Proof.
  intros Hok Hl. unfold pad_ip. split.
  - rewrite length_app, length_replicate. unfold plen in Hl. lia.
  - apply Forall_app. split; [done|]. apply Forall_replicate. unfold byte_ok. lia.
Qed.

Lemma shiftr_4_bound (b : Z) : 0 <= b < 256 -> 0 <= Z.shiftr b 4 <= 15.
Proof.
  intros [H0 H1]. rewrite Z.shiftr_div_pow2 by lia. change (2 ^ 4) with 16. split; [by apply Z.div_pos|].
  assert (b / 16 < 16) by (apply Z.div_lt_upper_bound; lia). lia.
Qed.

Lemma land_15_nonneg (b : Z) : 0 <= b -> 0 <= Z.land b 15.
Proof. intros. apply Z.land_nonneg. by left. Qed.

Definition parsed_ok (frame : bytes) (r : option (UserPacket * Z)) : Prop :=
  forall p n, r = Some (p, n) -> user_packet_ok frame p n.

(** The transport part of both parsers. *)
Definition parts_ok (proto bound : Z) (r : option (Z * Z * Z * Z)) : Prop :=
  forall fl win hl tl, r = Some (fl, win, hl, tl) ->
    (proto = 6 \/ proto = 17) /\ in_width 8 fl /\ in_width 16 win /\ 8 <= hl <= 60 /\ hl <= tl <= bound.

(** A read whose bounds use the data offset just read. *)
Ltac offset_bounds :=
  repeat match goal with
  | H : 0 <= ?b < 256 |- context [Z.shiftr ?b 4] =>
      lazymatch goal with
      | _ : 0 <= Z.shiftr b 4 <= 15 |- _ => fail
      | _ => pose proof (shiftr_4_bound b H)
      end
  end.
Ltac finish_parts :=
  intros ? ? ? ? ?; simplify_eq; unfold in_width, pow2, saturating_sub in *;
  repeat match goal with |- _ /\ _ => split end; first [lia | by auto].

Lemma parse_ipv4_ends (frame : bytes) (ts : Z) : bytes_ok frame -> ends (parse_ipv4 frame ts) (parsed_ok frame).
Proof.
  intros Hok. unfold parse_ipv4, ETH_HEADER_LEN, IPV4_MIN_HEADER_LEN, TCP_MIN_HEADER_LEN, UDP_HEADER_LEN.
  repeat first [ends_step | ends_load]; try done.
  match goal with |- context [Z.land ?b 15] => set (ihl := Z.land b 15 * 4) in * end.
  match goal with |- context [if ?x =? 6 then if ?t <? ihl + 20 then _ else _ else _] =>
    apply (ends_bind _ _ (parts_ok x (t - ihl))) end.
  - repeat first [ends_step; offset_bounds]; try done; finish_parts.
  - intros [[[[fl win] hl] tl]|] Hparts; [|by apply ends_val]. apply ends_val. intros p n [= <- <-].
    destruct (Hparts _ _ _ _ eq_refl) as (Hproto & Hfl & Hwin & Hhl & Htl).
    constructor; cbn; unfold in_width, pow2, saturating_sub, UDP_HEADER_LEN, ETH_HEADER_LEN in *; try lia; try done;
      by apply pad_ip_ok.
Qed.

Lemma parse_ipv6_ends (frame : bytes) (ts : Z) : bytes_ok frame -> ends (parse_ipv6 frame ts) (parsed_ok frame).
Proof.
  intros Hok. unfold parse_ipv6, ETH_HEADER_LEN, IPV6_HEADER_LEN, TCP_MIN_HEADER_LEN, UDP_HEADER_LEN.
  repeat first [ends_step | ends_load]; try done.
  match goal with |- context [if ?x =? 6 then if ?t <? 20 then _ else _ else _] =>
    apply (ends_bind _ _ (parts_ok x t)) end.
  - repeat first [ends_step; offset_bounds]; try done; finish_parts.
  - intros [[[[fl win] hl] tl]|] Hparts; [|by apply ends_val]. apply ends_val. intros p n [= <- <-].
    destruct (Hparts _ _ _ _ eq_refl) as (Hproto & Hfl & Hwin & Hhl & Htl).
    constructor; cbn; unfold in_width, pow2, saturating_sub, UDP_HEADER_LEN, ETH_HEADER_LEN in *; try lia; try done;
      (split; [by apply length_of_plen|done]).
Qed.

(** User space parses any frame without an index out of range; what it
    returns has fields within their widths, TCP or UDP as protocol, and a
    payload that lies inside the frame. *)
Theorem parse_packet_at_safe (frame : bytes) (timestamp_us : Z) :
  bytes_ok frame ->
  exists r, parse_packet_at frame timestamp_us = Val r /\
    forall p payload_start, r = Some (p, payload_start) -> user_packet_ok frame p payload_start.
Proof.
  intros Hok.
  assert (ends (parse_packet_at frame timestamp_us) (parsed_ok frame)) as (r & Hr & Hp).
  { unfold parse_packet_at, ETH_HEADER_LEN. repeat ends_step; [done|by apply parse_ipv4_ends|by apply parse_ipv6_ends|done]. }
  by exists r.
Qed.

Lemma parse_packet_at_safe_witness :
  let frame := (replicate 12 2 ++ [8; 0] ++ [69; 0; 0; 30; 0; 0; 0; 0; 64; 17; 0; 0; 10; 0; 0; 1; 10; 0; 0; 2]
                ++ [4; 210; 0; 53; 0; 10; 0; 0] ++ [1; 2])%list in
  (exists p, parse_packet_at frame 7 = Val (Some (p, 42))) /\
  exists r, parse_packet_at frame 7 = Val r /\
    forall p payload_start, r = Some (p, payload_start) -> user_packet_ok frame p payload_start.
Proof.
  split; [eexists; vm_compute; reflexivity|]. apply parse_packet_at_safe.
  apply (bool_decide_unpack _). by vm_compute.
Defined.

(** ** Every packet is accounted to its conversation *)

Lemma reverse_reverse (k : FlowKey) : reverse (reverse k) = k.
Proof. by destruct k. Qed.

Lemma reverse_inj (k j : FlowKey) : reverse k = reverse j -> k = j.
Proof. intros H. by rewrite <- (reverse_reverse k), H, reverse_reverse. Qed.

Definition traffic : Type := list (UserPacket * bool).

(** The packets, oldest first, with the side they came in on. *)
Definition process_all (ps : traffic) (t : FlowTracker) : FlowTracker :=
  foldl (fun t p => process_packet p.1 p.2 t) t ps.

(** Bytes of the packets sent with exactly this key. *)
Fixpoint bytes_sent (ps : traffic) (k : FlowKey) : Z :=
  match ps with
  | [] => 0
  | p :: ps => (if bool_decide (from_packet p.1 = k) then up_packet_length p.1 else 0) + bytes_sent ps k
  end.

Lemma bytes_sent_app (ps qs : traffic) (k : FlowKey) : bytes_sent (ps ++ qs) k = bytes_sent ps k + bytes_sent qs k.
Proof. induction ps as [|p ps IH]; [done|]. cbn. rewrite IH. lia. Qed.

Lemma bytes_sent_none (ps : traffic) (k : FlowKey) :
  (forall p, p ∈ ps -> from_packet p.1 <> k) -> bytes_sent ps k = 0.
Proof.
  induction ps as [|p ps IH]; [done|]. intros H. cbn. rewrite bool_decide_eq_false_2 by (apply H; by left).
  rewrite IH; [done|]. intros q Hq. apply H. by right.
Qed.

Lemma add64_wrap (a b : Z) : add64 (wrap 64 a) b = wrap 64 (a + b).
Proof. unfold add64, wrapping_add, wrap. by rewrite Zplus_mod_idemp_l. Qed.

(** The flows of the tracker account for the packets [ps]. *)
Record accounted (ps : traffic) (t : FlowTracker) : Prop := {
  acc_key : forall k e, active t !! k = Some e -> flow_key (data e) = k;
  acc_one : forall k e, active t !! k = Some e -> reverse k <> k -> active t !! reverse k = None;
  acc_fwd : forall k e, active t !! k = Some e -> reverse k <> k ->
    total_bytes (fwd (data e)) = wrap 64 (bytes_sent ps k) /\
    total_bytes (bwd (data e)) = wrap 64 (bytes_sent ps (reverse k));
  acc_all : forall p, p ∈ ps ->
    is_Some (active t !! from_packet p.1) \/ is_Some (active t !! reverse (from_packet p.1));
}.

Lemma add_packet_key (p : UserPacket) (l : FlowLimits) (f : FlowData) : flow_key (add_packet p l f) = flow_key f.
Proof. done. Qed.

Lemma add_packet_bytes (p : UserPacket) (b : bool) (l : FlowLimits) (f : FlowData) :
  total_bytes (fwd (add_packet (with_forward p b) l f))
    = (if b then add64 (total_bytes (fwd f)) (up_packet_length p) else total_bytes (fwd f)) /\
  total_bytes (bwd (add_packet (with_forward p b) l f))
    = (if b then total_bytes (bwd f) else add64 (total_bytes (bwd f)) (up_packet_length p)).
Proof. by destruct b. Qed.

Lemma process_packet_limits (p : UserPacket) (ing : bool) (t : FlowTracker) :
  limits (process_packet p ing t) = limits t.
Proof.
  unfold process_packet. destruct (active t !! from_packet p); [done|].
  destruct (active t !! reverse (from_packet p)); [done|]. by destruct (initial_key _ _ _).
Qed.

(** Where a packet goes: the map gains or updates one entry, under its own key
    as a forward packet or under the reverse as a backward one. *)
Lemma process_packet_entry (p : UserPacket) (ing : bool) (t : FlowTracker) :
  let k := from_packet p in
  exists e b,
    let key := if b : bool then k else reverse k in
    active (process_packet p ing t)
      = <[key := update_data (add_packet (with_forward p b) (limits t)) e]> (active t) /\
    ((active t !! key = Some e /\ (b = false -> active t !! k = None)) \/
     (active t !! k = None /\ active t !! reverse k = None /\
      exists dir, e = mk_tracked (new_flow key (with_forward p b) dir) 0)).
Proof.
  cbv zeta. unfold process_packet. destruct (active t !! from_packet p) as [e|] eqn:Hk.
  { exists e, true. split; [done|]. by left. }
  destruct (active t !! reverse (from_packet p)) as [e|] eqn:Hr.
  { exists e, false. split; [done|]. by left. }
  assert (exists b, initial_key (from_packet p) (up_tcp_flags p) ing
    = ((if b : bool then from_packet p else reverse (from_packet p)), b)) as [b ->].
  { unfold initial_key. by_cases; first [by exists true | by exists false]. }
  exists (mk_tracked (new_flow (if b then from_packet p else reverse (from_packet p)) (with_forward p b)
    (if b then if ing then Ingress else Egress else if ing then Egress else Ingress)) 0), b.
  split; [done|]. right. split_and!; [done..|]. by eexists.
Qed.

Lemma process_packet_accounted (ps : traffic) (p : UserPacket) (ing : bool) (t : FlowTracker) :
  accounted ps t -> accounted (ps ++ [(p, ing)]) (process_packet p ing t).
Proof.
  intros [Hkey Hone Hsum Hall]. destruct (process_packet_entry p ing t) as (e & b & Hact & Hcase).
  set (k0 := from_packet p) in *. set (key := if b then k0 else reverse k0) in *. cbv zeta in Hact, Hcase.
  assert (flow_key (data e) = key) as He.
  { destruct Hcase as [(He & _)|(_ & _ & dir & ->)]; [by apply Hkey|done]. }
  (* the other orientation of the updated key is absent *)
  assert (reverse key <> key -> active t !! reverse key = None) as Hrev.
  { intros Hne. destruct Hcase as [(He' & _)|(H1 & H2 & _)]; [by apply (Hone key e)|].
    unfold key in *. destruct b; [done|by rewrite reverse_reverse]. }
  (* what the entry had counted so far *)
  assert (reverse key <> key ->
    total_bytes (fwd (data e)) = wrap 64 (bytes_sent ps key) /\
    total_bytes (bwd (data e)) = wrap 64 (bytes_sent ps (reverse key))) as Hbefore.
  { intros Hne. destruct Hcase as [(He' & _)|(H1 & H2 & dir & ->)]; [by apply Hsum|]. cbn.
    assert (forall q, q ∈ ps -> from_packet q.1 <> k0 /\ from_packet q.1 <> reverse k0) as Hno.
    { intros q Hq. destruct (Hall q Hq) as [[x Hx]|[x Hx]]; split; intros Heq; rewrite Heq, ?reverse_reverse in Hx; congruence. }
    rewrite !bytes_sent_none; [done| |];
      (intros q Hq; destruct (Hno q Hq); unfold key; by destruct b; rewrite ?reverse_reverse). }
  constructor; rewrite Hact.
  - intros k e' [[<- <-]|[Hk He']]%lookup_insert_Some; [done|by apply Hkey].
  - intros k e' [[<- <-]|[Hk He']]%lookup_insert_Some Hne.
    + rewrite lookup_insert_ne by done. by apply Hrev.
    + rewrite lookup_insert_ne; [by apply (Hone k e')|]. intros Heq. rewrite Heq, reverse_reverse in Hrev.
      rewrite Hrev in He'; [done|]. congruence.
  - intros k e' [[<- <-]|[Hk He']]%lookup_insert_Some Hne; rewrite !bytes_sent_app; cbn [bytes_sent fst].
    + destruct (Hbefore Hne) as [Hf Hb]. cbn [data update_data].
      destruct (add_packet_bytes p b (limits t) (data e)) as [-> ->]. fold k0. unfold key in *. destruct b.
      * rewrite bool_decide_eq_true_2, (bool_decide_eq_false_2 (k0 = reverse k0)), Hf, Hb, add64_wrap by congruence.
        split; f_equal; lia.
      * rewrite reverse_reverse in *. rewrite (bool_decide_eq_false_2 (k0 = reverse k0)), bool_decide_eq_true_2, Hf, Hb, add64_wrap by congruence.
        split; f_equal; lia.
    + destruct (Hsum k e' He' Hne) as [-> ->]. fold k0.
      assert (k0 <> k /\ k0 <> reverse k) as [H1 H2].
      { assert (reverse k <> key) as Hrk.
        { intros Heq. rewrite <- Heq, reverse_reverse in Hrev. rewrite Hrev in He'; [done|]. congruence. }
        unfold key in *. destruct b; [split; congruence|]. split; intros ->; [done|].
        by rewrite reverse_reverse in Hk. }
      rewrite !bool_decide_eq_false_2 by done. split; f_equal; lia.
  - intros q [Hq|Hq]%elem_of_app.
    + destruct (Hall q Hq) as [[x Hx]|[x Hx]]; [left|right];
        destruct (decide (key = from_packet q.1)), (decide (key = reverse (from_packet q.1)));
        rewrite lookup_insert; case_decide; by eauto.
    + apply list_elem_of_singleton in Hq as ->. cbn [fst]. fold k0. unfold key. destruct b; [left|right];
        by rewrite lookup_insert_eq.
Qed.

Lemma process_all_accounted (ps qs : traffic) (t : FlowTracker) :
  accounted ps t -> accounted (ps ++ qs) (process_all qs t).
Proof.
  revert ps t. induction qs as [|[p ing] qs IH]; intros ps t Ha; [by rewrite app_nil_r|].
  cbn [process_all foldl]. replace (ps ++ (p, ing) :: qs) with ((ps ++ [(p, ing)]) ++ qs) by (by rewrite <- app_assoc).
  apply IH. by apply process_packet_accounted.
Qed.

(** C27: As long as the cache evicts nothing, a tracker accounts for every packet:
    each conversation has one flow, whichever side sent first, and its forward
    and backward bytes are those sent in the two directions (modulo 2^64). *)
Theorem tracker_accounts_all (max_flows : Z) (l : FlowLimits) (ps : traffic) :
  let t := process_all ps (new_tracker max_flows l) in
  (forall p, p ∈ ps -> is_Some (active t !! from_packet p.1) \/ is_Some (active t !! reverse (from_packet p.1))) /\
  forall k e, active t !! k = Some e -> reverse k <> k ->
    active t !! reverse k = None /\
    total_bytes (fwd (data e)) = wrap 64 (bytes_sent ps k) /\
    total_bytes (bwd (data e)) = wrap 64 (bytes_sent ps (reverse k)).
Proof.
  cbv zeta. assert (accounted ps (process_all ps (new_tracker max_flows l))) as [_ Hone Hsum Hall].
  { apply (process_all_accounted [] ps). constructor; cbn; try (intros k e Hk; by rewrite lookup_empty in Hk).
    intros p Hp. by apply elem_of_nil in Hp. }
  split; [done|]. intros k e Hk Hne. split; [by apply (Hone k e)|by apply Hsum].
Qed.

(** ** Bounds, cleanup and orientation *)

Definition side_bounded (l : FlowLimits) (s : Side) : Prop :=
  (length (packets s) <= max_packets_per_direction l)%nat.
Definition flow_bounded (l : FlowLimits) (f : FlowData) : Prop :=
  side_bounded l (fwd f) /\ side_bounded l (bwd f) /\
  (length (active_periods f) <= max_periods l)%nat /\ (length (idle_periods f) <= max_periods l)%nat.

Lemma add_packet_bounded (p : UserPacket) (l : FlowLimits) (f : FlowData) :
  flow_bounded l f -> flow_bounded l (add_packet p l f).
Proof.
  intros (Hf & Hb & Ha & Hi). unfold flow_bounded, side_bounded in *.
  assert (forall s d, (length (packets s) <= max_packets_per_direction l)%nat ->
    (length (packets (add_to_side p d l s)) <= max_packets_per_direction l)%nat) as Hside.
  { intros s d Hs. unfold add_to_side. cbn [packets]. destruct (Nat.ltb_spec (length (packets s)) (max_packets_per_direction l)); [|done].
    rewrite length_app. simpl. lia. }
  unfold add_packet. cbn [fwd bwd active_periods idle_periods]. split_and!.
  - destruct (up_is_forward p); auto.
  - destruct (up_is_forward p); auto.
  - destruct (_ <? _); [done|]. destruct (_ && _) eqn:Hc; [|done]. bool_to_prop.
    rewrite length_app. simpl. match goal with H : (_ <? _)%nat = true |- _ => apply Nat.ltb_lt in H end. lia.
  - destruct (_ <? _); [|done]. destruct (Nat.ltb_spec (length (idle_periods f)) (max_periods l)); [|done].
    rewrite length_app. simpl. lia.
Qed.

Lemma process_packet_bounded (p : UserPacket) (ing : bool) (t : FlowTracker) :
  map_Forall (fun _ e => flow_bounded (limits t) (data e)) (active t) ->
  map_Forall (fun _ e => flow_bounded (limits t) (data e)) (active (process_packet p ing t)).
Proof.
  intros Hall. destruct (process_packet_entry p ing t) as (e & b & -> & Hcase). apply map_Forall_insert_2; [|done].
  apply add_packet_bounded. destruct Hcase as [(He & _)|(_ & _ & dir & ->)]; [by eapply Hall|].
  unfold flow_bounded, side_bounded. cbn. lia.
Qed.

(** Cleanup removes the stale flows and no other. *)
Lemma foldr_delete_lookup {A} (ks : list FlowKey) (m : gmap FlowKey A) (k : FlowKey) :
  foldr delete m ks !! k = if bool_decide (k ∈ ks) then None else m !! k.
Proof.
  induction ks as [|j ks IH]; [done|]. cbn [foldr]. destruct (decide (j = k)) as [->|Hj].
  - by rewrite lookup_delete_eq, (bool_decide_eq_true_2 (k ∈ k :: ks)) by (by left).
  - rewrite lookup_delete_ne, IH by done. case_bool_decide as H1; case_bool_decide as H2; try done.
    + destruct H2. by right.
    + by apply elem_of_cons in H2 as [->|?].
Qed.

Lemma cleanup_removes_stale (now_us : Z) (t : FlowTracker) (k : FlowKey) :
  active (cleanup_stale_flows now_us t).2 !! k
    = (e ← active t !! k; if is_stale (limits t) now_us (data e) then None else Some e).
Proof.
  unfold cleanup_stale_flows. cbn [snd with_active active]. rewrite foldr_delete_lookup.
  assert (k ∈ map fst (map_to_list (filter (fun kv : FlowKey * TrackedFlow =>
      is_stale (limits t) now_us (data kv.2) = true) (active t)))
    <-> exists e, active t !! k = Some e /\ is_stale (limits t) now_us (data e) = true) as Hin.
  { rewrite list_elem_of_In, in_map_iff. split.
    - intros ([k' e] & <- & Hin). apply list_elem_of_In, elem_of_map_to_list in Hin.
      apply map_lookup_filter_Some in Hin as [? ?]. by exists e.
    - intros (e & He & Hs). exists (k, e). split; [done|]. apply list_elem_of_In, elem_of_map_to_list.
      by apply map_lookup_filter_Some. }
  case_bool_decide as Hb.
  - apply Hin in Hb as (e & -> & Hs). cbn. by rewrite Hs.
  - destruct (active t !! k) as [e|] eqn:He; [|done]. cbn. destruct (is_stale _ _ _) eqn:Hs; [|done].
    destruct Hb. apply Hin. by exists e.
Qed.

(** An inferred flow is not inferred again before its next packet. *)
Lemma take_uninferred_limit (limit : nat) (keys : list FlowKey) (clones : list FlowData) (m : gmap FlowKey TrackedFlow) :
  (length clones <= limit)%nat -> (length (take_uninferred limit keys clones m).1 <= limit)%nat.
Proof.
  revert clones m. induction keys as [|k keys IH]; intros clones m Hl; [done|]. cbn [take_uninferred].
  destruct (Nat.leb_spec limit (length clones)); [done|]. destruct (m !! k); [|by apply IH].
  destruct (_ <? _); [|by apply IH]. apply IH. rewrite length_app. simpl. lia.
Qed.

(** The flow a handshake opens: a SYN opens the sender's flow; the SYN-ACK that
    answers it, when the SYN was not seen, opens the same flow on the ingress
    side, but the responder's own flow on the egress side, which turns the roles
    of the two hosts around. *)
Lemma syn_ack_orientation (k : FlowKey) :
  let syn_ack := Z.lor TCP_SYN TCP_ACK in
  initial_key k TCP_SYN true = (k, true) /\ initial_key k TCP_SYN false = (k, true) /\
  initial_key (reverse k) syn_ack true = (k, false) /\
  initial_key (reverse k) syn_ack false = (reverse k, true).
Proof. cbv zeta. unfold initial_key. cbn. by rewrite reverse_reverse. Qed.
