(* ===== verification/Features.v ===== *)
(** * Feature extraction

    The statistics of a flow the detection models see: one pass over packets,
    inter-arrival times and periods ([FeatureStats::compute]) and a registry of
    getters under the names the training data sets use
    (domain/detection/feature_extractor.rs, flow_features.rs).  Floats are the
    executable binary64 of [Float]. *)

From Stdlib Require Import ZArith Lia List String Sorting.Sorted.
From Corelib Require Import SpecFloat.
From stdpp Require Import base list gmap sets strings sorting.
From S2P Require Import Prelude Abi RStr Float FlowTracker.

Local Open Scope string_scope.
Local Open Scope Z_scope.

Definition fzero : float := S754_zero false.

(** ** Streaming statistics *)

(** The fields of [StreamingStats]. *)
Record StreamingStats : Type := mk_streaming {
  ss_count : Z; ss_min : float; ss_max : float; ss_mean : float; ss_m2 : float }.

Definition new_streaming : StreamingStats :=
  mk_streaming 0 (S754_infinity false) (S754_infinity true) fzero fzero.

Definition push (s : StreamingStats) (x : float) : StreamingStats :=
  let count := ss_count s + 1 in
  let min := if flt x (ss_min s) then x else ss_min s in
  let max := if fgt x (ss_max s) then x else ss_max s in
  let delta := f64_sub x (ss_mean s) in
  let mean := f64_add (ss_mean s) (f64_div delta (f64_of_Z count)) in
  let delta2 := f64_sub x mean in
  mk_streaming count min max mean (f64_add (ss_m2 s) (f64_mul delta delta2)).

(** [(max, min, mean, std)] *)
Definition finalize (s : StreamingStats) : float * float * float * float :=
  if ss_count s =? 0 then (fzero, fzero, fzero, fzero)
  else
    let variance := if 1 <? ss_count s then f64_div (ss_m2 s) (f64_of_Z (ss_count s - 1)) else fzero in
    (ss_max s, ss_min s, ss_mean s, f64_sqrt variance).

Definition push_all (l : list float) : StreamingStats := fold_left push l new_streaming.
Definition stats_of (l : list Z) : float * float * float * float := finalize (push_all (map f64_of_Z l)).

(** ** Inter-arrival times *)

Definition packet_iat (prev current : PacketData) : Z :=
  saturating_sub (pd_timestamp_us current) (pd_timestamp_us prev).

(** [windows(2)] mapped with [packet_iat]. *)
Fixpoint iats (packets : list PacketData) : list Z :=
  match packets with
  | p :: (q :: _) as rest => packet_iat p q :: iats rest
  | _ => []
  end.
Definition compute_iats (packets : list PacketData) : list float := map f64_of_Z (iats packets).

(** [(total, max, min, mean, std)] *)
Definition iat_stats_from_iter (values : list float) : float * float * float * float * float :=
  let '(stats, total) :=
    fold_left (fun '(stats, total) value => (push stats value, f64_add total value)) values
      (new_streaming, fzero) in
  let '(max, min, mean, std) := finalize stats in
  (total, max, min, mean, std).
Definition iat_stats (values : list float) : float * float * float * float * float :=
  iat_stats_from_iter values.

(** Push the gap to the previous instant, if there is one. *)
Definition push_gap (prev_ts : option Z) (ts : Z) (stats : StreamingStats) : StreamingStats :=
  match prev_ts with
  | Some prev => push stats (f64_of_Z (saturating_sub ts prev))
  | None => stats
  end.

(** The merging loop of [compute_flow_iat_stats] over the two directions. *)
Fixpoint flow_iat_loop (fi : list Z) : list Z -> option Z -> StreamingStats -> StreamingStats :=
  fix go (bi : list Z) (prev_ts : option Z) (stats : StreamingStats) {struct bi} :=
    match fi, bi with
    | f :: fi', b :: bi' =>
        if f <=? b then flow_iat_loop fi' bi (Some f) (push_gap prev_ts f stats)
        else go bi' (Some b) (push_gap prev_ts b stats)
    | f :: fi', [] => flow_iat_loop fi' [] (Some f) (push_gap prev_ts f stats)
    | [], b :: bi' => go bi' (Some b) (push_gap prev_ts b stats)
    | [], [] => stats
    end.

Definition compute_flow_iat_stats (fwd_packets bwd_packets : list PacketData) : float * float * float * float :=
  let stats := flow_iat_loop (map pd_timestamp_us fwd_packets) (map pd_timestamp_us bwd_packets) None new_streaming in
  if ss_count stats =? 0 then (fzero, fzero, fzero, fzero) else finalize stats.

(** ** Skewness *)

(** [f64::total_cmp] on the values that occur (NaN above all others). *)
Definition total_le (a b : float) : bool :=
  is_nan b || (negb (is_nan a) && (flt a b || (feq a b &&
    match a, b with S754_zero false, S754_zero true => false | _, _ => true end))).

(** [select_nth_unstable_by(i, total_cmp)]: a permutation with nothing greater
    before position [i] and nothing smaller after it; out of range it panics. *)
Class SelectFloat : Type := select_float : nat -> list float -> list float.
Class SelectFloatLaws (F : SelectFloat) : Prop := {
  select_float_perm : forall n l, Permutation (select_float n l) l;
  select_float_before : forall n l x y, (n < length l)%nat ->
    x ∈ take n (select_float n l) -> select_float n l !! n = Some y -> total_le x y = true;
  select_float_after : forall n l x y, (n < length l)%nat ->
    x ∈ drop (S n) (select_float n l) -> select_float n l !! n = Some y -> total_le y x = true;
}.

Section Skewness.
Context `{Sel : SelectFloat}.

(** [None] is the panic of an index or of a selection out of range. *)
Definition select_at (i : nat) (l : list float) : option (list float) :=
  if (i <? length l)%nat then Some (select_float i l) else None.

Definition compute_bowley_skewness (values : list float) : option float :=
  let n := length values in
  if (n <? 4)%nat then Some fzero
  else
    let i_q1 := (n / 4)%nat in
    let i_q2 := (n / 2)%nat in
    let i_q3 := (3 * n / 4)%nat in
    let! values := select_at i_q2 values else None in
    let! q2 := values !! i_q2 else None in
    (* values[..i_q2] *)
    let! below := select_at i_q1 (take i_q2 values) else None in
    let values := (below ++ drop i_q2 values)%list in
    let! q1 := values !! i_q1 else None in
    let offset := (i_q2 + 1)%nat in
    if (i_q3 <? offset)%nat then None
    else
      let local_idx := (i_q3 - offset)%nat in
      let! above := select_at local_idx (drop offset values) else None in
      let values := (take offset values ++ above)%list in
      let! q3 := values !! i_q3 else None in
      let iqr := f64_sub q3 q1 in
      Some (if fle iqr fzero then fzero
            else f64_div (f64_sub (f64_add q3 q1) (f64_mul (f64_of_Z 2) q2)) iqr).
End Skewness.

(** ** The statistics of a flow *)

Record FeatureStats : Type := mk_stats {
  fs_dst_port : float; fs_protocol : float; fs_duration_us : float; fs_fwd_count : float;
  fs_bwd_count : float; fs_total_count : float; fs_fwd_total_bytes : float;
  fs_bwd_total_bytes : float; fs_total_bytes : float; fs_duration_s : float;
  fs_fwd_len_max : float; fs_fwd_len_min : float; fs_fwd_len_mean : float;
  fs_fwd_len_std : float; fs_bwd_len_max : float; fs_bwd_len_min : float;
  fs_bwd_len_mean : float; fs_bwd_len_std : float; fs_all_len_max : float;
  fs_all_len_min : float; fs_all_len_mean : float; fs_all_len_std : float;
  fs_flow_iat_max : float; fs_flow_iat_min : float; fs_flow_iat_mean : float;
  fs_flow_iat_std : float; fs_fwd_iat_total : float; fs_fwd_iat_max : float;
  fs_fwd_iat_min : float; fs_fwd_iat_mean : float; fs_fwd_iat_std : float;
  fs_bwd_iat_total : float; fs_bwd_iat_max : float; fs_bwd_iat_min : float;
  fs_bwd_iat_mean : float; fs_bwd_iat_std : float; fs_fwd_psh : float; fs_bwd_psh : float;
  fs_fwd_urg : float; fs_bwd_urg : float; fs_fwd_header_bytes : float;
  fs_bwd_header_bytes : float; fs_fin_count : float; fs_syn_count : float; fs_rst_count : float;
  fs_psh_count : float; fs_ack_count : float; fs_urg_count : float; fs_cwe_count : float;
  fs_ece_count : float; fs_fwd_avg_bytes_bulk : float; fs_fwd_avg_packets_bulk : float;
  fs_fwd_avg_bulk_rate : float; fs_bwd_avg_bytes_bulk : float; fs_bwd_avg_packets_bulk : float;
  fs_bwd_avg_bulk_rate : float; fs_init_win_bytes_fwd : float; fs_init_win_bytes_bwd : float;
  fs_act_data_pkt_fwd : float; fs_min_seg_size_forward : float; fs_active_max : float;
  fs_active_min : float; fs_active_mean : float; fs_active_std : float; fs_idle_max : float;
  fs_idle_min : float; fs_idle_mean : float; fs_idle_std : float; fs_fwd_bwd_bytes_ratio : float;
  fs_fwd_iat_skewness : float }.

(** The closure [safe_div] of [compute], and [reg_safe_div]. *)
Definition reg_safe_div (a b : float) : float := if fgt b fzero then f64_div a b else fzero.

(** The least header length, [min_by(total_cmp)]; 0 without packets. *)
Definition min_by_total (l : list float) : float :=
  match l with
  | [] => fzero
  | x :: l => fold_left (fun m y => if total_le m y then m else y) l x
  end.

Definition count_flag (bit : Z) (packets : list PacketData) : float :=
  f64_of_Z (Z.of_nat (length (filter (fun p => flag_set (pd_flags p) bit = true) packets))).

(** Bytes per bulk, packets per bulk, bytes per second of bulk. *)
Definition bulk_rates (b : BulkState) : float * float * float :=
  (reg_safe_div (f64_of_Z (b_total_bytes b)) (f64_of_Z (bulk_count b)),
   reg_safe_div (f64_of_Z (b_total_packets b)) (f64_of_Z (bulk_count b)),
   reg_safe_div (f64_of_Z (b_total_bytes b))
     (f64_div (f64_of_Z (b_total_duration_us b)) (f64_of_Z 1000000))).

(** [duration_s]: one microsecond instead of zero. *)
Definition seconds_of (duration_us : float) : float :=
  let s := f64_div duration_us (f64_of_Z 1000000) in
  if fgt s fzero then s else f64_of_ratio 1 1000000.

Section Compute.
Context `{Sel : SelectFloat}.

Definition compute (flow : FlowData) : option FeatureStats :=
  let fwd_packets := packets (fwd flow) in
  let bwd_packets := packets (bwd flow) in
  let fwd_count := f64_of_Z (Z.of_nat (length fwd_packets)) in
  let bwd_count := f64_of_Z (Z.of_nat (length bwd_packets)) in
  let total_count := f64_add fwd_count bwd_count in
  let duration := f64_of_Z (duration_us flow) in
  let duration_s := seconds_of duration in
  let fwd_total_bytes := f64_of_Z (total_bytes (fwd flow)) in
  let bwd_total_bytes := f64_of_Z (total_bytes (bwd flow)) in
  let total := f64_add fwd_total_bytes bwd_total_bytes in
  let '(fwd_len_max, fwd_len_min, fwd_len_mean, fwd_len_std) := stats_of (map pd_payload_length fwd_packets) in
  let '(bwd_len_max, bwd_len_min, bwd_len_mean, bwd_len_std) := stats_of (map pd_payload_length bwd_packets) in
  let '(all_len_max, all_len_min, all_len_mean, all_len_std) :=
    stats_of (map pd_payload_length (fwd_packets ++ bwd_packets)%list) in
  let '(flow_iat_max, flow_iat_min, flow_iat_mean, flow_iat_std) :=
    compute_flow_iat_stats fwd_packets bwd_packets in
  let fwd_iats := compute_iats fwd_packets in
  let '(fwd_iat_total, fwd_iat_max, fwd_iat_min, fwd_iat_mean, fwd_iat_std) := iat_stats fwd_iats in
  let! fwd_iat_skewness := compute_bowley_skewness fwd_iats else None in
  let '(bwd_iat_total, bwd_iat_max, bwd_iat_min, bwd_iat_mean, bwd_iat_std) :=
    iat_stats_from_iter (compute_iats bwd_packets) in
  let fwd_psh := count_flag TCP_PSH fwd_packets in
  let bwd_psh := count_flag TCP_PSH bwd_packets in
  let fwd_urg := count_flag TCP_URG fwd_packets in
  let bwd_urg := count_flag TCP_URG bwd_packets in
  let '(fwd_avg_bytes_bulk, fwd_avg_packets_bulk, fwd_avg_bulk_rate) := bulk_rates (bulk_state (fwd flow)) in
  let '(bwd_avg_bytes_bulk, bwd_avg_packets_bulk, bwd_avg_bulk_rate) := bulk_rates (bulk_state (bwd flow)) in
  let min_seg_size_forward := min_by_total (map (fun p => f64_of_Z (pd_header_length p)) fwd_packets) in
  let '(active_max, active_min, active_mean, active_std) := stats_of (active_periods flow) in
  let '(idle_max, idle_min, idle_mean, idle_std) := stats_of (idle_periods flow) in
  let fwd_bwd_bytes_ratio := reg_safe_div fwd_total_bytes (f64_add fwd_total_bytes bwd_total_bytes) in
  Some {|
    fs_dst_port := f64_of_Z (fk_dst_port (flow_key flow)); fs_protocol := f64_of_Z (fk_protocol (flow_key flow));
    fs_duration_us := duration; fs_fwd_count := fwd_count; fs_bwd_count := bwd_count;
    fs_total_count := total_count; fs_fwd_total_bytes := fwd_total_bytes;
    fs_bwd_total_bytes := bwd_total_bytes; fs_total_bytes := total; fs_duration_s := duration_s;
    fs_fwd_len_max := fwd_len_max; fs_fwd_len_min := fwd_len_min; fs_fwd_len_mean := fwd_len_mean;
    fs_fwd_len_std := fwd_len_std; fs_bwd_len_max := bwd_len_max; fs_bwd_len_min := bwd_len_min;
    fs_bwd_len_mean := bwd_len_mean; fs_bwd_len_std := bwd_len_std; fs_all_len_max := all_len_max;
    fs_all_len_min := all_len_min; fs_all_len_mean := all_len_mean; fs_all_len_std := all_len_std;
    fs_flow_iat_max := flow_iat_max; fs_flow_iat_min := flow_iat_min; fs_flow_iat_mean := flow_iat_mean;
    fs_flow_iat_std := flow_iat_std; fs_fwd_iat_total := fwd_iat_total; fs_fwd_iat_max := fwd_iat_max;
    fs_fwd_iat_min := fwd_iat_min; fs_fwd_iat_mean := fwd_iat_mean; fs_fwd_iat_std := fwd_iat_std;
    fs_bwd_iat_total := bwd_iat_total; fs_bwd_iat_max := bwd_iat_max; fs_bwd_iat_min := bwd_iat_min;
    fs_bwd_iat_mean := bwd_iat_mean; fs_bwd_iat_std := bwd_iat_std; fs_fwd_psh := fwd_psh;
    fs_bwd_psh := bwd_psh; fs_fwd_urg := fwd_urg; fs_bwd_urg := bwd_urg;
    fs_fwd_header_bytes := f64_of_Z (header_bytes (fwd flow));
    fs_bwd_header_bytes := f64_of_Z (header_bytes (bwd flow));
    fs_fin_count := f64_of_Z (fin_count (flags flow)); fs_syn_count := f64_of_Z (syn_count (flags flow));
    fs_rst_count := f64_of_Z (rst_count (flags flow)); fs_psh_count := f64_of_Z (psh_count (flags flow));
    fs_ack_count := f64_of_Z (ack_count (flags flow)); fs_urg_count := f64_of_Z (urg_count (flags flow));
    fs_cwe_count := f64_of_Z (cwe_count (flags flow)); fs_ece_count := f64_of_Z (ece_count (flags flow));
    fs_fwd_avg_bytes_bulk := fwd_avg_bytes_bulk; fs_fwd_avg_packets_bulk := fwd_avg_packets_bulk;
    fs_fwd_avg_bulk_rate := fwd_avg_bulk_rate; fs_bwd_avg_bytes_bulk := bwd_avg_bytes_bulk;
    fs_bwd_avg_packets_bulk := bwd_avg_packets_bulk; fs_bwd_avg_bulk_rate := bwd_avg_bulk_rate;
    fs_init_win_bytes_fwd := f64_of_Z (init_win_bytes (fwd flow));
    fs_init_win_bytes_bwd := f64_of_Z (init_win_bytes (bwd flow));
    fs_act_data_pkt_fwd := f64_of_Z (act_data_pkt_fwd flow);
    fs_min_seg_size_forward := min_seg_size_forward;
    fs_active_max := active_max; fs_active_min := active_min; fs_active_mean := active_mean;
    fs_active_std := active_std; fs_idle_max := idle_max; fs_idle_min := idle_min;
    fs_idle_mean := idle_mean; fs_idle_std := idle_std; fs_fwd_bwd_bytes_ratio := fwd_bwd_bytes_ratio;
    fs_fwd_iat_skewness := fwd_iat_skewness |}.
End Compute.

(** ** Snapshots *)

Record FlowSnapshot : Type := mk_snapshot {
  sn_flow_key : FlowKey; sn_direction : Direction; sn_start_time_us : Z; sn_last_time_us : Z;
  sn_packet_count : nat; sn_fwd_packet_count : nat; sn_bwd_packet_count : nat;
  sn_total_bytes : Z; sn_feature_stats : FeatureStats }.

Definition sn_duration_us (s : FlowSnapshot) : Z := saturating_sub (sn_last_time_us s) (sn_start_time_us s).

Section Snapshots.
Context `{Sel : SelectFloat}.

Definition from_flow_data (flow : FlowData) : option FlowSnapshot :=
  let! stats := compute flow else None in
  Some (mk_snapshot (flow_key flow) (direction flow) (start_time_us flow) (last_time_us flow)
          (packet_count flow) (length (packets (fwd flow))) (length (packets (bwd flow)))
          (add64 (total_bytes (fwd flow)) (total_bytes (bwd flow))) stats).

(** [get_uninferred_flows] as the inference loop calls it. *)
Definition uninferred_snapshots (order : gmap FlowKey TrackedFlow -> list FlowKey) (limit : nat) (t : FlowTracker) :
    option (list FlowSnapshot) * FlowTracker :=
  let '(clones, t) := get_uninferred_flows order limit t in (mapM from_flow_data clones, t).
End Snapshots.

(** ** The registry *)

Abbreviation FeatureGetter := (FeatureStats -> float).

Definition registry_lengths : list (list string * FeatureGetter) :=
  [(["Destination Port"; "Dst Port"; "dst_port"], fun s => fs_dst_port s);
   (["Protocol"; "protocol"], fun s => fs_protocol s);
   (["Flow Duration"; "flow_duration"], fun s => fs_duration_us s);
   (["Total Fwd Packets"; "Tot Fwd Pkts"; "fwd_packets"; "Subflow Fwd Packets"],
    fun s => fs_fwd_count s);
   (["Total Backward Packets"; "Tot Bwd Pkts"; "bwd_packets"; "Subflow Bwd Packets"],
    fun s => fs_bwd_count s);
   (["Total Length of Fwd Packets"; "TotLen Fwd Pkts"; "fwd_bytes"; "Subflow Fwd Bytes"],
    fun s => fs_fwd_total_bytes s);
   (["Total Length of Bwd Packets"; "TotLen Bwd Pkts"; "bwd_bytes"; "Subflow Bwd Bytes"],
    fun s => fs_bwd_total_bytes s);
   (["Fwd Packet Length Max"], fun s => fs_fwd_len_max s);
   (["Fwd Packet Length Min"], fun s => fs_fwd_len_min s);
   (["Fwd Packet Length Mean"; "Fwd Pkt Len Mean"; "fwd_pkt_len_mean"], fun s => fs_fwd_len_mean s);
   (["Fwd Packet Length Std"; "Fwd Pkt Len Std"; "fwd_pkt_len_std"], fun s => fs_fwd_len_std s);
   (["Bwd Packet Length Max"], fun s => fs_bwd_len_max s);
   (["Bwd Packet Length Min"], fun s => fs_bwd_len_min s);
   (["Bwd Packet Length Mean"; "Bwd Pkt Len Mean"; "bwd_pkt_len_mean"], fun s => fs_bwd_len_mean s);
   (["Bwd Packet Length Std"; "Bwd Pkt Len Std"; "bwd_pkt_len_std"], fun s => fs_bwd_len_std s)].

Definition registry_times : list (list string * FeatureGetter) :=
  [(["Flow Bytes/s"; "Flow Byts/s"; "flow_bytes_per_sec"],
    fun s => reg_safe_div (fs_total_bytes s) (fs_duration_s s));
   (["Flow Packets/s"; "Flow Pkts/s"; "flow_pkts_per_sec"],
    fun s => reg_safe_div (fs_total_count s) (fs_duration_s s));
   (["Flow IAT Mean"; "flow_iat_mean"], fun s => fs_flow_iat_mean s);
   (["Flow IAT Std"; "flow_iat_std"], fun s => fs_flow_iat_std s);
   (["Flow IAT Max"], fun s => fs_flow_iat_max s);
   (["Flow IAT Min"], fun s => fs_flow_iat_min s);
   (["Fwd IAT Total"], fun s => fs_fwd_iat_total s);
   (["Fwd IAT Mean"; "fwd_iat_mean"], fun s => fs_fwd_iat_mean s);
   (["Fwd IAT Std"; "fwd_iat_std"], fun s => fs_fwd_iat_std s);
   (["Fwd IAT Max"], fun s => fs_fwd_iat_max s);
   (["Fwd IAT Min"], fun s => fs_fwd_iat_min s);
   (["Bwd IAT Total"], fun s => fs_bwd_iat_total s);
   (["Bwd IAT Mean"; "bwd_iat_mean"], fun s => fs_bwd_iat_mean s);
   (["Bwd IAT Std"; "bwd_iat_std"], fun s => fs_bwd_iat_std s);
   (["Bwd IAT Max"], fun s => fs_bwd_iat_max s);
   (["Bwd IAT Min"], fun s => fs_bwd_iat_min s)].

Definition registry_packets : list (list string * FeatureGetter) :=
  [(["Fwd PSH Flags"], fun s => fs_fwd_psh s);
   (["Bwd PSH Flags"], fun s => fs_bwd_psh s);
   (["Fwd URG Flags"], fun s => fs_fwd_urg s);
   (["Bwd URG Flags"], fun s => fs_bwd_urg s);
   (["Fwd Header Length"; "Fwd Header Length.1"], fun s => fs_fwd_header_bytes s);
   (["Bwd Header Length"], fun s => fs_bwd_header_bytes s);
   (["Fwd Packets/s"], fun s => reg_safe_div (fs_fwd_count s) (fs_duration_s s));
   (["Bwd Packets/s"], fun s => reg_safe_div (fs_bwd_count s) (fs_duration_s s));
   (["Min Packet Length"], fun s => fs_all_len_min s);
   (["Max Packet Length"], fun s => fs_all_len_max s);
   (["Packet Length Mean"; "Pkt Len Mean"; "pkt_len_mean"], fun s => fs_all_len_mean s);
   (["Packet Length Std"; "Pkt Len Std"; "pkt_len_std"], fun s => fs_all_len_std s);
   (["Packet Length Variance"; "pkt_len_variance"],
    fun s => f64_mul (fs_all_len_std s) (fs_all_len_std s))].

Definition registry_flags_and_bulk : list (list string * FeatureGetter) :=
  [(["FIN Flag Count"; "FIN Flag Cnt"; "fin_flag_cnt"], fun s => fs_fin_count s);
   (["SYN Flag Count"; "SYN Flag Cnt"; "syn_flag_cnt"], fun s => fs_syn_count s);
   (["RST Flag Count"; "RST Flag Cnt"; "rst_flag_cnt"], fun s => fs_rst_count s);
   (["PSH Flag Count"; "PSH Flag Cnt"; "psh_flag_cnt"], fun s => fs_psh_count s);
   (["ACK Flag Count"; "ACK Flag Cnt"; "ack_flag_cnt"], fun s => fs_ack_count s);
   (["URG Flag Count"], fun s => fs_urg_count s);
   (["CWE Flag Count"], fun s => fs_cwe_count s);
   (["ECE Flag Count"], fun s => fs_ece_count s);
   (["Down/Up Ratio"], fun s => reg_safe_div (fs_bwd_count s) (fs_fwd_count s));
   (["Average Packet Size"], fun s => reg_safe_div (fs_total_bytes s) (fs_total_count s));
   (["Avg Fwd Segment Size"], fun s => reg_safe_div (fs_fwd_total_bytes s) (fs_fwd_count s));
   (["Avg Bwd Segment Size"], fun s => reg_safe_div (fs_bwd_total_bytes s) (fs_bwd_count s));
   (["Fwd Avg Bytes/Bulk"], fun s => fs_fwd_avg_bytes_bulk s);
   (["Fwd Avg Packets/Bulk"], fun s => fs_fwd_avg_packets_bulk s);
   (["Fwd Avg Bulk Rate"], fun s => fs_fwd_avg_bulk_rate s);
   (["Bwd Avg Bytes/Bulk"], fun s => fs_bwd_avg_bytes_bulk s);
   (["Bwd Avg Packets/Bulk"], fun s => fs_bwd_avg_packets_bulk s);
   (["Bwd Avg Bulk Rate"], fun s => fs_bwd_avg_bulk_rate s)].

Definition registry_rest : list (list string * FeatureGetter) :=
  [(["Init_Win_bytes_forward"; "fwd_win_bytes"], fun s => fs_init_win_bytes_fwd s);
   (["Init_Win_bytes_backward"; "bwd_win_bytes"], fun s => fs_init_win_bytes_bwd s);
   (["act_data_pkt_fwd"; "fwd_act_data_pkts"], fun s => fs_act_data_pkt_fwd s);
   (["min_seg_size_forward"; "fwd_seg_size_min"], fun s => fs_min_seg_size_forward s);
   (["Active Mean"], fun s => fs_active_mean s);
   (["Active Std"], fun s => fs_active_std s);
   (["Active Max"], fun s => fs_active_max s);
   (["Active Min"], fun s => fs_active_min s);
   (["Idle Mean"], fun s => fs_idle_mean s);
   (["Idle Std"], fun s => fs_idle_std s);
   (["Idle Max"], fun s => fs_idle_max s);
   (["Idle Min"], fun s => fs_idle_min s);
   (["fwd_bwd_bytes_ratio"], fun s => fs_fwd_bwd_bytes_ratio s);
   (["fwd_iat_skewness"], fun s => fs_fwd_iat_skewness s);
   (["iat_cv"], fun s => reg_safe_div (fs_flow_iat_std s) (fs_flow_iat_mean s))].

(** [FEATURE_REGISTRY]: every name of every entry, in the order of insertion. *)
Definition registry_entries : list (string * FeatureGetter) :=
  concat (map (fun e : list string * FeatureGetter => map (fun n => (n, e.2)) e.1)
    (registry_lengths ++ registry_times ++ registry_packets ++ registry_flags_and_bulk ++ registry_rest)%list).
Definition FEATURE_REGISTRY : gmap string FeatureGetter :=
  fold_left (fun m e => <[e.1 := e.2]> m) registry_entries ∅.

Definition feature_is_known (name : string) : bool := bool_decide (is_Some (FEATURE_REGISTRY !! name)).

(** [FeatureStats::get] *)
Definition get (s : FeatureStats) (feature_name : string) : float :=
  match FEATURE_REGISTRY !! feature_name with Some g => g s | None => fzero end.

(** [FlowFeatures] and [extract_from_stats] *)
Record FlowFeatures : Type := mk_features { features : list float; feature_num : nat }.

Definition extract_from_stats (precomputed : FeatureStats) (feature_names : list string) : FlowFeatures :=
  mk_features (map (fun name => get precomputed (trim name)) feature_names) (length feature_names).

(** [ALL_FEATURE_NAMES]: the columns of the training data. *)
Definition ALL_FEATURE_NAMES : list string :=
  ["Destination Port"; "Protocol"; "Flow Duration"; "Total Fwd Packets"; "Total Backward Packets";
   "Total Length of Fwd Packets"; "Total Length of Bwd Packets"; "Fwd Packet Length Max";
   "Fwd Packet Length Min"; "Fwd Packet Length Mean"; "Fwd Packet Length Std";
   "Bwd Packet Length Max"; "Bwd Packet Length Min"; "Bwd Packet Length Mean";
   "Bwd Packet Length Std"; "Flow Bytes/s"; "Flow Packets/s"; "Flow IAT Mean"; "Flow IAT Std";
   "Flow IAT Max"; "Flow IAT Min"; "Fwd IAT Total"; "Fwd IAT Mean"; "Fwd IAT Std"; "Fwd IAT Max";
   "Fwd IAT Min"; "Bwd IAT Total"; "Bwd IAT Mean"; "Bwd IAT Std"; "Bwd IAT Max"; "Bwd IAT Min";
   "Fwd PSH Flags"; "Bwd PSH Flags"; "Fwd URG Flags"; "Bwd URG Flags"; "Fwd Header Length";
   "Bwd Header Length"; "Fwd Packets/s"; "Bwd Packets/s"; "Min Packet Length";
   "Max Packet Length"; "Packet Length Mean"; "Packet Length Std"; "Packet Length Variance";
   "FIN Flag Count"; "SYN Flag Count"; "RST Flag Count"; "PSH Flag Count"; "ACK Flag Count";
   "URG Flag Count"; "CWE Flag Count"; "ECE Flag Count"; "Down/Up Ratio"; "Average Packet Size";
   "Avg Fwd Segment Size"; "Avg Bwd Segment Size"; "Fwd Header Length.1"; "Fwd Avg Bytes/Bulk";
   "Fwd Avg Packets/Bulk"; "Fwd Avg Bulk Rate"; "Bwd Avg Bytes/Bulk"; "Bwd Avg Packets/Bulk";
   "Bwd Avg Bulk Rate"; "Subflow Fwd Packets"; "Subflow Fwd Bytes"; "Subflow Bwd Packets";
   "Subflow Bwd Bytes"; "Init_Win_bytes_forward"; "Init_Win_bytes_backward"; "act_data_pkt_fwd";
   "min_seg_size_forward"; "Active Mean"; "Active Std"; "Active Max"; "Active Min"; "Idle Mean";
   "Idle Std"; "Idle Max"; "Idle Min"; "fwd_iat_std"; "bwd_iat_std"; "flow_iat_std";
   "fwd_bwd_bytes_ratio"; "pkt_len_variance"; "fwd_iat_skewness"].

(** ** The total order on floats *)

(** A float's place: sign and kind, then exponent and mantissa. *)
Definition rank (x : float) : Z * Z * Z :=
  match x with
  | S754_infinity true => (-2, 0, 0)
  | S754_finite true m e => (-1, - e, - Z.pos m)
  | S754_zero true => (0, 0, 0)
  | S754_zero false => (0, 1, 0)
  | S754_finite false m e => (1, e, Z.pos m)
  | S754_infinity false => (2, 0, 0)
  | S754_nan => (3, 0, 0)
  end.

Definition lex_le (a b : Z * Z * Z) : Prop :=
  a.1.1 < b.1.1 \/ (a.1.1 = b.1.1 /\ (a.1.2 < b.1.2 \/ (a.1.2 = b.1.2 /\ a.2 <= b.2))).

Lemma rank_inj (x y : float) : rank x = rank y -> x = y.
Proof. destruct x as [[]|[]| |[] m e], y as [[]|[]| |[] m' e']; cbn; intros H; try congruence; injection H; intros; f_equal; lia. Qed.

Lemma total_le_rank (x y : float) : total_le x y = true <-> lex_le (rank x) (rank y).
Proof.
  unfold lex_le.
  destruct x as [[]|[]| |[] m e], y as [[]|[]| |[] m' e']; cbn; try (split; [intros _; lia|done]); try (split; [done|lia]);
    unfold total_le, flt, feq, SFltb, SFeqb; cbn; destruct (Z.compare_spec e e'); cbn; try (split; [intros _; lia|done]);
    try (split; [done|lia]); change (Pos.compare_cont Eq m m') with (Pos.compare m m');
    destruct (Pos.compare_spec m m'); cbn; split; (done || lia).
Qed.

Definition total_order (x y : float) : Prop := total_le x y = true.
#[export] Instance total_order_dec : RelDecision total_order.
Proof. intros x y. unfold total_order. apply _. Defined.
#[export] Instance total_order_total : Total total_order.
Proof. intros x y. unfold total_order. rewrite !total_le_rank. unfold lex_le. lia. Qed.
#[export] Instance total_order_trans : Transitive total_order.
Proof. intros x y z. unfold total_order. rewrite !total_le_rank. unfold lex_le. lia. Qed.
#[export] Instance total_order_antisymm : AntiSymm (=) total_order.
Proof.
  intros x y. unfold total_order. rewrite !total_le_rank. unfold lex_le. intros H1 H2. apply rank_inj.
  destruct (rank x) as [[a b] c], (rank y) as [[a' b'] c']. cbn in *. repeat f_equal; lia.
Qed.

Abbreviation fsort := (merge_sort total_order).

(** A selection that sorts has the laws. *)
Definition sorting_select : SelectFloat := fun _ l => fsort l.
Lemma sorting_select_laws : SelectFloatLaws sorting_select.
Proof.
  split; unfold select_float, sorting_select.
  - intros. apply merge_sort_Permutation.
  - intros n l x y Hn Hx Hy. pose proof (StronglySorted_merge_sort total_order l) as Hs.
    rewrite <- (take_drop n (fsort l)) in Hs. change (total_order x y).
    eapply StronglySorted_app_1_elem_of; [exact Hs|done|].
    apply list_elem_of_lookup. exists 0%nat. by rewrite lookup_drop, Nat.add_0_r.
  - intros n l x y Hn Hx Hy. pose proof (StronglySorted_merge_sort total_order l) as Hs.
    rewrite <- (take_drop (S n) (fsort l)) in Hs. change (total_order y x).
    eapply StronglySorted_app_1_elem_of; [exact Hs| |done].
    apply list_elem_of_lookup. exists n. by rewrite lookup_take_lt by lia.
Qed.

(** ** The skewness is that of the quartiles *)

Section Quartiles.
Context `{SelL : SelectFloatLaws}.

Lemma selected_split (i : nat) (l : list float) :
  (i < length l)%nat ->
  exists y, select_float i l !! i = Some y /\
    fsort l = (fsort (take i (select_float i l)) ++ y :: fsort (drop (S i) (select_float i l)))%list.
Proof.
  intros Hi. pose proof (select_float_perm i l) as Hperm. pose proof (Permutation_length Hperm) as Hlen.
  destruct (lookup_lt_is_Some_2 (select_float i l) i ltac:(lia)) as [y Hy]. exists y. split; [done|].
  assert (forall x, x ∈ take i (select_float i l) -> total_order x y) as Hbefore
    by (intros x Hx; by apply (select_float_before i l x y)).
  assert (forall x, x ∈ drop (S i) (select_float i l) -> total_order y x) as Hafter
    by (intros x Hx; by apply (select_float_after i l x y)).
  apply (StronglySorted_unique total_order).
  - apply StronglySorted_merge_sort; apply _.
  - apply StronglySorted_app. split_and!.
    + intros a b Ha Hb. rewrite merge_sort_Permutation in Ha. apply elem_of_cons in Hb as [->|Hb]; [by apply Hbefore|].
      rewrite merge_sort_Permutation in Hb. trans y; [by apply Hbefore|by apply Hafter].
    + apply StronglySorted_merge_sort; apply _.
    + constructor; [apply StronglySorted_merge_sort; apply _|]. apply Forall_forall. intros b Hb.
      rewrite merge_sort_Permutation in Hb. by apply Hafter.
  - rewrite !merge_sort_Permutation. rewrite <- Hperm at 1. by rewrite <- (take_drop_middle _ _ _ Hy) at 1.
Qed.

Definition bowley (q1 q2 q3 : float) : float :=
  let iqr := f64_sub q3 q1 in
  if fle iqr fzero then fzero
  else f64_div (f64_sub (f64_add q3 q1) (f64_mul (f64_of_Z 2) q2)) iqr.

(** The reference: sort, and read off the quartiles. *)
Definition skewness_by_sorting (values : list float) : option float :=
  let n := length values in
  if (n <? 4)%nat then Some fzero
  else
    let! q1 := fsort values !! (n / 4)%nat else None in
    let! q2 := fsort values !! (n / 2)%nat else None in
    let! q3 := fsort values !! (3 * n / 4)%nat else None in
    Some (bowley q1 q2 q3).

Lemma quartile_indices (n : nat) :
  (4 <= n)%nat ->
  (n / 4 < n / 2)%nat /\ (n / 2 < n)%nat /\ (n / 2 + 1 <= 3 * n / 4)%nat /\ (3 * n / 4 < n)%nat.
Proof.
  intros Hn. pose proof (Nat.div_mod_eq n 4). pose proof (Nat.div_mod_eq n 2). pose proof (Nat.div_mod_eq (3 * n) 4).
  pose proof (Nat.mod_upper_bound n 4). pose proof (Nat.mod_upper_bound n 2). pose proof (Nat.mod_upper_bound (3 * n) 4).
  lia.
Qed.

(** A selection in range: the value at the position and the length. *)
Lemma select_at_spec (i : nat) (l : list float) :
  (i < length l)%nat ->
  exists l' y, select_at i l = Some l' /\ l' !! i = Some y /\ length l' = length l /\
    fsort l = (fsort (take i l') ++ y :: fsort (drop (S i) l'))%list.
Proof.
  intros Hi. destruct (selected_split i l Hi) as (y & Hy & Hs). exists (select_float i l), y.
  unfold select_at. rewrite (proj2 (Nat.ltb_lt _ _) Hi). split_and!; try done.
  apply Permutation_length, select_float_perm.
Qed.

Lemma fsort_length (l : list float) : length (fsort l) = length l.
Proof. apply Permutation_length, merge_sort_Permutation. Qed.

Lemma skewness_sorted (values : list float) : compute_bowley_skewness values = skewness_by_sorting values.
Proof.
  unfold compute_bowley_skewness, skewness_by_sorting. cbv zeta.
  destruct (Nat.ltb_spec (length values) 4) as [|Hn]; [done|].
  destruct (quartile_indices (length values) Hn) as (H12 & H2 & H23 & H3).
  set (i1 := (length values / 4)%nat) in *. set (i2 := (length values / 2)%nat) in *.
  set (i3 := (3 * length values / 4)%nat) in *.
  destruct (select_at_spec i2 values H2) as (v1 & y2 & -> & Hy2 & Hl1 & Hsort). rewrite Hy2.
  destruct (select_at_spec i1 (take i2 v1)) as (l1 & y1 & -> & Hy1 & Hll & Hs1); [rewrite length_take; lia|].
  rewrite length_take in Hll. rewrite lookup_app_l by lia. rewrite Hy1.
  rewrite (proj2 (Nat.ltb_ge i3 (i2 + 1))) by lia.
  assert (drop (i2 + 1) (l1 ++ drop i2 v1) = drop (S i2) v1) as Hd.
  { rewrite drop_app_ge by lia. rewrite drop_drop. f_equal. lia. }
  rewrite Hd. destruct (select_at_spec (i3 - (i2 + 1)) (drop (S i2) v1)) as (l3 & y3 & -> & Hy3 & Hl3 & Hs3);
    [rewrite length_drop; lia|].
  rewrite lookup_app_r by (rewrite length_take, length_app, length_drop; lia).
  replace (i3 - length (take (i2 + 1) (l1 ++ drop i2 v1)))%nat with (i3 - (i2 + 1))%nat
    by (rewrite length_take, length_app, length_drop; lia).
  rewrite Hy3.
  assert (fsort values !! i1 = Some y1) as ->.
  { rewrite Hsort, lookup_app_l by (rewrite fsort_length, length_take; lia). rewrite Hs1.
    apply list_lookup_middle. rewrite fsort_length, length_take. lia. }
  assert (fsort values !! i2 = Some y2) as ->.
  { rewrite Hsort. apply list_lookup_middle. rewrite fsort_length, length_take. lia. }
  assert (fsort values !! i3 = Some y3) as ->; [|done].
  rewrite Hsort, lookup_app_r by (rewrite fsort_length, length_take; lia). rewrite fsort_length, length_take.
  replace (i3 - _)%nat with (S (i3 - (i2 + 1))) by lia. cbn [lookup list_lookup]. rewrite Hs3.
  apply list_lookup_middle. rewrite fsort_length, length_take, Hl3, length_drop. lia.
Qed.

Lemma bowley_total (values : list float) : is_Some (compute_bowley_skewness values).
Proof.
  rewrite skewness_sorted. unfold skewness_by_sorting. cbv zeta.
  destruct (Nat.ltb_spec (length values) 4) as [|Hn]; [by eexists|].
  destruct (quartile_indices (length values) Hn) as (H12 & H2 & H23 & H3).
  pose proof (fsort_length values) as Hl.
  destruct (lookup_lt_is_Some_2 (fsort values) (length values / 4)) as [y1 ->]; [lia|].
  destruct (lookup_lt_is_Some_2 (fsort values) (length values / 2)) as [y2 ->]; [lia|].
  destruct (lookup_lt_is_Some_2 (fsort values) (3 * length values / 4)) as [y3 ->]; [lia|]. by eexists.
Qed.

(** The skewness of the forward inter-arrival times is Bowley's, computed from
    the quartiles of the sorted values: the three partial selections never leave
    their slices and pick the same elements as a full sort. *)
Theorem bowley_is_sorted_quartiles (values : list float) :
  compute_bowley_skewness values = skewness_by_sorting values /\ is_Some (compute_bowley_skewness values).
Proof. split; [apply skewness_sorted|apply bowley_total]. Qed.
End Quartiles.

Lemma bowley_is_sorted_quartiles_witness :
  let l := map f64_of_Z [9; 1; 4; 4; 7] in
  is_Some (compute_bowley_skewness (Sel := sorting_select) l) /\
  compute_bowley_skewness (Sel := sorting_select) l = skewness_by_sorting l.
Proof.
  pose proof (bowley_is_sorted_quartiles (SelL := sorting_select_laws) (map f64_of_Z [9; 1; 4; 4; 7])) as [H1 H2].
  split; [exact H2|exact H1].
Defined.

(** ** The flow's inter-arrival times *)

(** Push the gaps of a list of instants. *)
Fixpoint push_gaps (prev_ts : option Z) (ts : list Z) (stats : StreamingStats) : StreamingStats :=
  match ts with
  | [] => stats
  | t :: ts => push_gaps (Some t) ts (push_gap prev_ts t stats)
  end.

(** Two sorted lists are visited as their sorted union. *)
Fixpoint merge_instants (fi : list Z) : list Z -> list Z :=
  fix go (bi : list Z) {struct bi} :=
    match fi, bi with
    | f :: fi', b :: bi' => if f <=? b then f :: merge_instants fi' bi else b :: go bi'
    | f :: fi', [] => f :: merge_instants fi' []
    | [], b :: bi' => b :: go bi'
    | [], [] => []
    end.

Lemma flow_iat_loop_merge (fi bi : list Z) (prev : option Z) (stats : StreamingStats) :
  flow_iat_loop fi bi prev stats = push_gaps prev (merge_instants fi bi) stats.
Proof.
  revert bi prev stats. induction fi as [|f fi IH]; intros bi; induction bi as [|b bi IHb]; intros prev stats; cbn.
  - done.
  - apply IHb.
  - apply IH.
  - destruct (f <=? b); cbn; [apply IH|apply IHb].
Qed.

Lemma merge_instants_perm (fi bi : list Z) : merge_instants fi bi ≡ₚ (fi ++ bi)%list.
Proof.
  revert bi. induction fi as [|f fi IH]; intros bi; induction bi as [|b bi IHb]; cbn.
  - done.
  - by rewrite IHb.
  - by rewrite IH.
  - destruct (f <=? b); [by rewrite IH|]. cbn in IHb. rewrite IHb. apply (Permutation_middle (f :: fi)).
Qed.

Lemma merge_instants_sorted (fi bi : list Z) :
  StronglySorted Z.le fi -> StronglySorted Z.le bi -> StronglySorted Z.le (merge_instants fi bi).
Proof.
  intros Hf. revert bi. induction Hf as [|f fi Hf IH Hle]; intros bi Hb.
  - induction Hb as [|b bi Hb IHb Hbl]; cbn; constructor; [done|].
    pose proof (merge_instants_perm [] bi) as Hp. cbn in Hp. by rewrite Hp.
  - induction Hb as [|b bi Hb IHb Hbl]; cbn.
    + constructor; [apply IH; constructor|]. by rewrite merge_instants_perm, app_nil_r.
    + destruct (Z.leb_spec f b).
      * constructor; [apply IH; by constructor|]. rewrite merge_instants_perm. apply Forall_app. split; [done|].
        constructor; [done|]. eapply Forall_impl; [exact Hbl|]. intros x Hx. cbn in Hx. lia.
      * constructor; [apply IHb|]. pose proof (merge_instants_perm (f :: fi) bi) as Hp. cbn in Hp. rewrite Hp.
        constructor; [lia|]. apply Forall_app. split; [|done].
        eapply Forall_impl; [exact Hle|]. intros x Hx. cbn in Hx. lia.
Qed.

(** When each direction's instants are in order, the flow's inter-arrival
    statistics are those of the gaps between all its instants in order, whichever
    direction they belong to. *)
Theorem flow_iats_in_order (fwd_packets bwd_packets : list PacketData) :
  StronglySorted Z.le (map pd_timestamp_us fwd_packets) -> StronglySorted Z.le (map pd_timestamp_us bwd_packets) ->
  compute_flow_iat_stats fwd_packets bwd_packets
    = finalize (push_gaps None (merge_sort Z.le (map pd_timestamp_us (fwd_packets ++ bwd_packets)%list)) new_streaming).
Proof.
  intros Hf Hb. unfold compute_flow_iat_stats. rewrite flow_iat_loop_merge.
  assert (merge_instants (map pd_timestamp_us fwd_packets) (map pd_timestamp_us bwd_packets)
    = merge_sort Z.le (map pd_timestamp_us (fwd_packets ++ bwd_packets))) as ->.
  { apply (StronglySorted_unique Z.le); [by apply merge_instants_sorted|apply StronglySorted_merge_sort; apply _|].
    by rewrite merge_instants_perm, merge_sort_Permutation, map_app. }
  unfold finalize. by destruct (ss_count _ =? 0).
Qed.

Lemma flow_iats_in_order_witness :
  let p t := mk_pdata t 100 20 80 0 in
  compute_flow_iat_stats [p 1; p 5] [p 3; p 9]
    = finalize (push_gaps None (merge_sort Z.le [1; 5; 3; 9]) new_streaming).
Proof.
  apply (flow_iats_in_order [mk_pdata 1 100 20 80 0; mk_pdata 5 100 20 80 0]
    [mk_pdata 3 100 20 80 0; mk_pdata 9 100 20 80 0]);
    cbn; repeat constructor; discriminate.
Defined.

(** ** Extremes *)

(** The order of [<] and [<=], in which both zeros are equal. *)
Definition rank0 (x : float) : Z * Z * Z := match x with S754_zero _ => (0, 0, 0) | _ => rank x end.

Lemma fle_rank (x y : float) : is_nan x = false -> is_nan y = false -> fle x y = true <-> lex_le (rank0 x) (rank0 y).
Proof.
  unfold lex_le.
  destruct x as [[]|[]| |[] m e], y as [[]|[]| |[] m' e']; cbn; try done; intros _ _;
    try (split; [intros _; lia|done]); try (split; [done|lia]);
    unfold fle, SFleb; cbn; destruct (Z.compare_spec e e'); cbn; try (split; [intros _; lia|done]);
    try (split; [done|lia]); change (Pos.compare_cont Eq m m') with (Pos.compare m m');
    destruct (Pos.compare_spec m m'); cbn; split; (done || lia).
Qed.

Lemma flt_rank (x y : float) : is_nan x = false -> is_nan y = false -> flt x y = true <-> ~ lex_le (rank0 y) (rank0 x).
Proof.
  unfold lex_le.
  destruct x as [[]|[]| |[] m e], y as [[]|[]| |[] m' e']; cbn; try done; intros _ _;
    try (split; [intros _; lia|done]); try (split; [done|lia]);
    unfold flt, SFltb; cbn; destruct (Z.compare_spec e e'); cbn; try (split; [intros _; lia|done]);
    try (split; [done|lia]); change (Pos.compare_cont Eq m m') with (Pos.compare m m');
    destruct (Pos.compare_spec m m'); cbn; split; (done || lia).
Qed.

Definition not_nan (x : float) : Prop := is_nan x = false.

(** What the running extremes are of the values seen. *)
Definition extremes (l : list float) (s : StreamingStats) : Prop :=
  ss_count s = Z.of_nat (length l) /\ not_nan (ss_min s) /\ not_nan (ss_max s) /\
  (forall x, x ∈ l -> fle (ss_min s) x = true /\ fle x (ss_max s) = true) /\
  (l = [] -> ss_min s = S754_infinity false /\ ss_max s = S754_infinity true) /\
  (l <> [] -> (exists x, x ∈ l /\ fle x (ss_min s) = true) /\ exists x, x ∈ l /\ fle (ss_max s) x = true).

Lemma lex_le_total (a b : Z * Z * Z) : lex_le a b \/ lex_le b a.
Proof. unfold lex_le. lia. Qed.
Lemma lex_le_trans (a b c : Z * Z * Z) : lex_le a b -> lex_le b c -> lex_le a c.
Proof. unfold lex_le. lia. Qed.
Lemma lex_le_refl (a : Z * Z * Z) : lex_le a a.
Proof. unfold lex_le. lia. Qed.

Lemma push_extremes (l : list float) (s : StreamingStats) (x : float) :
  not_nan x -> extremes l s -> extremes (l ++ [x])%list (push s x).
Proof.
  intros Hx (Hc & Hmin & Hmax & Hall & Hnone & Hsome). unfold push, extremes. cbn [ss_count ss_min ss_max].
  set (mn := if flt x (ss_min s) then x else ss_min s). set (mx := if fgt x (ss_max s) then x else ss_max s).
  assert (not_nan mn /\ lex_le (rank0 mn) (rank0 x) /\ lex_le (rank0 mn) (rank0 (ss_min s)) /\ (mn = x \/ mn = ss_min s))
    as (Hmn & Hmnx & Hmns & Hmne).
  { unfold mn. destruct (flt x (ss_min s)) eqn:Hlt.
    - apply flt_rank in Hlt; [|done..]. pose proof (lex_le_total (rank0 x) (rank0 (ss_min s))).
      split_and!; [done|apply lex_le_refl|tauto|by left].
    - assert (~ ~ lex_le (rank0 (ss_min s)) (rank0 x)) as Hn by (rewrite <- flt_rank, Hlt by done; done).
      pose proof (lex_le_total (rank0 x) (rank0 (ss_min s))). unfold lex_le in *.
      split_and!; [done|lia|lia|by right]. }
  assert (not_nan mx /\ lex_le (rank0 x) (rank0 mx) /\ lex_le (rank0 (ss_max s)) (rank0 mx) /\ (mx = x \/ mx = ss_max s))
    as (Hmx & Hmxx & Hmxs & Hmxe).
  { unfold mx. change (fgt x (ss_max s)) with (flt (ss_max s) x). destruct (flt (ss_max s) x) eqn:Hlt.
    - apply flt_rank in Hlt; [|done..]. pose proof (lex_le_total (rank0 x) (rank0 (ss_max s))).
      split_and!; [done|apply lex_le_refl|tauto|by left].
    - assert (~ ~ lex_le (rank0 x) (rank0 (ss_max s))) as Hn by (rewrite <- flt_rank, Hlt by done; done).
      unfold lex_le in *. split_and!; [done|lia|lia|by right]. }
  (* transitivity through a value that is not NaN *)
  assert (forall a, a ∈ l -> not_nan a) as Hnan.
  { intros a Ha. destruct (Hall a Ha) as [H1 _]. by destruct a, (ss_min s). }
  split_and!; [rewrite length_app; simpl; lia|done|done| | |].
  - intros a [Ha|Ha]%elem_of_app.
    + destruct (Hall a Ha) as [H1 H2]. specialize (Hnan a Ha). rewrite fle_rank in H1, H2 by done.
      rewrite !fle_rank by done. split; eapply lex_le_trans; done.
    + apply list_elem_of_singleton in Ha as ->. rewrite !fle_rank by done. done.
  - by destruct l.
  - intros _. split.
    + destruct Hmne as [->|He].
      * exists x. split; [set_solver|]. rewrite fle_rank by done. apply lex_le_refl.
      * rewrite He. destruct l as [|a l].
        -- exists x. split; [set_solver|]. destruct (Hnone eq_refl) as [-> _]. by destruct x as [|[]| |[]].
        -- destruct (Hsome ltac:(done)) as [(y & Hy & Hle) _]. exists y. split; [set_solver|done].
    + destruct Hmxe as [->|He].
      * exists x. split; [set_solver|]. rewrite fle_rank by done. apply lex_le_refl.
      * rewrite He. destruct l as [|a l].
        -- exists x. split; [set_solver|]. destruct (Hnone eq_refl) as [_ ->]. by destruct x as [|[]| |[]].
        -- destruct (Hsome ltac:(done)) as [_ (y & Hy & Hle)]. exists y. split; [set_solver|done].
Qed.

Lemma push_all_extremes (l : list float) : Forall not_nan l -> extremes l (push_all l).
Proof.
  unfold push_all. induction l as [|x l IH] using rev_ind; intros Hl.
  - split_and!; try done. set_solver.
  - apply Forall_app in Hl as [Hl [Hx _]%Forall_cons]. rewrite fold_left_app. cbn [fold_left].
    by apply push_extremes, IH.
Qed.

(** The streaming pass over a non-empty list of numbers finds its extremes:
    the reported minimum and maximum bound every value and each is attained. *)
Theorem streaming_extremes (l : list float) (max min mean std : float) :
  l <> [] -> Forall not_nan l -> finalize (push_all l) = (max, min, mean, std) ->
  (forall x, x ∈ l -> fle min x = true /\ fle x max = true) /\
  (exists x, x ∈ l /\ fle x min = true) /\ (exists x, x ∈ l /\ fle max x = true).
Proof.
  intros Hne Hl. destruct (push_all_extremes l Hl) as (Hc & _ & _ & Hall & _ & Hsome). unfold finalize.
  destruct (Z.eqb_spec (ss_count (push_all l)) 0) as [H0|]; [destruct l; [done|]; cbn [length] in Hc; lia|].
  intros [= <- <- _ _]. split; [exact Hall|exact (Hsome Hne)].
Qed.

Lemma streaming_extremes_witness :
  let l := map f64_of_Z [3; 1; 2] in
  exists mean std, finalize (push_all l) = (f64_of_Z 3, f64_of_Z 1, mean, std) /\
    forall x, x ∈ l -> fle (f64_of_Z 1) x = true.
Proof.
  destruct (finalize (push_all (map f64_of_Z [3; 1; 2]))) as [[[mx mn] mean] std] eqn:E.
  pose proof (streaming_extremes (map f64_of_Z [3; 1; 2]) mx mn mean std ltac:(discriminate)
    ltac:(repeat constructor) E) as [H _].
  vm_compute in E. injection E as <- <- <- <-. eexists _, _. split; [reflexivity|].
  intros x Hx. exact (proj1 (H x Hx)).
Defined.

(** ** The registry names every column once *)

Lemma fold_insert_lookup {A} (l : list (string * A)) (m : gmap string A) (n : string) (a : A) :
  NoDup (map fst l) -> (n, a) ∈ l -> fold_left (fun m e => <[e.1 := e.2]> m) l m !! n = Some a.
Proof.
  induction l as [|[n' a'] l IH] using rev_ind; [set_solver|].
  rewrite fold_left_app, map_app. intros Hnd [Hin|Hin]%elem_of_app; cbn [fold_left map fst snd] in *.
  - apply NoDup_app in Hnd as (Hnd & Hdis & _).
    rewrite lookup_insert_ne; [by apply IH|]. intros ->. apply (Hdis n); [|set_solver].
    apply list_elem_of_fmap. by exists (n, a).
  - apply list_elem_of_singleton in Hin as [= -> ->]. apply lookup_insert_eq.
Qed.

Lemma registry_names_NoDup : NoDup (map fst registry_entries).
Proof. apply (bool_decide_eq_true_1 _). by vm_compute. Qed.

Lemma registry_names_trimmed : Forall (fun n => trim n = n) (map fst registry_entries).
Proof. apply (bool_decide_eq_true_1 _). by vm_compute. Qed.

Lemma registry_lookup (n : string) (g : FeatureGetter) :
  (n, g) ∈ registry_entries -> FEATURE_REGISTRY !! n = Some g.
Proof. intros H. apply fold_insert_lookup; [apply registry_names_NoDup|done]. Qed.

Lemma registered_known (n : string) : n ∈ map fst registry_entries -> feature_is_known n = true.
Proof.
  intros ([n' g] & -> & H)%list_elem_of_fmap. unfold feature_is_known. cbn [fst].
  rewrite (registry_lookup _ _ H). apply bool_decide_eq_true_2. by eexists.
Qed.

Lemma columns_registered : Forall (fun n => n ∈ map fst registry_entries) ALL_FEATURE_NAMES.
Proof. apply (bool_decide_eq_true_1 _). by vm_compute. Qed.

(** A model's feature vector is what its columns say: reading any list of
    registered names gives exactly their getters' values, in order, so no alias
    or insertion shadows another; and every training column is registered. *)
Theorem extraction_reads_columns (s : FeatureStats) (entries : list (string * FeatureGetter)) :
  entries ⊆ registry_entries ->
  extract_from_stats s (map fst entries) = mk_features (map (fun e => e.2 s) entries) (length entries) /\
  forall n, n ∈ ALL_FEATURE_NAMES -> feature_is_known n = true.
Proof.
  intros Hsub. split.
  - unfold extract_from_stats. rewrite length_map, map_map. f_equal. apply map_ext_in.
    intros [n g] Hin%list_elem_of_In%Hsub. cbn [fst snd]. unfold get.
    pose proof registry_names_trimmed as Ht. rewrite Forall_forall in Ht.
    rewrite Ht by (apply list_elem_of_fmap; by exists (n, g)). by rewrite (registry_lookup _ _ Hin).
  - intros n Hn. apply registered_known. pose proof columns_registered as Hc.
    rewrite Forall_forall in Hc. by apply Hc.
Qed.

Lemma extraction_reads_columns_witness :
  let p := mk_user V4 6 TCP_SYN (pad_ip [10; 0; 0; 1]) (pad_ip [10; 0; 0; 2]) 4000 443 60 0 20 1024 5 true in
  let flow := new_flow (from_packet p) p Ingress in
  exists s, compute (Sel := sorting_select) flow = Some s /\
    features (extract_from_stats s ["Protocol"; "Dst Port"]) = [f64_of_Z 6; f64_of_Z 443].
Proof.
  intros p flow. destruct (compute (Sel := sorting_select) flow) as [s|] eqn:E; [|vm_compute in E; discriminate].
  exists s. split; [reflexivity|].
  destruct (extraction_reads_columns s [("Protocol", fs_protocol); ("Dst Port", fs_dst_port)]) as [H _].
  - intros x [->|[->|[]%elem_of_nil]%elem_of_cons]%elem_of_cons.
    + apply (list_elem_of_lookup_2 _ 3%nat). reflexivity.
    + apply (list_elem_of_lookup_2 _ 1%nat). reflexivity.
  - apply (f_equal features) in H. cbn [map fst snd] in H. rewrite H. cbn [features].
    vm_compute in E. injection E as <-. vm_compute. reflexivity.
Defined.

(** The statistics of every flow exist: no index or selection panics. *)
Lemma compute_total `{SelL : SelectFloatLaws} (flow : FlowData) : is_Some (compute flow).
Proof.
  destruct (bowley_total (compute_iats (packets (fwd flow)))) as [y Hy]. unfold compute. rewrite Hy.
  generalize stats_of, compute_flow_iat_stats, iat_stats, iat_stats_from_iter, bulk_rates. intros f1 f2 f3 f4 f5.
  cbv zeta.
  repeat match goal with |- context [match ?x with pair _ _ => _ end] => destruct x as [? ?] end. by eexists.
Qed.

(** No snapshot is lost: every flow taken for inference has one. *)
Lemma uninferred_snapshots_total `{SelL : SelectFloatLaws} order (limit : nat) (t : FlowTracker) :
  exists l, (uninferred_snapshots order limit t).1 = Some l /\ length l = length (get_uninferred_flows order limit t).1.
Proof.
  unfold uninferred_snapshots. destruct (get_uninferred_flows order limit t) as [clones t']. cbn [fst].
  assert (is_Some (mapM from_flow_data clones)) as [l Hl].
  { apply mapM_is_Some, Forall_forall. intros f _. unfold compose, from_flow_data.
    destruct (compute_total f) as [st ->]. by eexists. }
  exists l. split; [done|]. symmetry. by eapply length_mapM.
Qed.
