(* ===== verification/Identity.v ===== *)
(** * Identity: roles, permissions, sessions

    The vocabulary of authentication (domain/identity/auth.rs, validation.rs,
    user.rs), the comparison of secrets (common/utils/security.rs) and the
    store of sessions (core/identity/session_service.rs). *)

From Stdlib Require Import ZArith Lia List Ascii String.
From stdpp Require Import base list gmap sets strings.
From S2P Require Import Prelude RStr.

Local Open Scope string_scope.
Local Open Scope Z_scope.

(** ** Roles and permissions *)

Definition ROLE_ADMIN : string := "admin".
Definition ROLE_VIEWER : string := "viewer".
Definition GROUP_ADMIN : string := "Administrator".
Definition GROUP_VIEWER : string := "Viewer".
Definition DEFAULT_ADMIN_USERNAME : string := "admin".
Definition LOGIN_MAX_FAILURES : Z := 5.
Definition LOGIN_LOCKOUT_SECS : Z := 900.

Definition ADMIN_PERMISSIONS : list string :=
  ["dashboard:read"; "statistics:read"; "traffic_map:read"; "drops:read"; "ai_detection:read";
   "ai_detection:write"; "access_control:read"; "access_control:write"; "geo_block:read";
   "geo_block:write"; "dns_filter:read"; "dns_filter:write"; "rate_limit:read"; "rate_limit:write";
   "protocol_filter:read"; "protocol_filter:write"; "system:read"; "system:write"; "system:admin";
   "api_keys:admin"; "users:read"; "users:write"; "users:admin"; "fusion:read"; "fusion:write";
   "flow_trace:read"; "flow_trace:write"].
Definition VIEWER_PERMISSIONS : list string :=
  ["dashboard:read"; "statistics:read"; "traffic_map:read"; "drops:read"; "ai_detection:read";
   "access_control:read"; "geo_block:read"; "dns_filter:read"; "rate_limit:read";
   "protocol_filter:read"; "system:read"; "fusion:read"; "flow_trace:read"].
Definition API_KEY_READ_WRITE_PERMISSIONS : list string :=
  ["dashboard:read"; "statistics:read"; "ai_detection:read"; "ai_detection:write";
   "access_control:read"; "access_control:write"; "geo_block:read"; "geo_block:write";
   "dns_filter:read"; "dns_filter:write"; "rate_limit:read"; "rate_limit:write"; "system:read";
   "system:write"].
Definition API_KEY_READ_ONLY_PERMISSIONS : list string :=
  ["dashboard:read"; "statistics:read"; "ai_detection:read"; "access_control:read"; "geo_block:read";
   "dns_filter:read"; "rate_limit:read"; "system:read"].
Definition API_KEY_FULL_ACCESS_PERMISSIONS : list string := ADMIN_PERMISSIONS.

Inductive PermissionLevel : Type := ReadOnly | ReadWrite | FullAccess.
#[export] Instance PermissionLevel_eq_dec : EqDecision PermissionLevel.
Proof. solve_decision. Defined.

Definition level_as_str (l : PermissionLevel) : string :=
  match l with ReadOnly => "read_only" | ReadWrite => "read_write" | FullAccess => "full_access" end.
Definition level_from_str (s : string) : option PermissionLevel :=
  if String.eqb s "read_only" then Some ReadOnly
  else if String.eqb s "read_write" then Some ReadWrite
  else if String.eqb s "full_access" then Some FullAccess
  else None.
Definition level_permissions (l : PermissionLevel) : list string :=
  match l with
  | ReadOnly => API_KEY_READ_ONLY_PERMISSIONS
  | ReadWrite => API_KEY_READ_WRITE_PERMISSIONS
  | FullAccess => API_KEY_FULL_ACCESS_PERMISSIONS
  end.

Record Claims : Type := mk_claims {
  sub : Z; cl_username : string; cl_role : string; cl_permissions : list string }.

(** [role_from_group_names] of core/identity/user_service.rs *)
Definition role_from_group_names (names : list string) : string :=
  if existsb (fun name => String.eqb name GROUP_ADMIN) names then ROLE_ADMIN else ROLE_VIEWER.

(** ** Validation *)

(** A predicate on ASCII characters, false on all others. *)
Definition ascii_char (f : ascii -> bool) (c : string) : bool :=
  match c with
  | String a "" => (code a <? 128) && f a
  | _ => false
  end.
Definition is_alphabetic (c : ascii) : bool := is_alnum c && negb (is_digit c).
(** [char::is_control]: general category Cc. *)
Definition is_control (c : string) : bool :=
  let x := scalar c in ((0 <=? x) && (x <=? 31)) || ((127 <=? x) && (x <=? 159)).

Definition validate_username (username : string) : result string unit :=
  if is_empty username || (32 <? Z.of_nat (String.length username)) then
    Err "Username must be 1-32 characters"
  else if negb (forallb (fun c => ascii_char is_alnum c || String.eqb c "_") (chars username)) then
    Err "Username must contain only alphanumeric characters and underscores"
  else Ok tt.

Definition validate_api_key_name (name : string) : result string unit :=
  let len := length (chars name) in
  if (len =? 0)%nat || (64 <? len)%nat then Err "API key name must be 1-64 characters"
  else if existsb is_control (chars name) then Err "API key name must not contain control characters"
  else Ok tt.

Definition validate_password (password : string) : result string unit :=
  if Z.of_nat (String.length password) <? 8 then Err "Password must be at least 8 characters"
  else
    let has_letter := existsb (ascii_char is_alphabetic) (chars password) in
    let has_digit := existsb (ascii_char is_digit) (chars password) in
    let has_symbol := existsb (fun c => negb (ascii_char is_alnum c)) (chars password) in
    if negb has_letter || negb has_digit || negb has_symbol then
      Err "Password must contain at least one letter, one digit, and one symbol"
    else Ok tt.

(** ** Secrets *)

(** The loop of [constant_time_eq]: [candidate] past its end reads as 0. *)
Fixpoint diff_loop (expected candidate : bytes) (diff : Z) : Z :=
  match expected with
  | [] => diff
  | e :: expected =>
      let c := match candidate with c :: _ => c | [] => 0 end in
      diff_loop expected (tail candidate) (Z.lor diff (Z.lxor e c))
  end.
Definition constant_time_eq (expected candidate : string) : bool :=
  let e := str_bytes expected in
  let c := str_bytes candidate in
  diff_loop e c (Z.lxor (Z.of_nat (length e)) (Z.of_nat (length c))) =? 0.

(** ** Sessions *)

(** What the service reads of the HTTP configuration. *)
Record SessionConfig : Type := mk_session_config {
  session_expiry_hours : Z; session_idle_timeout_minutes : Z; force_https : bool }.

Record SessionRecord : Type := mk_session {
  claims : Claims; csrf_token : string; expires_at_secs : Z; last_seen_secs : Z }.

Record CreatedSession : Type := mk_created { cs_id : string; cs_csrf_token : string; cs_max_age_secs : Z }.

Inductive CsrfTokenStatus : Type := Valid | Invalid | Expired | MissingSession.
#[export] Instance CsrfTokenStatus_eq_dec : EqDecision CsrfTokenStatus.
Proof. solve_decision. Defined.

Definition GC_INTERVAL_LOGINS : Z := 64.

Record SessionService : Type := mk_sessions { sessions : gmap string SessionRecord; login_counter : Z }.
Definition new_sessions : SessionService := mk_sessions ∅ 0.

Definition session_max_age_secs (cfg : SessionConfig) : Z := saturating_mul 64 (session_expiry_hours cfg) 3600.
Definition session_idle_timeout_secs (cfg : SessionConfig) : Z :=
  saturating_mul 64 (session_idle_timeout_minutes cfg) 60.

Definition record_expired (cfg : SessionConfig) (record : SessionRecord) (now : Z) : bool :=
  if expires_at_secs record <=? now then true
  else session_idle_timeout_secs cfg <=? saturating_sub now (last_seen_secs record).

Definition remove_expired_sessions (cfg : SessionConfig) (now : Z) (m : gmap string SessionRecord) :
    gmap string SessionRecord :=
  filter (fun kv => record_expired cfg kv.2 now = false) m.

(** [session_id] and [token] are the two random tokens. *)
Definition create_session (cfg : SessionConfig) (now : Z) (session_id token : string) (c : Claims)
    (s : SessionService) : CreatedSession * SessionService :=
  let counter := login_counter s in
  let m := if counter mod GC_INTERVAL_LOGINS =? 0 then remove_expired_sessions cfg now (sessions s) else sessions s in
  let max_age_secs := session_max_age_secs cfg in
  let record := mk_session c token (saturating_add 64 now max_age_secs) now in
  (mk_created session_id token max_age_secs,
   mk_sessions (<[session_id := record]> m) (wrapping_add 32 counter 1)).

Definition touch (now : Z) (r : SessionRecord) : SessionRecord :=
  mk_session (claims r) (csrf_token r) (expires_at_secs r) now.

Definition claims_for_session (cfg : SessionConfig) (now : Z) (session_id : string) (s : SessionService) :
    option Claims * SessionService :=
  match sessions s !! session_id with
  | None => (None, s)
  | Some entry =>
      if record_expired cfg entry now then (None, mk_sessions (delete session_id (sessions s)) (login_counter s))
      else (Some (claims entry), mk_sessions (<[session_id := touch now entry]> (sessions s)) (login_counter s))
  end.

Definition csrf_token_status (cfg : SessionConfig) (now : Z) (session_id token : string) (s : SessionService) :
    CsrfTokenStatus :=
  match sessions s !! session_id with
  | None => MissingSession
  | Some entry =>
      if record_expired cfg entry now then Expired
      else if constant_time_eq (csrf_token entry) token then Valid else Invalid
  end.

Definition csrf_token_for_session (cfg : SessionConfig) (now : Z) (session_id : string) (s : SessionService) :
    option string :=
  let! entry := sessions s !! session_id else None in
  if record_expired cfg entry now then None else Some (csrf_token entry).

Definition remove_session (session_id : string) (s : SessionService) : SessionService :=
  mk_sessions (delete session_id (sessions s)) (login_counter s).

Definition remove_sessions_for_user (user_id : Z) (s : SessionService) : SessionService :=
  mk_sessions (filter (fun kv : string * SessionRecord => sub (claims kv.2) <> user_id) (sessions s)) (login_counter s).

(** ** Comparison of secrets *)

Lemma lor_zero (a b : Z) : 0 <= a -> 0 <= b -> Z.lor a b = 0 <-> a = 0 /\ b = 0.
Proof. intros _ _. apply Z.lor_eq_0_iff. Qed.

Lemma diff_loop_zero (e c : bytes) (d : Z) :
  bytes_ok e -> bytes_ok c -> 0 <= d ->
  diff_loop e c d = 0 <-> d = 0 /\ forall i x, e !! i = Some x -> x = default 0 (c !! i).
Proof.
  intros He. revert c d. induction He as [|x e Hx He IH]; intros c d Hc Hd; cbn [diff_loop].
  - split; [intros ->; split; [done|]|by intros [? _]]. intros i x. by rewrite lookup_nil.
  - set (y := match c with y :: _ => y | [] => 0 end).
    assert (0 <= y /\ y = default 0 (c !! 0%nat)) as [Hy Hy0] by (destruct Hc as [|y' c' Hy' _]; [done|unfold byte_ok in Hy'; cbn in *; lia]).
    assert (0 <= Z.lxor x y) by (unfold byte_ok in Hx; apply Z.lxor_nonneg; lia).
    assert (bytes_ok (tail c)) by (destruct Hc; [constructor|assumption]).
    rewrite IH; [|done|apply Z.lor_nonneg; lia]. rewrite lor_zero by done. rewrite Z.lxor_eq_0_iff.
    split.
    + intros [[-> ->] Hall]. split; [done|]. intros [|i] z; cbn [lookup list_lookup].
      * by intros [= <-].
      * intros Hz. rewrite (Hall i z Hz). by destruct c.
    + intros [-> Hall]. split; [split; [done|]|].
      * rewrite Hy0. by apply (Hall 0%nat).
      * intros i z Hz. rewrite (Hall (S i) z Hz). by destruct c.
Qed.

Lemma str_bytes_ok (s : string) : bytes_ok (str_bytes s).
Proof.
  induction s as [|a s IH]; constructor; [|done]. unfold byte_ok. pose proof (nat_ascii_bounded a). lia.
Qed.

Lemma constant_time_eq_spec (expected candidate : string) :
  constant_time_eq expected candidate = true <-> expected = candidate.
Proof.
  unfold constant_time_eq. cbv zeta. rewrite Z.eqb_eq.
  pose proof (str_bytes_ok expected) as He. pose proof (str_bytes_ok candidate) as Hc.
  rewrite diff_loop_zero by (done || (apply Z.lxor_nonneg; lia)). rewrite Z.lxor_eq_0_iff.
  split; [|intros ->; split; [done|]; by intros i x ->].
  intros [Hlen Hall]. apply str_bytes_inj, list_eq. intros i.
  destruct (str_bytes expected !! i) as [x|] eqn:Hx.
  - rewrite (Hall i x Hx). destruct (lookup_lt_is_Some_2 (str_bytes candidate) i) as [y ->]; [|done].
    apply lookup_lt_Some in Hx. lia.
  - apply lookup_ge_None in Hx. symmetry. apply lookup_ge_None. lia.
Qed.

(** The constant-time comparison of secrets is equality of strings, whatever
    their lengths: no early exit, padding or length mix-up makes two different
    tokens equal. *)
Theorem constant_time_eq_is_equality (expected candidate : string) :
  constant_time_eq expected candidate = bool_decide (expected = candidate).
Proof.
  destruct (constant_time_eq expected candidate) eqn:E; symmetry.
  - apply bool_decide_eq_true_2. by apply constant_time_eq_spec.
  - apply bool_decide_eq_false_2. intros H%constant_time_eq_spec. congruence.
Qed.

(** ** The life of a session *)

Inductive session_op : Type :=
  | CreateOp (cfg : SessionConfig) (now : Z) (id token : string) (c : Claims)
  | UseOp (cfg : SessionConfig) (now : Z) (id : string)
  | RemoveOp (id : string)
  | RemoveUserOp (user_id : Z).

Definition session_step (o : session_op) (s : SessionService) : SessionService :=
  match o with
  | CreateOp cfg now id token c => (create_session cfg now id token c s).2
  | UseOp cfg now id => (claims_for_session cfg now id s).2
  | RemoveOp id => remove_session id s
  | RemoveUserOp user_id => remove_sessions_for_user user_id s
  end.
Definition session_run (ops : list session_op) : SessionService := foldl (fun s o => session_step o s) new_sessions ops.

(** Steps that end session [id] of user [uid], or replace it. *)
Definition ends_session (id : string) (uid : Z) (o : session_op) : Prop :=
  match o with
  | CreateOp _ _ id' _ _ | RemoveOp id' => id' = id
  | UseOp _ _ _ => False
  | RemoveUserOp uid' => uid' = uid
  end.
(** Steps that count as activity of session [id] at time [t]. *)
Definition activity (id : string) (t : Z) (o : session_op) : Prop :=
  match o with
  | CreateOp _ now id' _ _ | UseOp _ now id' => id' = id /\ now = t
  | _ => False
  end.

(** A stored record was created once, was last active at its time stamp and has
    not been ended since. *)
Definition session_origin (ops : list session_op) (id : string) (r : SessionRecord) : Prop :=
  exists pre cfg t token post,
    ops = (pre ++ CreateOp cfg t id token (claims r) :: post)%list /\
    csrf_token r = token /\ expires_at_secs r = saturating_add 64 t (session_max_age_secs cfg) /\
    Forall (fun o => ~ ends_session id (sub (claims r)) o) post /\
    Exists (activity id (last_seen_secs r)) (CreateOp cfg t id token (claims r) :: post).

Lemma session_origin_snoc (ops : list session_op) (o : session_op) (id : string) (r : SessionRecord) :
  session_origin ops id r -> ~ ends_session id (sub (claims r)) o -> session_origin (ops ++ [o]) id r.
Proof.
  intros (pre & cfg & t & token & post & -> & Ht & He & Hf & Hx) Ho.
  exists pre, cfg, t, token, (post ++ [o])%list. split_and!; [by rewrite <- app_assoc|done|done| |].
  - apply Forall_app. split; [done|]. by constructor.
  - rewrite app_comm_cons. apply Exists_app. by left.
Qed.

Lemma session_origin_touch (ops : list session_op) (cfg : SessionConfig) (now : Z) (id : string) (r : SessionRecord) :
  session_origin ops id r -> session_origin (ops ++ [UseOp cfg now id]) id (touch now r).
Proof.
  intros (pre & cfg' & t & token & post & -> & Ht & He & Hf & Hx).
  exists pre, cfg', t, token, (post ++ [UseOp cfg now id])%list. cbn [touch claims csrf_token expires_at_secs last_seen_secs].
  split_and!; [by rewrite <- app_assoc|done|done| |].
  - apply Forall_app. split; [done|]. constructor; [|done]. cbn. tauto.
  - rewrite app_comm_cons. apply Exists_app. right. constructor. done.
Qed.

Lemma session_run_origin (ops : list session_op) (id : string) (r : SessionRecord) :
  sessions (session_run ops) !! id = Some r -> session_origin ops id r.
Proof.
  unfold session_run. revert id r. induction ops as [|o ops IH] using rev_ind; intros id r.
  { cbn. by rewrite lookup_empty. }
  rewrite foldl_app. cbn [foldl]. set (s := foldl _ _ _) in *. destruct o as [cfg now id' token c|cfg now id'|id'|uid]; cbn [session_step].
  - unfold create_session. cbn [snd sessions].
    destruct (decide (id' = id)) as [->|Hne].
    + rewrite lookup_insert_eq. intros [= <-]. exists ops, cfg, now, token, []. cbn. split_and!; try done.
      constructor. done.
    + rewrite lookup_insert_ne by done. intros Hr. apply session_origin_snoc; [apply IH|by cbn].
      destruct (login_counter s mod GC_INTERVAL_LOGINS =? 0); [|done].
      unfold remove_expired_sessions in Hr. by apply map_lookup_filter_Some in Hr as [? _].
  - unfold claims_for_session. destruct (sessions s !! id') as [e|] eqn:E; [destruct (record_expired cfg e now)|]; cbn [snd sessions].
    + intros [_ Hr]%lookup_delete_Some. apply session_origin_snoc; [by apply IH|cbn; tauto].
    + destruct (decide (id' = id)) as [->|Hne].
      * rewrite lookup_insert_eq. intros [= <-]. by apply session_origin_touch, IH.
      * rewrite lookup_insert_ne by done. intros Hr. apply session_origin_snoc; [by apply IH|cbn; tauto].
    + intros Hr. apply session_origin_snoc; [by apply IH|cbn; tauto].
  - cbn [remove_session sessions]. intros [Hne Hr]%lookup_delete_Some.
    apply session_origin_snoc; [by apply IH|]. cbn. congruence.
  - cbn [remove_sessions_for_user sessions]. intros [Hr Hne]%map_lookup_filter_Some.
    apply session_origin_snoc; [by apply IH|]. cbn in *. congruence.
Qed.

(** A session is honoured only with the claims it was created with, before its
    absolute expiry, within the idle timeout of its last activity, and never after
    it was removed, its user's sessions were removed or its identifier was
    reused. *)
Theorem session_honoured_only_while_live (ops : list session_op) (cfg : SessionConfig) (now : Z) (id : string) (c : Claims) :
  (claims_for_session cfg now id (session_run ops)).1 = Some c ->
  exists pre cfg0 created token post used,
    ops = (pre ++ CreateOp cfg0 created id token c :: post)%list /\
    now < created + session_max_age_secs cfg0 /\
    Forall (fun o => ~ ends_session id (sub c) o) post /\
    Exists (activity id used) (CreateOp cfg0 created id token c :: post) /\
    saturating_sub now used < session_idle_timeout_secs cfg.
Proof.
  unfold claims_for_session. destruct (sessions (session_run ops) !! id) as [r|] eqn:E; [|done].
  destruct (record_expired cfg r now) eqn:Hx; [done|]. intros [= <-].
  apply session_run_origin in E as (pre & cfg0 & t & token & post & Hops & Ht & He & Hf & Hact).
  exists pre, cfg0, t, token, post, (last_seen_secs r). unfold record_expired in Hx.
  destruct (Z.leb_spec (expires_at_secs r) now) as [|Hnow]; [done|]. apply Z.leb_gt in Hx.
  split_and!; try done. rewrite He in Hnow. unfold saturating_add in Hnow. lia.
Qed.

Lemma session_honoured_only_while_live_witness :
  let cfg := mk_session_config 24 30 false in
  let c := mk_claims 1 "admin" ROLE_ADMIN ADMIN_PERMISSIONS in
  let ops := [CreateOp cfg 100 "s" "t" c; UseOp cfg 1000 "s"] in
  exists pre cfg0 created token post,
    ops = (pre ++ CreateOp cfg0 created "s" token c :: post)%list /\ 2700 < created + session_max_age_secs cfg0.
Proof.
  intros cfg c ops.
  destruct (session_honoured_only_while_live ops cfg 2700 "s" c eq_refl) as (pre & cfg0 & t & k & post & _ & H1 & H2 & _).
  exists pre, cfg0, t, k, post. split; assumption.
Defined.
