(* ===== verification/Users.v ===== *)
(** * Users and groups

    The rows of users, groups, memberships, login attempts and API keys with the
    statements on them (adapter/persistence/user.rs, api_key.rs) and the services
    above (core/identity/auth_service.rs, user_service.rs, group_service.rs).

    A statement or transaction is a function on the database that fails without
    effect; a call takes one entry of the world's failures, [true] making it fail
    as a whole.  JSON and password hashing are parameters. *)

From Stdlib Require Import ZArith Lia List Ascii String.
From stdpp Require Import base list gmap sets strings sorting.
From S2P Require Import Prelude RStr Identity.

Local Open Scope string_scope.
Local Open Scope Z_scope.

(** ** Rows *)

(** [role] is written and never read back. *)
Record UserRow : Type := mk_user_row {
  u_id : Z; u_name : string; u_hash : string; u_role : string; u_force : bool; u_created : Z }.
(** [permissions] is JSON text. *)
Record GroupRow : Type := mk_group_row {
  g_id : Z; g_name : string; g_description : string; g_permissions : string; g_created : Z }.
Record ApiKeyRow : Type := mk_key_row {
  k_id : Z; k_hash : string; k_name : string; k_level : string; k_created : Z; k_last_used : option Z }.

Record idb : Type := mk_idb {
  users : list UserRow; next_user : Z;
  user_groups : list GroupRow; next_group : Z;
  user_group_members : list (Z * Z);
  login_attempts : gmap string (Z * option Z);
  api_keys : list ApiKeyRow; next_key : Z }.

Definition set_users (d : idb) (l : list UserRow) (n : Z) : idb :=
  mk_idb l n (user_groups d) (next_group d) (user_group_members d) (login_attempts d) (api_keys d) (next_key d).
Definition set_groups (d : idb) (l : list GroupRow) (n : Z) : idb :=
  mk_idb (users d) (next_user d) l n (user_group_members d) (login_attempts d) (api_keys d) (next_key d).
Definition set_members (d : idb) (l : list (Z * Z)) : idb :=
  mk_idb (users d) (next_user d) (user_groups d) (next_group d) l (login_attempts d) (api_keys d) (next_key d).
Definition set_attempts (d : idb) (m : gmap string (Z * option Z)) : idb :=
  mk_idb (users d) (next_user d) (user_groups d) (next_group d) (user_group_members d) m (api_keys d) (next_key d).
Definition set_keys (d : idb) (l : list ApiKeyRow) (n : Z) : idb :=
  mk_idb (users d) (next_user d) (user_groups d) (next_group d) (user_group_members d) (login_attempts d) l n.

Record UserView : Type := mk_user_view { uv_id : Z; uv_username : string; uv_password_hash : string; uv_force : bool }.
Definition user_from_row (r : UserRow) : UserView := mk_user_view (u_id r) (u_name r) (u_hash r) (u_force r).

(** ** Statements *)

Inductive DbError : Type :=
  | QueryFailed
  | UserAlreadyExists (username : string)
  | GroupAlreadyExists (name : string)
  | UserNotFound (user_id : Z)
  | PersistedValueInvalid (table column : string)
  | PersistedJsonInvalid (row : Z)
  | DeserializeFailed.
#[export] Instance DbError_eq_dec : EqDecision DbError.
Proof. solve_decision. Defined.

(** A statement or transaction: what it returns and the database after it. *)
Definition tx (A : Type) : Type := idb -> result DbError (A * idb).
Definition query {A} (f : idb -> A) : tx A := fun d => Ok (f d, d).

Definition user_by_id (id : Z) (d : idb) : option UserRow := List.find (fun u => u_id u =? id) (users d).
Definition user_by_name (name : string) (d : idb) : option UserRow :=
  List.find (fun u => String.eqb (u_name u) name) (users d).
Definition group_by_id (id : Z) (d : idb) : option GroupRow := List.find (fun g => g_id g =? id) (user_groups d).
Definition group_by_name (name : string) (d : idb) : option GroupRow :=
  List.find (fun g => String.eqb (g_name g) name) (user_groups d).
Definition is_some {A} (o : option A) : bool := match o with Some _ => true | None => false end.

Definition find_user (username : string) : tx (option UserView) :=
  query (fun d => user_from_row <$> user_by_name username d).
Definition find_user_by_id (user_id : Z) : tx (option UserView) :=
  query (fun d => user_from_row <$> user_by_id user_id d).

(** [username] is UNIQUE, [id] AUTOINCREMENT. *)
Definition insert_user (now : Z) (username password_hash role : string) (force_password_change : bool) : tx Z := fun d =>
  if is_some (user_by_name username d) then Err (UserAlreadyExists username)
  else
    let row := mk_user_row (next_user d) username password_hash role force_password_change now in
    Ok (next_user d, set_users d (users d ++ [row])%list (next_user d + 1)).

Definition update_user (user_id : Z) (f : UserRow -> UserRow) (d : idb) : idb :=
  set_users d (map (fun u => if u_id u =? user_id then f u else u) (users d)) (next_user d).

Definition set_password (password_hash : string) (force : bool) (u : UserRow) : UserRow :=
  mk_user_row (u_id u) (u_name u) password_hash (u_role u) force (u_created u).
Definition update_user_password (user_id : Z) (password_hash : string) : tx unit := fun d =>
  if is_some (user_by_id user_id d) then Ok (tt, update_user user_id (set_password password_hash false) d)
  else Err (UserNotFound user_id).
Definition reset_user_password (user_id : Z) (password_hash : string) : tx unit := fun d =>
  if is_some (user_by_id user_id d) then Ok (tt, update_user user_id (set_password password_hash true) d)
  else Err (UserNotFound user_id).

Definition members_without (user_id : Z) (d : idb) : list (Z * Z) :=
  filter (fun m => m.1 <> user_id) (user_group_members d).

Definition delete_user (user_id : Z) : tx bool := fun d =>
  let affected := is_some (user_by_id user_id d) in
  let d := set_members d (members_without user_id d) in
  Ok (affected, set_users d (filter (fun u => u_id u <> user_id) (users d)) (next_user d)).

Definition set_role (role : string) (u : UserRow) : UserRow :=
  mk_user_row (u_id u) (u_name u) (u_hash u) role (u_force u) (u_created u).
(** The membership's foreign key needs the user. *)
Definition update_user_role (user_id : Z) (role : string) : tx unit := fun d =>
  let d := update_user user_id (set_role role) d in
  let group_name := if String.eqb role ROLE_ADMIN then GROUP_ADMIN else GROUP_VIEWER in
  match group_by_name group_name d with
  | None => Err QueryFailed
  | Some g =>
      if is_some (user_by_id user_id d)
      then Ok (tt, set_members d (members_without user_id d ++ [(user_id, g_id g)])%list)
      else Err QueryFailed
  end.

(** ** Groups *)

Definition list_user_groups : tx (list GroupRow) := query user_groups.
Definition get_user_group (id : Z) : tx (option GroupRow) := query (group_by_id id).
Definition list_group_member_ids (group_id : Z) : tx (list Z) :=
  query (fun d => map fst (filter (fun m => m.2 = group_id) (user_group_members d))).
(** [ORDER BY g.id]: rows are kept in the order of their identifiers. *)
Definition groups_of (user_id : Z) (d : idb) : list GroupRow :=
  filter (fun g => (user_id, g_id g) ∈ user_group_members d) (user_groups d).
Definition list_groups_for_user (user_id : Z) : tx (list GroupRow) := query (groups_of user_id).

(** [name] is UNIQUE. *)
Definition create_user_group (now : Z) (name description permissions : string) : tx Z := fun d =>
  if is_some (group_by_name name d) then Err (GroupAlreadyExists name)
  else
    let row := mk_group_row (next_group d) name description permissions now in
    Ok (next_group d, set_groups d (user_groups d ++ [row])%list (next_group d + 1)).

Definition update_user_group (id : Z) (name description permissions : string) : tx unit := fun d =>
  if existsb (fun g => String.eqb (g_name g) name && negb (g_id g =? id)) (user_groups d)
     && is_some (group_by_id id d) then Err QueryFailed
  else Ok (tt, set_groups d (map (fun g => if g_id g =? id
                                           then mk_group_row (g_id g) name description permissions (g_created g)
                                           else g) (user_groups d)) (next_group d)).

Definition delete_user_group (id : Z) : tx bool := fun d =>
  let affected := is_some (group_by_id id d) in
  let d := set_members d (filter (fun m => m.2 <> id) (user_group_members d)) in
  Ok (affected, set_groups d (filter (fun g => g_id g <> id) (user_groups d)) (next_group d)).

(** Every group must exist; the pair is the primary key, the user a foreign key. *)
Definition set_user_groups (user_id : Z) (group_ids : list Z) : tx unit := fun d =>
  if negb (forallb (fun gid => is_some (group_by_id gid d)) group_ids) then Err QueryFailed
  else if negb (bool_decide (NoDup group_ids)) then Err QueryFailed
  else if negb (is_some (user_by_id user_id d)) && negb (bool_decide (group_ids = [])) then Err QueryFailed
  else Ok (tt, set_members d (members_without user_id d ++ map (fun gid => (user_id, gid)) group_ids)%list).

(** ** Login attempts *)

Definition decode_login_failure_count (value : Z) : result DbError Z :=
  if (0 <=? value) && (value <=? umax 32) then Ok value
  else Err (PersistedValueInvalid "login_attempts" "failure_count").
Definition encode_login_locked_until (value : Z) : result DbError Z :=
  if value <=? umax 63 then Ok value else Err (PersistedValueInvalid "login_attempts" "locked_until").
Definition decode_login_locked_until (value : option Z) : result DbError (option Z) :=
  match value with
  | Some value => if 0 <=? value then Ok (Some value) else Err (PersistedValueInvalid "login_attempts" "locked_until")
  | None => Ok None
  end.

Definition record_login_failure (now : Z) (username : string) : tx (Z * option Z) := fun d =>
  let? current_count :=
    match login_attempts d !! username with
    | Some (count, _) => decode_login_failure_count count
    | None => Ok 0
    end in
  let count := saturating_add 32 current_count 1 in
  let locked_until := if LOGIN_MAX_FAILURES <=? count then Some (saturating_add 64 now LOGIN_LOCKOUT_SECS) else None in
  let? locked_until_db :=
    match locked_until with
    | Some l => let? v := encode_login_locked_until l in Ok (Some v)
    | None => Ok None
    end in
  Ok ((count, locked_until), set_attempts d (<[username := (count, locked_until_db)]> (login_attempts d))).

Definition get_remaining_lock_secs (now : Z) (username : string) : tx (option Z) := fun d =>
  let? locked_until :=
    match login_attempts d !! username with
    | Some (_, value) => decode_login_locked_until value
    | None => Ok None
    end in
  Ok (match locked_until with
      | Some l => if now <? l then Some (l - now) else None
      | None => None
      end, d).

(** [now as i64]: no wrap-around before the year 292 277 026 596. *)
Definition clear_expired_login_lock (now : Z) (username : string) : tx unit := fun d =>
  Ok (tt, match login_attempts d !! username with
          | Some (_, Some l) =>
              if l <=? now then set_attempts d (delete username (login_attempts d)) else d
          | _ => d
          end).

Definition clear_login_failures (username : string) : tx unit := fun d =>
  Ok (tt, set_attempts d (delete username (login_attempts d))).

(** ** API keys *)

(** The use is committed before the level is decoded. *)
Definition validate_api_key (now : Z) (key_hash : string) : sm idb DbError (option Claims) := fun d =>
  match List.find (fun k => String.eqb (k_hash k) key_hash) (api_keys d) with
  | None => (Ok None, d)
  | Some k =>
      let d := set_keys d (map (fun r => if k_id r =? k_id k
                 then mk_key_row (k_id r) (k_hash r) (k_name r) (k_level r) (k_created r) (Some now) else r)
                 (api_keys d)) (next_key d) in
      match level_from_str (k_level k) with
      | None => (Err (PersistedValueInvalid "api_keys" "permission_level"), d)
      | Some level => (Ok (Some (mk_claims (- k_id k) ("api:" ++ k_name k) (k_level k) (level_permissions level))), d)
      end
  end.

Definition insert_api_key (now : Z) (key_hash name permission_level : string) : tx Z := fun d =>
  Ok (next_key d, set_keys d (api_keys d ++ [mk_key_row (next_key d) key_hash name permission_level now None])%list
                    (next_key d + 1)).
Definition list_api_keys : tx (list ApiKeyRow) := query api_keys.
Definition delete_api_key (id : Z) : tx bool := fun d =>
  Ok (existsb (fun k => k_id k =? id) (api_keys d),
      set_keys d (filter (fun k => k_id k <> id) (api_keys d)) (next_key d)).

(** ** JSON and passwords *)

(** [serde_json::Value]; a number is kept as its text. *)
Inductive Json : Type :=
  | JNull
  | JBool (b : bool)
  | JNumber (text : string)
  | JString (s : string)
  | JArray (l : list Json)
  | JObject (l : list (string * Json)).

(** [from_value::<Vec<String>>] *)
Definition string_of (j : Json) : option string := match j with JString s => Some s | _ => None end.
Definition strings_of (j : Json) : option (list string) :=
  match j with JArray l => mapM string_of l | _ => None end.

(** [serde_json]: parsing, and printing of string arrays, which parses back. *)
Class SerdeJson : Type := {
  json_parse : string -> option Json;
  json_print : list string -> string }.
Class SerdeJsonLaws (J : SerdeJson) : Prop :=
  json_parse_print : forall l, json_parse (json_print l) = Some (JArray (map JString l)).

(** [argon2]: hashing with a random salt may fail, verifying fails on a hash it
    cannot read. *)
Class PasswordHasher : Type := {
  hash_password : string -> string -> option string;
  verify_password : string -> string -> option bool }.
Class PasswordHasherLaws (H : PasswordHasher) : Prop :=
  verify_hash : forall salt p h, hash_password salt p = Some h -> verify_password p h = Some true.

(** ** The world *)

Record uworld : Type := mk_uworld { uw_db : idb; uw_faults : list bool }.

Definition db {A} (t : tx A) : sm uworld DbError A := fun w =>
  match uw_faults w with
  | true :: fs => (Err QueryFailed, mk_uworld (uw_db w) fs)
  | fs =>
      match t (uw_db w) with
      | Ok (a, d) => (Ok a, mk_uworld d (tail fs))
      | Err e => (Err e, mk_uworld (uw_db w) (tail fs))
      end
  end.

Definition sm_map_err {S E E' A} (f : E -> E') (m : sm S E A) : sm S E' A := fun w =>
  let '(r, w) := m w in (match r with Ok a => Ok a | Err e => Err (f e) end, w).
(** [ok_or_else(..)?] *)
Definition sm_some {S E A} (e : E) (o : option A) : sm S E A :=
  match o with Some a => sm_ret a | None => sm_fail e end.

Definition str_le (a b : string) : Prop := String.leb a b = true.
#[export] Instance str_le_dec : RelDecision str_le.
Proof. intros a b. unfold str_le. apply _. Defined.

Section Services.
Context `{J : SerdeJson} `{H : PasswordHasher}.

(** [from_str::<Vec<String>>] *)
Definition parse_string_array (text : string) : option (list string) := json_parse text ≫= strings_of.

(** The union of the groups' permissions, sorted. *)
Fixpoint collect_permissions (groups : list GroupRow) (acc : gset string) : result DbError (gset string) :=
  match groups with
  | [] => Ok acc
  | g :: groups =>
      match parse_string_array (g_permissions g) with
      | None => Err (PersistedJsonInvalid (g_id g))
      | Some perms => collect_permissions groups (acc ∪ list_to_set perms)
      end
  end.
Definition list_user_permissions (user_id : Z) : sm uworld DbError (list string) :=
  do! groups := db (list_groups_for_user user_id) in
  do! all_perms := sm_lift (collect_permissions groups ∅) in
  sm_ret (merge_sort str_le (elements all_perms)).

(** ** auth_service.rs *)

Definition DUMMY_HASH : string :=
  "$argon2id$v=19$m=19456,t=2,p=1$dW5rbm93bg$QUFBQUFBQUFBQUFBQUFBQUFBQUFBQUFBQUFBQUFBQUE".

Inductive LoginError : Type := Locked (retry_after_secs : Z) | InvalidCredentials | InternalError.
Inductive RegisterError : Type :=
  | RegisterValidation (reason : string)
  | InvalidRole
  | RegisterForbidden
  | RegisterHashFailed
  | RegisterConflict (err : DbError)
  | RegisterInternal (err : option DbError).
Inductive UserError : Type :=
  | UserValidation (reason : string)
  | Unauthorized
  | UserForbidden (reason : string)
  | UserMissing
  | UserHashFailed
  | UserInternal (err : DbError).
Inductive GroupError : Type :=
  | GroupValidation (reason : string)
  | GroupForbidden (reason : string)
  | GroupMissing
  | GroupConflict (err : DbError)
  | GroupInternal (err : DbError).

Record LoginResult : Type := mk_login {
  lr_user_id : Z; lr_username : string; lr_role : string; lr_permissions : list string; lr_force : bool }.

Definition derive_role (user_id : Z) : sm uworld DbError string :=
  do! groups := db (list_groups_for_user user_id) in
  sm_ret (role_from_group_names (map g_name groups)).

(** A failure is recorded; an error of the record is only logged. *)
Definition reject_login (now : Z) (username : string) : sm uworld LoginError LoginResult :=
  run! sm_try (db (record_login_failure now username)) in sm_fail InvalidCredentials.

Definition check_lock (now : Z) (username : string) : sm uworld LoginError unit :=
  do! lock := sm_try (db (get_remaining_lock_secs now username)) in
  match lock with
  | Ok (Some remaining) => sm_fail (Locked remaining)
  | Ok None => sm_map_err (fun _ => InternalError) (db (clear_expired_login_lock now username))
  | Err _ => sm_fail InternalError
  end.

Definition login (now : Z) (username raw_password : string) : sm uworld LoginError LoginResult :=
  run! check_lock now username in
  do! found := sm_try (db (find_user username)) in
  match found with
  | Ok (Some user) =>
      match verify_password raw_password (uv_password_hash user) with
      | Some true =>
          run! sm_try (db (clear_login_failures username)) in
          do! permissions := sm_map_err (fun _ => InternalError) (list_user_permissions (uv_id user)) in
          let permissions := if uv_force user then [] else permissions in
          do! role := sm_map_err (fun _ => InternalError) (derive_role (uv_id user)) in
          sm_ret (mk_login (uv_id user) (uv_username user) role permissions (uv_force user))
      | _ => reject_login now username
      end
  | _ =>
      (* the password is checked against a dummy hash to take the same time *)
      let _ := verify_password raw_password DUMMY_HASH in
      reject_login now username
  end.

Definition default_group_id (group_name : string) : sm uworld RegisterError Z :=
  do! groups := sm_map_err (fun e => RegisterInternal (Some e)) (db list_user_groups) in
  sm_some (RegisterInternal None) (g_id <$> List.find (fun g => String.eqb (g_name g) group_name) groups).

(** [salt] is the random salt of the hash. *)
Definition register (now : Z) (salt username raw_password role caller_role : string) : sm uworld RegisterError Z :=
  run! sm_map_err RegisterValidation (sm_lift (validate_username username)) in
  run! sm_map_err RegisterValidation (sm_lift (validate_password raw_password)) in
  if negb (String.eqb role ROLE_ADMIN) && negb (String.eqb role ROLE_VIEWER) then sm_fail InvalidRole
  else if String.eqb role ROLE_ADMIN && negb (String.eqb caller_role ROLE_ADMIN) then sm_fail RegisterForbidden
  else
    let default_group := if String.eqb role ROLE_ADMIN then GROUP_ADMIN else GROUP_VIEWER in
    do! group_id := default_group_id default_group in
    do! hash := sm_some RegisterHashFailed (hash_password salt raw_password) in
    do! new_id := sm_map_err RegisterConflict (db (insert_user now username hash role false)) in
    do! assigned := sm_try (db (set_user_groups new_id [group_id])) in
    match assigned with
    | Ok _ => sm_ret new_id
    | Err e =>
        run! sm_try (db (delete_user new_id)) in
        sm_fail (RegisterInternal (Some e))
    end.

(** ** user_service.rs *)

Record UserProfile : Type := mk_profile {
  pr_id : Z; pr_username : string; pr_role : string; pr_permissions : list string; pr_groups : list string }.

Definition user_profile (user_id : Z) (username : string) : sm uworld DbError UserProfile :=
  do! groups_raw := db (list_groups_for_user user_id) in
  let role := role_from_group_names (map g_name groups_raw) in
  do! permissions := list_user_permissions user_id in
  sm_ret (mk_profile user_id username role permissions (map g_name groups_raw)).

(** [find_user_by_id(..)?.ok_or(NotFound)?] *)
Definition require_user (user_id : Z) : sm uworld UserError UserView :=
  do! user := sm_map_err UserInternal (db (find_user_by_id user_id)) in sm_some UserMissing user.

Definition change_password (salt : string) (user_id : Z) (current_password new_password : string) :
    sm uworld UserError unit :=
  run! sm_map_err UserValidation (sm_lift (validate_password new_password)) in
  do! user := require_user user_id in
  match verify_password current_password (uv_password_hash user) with
  | Some true =>
      do! new_hash := sm_some UserHashFailed (hash_password salt new_password) in
      sm_map_err UserInternal (db (update_user_password user_id new_hash))
  | _ => sm_fail Unauthorized
  end.

Definition delete_account (caller_user_id target_user_id : Z) : sm uworld UserError bool :=
  if caller_user_id =? target_user_id then sm_fail (UserValidation "Cannot delete your own account")
  else
    do! user := sm_map_err UserInternal (db (find_user_by_id target_user_id)) in
    if match user with Some user => String.eqb (uv_username user) DEFAULT_ADMIN_USERNAME | None => false end
    then sm_fail (UserForbidden "Cannot delete the built-in admin account")
    else sm_map_err UserInternal (db (delete_user target_user_id)).

Definition update_role (caller_user_id target_user_id : Z) (role : string) : sm uworld UserError unit :=
  if caller_user_id =? target_user_id then sm_fail (UserValidation "Cannot change your own role")
  else if negb (String.eqb role ROLE_ADMIN) && negb (String.eqb role ROLE_VIEWER)
  then sm_fail (UserValidation "Role must be 'admin' or 'viewer'")
  else
    do! user := require_user target_user_id in
    if String.eqb (uv_username user) DEFAULT_ADMIN_USERNAME
    then sm_fail (UserForbidden "Cannot change the built-in admin account role")
    else sm_map_err UserInternal (db (update_user_role target_user_id role)).

Definition reset_password (salt : string) (target_user_id : Z) (new_password : string) : sm uworld UserError unit :=
  run! sm_map_err UserValidation (sm_lift (validate_password new_password)) in
  run! require_user target_user_id in
  do! hash := sm_some UserHashFailed (hash_password salt new_password) in
  sm_map_err UserInternal (db (reset_user_password target_user_id hash)).

Definition assign_groups (caller_user_id target_user_id : Z) (group_ids : list Z) : sm uworld UserError unit :=
  if caller_user_id =? target_user_id then sm_fail (UserValidation "Cannot modify your own groups")
  else
    do! user := require_user target_user_id in
    if String.eqb (uv_username user) DEFAULT_ADMIN_USERNAME
    then sm_fail (UserForbidden "Cannot modify groups for the built-in admin account")
    else sm_map_err UserInternal (db (set_user_groups target_user_id group_ids)).
End Services.

(** ** The list of users *)

Record UserWithGroups : Type := mk_uwg {
  ug_id : Z; ug_username : string; ug_force : bool; ug_created : Z; ug_groups : list (Z * string) }.

(** The rows of the outer join, ordered by user and group. *)
Definition join_rows (d : idb) : list (UserRow * option (Z * string)) :=
  concat (map (fun u =>
    match groups_of (u_id u) d with
    | [] => [(u, None)]
    | gs => map (fun g => (u, Some (g_id g, g_name g))) gs
    end) (users d)).

Definition add_group (g : Z * string) (u : UserWithGroups) : UserWithGroups :=
  mk_uwg (ug_id u) (ug_username u) (ug_force u) (ug_created u) (ug_groups u ++ [g])%list.
(** The loop over the rows; the accumulator holds the users in reverse. *)
Fixpoint group_rows (rows : list (UserRow * option (Z * string))) (acc : list UserWithGroups) : list UserWithGroups :=
  match rows with
  | [] => rev acc
  | (u, g) :: rows =>
      let acc :=
        match acc with
        | last :: _ => if ug_id last =? u_id u then acc
                       else mk_uwg (u_id u) (u_name u) (u_force u) (u_created u) [] :: acc
        | [] => [mk_uwg (u_id u) (u_name u) (u_force u) (u_created u) []]
        end in
      let acc :=
        match g, acc with
        | Some g, last :: rest => add_group g last :: rest
        | _, _ => acc
        end in
      group_rows rows acc
  end.
Definition list_users_with_groups : tx (list UserWithGroups) := query (fun d => group_rows (join_rows d) []).

Record UserListEntry : Type := mk_entry {
  le_id : Z; le_username : string; le_role : string; le_force : bool; le_created : Z; le_groups : list (Z * string) }.
Definition list_users : sm uworld DbError (list UserListEntry) :=
  do! users := db list_users_with_groups in
  sm_ret (map (fun u => mk_entry (ug_id u) (ug_username u) (role_from_group_names (map snd (ug_groups u)))
                          (ug_force u) (ug_created u) (ug_groups u)) users).

(** ** group_service.rs *)

Record GroupDetail : Type := mk_detail {
  gd_id : Z; gd_name : string; gd_description : string; gd_permissions : Json; gd_created : Z; gd_members : list Z }.
Record GroupMutation : Type := mk_mutation {
  gm_id : Z; gm_name : string; gm_description : string; gm_permissions : Json }.

Definition is_builtin_group (name : string) : bool := String.eqb name GROUP_ADMIN || String.eqb name GROUP_VIEWER.

(** [ORDER BY u.username] *)
Definition username_le (a b : Z * string) : Prop := str_le a.2 b.2.
#[export] Instance username_le_dec : RelDecision username_le.
Proof. intros a b. unfold username_le. apply _. Defined.
Definition list_group_members (group_id : Z) : tx (list (Z * string)) :=
  query (fun d => merge_sort username_le
    (map (fun u => (u_id u, u_name u)) (filter (fun u => (u_id u, group_id) ∈ user_group_members d) (users d)))).

Section Groups.
Context `{J : SerdeJson}.

Definition parse_permissions (raw : string) : result DbError Json :=
  match json_parse raw with Some j => Ok j | None => Err DeserializeFailed end.

Definition permission_array_json (permissions : option Json) (default_text : string) : result GroupError (string * Json) :=
  match permissions with
  | Some value =>
      match strings_of value with
      | None => Err (GroupValidation "Permissions must be an array of strings")
      | Some permissions => Ok (json_print permissions, JArray (map JString permissions))
      end
  | None =>
      match parse_permissions default_text with
      | Ok j => Ok (default_text, j)
      | Err e => Err (GroupInternal e)
      end
  end.

(** One entry of [list_groups]. *)
Definition group_entry (g : GroupRow) : sm uworld DbError (GroupRow * Json * list (Z * string)) :=
  do! permissions := sm_lift (parse_permissions (g_permissions g)) in
  do! members := db (list_group_members (g_id g)) in
  sm_ret (g, permissions, members).
Fixpoint group_entries (groups : list GroupRow) : sm uworld DbError (list (GroupRow * Json * list (Z * string))) :=
  match groups with
  | [] => sm_ret []
  | g :: groups =>
      do! e := group_entry g in
      do! es := group_entries groups in
      sm_ret (e :: es)
  end.
Definition list_groups : sm uworld DbError (list (GroupRow * Json * list (Z * string))) :=
  do! groups := db list_user_groups in group_entries groups.

Definition create_group (now : Z) (name description : option string) (permissions : option Json) :
    sm uworld GroupError GroupMutation :=
  match name with
  | Some name =>
      if is_empty name then sm_fail (GroupValidation "Group name is required")
      else
        let description := default "" description in
        do! perms := sm_lift (permission_array_json permissions "[]") in
        let '(permissions, permissions_json) := perms in
        do! id := sm_map_err GroupConflict (db (create_user_group now name description permissions)) in
        sm_ret (mk_mutation id name description permissions_json)
  | None => sm_fail (GroupValidation "Group name is required")
  end.

Definition get_group (group_id : Z) : sm uworld DbError (option GroupDetail) :=
  do! found := db (get_user_group group_id) in
  match found with
  | None => sm_ret None
  | Some g =>
      do! permissions := sm_lift (parse_permissions (g_permissions g)) in
      do! members := db (list_group_member_ids group_id) in
      sm_ret (Some (mk_detail (g_id g) (g_name g) (g_description g) permissions (g_created g) members))
  end.

Definition update_group (group_id : Z) (name description : option string) (permissions : option Json) :
    sm uworld GroupError GroupMutation :=
  do! found := sm_map_err GroupInternal (db (get_user_group group_id)) in
  do! existing := sm_some GroupMissing found in
  if is_builtin_group (g_name existing) then sm_fail (GroupForbidden "Cannot modify built-in groups")
  else
    let name := default (g_name existing) name in
    let description := default (g_description existing) description in
    do! perms := sm_lift (permission_array_json permissions (g_permissions existing)) in
    let '(permissions, permissions_json) := perms in
    run! sm_map_err GroupInternal (db (update_user_group group_id name description permissions)) in
    sm_ret (mk_mutation group_id name description permissions_json).

Definition delete_group (group_id : Z) : sm uworld GroupError bool :=
  do! group := sm_map_err GroupInternal (db (get_user_group group_id)) in
  if match group with Some group => is_builtin_group (g_name group) | None => false end
  then sm_fail (GroupForbidden "Cannot delete built-in groups")
  else sm_map_err GroupInternal (db (delete_user_group group_id)).
End Groups.

(** ** First start *)

(** The two built-in groups of an empty database ([create_tables]). *)
Definition seed_groups `{J : SerdeJson} (now : Z) (d : idb) : idb :=
  match user_groups d with
  | [] =>
      let admin := mk_group_row (next_group d) GROUP_ADMIN "Full system access with all permissions"
                     (json_print ADMIN_PERMISSIONS) now in
      let viewer := mk_group_row (next_group d + 1) GROUP_VIEWER "Read-only access to all modules"
                      (json_print VIEWER_PERMISSIONS) now in
      set_groups d [admin; viewer] (next_group d + 2)
  | _ => d
  end.

(** What the setup transaction does to users: the administrator exists with the
    new password and belongs to the administrators. *)
Definition setup_admin (now : Z) (admin_username password_hash : string) : tx unit := fun d =>
  let d :=
    match user_by_name admin_username d with
    | Some u => update_user (u_id u) (set_password password_hash false) d
    | None => set_users d (users d ++ [mk_user_row (next_user d) admin_username password_hash ROLE_ADMIN false now])%list
                (next_user d + 1)
    end in
  match user_by_name admin_username d, group_by_name GROUP_ADMIN d with
  | Some u, Some g =>
      let m := (u_id u, g_id g) in
      Ok (tt, if bool_decide (m ∈ user_group_members d) then d
              else set_members d (user_group_members d ++ [m])%list)
  | _, _ => Err QueryFailed
  end.

(** ** Calls that do not fail *)

Lemma db_quiet {A} (t : tx A) (d : idb) :
  db t (mk_uworld d []) = match t d with
                          | Ok (a, d') => (Ok a, mk_uworld d' [])
                          | Err e => (Err e, mk_uworld d [])
                          end.
Proof. unfold db. cbn. by destruct (t d) as [[a d']|e]. Qed.

Lemma bind_ok {S E A B} (m : sm S E A) (f : A -> sm S E B) (w w' : S) (a : A) :
  m w = (Ok a, w') -> sm_bind m f w = f a w'.
Proof. intros Hm. unfold sm_bind. by rewrite Hm. Qed.
Lemma bind_err {S E A B} (m : sm S E A) (f : A -> sm S E B) (w w' : S) (e : E) :
  m w = (Err e, w') -> sm_bind m f w = (Err e, w').
Proof. intros Hm. unfold sm_bind. by rewrite Hm. Qed.
Lemma try_eq {S E E' A} (m : sm S E A) (w w' : S) (r : result E A) :
  m w = (r, w') -> sm_try (E' := E') m w = (Ok r, w').
Proof. intros Hm. unfold sm_try. by rewrite Hm. Qed.
Lemma map_err_ok {S E E' A} (f : E -> E') (m : sm S E A) (w w' : S) (a : A) :
  m w = (Ok a, w') -> sm_map_err f m w = (Ok a, w').
Proof. intros Hm. unfold sm_map_err. by rewrite Hm. Qed.
Lemma map_err_err {S E E' A} (f : E -> E') (m : sm S E A) (w w' : S) (e : E) :
  m w = (Err e, w') -> sm_map_err f m w = (Err (f e), w').
Proof. intros Hm. unfold sm_map_err. by rewrite Hm. Qed.

(** ** The lockout *)

Definition clock_ok (now : Z) : Prop := 0 <= now <= umax 63 - LOGIN_LOCKOUT_SECS.

Definition attempt_ok (row : Z * option Z) : Prop :=
  0 <= row.1 <= umax 32 /\ forall t, row.2 = Some t -> 0 <= t.
Definition attempts_ok (d : idb) : Prop := map_Forall (fun _ row => attempt_ok row) (login_attempts d).

(** The row once an expired lock is cleared, and after one more failure. *)
Definition after_check (now : Z) (row : option (Z * option Z)) : option (Z * option Z) :=
  match row with Some (_, Some l) => if l <=? now then None else row | _ => row end.
Definition after_failure (now : Z) (row : option (Z * option Z)) : Z * option Z :=
  let count := saturating_add 32 (match row with Some (c, _) => c | None => 0 end) 1 in
  (count, if LOGIN_MAX_FAILURES <=? count then Some (saturating_add 64 now LOGIN_LOCKOUT_SECS) else None).
Definition locked (now : Z) (row : option (Z * option Z)) : Prop :=
  exists c l, row = Some (c, Some l) /\ now < l.

Lemma umax_values : umax 32 = 4294967295 /\ umax 63 = 9223372036854775807 /\ umax 64 = 18446744073709551615.
Proof. done. Qed.

Lemma after_failure_ok (now : Z) (row : option (Z * option Z)) :
  clock_ok now -> match row with Some r => attempt_ok r | None => True end -> attempt_ok (after_failure now row).
Proof.
  unfold clock_ok, after_failure, attempt_ok, saturating_add, LOGIN_LOCKOUT_SECS. destruct umax_values as (-> & -> & ->).
  intros Hn Hr. cbn [fst snd]. split.
  - destruct row as [[c l]|]; cbn in *; lia.
  - intros t. destruct (LOGIN_MAX_FAILURES <=? _); [|done]. intros [= <-]. lia.
Qed.

Lemma record_failure_eq (now : Z) (username : string) (d : idb) :
  clock_ok now -> attempts_ok d ->
  record_login_failure now username d
    = Ok (after_failure now (login_attempts d !! username),
          set_attempts d (<[username := after_failure now (login_attempts d !! username)]> (login_attempts d))).
Proof.
  intros Hn Hok. unfold record_login_failure, after_failure.
  assert (match login_attempts d !! username with
          | Some (count, _) => decode_login_failure_count count
          | None => Ok 0
          end = Ok (match login_attempts d !! username with Some (c, _) => c | None => 0 end)) as ->.
  { destruct (login_attempts d !! username) as [[c l]|] eqn:E; [|done].
    destruct (Hok _ _ E) as [Hc _]. cbn [fst] in Hc. unfold decode_login_failure_count.
    by rewrite (proj2 (Z.leb_le 0 c)), (proj2 (Z.leb_le c (umax 32))) by lia. }
  cbn [res_bind]. cbv zeta. set (count := saturating_add 32 _ 1). destruct (LOGIN_MAX_FAILURES <=? count); [|done].
  unfold encode_login_locked_until.
  rewrite (proj2 (Z.leb_le _ (umax 63))) by (unfold clock_ok, saturating_add in *; lia). done.
Qed.

Lemma set_attempts_attempts (d : idb) (m : gmap string (Z * option Z)) : login_attempts (set_attempts d m) = m.
Proof. done. Qed.

Lemma clear_expired_ok (now : Z) (username : string) (d : idb) :
  attempts_ok d ->
  exists d1, clear_expired_login_lock now username d = Ok (tt, d1) /\ attempts_ok d1 /\
    users d1 = users d /\
    (login_attempts d1 !! username = after_check now (login_attempts d !! username)) /\
    (forall v, v <> username -> login_attempts d1 !! v = login_attempts d !! v).
Proof.
  intros Hok. unfold clear_expired_login_lock, after_check.
  destruct (login_attempts d !! username) as [[c [l|]]|] eqn:E; [destruct (l <=? now)|..];
    eexists; split_and!; try reflexivity; try done.
  - by apply map_Forall_delete.
  - cbn. by rewrite lookup_delete_eq.
  - intros v Hv. cbn. by rewrite lookup_delete_ne.
Qed.

(** The lock check of one attempt: refused while locked, else the expired lock
    is gone. *)
Lemma check_lock_quiet (now : Z) (username : string) (d : idb) :
  attempts_ok d ->
  (locked now (login_attempts d !! username) /\
   exists rem, check_lock now username (mk_uworld d []) = (Err (Locked rem), mk_uworld d [])) \/
  (~ locked now (login_attempts d !! username) /\
   exists d1, check_lock now username (mk_uworld d []) = (Ok tt, mk_uworld d1 []) /\ attempts_ok d1 /\
    users d1 = users d /\ login_attempts d1 !! username = after_check now (login_attempts d !! username) /\
    (forall v, v <> username -> login_attempts d1 !! v = login_attempts d !! v)).
Proof.
  intros Hok. unfold check_lock.
  set (row := login_attempts d !! username).
  assert (get_remaining_lock_secs now username d =
    Ok (match row with Some (_, Some l) => if now <? l then Some (l - now) else None | _ => None end, d)) as Hget.
  { unfold get_remaining_lock_secs. fold row. destruct row as [[c [l|]]|] eqn:E; [|done..].
    destruct (Hok _ _ E) as [_ Hl]. cbn [decode_login_locked_until].
    rewrite (proj2 (Z.leb_le 0 l)) by (by apply Hl). cbn [res_bind]. by destruct (now <? l). }
  erewrite bind_ok; [|apply try_eq; rewrite db_quiet, Hget; reflexivity].
  destruct (clear_expired_ok now username d Hok) as (d1 & Hclear & Hok1 & Hu & Hrow & Hother).
  assert (sm_map_err (fun _ : DbError => InternalError) (db (clear_expired_login_lock now username)) (mk_uworld d [])
    = (Ok tt, mk_uworld d1 [])) as Hgo by (apply map_err_ok; by rewrite db_quiet, Hclear).
  change (login_attempts d !! username) with row in Hrow.
  destruct row as [[c [l|]]|]; [destruct (Z.ltb_spec now l)|..].
  - left. split; [by exists c, l|]. by eexists.
  - right. split; [intros (c' & l' & [= <- <-] & ?); lia|]. by exists d1.
  - right. split; [by intros (c' & l' & ? & ?)|]. by exists d1.
  - right. split; [by intros (c' & l' & ? & ?)|]. by exists d1.
Qed.

Section Lockout.
Context `{J : SerdeJson} `{H : PasswordHasher}.

Lemma reject_login_quiet (now : Z) (username : string) (d : idb) :
  clock_ok now -> attempts_ok d ->
  reject_login now username (mk_uworld d [])
    = (Err InvalidCredentials,
       mk_uworld (set_attempts d (<[username := after_failure now (login_attempts d !! username)]> (login_attempts d))) []).
Proof.
  intros Hn Hok. unfold reject_login. erewrite bind_ok; [reflexivity|].
  apply try_eq. by rewrite db_quiet, record_failure_eq.
Qed.

(** An attempt that gave the right password. *)
Definition accepted {A} (r : result LoginError A) : bool :=
  match r with Ok _ | Err InternalError => true | Err (Locked _) | Err InvalidCredentials => false end.
Definition is_rejected {A} (r : result LoginError A) : bool :=
  match r with Err InvalidCredentials => true | _ => false end.

(** What one attempt on [username] does to the rows of login attempts. *)
Definition login_effect {A} (now : Z) (username : string) (r : result LoginError A) (m m' : gmap string (Z * option Z)) : Prop :=
  (forall v, v <> username -> m' !! v = m !! v) /\
  match r with
  | Err (Locked _) => m' = m
  | Err InvalidCredentials =>
      ~ locked now (m !! username) /\ m' !! username = Some (after_failure now (after_check now (m !! username)))
  | _ => True
  end.

Lemma list_user_permissions_quiet (user_id : Z) (d : idb) :
  exists r, list_user_permissions user_id (mk_uworld d []) = (r, mk_uworld d []).
Proof.
  unfold list_user_permissions. erewrite bind_ok; [|rewrite db_quiet; reflexivity].
  unfold sm_bind, sm_lift. destruct (collect_permissions _ _); by eexists.
Qed.

Lemma login_quiet (now : Z) (username raw_password : string) (d : idb) :
  clock_ok now -> attempts_ok d ->
  exists r d', login now username raw_password (mk_uworld d []) = (r, mk_uworld d' []) /\ attempts_ok d' /\
    login_effect now username r (login_attempts d) (login_attempts d').
Proof.
  intros Hn Hok. unfold login.
  destruct (check_lock_quiet now username d Hok) as [(Hl & rem & Hc)|(Hl & d1 & Hc & Hok1 & _ & Hrow & Hother)].
  { erewrite bind_err by exact Hc. exists (Err (Locked rem)), d. by split_and!. }
  erewrite bind_ok by exact Hc. erewrite bind_ok; [|apply try_eq; rewrite db_quiet; reflexivity].
  assert (exists r d', reject_login now username (mk_uworld d1 []) = (r, mk_uworld d' []) /\ attempts_ok d' /\
    login_effect now username r (login_attempts d) (login_attempts d')) as Hrej.
  { eexists _, _. split; [by apply reject_login_quiet|]. split.
    - apply map_Forall_insert_2; [|exact Hok1]. apply after_failure_ok; [done|].
      destruct (login_attempts d1 !! username) eqn:E; [|done]. by apply (Hok1 username).
    - split; cbn [login_attempts set_attempts].
      + intros v Hv. rewrite lookup_insert_ne by done. by apply Hother.
      + by rewrite lookup_insert_eq, Hrow. }
  cbv beta. destruct (user_from_row <$> user_by_name username d1) as [user|]; [|exact Hrej].
  destruct (verify_password raw_password (uv_password_hash user)) as [[]|]; [|exact Hrej..].
  erewrite bind_ok; [|apply try_eq; rewrite db_quiet; reflexivity].
  set (d2 := set_attempts d1 (delete username (login_attempts d1))).
  assert (attempts_ok d2) as Hok2 by (by apply map_Forall_delete).
  assert (forall r : result LoginError LoginResult, accepted r = true ->
    login_effect now username r (login_attempts d) (login_attempts d2)) as Heff.
  { intros r Hr. split; [intros v Hv; cbn; rewrite lookup_delete_ne by done; by apply Hother|].
    by destruct r as [|[]]. }
  destruct (list_user_permissions_quiet (uv_id user) d2) as [[perms|e] Hp].
  2: { exists (Err InternalError), d2. split; [|split; [done|by apply Heff]].
       erewrite bind_err; [reflexivity|]. by erewrite map_err_err by exact Hp. }
  erewrite bind_ok; [|apply map_err_ok; exact Hp].
  eexists _, d2. split; [|split; [exact Hok2|apply Heff]].
  - erewrite bind_ok; [reflexivity|]. apply map_err_ok. unfold derive_role.
    erewrite bind_ok; [reflexivity|]. by rewrite db_quiet.
  - done.
Qed.

(** Attempts in order: instant, name and password. *)
Fixpoint login_run (l : list (Z * string * string)) (w : uworld) : list (string * result LoginError LoginResult) * uworld :=
  match l with
  | [] => ([], w)
  | (now, username, raw_password) :: l =>
      let '(r, w) := login now username raw_password w in
      let '(rs, w) := login_run l w in ((username, r) :: rs, w)
  end.

Definition rejections (username : string) (rs : list (string * result LoginError LoginResult)) : nat :=
  length (filter (fun o => o.1 = username /\ is_rejected o.2 = true) rs).

(** What is known of the row after [n] rejections since [t0]. *)
Definition counted (t0 : Z) (n : nat) (row : option (Z * option Z)) : Prop :=
  n = 0%nat \/
  exists c l, row = Some (c, l) /\ (n <= 5)%nat /\
    match l with
    | None => Z.of_nat n <= c < LOGIN_MAX_FAILURES
    | Some l => t0 + LOGIN_LOCKOUT_SECS <= l
    end.

Lemma counted_failure (t0 now : Z) (n : nat) (row : option (Z * option Z)) :
  clock_ok now -> t0 <= now < t0 + LOGIN_LOCKOUT_SECS -> ~ locked now row ->
  match row with Some r => attempt_ok r | None => True end ->
  counted t0 n row -> counted t0 (S n) (Some (after_failure now (after_check now row))).
Proof.
  intros Hn Ht Hl Hok Hc. right.
  assert (attempt_ok (after_failure now (after_check now row))) as Hok'.
  { apply after_failure_ok; [done|]. destruct row as [[c [l|]]|]; [|done..]. cbn. by destruct (l <=? now). }
  destruct (after_failure now (after_check now row)) as [c' l'] eqn:E. exists c', l'. split; [done|].
  assert (match row with Some (c, Some l) => l <= now | _ => True end) as Hexp.
  { destruct row as [[c [l|]]|]; [|done..]. destruct (Z.leb_spec l now); [done|]. destruct Hl. by exists c, l. }
  assert ((n <= 4)%nat /\ Z.of_nat n <= match after_check now row with Some (c, _) => c | None => 0 end) as [Hn4 Hnc].
  { destruct Hc as [->|(c & l & -> & Hn5 & Hcl)].
    - split; [lia|]. destruct row as [[c [l|]]|]; cbn; [destruct (l <=? now); [done|]|..]; try done; by destruct Hok as [[? _] _].
    - destruct l as [l|]; unfold LOGIN_MAX_FAILURES in *; cbn; [lia|]. lia. }
  split; [lia|]. unfold clock_ok, after_failure, saturating_add, LOGIN_MAX_FAILURES, LOGIN_LOCKOUT_SECS in *.
  destruct umax_values as (E32 & E63 & E64). rewrite E32, E64 in E. rewrite E63 in Hn.
  set (count := match after_check now row with Some (c, _) => c | None => 0 end) in *.
  destruct (Z.leb_spec 5 (Z.min 4294967295 (count + 1))); injection E as <- <-; lia.
Qed.

Lemma login_run_counted (username : string) (t0 : Z) (l : list (Z * string * string)) (d : idb) (n : nat) :
  Forall (fun a => clock_ok a.1.1 /\ t0 <= a.1.1 < t0 + LOGIN_LOCKOUT_SECS) l -> attempts_ok d ->
  counted t0 n (login_attempts d !! username) ->
  Forall (fun o => o.1 = username -> accepted o.2 = false) (login_run l (mk_uworld d [])).1 ->
  (rejections username (login_run l (mk_uworld d [])).1 + n <= 5)%nat.
Proof.
  intros Hl. revert d n. induction Hl as [|[[now u] p] l [Hn Ht] Hl IH]; intros d n Hok Hc Hacc; cbn [login_run] in *.
  { unfold rejections. cbn. destruct Hc as [->|(? & ? & _ & ? & _)]; lia. }
  cbn [fst snd] in Hn, Ht. destruct (login_quiet now u p d Hn Hok) as (r & d' & Hlog & Hok' & Hother & Heff).
  rewrite Hlog in *. destruct (login_run l (mk_uworld d' [])) as [rs w'] eqn:Hrun. cbn [fst] in *.
  apply Forall_cons in Hacc as [Ha Hacc]. cbn [fst snd] in Ha.
  specialize (IH d'). rewrite Hrun in IH. cbn [fst] in IH. unfold rejections in *.
  destruct (decide (u = username)) as [->|Hne].
  - specialize (Ha eq_refl). destruct r as [|[rem| |]]; [done| | |done].
    + rewrite filter_cons_False by (cbn; by intros [_ ?]). apply IH; [done|by rewrite Heff|done].
    + rewrite filter_cons_True by done. destruct Heff as [Hnl Hrow].
      assert (counted t0 (S n) (login_attempts d' !! username)) as Hc'.
      { rewrite Hrow. apply counted_failure; try done. destruct (login_attempts d !! username) eqn:E; [|done].
        by apply (Hok username). }
      cbn [length]. specialize (IH (S n) Hok' Hc' Hacc). lia.
  - rewrite filter_cons_False by (cbn; by intros [? _]). apply IH; [done| |done]. by rewrite Hother.
Qed.

(** C38: Guessing is bounded: of login attempts served one after the other within a lockout
    period, on an account and on others, while the database works and none on the account
    gives the right password, at most five on the account are rejected for a wrong one;
    every further attempt is refused without looking at the password. *)
Theorem guesses_bounded (username : string) (t0 : Z) (l : list (Z * string * string)) (d : idb) :
  attempts_ok d ->
  Forall (fun a => clock_ok a.1.1 /\ t0 <= a.1.1 < t0 + LOGIN_LOCKOUT_SECS) l ->
  Forall (fun o => o.1 = username -> accepted o.2 = false) (login_run l (mk_uworld d [])).1 ->
  (rejections username (login_run l (mk_uworld d [])).1 <= Z.to_nat LOGIN_MAX_FAILURES)%nat.
Proof.
  intros Hok Hl Hacc. pose proof (login_run_counted username t0 l d 0 Hl Hok (or_introl eq_refl) Hacc).
  change (Z.to_nat LOGIN_MAX_FAILURES) with 5%nat. lia.
Qed.
End Lockout.

(** ** Instances

    A text format for string arrays and a hasher that satisfy the laws. *)

Fixpoint print_item (s : string) : string :=
  match s with EmptyString => "." | String a s => String "c" (String a (print_item s)) end.
Definition print_items (l : list string) : string :=
  match l with [] => "[]" | _ => fold_right (fun s t => print_item s ++ t) "" l end.
Fixpoint read_items (text : string) : option (list string) :=
  match text with
  | EmptyString => Some []
  | String "." t => let! l := read_items t else None in Some ("" :: l)
  | String "c" (String a t) =>
      match read_items t with Some (s :: l) => Some (String a s :: l) | _ => None end
  | _ => None
  end.
Definition list_json : SerdeJson := {|
  json_parse := fun text =>
    if String.eqb text "[]" then Some (JArray []) else JArray ∘ map JString <$> read_items text;
  json_print := print_items |}.

Lemma read_print_item (s t : string) : read_items (print_item s ++ t) = (fun l => s :: l) <$> read_items t.
Proof.
  induction s as [|a s IH].
  - change (read_items (print_item "" ++ t)) with (let! l := read_items t else None in Some ("" :: l)).
    by destruct (read_items t).
  - change (match read_items (print_item s ++ t) with Some (s :: l) => Some (String a s :: l) | _ => None end
      = (fun l => String a s :: l) <$> read_items t).
    rewrite IH. by destruct (read_items t).
Qed.

Lemma list_json_laws : SerdeJsonLaws list_json.
Proof.
  intros l. cbn. destruct l as [|s l]; [done|]. unfold print_items.
  assert (read_items (fold_right (fun s t => print_item s ++ t) "" (s :: l)) = Some (s :: l)) as Hr.
  { generalize (s :: l). intros k. induction k as [|x k IH]; [done|]. cbn [fold_right]. by rewrite read_print_item, IH. }
  rewrite Hr. destruct (String.eqb_spec (fold_right (fun s t => print_item s ++ t) "" (s :: l)) "[]") as [E|]; [|done].
  by rewrite E in Hr.
Qed.

(** Hashes are the passwords themselves. *)
Definition plain_hasher : PasswordHasher := {|
  hash_password := fun _ p => Some p;
  verify_password := fun p h => Some (String.eqb p h) |}.
Lemma plain_hasher_laws : PasswordHasherLaws plain_hasher.
Proof. intros salt p h [= <-]. cbn. by rewrite String.eqb_refl. Qed.

Definition empty_idb : idb := mk_idb [] 1 [] 1 [] ∅ [] 1.
(** A database after first start and setup. *)
Definition fresh_idb : idb :=
  match setup_admin 0 DEFAULT_ADMIN_USERNAME "Secret-1" (seed_groups (J := list_json) 0 empty_idb) with
  | Ok (_, d) => d
  | Err _ => empty_idb
  end.

Lemma guesses_bounded_witness :
  let wrong t := (t, "admin", "guess") in
  let l := [wrong 1; wrong 2; wrong 3; wrong 4; wrong 5; wrong 6; (7, "admin", "Secret-1"); wrong 899] in
  let rs := (login_run (J := list_json) (H := plain_hasher) l (mk_uworld fresh_idb [])).1 in
  (rejections "admin" rs <= 5)%nat /\ map snd rs !! 6%nat = Some (Err (Locked 898)).
Proof.
  intros wrong l rs. split; [|vm_compute; reflexivity].
  apply (guesses_bounded (J := list_json) (H := plain_hasher) "admin" 0 l fresh_idb).
  - exact (map_Forall_empty _).
  - repeat constructor; vm_compute; discriminate.
  - apply (bool_decide_eq_true_1 _). vm_compute. reflexivity.
Defined.

(** ** Well-formed databases *)

(** The first row with a unique key is the row with that key. *)
Lemma find_key {A B} (f : A -> B) (p : A -> bool) (b : B) (l : list A) (x : A) :
  NoDup (map f l) -> (forall a, p a = true <-> f a = b) ->
  List.find p l = Some x <-> x ∈ l /\ f x = b.
Proof.
  intros Hnd Hp. split.
  - intros Hf. apply List.find_some in Hf as [Hin Hx]. split; [by apply list_elem_of_In|by apply Hp].
  - intros [Hin Hx]. induction l as [|a l IH]; [by apply elem_of_nil in Hin|]. cbn in Hnd |- *.
    apply NoDup_cons in Hnd as [Hna Hnd]. destruct (p a) eqn:Ha.
    + apply elem_of_cons in Hin as [->|Hin]; [done|]. apply Hp in Ha. destruct Hna.
      apply list_elem_of_fmap. exists x. by rewrite Ha, Hx.
    + apply elem_of_cons in Hin as [->|Hin]; [|by apply IH]. apply Hp in Hx. congruence.
Qed.
Lemma find_key_none {A B} (f : A -> B) (p : A -> bool) (b : B) (l : list A) :
  (forall a, p a = true <-> f a = b) -> List.find p l = None <-> b ∉ map f l.
Proof.
  intros Hp. split.
  - intros Hf (a & -> & Ha)%list_elem_of_fmap. apply list_elem_of_In in Ha.
    pose proof (List.find_none _ _ Hf a Ha) as Hn. by rewrite (proj2 (Hp a) eq_refl) in Hn.
  - intros Hb. destruct (List.find p l) as [a|] eqn:E; [|done]. destruct Hb.
    apply List.find_some in E as [Hin Ha]. apply list_elem_of_fmap. exists a.
    split; [symmetry; by apply Hp|by apply list_elem_of_In].
Qed.

Record wf `{J : SerdeJson} (d : idb) : Prop := {
  wf_uid : Forall (fun i => 0 < i < next_user d) (map u_id (users d));
  wf_uid_nd : NoDup (map u_id (users d));
  wf_uname_nd : NoDup (map u_name (users d));
  wf_gid : Forall (fun i => 0 < i < next_group d) (map g_id (user_groups d));
  wf_gid_nd : NoDup (map g_id (user_groups d));
  wf_gname_nd : NoDup (map g_name (user_groups d));
  wf_mem : Forall (fun m => m.1 ∈ map u_id (users d) /\ m.2 ∈ map g_id (user_groups d)) (user_group_members d);
  wf_mem_nd : NoDup (user_group_members d);
  wf_next : 0 < next_user d /\ 0 < next_group d;
  wf_text : Forall (fun g => is_Some (json_parse (g_permissions g))) (user_groups d);
}.

Lemma user_by_id_some `{J : SerdeJson} (d : idb) (id : Z) (u : UserRow) :
  wf d -> user_by_id id d = Some u <-> u ∈ users d /\ u_id u = id.
Proof. intros Hwf. apply (find_key u_id); [apply Hwf|]. intros a. apply Z.eqb_eq. Qed.
Lemma user_by_name_some `{J : SerdeJson} (d : idb) (name : string) (u : UserRow) :
  wf d -> user_by_name name d = Some u <-> u ∈ users d /\ u_name u = name.
Proof. intros Hwf. apply (find_key u_name); [apply Hwf|]. intros a. apply String.eqb_eq. Qed.
Lemma group_by_id_some `{J : SerdeJson} (d : idb) (id : Z) (g : GroupRow) :
  wf d -> group_by_id id d = Some g <-> g ∈ user_groups d /\ g_id g = id.
Proof. intros Hwf. apply (find_key g_id); [apply Hwf|]. intros a. apply Z.eqb_eq. Qed.
Lemma group_by_name_some `{J : SerdeJson} (d : idb) (name : string) (g : GroupRow) :
  wf d -> group_by_name name d = Some g <-> g ∈ user_groups d /\ g_name g = name.
Proof. intros Hwf. apply (find_key g_name); [apply Hwf|]. intros a. apply String.eqb_eq. Qed.
Lemma user_by_id_none (d : idb) (id : Z) : user_by_id id d = None <-> id ∉ map u_id (users d).
Proof. apply find_key_none. intros a. apply Z.eqb_eq. Qed.
Lemma user_by_name_none (d : idb) (name : string) : user_by_name name d = None <-> name ∉ map u_name (users d).
Proof. apply find_key_none. intros a. apply String.eqb_eq. Qed.
Lemma group_by_id_none (d : idb) (id : Z) : group_by_id id d = None <-> id ∉ map g_id (user_groups d).
Proof. apply find_key_none. intros a. apply Z.eqb_eq. Qed.
Lemma group_by_name_none (d : idb) (name : string) : group_by_name name d = None <-> name ∉ map g_name (user_groups d).
Proof. apply find_key_none. intros a. apply String.eqb_eq. Qed.

Lemma user_by_id_is_some (d : idb) (id : Z) : is_some (user_by_id id d) = true <-> id ∈ map u_id (users d).
Proof.
  destruct (user_by_id id d) as [u|] eqn:E; cbn.
  - split; [intros _|done]. apply List.find_some in E as [Hin Hid]. apply list_elem_of_fmap. exists u.
    split; [symmetry; by apply Z.eqb_eq|by apply list_elem_of_In].
  - apply user_by_id_none in E. split; [done|intros ?; by destruct E].
Qed.
Lemma group_by_id_is_some (d : idb) (id : Z) : is_some (group_by_id id d) = true <-> id ∈ map g_id (user_groups d).
Proof.
  destruct (group_by_id id d) as [u|] eqn:E; cbn.
  - split; [intros _|done]. apply List.find_some in E as [Hin Hid]. apply list_elem_of_fmap. exists u.
    split; [symmetry; by apply Z.eqb_eq|by apply list_elem_of_In].
  - apply group_by_id_none in E. split; [done|intros ?; by destruct E].
Qed.

(** Rows rewritten in place keep their keys. *)
Lemma map_key_map {A B} (k : A -> B) (f : A -> A) (l : list A) : (forall a, k (f a) = k a) -> map k (map f l) = map k l.
Proof. intros Hk. rewrite map_map. by apply map_ext. Qed.
Lemma update_user_ids {B} (k : UserRow -> B) (id : Z) (f : UserRow -> UserRow) (d : idb) :
  (forall u, k (f u) = k u) -> map k (users (update_user id f d)) = map k (users d).
Proof. intros Hk. cbn. apply map_key_map. intros u. by destruct (u_id u =? id). Qed.

Lemma NoDup_map_filter {A B} (k : A -> B) (P : A -> Prop) `{!forall x, Decision (P x)} (l : list A) :
  NoDup (map k l) -> NoDup (map k (filter P l)).
Proof.
  induction l as [|x l IH]; [done|]. cbn [map]. intros [Hx Hnd]%NoDup_cons. rewrite filter_cons.
  case_decide; [|by apply IH]. constructor; [|by apply IH].
  intros (y & Hy & [_ Hin]%list_elem_of_filter)%list_elem_of_fmap. destruct Hx. apply list_elem_of_fmap. by exists y.
Qed.
Lemma Forall_map_filter {A B} (Q : B -> Prop) (k : A -> B) (P : A -> Prop) `{!forall x, Decision (P x)} (l : list A) :
  Forall Q (map k l) -> Forall Q (map k (filter P l)).
Proof.
  rewrite !Forall_forall. intros Hq b (a & -> & Ha)%list_elem_of_fmap. apply list_elem_of_filter in Ha as [_ Ha].
  apply Hq, list_elem_of_fmap. by exists a.
Qed.

(** ** Statements keep databases well-formed *)

Definition tx_keeps (P : idb -> Prop) {A} (t : tx A) : Prop := forall d a d', P d -> t d = Ok (a, d') -> P d'.

Lemma query_keeps (P : idb -> Prop) {A} (f : idb -> A) : tx_keeps P (query f).
Proof. intros d a d' Hd [= _ <-]. exact Hd. Qed.

Lemma fresh_not_in (n : Z) (l : list Z) : Forall (fun i => 0 < i < n) l -> n ∉ l.
Proof. intros Hl Hn. rewrite Forall_forall in Hl. specialize (Hl n Hn). lia. Qed.
Lemma ids_extend (n : Z) (l : list Z) :
  0 < n -> Forall (fun i => 0 < i < n) l -> Forall (fun i => 0 < i < n + 1) (l ++ [n])%list.
Proof.
  intros Hn Hl. apply Forall_app. split; [eapply Forall_impl; [exact Hl|]; cbn; lia|]. constructor; [lia|done].
Qed.
Lemma NoDup_snoc {A} (l : list A) (x : A) : NoDup l -> x ∉ l -> NoDup (l ++ [x])%list.
Proof. intros Hl Hx. apply NoDup_app. split_and!; [done|set_solver|apply NoDup_singleton]. Qed.

Lemma existsb_false {A} (p : A -> bool) (l : list A) (x : A) : existsb p l = false -> x ∈ l -> p x = false.
Proof.
  intros Hl Hx%list_elem_of_In. destruct (p x) eqn:E; [|done].
  rewrite <- Hl. symmetry. apply existsb_exists. by exists x.
Qed.

Section Wf.
Context `{JL : SerdeJsonLaws}.

Lemma wf_ids_positive (d : idb) (id : Z) : wf d -> id ∈ map u_id (users d) -> 0 < id.
Proof. intros Hwf Hid. pose proof (wf_uid d Hwf) as H. rewrite Forall_forall in H. specialize (H id Hid). lia. Qed.

(** Changing users' other columns. *)
Lemma wf_update_user (id : Z) (f : UserRow -> UserRow) (d : idb) :
  (forall u, u_id (f u) = u_id u) -> (forall u, u_name (f u) = u_name u) -> wf d -> wf (update_user id f d).
Proof.
  intros Hid Hname [U1 U2 U3 G1 G2 G3 M1 M2 N T].
  pose proof (update_user_ids u_id id f d Hid) as E1. pose proof (update_user_ids u_name id f d Hname) as E2.
  constructor; rewrite ?E1, ?E2; done.
Qed.

(** Changing memberships within users and groups. *)
Lemma wf_set_members (l : list (Z * Z)) (d : idb) :
  NoDup l -> Forall (fun m => m.1 ∈ map u_id (users d) /\ m.2 ∈ map g_id (user_groups d)) l -> wf d -> wf (set_members d l).
Proof. intros Hl Hf [U1 U2 U3 G1 G2 G3 M1 M2 N T]. by constructor. Qed.

Lemma wf_attempts (m : gmap string (Z * option Z)) (d : idb) : wf d -> wf (set_attempts d m).
Proof. intros [U1 U2 U3 G1 G2 G3 M1 M2 N T]. by constructor. Qed.
Lemma wf_keys (l : list ApiKeyRow) (n : Z) (d : idb) : wf d -> wf (set_keys d l n).
Proof. intros [U1 U2 U3 G1 G2 G3 M1 M2 N T]. by constructor. Qed.

Lemma insert_user_wf now username hash role force : tx_keeps wf (insert_user now username hash role force).
Proof.
  intros d a d' [U1 U2 U3 G1 G2 G3 M1 M2 [N1 N2] T]. unfold insert_user.
  destruct (user_by_name username d) eqn:E; cbn; [done|]. intros [= _ <-]. apply user_by_name_none in E.
  constructor; cbn; rewrite ?map_app; cbn; try done.
  - by apply ids_extend.
  - apply NoDup_snoc; [done|by apply fresh_not_in].
  - by apply NoDup_snoc.
  - eapply Forall_impl; [exact M1|]. set_solver.
  - lia.
Qed.

Lemma update_user_password_wf id h : tx_keeps wf (update_user_password id h).
Proof. intros d a d' Hwf. unfold update_user_password. case_match; [|done]. intros [= _ <-]. by apply wf_update_user. Qed.
Lemma reset_user_password_wf id h : tx_keeps wf (reset_user_password id h).
Proof. intros d a d' Hwf. unfold reset_user_password. case_match; [|done]. intros [= _ <-]. by apply wf_update_user. Qed.

Lemma members_without_ok (id : Z) (d : idb) :
  wf d -> NoDup (members_without id d) /\
  Forall (fun m => m.1 ∈ map u_id (users d) /\ m.2 ∈ map g_id (user_groups d)) (members_without id d).
Proof.
  intros Hwf. unfold members_without. split; [apply NoDup_filter, Hwf|].
  apply Forall_forall. intros m [_ Hm]%list_elem_of_filter. pose proof (wf_mem d Hwf) as HM.
  rewrite Forall_forall in HM. by apply HM.
Qed.

Lemma delete_user_wf id : tx_keeps wf (delete_user id).
Proof.
  intros d a d' Hwf [= _ <-]. destruct (members_without_ok id d Hwf) as [Hnd Hm].
  destruct Hwf as [U1 U2 U3 G1 G2 G3 M1 M2 N T]. constructor; cbn; try done.
  - by apply Forall_map_filter.
  - by apply NoDup_map_filter.
  - by apply NoDup_map_filter.
  - apply Forall_forall. intros m Hin. rewrite Forall_forall in Hm. destruct (Hm m Hin) as [Hu Hg]. split; [|done].
    apply list_elem_of_filter in Hin as [Hne _]. apply list_elem_of_fmap in Hu as (u & Hid & Hu).
    apply list_elem_of_fmap. exists u. split; [done|]. apply list_elem_of_filter. by rewrite <- Hid.
Qed.

Lemma members_without_not_in (id g : Z) (d : idb) : (id, g) ∉ members_without id d.
Proof. intros [Hne _]%list_elem_of_filter. by apply Hne. Qed.

Lemma update_user_role_wf id role : tx_keeps wf (update_user_role id role).
Proof.
  intros d a d' Hwf. unfold update_user_role.
  assert (wf (update_user id (set_role role) d)) as Hwf1 by (by apply wf_update_user).
  set (d1 := update_user id (set_role role) d) in *.
  destruct (group_by_name _ d1) as [g|] eqn:Hg; [|done]. destruct (is_some (user_by_id id d1)) eqn:Hu; [|done].
  intros [= _ <-]. apply user_by_id_is_some in Hu. apply group_by_name_some in Hg as [Hg _]; [|done].
  destruct (members_without_ok id d1 Hwf1) as [Hnd Hm]. apply wf_set_members; [| |done].
  - apply NoDup_snoc; [done|apply members_without_not_in].
  - apply Forall_app. split; [done|]. constructor; [|done]. split; [done|]. apply list_elem_of_fmap. by exists g.
Qed.

Lemma set_user_groups_wf id gids : tx_keeps wf (set_user_groups id gids).
Proof.
  intros d a d' Hwf. unfold set_user_groups.
  destruct (forallb _ gids) eqn:Hall; [|done]. cbn [negb]. destruct (bool_decide (NoDup gids)) eqn:Hnd; [|done]. cbn [negb].
  apply bool_decide_eq_true in Hnd. destruct (_ && _) eqn:Hu; [done|]. intros [= _ <-].
  destruct (members_without_ok id d Hwf) as [Hnd1 Hm]. apply wf_set_members; [| |done].
  - apply NoDup_app. split_and!; [done| |by apply NoDup_fmap_2; [intros ?? [= ->]|]].
    intros m Hin (g & -> & _)%list_elem_of_fmap. by apply members_without_not_in in Hin.
  - apply Forall_app. split; [done|]. apply Forall_forall. intros m (g & -> & Hg)%list_elem_of_fmap. cbn. split.
    + apply user_by_id_is_some. destruct (is_some (user_by_id id d)); [done|]. cbn in Hu.
      apply negb_false_iff, bool_decide_eq_true in Hu as ->. by apply elem_of_nil in Hg.
    + apply group_by_id_is_some. rewrite forallb_forall in Hall. apply Hall. by apply list_elem_of_In.
Qed.

Lemma create_user_group_wf now name description text :
  is_Some (json_parse text) -> tx_keeps wf (create_user_group now name description text).
Proof.
  intros Ht d a d' [U1 U2 U3 G1 G2 G3 M1 M2 [N1 N2] T]. unfold create_user_group.
  destruct (group_by_name name d) eqn:E; cbn; [done|]. intros [= _ <-]. apply group_by_name_none in E.
  constructor; cbn; rewrite ?map_app; cbn; try done.
  - by apply ids_extend.
  - apply NoDup_snoc; [done|by apply fresh_not_in].
  - by apply NoDup_snoc.
  - eapply Forall_impl; [exact M1|]. set_solver.
  - lia.
  - apply Forall_app. split; [done|]. by constructor.
Qed.

Lemma update_user_group_wf id name description text :
  is_Some (json_parse text) -> tx_keeps wf (update_user_group id name description text).
Proof.
  intros Ht d a d' Hwf. unfold update_user_group. destruct (existsb _ _ && _) eqn:Hu; [done|]. intros [= _ <-].
  set (f g := if g_id g =? id then mk_group_row (g_id g) name description text (g_created g) else g).
  assert (map g_id (map f (user_groups d)) = map g_id (user_groups d)) as Eid.
  { apply map_key_map. intros g. unfold f. by destruct (g_id g =? id). }
  pose proof Hwf as [U1 U2 U3 G1 G2 G3 M1 M2 N T]. constructor; cbn; fold f; rewrite ?Eid; try done.
  - destruct (decide (id ∈ map g_id (user_groups d))) as [Hin|Hnin].
    + rewrite (proj2 (group_by_id_is_some d id) Hin), andb_true_r in Hu.
      clear -Hu G2 G3. induction (user_groups d) as [|g l IH]; [constructor|]. cbn in *.
      apply orb_false_iff in Hu as [Hg Hu]. apply NoDup_cons in G2 as [Hi G2], G3 as [Hn G3].
      constructor; [|by apply IH]. intros (g' & Heq & Hg')%list_elem_of_fmap. apply list_elem_of_fmap in Hg' as (h & -> & Hh).
      apply (existsb_false _ _ h) in Hu; [|exact Hh]. unfold f in Heq. revert Heq Hu Hg.
      destruct (Z.eqb_spec (g_id g) id) as [E1|E1], (Z.eqb_spec (g_id h) id) as [E2|E2]; cbn; intros Heq Hu Hg.
      * destruct Hi. apply list_elem_of_fmap. exists h. by rewrite E1, E2.
      * rewrite <- Heq, String.eqb_refl in Hu. done.
      * rewrite Heq, String.eqb_refl in Hg. done.
      * destruct Hn. apply list_elem_of_fmap. by exists h.
    + assert (map f (user_groups d) = user_groups d) as ->; [|done].
      rewrite <- (map_id (user_groups d)) at 2. apply map_ext_in. intros g Hg%list_elem_of_In. unfold f.
      destruct (Z.eqb_spec (g_id g) id) as [<-|]; [|done]. destruct Hnin. apply list_elem_of_fmap. by exists g.
  - rewrite Forall_forall in *. intros g (h & -> & Hh)%list_elem_of_fmap. unfold f. destruct (g_id h =? id); [done|by apply T].
Qed.

Lemma delete_user_group_wf id : tx_keeps wf (delete_user_group id).
Proof.
  intros d a d' [U1 U2 U3 G1 G2 G3 M1 M2 N T] [= _ <-]. constructor; cbn; try done.
  - by apply Forall_map_filter.
  - by apply NoDup_map_filter.
  - by apply NoDup_map_filter.
  - rewrite Forall_forall in *. intros m [Hne Hin]%list_elem_of_filter. destruct (M1 m Hin) as [Hu Hg]. split; [done|].
    apply list_elem_of_fmap in Hg as (g & Hid & Hg). apply list_elem_of_fmap. exists g. split; [done|].
    apply list_elem_of_filter. by rewrite <- Hid.
  - by apply NoDup_filter.
  - rewrite Forall_forall in *. intros g [_ Hg]%list_elem_of_filter. by apply T.
Qed.
End Wf.

(** ** Services keep databases well-formed, whatever fails *)

(** [P] holds of the database after if it held before. *)
Definition pres (P : idb -> Prop) (w w' : uworld) : Prop := P (uw_db w) -> P (uw_db w').
#[export] Instance pres_preorder (P : idb -> Prop) : PreOrder (pres P).
Proof.
  split.
  - intros w Hw. exact Hw.
  - intros a b c Hab Hbc Ha. exact (Hbc (Hab Ha)).
Qed.

Lemma keeps_db (P : idb -> Prop) {A} (t : tx A) : tx_keeps P t -> keeps (pres P) (db t).
Proof.
  intros Ht w HP. unfold db. destruct (uw_faults w) as [|[] fs]; [|exact HP|];
    (destruct (t (uw_db w)) as [[a d]|e] eqn:E; [exact (Ht _ _ _ HP E)|exact HP]).
Qed.
Lemma keeps_map_err {S E E' A} (R : S -> S -> Prop) (f : E -> E') (m : sm S E A) : keeps R m -> keeps R (sm_map_err f m).
Proof. intros Hm w. specialize (Hm w). unfold sm_map_err. by destruct (m w) as [[a|e] w']. Qed.
Lemma keeps_some {S E A} (R : S -> S -> Prop) `{!PreOrder R} (e : E) (o : option A) : keeps R (sm_some e o).
Proof. destruct o; cbn; auto with keeps. Qed.
Lemma keeps_lift_bind {S E A B} (R : S -> S -> Prop) `{!PreOrder R} (r : result E A) (f : A -> sm S E B) :
  (forall a, r = Ok a -> keeps R (f a)) -> keeps R (sm_bind (sm_lift r) f).
Proof.
  intros Hf. destruct r as [a|e]; [exact (Hf a eq_refl)|]. intros w. unfold sm_bind, sm_lift. reflexivity.
Qed.
#[export] Hint Resolve keeps_map_err keeps_some keeps_db query_keeps : keeps.

Lemma clear_login_failures_keeps (P : idb -> Prop) u :
  (forall m d, P d -> P (set_attempts d m)) -> tx_keeps P (clear_login_failures u).
Proof. intros HP d a d' Hd [= _ <-]. by apply HP. Qed.
Lemma clear_expired_keeps (P : idb -> Prop) now u :
  (forall m d, P d -> P (set_attempts d m)) -> tx_keeps P (clear_expired_login_lock now u).
Proof.
  intros HP d a d' Hd [= _ <-]. destruct (login_attempts d !! u) as [[? [l|]]|]; [destruct (l <=? now)|..]; try done.
  by apply HP.
Qed.
Lemma get_remaining_keeps (P : idb -> Prop) now u : tx_keeps P (get_remaining_lock_secs now u).
Proof.
  intros d a d' Hd. unfold get_remaining_lock_secs. destruct (match _ with Some _ => _ | None => _ end); cbn; [|done].
  by intros [= _ <-].
Qed.
Lemma record_failure_keeps (P : idb -> Prop) now u :
  (forall m d, P d -> P (set_attempts d m)) -> tx_keeps P (record_login_failure now u).
Proof.
  intros HP d a d' Hd. unfold record_login_failure. destruct (match _ with Some _ => _ | None => _ end); cbn; [|done].
  match goal with |- context [res_bind ?r _] => destruct r end; cbn; [|done].
  intros [= _ <-]. by apply HP.
Qed.

Section ServicesWf.
Context `{JL : SerdeJsonLaws} `{H : PasswordHasher}.

Lemma wf_attempts_any (m : gmap string (Z * option Z)) (d : idb) : wf d -> wf (set_attempts d m).
Proof. apply wf_attempts. Qed.
Hint Resolve clear_login_failures_keeps clear_expired_keeps get_remaining_keeps record_failure_keeps wf_attempts_any : keeps.
Hint Resolve insert_user_wf update_user_password_wf reset_user_password_wf delete_user_wf update_user_role_wf
  set_user_groups_wf delete_user_group_wf : keeps.

Lemma list_user_permissions_wf id : keeps (pres wf) (list_user_permissions id).
Proof. unfold list_user_permissions. keeps_tac. Qed.
Hint Resolve list_user_permissions_wf : keeps.

Lemma check_lock_wf now u : keeps (pres wf) (check_lock now u).
Proof. unfold check_lock. keeps_tac. Qed.
Lemma reject_login_wf now u : keeps (pres wf) (reject_login now u).
Proof. unfold reject_login. keeps_tac. Qed.
Lemma derive_role_wf id : keeps (pres wf) (derive_role id).
Proof. unfold derive_role. keeps_tac. Qed.
Hint Resolve check_lock_wf reject_login_wf derive_role_wf : keeps.
Lemma login_wf now u p : keeps (pres wf) (login now u p).
Proof. unfold login. keeps_tac. Qed.
Lemma register_wf now salt u p r cr : keeps (pres wf) (register now salt u p r cr).
Proof. unfold register, default_group_id. keeps_tac. Qed.
Lemma user_profile_wf id u : keeps (pres wf) (user_profile id u).
Proof. unfold user_profile. keeps_tac. Qed.
Lemma require_user_wf id : keeps (pres wf) (require_user id).
Proof. unfold require_user. keeps_tac. Qed.
Hint Resolve require_user_wf : keeps.
Lemma change_password_wf salt id a b : keeps (pres wf) (change_password salt id a b).
Proof. unfold change_password. keeps_tac. Qed.
Lemma delete_account_wf c t : keeps (pres wf) (delete_account c t).
Proof. unfold delete_account. keeps_tac. Qed.
Lemma update_role_wf c t r : keeps (pres wf) (update_role c t r).
Proof. unfold update_role. keeps_tac. Qed.
Lemma reset_password_wf salt t p : keeps (pres wf) (reset_password salt t p).
Proof. unfold reset_password. keeps_tac. Qed.
Lemma assign_groups_wf c t l : keeps (pres wf) (assign_groups c t l).
Proof. unfold assign_groups. keeps_tac. Qed.
Lemma list_users_wf : keeps (pres wf) list_users.
Proof. unfold list_users, list_users_with_groups. keeps_tac. Qed.
Lemma get_group_wf id : keeps (pres wf) (get_group id).
Proof. unfold get_group. keeps_tac. Qed.
Lemma list_groups_wf : keeps (pres wf) list_groups.
Proof.
  unfold list_groups. keeps_tac. intros. induction a as [|g l IH]; cbn; [keeps_tac|].
  unfold group_entry, list_group_members. keeps_tac.
Qed.

(** The text stored for permissions parses again. *)
Lemma permission_text_parses (permissions : option Json) (text : string) (r : string * Json) :
  permission_array_json permissions text = Ok r -> json_parse r.1 = Some r.2.
Proof.
  unfold permission_array_json, parse_permissions. destruct permissions as [value|].
  - destruct (strings_of value); [|done]. intros [= <-]. apply json_parse_print.
  - destruct (json_parse text) eqn:E; [|done]. by intros [= <-].
Qed.

Lemma create_group_wf now n d p : keeps (pres wf) (create_group now n d p).
Proof.
  unfold create_group. destruct n as [n|]; [|keeps_tac]. destruct (is_empty n); [keeps_tac|].
  apply keeps_lift_bind; [apply _|]. intros [text j] Ht%permission_text_parses.
  assert (is_Some (json_parse text)) by (by exists j).
  pose proof (create_user_group_wf now n (default "" d) text). keeps_tac.
Qed.
Lemma update_group_wf id n d p : keeps (pres wf) (update_group id n d p).
Proof.
  unfold update_group. apply keeps_bind; [apply _|keeps_tac|intros found].
  apply keeps_bind; [apply _|keeps_tac|intros existing]. destruct (is_builtin_group _); [keeps_tac|].
  apply keeps_lift_bind; [apply _|]. intros [text j] Ht%permission_text_parses.
  assert (is_Some (json_parse text)) by (by exists j).
  pose proof (update_user_group_wf id (default (g_name existing) n) (default (g_description existing) d) text). keeps_tac.
Qed.
Lemma delete_group_wf id : keeps (pres wf) (delete_group id).
Proof. unfold delete_group. keeps_tac. Qed.
End ServicesWf.

(** ** The built-in administrator stays *)

(** User [uid] is the built-in account, group [gid] the administrators, and the
    one belongs to the other. *)
Record admin_at `{J : SerdeJson} (uid gid : Z) (d : idb) : Prop := {
  aa_wf : wf d;
  aa_user : exists u, u ∈ users d /\ u_id u = uid /\ u_name u = DEFAULT_ADMIN_USERNAME;
  aa_group : exists g, g ∈ user_groups d /\ g_id g = gid /\ g_name g = GROUP_ADMIN;
  aa_member : (uid, gid) ∈ user_group_members d;
}.

(** What a statement does after a query that changed nothing. *)
Lemma keeps_query_bind (P : idb -> Prop) {E A B} (f : idb -> A) (g : DbError -> E) (k : A -> sm uworld E B) :
  (forall a w, P (uw_db w) -> f (uw_db w) = a -> P (uw_db (k a w).2)) ->
  keeps (pres P) (sm_bind (sm_map_err g (db (query f))) k).
Proof.
  intros Hk w HP. unfold sm_bind, sm_map_err, db, query.
  destruct (uw_faults w) as [|[] fs]; [|exact HP|]; by apply Hk.
Qed.
Lemma db_post (P : idb -> Prop) {E A} (g : DbError -> E) (t : tx A) (w : uworld) :
  P (uw_db w) -> (forall a d', t (uw_db w) = Ok (a, d') -> P d') -> P (uw_db (sm_map_err g (db t) w).2).
Proof.
  intros HP Ht. unfold sm_map_err, db. destruct (uw_faults w) as [|[] fs]; [|exact HP|];
    (destruct (t (uw_db w)) as [[a d]|e]; [by apply (Ht a)|exact HP]).
Qed.

Section Administrator.
Context `{JL : SerdeJsonLaws} `{H : PasswordHasher} (uid gid : Z).
Abbreviation admin_kept := (admin_at uid gid).

Lemma admin_by_id (d : idb) : admin_kept d -> exists u, user_by_id uid d = Some u /\ u_name u = DEFAULT_ADMIN_USERNAME.
Proof. intros [Hwf (u & Hu & Hid & Hn) _ _]. exists u. split; [|done]. by apply user_by_id_some. Qed.
Lemma admin_group_by_id (d : idb) : admin_kept d -> exists g, group_by_id gid d = Some g /\ g_name g = GROUP_ADMIN.
Proof. intros [Hwf _ (g & Hg & Hid & Hn) _]. exists g. split; [|done]. by apply group_by_id_some. Qed.

Lemma members_without_admin (id : Z) (d : idb) : admin_kept d -> id <> uid -> (uid, gid) ∈ members_without id d.
Proof. intros Hd Hne. apply list_elem_of_filter. split; [cbn; congruence|apply Hd]. Qed.

(** Rows that keep their keys keep the administrator. *)
Lemma admin_users (l : list UserRow) (n : Z) (d : idb) :
  (forall u, u ∈ users d -> exists u', u' ∈ l /\ u_id u' = u_id u /\ u_name u' = u_name u) ->
  admin_kept d -> wf (set_users d l n) -> admin_kept (set_users d l n).
Proof.
  intros Hl [Hwf (u & Hu & Hid & Hn) Hg Hm] Hwf'. constructor; try done.
  destruct (Hl u Hu) as (u' & Hu' & E1 & E2). exists u'. by rewrite E1, E2.
Qed.
Lemma admin_members (l : list (Z * Z)) (d : idb) :
  (uid, gid) ∈ l -> admin_kept d -> wf (set_members d l) -> admin_kept (set_members d l).
Proof. intros Hl [Hwf Hu Hg Hm] Hwf'. by constructor. Qed.

Lemma admin_attempts (m : gmap string (Z * option Z)) (d : idb) : admin_kept d -> admin_kept (set_attempts d m).
Proof. intros [Hwf Hu Hg Hm]. constructor; try done. by apply wf_attempts. Qed.

Lemma admin_update_user (id : Z) (f : UserRow -> UserRow) (d : idb) :
  (forall u, u_id (f u) = u_id u) -> (forall u, u_name (f u) = u_name u) -> admin_kept d -> admin_kept (update_user id f d).
Proof.
  intros Hid Hname Hd. apply admin_users; [|done|apply wf_update_user; [done|done|apply Hd]].
  intros u Hu. exists (if u_id u =? id then f u else u). split.
  - apply list_elem_of_fmap. by exists u.
  - destruct (u_id u =? id); [by rewrite Hid, Hname|done].
Qed.

Lemma insert_user_admin now name h r f : tx_keeps admin_kept (insert_user now name h r f).
Proof.
  intros d a d' Hd Ht. pose proof (insert_user_wf _ _ _ _ _ _ _ _ (aa_wf _ _ _ Hd) Ht) as Hwf. revert Ht.
  unfold insert_user. destruct (is_some _); [done|]. intros [= _ <-].
  apply admin_users; [|done|done]. intros u Hu. exists u. split; [|done]. apply elem_of_app. by left.
Qed.
Lemma update_user_password_admin id h : tx_keeps admin_kept (update_user_password id h).
Proof. intros d a d' Hd. unfold update_user_password. destruct (is_some _); [|done]. intros [= _ <-]. by apply admin_update_user. Qed.
Lemma reset_user_password_admin id h : tx_keeps admin_kept (reset_user_password id h).
Proof. intros d a d' Hd. unfold reset_user_password. destruct (is_some _); [|done]. intros [= _ <-]. by apply admin_update_user. Qed.

Lemma delete_user_admin id d a d' : id <> uid -> admin_kept d -> delete_user id d = Ok (a, d') -> admin_kept d'.
Proof.
  intros Hne Hd Ht. pose proof (delete_user_wf _ _ _ _ (aa_wf _ _ _ Hd) Ht) as Hwf. revert Ht. intros [= _ <-].
  destruct Hd as [Hwf0 (u & Hu & Hid & Hn) Hg Hm]. constructor; try done.
  - exists u. split; [|done]. apply list_elem_of_filter. split; [cbn; congruence|done].
  - apply list_elem_of_filter. split; [cbn; congruence|done].
Qed.
Lemma update_user_role_admin id role d a d' :
  id <> uid -> admin_kept d -> update_user_role id role d = Ok (a, d') -> admin_kept d'.
Proof.
  intros Hne Hd Ht. pose proof (update_user_role_wf _ _ _ _ _ (aa_wf _ _ _ Hd) Ht) as Hwf. revert Ht. unfold update_user_role.
  assert (admin_kept (update_user id (set_role role) d)) as Hd1 by (by apply admin_update_user).
  destruct (group_by_name _ _); [|done]. destruct (is_some _); [|done]. intros [= _ <-].
  apply admin_members; [|done|done]. apply elem_of_app. left. by apply members_without_admin.
Qed.
Lemma set_user_groups_admin id gids d a d' :
  id <> uid -> admin_kept d -> set_user_groups id gids d = Ok (a, d') -> admin_kept d'.
Proof.
  intros Hne Hd Ht. pose proof (set_user_groups_wf _ _ _ _ _ (aa_wf _ _ _ Hd) Ht) as Hwf. revert Ht. unfold set_user_groups.
  destruct (negb _); [done|]. destruct (negb _); [done|]. destruct (_ && _); [done|]. intros [= _ <-].
  apply admin_members; [|done|done]. apply elem_of_app. left. by apply members_without_admin.
Qed.
Lemma create_user_group_admin now n desc text :
  is_Some (json_parse text) -> tx_keeps admin_kept (create_user_group now n desc text).
Proof.
  intros Hp d a d' Hd Ht. pose proof (create_user_group_wf _ _ _ _ Hp _ _ _ (aa_wf _ _ _ Hd) Ht) as Hwf. revert Ht.
  unfold create_user_group. destruct (is_some _); [done|]. intros [= _ <-].
  destruct Hd as [_ Hu (g & Hg & Hid & Hn) Hm]. constructor; try done.
  exists g. split; [|done]. apply elem_of_app. by left.
Qed.
Lemma update_user_group_admin id n desc text d a d' :
  is_Some (json_parse text) -> id <> gid -> admin_kept d -> update_user_group id n desc text d = Ok (a, d') -> admin_kept d'.
Proof.
  intros Hp Hne Hd Ht. pose proof (update_user_group_wf _ _ _ _ Hp _ _ _ (aa_wf _ _ _ Hd) Ht) as Hwf. revert Ht.
  unfold update_user_group. destruct (_ && _); [done|]. intros [= _ <-].
  destruct Hd as [_ Hu (g & Hg & Hid & Hn) Hm]. constructor; try done.
  exists g. split; [|done]. apply list_elem_of_fmap. exists g. split; [|done].
  by rewrite (proj2 (Z.eqb_neq (g_id g) id)) by congruence.
Qed.
Lemma delete_user_group_admin id d a d' : id <> gid -> admin_kept d -> delete_user_group id d = Ok (a, d') -> admin_kept d'.
Proof.
  intros Hne Hd Ht. pose proof (delete_user_group_wf _ _ _ _ (aa_wf _ _ _ Hd) Ht) as Hwf. revert Ht. intros [= _ <-].
  destruct Hd as [_ Hu (g & Hg & Hid & Hn) Hm]. constructor; try done.
  - exists g. split; [|done]. apply list_elem_of_filter. split; [congruence|done].
  - apply list_elem_of_filter. split; [cbn; congruence|done].
Qed.
End Administrator.

Lemma keeps_tx_bind (P : idb -> Prop) {E A B} (Q : A -> Prop) (g : DbError -> E) (t : tx A) (k : A -> sm uworld E B) :
  (forall d a d', P d -> t d = Ok (a, d') -> P d' /\ Q a) -> (forall a, Q a -> keeps (pres P) (k a)) ->
  keeps (pres P) (sm_bind (sm_map_err g (db t)) k).
Proof.
  intros Ht Hk w HP. unfold sm_bind, sm_map_err, db. destruct (uw_faults w) as [|[] fs]; [|exact HP|];
    (destruct (t (uw_db w)) as [[a d]|e] eqn:Etx; [|exact HP]; destruct (Ht _ _ _ HP Etx) as [HP' HQ]; by apply (Hk a HQ)).
Qed.

Section AdministratorServices.
Context `{JL : SerdeJsonLaws} `{H : PasswordHasher} (uid gid : Z).
Abbreviation admin_kept := (admin_at uid gid).

Lemma admin_attempts_any (m : gmap string (Z * option Z)) (d : idb) : admin_kept d -> admin_kept (set_attempts d m).
Proof. apply admin_attempts. Qed.
Hint Resolve clear_login_failures_keeps clear_expired_keeps get_remaining_keeps record_failure_keeps admin_attempts_any : keeps.
Hint Resolve insert_user_admin update_user_password_admin reset_user_password_admin : keeps.

Lemma list_user_permissions_admin id : keeps (pres admin_kept) (list_user_permissions id).
Proof. unfold list_user_permissions. keeps_tac. Qed.
Lemma check_lock_admin now u : keeps (pres admin_kept) (check_lock now u).
Proof. unfold check_lock. keeps_tac. Qed.
Lemma reject_login_admin now u : keeps (pres admin_kept) (reject_login now u).
Proof. unfold reject_login. keeps_tac. Qed.
Lemma derive_role_admin id : keeps (pres admin_kept) (derive_role id).
Proof. unfold derive_role. keeps_tac. Qed.
Hint Resolve list_user_permissions_admin check_lock_admin reject_login_admin derive_role_admin : keeps.
Lemma login_admin now u p : keeps (pres admin_kept) (login now u p).
Proof. unfold login. keeps_tac. Qed.
Lemma user_profile_admin id u : keeps (pres admin_kept) (user_profile id u).
Proof. unfold user_profile. keeps_tac. Qed.
Lemma require_user_admin id : keeps (pres admin_kept) (require_user id).
Proof. unfold require_user. keeps_tac. Qed.
Hint Resolve require_user_admin : keeps.
Lemma change_password_admin salt id a b : keeps (pres admin_kept) (change_password salt id a b).
Proof. unfold change_password. keeps_tac. Qed.
Lemma reset_password_admin salt t p : keeps (pres admin_kept) (reset_password salt t p).
Proof. unfold reset_password. keeps_tac. Qed.
Lemma list_users_admin : keeps (pres admin_kept) list_users.
Proof. unfold list_users, list_users_with_groups. keeps_tac. Qed.
Lemma get_group_admin id : keeps (pres admin_kept) (get_group id).
Proof. unfold get_group. keeps_tac. Qed.
Lemma list_groups_admin : keeps (pres admin_kept) list_groups.
Proof.
  unfold list_groups. keeps_tac. intros. induction a as [|g l IH]; cbn; [keeps_tac|].
  unfold group_entry, list_group_members. keeps_tac.
Qed.

(** A new account is not the administrator. *)
Lemma register_admin now salt u p r cr : keeps (pres admin_kept) (register now salt u p r cr).
Proof.
  unfold register, default_group_id.
  apply keeps_bind; [apply _|keeps_tac|intros _]. apply keeps_bind; [apply _|keeps_tac|intros _].
  destruct (_ && _); [keeps_tac|]. destruct (_ && _); [keeps_tac|]. cbv zeta.
  apply keeps_bind; [apply _|keeps_tac|intros g]. apply keeps_bind; [apply _|keeps_tac|intros h].
  apply (keeps_tx_bind _ (fun id => id <> uid)).
  - intros d a d' Hd Ht. split; [by eapply insert_user_admin|]. revert Ht. unfold insert_user.
    destruct (is_some _); [done|]. intros [= <- _]. destruct Hd as [Hwf (v & Hv & Hid & _) _ _].
    pose proof (wf_uid d Hwf) as Hids. rewrite Forall_forall in Hids.
    specialize (Hids (u_id v) (list_elem_of_fmap_2 _ _ _ Hv)). lia.
  - intros id Hne.
    assert (tx_keeps admin_kept (set_user_groups id [g])) by (intros d a d'; by apply set_user_groups_admin).
    assert (tx_keeps admin_kept (delete_user id)) by (intros d a d'; by apply delete_user_admin).
    keeps_tac.
Qed.

(** The protected operations refuse the administrator's row. *)
Lemma keeps_protected {A} (target : Z) (reason : string) (t : tx A) :
  (forall d a d', target <> uid -> admin_kept d -> t d = Ok (a, d') -> admin_kept d') ->
  keeps (pres admin_kept)
    (do! user := require_user target in
     if String.eqb (uv_username user) DEFAULT_ADMIN_USERNAME then sm_fail (UserForbidden reason)
     else sm_map_err UserInternal (db t)).
Proof.
  intros Ht w Hd. unfold require_user, find_user_by_id. rewrite sm_bind_assoc. revert w Hd.
  apply keeps_query_bind. intros user w Hd Hu. unfold sm_bind.
  destruct user as [v|]; [|exact Hd]. cbn [sm_some sm_ret]. destruct (String.eqb_spec (uv_username v) DEFAULT_ADMIN_USERNAME) as [|Hn]; [exact Hd|].
  apply db_post; [exact Hd|]. intros a d' Ht'. refine (Ht _ _ _ _ Hd Ht'). intros ->.
  destruct (admin_by_id uid gid _ Hd) as (u & Hid & Hname). rewrite Hid in Hu. injection Hu as <-. by destruct Hn.
Qed.

Lemma update_role_admin c t r : keeps (pres admin_kept) (update_role c t r).
Proof.
  unfold update_role. destruct (c =? t); [keeps_tac|]. destruct (_ && _); [keeps_tac|].
  apply keeps_protected. intros d a d'. apply update_user_role_admin.
Qed.
Lemma assign_groups_admin c t l : keeps (pres admin_kept) (assign_groups c t l).
Proof.
  unfold assign_groups. destruct (c =? t); [keeps_tac|]. apply keeps_protected. intros d a d'. apply set_user_groups_admin.
Qed.
Lemma delete_account_admin c t : keeps (pres admin_kept) (delete_account c t).
Proof.
  unfold delete_account. destruct (c =? t); [keeps_tac|]. apply keeps_query_bind. intros u w Hd Hu.
  destruct (match u with Some _ => _ | None => _ end) eqn:Hn; [exact Hd|]. apply db_post; [exact Hd|].
  intros a d' Ht. eapply delete_user_admin; [|exact Hd|exact Ht]. intros ->.
  destruct (admin_by_id uid gid _ Hd) as (v & Hv & Hname). rewrite Hv in Hu. subst u. cbn in Hn.
  by rewrite Hname, String.eqb_refl in Hn.
Qed.

Lemma create_group_admin now n d p : keeps (pres admin_kept) (create_group now n d p).
Proof.
  unfold create_group. destruct n as [n|]; [|keeps_tac]. destruct (is_empty n); [keeps_tac|].
  apply keeps_lift_bind; [apply _|]. intros [text j] Ht%permission_text_parses.
  pose proof (create_user_group_admin uid gid now n (default "" d) text (ex_intro _ j Ht)). keeps_tac.
Qed.
Lemma update_group_admin id n d p : keeps (pres admin_kept) (update_group id n d p).
Proof.
  unfold update_group. apply keeps_query_bind. intros found w Hd Hf. destruct found as [existing|]; [|exact Hd].
  cbn [sm_some sm_bind sm_ret]. unfold sm_bind at 1. cbn [sm_ret]. destruct (is_builtin_group (g_name existing)) eqn:Hb; [exact Hd|].
  destruct (permission_array_json p (g_permissions existing)) as [[text j]|e] eqn:Ht; [|exact Hd].
  apply permission_text_parses in Ht. unfold sm_bind at 1, sm_lift. cbv beta iota zeta.
  set (m := sm_map_err GroupInternal _). pose proof (db_post admin_kept GroupInternal
    (update_user_group id (default (g_name existing) n) (default (g_description existing) d) text) w Hd) as Hpost.
  fold m in Hpost. unfold sm_bind. destruct (m w) as [[?|?] w'] eqn:Em; cbn [snd] in *; apply Hpost;
    (intros a d' Hu; eapply update_user_group_admin; [exact (ex_intro _ j Ht)| |exact Hd|exact Hu];
     intros ->; destruct (admin_group_by_id uid gid _ Hd) as (g & Hg & Hname); rewrite Hg in Hf; injection Hf as <-;
     by rewrite Hname in Hb).
Qed.
Lemma delete_group_admin id : keeps (pres admin_kept) (delete_group id).
Proof.
  unfold delete_group. apply keeps_query_bind. intros g w Hd Hg.
  destruct (match g with Some _ => _ | None => _ end) eqn:Hn; [exact Hd|]. apply db_post; [exact Hd|].
  intros a d' Ht. eapply delete_user_group_admin; [|exact Hd|exact Ht]. intros ->.
  destruct (admin_group_by_id uid gid _ Hd) as (v & Hv & Hname). rewrite Hv in Hg. subst g. cbn in Hn. by rewrite Hname in Hn.
Qed.
End AdministratorServices.

(** ** What a user may do now *)

Section Current.
Context `{J : SerdeJson}.

(** The claims a login of user [id] would give at this moment. *)
Definition current_claims (d : idb) (id : Z) : option Claims :=
  let! u := user_by_id id d else None in
  match collect_permissions (groups_of id d) ∅ with
  | Err _ => None
  | Ok perms =>
      Some (mk_claims id (u_name u) (role_from_group_names (map g_name (groups_of id d)))
              (if u_force u then [] else merge_sort str_le (elements perms)))
  end.

(** What of a user row the claims depend on. *)
Definition identity_of (u : UserRow) : string * bool := (u_name u, u_force u).

Lemma current_claims_ext (d d' : idb) (id : Z) :
  identity_of <$> user_by_id id d' = identity_of <$> user_by_id id d -> groups_of id d' = groups_of id d ->
  current_claims d' id = current_claims d id.
Proof.
  intros Hu Hg. unfold current_claims. rewrite Hg.
  destruct (user_by_id id d') as [u'|], (user_by_id id d) as [u|]; cbn in Hu; try done.
  injection Hu as -> ->. done.
Qed.

Lemma current_claims_sub (d : idb) (id : Z) (c : Claims) : current_claims d id = Some c -> sub c = id.
Proof. unfold current_claims. destruct (user_by_id id d); [|done]. destruct (collect_permissions _ _); [|done]. by intros [= <-]. Qed.

Lemma current_claims_user (d : idb) (id : Z) (c : Claims) : current_claims d id = Some c -> id ∈ map u_id (users d).
Proof.
  unfold current_claims. destruct (user_by_id id d) eqn:E; [|done]. intros _. apply user_by_id_is_some. by rewrite E.
Qed.

(** The users outside [S] keep their claims. *)
Definition claims_kept (S : idb -> Z -> Prop) (d d' : idb) : Prop :=
  (forall id, S d' id -> S d id) /\
  forall id c, ~ S d id -> current_claims d id = Some c -> current_claims d' id = Some c.

Lemma claims_kept_refl (S : idb -> Z -> Prop) (d : idb) : claims_kept S d d.
Proof. split; tauto. Qed.
Lemma claims_kept_trans (S : idb -> Z -> Prop) (d1 d2 d3 : idb) :
  claims_kept S d1 d2 -> claims_kept S d2 d3 -> claims_kept S d1 d3.
Proof. intros [A1 A2] [B1 B2]. split; [by auto|]. intros id c Hs Hc. apply B2; [by auto|]. by apply A2. Qed.
End Current.

(** Nobody, one user, the members of a group. *)
Definition nobody : idb -> Z -> Prop := fun _ _ => False.
Definition only (uid : Z) : idb -> Z -> Prop := fun _ id => id = uid.
Definition members_of (gid : Z) : idb -> Z -> Prop := fun d id => (id, gid) ∈ user_group_members d.

Section CurrentTx.
Context `{JL : SerdeJsonLaws}.

Lemma find_append {A} (p : A -> bool) (l k : list A) :
  List.find p (l ++ k)%list = match List.find p l with Some a => Some a | None => List.find p k end.
Proof. induction l as [|a l IH]; [done|]. cbn. by destruct (p a). Qed.
Lemma find_map_same {A} (p : A -> bool) (f : A -> A) (l : list A) :
  (forall a, p (f a) = p a) -> List.find p (map f l) = f <$> List.find p l.
Proof. intros Hp. induction l as [|a l IH]; [done|]. cbn. rewrite Hp. by destruct (p a). Qed.

Lemma update_user_claims (uid : Z) (f : UserRow -> UserRow) (d : idb) :
  (forall u, u_id (f u) = u_id u) -> claims_kept (only uid) d (update_user uid f d).
Proof.
  intros Hid. split; [done|]. intros id c Hne <-. apply current_claims_ext; [|done]. unfold user_by_id, update_user. cbn.
  rewrite find_map_same by (intros a; destruct (u_id a =? uid); [by rewrite Hid|done]).
  destruct (List.find _ (users d)) as [u|] eqn:E; [|done]. cbn. apply List.find_some in E as [_ E%Z.eqb_eq].
  destruct (Z.eqb_spec (u_id u) uid); [|done]. destruct Hne. unfold only. congruence.
Qed.

(** Changing how users' columns that do not show is kept for everyone. *)
Lemma update_user_claims_all (uid : Z) (f : UserRow -> UserRow) (d : idb) :
  (forall u, u_id (f u) = u_id u) -> (forall u, identity_of (f u) = identity_of u) ->
  forall id, current_claims (update_user uid f d) id = current_claims d id.
Proof.
  intros Hid Hi id. apply current_claims_ext; [|done]. unfold user_by_id, update_user. cbn.
  rewrite find_map_same by (intros a; destruct (u_id a =? uid); [by rewrite Hid|done]).
  destruct (List.find _ (users d)) as [u|]; [|done]. cbn. destruct (u_id u =? uid); [by rewrite Hi|done].
Qed.

Lemma groups_of_members (d : idb) (l : list (Z * Z)) (id : Z) :
  (forall g, (id, g) ∈ l <-> (id, g) ∈ user_group_members d) -> groups_of id (set_members d l) = groups_of id d.
Proof.
  intros Hl. unfold groups_of. cbn. induction (user_groups d) as [|g gs IH]; [done|].
  rewrite !filter_cons, IH. destruct (decide ((id, g_id g) ∈ l)) as [H1|H1], (decide ((id, g_id g) ∈ user_group_members d)) as [H2|H2]; try done.
  - by apply Hl in H1.
  - by apply Hl in H2.
Qed.

Lemma set_members_claims (uid : Z) (gs : list Z) (d : idb) :
  claims_kept (only uid) d (set_members d (members_without uid d ++ map (fun g => (uid, g)) gs)%list).
Proof.
  split; [done|]. intros id c Hne <-. apply current_claims_ext; [done|]. apply groups_of_members. intros g.
  rewrite elem_of_app. unfold members_without. rewrite list_elem_of_filter, list_elem_of_fmap. cbn. split.
  - intros [[_ ?]|(x & [= -> _] & _)]; [done|]. by destruct Hne.
  - intros Hin. left. split; [|done]. intros ->. by apply Hne.
Qed.

Lemma insert_user_claims now name h r f d a d' :
  wf d -> insert_user now name h r f d = Ok (a, d') -> claims_kept nobody d d'.
Proof.
  intros Hwf. unfold insert_user. destruct (is_some _); [done|]. intros [= _ <-]. split; [done|]. intros id c _ Hc.
  rewrite <- Hc. apply current_claims_ext; [|done]. unfold user_by_id. cbn.
  apply current_claims_user in Hc. rewrite find_append. apply user_by_id_is_some in Hc. unfold user_by_id in Hc.
  by destruct (List.find _ (users d)).
Qed.

Lemma delete_user_claims uid d a d' : delete_user uid d = Ok (a, d') -> claims_kept (only uid) d d'.
Proof.
  intros [= _ <-]. split; [done|]. intros id c Hne <-. apply current_claims_ext.
  - unfold user_by_id. cbn. f_equal. induction (users d) as [|u l IH]; [done|]. rewrite filter_cons. case_decide as Hu; cbn.
    + by rewrite IH.
    + rewrite (proj2 (Z.eqb_neq (u_id u) id)); [done|]. unfold only in Hne. congruence.
  - change (groups_of id (set_users (set_members d (members_without uid d)) (filter (fun u => u_id u <> uid) (users d)) (next_user d)))
      with (groups_of id (set_members d (members_without uid d))).
    apply groups_of_members. intros g. unfold members_without. rewrite list_elem_of_filter. cbn. split; [tauto|].
    intros Hin. split; [|done]. intros ->. by apply Hne.
Qed.

Lemma update_user_role_claims uid role d a d' :
  update_user_role uid role d = Ok (a, d') -> claims_kept (only uid) d d'.
Proof.
  unfold update_user_role. destruct (group_by_name _ _) as [g|]; [|done]. destruct (is_some _); [|done]. intros [= _ <-].
  eapply claims_kept_trans; [apply (update_user_claims uid (set_role role)); done|].
  apply (set_members_claims uid [g_id g]).
Qed.
Lemma set_user_groups_claims uid gs d a d' :
  set_user_groups uid gs d = Ok (a, d') -> claims_kept (only uid) d d'.
Proof.
  unfold set_user_groups. destruct (negb _); [done|]. destruct (negb _); [done|]. destruct (_ && _); [done|].
  intros [= _ <-]. apply set_members_claims.
Qed.
Lemma update_user_password_claims uid h d a d' :
  update_user_password uid h d = Ok (a, d') -> claims_kept (only uid) d d'.
Proof. unfold update_user_password. destruct (is_some _); [|done]. intros [= _ <-]. by apply update_user_claims. Qed.
Lemma reset_user_password_claims uid h d a d' :
  reset_user_password uid h d = Ok (a, d') -> claims_kept (only uid) d d'.
Proof. unfold reset_user_password. destruct (is_some _); [|done]. intros [= _ <-]. by apply update_user_claims. Qed.

(** Groups a user does not belong to do not matter to the claims. *)
Lemma groups_of_ext (d d' : idb) (id : Z) (f : GroupRow -> GroupRow) :
  user_groups d' = map f (user_groups d) -> user_group_members d' = user_group_members d ->
  (forall g, g_id (f g) = g_id g) -> (forall g, (id, g_id g) ∈ user_group_members d -> f g = g) ->
  groups_of id d' = groups_of id d.
Proof.
  intros Hg Hm Hid Hf. unfold groups_of. rewrite Hg, Hm. clear Hg. induction (user_groups d) as [|g gs IH]; [done|].
  cbn [map]. rewrite !filter_cons, IH, Hid. case_decide as Hin; [|done]. by rewrite Hf.
Qed.

Lemma create_user_group_claims now n desc text d a d' :
  wf d -> create_user_group now n desc text d = Ok (a, d') -> claims_kept nobody d d'.
Proof.
  intros Hwf. unfold create_user_group. destruct (is_some _); [done|]. intros [= _ <-]. split; [done|]. intros id c _ <-.
  apply current_claims_ext; [done|]. unfold groups_of. cbn. rewrite filter_app, filter_cons_False, filter_nil; [by rewrite app_nil_r|].
  cbn. intros Hin. pose proof (wf_mem d Hwf) as Hm. rewrite Forall_forall in Hm. destruct (Hm _ Hin) as [_ Hg].
  cbn in Hg. by apply (fresh_not_in _ _ (wf_gid d Hwf)) in Hg.
Qed.

Lemma update_user_group_claims gid n desc text d a d' :
  update_user_group gid n desc text d = Ok (a, d') -> claims_kept (members_of gid) d d'.
Proof.
  unfold update_user_group. destruct (_ && _); [done|]. intros [= _ <-]. split; [done|]. intros id c Hne <-.
  apply current_claims_ext; [done|]. eapply groups_of_ext; [done|done|intros g; cbn; by destruct (g_id g =? gid)|].
  intros g Hin. cbn. destruct (Z.eqb_spec (g_id g) gid) as [E|]; [|done]. rewrite E in Hin. by destruct Hne.
Qed.

Lemma delete_user_group_claims gid d a d' :
  delete_user_group gid d = Ok (a, d') -> claims_kept (members_of gid) d d'.
Proof.
  intros [= _ <-]. split.
  - intros id. unfold members_of. cbn. by intros [_ ?]%list_elem_of_filter.
  - intros id c Hne <-. apply current_claims_ext; [done|]. unfold groups_of. cbn.
    induction (user_groups d) as [|g gs IH]; [done|]. rewrite !filter_cons.
    destruct (decide (g_id g <> gid)) as [Hg|Hg].
    + rewrite filter_cons, IH. destruct (decide ((id, g_id g) ∈ user_group_members d)) as [H1|H1].
      * rewrite decide_True; [done|]. apply list_elem_of_filter. by split.
      * rewrite decide_False; [done|]. by intros [_ ?]%list_elem_of_filter.
    + rewrite IH. apply dec_stable in Hg. rewrite Hg, decide_False by done. done.
Qed.
End CurrentTx.

(** ** What services do to everyone's claims when no call fails *)

Section Follows.
Context `{JL : SerdeJsonLaws} `{H : PasswordHasher}.

Definition follows (S : idb -> Z -> Prop) (w w' : uworld) : Prop :=
  uw_faults w = [] -> wf (uw_db w) -> uw_faults w' = [] /\ wf (uw_db w') /\ claims_kept S (uw_db w) (uw_db w').
#[local] Instance follows_preorder (S : idb -> Z -> Prop) : PreOrder (follows S).
Proof.
  split.
  - intros w Hq Hwf. split_and!; [done|done|apply claims_kept_refl].
  - intros a b c Hab Hbc Hq Hwf. destruct (Hab Hq Hwf) as (Hq' & Hwf' & Hk). destruct (Hbc Hq' Hwf') as (Hq'' & Hwf'' & Hk').
    split_and!; [done|done|]. by eapply claims_kept_trans.
Qed.

(** A statement that keeps everything but the claims of [S]. *)
Definition tx_follows (S : idb -> Z -> Prop) {A} (t : tx A) : Prop :=
  forall d a d', wf d -> t d = Ok (a, d') -> wf d' /\ claims_kept S d d'.

Lemma keeps_follows (S : idb -> Z -> Prop) {A} (t : tx A) : tx_follows S t -> keeps (follows S) (db t).
Proof.
  intros Ht w Hq Hwf. unfold db. rewrite Hq. destruct (t (uw_db w)) as [[a d]|e] eqn:E; cbn.
  - split; [done|]. exact (Ht _ _ _ Hwf E).
  - split_and!; [done|done|apply claims_kept_refl].
Qed.
Lemma query_follows (S : idb -> Z -> Prop) {A} (f : idb -> A) : tx_follows S (query f).
Proof. intros d a d' Hwf [= _ <-]. split; [done|apply claims_kept_refl]. Qed.

Lemma attempts_claims (m : gmap string (Z * option Z)) (d : idb) : claims_kept nobody d (set_attempts d m).
Proof. split; [done|]. intros id c _ Hc. exact Hc. Qed.
Lemma attempts_follow (m : gmap string (Z * option Z)) (d0 d : idb) :
  wf d /\ claims_kept nobody d0 d -> wf (set_attempts d m) /\ claims_kept nobody d0 (set_attempts d m).
Proof. intros [Hwf Hk]. split; [by apply wf_attempts|]. eapply claims_kept_trans; [exact Hk|apply attempts_claims]. Qed.
(** The statements on login attempts. *)
Lemma attempts_tx {A} (t : tx A) :
  (forall P : idb -> Prop, (forall m d, P d -> P (set_attempts d m)) -> tx_keeps P t) -> tx_follows nobody t.
Proof.
  intros Ht d a d' Hwf He. refine (Ht (fun d' => wf d' /\ claims_kept nobody d d') _ d a d' _ He).
  - intros m d1. apply attempts_follow.
  - split; [done|apply claims_kept_refl].
Qed.
Lemma clear_login_failures_follows u : tx_follows nobody (clear_login_failures u).
Proof. apply attempts_tx. intros P HP. by apply clear_login_failures_keeps. Qed.
Lemma clear_expired_follows now u : tx_follows nobody (clear_expired_login_lock now u).
Proof. apply attempts_tx. intros P HP. by apply clear_expired_keeps. Qed.
Lemma get_remaining_follows now u : tx_follows nobody (get_remaining_lock_secs now u).
Proof. apply attempts_tx. intros P HP. apply get_remaining_keeps. Qed.
Lemma record_failure_follows now u : tx_follows nobody (record_login_failure now u).
Proof. apply attempts_tx. intros P HP. by apply record_failure_keeps. Qed.

(** Well-formedness and claims of a statement, together. *)
Lemma tx_follows_intro (S : idb -> Z -> Prop) {A} (t : tx A) :
  tx_keeps wf t -> (forall d a d', wf d -> t d = Ok (a, d') -> claims_kept S d d') -> tx_follows S t.
Proof. intros Hwf Hk d a d' Hd Ht. split; [exact (Hwf _ _ _ Hd Ht)|exact (Hk _ _ _ Hd Ht)]. Qed.
Lemma update_user_password_follows id h : tx_follows (only id) (update_user_password id h).
Proof. apply tx_follows_intro; [apply update_user_password_wf|intros d a d' _; apply update_user_password_claims]. Qed.
Lemma reset_user_password_follows id h : tx_follows (only id) (reset_user_password id h).
Proof. apply tx_follows_intro; [apply reset_user_password_wf|intros d a d' _; apply reset_user_password_claims]. Qed.
Lemma delete_user_follows id : tx_follows (only id) (delete_user id).
Proof. apply tx_follows_intro; [apply delete_user_wf|intros d a d' _; apply delete_user_claims]. Qed.
Lemma update_user_role_follows id r : tx_follows (only id) (update_user_role id r).
Proof. apply tx_follows_intro; [apply update_user_role_wf|intros d a d' _; apply update_user_role_claims]. Qed.
Lemma set_user_groups_follows id gs : tx_follows (only id) (set_user_groups id gs).
Proof. apply tx_follows_intro; [apply set_user_groups_wf|intros d a d' _; apply set_user_groups_claims]. Qed.
Lemma delete_user_group_follows id : tx_follows (members_of id) (delete_user_group id).
Proof. apply tx_follows_intro; [apply delete_user_group_wf|intros d a d' _; apply delete_user_group_claims]. Qed.

Hint Resolve keeps_follows query_follows clear_login_failures_follows clear_expired_follows get_remaining_follows
  record_failure_follows update_user_password_follows reset_user_password_follows delete_user_follows
  update_user_role_follows set_user_groups_follows delete_user_group_follows follows_preorder : keeps.

Lemma list_user_permissions_follows S id : keeps (follows S) (list_user_permissions id).
Proof. unfold list_user_permissions. keeps_tac. Qed.
Lemma derive_role_follows S id : keeps (follows S) (derive_role id).
Proof. unfold derive_role. keeps_tac. Qed.
Lemma require_user_follows S id : keeps (follows S) (require_user id).
Proof. unfold require_user. keeps_tac. Qed.
Hint Resolve list_user_permissions_follows derive_role_follows require_user_follows : keeps.
Lemma login_follows now u p : keeps (follows nobody) (login now u p).
Proof. unfold login, check_lock, reject_login. keeps_tac. Qed.
Lemma user_profile_follows id u : keeps (follows nobody) (user_profile id u).
Proof. unfold user_profile. keeps_tac. Qed.
Lemma list_users_follows : keeps (follows nobody) list_users.
Proof. unfold list_users, list_users_with_groups. keeps_tac. Qed.
Lemma get_group_follows S id : keeps (follows S) (get_group id).
Proof. unfold get_group. keeps_tac. Qed.
Lemma list_groups_follows : keeps (follows nobody) list_groups.
Proof.
  unfold list_groups. keeps_tac. intros. induction a as [|g l IH]; cbn; [keeps_tac|].
  unfold group_entry, list_group_members. keeps_tac.
Qed.
Lemma change_password_follows salt id a b : keeps (follows (only id)) (change_password salt id a b).
Proof. unfold change_password. keeps_tac. Qed.
Lemma delete_account_follows c t : keeps (follows (only t)) (delete_account c t).
Proof. unfold delete_account. keeps_tac. Qed.
Lemma update_role_follows c t r : keeps (follows (only t)) (update_role c t r).
Proof. unfold update_role. keeps_tac. Qed.
Lemma reset_password_follows salt t p : keeps (follows (only t)) (reset_password salt t p).
Proof. unfold reset_password. keeps_tac. Qed.
Lemma assign_groups_follows c t l : keeps (follows (only t)) (assign_groups c t l).
Proof. unfold assign_groups. keeps_tac. Qed.
Lemma create_group_follows now n d p : keeps (follows nobody) (create_group now n d p).
Proof.
  unfold create_group. destruct n as [n|]; [|keeps_tac]. destruct (is_empty n); [keeps_tac|].
  apply keeps_lift_bind; [apply _|]. intros [text j] Ht%permission_text_parses.
  assert (tx_follows nobody (create_user_group now n (default "" d) text)).
  { apply tx_follows_intro; [by apply create_user_group_wf; exists j|]. intros ???. apply create_user_group_claims. }
  keeps_tac.
Qed.
Lemma update_group_follows id n d p : keeps (follows (members_of id)) (update_group id n d p).
Proof.
  unfold update_group. apply keeps_bind; [apply _|keeps_tac|intros found].
  apply keeps_bind; [apply _|keeps_tac|intros existing]. destruct (is_builtin_group _); [keeps_tac|].
  apply keeps_lift_bind; [apply _|]. intros [text j] Ht%permission_text_parses.
  assert (tx_follows (members_of id) (update_user_group id (default (g_name existing) n) (default (g_description existing) d) text)).
  { apply tx_follows_intro; [by apply update_user_group_wf; exists j|]. intros ??? _. apply update_user_group_claims. }
  keeps_tac.
Qed.
Lemma delete_group_follows id : keeps (follows (members_of id)) (delete_group id).
Proof. unfold delete_group. keeps_tac. Qed.

(** A new account: whatever happens, nobody else's claims change. *)
Lemma register_follows now salt u p r cr : keeps (follows nobody) (register now salt u p r cr).
Proof.
  unfold register, default_group_id.
  apply keeps_bind; [apply _|keeps_tac|intros _]. apply keeps_bind; [apply _|keeps_tac|intros _].
  destruct (_ && _); [keeps_tac|]. destruct (_ && _); [keeps_tac|]. cbv zeta.
  apply keeps_bind; [apply _|keeps_tac|intros g]. apply keeps_bind; [apply _|keeps_tac|intros h].
  intros [d fs] Hq Hwf. cbn in Hq, Hwf. subst fs.
  destruct (insert_user now u h r false d) as [[id d1]|e] eqn:Ei.
  2: { rewrite (bind_err _ _ _ (mk_uworld d []) (RegisterConflict e)) by (apply map_err_err; by rewrite db_quiet, Ei).
       split_and!; [done|done|apply claims_kept_refl]. }
  rewrite (bind_ok _ _ _ (mk_uworld d1 []) id) by (apply map_err_ok; by rewrite db_quiet, Ei).
  assert (wf d1) as Hwf1 by (by eapply insert_user_wf). pose proof (insert_user_claims _ _ _ _ _ _ _ _ Hwf Ei) as Hk1.
  assert (id ∉ map u_id (users d)) as Hnew.
  { unfold insert_user in Ei. destruct (is_some _); [done|]. injection Ei as <- _. apply fresh_not_in, Hwf. }
  assert (forall d2, claims_kept (only id) d1 d2 -> claims_kept nobody d d2) as Hlift.
  { intros d2 [_ Hk]. split; [done|]. intros i c _ Hc. apply Hk; [|apply (proj2 Hk1); [intros []|done]].
    unfold only. intros ->. by apply current_claims_user in Hc. }
  destruct (set_user_groups id [g] d1) as [[a d2]|e] eqn:Es.
  - rewrite (bind_ok _ _ _ (mk_uworld d2 []) (Ok a)) by (apply try_eq; by rewrite db_quiet, Es).
    split_and!; [done|by eapply set_user_groups_wf|]. apply Hlift. by eapply set_user_groups_claims.
  - rewrite (bind_ok _ _ _ (mk_uworld d1 []) (Err e)) by (apply try_eq; by rewrite db_quiet, Es).
    destruct (delete_user id d1) as [[b d2]|e'] eqn:Ed; [|done].
    rewrite (bind_ok _ _ _ (mk_uworld d2 []) (Ok b)) by (apply try_eq; by rewrite db_quiet, Ed).
    split_and!; [done|by eapply delete_user_wf|]. apply Hlift. by eapply delete_user_claims.
Qed.
End Follows.

(** ** Operations that fail change nothing *)

(** Queries, and computations whose errors come before their only write. *)
Definition same_db (w w' : uworld) : Prop := uw_db w' = uw_db w.
#[export] Instance same_db_preorder : PreOrder same_db.
Proof. split; [done|]. unfold same_db. intros a b c Hab Hbc. congruence. Qed.
Definition fails_clean {E A} (m : sm uworld E A) : Prop := forall w e w', m w = (Err e, w') -> same_db w w'.

Section Atomic.
Context `{J : SerdeJson} `{H : PasswordHasher}.

Lemma query_same {A} (f : idb -> A) : keeps same_db (db (query f)).
Proof. intros w. unfold db, query, same_db. by destruct (uw_faults w) as [|[] fs]. Qed.
Lemma db_clean {A} (t : tx A) : fails_clean (db t).
Proof.
  intros w e w'. unfold db, same_db. destruct (uw_faults w) as [|[] fs]; [|by intros [= _ <-]|];
    (destruct (t (uw_db w)) as [[a d]|]; [done|by intros [= _ <-]]).
Qed.
Lemma map_err_clean {E E' A} (f : E -> E') (m : sm uworld E A) : fails_clean m -> fails_clean (sm_map_err f m).
Proof.
  intros Hm w e w'. unfold sm_map_err. destruct (m w) as [[a|e0] w1] eqn:Em; [done|]. intros [= _ <-]. by eapply Hm.
Qed.
Lemma same_clean {E A} (m : sm uworld E A) : keeps same_db m -> fails_clean m.
Proof. intros Hm w e w' Hw. specialize (Hm w). by rewrite Hw in Hm. Qed.
Lemma bind_clean {E A B} (m : sm uworld E A) (f : A -> sm uworld E B) :
  keeps same_db m -> (forall a, fails_clean (f a)) -> fails_clean (sm_bind m f).
Proof.
  intros Hm Hf w e w'. unfold sm_bind. specialize (Hm w). destruct (m w) as [[a|e0] w1].
  - intros Hw%Hf. by transitivity w1.
  - by intros [= _ <-].
Qed.
(** A write that is followed by nothing that fails. *)
Lemma last_write_clean {E A B} (m : sm uworld E A) (f : A -> B) :
  fails_clean m -> fails_clean (do! a := m in sm_ret (f a)).
Proof. intros Hm w e w'. unfold sm_bind. destruct (m w) as [[a|e0] w1] eqn:Em; [done|]. intros [= _ <-]. by eapply Hm. Qed.
Lemma fail_clean {E A} (e : E) : fails_clean (sm_fail (A := A) e).
Proof. by intros w e' w' [= _ <-]. Qed.

Hint Resolve query_same keeps_map_err keeps_some keeps_lift same_db_preorder : keeps.
Ltac clean_tac :=
  repeat first
    [ apply fail_clean | apply map_err_clean | apply db_clean | apply last_write_clean
    | apply bind_clean; [solve [keeps_tac]|intros ?]
    | match goal with |- fails_clean (match ?x with _ => _ end) => destruct x end
    | apply same_clean; solve [keeps_tac] ].

Lemma require_user_same id : keeps same_db (require_user id).
Proof. unfold require_user, find_user_by_id. keeps_tac. Qed.
Hint Resolve require_user_same : keeps.

Lemma change_password_clean salt id a b : fails_clean (change_password salt id a b).
Proof. unfold change_password. clean_tac. Qed.
Lemma reset_password_clean salt t p : fails_clean (reset_password salt t p).
Proof. unfold reset_password. clean_tac. Qed.
Lemma delete_account_clean c t : fails_clean (delete_account c t).
Proof. unfold delete_account, find_user_by_id. clean_tac. Qed.
Lemma update_role_clean c t r : fails_clean (update_role c t r).
Proof. unfold update_role. clean_tac. Qed.
Lemma assign_groups_clean c t l : fails_clean (assign_groups c t l).
Proof. unfold assign_groups. clean_tac. Qed.
Lemma create_group_clean now n d p : fails_clean (create_group now n d p).
Proof. unfold create_group. clean_tac. Qed.
Lemma update_group_clean id n d p : fails_clean (update_group id n d p).
Proof. unfold update_group, get_user_group. clean_tac. Qed.
Lemma delete_group_clean id : fails_clean (delete_group id).
Proof. unfold delete_group, get_user_group. clean_tac. Qed.
End Atomic.

(** ** Deleting what is not there *)

Section Absent.
Context `{JL : SerdeJsonLaws}.

Lemma find_none_filter {A} (k : A -> Z) (i : Z) (l : list A) :
  List.find (fun a => k a =? i) l = None -> filter (fun a => k a <> i) l = l.
Proof.
  intros Hf. apply filter_id, Forall_forall. intros x Hx%list_elem_of_In.
  pose proof (List.find_none _ _ Hf x Hx) as Hn. cbn in Hn. by apply Z.eqb_neq.
Qed.
Lemma is_some_false {A} (o : option A) : is_some o = false -> o = None.
Proof. by destruct o. Qed.

Lemma delete_user_absent id d d' : wf d -> delete_user id d = Ok (false, d') -> d' = d.
Proof.
  intros Hwf [= Hs%is_some_false <-]. unfold members_without, set_users, set_members. cbn.
  rewrite (find_none_filter u_id) by exact Hs. rewrite filter_id; [by destruct d|].
  pose proof (wf_mem d Hwf) as Hm. rewrite Forall_forall in Hm |- *. intros m Hin. specialize (Hm _ Hin) as [Hu _].
  intros <-. by apply user_by_id_none in Hs.
Qed.
Lemma delete_user_group_absent id d d' : wf d -> delete_user_group id d = Ok (false, d') -> d' = d.
Proof.
  intros Hwf [= Hs%is_some_false <-]. unfold set_groups, set_members. cbn.
  rewrite (find_none_filter g_id) by exact Hs. rewrite filter_id; [by destruct d|].
  pose proof (wf_mem d Hwf) as Hm. rewrite Forall_forall in Hm |- *. intros m Hin. specialize (Hm _ Hin) as [_ Hg].
  intros <-. by apply group_by_id_none in Hs.
Qed.
Lemma delete_api_key_absent id d d' : delete_api_key id d = Ok (false, d') -> d' = d.
Proof.
  intros [= Hs <-]. unfold set_keys. rewrite filter_id; [by destruct d|]. apply Forall_forall. intros k Hk.
  pose proof (existsb_false _ _ _ Hs Hk) as Hn. by apply Z.eqb_neq.
Qed.

(** The operation answers [false] when there was nothing to delete. *)
Definition false_clean {E} (m : sm uworld E bool) : Prop :=
  forall w w', wf (uw_db w) -> m w = (Ok false, w') -> same_db w w'.
Lemma db_false_clean (t : tx bool) :
  (forall d d', wf d -> t d = Ok (false, d') -> d' = d) -> false_clean (db t).
Proof.
  intros Ht w w' Hwf. unfold db, same_db. destruct (uw_faults w) as [|[] fs]; [|done|];
    (destruct (t (uw_db w)) as [[[] d]|] eqn:Et; [done| |done]; intros [= <-]; by eapply Ht).
Qed.
Lemma guarded_false_clean {A E E'} (f : idb -> A) (g : DbError -> E) (b : A -> bool) (e : E) (g' : E' -> E) (m : sm uworld E' bool) :
  false_clean m ->
  false_clean (do! a := sm_map_err g (db (query f)) in if b a then sm_fail e else sm_map_err g' m).
Proof.
  intros Hm w w' Hwf. unfold sm_bind. pose proof (keeps_map_err _ g _ (query_same f) w) as Hq. unfold same_db in Hq.
  destruct (sm_map_err g (db (query f)) w) as [[a|?] w1]; [|done]. cbn [snd] in Hq. destruct (b a); [done|].
  unfold sm_map_err. destruct (m w1) as [[[]|?] w2] eqn:Em; [done| |done]. intros [= <-].
  transitivity w1; [done|]. eapply Hm; [by rewrite Hq|done].
Qed.
Lemma delete_account_false c t : false_clean (delete_account c t).
Proof.
  unfold delete_account. destruct (c =? t); [done|]. apply guarded_false_clean, db_false_clean, delete_user_absent.
Qed.
Lemma delete_group_false id : false_clean (delete_group id).
Proof. apply guarded_false_clean, db_false_clean, delete_user_group_absent. Qed.
End Absent.
