(* ===== verification/Access.v ===== *)
(** * Access: authentication of requests and the identity endpoints

    The middlewares in front of the API (adapter/http/middleware/auth.rs,
    csrf.rs, extractor.rs, setup_guard.rs), the session cookie
    (adapter/http/session.rs) and the handlers of users, groups and API keys
    (adapter/http/identity/auth.rs, api_keys.rs), over [Users] and [Identity].
    A response is its status, its cookies and the data of its body; texts are
    left out.  Random tokens, salts and the clock come with each request. *)

From Stdlib Require Import ZArith Lia List Ascii String.
From stdpp Require Import base list gmap sets strings.
From S2P Require Import Prelude RStr Identity Users.

Local Open Scope string_scope.
Local Open Scope Z_scope.

(** ** Requests and responses *)

Inductive Method : Type := GET | HEAD | POST | PUT | DELETE | PATCH | OPTIONS | OtherMethod.
#[export] Instance Method_eq_dec : EqDecision Method.
Proof. solve_decision. Defined.

(** Of a request: its path as sent, method, cookies, the headers the middlewares
    read and the peer's address as text. *)
Record HttpRequest : Type := mk_request {
  path : string; method : Method; cookies : list (string * string);
  x_api_key : option string; x_csrf_token : option string; peer : string }.

Record Cookie : Type := mk_cookie {
  ck_name : string; ck_value : string; ck_http_only : bool; ck_secure : bool; ck_strict : bool; ck_max_age : Z }.

Inductive Body : Type :=
  | Text
  | LoggedIn (role : string) (force_password_change : bool) (csrf : string)
  | RetryAfter (secs : Z)
  | Me (profile : UserProfile) (csrf : option string)
  | UserList (users : list UserListEntry)
  | GroupList (groups : list (GroupRow * Json * list (Z * string)))
  | GroupBody (group : GroupDetail)
  | GroupChanged (group : GroupMutation)
  | KeyList (keys : list ApiKeyRow)
  | NewKey (id : Z) (key name level : string).

Record Response : Type := mk_resp { status : Z; set_cookies : list Cookie; body : Body }.
Definition reply (status : Z) : Response := mk_resp status [] Text.
Definition reply_with (status : Z) (b : Body) : Response := mk_resp status [] b.

(** The clock, the configuration and the randomness of one request. *)
Record Env : Type := mk_env {
  now : Z; cfg : SessionConfig; salt : string; new_session_id : string; new_csrf_token : string; raw_key : string }.

(** ** The world *)

Record aworld : Type := mk_aworld { aw_users : uworld; aw_sessions : SessionService }.

Definition on_users {E A} (m : sm uworld E A) : sm aworld E A := fun w =>
  let '(r, u) := m (aw_users w) in (r, mk_aworld u (aw_sessions w)).
Definition on_sessions {E A} (f : SessionService -> A * SessionService) : sm aworld E A := fun w =>
  let '(a, s) := f (aw_sessions w) in (Ok a, mk_aworld (aw_users w) s).
Definition sessions_do {E} (f : SessionService -> SessionService) : sm aworld E unit :=
  on_sessions (fun s => (tt, f s)).

(** [m]'s outcome, never an error: a handler answers every request. *)
Definition handler : Type := sm aworld Empty_set Response.
Definition answer {E A} (m : sm uworld E A) (k : result E A -> handler) : handler :=
  do! r := sm_try (on_users m) in k r.

(** ** Session cookies *)

Definition SESSION_COOKIE_NAME : string := "netguardia_session".
Definition SECURE_SESSION_COOKIE_NAME : string := "__Host-netguardia_session".
Definition cookie_name (cfg : SessionConfig) : string :=
  if force_https cfg then SECURE_SESSION_COOKIE_NAME else SESSION_COOKIE_NAME.
(** [i64::try_from(secs).unwrap_or(i64::MAX)] *)
Definition cookie_duration (secs : Z) : Z := Z.min secs (umax 63).
Definition session_cookie (cfg : SessionConfig) (s : CreatedSession) : Cookie :=
  mk_cookie (cookie_name cfg) (cs_id s) true (force_https cfg) true (cookie_duration (cs_max_age_secs s)).
Definition removal_cookie_for (cfg : SessionConfig) (name : string) : Cookie :=
  mk_cookie name "" true (force_https cfg) true 0.
Definition removal_cookies (cfg : SessionConfig) : list Cookie :=
  removal_cookie_for cfg (cookie_name cfg) ::
  (if String.eqb (cookie_name cfg) SESSION_COOKIE_NAME then [] else [removal_cookie_for cfg SESSION_COOKIE_NAME]).

(** [req.cookie(cookie_service.cookie_name())] *)
Definition session_cookie_of (cfg : SessionConfig) (req : HttpRequest) : option string :=
  snd <$> List.find (fun c => String.eqb c.1 (cookie_name cfg)) (cookies req).

(** ** Required permissions *)

Definition PERMISSION_USERS_ADMIN : string := "users:admin".
Definition PERMISSION_API_KEYS_ADMIN : string := "api_keys:admin".
Definition PERMISSION_ACCESS_CONTROL_WRITE : string := "access_control:write".

(** What a path needs: nothing, one permission, or reading or writing a resource. *)
Inductive Need : Type := Nothing | Permission (p : string) | Resource (r : string).

Definition need_of_path (path : string) : Need :=
  let under p := starts_with path p in
  let equals p := String.eqb path p in
  if equals "/api/auth/login" || equals "/api/auth/logout" || equals "/api/auth/me" || equals "/api/auth/change-password" then Nothing
  else if under "/api/auth/" then Permission PERMISSION_USERS_ADMIN
  else if under "/api/health/" then Resource "dashboard"
  else if under "/api/stats/drops" then Resource "drops"
  else if under "/api/stats/flows" then Resource "traffic_map"
  else if under "/api/stats/summary" then Resource "statistics"
  else if under "/api/ml/" || under "/api/byo/" then Resource "ai_detection"
  else if under "/api/fusion/" then Resource "fusion"
  else if under "/api/flow-trace/" then Resource "flow_trace"
  else if under "/api/acl/geo/" then Resource "geo_block"
  else if under "/api/acl/" then Resource "access_control"
  else if under "/api/filter/dns/" then Resource "dns_filter"
  else if under "/api/filter/http/" || under "/api/filter/ssh/" then Resource "protocol_filter"
  else if under "/api/rate-limit/" then Resource "rate_limit"
  else if under "/api/system/" then Resource "system"
  else if equals "/api/api-keys" || under "/api/api-keys/" then Permission PERMISSION_API_KEYS_ADMIN
  else if str_contains path "/soar/blocks/" && ends_with path "/unblock" then Permission PERMISSION_ACCESS_CONTROL_WRITE
  else if under "/api/soar/" || under "/api/notifications/" || equals "/api/report" || under "/api/report/"
          || equals "/api/logs" || under "/api/logs/" || equals "/api/audit" || under "/api/audit/" then Resource "system"
  else Nothing.

Definition required_permission (path : string) (m : Method) : option string :=
  match need_of_path path with
  | Nothing => None
  | Permission p => Some p
  | Resource r => Some (r ++ ":" ++ (if decide (m = GET) then "read" else "write"))
  end.

Definition is_auth_exempt_request (path : string) (m : Method) : bool :=
  bool_decide (m = OPTIONS) || String.eqb path "/api/auth/login" || starts_with path "/api/setup/"
  || negb (starts_with path "/api/").

(** ** CSRF *)

Definition is_state_changing (m : Method) : bool := negb (bool_decide (m ∈ [GET; HEAD; OPTIONS])).
Definition is_csrf_exempt_path (path : string) : bool :=
  String.eqb path "/api/auth/login" || starts_with path "/api/setup/" || starts_with path "/ws/".
Definition should_require_csrf_token (path : string) (m : Method) (has_api_key : bool) : bool :=
  negb has_api_key && is_state_changing m && negb (is_csrf_exempt_path path).

(** The middleware around the handlers [k]. *)
Definition csrf_middleware (env : Env) (req : HttpRequest) (k : handler) : handler :=
  if should_require_csrf_token (path req) (method req) (is_some (x_api_key req)) then
    match x_csrf_token req with
    | None => sm_ret (reply 403)
    | Some token =>
        match session_cookie_of (cfg env) req with
        | None => sm_ret (reply 403)
        | Some id =>
            do! s := on_sessions (fun s => (csrf_token_status (cfg env) (now env) id token s, s)) in
            match s with
            | Valid => k
            | Expired => run! sessions_do (remove_session id) in sm_ret (reply 403)
            | Invalid | MissingSession => sm_ret (reply 403)
            end
        end
    end
  else k.

(** ** Authentication *)

(** HMAC of a raw API key. *)
Class ApiKeyHasher : Type := hash_api_key : string -> string.

(** The statement commits before it may still fail. *)
Definition db_sm {A} (m : sm idb DbError A) : sm uworld DbError A := fun w =>
  match uw_faults w with
  | true :: fs => (Err QueryFailed, mk_uworld (uw_db w) fs)
  | fs => let '(r, d) := m (uw_db w) in (r, mk_uworld d (tail fs))
  end.

Section Access.
Context `{J : SerdeJson} `{H : PasswordHasher} `{K : ApiKeyHasher}.

Definition authenticate_api_key (env : Env) (peer api_key : string) : sm uworld Response Claims :=
  let rate_key := "apikey:" ++ peer in
  do! lock := sm_try (db (get_remaining_lock_secs (now env) rate_key)) in
  match lock with
  | Ok (Some remaining) => sm_fail (reply_with 429 (RetryAfter remaining))
  | Err _ => sm_fail (reply 500)
  | Ok None =>
      run! sm_map_err (fun _ => reply 500) (db (clear_expired_login_lock (now env) rate_key)) in
      do! found := sm_try (db_sm (validate_api_key (now env) (hash_api_key api_key))) in
      match found with
      | Ok (Some key_claims) =>
          run! sm_try (db (clear_login_failures rate_key)) in sm_ret key_claims
      | Ok None =>
          run! sm_try (db (record_login_failure (now env) rate_key)) in sm_fail (reply 401)
      | Err _ => sm_fail (reply 500)
      end
  end.

Definition authenticate (env : Env) (req : HttpRequest) : sm aworld Response Claims :=
  match x_api_key req with
  | Some api_key => on_users (authenticate_api_key env (peer req) api_key)
  | None =>
      do! id := sm_some (reply 401) (session_cookie_of (cfg env) req) in
      do! c := on_sessions (claims_for_session (cfg env) (now env) id) in
      sm_some (reply 401) c
  end.

(** The claims a request is handled with, or the response that refuses it. *)
Definition authorize (env : Env) (req : HttpRequest) : sm aworld Response (option Claims) :=
  if is_auth_exempt_request (path req) (method req) then sm_ret None
  else
    do! c := authenticate env req in
    match required_permission (path req) (method req) with
    | Some required =>
        if bool_decide (required ∈ cl_permissions c) then sm_ret (Some c) else sm_fail (reply 403)
    | None => sm_ret (Some c)
    end.

(** Authentication, then CSRF, then the handler. *)
Definition serve (env : Env) (req : HttpRequest) (h : option Claims -> handler) : handler :=
  do! a := sm_try (authorize env req) in
  match a with
  | Err resp => sm_ret resp
  | Ok c => csrf_middleware env req (h c)
  end.

(** The [AuthClaims] extractor. *)
Definition with_claims (k : Claims -> handler) (c : option Claims) : handler :=
  match c with Some c => k c | None => sm_ret (reply 401) end.

(** ** Handlers of /api/auth *)

Definition user_error (e : UserError) : Response :=
  match e with
  | UserValidation _ => reply 400
  | Unauthorized => reply 401
  | UserForbidden _ => reply 403
  | UserMissing => reply 404
  | UserHashFailed | UserInternal _ => reply 500
  end.
Definition group_error (e : GroupError) : Response :=
  match e with
  | GroupValidation _ => reply 400
  | GroupForbidden _ => reply 403
  | GroupMissing => reply 404
  | GroupConflict _ => reply 409
  | GroupInternal _ => reply 500
  end.

Definition handle_login (env : Env) (username password : string) : handler :=
  answer (login (now env) username password) (fun r =>
    match r with
    | Ok result =>
        let claims := mk_claims (lr_user_id result) (lr_username result) (lr_role result) (lr_permissions result) in
        do! session := on_sessions (create_session (cfg env) (now env) (new_session_id env) (new_csrf_token env) claims) in
        sm_ret (mk_resp 200 [session_cookie (cfg env) session]
                  (LoggedIn (lr_role result) (lr_force result) (cs_csrf_token session)))
    | Err (Locked secs) => sm_ret (reply_with 429 (RetryAfter secs))
    | Err InvalidCredentials => sm_ret (reply 401)
    | Err InternalError => sm_ret (reply 500)
    end).

Definition handle_logout (env : Env) (req : HttpRequest) : handler :=
  run! match session_cookie_of (cfg env) req with
       | Some id => sessions_do (remove_session id)
       | None => sm_ret tt
       end in
  sm_ret (mk_resp 200 (removal_cookies (cfg env)) Text).

Definition handle_register (env : Env) (c : Claims) (username password role : string) : handler :=
  answer (register (now env) (salt env) username password role (cl_role c)) (fun r =>
    sm_ret match r with
    | Ok _ => reply 201
    | Err (RegisterValidation _) | Err InvalidRole => reply 400
    | Err RegisterForbidden => reply 403
    | Err RegisterHashFailed => reply 500
    | Err (RegisterConflict _) => reply 409
    | Err (RegisterInternal _) => reply 500
    end).

Definition handle_me (env : Env) (req : HttpRequest) (c : Claims) : handler :=
  answer (user_profile (sub c) (cl_username c)) (fun r =>
    match r with
    | Ok profile =>
        do! csrf := on_sessions (fun s =>
          (match session_cookie_of (cfg env) req with
           | Some id => csrf_token_for_session (cfg env) (now env) id s
           | None => None
           end, s)) in
        sm_ret (reply_with 200 (Me profile csrf))
    | Err _ => sm_ret (reply 500)
    end).

Definition handle_change_password (env : Env) (c : Claims) (current_password new_password : string) : handler :=
  answer (change_password (salt env) (sub c) current_password new_password) (fun r =>
    match r with
    | Ok _ =>
        run! sessions_do (remove_sessions_for_user (sub c)) in
        sm_ret (mk_resp 200 (removal_cookies (cfg env)) Text)
    | Err e => sm_ret (user_error e)
    end).

Definition handle_list_users : handler :=
  answer list_users (fun r => sm_ret match r with Ok l => reply_with 200 (UserList l) | Err _ => reply 500 end).

Definition handle_delete_user (c : Claims) (user_id : Z) : handler :=
  answer (delete_account (sub c) user_id) (fun r =>
    match r with
    | Ok true => run! sessions_do (remove_sessions_for_user user_id) in sm_ret (reply 200)
    | Ok false => sm_ret (reply 404)
    | Err e => sm_ret (user_error e)
    end).

Definition handle_update_role (c : Claims) (user_id : Z) (role : string) : handler :=
  if negb (String.eqb role ROLE_ADMIN) && negb (String.eqb role ROLE_VIEWER) then sm_ret (reply 400)
  else
    answer (update_role (sub c) user_id role) (fun r =>
      match r with
      | Ok _ => run! sessions_do (remove_sessions_for_user user_id) in sm_ret (reply 200)
      | Err e => sm_ret (user_error e)
      end).

Definition handle_reset_password (env : Env) (c : Claims) (user_id : Z) (new_password password : option string) : handler :=
  match (match new_password with Some p => Some p | None => password end) with
  | None => sm_ret (reply 400)
  | Some new_password =>
      answer (reset_password (salt env) user_id new_password) (fun r =>
        match r with
        | Ok _ =>
            run! sessions_do (remove_sessions_for_user user_id) in
            sm_ret (mk_resp 200 (if user_id =? sub c then removal_cookies (cfg env) else []) Text)
        | Err e => sm_ret (user_error e)
        end)
  end.

Definition handle_set_user_groups (c : Claims) (user_id : Z) (group_ids : list Z) : handler :=
  answer (assign_groups (sub c) user_id group_ids) (fun r =>
    match r with
    | Ok _ => run! sessions_do (remove_sessions_for_user user_id) in sm_ret (reply 200)
    | Err e => sm_ret (user_error e)
    end).

Definition handle_list_groups : handler :=
  answer list_groups (fun r => sm_ret match r with Ok l => reply_with 200 (GroupList l) | Err _ => reply 500 end).

Definition handle_create_group (env : Env) (name description : option string) (permissions : option Json) : handler :=
  answer (create_group (now env) name description permissions) (fun r =>
    sm_ret match r with Ok g => reply_with 201 (GroupChanged g) | Err e => group_error e end).

Definition handle_get_group (group_id : Z) : handler :=
  answer (get_group group_id) (fun r =>
    sm_ret match r with
    | Ok (Some g) => reply_with 200 (GroupBody g)
    | Ok None => reply 404
    | Err _ => reply 500
    end).

Definition remove_sessions_for_users (ids : list Z) (s : SessionService) : SessionService :=
  foldl (fun s id => remove_sessions_for_user id s) s ids.

Definition group_member_ids (r : result DbError (option GroupDetail)) : list Z :=
  match r with Ok (Some group) => gd_members group | _ => [] end.

Definition handle_update_group (group_id : Z) (name description : option string) (permissions : option Json) : handler :=
  answer (update_group group_id name description permissions) (fun r =>
    match r with
    | Ok g =>
        do! found := sm_try (on_users (get_group group_id)) in
        run! sessions_do (remove_sessions_for_users (group_member_ids found)) in
        sm_ret (reply_with 200 (GroupChanged g))
    | Err e => sm_ret (group_error e)
    end).

Definition handle_delete_group (group_id : Z) : handler :=
  do! found := sm_try (on_users (get_group group_id)) in
  let member_ids := group_member_ids found in
  answer (delete_group group_id) (fun r =>
    match r with
    | Ok true => run! sessions_do (remove_sessions_for_users member_ids) in sm_ret (reply 200)
    | Ok false => sm_ret (reply 404)
    | Err e => sm_ret (group_error e)
    end).

(** ** Handlers of /api/api-keys *)

Definition handle_list_keys : handler :=
  answer (db list_api_keys) (fun r => sm_ret match r with Ok l => reply_with 200 (KeyList l) | Err _ => reply 500 end).

Definition handle_generate_key (env : Env) (name : string) (level : option string) : handler :=
  let key_hash := hash_api_key (raw_key env) in
  let raw_level := default "read_only" level in
  match level_from_str raw_level with
  | None => sm_ret (reply 400)
  | Some level =>
      let name := trim name in
      match validate_api_key_name name with
      | Err _ => sm_ret (reply 400)
      | Ok _ =>
          answer (db (insert_api_key (now env) key_hash name (level_as_str level))) (fun r =>
            sm_ret match r with
            | Ok id => reply_with 201 (NewKey id (raw_key env) name (level_as_str level))
            | Err _ => reply 500
            end)
      end
  end.

Definition handle_delete_key (id : Z) : handler :=
  answer (db (delete_api_key id)) (fun r =>
    sm_ret match r with Ok true => reply 200 | Ok false => reply 404 | Err _ => reply 500 end).

(** ** The identity API as a whole

    [Elsewhere] is any endpoint of another component: it leaves users and
    sessions alone. *)

Inductive ApiCall : Type :=
  | Login (username password : string)
  | Logout
  | Register (username password role : string)
  | WhoAmI
  | ChangePassword (current_password new_password : string)
  | ListUsers
  | DeleteUser (user_id : Z)
  | UpdateRole (user_id : Z) (role : string)
  | ResetPassword (user_id : Z) (new_password password : option string)
  | SetUserGroups (user_id : Z) (group_ids : list Z)
  | ListGroups
  | CreateGroup (name description : option string) (permissions : option Json)
  | GetGroup (group_id : Z)
  | UpdateGroup (group_id : Z) (name description : option string) (permissions : option Json)
  | DeleteGroup (group_id : Z)
  | ListKeys
  | GenerateKey (name : string) (level : option string)
  | DeleteKey (id : Z)
  | Elsewhere.

Definition dispatch (env : Env) (req : HttpRequest) (call : ApiCall) : option Claims -> handler :=
  match call with
  | Login username password => fun _ => handle_login env username password
  | Logout => fun _ => handle_logout env req
  | Register username password role => with_claims (fun c => handle_register env c username password role)
  | WhoAmI => with_claims (handle_me env req)
  | ChangePassword cur new => with_claims (fun c => handle_change_password env c cur new)
  | ListUsers => with_claims (fun _ => handle_list_users)
  | DeleteUser id => with_claims (fun c => handle_delete_user c id)
  | UpdateRole id role => with_claims (fun c => handle_update_role c id role)
  | ResetPassword id a b => with_claims (fun c => handle_reset_password env c id a b)
  | SetUserGroups id gids => with_claims (fun c => handle_set_user_groups c id gids)
  | ListGroups => with_claims (fun _ => handle_list_groups)
  | CreateGroup n d p => with_claims (fun _ => handle_create_group env n d p)
  | GetGroup id => with_claims (fun _ => handle_get_group id)
  | UpdateGroup id n d p => with_claims (fun _ => handle_update_group id n d p)
  | DeleteGroup id => with_claims (fun _ => handle_delete_group id)
  | ListKeys => with_claims (fun _ => handle_list_keys)
  | GenerateKey n l => with_claims (fun _ => handle_generate_key env n l)
  | DeleteKey id => with_claims (fun _ => handle_delete_key id)
  | Elsewhere => fun _ => sm_ret (reply 200)
  end.

(** One request; the routing of paths to calls is the web framework's. *)
Definition api_step (e : Env * HttpRequest * ApiCall) (w : aworld) : aworld :=
  let '(env, req, call) := e in (serve env req (dispatch env req call) w).2.
Definition api_run (l : list (Env * HttpRequest * ApiCall)) (w : aworld) : aworld :=
  foldl (fun w e => api_step e w) w l.
End Access.

(** ** Which requests reach a handler *)

Lemma on_users_eq {E A} (m : sm uworld E A) (w : aworld) :
  on_users m w = ((m (aw_users w)).1, mk_aworld (m (aw_users w)).2 (aw_sessions w)).
Proof. unfold on_users. by destruct (m (aw_users w)). Qed.

Section Guarded.
Context `{J : SerdeJson} `{H : PasswordHasher} `{K : ApiKeyHasher}.

(** The claims come from the row of the key, or from the record of the session
    named by the cookie, which is still live. *)
Definition key_claims (key : string) (c : Claims) (w : aworld) : Prop :=
  exists k level, k ∈ api_keys (uw_db (aw_users w)) /\ k_hash k = hash_api_key key /\
    level_from_str (k_level k) = Some level /\
    c = mk_claims (- k_id k) ("api:" ++ k_name k) (k_level k) (level_permissions level).
Definition session_claims (env : Env) (req : HttpRequest) (c : Claims) (w : aworld) : Prop :=
  exists id r, session_cookie_of (cfg env) req = Some id /\ sessions (aw_sessions w) !! id = Some r /\
    record_expired (cfg env) r (now env) = false /\ c = claims r.
Definition credentials (env : Env) (req : HttpRequest) (c : Claims) (w : aworld) : Prop :=
  match x_api_key req with Some key => key_claims key c w | None => session_claims env req c w end.

(** The request carries the token of its session. *)
Definition csrf_proof (env : Env) (req : HttpRequest) (w : aworld) : Prop :=
  exists id r, session_cookie_of (cfg env) req = Some id /\ sessions (aw_sessions w) !! id = Some r /\
    record_expired (cfg env) r (now env) = false /\ x_csrf_token req = Some (csrf_token r).

Lemma db_keys {A} (t : tx A) (w : uworld) :
  tx_keeps (fun d => api_keys d = api_keys (uw_db w)) t -> api_keys (uw_db (db t w).2) = api_keys (uw_db w).
Proof.
  intros Ht. exact (keeps_db (fun d => api_keys d = api_keys (uw_db w)) t Ht w eq_refl).
Qed.

Lemma validate_api_key_sound now h d c :
  (validate_api_key now h d).1 = Ok (Some c) ->
  exists k level, k ∈ api_keys d /\ k_hash k = h /\ level_from_str (k_level k) = Some level /\
    c = mk_claims (- k_id k) ("api:" ++ k_name k) (k_level k) (level_permissions level).
Proof.
  unfold validate_api_key. destruct (List.find _ _) as [k|] eqn:Hf; [|done].
  destruct (level_from_str (k_level k)) as [level|] eqn:Hl; [|done]. intros [= <-].
  apply List.find_some in Hf as [Hin Hh%String.eqb_eq]. exists k, level. split_and!; try done. by apply list_elem_of_In.
Qed.

Lemma authenticate_api_key_sound env p key u c u' :
  authenticate_api_key env p key u = (Ok c, u') -> forall s, key_claims key c (mk_aworld u s).
Proof.
  unfold authenticate_api_key. set (rate := "apikey:" ++ p). unfold sm_bind, sm_try, sm_map_err.
  pose proof (db_keys (get_remaining_lock_secs (now env) rate) u (get_remaining_keeps _ _ _)) as E1.
  destruct (db (get_remaining_lock_secs (now env) rate) u) as [[[rem|]|e] u1]; cbn [sm_fail]; [done| |done].
  pose proof (db_keys (clear_expired_login_lock (now env) rate) u1 (clear_expired_keeps (fun d => api_keys d = api_keys (uw_db u1)) _ _ (fun m d Hd => Hd))) as E2.
  destruct (db (clear_expired_login_lock (now env) rate) u1) as [[?|e] u2]; [|done]. cbn [snd] in E1, E2.
  destruct (db_sm (validate_api_key (now env) (hash_api_key key)) u2) as [[[k|]|e] u3] eqn:E3; [| |done].
  - destruct (db (clear_login_failures rate) u3) as [? u4]. intros [= <- _] s.
    assert ((validate_api_key (now env) (hash_api_key key) (uw_db u2)).1 = Ok (Some k)) as Hv.
    { revert E3. unfold db_sm. destruct (uw_faults u2) as [|[] fs]; [|done|];
        by destruct (validate_api_key _ _ _) as [res d1]; intros [= -> _]. }
    destruct (validate_api_key_sound _ _ _ _ Hv) as (row & level & Hin & Hrow).
    exists row, level. cbn [aw_users]. by rewrite <- E1, <- E2.
  - by destruct (db (record_login_failure (now env) rate) u3) as [? u4].
Qed.

Lemma authenticate_sound env req w c w' :
  authenticate env req w = (Ok c, w') -> credentials env req c w.
Proof.
  unfold authenticate, credentials. destruct (x_api_key req) as [key|].
  - rewrite on_users_eq. destruct (authenticate_api_key env (peer req) key (aw_users w)) as [r u] eqn:E. cbn.
    intros [= -> _]. destruct w as [u0 s]. exact (authenticate_api_key_sound _ _ _ _ _ _ E s).
  - unfold session_claims. destruct (session_cookie_of (cfg env) req) as [id|]; [|done].
    unfold sm_bind, sm_some at 1, sm_ret at 1, on_sessions, claims_for_session.
    destruct (sessions (aw_sessions w) !! id) as [r|] eqn:Hr; [|done].
    destruct (record_expired (cfg env) r (now env)) eqn:Hx; [done|]. cbn. intros [= <- _]. by exists id, r.
Qed.

Definition permitted (req : HttpRequest) (c : Claims) : Prop :=
  forall p, required_permission (path req) (method req) = Some p -> p ∈ cl_permissions c.

Lemma authorize_sound env req w oc w' :
  authorize env req w = (Ok oc, w') ->
  if is_auth_exempt_request (path req) (method req) then oc = None /\ w' = w
  else exists c, oc = Some c /\ credentials env req c w /\ permitted req c.
Proof.
  unfold authorize, permitted. destruct (is_auth_exempt_request _ _); [by intros [= <- <-]|]. unfold sm_bind.
  destruct (authenticate env req w) as [[c|e] w1] eqn:Ha; [|done]. apply authenticate_sound in Ha.
  destruct (required_permission _ _) as [p|].
  - destruct (bool_decide_reflect (p ∈ cl_permissions c)) as [Hp|]; [|done]. intros [= <- _]. exists c.
    split_and!; [done|done|]. by intros ? [= <-].
  - intros [= <- _]. by exists c.
Qed.

(** Authentication leaves the token of every live session in place. *)
Lemma authorize_csrf env req w oc w' id r' :
  authorize env req w = (Ok oc, w') -> sessions (aw_sessions w') !! id = Some r' ->
  record_expired (cfg env) r' (now env) = false ->
  exists r, sessions (aw_sessions w) !! id = Some r /\ csrf_token r = csrf_token r' /\
    (record_expired (cfg env) r (now env) = false).
Proof.
  unfold authorize. destruct (is_auth_exempt_request _ _); [intros [= _ <-]; by exists r'|]. unfold sm_bind.
  destruct (authenticate env req w) as [[c|e] w1] eqn:Ha; [|done]. intros Hw' Hr' Hx'.
  assert (w' = w1) as ->.
  { revert Hw'. destruct (required_permission _ _) as [p|]; [destruct (bool_decide _)|]; by intros [= _ <-]. }
  clear Hw'. revert Ha. unfold authenticate. destruct (x_api_key req) as [key|].
  - rewrite on_users_eq. intros [= _ <-]. cbn in Hr'. by exists r'.
  - destruct (session_cookie_of (cfg env) req) as [id0|]; [|done].
    unfold sm_bind, sm_some at 1, sm_ret at 1, on_sessions, claims_for_session.
    destruct (sessions (aw_sessions w) !! id0) as [r|] eqn:Hr; [|done].
    destruct (record_expired (cfg env) r (now env)) eqn:Hx; [done|]. cbn. intros [= _ <-]. cbn in Hr'.
    destruct (decide (id0 = id)) as [->|Hne].
    + rewrite lookup_insert_eq in Hr'. injection Hr' as <-. by exists r.
    + rewrite lookup_insert_ne in Hr' by done. by exists r'.
Qed.

(** The middleware answers by itself or runs what it wraps. *)
Lemma csrf_cases env req w :
  (exists resp w', (forall k, csrf_middleware env req k w = (Ok resp, w')) /\ status resp = 403) \/
  ((forall k, csrf_middleware env req k w = k w) /\
   (should_require_csrf_token (path req) (method req) (is_some (x_api_key req)) = true -> csrf_proof env req w)).
Proof.
  unfold csrf_middleware, csrf_proof. destruct (should_require_csrf_token _ _ _); [|by right].
  destruct (x_csrf_token req) as [token|]; [|left; by eexists _, w].
  destruct (session_cookie_of (cfg env) req) as [id|]; [|left; by eexists _, w].
  unfold sm_bind, on_sessions, csrf_token_status. destruct w as [u s]. cbn [aw_sessions aw_users].
  destruct (sessions s !! id) as [r|] eqn:Hr; [|left; by eexists _, _].
  destruct (record_expired _ _ _) eqn:Hx; [left; by eexists _, _|].
  destruct (constant_time_eq (csrf_token r) token) eqn:Ht; [|left; by eexists _, _].
  right. split; [done|]. intros _. exists id, r. split_and!; try done. f_equal. symmetry. by apply constant_time_eq_spec.
Qed.

(** Refusals of authentication. *)
Lemma authorize_refusals env req w resp w' :
  authorize env req w = (Err resp, w') -> status resp ∈ [401; 403; 429; 500].
Proof.
  unfold authorize. destruct (is_auth_exempt_request _ _); [done|]. unfold sm_bind.
  destruct (authenticate env req w) as [[c|e] w1] eqn:Ha.
  - destruct (required_permission _ _) as [p|]; [destruct (bool_decide _); [done|]|done]. intros [= <- _]. set_solver.
  - intros [= -> _]. revert Ha. unfold authenticate. destruct (x_api_key req) as [key|].
    + rewrite on_users_eq. unfold authenticate_api_key, sm_bind, sm_try, sm_map_err.
      repeat (match goal with |- context [match db ?t ?u with _ => _ end] => destruct (db t u) as [[[?|]|?] ?] end ||
              match goal with |- context [match db ?t ?u with _ => _ end] => destruct (db t u) as [[?|?] ?] end ||
              match goal with |- context [match db_sm ?t ?u with _ => _ end] => destruct (db_sm t u) as [[[?|]|?] ?] end; cbn);
        cbn; try done; intros [= <- _]; set_solver.
    + destruct (session_cookie_of _ _) as [id|]; unfold sm_bind, sm_some, on_sessions; cbn; [|intros [= <- _]; set_solver].
      destruct (claims_for_session _ _ _ _) as [[c|] s]; cbn; [done|]. intros [= <- _]. set_solver.
Qed.

Lemma serve_authorized env req w oc w' :
  authorize env req w = (Ok oc, w') -> forall h, serve env req h w = csrf_middleware env req (h oc) w'.
Proof. intros Ha h. unfold serve, sm_bind, sm_try. by rewrite Ha. Qed.
Lemma serve_refused env req w resp w' :
  authorize env req w = (Err resp, w') -> forall h, serve env req h w = (Ok resp, w').
Proof. intros Ha h. unfold serve, sm_bind, sm_try. by rewrite Ha. Qed.

(** C13: Whatever calls fail, a request either is answered without looking at
    what its handler would do, with 401, 403, 429 or 500, or runs the handler on
    claims of its API key's row or of its live session that hold the required
    permission (none for exempt requests); a state-changing request outside the
    CSRF exemptions that has no API key carries the token of its session. *)
Theorem handlers_run_only_for_authorized_requests (env : Env) (req : HttpRequest) (w : aworld) :
  (exists resp w', (forall h, serve env req h w = (Ok resp, w')) /\ status resp ∈ [401; 403; 429; 500]) \/
  (exists oc w', (forall h, serve env req h w = h oc w') /\
    (if is_auth_exempt_request (path req) (method req) then oc = None
     else exists c, oc = Some c /\ credentials env req c w /\ permitted req c) /\
    (should_require_csrf_token (path req) (method req) (is_some (x_api_key req)) = true -> csrf_proof env req w)).
Proof.
  destruct (authorize env req w) as [[oc|resp] w1] eqn:Ha.
  2: { left. exists resp, w1. split; [intros h; by apply serve_refused|by eapply authorize_refusals]. }
  pose proof (serve_authorized _ _ _ _ _ Ha) as Hserve. pose proof (authorize_sound _ _ _ _ _ Ha) as Hs.
  destruct (csrf_cases env req w1) as [(resp & w2 & Hr & Hst)|[Hr Hp]].
  - left. exists resp, w2. split; [|rewrite Hst; set_solver]. intros h. by rewrite Hserve, Hr.
  - right. exists oc, w1. split_and!; [intros h; by rewrite Hserve, Hr| |].
    + by destruct (is_auth_exempt_request _ _); [destruct Hs|].
    + intros (id & r & Hid & Hl & Hx & Ht)%Hp.
      destruct (authorize_csrf _ _ _ _ _ _ _ Ha Hl Hx) as (r0 & Hl0 & Etok & Hx0). exists id, r0. by rewrite Etok.
Qed.
End Guarded.
