(* ===== verification/Revocation.v ===== *)
(** * Revocation: invariants of the identity API

    Every sequence of requests to the identity API ([Access.api_run]) keeps the
    built-in administrator, whatever calls fail; when calls do not fail, it keeps
    every stored session at the rights its user has now, so that a changed or
    withdrawn right takes effect with the request that changes it.  Requests run
    one after the other. *)

From Stdlib Require Import ZArith Lia List Ascii String.
From stdpp Require Import base list gmap sets strings sorting.
From S2P Require Import Prelude RStr Identity Users Access.

Local Open Scope string_scope.
Local Open Scope Z_scope.

(** ** Relations on worlds *)

(** What happens to the users' part. *)
Definition users_rel (R : uworld -> uworld -> Prop) (w w' : aworld) : Prop := R (aw_users w) (aw_users w').
#[export] Instance users_rel_preorder (R : uworld -> uworld -> Prop) : PreOrder R -> PreOrder (users_rel R).
Proof. intros [Hr Ht]. split; [intros w; apply Hr|intros a b c; apply Ht]. Qed.

Lemma keeps_on_users {E A} (R : uworld -> uworld -> Prop) (m : sm uworld E A) :
  keeps R m -> keeps (users_rel R) (on_users m).
Proof. intros Hm w. rewrite on_users_eq. exact (Hm (aw_users w)). Qed.
Lemma keeps_on_sessions {E A} (R : uworld -> uworld -> Prop) `{!PreOrder R} (f : SessionService -> A * SessionService) :
  keeps (users_rel R) (on_sessions (E := E) f).
Proof. intros w. unfold on_sessions. destruct (f (aw_sessions w)). unfold users_rel. cbn. reflexivity. Qed.
Lemma keeps_sessions_do {E} (R : uworld -> uworld -> Prop) `{!PreOrder R} (f : SessionService -> SessionService) :
  keeps (users_rel R) (sessions_do (E := E) f).
Proof. by apply keeps_on_sessions. Qed.
Lemma keeps_answer {E A} (R : uworld -> uworld -> Prop) `{!PreOrder R} (m : sm uworld E A) (k : result E A -> handler) :
  keeps R m -> (forall r, keeps (users_rel R) (k r)) -> keeps (users_rel R) (answer m k).
Proof. intros Hm Hk. unfold answer. apply keeps_bind; [apply _| |done]. by apply keeps_try, keeps_on_users. Qed.
#[export] Hint Resolve keeps_on_users keeps_on_sessions keeps_sessions_do : keeps.

(** A relation all services respect is respected by the API. *)
Lemma keeps_db_sm {A} (P : idb -> Prop) (m : sm idb DbError A) : (forall d, P d -> P (m d).2) -> keeps (pres P) (db_sm m).
Proof.
  intros Hm w HP. unfold db_sm. destruct (uw_faults w) as [|[] fs]; [|exact HP|];
    (specialize (Hm _ HP); destruct (m (uw_db w)); exact Hm).
Qed.
Lemma validate_api_key_keeps (P : idb -> Prop) now h d :
  (forall l n d, P d -> P (set_keys d l n)) -> P d -> P (validate_api_key now h d).2.
Proof.
  intros HP Hd. unfold validate_api_key. destruct (List.find _ _) as [k|]; [|done].
  destruct (level_from_str _); by apply HP.
Qed.

Ltac handler_tac :=
  repeat first
    [ apply keeps_answer; [apply _|solve [eauto with keeps]|intros ?]
    | match goal with |- keeps _ (match ?x with _ => _ end) => destruct x end
    | progress keeps_tac ].

Section AdminApi.
Context `{JL : SerdeJsonLaws} `{H : PasswordHasher} `{K : ApiKeyHasher} (uid gid : Z).
Abbreviation admin_kept := (admin_at uid gid).
Abbreviation R := (users_rel (pres admin_kept)).

Lemma admin_keys (l : list ApiKeyRow) (n : Z) (d : idb) : admin_kept d -> admin_kept (set_keys d l n).
Proof. intros [Hwf Hu Hg Hm]. constructor; [by apply wf_keys|done..]. Qed.
Lemma insert_api_key_admin now h n l : tx_keeps admin_kept (insert_api_key now h n l).
Proof. intros d a d' Hd [= _ <-]. by apply admin_keys. Qed.
Lemma delete_api_key_admin id : tx_keeps admin_kept (delete_api_key id).
Proof. intros d a d' Hd [= _ <-]. by apply admin_keys. Qed.
Lemma list_api_keys_admin : tx_keeps admin_kept list_api_keys.
Proof. apply query_keeps. Qed.
Lemma validate_api_key_admin now h : keeps (pres admin_kept) (db_sm (validate_api_key now h)).
Proof. apply keeps_db_sm. intros d. apply validate_api_key_keeps. intros l n d'. apply admin_keys. Qed.

Hint Resolve clear_login_failures_keeps clear_expired_keeps get_remaining_keeps record_failure_keeps admin_attempts_any
  login_admin register_admin user_profile_admin change_password_admin reset_password_admin list_users_admin
  get_group_admin list_groups_admin update_role_admin assign_groups_admin delete_account_admin create_group_admin
  update_group_admin delete_group_admin insert_api_key_admin delete_api_key_admin list_api_keys_admin
  validate_api_key_admin : keeps.

Lemma authorize_admin env req : keeps R (authorize env req).
Proof.
  unfold authorize, authenticate. handler_tac.
  apply keeps_on_users. unfold authenticate_api_key. handler_tac.
Qed.
Lemma dispatch_admin env req call c : keeps R (dispatch env req call c).
Proof.
  destruct call; cbn [dispatch]; unfold with_claims; try (destruct c; [|keeps_tac]);
  unfold handle_login, handle_logout, handle_register, handle_me, handle_change_password, handle_list_users,
    handle_delete_user, handle_update_role, handle_reset_password, handle_set_user_groups, handle_list_groups,
    handle_create_group, handle_get_group, handle_update_group, handle_delete_group, handle_list_keys,
    handle_generate_key, handle_delete_key; cbv zeta; handler_tac.
Qed.
End AdminApi.

(** ** The built-in administrator *)

(** The built-in account [uid] and the administrators' group [gid] of a world. *)
Definition administrator_stands `{J : SerdeJson} (uid gid : Z) (w : aworld) : Prop := admin_at uid gid (uw_db (aw_users w)).

Section AdminRun.
Context `{JL : SerdeJsonLaws} `{H : PasswordHasher} `{K : ApiKeyHasher}.

Lemma keeps_serve (R : uworld -> uworld -> Prop) `{!PreOrder R} env req h :
  keeps (users_rel R) (authorize env req) -> (forall c, keeps (users_rel R) (h c)) -> keeps (users_rel R) (serve env req h).
Proof.
  intros Ha Hh. unfold serve, csrf_middleware. apply keeps_bind; [apply _|by apply keeps_try|]. intros [oc|resp]; [|keeps_tac].
  specialize (Hh oc). handler_tac.
Qed.

Lemma api_run_admin uid gid l : forall w, admin_at uid gid (uw_db (aw_users w)) -> admin_at uid gid (uw_db (aw_users (api_run l w))).
Proof.
  induction l as [|[[env req] call] l IH]; [done|]. intros w Hw. cbn [api_run foldl]. apply IH. unfold api_step.
  refine (keeps_serve (pres (admin_at uid gid)) env req _ _ _ w Hw); [apply authorize_admin|intros c; apply dispatch_admin].
Qed.

(** C14: Whatever requests the identity API receives, from whom, with which random
    tokens and with which calls failing, the account named admin set up at first
    start still exists with its identifier and name, belongs to the Administrator
    group, which still exists under its name, and the database stays well-formed:
    keys unique and in range, memberships between existing rows, permission texts
    that parse. *)
Theorem builtin_administrator_survives (uid gid : Z) (l : list (Env * HttpRequest * ApiCall)) (w : aworld) :
  administrator_stands uid gid w -> administrator_stands uid gid (api_run l w).
Proof. apply api_run_admin. Qed.
End AdminRun.

(** The database of first start has the administrator. *)
Lemma fresh_idb_admin : admin_at (J := list_json) 1 1 fresh_idb.
Proof.
  assert (forall (P : Prop) `{!Decision P}, bool_decide P = true -> P) as Hd by (intros P ?; apply bool_decide_eq_true_1).
  constructor.
  - constructor; try (apply (Hd _ _); vm_compute; reflexivity).
  - eexists. split; [|split]; [left| |]; reflexivity.
  - eexists. split; [|split]; [left| |]; reflexivity.
  - left.
Qed.

Definition test_cfg : SessionConfig := mk_session_config 24 30 false.
Definition test_env (t : Z) : Env := mk_env t test_cfg "salt" "id" "token" "key".
Definition test_request (p : string) (m : Method) (cookie csrf : option string) : HttpRequest :=
  mk_request p m (match cookie with Some c => [("netguardia_session", c)] | None => [] end) None csrf "10.0.0.9".
(** The administrator logs in and then tries to delete the account itself. *)
Definition test_login : Env * HttpRequest * ApiCall :=
  (test_env 100, test_request "/api/auth/login" POST None None, Login "admin" "Secret-1").
Definition test_self_delete : Env * HttpRequest * ApiCall :=
  (test_env 101, test_request "/api/auth/users/1" DELETE (Some "id") (Some "token"), DeleteUser 1).

Lemma builtin_administrator_survives_witness :
  let K := (fun s => s) : ApiKeyHasher in
  administrator_stands (J := list_json) 1 1
    (api_run (J := list_json) (H := plain_hasher) (K := K) [test_login; test_self_delete]
       (mk_aworld (mk_uworld fresh_idb []) new_sessions)).
Proof.
  intros K. apply (builtin_administrator_survives (JL := list_json_laws)). exact fresh_idb_admin.
Defined.

(** ** Refused requests *)

Section Refused.
Context `{JL : SerdeJsonLaws} `{H : PasswordHasher} `{K : ApiKeyHasher}.

(** A handler that answers with an error status leaves rows and sessions alone. *)
Definition refusal_clean (h : handler) : Prop := forall w resp w',
  wf (uw_db (aw_users w)) -> h w = (Ok resp, w') -> 400 <= status resp ->
  uw_db (aw_users w') = uw_db (aw_users w) /\ aw_sessions w' = aw_sessions w.

Lemma ret_clean resp : refusal_clean (sm_ret resp).
Proof. by intros w r w' _ [= _ <-]. Qed.
Lemma answer_eq {E A} (m : sm uworld E A) (k : result E A -> handler) w :
  answer m k w = k (m (aw_users w)).1 (mk_aworld (m (aw_users w)).2 (aw_sessions w)).
Proof. unfold answer, sm_bind, sm_try. by rewrite on_users_eq. Qed.
Lemma answer_clean {E A} (m : sm uworld E A) (k : result E A -> handler) :
  fails_clean m -> (forall e, exists resp, k (Err e) = sm_ret resp) ->
  (forall u a u' s resp w', wf (uw_db u) -> m u = (Ok a, u') -> k (Ok a) (mk_aworld u' s) = (Ok resp, w') ->
     400 <= status resp -> same_db u u' /\ w' = mk_aworld u' s) ->
  refusal_clean (answer m k).
Proof.
  intros Hm He Hk [u s] resp w' Hwf. rewrite answer_eq. cbn [aw_users aw_sessions] in *.
  destruct (m u) as [[a|e] u'] eqn:Em; cbn [fst snd].
  - intros Hr Hs. destruct (Hk _ _ _ _ _ _ Hwf Em Hr Hs) as [Hd ->]. done.
  - destruct (He e) as [r ->]. intros [= _ <-] _. split; [by eapply Hm|done].
Qed.
(** The common shape: success answers 2xx whatever else it does. *)
Lemma answer_ok_clean {E A} (m : sm uworld E A) (k : result E A -> handler) :
  fails_clean m -> (forall e, exists resp, k (Err e) = sm_ret resp) ->
  (forall a w resp w', k (Ok a) w = (Ok resp, w') -> status resp < 400) ->
  refusal_clean (answer m k).
Proof. intros Hm He Hk. apply answer_clean; [done..|]. intros u a u' s resp w' _ _ Hr%Hk. lia. Qed.
(** Deletions: [false] answers 404. *)
Lemma answer_delete_clean {E} (m : sm uworld E bool) (k : result E bool -> handler) :
  fails_clean m -> false_clean m -> (forall e, exists resp, k (Err e) = sm_ret resp) ->
  (forall w resp w', k (Ok true) w = (Ok resp, w') -> status resp < 400) ->
  (exists resp, k (Ok false) = sm_ret resp) ->
  refusal_clean (answer m k).
Proof.
  intros Hm Hf He Hk [r Hr]. apply answer_clean; [done..|]. intros u [] u' s resp w' Hwf Hu.
  - intros Hw%Hk. lia.
  - rewrite Hr. intros [= _ <-] _. split; [by eapply Hf|done].
Qed.

Lemma user_profile_same id u : keeps same_db (user_profile id u).
Proof. unfold user_profile, list_user_permissions, list_groups_for_user. pose proof @query_same. keeps_tac. Qed.
Lemma get_group_same id : keeps same_db (get_group id).
Proof. unfold get_group, get_user_group, list_group_member_ids. pose proof @query_same. keeps_tac. Qed.
Lemma list_users_same : keeps same_db list_users.
Proof. unfold list_users, list_users_with_groups. pose proof @query_same. keeps_tac. Qed.
Lemma list_groups_same : keeps same_db list_groups.
Proof.
  unfold list_groups, list_user_groups. apply keeps_bind; [apply _|apply query_same|intros l].
  induction l as [|g l IH]; cbn; [keeps_tac|].
  unfold group_entry, list_group_members. pose proof @query_same. keeps_tac.
Qed.

Definition may_leave_traces (call : ApiCall) : bool :=
  match call with Login _ _ | Register _ _ _ => true | _ => false end.

(** The handler's answer is a success; its error answers are fixed. *)
Ltac two_hundred := intros; repeat match goal with H : _ = (Ok _, _) |- _ => revert H end; cbv beta iota;
  unfold sm_bind, sessions_do, on_sessions, sm_ret, sm_try; cbn;
  repeat match goal with |- context [on_users ?m ?w] => destruct (on_users m w) end; by intros [= <- _].
Ltac errors := by intros e; eexists.

Lemma dispatch_refused env req call c : may_leave_traces call = false -> refusal_clean (dispatch env req call c).
Proof.
  intros Hc.
  assert (forall k : Claims -> handler, (forall c, refusal_clean (k c)) -> refusal_clean (with_claims k c)) as Hwith.
  { intros k Hk. destruct c as [c|]; [apply Hk|apply ret_clean]. }
  assert (forall w, same_db w w) as Hrefl by done.
  destruct call; try done; cbn [dispatch]; try (apply Hwith; clear Hwith c; intros c).
  - intros w resp w' _. unfold handle_logout, sm_bind, sessions_do, on_sessions, sm_ret.
    destruct (session_cookie_of _ _); cbn; by intros [= <- _].
  - apply answer_ok_clean; [apply same_clean, user_profile_same|errors|two_hundred].
  - apply answer_ok_clean; [apply change_password_clean|errors|two_hundred].
  - apply answer_ok_clean; [apply same_clean, list_users_same|errors|two_hundred].
  - apply answer_delete_clean; [apply delete_account_clean|apply delete_account_false|errors|two_hundred|by eexists].
  - unfold handle_update_role. destruct (_ && _); [apply ret_clean|].
    apply answer_ok_clean; [apply update_role_clean|errors|two_hundred].
  - unfold handle_reset_password. destruct (match new_password with Some _ => _ | None => _ end); [|apply ret_clean].
    apply answer_ok_clean; [apply reset_password_clean|errors|two_hundred].
  - apply answer_ok_clean; [apply assign_groups_clean|errors|two_hundred].
  - apply answer_ok_clean; [apply same_clean, list_groups_same|errors|two_hundred].
  - apply answer_ok_clean; [apply create_group_clean|errors|two_hundred].
  - apply answer_clean; [apply same_clean, get_group_same|errors|]. intros u a u' s resp w' _ Hu.
    pose proof (get_group_same group_id u) as Hs. rewrite Hu in Hs. by destruct a; intros [= _ <-] _.
  - apply answer_ok_clean; [apply update_group_clean|errors|two_hundred].
  - intros w resp w' Hwf. unfold handle_delete_group, sm_bind at 1, sm_try. rewrite on_users_eq.
    pose proof (get_group_same group_id (aw_users w)) as Hs. unfold same_db in Hs.
    destruct (get_group group_id (aw_users w)) as [r u1]. cbn [fst snd] in *.
    intros Hr Hst. rewrite <- Hs in Hwf |- *.
    refine (answer_delete_clean (delete_group group_id) _ _ _ _ _ _ (mk_aworld u1 (aw_sessions w)) resp w' Hwf Hr Hst);
      [apply delete_group_clean|apply delete_group_false|errors|clear; two_hundred|by eexists].
  - apply answer_ok_clean; [apply db_clean|errors|two_hundred].
  - unfold handle_generate_key. destruct (level_from_str _); [|apply ret_clean]. cbv zeta.
    destruct (validate_api_key_name _); [|apply ret_clean]. apply answer_ok_clean; [apply db_clean|errors|two_hundred].
  - apply answer_delete_clean; [apply db_clean|apply db_false_clean|errors|two_hundred|by eexists].
    intros d d' _. apply delete_api_key_absent.
  - apply ret_clean.
Qed.

(** C40: A handler of a request to manage accounts, groups or keys that answers with an
    error status has changed no row and no session, whatever calls failed: updates happen
    as a whole or not at all, and deleting what does not exist is no change.  Excepted are
    logging in, which records failures, and registering, whose cleanup may itself fail;
    and it is the handler alone that changes nothing: the checks before it count failing
    credentials and extend sessions. *)
Theorem refused_requests_change_nothing (env : Env) (req : HttpRequest) (call : ApiCall) (c : option Claims)
    (w w' : aworld) (resp : Response) :
  may_leave_traces call = false -> wf (uw_db (aw_users w)) ->
  dispatch env req call c w = (Ok resp, w') -> 400 <= status resp ->
  uw_db (aw_users w') = uw_db (aw_users w) /\ aw_sessions w' = aw_sessions w.
Proof. intros Hc Hwf Hr. by apply (dispatch_refused env req call c Hc w resp w'). Qed.
End Refused.

(** The first statement of an update works, the second fails. *)
Lemma refused_requests_change_nothing_witness :
  let K := (fun s => s) : ApiKeyHasher in
  let w := mk_aworld (mk_uworld fresh_idb [false; true]) new_sessions in
  let c := mk_claims 2 "root" ROLE_ADMIN ADMIN_PERMISSIONS in
  let r := dispatch (J := list_json) (H := plain_hasher) (K := K) (test_env 5)
             (test_request "/api/auth/users/1/reset-password" POST (Some "id") (Some "token"))
             (ResetPassword 1 (Some "Better-2") None) (Some c) w in
  uw_db (aw_users r.2) = fresh_idb /\ uw_faults (aw_users r.2) = [].
Proof.
  intros K w c r.
  assert (exists resp, r.1 = Ok resp /\ status resp = 500 /\ uw_faults (aw_users r.2) = []) as (resp & Hr & Hst & Hf)
    by (eexists; vm_compute; done).
  split; [|exact Hf].
  apply (refused_requests_change_nothing (J := list_json) (H := plain_hasher) (K := K) (test_env 5)
    (test_request "/api/auth/users/1/reset-password" POST (Some "id") (Some "token"))
    (ResetPassword 1 (Some "Better-2") None) (Some c) w r.2 resp).
  - reflexivity.
  - apply fresh_idb_admin.
  - rewrite <- Hr. apply surjective_pairing.
  - rewrite Hst. lia.
Defined.

(** ** Sessions follow the rights of their users *)

Section Fresh.
Context `{JL : SerdeJsonLaws} `{H : PasswordHasher} `{K : ApiKeyHasher}.

(** Every stored session outside [T] holds the claims a login would give now. *)
Definition sessions_current (T : Z -> Prop) (d : idb) (s : SessionService) : Prop :=
  forall id r, sessions s !! id = Some r ->
    T (sub (claims r)) \/ current_claims d (sub (claims r)) = Some (claims r).
(** A world whose calls do not fail. *)
Definition current (T : Z -> Prop) (w : aworld) : Prop :=
  uw_faults (aw_users w) = [] /\ wf (uw_db (aw_users w)) /\ sessions_current T (uw_db (aw_users w)) (aw_sessions w).
Definition none : Z -> Prop := fun _ => False.

Definition stays (w w' : aworld) : Prop := current none w -> current none w'.
#[local] Instance stays_preorder : PreOrder stays.
Proof. split; [intros w Hw; exact Hw|]. intros a b c Hab Hbc Ha. exact (Hbc (Hab Ha)). Qed.

Lemma current_weaken (T T' : Z -> Prop) w : (forall id, T id -> T' id) -> current T w -> current T' w.
Proof. intros HT (Hq & Hwf & Hs). split_and!; [done|done|]. intros id r [?|?]%Hs; auto. Qed.

(** A service leaves behind at most the users it may change. *)
Lemma current_users (S : idb -> Z -> Prop) `{!forall d id, Decision (S d id)} {E A} (m : sm uworld E A) w :
  keeps (follows S) m -> current none w ->
  current (S (uw_db (aw_users w))) (mk_aworld (m (aw_users w)).2 (aw_sessions w)).
Proof.
  intros Hm (Hq & Hwf & Hs). destruct (Hm (aw_users w) Hq Hwf) as (Hq' & Hwf' & _ & Hk).
  split_and!; [done|done|]. intros id r [[]|Hc]%Hs. cbn [aw_users aw_sessions].
  destruct (decide (S (uw_db (aw_users w)) (sub (claims r)))); [by left|right]. by apply Hk.
Qed.
#[local] Instance nobody_dec d id : Decision (nobody d id). Proof. right. intros []. Defined.
#[local] Instance only_dec uid d id : Decision (only uid d id). Proof. unfold only. apply _. Defined.
#[local] Instance members_of_dec gid d id : Decision (members_of gid d id). Proof. unfold members_of. apply _. Defined.

Lemma stays_on_users {E A} (m : sm uworld E A) : keeps (follows nobody) m -> keeps stays (on_users m).
Proof. intros Hm w Hw. rewrite on_users_eq. by apply (current_users nobody). Qed.

(** Sessions only lost, or touched. *)
Lemma stays_on_sessions {E A} (f : SessionService -> A * SessionService) :
  (forall s id r', sessions (f s).2 !! id = Some r' -> exists r, sessions s !! id = Some r /\ claims r = claims r') ->
  keeps stays (on_sessions (E := E) f).
Proof.
  intros Hf w (Hq & Hwf & Hs). unfold on_sessions. pose proof (Hf (aw_sessions w)) as Hf'.
  destruct (f (aw_sessions w)) as [a s']. split_and!; [done|done|]. cbn in *.
  intros id r' (r & Hr & <-)%Hf'. by apply (Hs id).
Qed.
Lemma stays_read {E A} (f : SessionService -> A) : keeps stays (on_sessions (E := E) (fun s => (f s, s))).
Proof. apply stays_on_sessions. cbn. intros s id r Hr. by exists r. Qed.
Lemma stays_remove {E} id : keeps stays (sessions_do (E := E) (remove_session id)).
Proof. apply stays_on_sessions. cbn. intros s i r [_ Hr]%lookup_delete_Some. by exists r. Qed.
Lemma stays_claims {E} cfg now id : keeps stays (on_sessions (E := E) (claims_for_session cfg now id)).
Proof.
  apply stays_on_sessions. unfold claims_for_session. intros s i r'.
  destruct (sessions s !! id) as [r|] eqn:Hr; [|by exists r'].
  destruct (record_expired cfg r now); cbn.
  - intros [_ ?]%lookup_delete_Some. by exists r'.
  - destruct (decide (id = i)) as [->|Hne]; [rewrite lookup_insert_eq; intros [= <-]; by exists r|].
    rewrite lookup_insert_ne by done. by exists r'.
Qed.

(** Dropping sessions makes their users current. *)
Lemma current_drop T uid w :
  current T w ->
  current (fun id => T id /\ id <> uid) (mk_aworld (aw_users w) (remove_sessions_for_user uid (aw_sessions w))).
Proof.
  intros (Hq & Hwf & Hs). split_and!; [done|done|]. intros id r [Hr Hne]%map_lookup_filter_Some.
  destruct (Hs id r Hr) as [HT|Hc]; [left|by right]. by split.
Qed.
Lemma current_drop_all T l w :
  current T w ->
  current (fun id => T id /\ id ∉ l) (mk_aworld (aw_users w) (remove_sessions_for_users l (aw_sessions w))).
Proof.
  unfold remove_sessions_for_users. revert T w. induction l as [|uid l IH]; intros T w Hw; cbn [foldl].
  - destruct w. eapply current_weaken; [|exact Hw]. intros id HT. split; [done|set_solver].
  - apply (current_drop T uid), IH in Hw. cbn in Hw. eapply current_weaken; [|exact Hw]. cbn. set_solver.
Qed.

(** An operation on [S] whose success drops the sessions of [S]. *)
Lemma stays_answer {E A} (S : idb -> Z -> Prop) `{!forall d id, Decision (S d id)} (m : sm uworld E A) (k : result E A -> handler) :
  keeps (follows S) m -> fails_clean m -> (forall e, keeps stays (k (Err e))) ->
  (forall a u u' s, current none (mk_aworld u s) -> m u = (Ok a, u') -> current (S (uw_db u)) (mk_aworld u' s) ->
     current none (k (Ok a) (mk_aworld u' s)).2) ->
  keeps stays (answer m k).
Proof.
  intros Hm Hc He Hk [u s] Hw. rewrite answer_eq. pose proof (current_users S m _ Hm Hw) as Hcur. cbn [aw_users aw_sessions] in *.
  destruct (m u) as [[a|e] u'] eqn:Em; cbn [fst snd] in *.
  - exact (Hk _ _ _ _ Hw Em Hcur).
  - apply He. pose proof (Hc _ _ _ Em) as Hd. unfold same_db in Hd. destruct Hcur as (Hq' & _ & _).
    destruct Hw as (_ & Hwf & Hs). cbn [aw_users aw_sessions] in *. split_and!; cbn; [done|by rewrite Hd|by rewrite Hd].
Qed.
Lemma stays_answer_only {E A} uid (m : sm uworld E A) (k : result E A -> handler) resp :
  keeps (follows (only uid)) m -> fails_clean m -> (forall e, keeps stays (k (Err e))) ->
  (forall a, k (Ok a) = (run! sessions_do (remove_sessions_for_user uid) in sm_ret resp)) ->
  keeps stays (answer m k).
Proof.
  intros Hm Hc He Hk. apply (stays_answer (only uid)); [done..|]. intros a u u' s _ _ Hw. rewrite Hk.
  apply (current_drop _ uid) in Hw. eapply current_weaken; [|exact Hw]. unfold only. cbn. by intros id [-> ?].
Qed.

(** A login hands out the rights of this moment. *)
Lemma list_user_permissions_eq uid d :
  list_user_permissions uid (mk_uworld d []) =
    (match collect_permissions (groups_of uid d) ∅ with
     | Ok perms => Ok (merge_sort str_le (elements perms))
     | Err e => Err e
     end, mk_uworld d []).
Proof. unfold list_user_permissions, sm_bind. rewrite db_quiet. cbn. unfold sm_lift. by destruct (collect_permissions _ _). Qed.

Lemma check_lock_state now u d w' :
  check_lock now u (mk_uworld d []) = (Ok tt, w') -> exists m, w' = mk_uworld (set_attempts d m) [].
Proof.
  unfold check_lock, sm_bind, sm_try. rewrite db_quiet. unfold get_remaining_lock_secs at 1.
  destruct (match _ with Some _ => _ | None => _ end) as [o|e]; cbn [res_bind]; [|done].
  destruct (match o with Some _ => _ | None => _ end) as [rem|]; [done|]. unfold sm_map_err. rewrite db_quiet.
  unfold clear_expired_login_lock. intros [= <-].
  assert (exists m, d = set_attempts d m) as [m Hm] by (exists (login_attempts d); by destruct d).
  destruct (login_attempts d !! u) as [[? [l|]]|]; [destruct (l <=? now)|..]; by eauto using f_equal2.
Qed.

Lemma login_claims now u p d r w' :
  wf d -> login now u p (mk_uworld d []) = (Ok r, w') ->
  current_claims (uw_db w') (lr_user_id r)
    = Some (mk_claims (lr_user_id r) (lr_username r) (lr_role r) (lr_permissions r)).
Proof.
  intros Hwf. unfold login. unfold sm_bind at 1.
  destruct (check_lock now u (mk_uworld d [])) as [[[]|e] w1] eqn:El; [|done].
  apply check_lock_state in El as [m ->]. apply (wf_attempts m) in Hwf. revert Hwf.
  generalize (set_attempts d m). clear d m. intros d Hwf.
  unfold sm_bind at 1, sm_try at 1. rewrite db_quiet. unfold find_user at 1, query.
  destruct (user_by_name u d) as [row|] eqn:Hu; cbn [fmap option_fmap option_map].
  2: { unfold reject_login, sm_bind, sm_try. by destruct (db _ _). }
  apply user_by_name_some in Hu as [Hin _]; [|done].
  assert (user_by_id (u_id row) d = Some row) as Hid by (by apply user_by_id_some).
  destruct (verify_password p _) as [[]|];
    [|unfold reject_login, sm_bind, sm_try; by destruct (db _ _)..].
  unfold sm_bind at 1, sm_try at 1. rewrite db_quiet. unfold clear_login_failures at 1.
  set (d' := set_attempts d (delete u (login_attempts d))). cbn [user_from_row uv_id uv_force uv_username].
  unfold sm_bind at 1, sm_map_err at 1. rewrite list_user_permissions_eq.
  destruct (collect_permissions (groups_of (u_id row) d') ∅) as [perms|e] eqn:Hp; [|done].
  unfold sm_bind, sm_map_err, derive_role, sm_bind. rewrite db_quiet. cbn. intros [= <- <-]. cbn.
  unfold current_claims. change (user_by_id (u_id row) d') with (user_by_id (u_id row) d). rewrite Hid. by rewrite Hp.
Qed.

Lemma current_create cfg now id token c w :
  current none w -> current_claims (uw_db (aw_users w)) (sub c) = Some c ->
  current none (mk_aworld (aw_users w) (create_session cfg now id token c (aw_sessions w)).2).
Proof.
  intros (Hq & Hwf & Hs) Hc. split_and!; [done|done|]. intros i r. cbn [aw_sessions create_session snd sessions].
  destruct (decide (id = i)) as [->|Hne].
  - rewrite lookup_insert_eq. intros [= <-]. by right.
  - rewrite lookup_insert_ne by done. intros Hr. apply (Hs i).
    destruct (_ =? 0); [|done]. by apply map_lookup_filter_Some in Hr as [? _].
Qed.

Lemma handle_login_stays env u p : keeps stays (handle_login env u p).
Proof.
  intros [w s] Hw. pose proof (current_users nobody _ _ (login_follows (now env) u p) Hw) as Hcur.
  unfold handle_login. rewrite answer_eq. cbn [aw_users aw_sessions] in *.
  destruct (login (now env) u p w) as [[r|[]] w'] eqn:El; cbn [fst snd] in *; try exact Hcur.
  unfold sm_bind, on_sessions. rewrite (surjective_pairing (create_session _ _ _ _ _ _)). cbn [sm_ret snd].
  apply (current_create _ _ _ _ _ (mk_aworld w' s)); [exact Hcur|]. cbn.
  destruct Hw as (Hq & Hwf & _). destruct w as [d fs]. cbn in Hq, Hwf. subst fs. by eapply login_claims.
Qed.

(** What [get_group] tells of the members. *)
Lemma get_group_lists_members gid d uid :
  wf d -> (uid, gid) ∈ user_group_members d -> uid ∈ group_member_ids (get_group gid (mk_uworld d [])).1.
Proof.
  intros Hwf Hm. pose proof (wf_mem d Hwf) as Hmem. rewrite Forall_forall in Hmem.
  destruct (Hmem _ Hm) as [_ Hg%group_by_id_is_some]. cbn [snd] in Hg.
  unfold get_group, sm_bind. rewrite db_quiet. unfold get_user_group, query.
  destruct (group_by_id gid d) as [g|] eqn:Hgid; [|done].
  apply group_by_id_some in Hgid as [Hin _]; [|done]. pose proof (wf_text d Hwf) as Ht. rewrite Forall_forall in Ht.
  destruct (Ht _ Hin) as [j Hj]. unfold sm_lift, parse_permissions. rewrite Hj, db_quiet. cbn.
  apply list_elem_of_fmap. exists (uid, gid). split; [done|]. by apply list_elem_of_filter.
Qed.
Lemma update_group_members M id n d p : keeps (pres (fun db => user_group_members db = M)) (update_group id n d p).
Proof.
  assert (forall n d t, tx_keeps (fun db => user_group_members db = M) (update_user_group id n d t)).
  { intros n' d' t db a db' HM. unfold update_user_group. destruct (_ && _); [done|]. by intros [= _ <-]. }
  unfold update_group, get_user_group. keeps_tac.
Qed.

Lemma handle_update_group_stays gid n d p : keeps stays (handle_update_group gid n d p).
Proof.
  apply (stays_answer (members_of gid)); [apply update_group_follows|apply update_group_clean|by intros e w Hw|].
  intros a u u' s Hu Hm Hcur. unfold sm_bind, sm_try. rewrite on_users_eq. cbn [aw_users aw_sessions].
  pose proof (update_group_members (user_group_members (uw_db u)) gid n d p u eq_refl) as HM. rewrite Hm in HM. cbn [snd] in HM.
  pose proof Hcur as (Hq & Hwf & _). destruct u' as [d' fs]. cbn in Hq, Hwf, HM. subst fs.
  pose proof (get_group_lists_members gid d') as Hall.
  pose proof (get_group_follows nobody gid (mk_uworld d' []) eq_refl Hwf) as (Hq2 & Hwf2 & _).
  pose proof (get_group_same gid (mk_uworld d' [])) as Hd2. unfold same_db in Hd2.
  destruct (get_group gid (mk_uworld d' [])) as [found [d2 fs2]]. cbn [fst snd uw_db uw_faults] in *. subst d2 fs2.
  unfold sessions_do, on_sessions. cbn [sm_ret snd aw_users aw_sessions].
  apply (current_drop_all _ (group_member_ids found)) in Hcur. eapply current_weaken; [|exact Hcur].
  intros id [Hin Hout]. destruct Hout. apply Hall; [done|]. rewrite HM. exact Hin.
Qed.

Lemma handle_delete_group_stays gid : keeps stays (handle_delete_group gid).
Proof.
  intros [u s] Hw. unfold handle_delete_group, sm_bind, sm_try. rewrite on_users_eq. cbn [aw_users aw_sessions].
  pose proof Hw as (Hq & Hwf & _). destruct u as [d fs]. cbn in Hq, Hwf. subst fs.
  pose proof (get_group_lists_members gid d) as Hall.
  pose proof (get_group_follows nobody gid (mk_uworld d []) eq_refl Hwf) as (Hq2 & _).
  pose proof (get_group_same gid (mk_uworld d [])) as Hd2. unfold same_db in Hd2.
  destruct (get_group gid (mk_uworld d [])) as [found [d2 fs2]]. cbn [fst snd uw_db uw_faults] in *. subst d2 fs2.
  pose proof (current_users (members_of gid) _ _ (delete_group_follows gid) Hw) as Hcur. cbn [aw_users aw_sessions] in Hcur.
  rewrite answer_eq. cbn [aw_users aw_sessions].
  pose proof (delete_group_clean gid (mk_uworld d [])) as Hclean.
  pose proof (delete_group_false gid (mk_uworld d [])) as Hfalse.
  destruct (delete_group gid (mk_uworld d [])) as [[[]|e] [d' fs']]; cbn [fst snd] in *; destruct Hcur as (Hq' & Hcur); cbn in Hq'; subst fs'.
  - unfold sm_bind, sessions_do, on_sessions. cbn [sm_ret snd aw_users aw_sessions].
    assert (current (members_of gid d) (mk_aworld (mk_uworld d' []) s)) as Hc by done.
    apply (current_drop_all _ (group_member_ids found)) in Hc. eapply current_weaken; [|exact Hc].
    intros id [Hin Hout]. destruct Hout. by apply Hall.
  - pose proof (Hfalse _ Hwf eq_refl) as Hd. unfold same_db in Hd. cbn in Hd. by subst d'.
  - pose proof (Hclean _ _ eq_refl) as Hd. unfold same_db in Hd. cbn in Hd. by subst d'.
Qed.

Lemma handle_delete_user_stays c uid : keeps stays (handle_delete_user c uid).
Proof.
  apply (stays_answer (only uid)); [apply delete_account_follows|apply delete_account_clean|by intros e w Hw|].
  intros [] u u' s Hu Hm Hcur.
  - apply (current_drop _ uid) in Hcur. eapply current_weaken; [|exact Hcur]. unfold only. cbn. by intros id [-> ?].
  - destruct Hu as (_ & Hwf & Hs). destruct Hcur as (Hq & _ & _). cbn in *.
    apply delete_account_false in Hm; [|done]. unfold same_db in Hm. split_and!; cbn; [done|by rewrite Hm|by rewrite Hm].
Qed.

(** API keys are no part of anybody's claims. *)
Lemma keys_follow (l : list ApiKeyRow) (n : Z) (d : idb) : wf d -> wf (set_keys d l n) /\ claims_kept nobody d (set_keys d l n).
Proof. intros Hwf. split; [by apply wf_keys|]. split; [done|]. intros id c _ Hc. exact Hc. Qed.
Lemma insert_api_key_follows now h n l : tx_follows nobody (insert_api_key now h n l).
Proof. intros d a d' Hwf [= _ <-]. by apply keys_follow. Qed.
Lemma delete_api_key_follows id : tx_follows nobody (delete_api_key id).
Proof. intros d a d' Hwf [= _ <-]. by apply keys_follow. Qed.
Lemma validate_api_key_follows now h : keeps (follows nobody) (db_sm (validate_api_key now h)).
Proof.
  intros w Hq Hwf. unfold db_sm. rewrite Hq.
  assert (let d' := (validate_api_key now h (uw_db w)).2 in wf d' /\ claims_kept nobody (uw_db w) d') as Hv.
  { unfold validate_api_key. destruct (List.find _ _); [destruct (level_from_str _); by apply keys_follow|].
    split; [done|apply claims_kept_refl]. }
  destruct (validate_api_key now h (uw_db w)) as [r d']. by split.
Qed.
Hint Resolve keeps_follows query_follows clear_login_failures_follows clear_expired_follows get_remaining_follows
  record_failure_follows follows_preorder register_follows user_profile_follows list_users_follows get_group_follows
  list_groups_follows create_group_follows insert_api_key_follows delete_api_key_follows validate_api_key_follows
  stays_on_users stays_read stays_remove stays_claims stays_preorder : keeps.

#[local] Existing Instance follows_preorder.
Lemma authorize_stays env req : keeps stays (authorize env req).
Proof.
  unfold authorize, authenticate. handler_tac.
  apply stays_on_users. unfold authenticate_api_key. handler_tac.
Qed.

Lemma answer_quiet {E A} (m : sm uworld E A) (k : result E A -> handler) :
  keeps (follows nobody) m -> (forall r, keeps stays (k r)) -> keeps stays (answer m k).
Proof. intros Hm Hk. apply keeps_bind; [apply _|by apply keeps_try, stays_on_users|done]. Qed.

Lemma dispatch_stays env req call c : keeps stays (dispatch env req call c).
Proof.
  destruct call; cbn [dispatch]; unfold with_claims; try (destruct c as [c|]; [|solve [keeps_tac]]).
  - apply handle_login_stays.
  - unfold handle_logout. handler_tac.
  - apply answer_quiet; [eauto with keeps|intros r; handler_tac].
  - apply answer_quiet; [eauto with keeps|intros r; handler_tac].
  - eapply stays_answer_only; [apply change_password_follows|apply change_password_clean|intros e; handler_tac|done].
  - apply answer_quiet; [eauto with keeps|intros r; handler_tac].
  - apply handle_delete_user_stays.
  - unfold handle_update_role. destruct (_ && _); [keeps_tac|].
    eapply stays_answer_only; [apply update_role_follows|apply update_role_clean|intros e; handler_tac|done].
  - unfold handle_reset_password. destruct (match new_password with Some _ => _ | None => _ end); [|keeps_tac].
    eapply stays_answer_only; [apply reset_password_follows|apply reset_password_clean|intros e; handler_tac|done].
  - eapply stays_answer_only; [apply assign_groups_follows|apply assign_groups_clean|intros e; handler_tac|done].
  - apply answer_quiet; [eauto with keeps|intros r; handler_tac].
  - apply answer_quiet; [eauto with keeps|intros r; handler_tac].
  - apply answer_quiet; [eauto with keeps|intros r; handler_tac].
  - apply handle_update_group_stays.
  - apply handle_delete_group_stays.
  - apply answer_quiet; [apply keeps_follows, query_follows|intros r; handler_tac].
  - unfold handle_generate_key. destruct (level_from_str _); [|keeps_tac]. cbv zeta.
    destruct (validate_api_key_name _); [|keeps_tac]. apply answer_quiet; [eauto with keeps|intros r; handler_tac].
  - apply answer_quiet; [eauto with keeps|intros r; handler_tac].
  - keeps_tac.
Qed.

Lemma api_run_stays l : forall w, current none w -> current none (api_run l w).
Proof.
  induction l as [|[[env req] call] l IH]; [done|]. intros w Hw. cbn [api_run foldl]. apply IH. unfold api_step.
  assert (keeps stays (serve env req (dispatch env req call))) as Hs; [|exact (Hs w Hw)].
  unfold serve. apply keeps_bind; [apply _|apply keeps_try, authorize_stays|intros [c|resp]; [|keeps_tac]].
  unfold csrf_middleware. pose proof (dispatch_stays env req call c). handler_tac.
Qed.

(** C12: Revocation is immediate: after any requests to the identity API whose calls do
    not fail, a request authorised by a session cookie acts with exactly the name,
    role and permissions that its user's groups give at that moment (none while a
    password change is due); so no session outlives a change of role, groups,
    password or group permissions, and none belongs to a deleted user. *)
Theorem sessions_hold_current_rights (l : list (Env * HttpRequest * ApiCall)) (w : aworld)
    (env : Env) (req : HttpRequest) (c : Claims) (w' : aworld) :
  current none w -> x_api_key req = None ->
  authorize env req (api_run l w) = (Ok (Some c), w') ->
  current_claims (uw_db (aw_users (api_run l w))) (sub c) = Some c.
Proof.
  intros Hw Hk Ha. apply (api_run_stays l) in Hw as (_ & _ & Hs). apply authorize_sound in Ha.
  destruct (is_auth_exempt_request _ _); [by destruct Ha|]. destruct Ha as (c' & [= <-] & Hc & _).
  unfold credentials in Hc. rewrite Hk in Hc. destruct Hc as (id & r & _ & Hr & _ & ->). by destruct (Hs id r Hr).
Qed.
End Fresh.

Lemma sessions_hold_current_rights_witness :
  let K := (fun s => s) : ApiKeyHasher in
  let w := mk_aworld (mk_uworld fresh_idb []) new_sessions in
  let run := api_run (J := list_json) (H := plain_hasher) (K := K) [test_login; test_self_delete] w in
  let r := authorize (K := K) (test_env 102) (test_request "/api/auth/users" GET (Some "id") None) run in
  exists c, r.1 = Ok (Some c) /\ current_claims (J := list_json) (uw_db (aw_users run)) (sub c) = Some c.
Proof.
  intros K w run r. exists (match r.1 with Ok (Some c) => c | _ => mk_claims 0 "" "" [] end).
  assert (r.1 = Ok (Some (match r.1 with Ok (Some c) => c | _ => mk_claims 0 "" "" [] end))) as Hr
    by (vm_compute; reflexivity).
  split; [exact Hr|].
  apply (sessions_hold_current_rights (JL := list_json_laws) (H := plain_hasher) (K := K) [test_login; test_self_delete] w (test_env 102)
           (test_request "/api/auth/users" GET (Some "id") None) _ r.2).
  - split_and!; [reflexivity|apply fresh_idb_admin|]. intros id s. vm_compute. discriminate.
  - reflexivity.
  - rewrite <- Hr. apply surjective_pairing.
Defined.

(** ** Corners of the identity API

    On the database of first start. *)

Section Corners.
#[local] Instance text_json : SerdeJson := list_json.
#[local] Instance text_hasher : PasswordHasher := plain_hasher.
#[local] Instance key_hasher : ApiKeyHasher := fun s => s.

(** A login name is not validated: five failures for the name under which the
    lock of API keys from an address is kept lock out a valid key from there. *)
Definition key_world : aworld :=
  let d := fresh_idb in
  mk_aworld (mk_uworld (set_keys d [mk_key_row 1 "key" "automation" "read_only" 0 None] 2) []) new_sessions.
Definition guess (t : Z) : Env * HttpRequest * ApiCall :=
  (test_env t, test_request "/api/auth/login" POST None None, Login "apikey:10.0.0.1" "x").
Lemma login_failures_lock_api_keys :
  (authenticate_api_key (test_env 7) "10.0.0.1" "key" (aw_users key_world)).1
    = Ok (mk_claims (-1) "api:automation" "read_only" API_KEY_READ_ONLY_PERMISSIONS) /\
  (authenticate_api_key (test_env 7) "10.0.0.1" "key" (aw_users (api_run [guess 1; guess 2; guess 3; guess 4; guess 5] key_world))).1
    = Err (reply_with 429 (RetryAfter 898)).
Proof. vm_compute. split; reflexivity. Qed.

(** Only administrators may register administrators, but whoever manages users may
    promote one. *)
Definition manager : Claims := mk_claims (-1) "api:ops" "full_access" API_KEY_FULL_ACCESS_PERMISSIONS.
Lemma register_check_is_bypassed_by_promotion :
  let env := test_env 5 in
  let w := mk_aworld (mk_uworld fresh_idb []) new_sessions in
  let viewer := (handle_register env manager "bob" "Secret-2" ROLE_VIEWER w).2 in
  (status <$> match (handle_register env manager "bob" "Secret-2" ROLE_ADMIN w).1 with Ok r => Some r | Err _ => None end) = Some 403 /\
  (cl_role <$> current_claims (uw_db (aw_users viewer)) 2) = Some ROLE_VIEWER /\
  (cl_role <$> current_claims (uw_db (aw_users (handle_update_role manager 2 ROLE_ADMIN viewer).2)) 2) = Some ROLE_ADMIN.
Proof. vm_compute. split_and!; reflexivity. Qed.

(** A group is not created without a name, but may lose its name. *)
Lemma update_group_accepts_empty_name :
  let w := mk_uworld fresh_idb [] in
  (create_group 5 (Some "") None None w).1 = Err (GroupValidation "Group name is required") /\
  (g_name <$> group_by_id 3 (uw_db (update_group 3 (Some "") None None (create_group 5 (Some "ops") None None w).2).2)) = Some "".
Proof. vm_compute. split; reflexivity. Qed.

(** When the members of a changed group cannot be read, their sessions keep the
    rights they had. *)
Lemma failed_member_lookup_leaves_sessions :
  let s := (create_session test_cfg 1 "id" "token" (mk_claims 1 "admin" ROLE_ADMIN ["users:read"]) new_sessions).2 in
  let d := (create_group 5 (Some "ops") None None (mk_uworld fresh_idb [])).2 in
  let d := set_members (uw_db d) [(1, 3)] in
  let run faults := handle_update_group 3 None None (Some (JArray [])) (mk_aworld (mk_uworld d faults) s) in
  sessions (aw_sessions (run []).2) = ∅ /\
  sessions (aw_sessions (run [false; false; true]).2) = sessions s /\
  (status <$> match (run [false; false; true]).1 with Ok r => Some r | Err _ => None end) = Some 200.
Proof. vm_compute. split_and!; reflexivity. Qed.
End Corners.
