(* ===== verification/Routes.v ===== *)
(** * Routes: the endpoints and what guards them

    The endpoints registered below /api (infrastructure/http_server/api_routes.rs
    and the [initialize] functions of adapter/http), the setup guard in front of
    them (adapter/http/middleware/setup_guard.rs), and the permissions [Access]
    derives from their paths. *)

From Stdlib Require Import ZArith Lia List Ascii String.
From stdpp Require Import base list gmap sets strings.
From S2P Require Import Prelude RStr Identity Users Access.

Local Open Scope string_scope.
Local Open Scope Z_scope.

(** ** Route patterns *)

(** A segment of a pattern: literal, or a variable such as [{id}]. *)
Inductive Seg : Type := Lit (s : string) | Var.
#[export] Instance Seg_eq_dec : EqDecision Seg.
Proof. solve_decision. Defined.

Definition Route : Type := (Method * list Seg)%type.
Definition scope (prefix : string) (routes : list Route) : list Route :=
  map (fun r => (r.1, Lit prefix :: r.2)) routes.

(** The path of a pattern with its variables filled in. *)
Fixpoint fill (segs : list Seg) (vs : list string) : string :=
  match segs with
  | [] => ""
  | Lit s :: segs => "/" ++ s ++ fill segs vs
  | Var :: segs => "/" ++ match vs with v :: _ => v | [] => "" end ++ fill segs (tail vs)
  end.
Definition vars (segs : list Seg) : nat := length (filter (fun s => s = Var) segs).
(** What a variable matches: characters other than the slash. *)
Definition segment (v : string) : Prop := Forall (fun c => c <> "/"%char) (list_ascii_of_string v).

(** ** The endpoints *)

Definition auth_routes : list Route := scope "auth"
  [(POST, [Lit "login"]); (POST, [Lit "logout"]); (POST, [Lit "register"]); (GET, [Lit "me"]);
   (POST, [Lit "change-password"]); (GET, [Lit "users"]); (DELETE, [Lit "users"; Var]);
   (PUT, [Lit "users"; Var; Lit "role"]); (POST, [Lit "users"; Var; Lit "reset-password"]);
   (PUT, [Lit "users"; Var; Lit "groups"]); (GET, [Lit "groups"]); (POST, [Lit "groups"]);
   (GET, [Lit "groups"; Var]); (PUT, [Lit "groups"; Var]); (DELETE, [Lit "groups"; Var])].
Definition api_key_routes : list Route := scope "api-keys"
  [(GET, []); (POST, [Lit "generate"]); (DELETE, [Var])].
Definition ssh_whitelist_routes : list Route := scope "whitelist"
  [(GET, [Lit "status"]); (POST, [Lit "enable"]); (POST, [Lit "disable"]); (GET, [Var]); (PUT, [Var]); (DELETE, [Var])].
Definition ssh_blacklist_routes : list Route := scope "blacklist" [(GET, [Var]); (PUT, [Var]); (DELETE, [Var])].
Definition ssh_routes : list Route := scope "ssh"
  ([(GET, [Var]); (PUT, [Var]); (DELETE, [Var])] ++ ssh_whitelist_routes ++ ssh_blacklist_routes).
Definition http_routes : list Route := scope "http" [(GET, [Var]); (PUT, [Var]); (DELETE, [Var])].
Definition dns_routes : list Route := scope "dns" (scope "blacklist" [(GET, []); (PUT, []); (DELETE, [])]).
Definition filter_routes : list Route := scope "filter" (http_routes ++ ssh_routes ++ dns_routes).
Definition acl_routes : list Route := scope "acl"
  [(GET, [Lit "ipv4"; Var; Var]); (GET, [Lit "ipv6"; Var; Var]); (PUT, [Lit "ipv4"; Var; Var]);
   (PUT, [Lit "ipv6"; Var; Var]); (DELETE, [Lit "ipv4"; Var; Var]); (DELETE, [Lit "ipv6"; Var; Var]);
   (GET, [Lit "geo"; Lit "blocked"]); (PUT, [Lit "geo"; Lit "block"]); (DELETE, [Lit "geo"; Lit "unblock"])].
Definition rate_limit_routes : list Route := scope "rate-limit" [(GET, [Lit "config"]); (PUT, [Lit "config"])].
Definition notification_routes : list Route := scope "notifications"
  [(GET, [Lit "telegram"; Lit "config"]); (POST, [Lit "telegram"; Lit "config"]);
   (POST, [Lit "telegram"; Lit "test"]); (POST, [Lit "smtp"; Lit "test"])].
Definition soar_routes : list Route := scope "soar"
  [(GET, [Lit "playbooks"]); (POST, [Lit "playbooks"]); (PUT, [Lit "playbooks"; Var]);
   (DELETE, [Lit "playbooks"; Var]); (POST, [Lit "playbooks"; Var; Lit "toggle"]); (GET, [Lit "blocks"]);
   (POST, [Lit "blocks"; Var; Lit "unblock"]); (GET, [Lit "executions"]); (GET, [Lit "whitelist"]);
   (POST, [Lit "whitelist"]); (DELETE, [Lit "whitelist"; Var]); (POST, [Lit "dry-run"])].
Definition report_routes : list Route := scope "report"
  [(POST, [Lit "generate"]); (GET, [Lit "data"]); (POST, [Lit "send"])].
Definition audit_routes : list Route := scope "audit" [(GET, []); (GET, [Lit "verify"])].
Definition system_routes : list Route := scope "system"
  [(GET, [Lit "boot-time"]); (GET, [Lit "enforce-mode"]); (PUT, [Lit "enforce-mode"]); (GET, [Lit "xdp-mode"]);
   (GET, [Lit "config"]); (PUT, [Lit "config"]); (GET, [Lit "log-level"]); (PUT, [Lit "log-level"]);
   (POST, [Lit "shutdown"]); (POST, [Lit "restart"])].
Definition log_routes : list Route := scope "logs" [(GET, []); (GET, [Lit "live"]); (GET, [Var])].
Definition stats_routes : list Route := scope "stats"
  [(GET, [Lit "flows"]); (GET, [Lit "flows"; Lit "top"; Var]); (GET, [Lit "summary"]); (GET, [Lit "drops"])].
Definition fusion_routes : list Route := scope "fusion" [(GET, [Lit "metrics"]); (GET, [Lit "explain"; Var])].
Definition health_routes : list Route := scope "health"
  [(GET, [Lit "metrics"]); (GET, [Lit "status"]); (GET, [Lit "ebpf"]); (GET, [Lit "suricata"])].
Definition flow_trace_routes : list Route := scope "flow-trace" [(GET, [Lit "files"]); (GET, [Lit "download"; Var])].
Definition byo_routes : list Route := scope "byo"
  [(GET, [Lit "feature-registry"]); (GET, [Lit "schema"]); (POST, [Lit "validate"])].
Definition model_upload_routes : list Route := scope "ml" (scope "models" [(POST, [Lit "upload"])]).
Definition ml_routes : list Route := scope "ml"
  [(GET, [Lit "status"]); (GET, [Lit "models"; Lit "current"]); (DELETE, [Lit "models"; Lit "current"]);
   (POST, [Lit "models"; Lit "current"; Lit "enable"])].
Definition setup_routes : list Route := scope "setup"
  [(GET, [Lit "status"]); (GET, [Lit "interfaces"]); (POST, [Lit "complete"])].

(** [configure_authenticated_api] and [configure_setup_api] *)
Definition api_routes : list Route := scope "api"
  (health_routes ++ ml_routes ++ model_upload_routes ++ byo_routes ++ fusion_routes ++ flow_trace_routes ++ stats_routes
   ++ auth_routes ++ acl_routes ++ filter_routes ++ rate_limit_routes ++ soar_routes ++ notification_routes
   ++ report_routes ++ system_routes ++ setup_routes ++ api_key_routes ++ log_routes ++ audit_routes).
Definition setup_api_routes : list Route := scope "api" (auth_routes ++ setup_routes ++ health_routes).

(** ** The setup guard *)

(** The status it refuses a path with. *)
Definition setup_guard (setup_complete : bool) (path : string) : option Z :=
  if setup_complete then
    if starts_with path "/api/setup/" && negb (String.eqb path "/api/setup/status") then Some 410 else None
  else if starts_with path "/api/setup/" || starts_with path "/api/health/" || String.eqb path "/api/auth/login"
          || negb (starts_with path "/api/") then None
  else Some 503.

(** Routes for everybody, and for everybody logged in. *)
Definition public_routes : list Route := scope "api"
  [(POST, [Lit "auth"; Lit "login"]); (GET, [Lit "setup"; Lit "status"])].
Definition own_account_routes : list Route := scope "api"
  (scope "auth" [(POST, [Lit "logout"]); (GET, [Lit "me"]); (POST, [Lit "change-password"])]).

(** What guards one request to a route: nothing, a login, or a permission that
    administrators hold, viewers only for reading, and read-write API keys never
    for accounts and keys. *)
Definition guarded (m : Method) (segs : list Seg) (path : string) : Prop :=
  let exempt := is_auth_exempt_request path m in
  let required := required_permission path m in
  if bool_decide ((m, segs) ∈ public_routes) then exempt = true
  else if bool_decide ((m, segs) ∈ own_account_routes) then exempt = false /\ required = None
  else exempt = false /\ exists p, required = Some p /\ p ∈ ADMIN_PERMISSIONS /\
       (m <> GET -> p ∉ VIEWER_PERMISSIONS /\ p ∉ API_KEY_READ_ONLY_PERMISSIONS) /\
       ((segs !! 1%nat = Some (Lit "auth") \/ segs !! 1%nat = Some (Lit "api-keys")) -> p ∉ API_KEY_READ_WRITE_PERMISSIONS).

(** ** Variables do not change what a path needs *)

Lemma ends_with_app (x y p : string) : ends_with y p = true -> ends_with (x ++ y) p = true.
Proof.
  intros Hy. induction x as [|a x IH]; [exact Hy|].
  change (ends_with (String a x ++ y) p) with (String.eqb (String a (x ++ y)) p || ends_with (x ++ y) p).
  rewrite IH. apply orb_true_r.
Qed.

(** Where text can begin that starts with a slash. *)
Definition at_slash (s : string) : Prop := match s with String a _ => a = "/"%char | EmptyString => True end.
Lemma prefix_segment (u v q rest : string) :
  segment u -> segment v -> at_slash rest -> String.prefix ("/" ++ q) rest = false ->
  String.prefix (u ++ "/" ++ q) (v ++ rest) = false.
Proof.
  intros Hu. revert v. induction u as [|a u IH]; intros [|b v] Hv Hr Hp.
  - exact Hp.
  - apply Forall_cons in Hv as [Hb _]. change (String.prefix ("" ++ "/" ++ q) (String b v ++ rest))
      with (if ascii_dec "/" b then String.prefix q (v ++ rest) else false). by destruct (ascii_dec "/" b).
  - apply Forall_cons in Hu as [Ha _]. change (String.prefix (String a (u ++ "/" ++ q)) rest = false).
    destruct rest as [|c rest]; [done|]. cbn in Hr. subst c. cbn. by destruct (ascii_dec a "/").
  - apply Forall_cons in Hu as [_ Hu]. apply Forall_cons in Hv as [_ Hv]. specialize (IH Hu v Hv Hr Hp).
    change (String.prefix (String a u ++ "/" ++ q) (String b v ++ rest))
      with (if ascii_dec a b then String.prefix (u ++ "/" ++ q) (v ++ rest) else false). by destruct (ascii_dec a b).
Qed.
Lemma contains_segment (v q rest : string) :
  segment v -> str_contains (v ++ rest) ("/" ++ q) = str_contains rest ("/" ++ q).
Proof.
  induction v as [|b v IH]; intros Hv; [done|]. apply Forall_cons in Hv as [Hb Hv].
  change (str_contains (String b v ++ rest) ("/" ++ q))
    with ((if ascii_dec "/" b then String.prefix q (v ++ rest) else false) || str_contains (v ++ rest) ("/" ++ q)).
  destruct (ascii_dec "/" b); [by destruct Hb|]. by apply IH.
Qed.
(** No path [.../v] or [.../v/toggle] contains /soar/blocks/ past its literal start. *)
Lemma no_blocks_after (v rest : string) :
  segment v -> at_slash rest -> String.prefix "/blocks/" rest = false -> str_contains rest "/soar/blocks/" = false ->
  str_contains ("/" ++ v ++ rest) "/soar/blocks/" = false.
Proof.
  intros Hv Ha Hp Hc. change (String.prefix ("soar" ++ "/" ++ "blocks/") (v ++ rest) || str_contains (v ++ rest) ("/" ++ "soar/blocks/") = false).
  rewrite prefix_segment; [by rewrite contains_segment|by repeat constructor|done|done|done].
Qed.

Definition sample (segs : list Seg) : string := fill segs (repeat "x" (vars segs)).
Definition like_sample (r : Route) : Prop := forall vs, length vs = vars r.2 -> Forall segment vs ->
  need_of_path (fill r.2 vs) = need_of_path (sample r.2) /\
  is_auth_exempt_request (fill r.2 vs) r.1 = is_auth_exempt_request (sample r.2) r.1 /\
  setup_guard true (fill r.2 vs) = setup_guard true (sample r.2).

(** Destruct the list of variables. *)
Ltac take_vars vs Hl Hs :=
  cbn in Hl; repeat (destruct vs as [|? vs]; try discriminate Hl; cbn in Hl);
  repeat match type of Hs with Forall _ (_ :: _) => apply Forall_cons in Hs as [? Hs] end.

(** By computing up to the first variable, and past it where the path must not or
    must mention a block to lift. *)
Lemma all_like_sample : Forall like_sample api_routes.
Proof.
  assert (forall (l : list Route), l = api_routes -> Forall like_sample l) as Hall; [|by apply Hall].
  intros l Hl. vm_compute in Hl. subst l.
  repeat (apply Forall_cons_2; [|]); try exact (Forall_nil_2 _); intros vs Hlen Hs; cbn [snd] in Hlen; take_vars vs Hlen Hs;
    clear Hlen; cbn [fill tail snd fst];
    try match goal with |- context [?v ++ ?r] => is_var v;
      let t := fresh "t" in let Ht := fresh "Ht" in remember (v ++ r) as t eqn:Ht end;
    split_and!; try (vm_compute; reflexivity); try (destruct t; vm_compute; reflexivity);
  try match goal with |- need_of_path ?p = _ => 
     assert (str_contains p "/soar/blocks/" = false) as Hc by
       (subst; match goal with |- context [?v ++ ?r] => is_var v; change (str_contains ("/" ++ v ++ r) "/soar/blocks/" = false) end;
        by apply no_blocks_after);
     unfold need_of_path; rewrite Hc; destruct t; vm_compute; reflexivity end.
  subst. match goal with |- need_of_path ?p = _ => assert (ends_with p "/unblock" = true) as He by (repeat first [reflexivity|apply ends_with_app]);
    unfold need_of_path; rewrite He end. destruct s; vm_compute; reflexivity.
Qed.

(** The table of needs, checked at the samples. *)
Definition guard_ok (r : Route) (exempt : bool) (required : option string) : bool :=
  if bool_decide (r ∈ public_routes) then exempt
  else if bool_decide (r ∈ own_account_routes) then negb exempt && bool_decide (required = None)
  else negb exempt &&
    match required with
    | None => false
    | Some p =>
        bool_decide (p ∈ ADMIN_PERMISSIONS) &&
        (bool_decide (r.1 = GET) || bool_decide (p ∉ VIEWER_PERMISSIONS /\ p ∉ API_KEY_READ_ONLY_PERMISSIONS)) &&
        (negb (bool_decide (r.2 !! 1%nat = Some (Lit "auth") \/ r.2 !! 1%nat = Some (Lit "api-keys")))
         || bool_decide (p ∉ API_KEY_READ_WRITE_PERMISSIONS))
    end.
Definition sample_ok (r : Route) : bool :=
  bool_decide (setup_guard true (sample r.2) <> None) ||
  guard_ok r (is_auth_exempt_request (sample r.2) r.1) (required_permission (sample r.2) r.1).
Lemma samples_ok : forallb sample_ok api_routes = true.
Proof. vm_compute. reflexivity. Qed.

Lemma guard_ok_spec (r : Route) (path : string) :
  guard_ok r (is_auth_exempt_request path r.1) (required_permission path r.1) = true -> guarded r.1 r.2 path.
Proof.
  unfold guard_ok, guarded. cbv zeta. rewrite <- surjective_pairing.
  destruct (decide (r ∈ public_routes)) as [Hp|Hp];
    [rewrite !(bool_decide_eq_true_2 _ Hp); tauto|rewrite !(bool_decide_eq_false_2 _ Hp)].
  destruct (decide (r ∈ own_account_routes)) as [Ho|Ho];
    [rewrite !(bool_decide_eq_true_2 _ Ho)|rewrite !(bool_decide_eq_false_2 _ Ho)].
  - intros [He Hr]%andb_prop. split; [by apply negb_true_iff|]. by apply bool_decide_eq_true in Hr.
  - intros [He Hr]%andb_prop. split; [by apply negb_true_iff|]. destruct (required_permission path r.1) as [p|]; [|done].
    exists p. apply andb_prop in Hr as [[Ha Hv]%andb_prop Hk]. split_and!; [done|by apply bool_decide_eq_true in Ha| |].
    + intros Hne. by apply orb_prop in Hv as [Hv%bool_decide_eq_true|Hv%bool_decide_eq_true].
    + intros Hs. apply orb_prop in Hk as [Hk|Hk]; [|by apply bool_decide_eq_true in Hk].
      apply negb_true_iff, bool_decide_eq_false in Hk. done.
Qed.



(** ** Encoded paths

    The middlewares read the path as it was sent. *)

(** An encoded letter takes a path out of every rule. *)
Lemma encoded_path_is_exempt :
  is_auth_exempt_request "/%61pi/system/shutdown" POST = true /\ setup_guard true "/%61pi/setup/complete" = None.
Proof. split; reflexivity. Qed.
Lemma encoded_resource_needs_nothing : required_permission "/api/%73ystem/shutdown" POST = None.
Proof. reflexivity. Qed.
