(* ===== verification/Manifest.v ===== *)
(** * Model manifests

    The description of a detection model (domain/detection/manifest.rs): stages
    that read features or outputs of other stages, the pipeline's outputs, the
    rules that turn outputs into detections, and the validation that accepts a
    manifest.  Error texts are left out; an unknown feature keeps its name. *)

From Stdlib Require Import ZArith Lia List Ascii String Permutation.
From Corelib Require Import SpecFloat.
From stdpp Require Import base list gmap sets strings.
From S2P Require Import Prelude RStr Float Features.

Local Open Scope string_scope.
Local Open Scope Z_scope.

(** ** The manifest *)

Definition MANIFEST_VERSION : Z := 1.

Record RuntimeSpec : Type := mk_runtime { pipeline_mode : string; normal_label : string }.

Inductive ArtifactKind : Type := Onnx | Sidecar.
#[export] Instance ArtifactKind_eq_dec : EqDecision ArtifactKind.
Proof. solve_decision. Defined.
Record ArtifactSpec : Type := mk_artifact { art_id : string; file : string; art_kind : ArtifactKind }.

Inductive StageKind : Type := Autoencoder | Classifier | Generic.
#[export] Instance StageKind_eq_dec : EqDecision StageKind.
Proof. solve_decision. Defined.
Inductive StageInputSource : Type := Feature | StageOutput.
Record StageInputSpec : Type := mk_input {
  in_name : string; source : StageInputSource; in_stage : option string; in_output : option string }.

Inductive OutputRole : Type := AnomalyScore | BinaryScore | ClassProbabilities | C2Score | Embedding | Ignore.
Record PipelineOutputSpec : Type := mk_output {
  out_stage : string; out_output : string; alias : option string; role : OutputRole }.

Inductive PreprocessingStep : Type :=
  | StandardScaler (sidecar : string)
  | MinMaxScaler (sidecar : string)
  | RobustScaler (sidecar : string)
  | LogTransform (offset : float)
  | Clip (min max : float)
  | Quantile (sidecar : string).

Inductive OutputSemantic : Type :=
  | SemAnomalyScore | SemBinary | SemMulticlass | SemMultilabel | SemRegression | SemPassthrough.
Record OutputHeadSpec : Type := mk_head {
  head_name : string; index : Z; shape : list string; semantic : OutputSemantic;
  threshold : option float; min_confidence : option float }.

Record StageSpec : Type := mk_stage {
  st_id : string; st_kind : StageKind; model_file : string; depends_on : list string;
  inputs : list StageInputSpec; preprocessing : list PreprocessingStep; output_heads : list OutputHeadSpec }.

Inductive AttackMappingSpec : Type :=
  | PredictedClass (output : string) (exclude_normal : bool)
  | FixedLabel (label : string).
Inductive DetectionRuleSpec : Type :=
  | Threshold (id output : string) (attack : AttackMappingSpec)
  | ClassConfidence (id output : string) (attack : AttackMappingSpec).
Definition rule_id (r : DetectionRuleSpec) : string := match r with Threshold id _ _ | ClassConfidence id _ _ => id end.

Record LabelSpec : Type := mk_label { lb_name : string; confirmations : option Z; playbook : option string }.
Record AlertRuleSpec : Type := mk_alert_rule { condition : string; source_label : string }.

(** [labels] is in the order of its keys. *)
Record ModelManifest : Type := mk_manifest {
  mf_name : string; mf_version : Z; mf_runtime : RuntimeSpec; artifacts : list ArtifactSpec;
  stages : list StageSpec; outputs : list PipelineOutputSpec; detection_rules : list DetectionRuleSpec;
  labels : list (string * LabelSpec); alert_rules : list AlertRuleSpec }.

Inductive ManifestError : Type := ManifestInvalid | UnknownFeature (name : string).
Abbreviation check := (result ManifestError unit).
Definition reject_if (b : bool) : check := if b then Err ManifestInvalid else Ok tt.

(** A loop that stops at the first error. *)
Fixpoint each {A} (f : A -> check) (l : list A) : check :=
  match l with
  | [] => Ok tt
  | x :: l => let? _ := f x in each f l
  end.
(** ... and one that carries what it has seen. *)
Fixpoint each_seen {S A} (f : S -> A -> result ManifestError S) (s : S) (l : list A) : check :=
  match l with
  | [] => Ok tt
  | x :: l => let? s := f s x in each_seen f s l
  end.

(** ** References *)

Definition stage_output_key (stage output : string) : string := stage ++ "." ++ output.
Definition output_reference (o : PipelineOutputSpec) : string :=
  match alias o with
  | Some a => if is_empty (trim a) then stage_output_key (out_stage o) (out_output o) else a
  | None => stage_output_key (out_stage o) (out_output o)
  end.
Definition output_matches_ref (o : PipelineOutputSpec) (reference : string) : bool :=
  bool_decide (alias o = Some reference) || String.eqb (stage_output_key (out_stage o) (out_output o)) reference.
Definition output_semantic_is_matrix (s : OutputSemantic) : bool :=
  match s with SemMulticlass | SemMultilabel => true | _ => false end.
Definition preprocessing_sidecar (s : PreprocessingStep) : option string :=
  match s with
  | StandardScaler f | MinMaxScaler f | RobustScaler f | Quantile f => Some f
  | LogTransform _ | Clip _ _ => None
  end.

Definition stage_by_id (m : ModelManifest) (id : string) : option StageSpec :=
  List.find (fun s => String.eqb (st_id s) id) (stages m).
Definition head_by_name (s : StageSpec) (name : string) : option OutputHeadSpec :=
  List.find (fun h => String.eqb (head_name h) name) (output_heads s).
Definition pipeline_output_by_ref (m : ModelManifest) (reference : string) : option PipelineOutputSpec :=
  List.find (fun o => output_matches_ref o reference) (outputs m).
Definition pipeline_output_head (m : ModelManifest) (reference : string) :
    result ManifestError (PipelineOutputSpec * OutputHeadSpec) :=
  let! o := pipeline_output_by_ref m reference else Err ManifestInvalid in
  let! s := stage_by_id m (out_stage o) else Err ManifestInvalid in
  let! h := head_by_name s (out_output o) else Err ManifestInvalid in
  Ok (o, h).

(** The number of features of the first stage, and the first sidecar of a scaler. *)
Definition runtime_feature_count (m : ModelManifest) : nat :=
  match stages m with s :: _ => length (inputs s) | [] => 0%nat end.
Definition find_map {A B} (f : A -> option B) : list A -> option B :=
  fix go l := match l with [] => None | x :: l => match f x with Some b => Some b | None => go l end end.
Definition primary_scaler_sidecar (m : ModelManifest) : option string :=
  find_map (fun s => find_map preprocessing_sidecar (preprocessing s)) (stages m).

(** ** The order of stages *)

(** One pass over the stages: those whose dependencies are out come out. *)
Fixpoint topological_pass (l : list StageSpec) (emitted : gset string) (ordered : list StageSpec) :
    gset string * list StageSpec :=
  match l with
  | [] => (emitted, ordered)
  | s :: l =>
      if bool_decide (st_id s ∈ emitted) then topological_pass l emitted ordered
      else if forallb (fun id => bool_decide (id ∈ emitted)) (depends_on s)
      then topological_pass l ({[ st_id s ]} ∪ emitted) (ordered ++ [s])%list
      else topological_pass l emitted ordered
  end.
(** Passes until all are out or one adds nothing; [None] when the fuel ends. *)
Fixpoint topological_loop (fuel : nat) (l : list StageSpec) (emitted : gset string) (ordered : list StageSpec) :
    option (result ManifestError (list StageSpec)) :=
  match fuel with
  | O => None
  | S fuel =>
      let '(emitted', ordered') := topological_pass l emitted ordered in
      if (length ordered' =? length l)%nat then Some (Ok ordered')
      else if (length ordered' =? length ordered)%nat then Some (Err ManifestInvalid)
      else topological_loop fuel l emitted' ordered'
  end.
Definition topological_stages (m : ModelManifest) : result ManifestError (list StageSpec) :=
  default (Err ManifestInvalid) (topological_loop (S (length (stages m))) (stages m) ∅ []).

(** ** Paths

    [std::path] on Unix: empty parts and all but a leading dot are skipped. *)
Inductive Component : Type := RootDir | CurDir | ParentDir | Normal (s : string).
#[export] Instance Component_eq_dec : EqDecision Component.
Proof. solve_decision. Defined.
Definition component_of (part : string) : option Component :=
  if is_empty part || String.eqb part "." then None
  else if String.eqb part ".." then Some ParentDir else Some (Normal part).
Definition components (path : string) : list Component :=
  match split "/" path with
  | [] => []
  | first :: rest =>
      let tail := omap component_of rest in
      if is_empty first then (if is_empty path then [] else RootDir :: tail)
      else if String.eqb first "." then CurDir :: tail
      else omap component_of (first :: rest)
  end.
Definition file_name (path : string) : option string :=
  match last (components path) with Some (Normal s) => Some s | _ => None end.
Definition is_absolute (path : string) : bool := starts_with path "/".

Definition normalized_artifact_components (value : string) : list string :=
  omap (fun c => match c with Normal s => Some s | _ => None end) (components value).
Definition validate_relative_artifact_path (value : string) : check :=
  if is_empty value then Err ManifestInvalid
  else if is_absolute value then Err ManifestInvalid
  else reject_if (existsb (fun c => match c with Normal _ => false | _ => true end) (components value)).
Definition validate_artifact_not_manifest_path (path value : string) : check :=
  match file_name path with
  | None => Ok tt
  | Some manifest_file_name => reject_if (bool_decide (normalized_artifact_components value = [manifest_file_name]))
  end.

(** ** Validation *)

Definition blank (s : string) : bool := is_empty (trim s).
Definition is_in (x : string) (l : list string) : bool := existsb (String.eqb x) l.

Definition validate_runtime (m : ModelManifest) : check :=
  if negb (String.eqb (pipeline_mode (mf_runtime m)) "dag") then Err ManifestInvalid
  else reject_if (blank (normal_label (mf_runtime m))).

Definition validate_artifacts (path : string) (m : ModelManifest) : check :=
  match artifacts m with
  | [] => Err ManifestInvalid
  | _ =>
      each_seen (fun seen a =>
        let '(seen_ids, seen_files) := seen in
        if blank (art_id a) then Err ManifestInvalid
        else if is_in (art_id a) seen_ids then Err ManifestInvalid
        else
          let? _ := validate_relative_artifact_path (file a) in
          let? _ := validate_artifact_not_manifest_path path (file a) in
          let comps := normalized_artifact_components (file a) in
          if bool_decide (comps ∈ seen_files) then Err ManifestInvalid
          else Ok (art_id a :: seen_ids, comps :: seen_files)) ([], []) (artifacts m)
  end.

Definition validate_stage_inputs (s : StageSpec) : check :=
  each_seen (fun seen i =>
    if blank (in_name i) then Err ManifestInvalid
    else if is_in (in_name i) seen then Err ManifestInvalid
    else
      let? _ :=
        match source i with
        | Feature => reject_if (bool_decide (is_Some (in_stage i)) || bool_decide (is_Some (in_output i)))
        | StageOutput =>
            reject_if (match in_stage i with Some v => blank v | None => true end
                       || match in_output i with Some v => blank v | None => true end)
        end in
      Ok (in_name i :: seen)) [] (inputs s).

Definition validate_preprocessing (path : string) (steps : list PreprocessingStep) : check :=
  each (fun step =>
    match step with
    | StandardScaler sidecar | MinMaxScaler sidecar | RobustScaler sidecar | Quantile sidecar =>
        let? _ := validate_relative_artifact_path sidecar in
        validate_artifact_not_manifest_path path sidecar
    | LogTransform offset => reject_if (negb (is_finite offset) || flt offset (f32_of_Z 0))
    | Clip min max => reject_if (negb (is_finite min) || negb (is_finite max) || fgt min max)
    end) steps.

Definition validate_output_shape_dim (dim : string) : check :=
  let trimmed := trim dim in
  if is_empty trimmed then Err ManifestInvalid
  else if bool_decide (is_Some (parse_uint 64 trimmed)) then Ok tt
  else reject_if (negb (all_bytes (fun c => is_alnum c || bool_decide (c = "_"%char) || bool_decide (c = "-"%char)) trimmed)).

Definition validate_outputs (heads : list OutputHeadSpec) : check :=
  each_seen (fun seen h =>
    let '(seen_names, seen_indexes) := seen in
    if blank (head_name h) then Err ManifestInvalid
    else if bool_decide (shape h = []) then Err ManifestInvalid
    else
      let? _ := each validate_output_shape_dim (shape h) in
      if is_in (head_name h) seen_names then Err ManifestInvalid
      else if existsb (Z.eqb (index h)) seen_indexes then Err ManifestInvalid
      else
        let? _ := match threshold h with
                  | Some v => reject_if (negb (is_finite v && fge v (f32_of_Z 0)))
                  | None => Ok tt
                  end in
        let? _ := match min_confidence h with
                  | Some v => reject_if (negb (is_finite v && (fle (f32_of_Z 0) v && fle v (f32_of_Z 1))))
                  | None => Ok tt
                  end in
        Ok (head_name h :: seen_names, index h :: seen_indexes)) ([], []) heads.

Definition artifact_by_file (m : ModelManifest) (f : string) : option ArtifactSpec :=
  List.find (fun a => String.eqb (file a) f) (artifacts m).

(** The sidecars of a stage are declared as such. *)
Definition validate_sidecars (m : ModelManifest) (s : StageSpec) : check :=
  each (fun step =>
    match preprocessing_sidecar step with
    | None => Ok tt
    | Some sidecar =>
        match artifact_by_file m sidecar with
        | None => Err ManifestInvalid
        | Some a => reject_if (bool_decide (art_kind a <> Sidecar))
        end
    end) (preprocessing s).

Definition validate_stages (path : string) (m : ModelManifest) : check :=
  each_seen (fun seen_ids s =>
    if blank (st_id s) then Err ManifestInvalid
    else if is_in (st_id s) seen_ids then Err ManifestInvalid
    else
      let? _ := validate_relative_artifact_path (model_file s) in
      let? _ := validate_artifact_not_manifest_path path (model_file s) in
      let? _ := reject_if (negb (bool_decide (artifacts m = [])) && negb (is_in (model_file s) (map file (artifacts m)))) in
      let? _ := reject_if (match artifact_by_file m (model_file s) with
                           | Some a => bool_decide (art_kind a <> Onnx)
                           | None => false
                           end) in
      let? _ := reject_if (match inputs s with [] => true | _ => false end) in
      let? _ := reject_if (match output_heads s with [] => true | _ => false end) in
      let? _ := validate_stage_inputs s in
      let? _ := validate_preprocessing path (preprocessing s) in
      let? _ := validate_sidecars m s in
      let? _ := validate_outputs (output_heads s) in
      Ok (st_id s :: seen_ids)) [] (stages m).

Definition validate_stage_graph (m : ModelManifest) : check :=
  let? _ := each (fun s => each (fun dep =>
                if bool_decide (stage_by_id m dep = None) then Err ManifestInvalid
                else reject_if (String.eqb dep (st_id s))) (depends_on s)) (stages m) in
  let? _ := topological_stages m in Ok tt.

(** An input must be a known feature or an output of an earlier stage. *)
Definition validate_input_available (available : gset string) (i : StageInputSpec) : check :=
  match source i with
  | Feature => if bool_decide (in_name i ∈ available) then Ok tt else Err (UnknownFeature (in_name i))
  | StageOutput =>
      match in_stage i, in_output i with
      | Some source_stage, Some source_output =>
          reject_if (negb (bool_decide (stage_output_key source_stage source_output ∈ available)))
      | _, _ => Err ManifestInvalid
      end
  end.
Definition head_keys (s : StageSpec) : list string :=
  map (fun h => stage_output_key (st_id s) (head_name h)) (output_heads s).
Definition validate_stage_features (m : ModelManifest) : check :=
  let? ordered := topological_stages m in
  each_seen (fun available s =>
    let? _ := each (validate_input_available available) (inputs s) in
    Ok (list_to_set (head_keys s) ∪ available)) (dom FEATURE_REGISTRY) ordered.

Definition validate_output_role (o : PipelineOutputSpec) (h : OutputHeadSpec) : check :=
  let is_matrix := output_semantic_is_matrix (semantic h) in
  match role o with
  | ClassProbabilities =>
      if negb is_matrix then Err ManifestInvalid
      else match semantic h with SemMulticlass | SemMultilabel => Ok tt | _ => Err ManifestInvalid end
  | Embedding => reject_if (negb is_matrix)
  | AnomalyScore | BinaryScore | C2Score => reject_if is_matrix
  | Ignore => Ok tt
  end.

Definition validate_pipeline_outputs (m : ModelManifest) : check :=
  each_seen (fun seen_refs o =>
    let! s := stage_by_id m (out_stage o) else Err ManifestInvalid in
    if negb (existsb (fun h => String.eqb (head_name h) (out_output o)) (output_heads s)) then Err ManifestInvalid
    else if match alias o with Some a => blank a | None => false end then Err ManifestInvalid
    else
      let reference := output_reference o in
      if is_in reference seen_refs then Err ManifestInvalid
      else
        let? _ := match head_by_name s (out_output o) with
                  | Some h => validate_output_role o h
                  | None => Ok tt
                  end in
        Ok (reference :: seen_refs)) [] (outputs m).

Definition validate_labels (m : ModelManifest) : check :=
  match labels m with
  | [] => Err ManifestInvalid
  | _ =>
      each_seen (fun seen (kv : string * LabelSpec) =>
        let '(key, spec) := kv in
        if bool_decide (parse_uint 64 key = None) then Err ManifestInvalid
        else if bool_decide (confirmations spec = Some 0) then Err ManifestInvalid
        else
          let lower := to_ascii_lowercase (lb_name spec) in
          if is_in lower seen then Err ManifestInvalid else Ok (lower :: seen)) [] (labels m)
  end.

Definition validate_attack_mapping (m : ModelManifest) (a : AttackMappingSpec) : check :=
  match a with
  | PredictedClass output _ =>
      let? found := pipeline_output_head m output in
      let '(o, h) := found in
      reject_if (negb (output_semantic_is_matrix (semantic h)) ||
                 negb match role o with ClassProbabilities => true | _ => false end)
  | FixedLabel label => reject_if (negb (existsb (fun kv => eq_ignore_ascii_case (lb_name kv.2) label) (labels m)))
  end.

Definition validate_detection_rule (m : ModelManifest) (r : DetectionRuleSpec) : check :=
  match r with
  | Threshold _ output attack =>
      let? found := pipeline_output_head m output in
      let h := found.2 in
      let? _ := reject_if (output_semantic_is_matrix (semantic h)) in
      let? _ := reject_if (match threshold h with Some _ => false | None => true end) in
      validate_attack_mapping m attack
  | ClassConfidence _ output attack =>
      let? found := pipeline_output_head m output in
      let h := found.2 in
      let? _ := reject_if (negb (output_semantic_is_matrix (semantic h))) in
      let? _ := reject_if (match min_confidence h with Some _ => false | None => true end) in
      validate_attack_mapping m attack
  end.
Definition validate_detection_rules (m : ModelManifest) : check :=
  match detection_rules m with
  | [] => Err ManifestInvalid
  | _ =>
      each_seen (fun seen_ids r =>
        if blank (rule_id r) then Err ManifestInvalid
        else if is_in (rule_id r) seen_ids then Err ManifestInvalid
        else let? _ := validate_detection_rule m r in Ok (rule_id r :: seen_ids)) [] (detection_rules m)
  end.

Definition validate_alert_rules (m : ModelManifest) : check :=
  match alert_rules m with
  | [] => Err ManifestInvalid
  | _ => each (fun r => if blank (condition r) then Err ManifestInvalid else reject_if (blank (source_label r))) (alert_rules m)
  end.

(** [path] is where the manifest was read from. *)
Definition validate (path : string) (m : ModelManifest) : check :=
  if negb (mf_version m =? MANIFEST_VERSION) then Err ManifestInvalid
  else if blank (mf_name m) then Err ManifestInvalid
  else
    let? _ := reject_if (match stages m with [] => true | _ => false end) in
    let? _ := reject_if (match outputs m with [] => true | _ => false end) in
    let? _ := validate_runtime m in
    let? _ := validate_artifacts path m in
    let? _ := validate_stages path m in
    let? _ := validate_stage_graph m in
    let? _ := validate_stage_features m in
    let? _ := validate_pipeline_outputs m in
    let? _ := validate_labels m in
    let? _ := validate_detection_rules m in
    validate_alert_rules m.

(** ** The order of stages: lemmas *)

(** Every stage comes after what it depends on. *)
Definition deps_first (l : list StageSpec) : Prop :=
  forall pre s post, l = (pre ++ s :: post)%list -> Forall (fun dep => dep ∈ map st_id pre) (depends_on s).

(** What is out: distinct stages of [l] in a valid order, with their identifiers. *)
Record topo_inv (l : list StageSpec) (emitted : gset string) (ordered : list StageSpec) : Prop := {
  ti_ids : forall id, id ∈ emitted <-> id ∈ map st_id ordered;
  ti_nd : NoDup (map st_id ordered);
  ti_sub : forall s, s ∈ ordered -> s ∈ l;
  ti_deps : deps_first ordered }.

Lemma deps_first_snoc (l : list StageSpec) (s : StageSpec) :
  deps_first l -> Forall (fun dep => dep ∈ map st_id l) (depends_on s) -> deps_first (l ++ [s]).
Proof.
  intros Hl Hs pre x post He. destruct post as [|y post _] using rev_ind.
  - apply app_inj_tail in He as [<- <-]. exact Hs.
  - rewrite app_comm_cons, app_assoc in He. apply app_inj_tail in He as [-> _]. by eapply Hl.
Qed.

Lemma topological_pass_inv (all : list StageSpec) : forall l emitted ordered,
  (forall s, s ∈ l -> s ∈ all) -> topo_inv all emitted ordered ->
  topo_inv all (topological_pass l emitted ordered).1 (topological_pass l emitted ordered).2.
Proof.
  induction l as [|s l IH]; intros emitted ordered Hl Hi; [done|]. cbn [topological_pass].
  assert (forall s', s' ∈ l -> s' ∈ all) as Hl' by (intros; apply Hl; by right).
  destruct (bool_decide_reflect (st_id s ∈ emitted)) as [|Hn]; [by apply IH|].
  destruct (forallb _ _) eqn:Hd; [|by apply IH]. apply IH; [done|]. destruct Hi as [Hids Hnd Hsub Hdeps].
  constructor.
  - intros id. rewrite map_app, elem_of_app. cbn. rewrite list_elem_of_singleton, <- Hids. set_solver.
  - rewrite map_app. apply NoDup_app. split_and!; [done| |apply NoDup_singleton].
    intros id Hid Hs%list_elem_of_singleton. subst id. by apply Hn, Hids.
  - intros x [Hx|Hx%list_elem_of_singleton]%elem_of_app; [by apply Hsub|]. subst x. apply Hl. by left.
  - apply deps_first_snoc; [done|]. rewrite forallb_forall in Hd. apply Forall_forall. intros dep Hdep.
    apply Hids. apply list_elem_of_In, Hd in Hdep. by apply bool_decide_eq_true in Hdep.
Qed.

(** A pass only adds. *)
Lemma topological_pass_grows : forall l emitted ordered,
  exists more, (topological_pass l emitted ordered).2 = (ordered ++ more)%list.
Proof.
  induction l as [|s l IH]; intros emitted ordered; [exists []; by rewrite app_nil_r|]. cbn [topological_pass].
  destruct (bool_decide _); [apply IH|]. destruct (forallb _ _); [|apply IH].
  destruct (IH ({[st_id s]} ∪ emitted) (ordered ++ [s])%list) as [more ->]. exists (s :: more). by rewrite <- app_assoc.
Qed.
Lemma topological_pass_emits : forall l emitted ordered s,
  s ∈ l -> st_id s ∉ emitted -> Forall (fun dep => dep ∈ emitted) (depends_on s) ->
  (length ordered < length (topological_pass l emitted ordered).2)%nat.
Proof.
  assert (forall l emitted ordered, (length ordered <= length (topological_pass l emitted ordered).2)%nat) as Hle.
  { intros l emitted ordered. destruct (topological_pass_grows l emitted ordered) as [more ->]. rewrite length_app. lia. }
  induction l as [|x l IH]; intros emitted ordered s Hin Hn Hd; [by apply elem_of_nil in Hin|]. cbn [topological_pass].
  assert (s = x \/ s ∈ l) as Hcase by (by apply elem_of_cons in Hin).
  destruct (bool_decide_reflect (st_id x ∈ emitted)) as [Hx|Hx].
  - destruct Hcase as [->|Hin']; [done|]. by apply IH with s.
  - destruct (forallb _ _) eqn:Hf.
    + specialize (Hle l ({[st_id x]} ∪ emitted) (ordered ++ [x])%list). rewrite length_app in Hle. cbn in Hle. lia.
    + destruct Hcase as [->|Hin']; [|by apply IH with s]. exfalso. apply not_true_iff_false in Hf. apply Hf.
      apply forallb_forall. intros dep Hdep%list_elem_of_In. apply bool_decide_eq_true. rewrite Forall_forall in Hd. by apply Hd.
Qed.

Lemma topo_inv_length l emitted ordered : topo_inv l emitted ordered -> (length ordered <= length l)%nat.
Proof.
  intros [_ Hnd Hsub _]. apply NoDup_fmap_1 in Hnd. apply NoDup_ListNoDup in Hnd.
  apply List.NoDup_incl_length; [done|]. intros s Hs. apply list_elem_of_In, Hsub. by apply list_elem_of_In.
Qed.
Lemma topo_inv_init l : topo_inv l ∅ [].
Proof.
  constructor; [set_solver|constructor|set_solver|]. intros pre s post He. by destruct pre.
Qed.

Lemma topological_loop_total l : forall fuel emitted ordered,
  topo_inv l emitted ordered -> (length l - length ordered < fuel)%nat -> topological_loop fuel l emitted ordered <> None.
Proof.
  induction fuel as [|fuel IH]; intros emitted ordered Hi Hf; [lia|]. cbn [topological_loop].
  pose proof (topological_pass_inv l l emitted ordered (fun s Hs => Hs) Hi) as Hi'.
  destruct (topological_pass_grows l emitted ordered) as [more Hg].
  destruct (topological_pass l emitted ordered) as [emitted' ordered']. cbn [fst snd] in *.
  destruct (Nat.eqb_spec (length ordered') (length l)); [done|].
  destruct (Nat.eqb_spec (length ordered') (length ordered)); [done|].
  apply IH; [done|]. apply topo_inv_length in Hi'. subst ordered'. rewrite length_app in *. lia.
Qed.

(** A valid order with something left has a stage that can come out. *)
Lemma next_stage (emitted : gset string) (k : list StageSpec) :
  deps_first k -> ~ Forall (fun s => st_id s ∈ emitted) k ->
  exists s, s ∈ k /\ st_id s ∉ emitted /\ Forall (fun dep => dep ∈ emitted) (depends_on s).
Proof.
  intros Hk Hn.
  assert (forall post pre, k = (pre ++ post)%list -> Forall (fun s => st_id s ∈ emitted) pre ->
    ~ Forall (fun s => st_id s ∈ emitted) post ->
    exists s, s ∈ k /\ st_id s ∉ emitted /\ Forall (fun dep => dep ∈ emitted) (depends_on s)) as Hgen.
  { induction post as [|s post IH]; intros pre He Hpre Hpost; [by destruct Hpost|].
    destruct (decide (st_id s ∈ emitted)) as [Hs|Hs].
    - apply (IH (pre ++ [s])%list); [by rewrite <- app_assoc| |].
      + apply Forall_app. split; [done|]. by constructor.
      + intros Hp. apply Hpost. by constructor.
    - exists s. split_and!; [rewrite He; set_solver|done|]. eapply Forall_impl; [by eapply Hk|].
      intros dep (x & -> & Hx)%list_elem_of_fmap. rewrite Forall_forall in Hpre. by apply Hpre. }
  by apply (Hgen k []).
Qed.

Lemma topological_loop_spec l : forall fuel emitted ordered,
  topo_inv l emitted ordered ->
  match topological_loop fuel l emitted ordered with
  | Some (Ok k) => k ≡ₚ l /\ deps_first k
  | Some (Err _) => NoDup (map st_id l) -> ~ exists k, k ≡ₚ l /\ deps_first k
  | None => True
  end.
Proof.
  induction fuel as [|fuel IH]; intros emitted ordered Hi; [done|]. cbn [topological_loop].
  pose proof (topological_pass_inv l l emitted ordered (fun s Hs => Hs) Hi) as Hi'.
  pose proof (topological_pass_emits l emitted ordered) as Hemit.
  destruct (topological_pass l emitted ordered) as [emitted' ordered']. cbn [fst snd] in *.
  destruct (Nat.eqb_spec (length ordered') (length l)) as [Hl|Hl].
  - destruct Hi' as [_ Hnd Hsub Hdeps]. split; [|done]. apply NoDup_fmap_1 in Hnd.
    apply NoDup_ListNoDup in Hnd. apply NoDup_Permutation_bis; [done|lia|].
    intros s Hs. apply list_elem_of_In, Hsub. by apply list_elem_of_In.
  - destruct (Nat.eqb_spec (length ordered') (length ordered)) as [Hs|]; [|by apply IH].
    intros Hnd (k & Hp & Hk).
    destruct (decide (Forall (fun s => st_id s ∈ emitted) k)) as [Hall|Hnall].
    + apply Hl. apply Nat.le_antisymm; [by eapply topo_inv_length|]. rewrite Hs.
      rewrite <- (length_map st_id l), <- (length_map st_id ordered). apply List.NoDup_incl_length; [by apply NoDup_ListNoDup|].
      intros id Hid. apply list_elem_of_In. apply (ti_ids _ _ _ Hi). apply list_elem_of_In, list_elem_of_fmap in Hid as (s & -> & Hin).
      rewrite Forall_forall in Hall. apply Hall. by rewrite Hp.
    + destruct (next_stage emitted k Hk Hnall) as (s & Hin & Hn & Hd).
      specialize (Hemit s). rewrite <- Hp in Hemit. specialize (Hemit Hin Hn Hd). lia.
Qed.

Lemma topological_stages_spec (m : ModelManifest) :
  match topological_stages m with
  | Ok l => l ≡ₚ stages m /\ deps_first l
  | Err _ => NoDup (map st_id (stages m)) -> ~ exists l, l ≡ₚ stages m /\ deps_first l
  end.
Proof.
  unfold topological_stages. pose proof (topological_loop_spec (stages m) (S (length (stages m))) ∅ [] (topo_inv_init _)) as H.
  pose proof (topological_loop_total (stages m) (S (length (stages m))) ∅ [] (topo_inv_init _)) as Ht.
  destruct (topological_loop _ _ _ _) as [r|]; [exact H|]. exfalso. apply Ht; [cbn; lia|done].
Qed.

(** C37: Ordering the stages comes to an end and decides whether there is an order: the
    passes over the stages stop within one more than there are stages, an answer
    is a permutation of the stages in which each comes after everything it depends
    on, and an error means that distinct stages have no such order. *)
Theorem stage_order_decided (m : ModelManifest) :
  topological_loop (S (length (stages m))) (stages m) ∅ [] <> None /\
  match topological_stages m with
  | Ok l => l ≡ₚ stages m /\ deps_first l
  | Err _ => NoDup (map st_id (stages m)) -> ~ exists l, l ≡ₚ stages m /\ deps_first l
  end.
Proof.
  split; [|apply topological_stages_spec]. apply topological_loop_total; [apply topo_inv_init|cbn; lia].
Qed.

(** ** What validation establishes *)

Lemma reject_if_ok (b : bool) : reject_if b = Ok tt <-> b = false.
Proof. by destruct b. Qed.
Lemma each_ok {A} (f : A -> check) (l : list A) : each f l = Ok tt <-> Forall (fun x => f x = Ok tt) l.
Proof.
  induction l as [|x l IH]; cbn [each]; [done|]. rewrite res_bind_ok, Forall_cons, <- IH. split.
  - by intros ([] & Hx & Hl).
  - intros [Hx Hl]. by exists tt.
Qed.
(** [I] holds of what has been seen at each element, and [Q] of each element. *)
Lemma each_seen_ok {S A} (I : list A -> S -> Prop) (Q : list A -> A -> Prop) (f : S -> A -> result ManifestError S) :
  (forall pre s x s', I pre s -> f s x = Ok s' -> Q pre x /\ I (pre ++ [x])%list s') ->
  forall l s, I [] s -> each_seen f s l = Ok tt -> forall pre x post, l = (pre ++ x :: post)%list -> Q pre x.
Proof.
  intros Hf.
  assert (forall l done s, I done s -> each_seen f s l = Ok tt ->
    forall pre x post, l = (pre ++ x :: post)%list -> Q (done ++ pre)%list x) as Hgen.
  { induction l as [|y l IH]; intros dn s Hi Hok pre x post He; [by destruct pre|].
    cbn in Hok. apply res_bind_ok in Hok as (s' & Hs & Hok). destruct (Hf _ _ _ _ Hi Hs) as [Hq Hi'].
    destruct pre as [|z pre].
    - injection He as -> ->. by rewrite app_nil_r.
    - injection He as -> ->. rewrite cons_middle, app_assoc. by eapply IH. }
  intros l s Hi Hok pre x post He. exact (Hgen l [] s Hi Hok pre x post He).
Qed.
Lemma is_in_spec (x : string) (l : list string) : is_in x l = true <-> x ∈ l.
Proof.
  unfold is_in. rewrite existsb_exists. split.
  - intros (y & Hy & ->%String.eqb_eq). by apply list_elem_of_In.
  - intros Hx. exists x. split; [by apply list_elem_of_In|apply String.eqb_refl].
Qed.
Lemma nodup_by_prefix {A B} (key : A -> B) (l : list A) :
  (forall pre x post, l = (pre ++ x :: post)%list -> key x ∉ map key pre) -> NoDup (map key l).
Proof.
  induction l as [|x l IH] using rev_ind; intros Hall; [constructor|].
  rewrite map_app. apply NoDup_app. split_and!; [|set_solver|apply NoDup_singleton].
  apply IH. intros pre y post He. apply (Hall pre y (post ++ [x])%list). by rewrite He, <- app_assoc.
Qed.
Lemma each_seen_nodup {A} (key : A -> string) (f : list string -> A -> result ManifestError (list string)) (l : list A) :
  (forall seen x s', f seen x = Ok s' -> key x ∉ seen /\ s' = key x :: seen) ->
  each_seen f [] l = Ok tt -> NoDup (map key l).
Proof.
  intros Hf Hok.
  assert (forall pre x post, l = (pre ++ x :: post)%list -> key x ∉ map key pre) as Hall.
  { eapply (each_seen_ok (fun pre seen => forall k, k ∈ seen <-> k ∈ map key pre) (fun pre x => key x ∉ map key pre) f);
      [|by cbn|exact Hok].
    intros pre seen x s' Hi [Hn ->]%Hf. split; [by rewrite <- Hi|]. intros k. rewrite map_app. set_solver. }
  by apply nodup_by_prefix.
Qed.

(** The checks of a validated manifest, one by one. *)
Lemma validate_ok (path : string) (m : ModelManifest) :
  validate path m = Ok tt ->
  validate_artifacts path m = Ok tt /\ validate_stages path m = Ok tt /\ validate_stage_graph m = Ok tt /\
  validate_stage_features m = Ok tt /\ validate_pipeline_outputs m = Ok tt /\ validate_labels m = Ok tt /\
  validate_detection_rules m = Ok tt.
Proof.
  unfold validate. destruct (negb _); [done|]. destruct (blank _); [done|].
  repeat setoid_rewrite res_bind_ok.
  intros ([] & _ & [] & _ & [] & _ & [] & ? & [] & ? & [] & ? & [] & ? & [] & ? & [] & ? & [] & ? & _). done.
Qed.

(** What the check of the inputs sees of one: its key is a feature's name or the key of an
    earlier output. *)
Definition input_available (m : ModelManifest) (earlier : list StageSpec) (i : StageInputSpec) : Prop :=
  match source i with
  | Feature => feature_is_known (in_name i) = true \/ in_name i ∈ concat (map head_keys earlier)
  | StageOutput => exists s o, in_stage i = Some s /\ in_output i = Some o /\
      (stage_output_key s o ∈ concat (map head_keys earlier) \/ feature_is_known (stage_output_key s o) = true)
  end.

Lemma known_dom (k : string) : k ∈ dom FEATURE_REGISTRY <-> feature_is_known k = true.
Proof. unfold feature_is_known. rewrite elem_of_dom. split; [apply bool_decide_eq_true_2|apply bool_decide_eq_true_1]. Qed.

Lemma input_available_ok (m : ModelManifest) (earlier : list StageSpec) (available : gset string) (i : StageInputSpec) :
  (forall k, k ∈ available <-> feature_is_known k = true \/ k ∈ concat (map head_keys earlier)) ->
  validate_input_available available i = Ok tt -> input_available m earlier i.
Proof.
  intros Ha. unfold validate_input_available, input_available. destruct (source i).
  - destruct (bool_decide_reflect (in_name i ∈ available)) as [Hin|]; [|done]. intros _. by apply Ha.
  - destruct (in_stage i) as [s|], (in_output i) as [o|]; try done.
    intros Hr%reject_if_ok%negb_false_iff%bool_decide_eq_true. exists s, o. split_and!; [done|done|].
    apply Ha in Hr. tauto.
Qed.

(** What a run needs: a feature that is known, or a head of an earlier stage. *)
Definition input_produced (earlier : list StageSpec) (i : StageInputSpec) : Prop :=
  match source i with
  | Feature => feature_is_known (in_name i) = true
  | StageOutput => exists s h, s ∈ earlier /\ in_stage i = Some (st_id s) /\ h ∈ output_heads s /\ in_output i = Some (head_name h)
  end.

(** The keys of outputs are those of one stage and head, and no feature's name: stages and
    heads, and what inputs call them, have names without dots. *)
Definition undotted (s : string) : bool := all_bytes (fun a => negb (Ascii.eqb a "."%char)) s.
Definition clear_input (i : StageInputSpec) : bool :=
  match source i, in_stage i, in_output i with
  | Feature, _, _ => undotted (in_name i) || feature_is_known (in_name i)
  | StageOutput, Some s, Some o => undotted s && undotted o && negb (feature_is_known (stage_output_key s o))
  | StageOutput, _, _ => true
  end.
Definition clear_names (m : ModelManifest) : bool :=
  forallb (fun s => undotted (st_id s) && forallb (fun h => undotted (head_name h)) (output_heads s) && forallb clear_input (inputs s)) (stages m).

Lemma split_key (s o : string) : undotted s = true -> undotted o = true -> split "."%char (stage_output_key s o) = [s; o].
Proof.
  intros Hs Ho. unfold stage_output_key. change ("." ++ o) with (String "."%char ("" ++ o)). rewrite append_nil.
  rewrite split_app_sep by exact Hs. by rewrite split_free.
Qed.
Lemma clear_inputs_produced (m : ModelManifest) (earlier : list StageSpec) (s : StageSpec) :
  clear_names m = true -> (forall x, x ∈ earlier -> x ∈ stages m) -> s ∈ stages m ->
  Forall (input_available m earlier) (inputs s) -> Forall (input_produced earlier) (inputs s).
Proof.
  unfold clear_names. rewrite forallb_forall. intros Hm Hsub Hs Hav.
  assert (forall k, k ∈ concat (map head_keys earlier) -> exists x h, x ∈ earlier /\ h ∈ output_heads x /\
    k = stage_output_key (st_id x) (head_name h) /\ split "."%char k = [st_id x; head_name h]) as Hkey.
  { intros k Hk. apply list_elem_of_In, in_concat in Hk as (l & Hl & Hk). apply in_map_iff in Hl as (x & <- & Hx).
    apply in_map_iff in Hk as (h & <- & Hh). apply list_elem_of_In in Hx, Hh. exists x, h. split; [done|]. split; [done|]. split; [done|].
    specialize (Hm x (proj1 (list_elem_of_In _ _) (Hsub x Hx))). apply andb_true_iff in Hm as [[Hid Hheads]%andb_true_iff _].
    rewrite forallb_forall in Hheads. apply split_key; [done|]. by apply Hheads, list_elem_of_In. }
  specialize (Hm s (proj1 (list_elem_of_In _ _) Hs)). apply andb_true_iff in Hm as [_ Hin]. rewrite forallb_forall in Hin.
  rewrite Forall_forall in Hav |- *. intros i Hi. specialize (Hav i Hi). specialize (Hin i (proj1 (list_elem_of_In _ _) Hi)).
  unfold input_available, input_produced, clear_input in *. destruct (source i).
  - destruct Hav as [Hav|Hk%Hkey]; [done|]. apply orb_true_iff in Hin as [Hu|]; [|done]. exfalso.
    destruct Hk as (x & h & _ & _ & _ & Hsplit). rewrite split_free in Hsplit by exact Hu. done.
  - destruct Hav as (st & o & Hst & Ho & Hk). rewrite Hst, Ho in Hin. apply andb_true_iff in Hin as [[Hs1 Ho1]%andb_true_iff Hf%negb_true_iff].
    destruct Hk as [(x & h & Hx & Hh & _ & Hsplit)%Hkey|Hk]; [|congruence]. rewrite split_key in Hsplit by done. injection Hsplit as -> ->.
    by exists x, h.
Qed.

Lemma stage_features_ok (m : ModelManifest) :
  validate_stage_features m = Ok tt ->
  exists l, topological_stages m = Ok l /\
    forall pre s post, l = (pre ++ s :: post)%list -> Forall (input_available m pre) (inputs s).
Proof.
  unfold validate_stage_features. intros (l & Hl & Hok)%res_bind_ok. exists l. split; [done|].
  eapply (each_seen_ok (fun pre available => forall k, k ∈ available <->
      feature_is_known k = true \/ k ∈ concat (map head_keys pre))); [| |exact Hok].
  - intros pre available s available' Ha (u & Hin & [= <-])%res_bind_ok. destruct u. split.
    + apply each_ok in Hin. eapply Forall_impl; [exact Hin|]. intros i. by apply input_available_ok.
    + intros k. rewrite elem_of_union, elem_of_list_to_set, Ha, map_app, concat_app, elem_of_app. cbn. rewrite app_nil_r. tauto.
  - intros k. rewrite known_dom. cbn [map concat]. split; [by left|]. by intros [?|?%elem_of_nil].
Qed.

(** A declared file: relative, made of names only, and not the manifest. *)
Definition safe_file (path f : string) : Prop :=
  is_absolute f = false /\ exists names, components f = map Normal names /\
    forall n, file_name path = Some n -> names <> [n].

Lemma all_normal (l : list Component) :
  existsb (fun c => match c with Normal _ => false | _ => true end) l = false ->
  exists names, l = map Normal names /\ omap (fun c => match c with Normal s => Some s | _ => None end) l = names.
Proof.
  induction l as [|c l IH]; [by exists []|]. cbn [existsb]. intros [Hc Hl]%orb_false_iff. destruct c as [| | |s]; try done.
  destruct (IH Hl) as (names & -> & Hn). exists (s :: names). cbn. by rewrite Hn.
Qed.

Lemma artifact_path_safe (path f : string) :
  validate_relative_artifact_path f = Ok tt -> validate_artifact_not_manifest_path path f = Ok tt -> safe_file path f.
Proof.
  unfold validate_relative_artifact_path, validate_artifact_not_manifest_path, normalized_artifact_components, safe_file.
  destruct (is_empty f); [done|]. destruct (is_absolute f); [done|].
  intros (names & Hc & Hn)%reject_if_ok%all_normal. rewrite Hn. intros Hf. split; [done|]. exists names. split; [done|].
  intros n Hp. rewrite Hp in Hf. apply reject_if_ok in Hf. by apply bool_decide_eq_false in Hf.
Qed.

(** ** Sound manifests *)

(** A rule's output exists, has the shape the rule compares and its bound, and its
    label can be determined. *)
Definition attack_resolves (m : ModelManifest) (a : AttackMappingSpec) : Prop :=
  match a with
  | PredictedClass output _ => exists o h, pipeline_output_head m output = Ok (o, h) /\
      output_semantic_is_matrix (semantic h) = true /\ role o = ClassProbabilities
  | FixedLabel label => exists key spec, (key, spec) ∈ labels m /\ eq_ignore_ascii_case (lb_name spec) label = true
  end.
Definition rule_resolves (m : ModelManifest) (r : DetectionRuleSpec) : Prop :=
  match r with
  | Threshold _ output attack => exists o h t, pipeline_output_head m output = Ok (o, h) /\
      output_semantic_is_matrix (semantic h) = false /\ threshold h = Some t /\ attack_resolves m attack
  | ClassConfidence _ output attack => exists o h t, pipeline_output_head m output = Ok (o, h) /\
      output_semantic_is_matrix (semantic h) = true /\ min_confidence h = Some t /\ attack_resolves m attack
  end.
Definition stage_files_ok (path : string) (m : ModelManifest) (s : StageSpec) : Prop :=
  safe_file path (model_file s) /\
  (exists a, artifact_by_file m (model_file s) = Some a /\ art_kind a = Onnx) /\
  forall step f, step ∈ preprocessing s -> preprocessing_sidecar step = Some f ->
    safe_file path f /\ exists a, artifact_by_file m f = Some a /\ art_kind a = Sidecar.

Record sound_manifest (path : string) (m : ModelManifest) : Prop := {
  so_order : exists l, topological_stages m = Ok l /\ l ≡ₚ stages m /\ deps_first l /\
    forall pre s post, l = (pre ++ s :: post)%list -> Forall (input_available m pre) (inputs s) /\
      (clear_names m = true -> Forall (input_produced pre) (inputs s));
  so_ids : NoDup (map st_id (stages m)) /\ NoDup (map rule_id (detection_rules m)) /\
    NoDup (map output_reference (outputs m)) /\ NoDup (map art_id (artifacts m)) /\
    NoDup (map (fun a => normalized_artifact_components (file a)) (artifacts m));
  so_artifacts : Forall (fun a => safe_file path (file a)) (artifacts m);
  so_files : Forall (stage_files_ok path m) (stages m);
  so_heads : Forall (fun s => NoDup (map head_name (output_heads s)) /\ output_heads s <> [] /\ inputs s <> []) (stages m);
  so_indexes : Forall (fun s => NoDup (map index (output_heads s)) /\ NoDup (map in_name (inputs s))) (stages m);
  so_clips : forall s lo hi, s ∈ stages m -> Clip lo hi ∈ preprocessing s ->
    is_finite lo = true /\ is_finite hi = true /\ fgt lo hi = false;
  so_rules : Forall (rule_resolves m) (detection_rules m) }.

Lemma each_seen_all {S A} (Q : A -> Prop) (f : S -> A -> result ManifestError S) (s : S) (l : list A) :
  (forall s x s', f s x = Ok s' -> Q x) -> each_seen f s l = Ok tt -> Forall Q l.
Proof.
  intros Hf. revert s. induction l as [|x l IH]; intros s; cbn; [done|].
  intros (s' & Hs & Hl)%res_bind_ok. constructor; [by eapply Hf|by eapply IH].
Qed.

Lemma artifacts_ok (path : string) (m : ModelManifest) :
  validate_artifacts path m = Ok tt -> Forall (fun a => safe_file path (file a)) (artifacts m) /\ artifacts m <> [].
Proof.
  unfold validate_artifacts. destruct (artifacts m) as [|a l] eqn:Ea; [done|]. rewrite <- Ea. intros Hok.
  split; [|by rewrite Ea]. revert Hok. apply each_seen_all. intros [ids files] x s'.
  destruct (blank _); [done|]. destruct (is_in _ _); [done|]. rewrite res_bind_ok. setoid_rewrite res_bind_ok.
  intros ([] & H1 & [] & H2 & _). by apply artifact_path_safe.
Qed.

Lemma artifacts_distinct (path : string) (m : ModelManifest) : validate_artifacts path m = Ok tt ->
  NoDup (map art_id (artifacts m)) /\ NoDup (map (fun a => normalized_artifact_components (file a)) (artifacts m)).
Proof.
  unfold validate_artifacts. destruct (artifacts m) as [|a l] eqn:Ea; [done|]. rewrite <- Ea. intros Hok.
  assert (forall pre x post, artifacts m = (pre ++ x :: post)%list -> art_id x ∉ map art_id pre /\
    normalized_artifact_components (file x) ∉ map (fun a => normalized_artifact_components (file a)) pre) as Hall.
  { refine (each_seen_ok (fun pre seen => (forall k, k ∈ seen.1 <-> k ∈ map art_id pre) /\
        (forall k, k ∈ seen.2 <-> k ∈ map (fun a => normalized_artifact_components (file a)) pre)) _ _ _ _ _ _ Hok); [|by cbn].
    intros pre [ids files] x s' [Hi Hf]. cbn [fst snd] in *. destruct (blank _); [done|]. destruct (is_in (art_id x) ids) eqn:Hn; [done|].
    intros (_ & _ & (_ & _ & Hr)%res_bind_ok)%res_bind_ok. cbv zeta in Hr. destruct (bool_decide_reflect (normalized_artifact_components (file x) ∈ files)) as [|Hc]; [done|].
    injection Hr as <-. cbn [fst snd]. split; [split; [rewrite <- Hi; intros Hx%is_in_spec; congruence|by rewrite <- Hf]|].
    split; intros k; rewrite map_app, elem_of_cons, elem_of_app, ?Hi, ?Hf; cbn; rewrite list_elem_of_singleton; tauto. }
  split; apply nodup_by_prefix; intros pre x post He; by apply (Hall pre x post He).
Qed.

(** What one accepted stage satisfies. *)
Lemma preprocessing_ok (path : string) (m : ModelManifest) (s : StageSpec) :
  validate_preprocessing path (preprocessing s) = Ok tt -> validate_sidecars m s = Ok tt ->
  (forall step f, step ∈ preprocessing s -> preprocessing_sidecar step = Some f ->
    safe_file path f /\ exists a, artifact_by_file m f = Some a /\ art_kind a = Sidecar) /\
  (forall lo hi, Clip lo hi ∈ preprocessing s -> is_finite lo = true /\ is_finite hi = true /\ fgt lo hi = false).
Proof.
  unfold validate_preprocessing, validate_sidecars. rewrite !each_ok, !Forall_forall. intros Hp Hs. split.
  - intros step f Hin Hf. specialize (Hp _ Hin). specialize (Hs _ Hin). rewrite Hf in Hs. split.
    + destruct step; try done; injection Hf as ->; apply res_bind_ok in Hp as ([] & H1 & H2); by apply artifact_path_safe.
    + destruct (artifact_by_file m f) as [a|]; [|done]. exists a. split; [done|].
      apply reject_if_ok, bool_decide_eq_false in Hs. by apply dec_stable.
  - intros lo hi Hin. specialize (Hp _ Hin). apply reject_if_ok in Hp. apply orb_false_iff in Hp as [[H1%negb_false_iff H2%negb_false_iff]%orb_false_iff H3].
    done.
Qed.

Lemma heads_ok (l : list OutputHeadSpec) : validate_outputs l = Ok tt -> NoDup (map head_name l) /\ NoDup (map index l).
Proof.
  unfold validate_outputs. intros Hok.
  assert (forall pre x post, l = (pre ++ x :: post)%list -> head_name x ∉ map head_name pre /\ index x ∉ map index pre) as Hall.
  { refine (each_seen_ok (fun pre seen => (forall k, k ∈ seen.1 <-> k ∈ map head_name pre) /\ (forall k, k ∈ seen.2 <-> k ∈ map index pre))
      _ _ _ _ _ _ Hok); [|by cbn].
    intros pre [names idx] x s' [Hi Hx]. destruct (blank _); [done|]. destruct (bool_decide _); [done|]. cbn [fst snd] in *.
    rewrite res_bind_ok. intros ([] & _ & Hr). destruct (is_in (head_name x) names) eqn:Hn; [done|].
    destruct (existsb (Z.eqb (index x)) idx) eqn:He; [done|]. apply res_bind_ok in Hr as (_ & _ & Hr). apply res_bind_ok in Hr as (_ & _ & [= <-]). cbn [fst snd].
    split; [split|split].
    - rewrite <- Hi. intros Hin%is_in_spec. congruence.
    - rewrite <- Hx. intros Hin%list_elem_of_In. apply not_true_iff_false in He. apply He, existsb_exists. exists (index x). by rewrite Z.eqb_refl.
    - intros k. rewrite map_app, elem_of_cons, elem_of_app, Hi. cbn. rewrite list_elem_of_singleton. tauto.
    - intros k. rewrite map_app, elem_of_cons, elem_of_app, Hx. cbn. rewrite list_elem_of_singleton. tauto. }
  split; apply nodup_by_prefix; intros pre x post He; by apply (Hall pre x post He).
Qed.
Lemma inputs_distinct (s : StageSpec) : validate_stage_inputs s = Ok tt -> NoDup (map in_name (inputs s)).
Proof.
  unfold validate_stage_inputs. apply each_seen_nodup. intros seen x s'. destruct (blank _); [done|].
  destruct (is_in (in_name x) seen) eqn:Hn; [done|]. intros (_ & _ & [= <-])%res_bind_ok. split; [|done]. intros Hx%is_in_spec. congruence.
Qed.

Lemma stages_ok (path : string) (m : ModelManifest) :
  validate_stages path m = Ok tt -> artifacts m <> [] ->
  NoDup (map st_id (stages m)) /\
  Forall (fun s => stage_files_ok path m s /\
    (NoDup (map head_name (output_heads s)) /\ output_heads s <> [] /\ inputs s <> []) /\
    (NoDup (map index (output_heads s)) /\ NoDup (map in_name (inputs s))) /\
    forall lo hi, Clip lo hi ∈ preprocessing s -> is_finite lo = true /\ is_finite hi = true /\ fgt lo hi = false) (stages m).
Proof.
  intros Hok Hart. split.
  - revert Hok. apply each_seen_nodup. intros seen x s'. destruct (blank _); [done|].
    destruct (is_in (st_id x) seen) eqn:Hn; [done|]. repeat setoid_rewrite res_bind_ok.
    intros (? & _ & ? & _ & ? & _ & ? & _ & ? & _ & ? & _ & ? & _ & ? & _ & ? & _ & ? & _ & [= <-]).
    split; [|done]. intros Hx%is_in_spec. congruence.
  - revert Hok. apply each_seen_all. intros seen x s'. destruct (blank _); [done|]. destruct (is_in _ _); [done|].
    repeat setoid_rewrite res_bind_ok.
    intros ([] & H1 & [] & H2 & [] & H3%reject_if_ok & [] & H4%reject_if_ok & [] & H5%reject_if_ok & [] & H6%reject_if_ok
            & [] & Hins & [] & H7 & [] & H8 & [] & H9 & _).
    destruct (preprocessing_ok path m x H7 H8) as [Hside Hclip]. apply heads_ok in H9 as [Hnames Hindex]. split; [|split; [|split; [split; [exact Hindex|by apply inputs_distinct]|exact Hclip]]].
    + split; [by apply artifact_path_safe|split; [|exact Hside]]. rewrite bool_decide_eq_false_2 in H3 by done. cbn in H3.
      apply negb_false_iff, is_in_spec, list_elem_of_fmap in H3 as (a & Hf & Ha).
      destruct (artifact_by_file m (model_file x)) as [b|] eqn:Hb.
      * exists b. split; [done|]. apply bool_decide_eq_false in H4. by apply dec_stable.
      * apply list_elem_of_In in Ha. pose proof (List.find_none _ _ Hb a Ha) as Hn. cbn in Hn. by rewrite Hf, String.eqb_refl in Hn.
    + split_and!; [exact Hnames| |]; by intros ?; destruct (output_heads x), (inputs x).
Qed.

Lemma attack_ok (m : ModelManifest) (a : AttackMappingSpec) : validate_attack_mapping m a = Ok tt -> attack_resolves m a.
Proof.
  destruct a as [output ex|label]; cbn [validate_attack_mapping attack_resolves].
  - intros ([o h] & Hf & Hr)%res_bind_ok. apply reject_if_ok, orb_false_iff in Hr as [H1%negb_false_iff H2%negb_false_iff].
    exists o, h. split_and!; [done|done|]. by destruct (role o).
  - intros Hr%reject_if_ok%negb_false_iff. apply existsb_exists in Hr as ([k spec] & Hin%list_elem_of_In & He). by exists k, spec.
Qed.
Lemma rules_ok (m : ModelManifest) :
  validate_detection_rules m = Ok tt ->
  NoDup (map rule_id (detection_rules m)) /\ Forall (rule_resolves m) (detection_rules m).
Proof.
  unfold validate_detection_rules. destruct (detection_rules m) as [|r0 l] eqn:Er; [done|]. rewrite <- Er. clear r0 l Er.
  intros Hok. split.
  - revert Hok. apply each_seen_nodup. intros seen r s'. destruct (blank _); [done|].
    destruct (is_in (rule_id r) seen) eqn:Hn; [done|]. intros (_ & _ & [= <-])%res_bind_ok. split; [|done].
    intros Hx%is_in_spec. congruence.
  - revert Hok. apply each_seen_all. intros seen r s'. destruct (blank _); [done|]. destruct (is_in _ _); [done|].
    intros ([] & Hr & _)%res_bind_ok. revert Hr. destruct r as [id output attack|id output attack];
      cbn [validate_detection_rule rule_resolves]; repeat setoid_rewrite res_bind_ok;
      intros ([o h] & Hf & [] & Hs%reject_if_ok & [] & Ht%reject_if_ok & Ha%attack_ok); cbn [snd] in *; exists o, h.
    + revert Ht. destruct (threshold h) as [t|]; [|done]. by exists t.
    + apply negb_false_iff in Hs. revert Ht. destruct (min_confidence h) as [t|]; [|done]. by exists t.
Qed.
Lemma outputs_ok (m : ModelManifest) : validate_pipeline_outputs m = Ok tt -> NoDup (map output_reference (outputs m)).
Proof.
  apply each_seen_nodup. intros seen o s'. destruct (stage_by_id _ _) as [s|]; [|done]. destruct (negb _); [done|].
  destruct (match alias o with Some _ => _ | None => _ end); [done|].
  cbv zeta. destruct (is_in (output_reference o) seen) eqn:Hn; [done|]. intros (_ & _ & [= <-])%res_bind_ok. split; [|done].
  intros Hx%is_in_spec. congruence.
Qed.

Lemma validate_sound (path : string) (m : ModelManifest) : validate path m = Ok tt -> sound_manifest path m.
Proof.
  intros (Ha & Hs & _ & Hf & Ho & _ & Hr)%validate_ok.
  pose proof (artifacts_distinct _ _ Ha) as Hartids. apply artifacts_ok in Ha as [Hsafe Hart]. apply stages_ok in Hs as [Hids Hst]; [|done].
  apply rules_ok in Hr as [Hrid Hrules]. apply outputs_ok in Ho. rewrite Forall_forall in Hst.
  constructor; [| |done| | | |intros s lo hi Hin; by apply Hst|done].
  - apply stage_features_ok in Hf as (l & Hl & Hav). exists l. pose proof (topological_stages_spec m) as Hspec.
    rewrite Hl in Hspec. destruct Hspec as [Hperm Hdeps]. split; [done|]. split; [done|]. split; [done|].
    intros pre s post Heq. split; [by eapply Hav|]. intros Hclear.
    assert (forall x, x ∈ l -> x ∈ stages m) as Hsub by (intros x; by rewrite Hperm).
    apply clear_inputs_produced with m; [done| | |by eapply Hav].
    + intros x Hx. apply Hsub. rewrite Heq, elem_of_app. by left.
    + apply Hsub. rewrite Heq, elem_of_app. right. by left.
  - destruct Hartids. by split_and!.
  - apply Forall_forall. intros s Hin. by apply Hst.
  - apply Forall_forall. intros s Hin. by apply Hst.
  - apply Forall_forall. intros s Hin. by apply Hst.
Qed.

(** C36: An accepted manifest can be run: its stages have an order in which each comes after
    what it depends on and the key of every input is that of a known feature or of an
    earlier output, and, where the keys say which (no name of a stage, head or input has a
    dot or is taken for the other), every input is a known feature or a head of an earlier
    stage.  Artifacts, their files, stages, heads, inputs, rules and output references are
    distinct; every model and scaler file is declared with its kind and stays below the
    manifest's directory without being the manifest; clip ranges are ordered; and every
    detection rule finds its output, of the shape it compares and with its bound, and its
    label. *)
Theorem accepted_manifest_is_sound (path : string) (m : ModelManifest) :
  validate path m = Ok tt -> sound_manifest path m.
Proof. apply validate_sound. Qed.

(** ** The shipped manifest

    src/models/manifest.yaml *)

Definition feature_input (name : string) : StageInputSpec := mk_input name Feature None None.
Definition shipped_features : list StageInputSpec := map feature_input
  ["flow_duration"; "fwd_packets"; "bwd_packets"; "fwd_bytes"; "bwd_bytes"; "flow_bytes_per_sec";
   "flow_pkts_per_sec"; "fwd_win_bytes"; "bwd_win_bytes"; "fwd_pkt_len_mean"; "bwd_pkt_len_mean"; "fwd_iat_mean";
   "bwd_iat_mean"; "flow_iat_mean"; "pkt_len_mean"; "dst_port"; "protocol"; "psh_flag_cnt"; "ack_flag_cnt";
   "syn_flag_cnt"; "fin_flag_cnt"; "rst_flag_cnt"; "pkt_len_std"; "fwd_pkt_len_std"; "bwd_pkt_len_std";
   "fwd_seg_size_min"; "fwd_act_data_pkts"; "fwd_iat_std"; "bwd_iat_std"; "fwd_bwd_bytes_ratio"; "iat_cv"].
Definition anomaly_detector : StageSpec :=
  mk_stage "anomaly_detector" Autoencoder "deep_autoencoder.onnx" [] shipped_features
    [StandardScaler "inference_config.json"; Clip (f32_of_Z (-5)) (f32_of_Z 5)]
    [mk_head "ae_anomaly_score" 0 ["1"] SemAnomalyScore (Some (f32_of_ratio 23011694848537445 (10 ^ 17))) None].
Definition classifier : StageSpec :=
  mk_stage "classifier" Classifier "classifier.onnx" ["anomaly_detector"]
    (mk_input "ae_anomaly_score" StageOutput (Some "anomaly_detector") (Some "ae_anomaly_score") :: shipped_features) []
    [mk_head "anomaly" 0 ["1"] SemBinary (Some (f32_of_ratio 9179317355155945 (10 ^ 16))) None;
     mk_head "class_probs" 1 ["10"] SemMulticlass None (Some (f32_of_ratio 4 10));
     mk_head "c2_score" 2 ["1"] SemBinary (Some (f32_of_ratio 9085615873336792 (10 ^ 16))) None].
Definition shipped_manifest : ModelManifest := {|
  mf_name := "netguardia-v1"; mf_version := 1; mf_runtime := mk_runtime "dag" "Normal";
  artifacts := [mk_artifact "anomaly_detector_onnx" "deep_autoencoder.onnx" Onnx;
                mk_artifact "classifier_onnx" "classifier.onnx" Onnx;
                mk_artifact "preprocessing_sidecar" "inference_config.json" Sidecar];
  stages := [anomaly_detector; classifier];
  outputs := [mk_output "anomaly_detector" "ae_anomaly_score" (Some "ae_anomaly_score") AnomalyScore;
              mk_output "classifier" "anomaly" (Some "anomaly") BinaryScore;
              mk_output "classifier" "class_probs" (Some "class_probs") ClassProbabilities;
              mk_output "classifier" "c2_score" (Some "c2_score") C2Score];
  detection_rules := [Threshold "classifier_anomaly_threshold" "anomaly" (PredictedClass "class_probs" true);
                      ClassConfidence "class_confidence" "class_probs" (PredictedClass "class_probs" true);
                      Threshold "c2_threshold" "c2_score" (FixedLabel "C2 Communication")];
  labels := [("0", mk_label "Bot" (Some 1) None); ("1", mk_label "Brute Force" None None);
             ("2", mk_label "C2 Communication" (Some 1) None); ("3", mk_label "DNS Tunneling" (Some 1) None);
             ("4", mk_label "DoS/DDoS" (Some 2) None); ("5", mk_label "Exploitation" (Some 1) None);
             ("6", mk_label "Malware" None None); ("7", mk_label "Normal" None None);
             ("8", mk_label "Reconnaissance" None None); ("9", mk_label "Web Attack" None None)];
  alert_rules := [mk_alert_rule "anomaly > threshold" "anomaly";
                  mk_alert_rule "class_probs.argmax != Normal AND class_probs.max > min_confidence" "class_probs"] |}.

Lemma shipped_manifest_accepted : validate "models/manifest.yaml" shipped_manifest = Ok tt.
Proof. vm_compute. reflexivity. Qed.

Lemma accepted_manifest_is_sound_witness :
  sound_manifest "models/manifest.yaml" shipped_manifest /\ clear_names shipped_manifest = true /\
  topological_stages shipped_manifest = Ok [anomaly_detector; classifier].
Proof.
  split; [|split; vm_compute; reflexivity]. apply accepted_manifest_is_sound. vm_compute. reflexivity.
Defined.

(** ** What validation does not see *)

Definition with_stages (l : list StageSpec) : ModelManifest :=
  let m := shipped_manifest in
  mk_manifest (mf_name m) (mf_version m) (mf_runtime m) (artifacts m) l (outputs m) (detection_rules m) (labels m) (alert_rules m).
Definition add_input (i : StageInputSpec) (s : StageSpec) : StageSpec :=
  mk_stage (st_id s) (st_kind s) (model_file s) (depends_on s) (i :: inputs s) (preprocessing s) (output_heads s).
Definition reader (i : StageInputSpec) : StageSpec :=
  mk_stage "reader" Generic "classifier.onnx" ["classifier"] [i] [] [mk_head "out" 0 ["1"] SemRegression None None].

(** The name of an earlier output passes for a feature, which reads as zero. *)
Lemma output_key_passes_for_a_feature :
  let name := "anomaly_detector.ae_anomaly_score" in
  validate "models/manifest.yaml" (with_stages [anomaly_detector; classifier; reader (feature_input name)]) = Ok tt /\
  feature_is_known name = false.
Proof. split; vm_compute; reflexivity. Qed.

(** A stage may read a matrix, which the runner does not pass on. *)
Lemma matrix_input_is_accepted :
  validate "models/manifest.yaml"
    (with_stages [anomaly_detector; classifier; reader (mk_input "p" StageOutput (Some "classifier") (Some "class_probs"))]) = Ok tt.
Proof. vm_compute. reflexivity. Qed.

(** A reference may name an output by a stage and an output that do not exist, when
    the two names joined by a dot are those of another. *)
Lemma dotted_names_are_confused :
  let s := mk_stage "a.b" Generic "classifier.onnx" [] [feature_input "protocol"] [] [mk_head "c" 0 ["1"] SemRegression None None] in
  validate "models/manifest.yaml"
    (with_stages [s; anomaly_detector; classifier; reader (mk_input "p" StageOutput (Some "a") (Some "b.c"))]) = Ok tt.
Proof. vm_compute. reflexivity. Qed.

(** ... and a reference to a stage that does not exist, when its key is the name of a
    feature. *)
Lemma feature_name_passes_for_an_output :
  let i := mk_input "p" StageOutput (Some "Fwd Header Length") (Some "1") in
  validate "models/manifest.yaml" (with_stages [anomaly_detector; classifier; reader i]) = Ok tt /\
  stage_by_id (with_stages [anomaly_detector; classifier; reader i]) "Fwd Header Length" = None.
Proof. split; vm_compute; reflexivity. Qed.
