(* ===== verification/Onnx.v ===== *)
(** * The model runtime

    What the inference pipeline asks of a loaded model (interface
    [ModelRuntime], interface/detection/model_runtime.rs) and its implementation
    on ONNX plans (adapter/model_loading/onnx_runtime.rs).  The plan itself and the
    order in which an array row is summed are the ONNX library's. *)

From Stdlib Require Import ZArith Lia List String.
From Corelib Require Import SpecFloat.
From stdpp Require Import base list gmap strings.
From S2P Require Import Prelude RStr Float Features Manifest.

Local Open Scope Z_scope.

(** How a run can end other than with a value: an error, a panic, or not at all. *)
Inductive Fault : Type := Failed | Panicked | Looping.
#[export] Instance Fault_eq_dec : EqDecision Fault.
Proof. solve_decision. Defined.

(** [iter().map(f).collect::<Result<Vec<_>, _>>()] *)
Fixpoint try_map {E A B} (f : A -> result E B) (l : list A) : result E (list B) :=
  match l with
  | [] => Ok []
  | x :: l => let? y := f x in let? ys := try_map f l in Ok (y :: ys)
  end.

Lemma try_map_ok {E A B} (f : A -> result E B) (l : list A) (ys : list B) :
  try_map f l = Ok ys <-> Forall2 (fun x y => f x = Ok y) l ys.
Proof.
  revert ys. induction l as [|x l IH]; intros ys; cbn.
  - split; [intros [= <-]; constructor|intros H; by inversion H].
  - split.
    + destruct (f x) as [y|] eqn:Hy; [|done]. cbn. destruct (try_map f l) as [zs|]; [|done]. cbn.
      intros [= <-]. constructor; [done|]. by apply IH.
    + intros H. inversion H as [|? y ? zs Hy Hs]; subst. rewrite Hy. cbn. apply IH in Hs. by rewrite Hs.
Qed.

Lemma try_map_length {E A B} (f : A -> result E B) (l : list A) (ys : list B) : try_map f l = Ok ys -> length ys = length l.
Proof. intros H. apply try_map_ok in H. symmetry. by eapply Forall2_length. Qed.

Lemma try_map_total {E A B} (f : A -> result E B) (l : list A) :
  (forall x, x ∈ l -> exists y, f x = Ok y) -> exists ys, try_map f l = Ok ys.
Proof.
  induction l as [|x l IH]; intros H; [by exists []|]. cbn.
  destruct (H x (list_elem_of_here _ _)) as [y ->]. cbn.
  destruct IH as [ys ->]; [intros z Hz; apply H; by right|]. by exists (y :: ys).
Qed.

(** ** The interface *)

Inductive RuntimeTensor : Type :=
  | Scalar (name : string) (values : list float)
  | Matrix (name : string) (rows : list (list float)).

(** [ModelRuntime::run_stage_batch]: rows, batch size, features, kind of stage and
    the outputs wanted. *)
Abbreviation ModelRuntime :=
  (list (list float) -> nat -> nat -> StageKind -> list OutputHeadSpec -> result Fault (list RuntimeTensor)).

(** Which outputs come as rows rather than as numbers. *)
Definition head_is_matrix (kind : StageKind) (h : OutputHeadSpec) : bool :=
  match kind with Autoencoder => false | _ => output_semantic_is_matrix (semantic h) end.

Definition tensor_for (kind : StageKind) (n : nat) (h : OutputHeadSpec) (t : RuntimeTensor) : Prop :=
  match t with
  | Scalar name values => name = head_name h /\ head_is_matrix kind h = false /\ length values = n
  | Matrix name rows => name = head_name h /\ head_is_matrix kind h = true /\ length rows = n
  end.

(** What the pipeline relies on: a successful run has one tensor for every output, in
    their order, each with one entry for every row. *)
Class Delivers (rt : ModelRuntime) : Prop :=
  delivers : forall rows batch_size n_features kind heads ts,
    rt rows batch_size n_features kind heads = Ok ts -> Forall2 (tensor_for kind (length rows)) heads ts.

(** ** ONNX plans *)

(** A tensor of a plan's result: its element type, shape and elements in order. *)
Record OnnxTensor : Type := mk_tensor { is_f32 : bool; dims : list nat; elems : list float; contiguous : bool }.
Abbreviation OnnxRunnableModel := (list (list float) -> result Fault (list OnnxTensor)).

(** The sum of an array row. *)
Class RowSum : Type := row_sum : list float -> float.

Definition validate_batch_shape (row_count batch_size n_features : nat) : result Fault unit :=
  if (n_features =? 0)%nat then Err Failed else if (batch_size <? row_count)%nat then Err Failed else Ok tt.

Definition padded_input (rows : list (list float)) (batch_size n_features : nat) : result Fault (list (list float)) :=
  let? _ := validate_batch_shape (length rows) batch_size n_features in
  if existsb (fun row => (length row <? n_features)%nat) rows then Err Failed
  else Ok (map (take n_features) rows ++ replicate (batch_size - length rows) (replicate n_features fzero))%list.

Definition output_at (outputs : list OnnxTensor) (index : Z) : result Fault OnnxTensor :=
  match outputs !! Z.to_nat index with Some t => Ok t | None => Err Failed end.
(** [to_array_view::<f32>] *)
Definition array_view (t : OnnxTensor) : result Fault OnnxTensor := if is_f32 t then Ok t else Err Failed.
(** [into_dimensionality::<Ix2>] and the rows of such a view. *)
Definition matrix_dims (t : OnnxTensor) : result Fault (nat * nat) :=
  match dims t with [r; c] => Ok (r, c) | _ => Err Failed end.
Definition matrix_row (cols : nat) (t : OnnxTensor) (i : nat) : list float := take cols (drop (i * cols) (elems t)).

Definition ensure_finite_values (values : list float) : result Fault unit :=
  if existsb (fun v => negb (is_finite v)) values then Err Failed else Ok tt.

Definition collect_scalar_head (outputs : list OnnxTensor) (index : Z) (row_count : nat) : result Fault (list float) :=
  let? t := output_at outputs index in
  let? view := array_view t in
  if negb (contiguous view) then Err Failed
  else if (length (elems view) <? row_count)%nat then Err Failed
  else
    let? _ := ensure_finite_values (take row_count (elems view)) in
    Ok (take row_count (elems view)).

Definition collect_matrix_rows (view : OnnxTensor) (row_count : nat) : result Fault (list (list float)) :=
  let? d := matrix_dims view in
  let '(nrows, ncols) := d in
  if (nrows <? row_count)%nat then Err Failed
  else try_map (fun i =>
    let row := matrix_row ncols view i in
    let? _ := ensure_finite_values row in Ok row) (seq 0 row_count).

Definition ensure_autoencoder_output_shape (output_dim input_dim : nat * nat) : result Fault unit :=
  if bool_decide (output_dim = input_dim) then Ok tt else Err Failed.

Section Plan.
Context `{Sum : RowSum}.

(** The mean squared difference between each row and its reconstruction. *)
Definition run_autoencoder_input (model : OnnxRunnableModel) (input : list (list float)) (row_count n_features : nat) :
    result Fault (list float) :=
  let? result := model input in
  let? t := output_at result 0 in
  let? output := array_view t in
  let? dim := matrix_dims output in
  let? _ := ensure_autoencoder_output_shape dim (length input, n_features) in
  let? _ := ensure_finite_values (elems output) in
  let diff := imap (fun i row => zip_with f32_sub row (matrix_row n_features output i)) input in
  let sq := map (map (fun d => f32_mul d d)) diff in
  try_map (fun i =>
    match sq !! i with
    | Some row => Ok (f32_div (row_sum row) (f32_of_Z (Z.of_nat n_features)))
    | None => Err Panicked
    end) (seq 0 row_count).

Definition run_autoencoder_stage_input (model : OnnxRunnableModel) (input : list (list float)) (row_count n_features : nat)
    (output_heads : list OutputHeadSpec) : result Fault (list RuntimeTensor) :=
  let? scores := run_autoencoder_input model input row_count n_features in
  Ok (map (fun head => Scalar (head_name head) scores) output_heads).

Definition run_generic_stage_input (model : OnnxRunnableModel) (input : list (list float)) (row_count : nat)
    (output_heads : list OutputHeadSpec) : result Fault (list RuntimeTensor) :=
  let? result := model input in
  try_map (fun head =>
    if output_semantic_is_matrix (semantic head) then
      let? t := output_at result (index head) in
      let? view := array_view t in
      let? rows := collect_matrix_rows view row_count in
      Ok (Matrix (head_name head) rows)
    else
      let? values := collect_scalar_head result (index head) row_count in
      Ok (Scalar (head_name head) values)) output_heads.

Definition run_stage_batch (model : OnnxRunnableModel) : ModelRuntime :=
  fun rows batch_size n_features stage_kind output_heads =>
    let? input := padded_input rows batch_size n_features in
    match stage_kind with
    | Autoencoder => run_autoencoder_stage_input model input (length rows) n_features output_heads
    | Classifier | Generic => run_generic_stage_input model input (length rows) output_heads
    end.

(** ** The implementation keeps the interface's promise *)

Lemma autoencoder_scores_length model input row_count n_features scores :
  run_autoencoder_input model input row_count n_features = Ok scores -> length scores = row_count.
Proof.
  unfold run_autoencoder_input. intros H.
  repeat (apply res_bind_inv in H as (? & _ & H)). apply try_map_length in H. by rewrite length_seq in H.
Qed.

Lemma collect_scalar_length outputs i row_count values :
  collect_scalar_head outputs i row_count = Ok values ->
  length values = row_count /\ Forall (fun v => is_finite v = true) values.
Proof.
  unfold collect_scalar_head. intros H.
  apply res_bind_inv in H as (t & _ & H). apply res_bind_inv in H as (v & _ & H).
  destruct (negb _); [done|]. destruct (_ <? _)%nat eqn:Hlt; [done|].
  apply res_bind_inv in H as ([] & Hf & H). simplify_eq. apply Nat.ltb_ge in Hlt. split; [rewrite length_take; lia|].
  unfold ensure_finite_values in Hf. destruct (existsb _ _) eqn:He; [done|].
  apply Forall_forall. intros x Hx. destruct (is_finite x) eqn:Hfx; [done|].
  exfalso. apply not_true_iff_false in He. apply He, existsb_exists. exists x. rewrite Hfx. split; [by apply list_elem_of_In|done].
Qed.

Lemma collect_matrix_length view row_count rows : collect_matrix_rows view row_count = Ok rows -> length rows = row_count.
Proof.
  unfold collect_matrix_rows. intros H. apply res_bind_inv in H as ([r c] & _ & H).
  destruct (_ <? _)%nat; [done|]. apply try_map_length in H. by rewrite length_seq in H.
Qed.

Lemma generic_heads_delivered model input row_count heads ts (kind : StageKind) :
  kind <> Autoencoder -> run_generic_stage_input model input row_count heads = Ok ts ->
  Forall2 (tensor_for kind row_count) heads ts.
Proof.
  intros Hk H. apply res_bind_inv in H as (outs & _ & H). apply try_map_ok in H. eapply Forall2_impl; [exact H|]. clear H.
  assert (forall h, head_is_matrix kind h = output_semantic_is_matrix (semantic h)) as Hm by (intros h; by destruct kind).
  cbn. intros h t. destruct (output_semantic_is_matrix (semantic h)) eqn:He; intros H.
  - apply res_bind_inv in H as (? & _ & H). apply res_bind_inv in H as (? & _ & H).
    apply res_bind_inv in H as (rs & Hr & H). simplify_eq. apply collect_matrix_length in Hr. cbn. by rewrite Hm.
  - apply res_bind_inv in H as (vs & Hv & H). simplify_eq. apply collect_scalar_length in Hv as [Hv _]. cbn. by rewrite Hm.
Qed.

#[export] Instance onnx_delivers (model : OnnxRunnableModel) : Delivers (run_stage_batch model).
Proof.
  intros rows b n kind heads ts H. apply res_bind_inv in H as (input & _ & H).
  destruct kind; [|by eapply generic_heads_delivered; [|exact H]..].
  apply res_bind_inv in H as (scores & Hs & H). apply autoencoder_scores_length in Hs. simplify_eq.
  apply Forall2_fmap_r, Forall_Forall2_diag, Forall_forall. by intros h _.
Qed.
End Plan.
