(* ===== verification/Inference.v ===== *)
(** * The inference pipeline

    A loaded model at work: preprocessing of features, the run of the stages in
    chunks, the rules that turn outputs into detections (core/inference/runner.rs,
    model_adapter.rs, model_loader.rs), and the circuit breaker around them.  The
    natural logarithm is the platform's. *)

From Stdlib Require Import ZArith Lia List Ascii String.
From Corelib Require Import SpecFloat.
From stdpp Require Import base list gmap strings.
From S2P Require Import Prelude Abi RStr Float IpAddr Event FlowTracker Features Manifest Onnx.

Local Open Scope string_scope.
Local Open Scope Z_scope.

(** ** Parameters of the preprocessing (domain/detection/ml_inference_config.rs) *)

Record ClipParams : Type := mk_clip { clip_lower : float; clip_upper : float }.
Record MinMaxParams : Type := mk_minmax { mm_min : float; mm_max : float }.
Record RobustParams : Type := mk_robust { center : float; scale : float }.
Record QuantileParams : Type := mk_quantile { values : list float; quantiles : list float }.
Record MLInferenceConfig : Type := mk_inference_config {
  ae_feature_names : list string; ae_clip_params : gmap string ClipParams;
  ae_scaler_mean : list float; ae_scaler_std : list float;
  ae_post_clip_min : float; ae_post_clip_max : float; classifier_feature_names : list string;
  minmax_params : gmap string MinMaxParams; robust_params : gmap string RobustParams;
  quantile_params : gmap string QuantileParams }.
Definition num_ae_features (c : MLInferenceConfig) : nat := length (ae_feature_names c).

Abbreviation scalar_map := (gmap string (list float)).
Abbreviation matrix_map := (gmap string (list (list float))).

(** [f64::ln] *)
Class Ln : Type := ln : float -> float.

(** ** Preprocessing *)

(** The search of [quantile_transform] behind the point [(low_value, low_quantile)]. *)
Fixpoint quantile_loop (value low_value low_quantile : float) (values quantiles : list float) : float :=
  match values, quantiles with
  | high_value :: values, high_quantile :: quantiles =>
      if fle value high_value then
        let span := f64_sub high_value low_value in
        if fle span fzero then high_quantile
        else
          let ratio := f64_div (f64_sub value low_value) span in
          f64_add low_quantile (f64_mul ratio (f64_sub high_quantile low_quantile))
      else quantile_loop value high_value high_quantile values quantiles
  | _, _ => low_quantile
  end.
Definition quantile_transform (value : float) (values quantiles : list float) : result Fault float :=
  if negb (length values =? length quantiles)%nat || (length values <? 2)%nat then Err Failed
  else
    match values, quantiles with
    | v :: values, q :: quantiles => if fle value v then Ok q else Ok (quantile_loop value v q values quantiles)
    | _, _ => Err Panicked
    end.

Section Preprocessing.
Context `{L : Ln} (config : MLInferenceConfig).

Definition apply_preprocessing_step (feature_name : string) (value : float) (step : PreprocessingStep) : result Fault float :=
  match step with
  | StandardScaler _ =>
      let! (idx, _) := list_find (eq feature_name) (ae_feature_names config) else Err Failed in
      let! mean := ae_scaler_mean config !! idx else Err Failed in
      let! std := ae_scaler_std config !! idx else Err Failed in
      Ok (if fgt std fzero then f64_div (f64_sub value mean) std else fzero)
  | MinMaxScaler _ =>
      let! params := minmax_params config !! feature_name else Err Failed in
      let range := f64_sub (mm_max params) (mm_min params) in
      Ok (if fgt range fzero then f64_div (f64_sub value (mm_min params)) range else fzero)
  | RobustScaler _ =>
      let! params := robust_params config !! feature_name else Err Failed in
      Ok (if fgt (scale params) fzero then f64_div (f64_sub value (center params)) (scale params) else fzero)
  | LogTransform offset =>
      let shifted := f64_add value (f64_of_f32 offset) in
      if fle shifted fzero then Err Failed else Ok (ln shifted)
  | Clip min max =>
      (* [clamp] panics unless min <= max *)
      if fle (f64_of_f32 min) (f64_of_f32 max) then Ok (fclamp value (f64_of_f32 min) (f64_of_f32 max)) else Err Panicked
  | Quantile _ =>
      let! params := quantile_params config !! feature_name else Err Failed in
      quantile_transform value (values params) (quantiles params)
  end.

Fixpoint apply_steps (feature_name : string) (value : float) (steps : list PreprocessingStep) : result Fault float :=
  match steps with
  | [] => Ok value
  | step :: steps => let? value := apply_preprocessing_step feature_name value step in apply_steps feature_name value steps
  end.
Definition preprocess_pipeline_feature (flow : FlowSnapshot) (feature_name : string) (steps : list PreprocessingStep) :
    result Fault float :=
  apply_steps feature_name (get (sn_feature_stats flow) feature_name) steps.

(** ** Stages *)

Record PipelineStageAdapter : Type := mk_adapter {
  sa_id : string; sa_kind : StageKind; sa_model : ModelRuntime; sa_batch_size : nat; sa_n_features : nat;
  sa_inputs : list StageInputSpec; sa_preprocessing : list PreprocessingStep; sa_output_heads : list OutputHeadSpec }.

Definition stage_input_value (stage : PipelineStageAdapter) (scalar_outputs : scalar_map) (row_idx : nat)
    (flow : FlowSnapshot) (input : StageInputSpec) : result Fault float :=
  match source input with
  | Feature =>
      let? v := preprocess_pipeline_feature flow (in_name input) (sa_preprocessing stage) in
      Ok (f32_of_f64 v)
  | StageOutput =>
      let! source_stage := in_stage input else Err Failed in
      let! source_output := in_output input else Err Failed in
      let! values := scalar_outputs !! stage_output_key source_stage source_output else Err Failed in
      let! value := values !! row_idx else Err Failed in
      Ok value
  end.
Definition pipeline_stage_rows (stage : PipelineStageAdapter) (flows : list FlowSnapshot) (scalar_outputs : scalar_map) :
    result Fault (list (list float)) :=
  try_map (fun '(row_idx, flow) => try_map (stage_input_value stage scalar_outputs row_idx flow) (sa_inputs stage))
    (imap pair flows).

(** [append_stage_tensors], one tensor *)
Definition append_tensor (acc : scalar_map * matrix_map) (t : RuntimeTensor) : scalar_map * matrix_map :=
  let '(scalars, matrices) := acc in
  match t with
  | Scalar name values => (<[name := (default [] (scalars !! name) ++ values)%list]> scalars, matrices)
  | Matrix name rows => (scalars, <[name := (default [] (matrices !! name) ++ rows)%list]> matrices)
  end.
Definition append_stage_tensors (acc : scalar_map * matrix_map) (tensors : list RuntimeTensor) : scalar_map * matrix_map :=
  fold_left append_tensor tensors acc.

(** The loop over chunks; it never ends when the batch size is zero. *)
Fixpoint stage_chunks (fuel : nat) (stage : PipelineStageAdapter) (rows : list (list float)) (n chunk_start : nat)
    (acc : scalar_map * matrix_map) : result Fault (scalar_map * matrix_map) :=
  match fuel with
  | O => Err Looping
  | S fuel =>
      if (chunk_start <? n)%nat then
        let chunk_end := Nat.min (chunk_start + sa_batch_size stage) n in
        let chunk := take (chunk_end - chunk_start) (drop chunk_start rows) in
        let? tensors := sa_model stage chunk (sa_batch_size stage) (sa_n_features stage) (sa_kind stage) (sa_output_heads stage) in
        stage_chunks fuel stage rows n chunk_end (append_stage_tensors acc tensors)
      else Ok acc
  end.

Record PipelineOutputs : Type := mk_outputs {
  scalars : scalar_map; matrices : matrix_map; thresholds : gmap string float; min_confidences : gmap string float }.

(** The outputs of a finished stage, under their keys. *)
Definition record_head (stage : PipelineStageAdapter) (acc : (scalar_map * matrix_map) * PipelineOutputs) (head : OutputHeadSpec) :
    (scalar_map * matrix_map) * PipelineOutputs :=
  let '(stage_scalars, stage_matrices, po) := acc in
  let key := stage_output_key (sa_id stage) (head_name head) in
  let th := match threshold head with Some t => <[key := t]> (thresholds po) | None => thresholds po end in
  let mc := match min_confidence head with Some t => <[key := t]> (min_confidences po) | None => min_confidences po end in
  match stage_scalars !! head_name head with
  | Some vs => (delete (head_name head) stage_scalars, stage_matrices, mk_outputs (<[key := vs]> (scalars po)) (matrices po) th mc)
  | None =>
      match stage_matrices !! head_name head with
      | Some rows => (stage_scalars, delete (head_name head) stage_matrices,
                      mk_outputs (scalars po) (<[key := rows]> (matrices po)) th mc)
      | None => (stage_scalars, stage_matrices, mk_outputs (scalars po) (matrices po) th mc)
      end
  end.

Definition run_stage (stage : PipelineStageAdapter) (flows : list FlowSnapshot) (po : PipelineOutputs) :
    result Fault PipelineOutputs :=
  let n := length flows in
  let? rows := pipeline_stage_rows stage flows (scalars po) in
  let? tensors := stage_chunks (S n) stage rows n 0 (∅, ∅) in
  Ok (fold_left (record_head stage) (sa_output_heads stage) (tensors, po)).2.
Fixpoint run_stages (stages : list PipelineStageAdapter) (flows : list FlowSnapshot) (po : PipelineOutputs) :
    result Fault PipelineOutputs :=
  match stages with
  | [] => Ok po
  | stage :: stages => let? po := run_stage stage flows po in run_stages stages flows po
  end.
Definition no_outputs : PipelineOutputs := mk_outputs ∅ ∅ ∅ ∅.
End Preprocessing.

(** ** Rules *)

(** [Iterator::max_by] on [partial_cmp]: the last of equal or incomparable items. *)
Definition max_by_key {A} (key : A -> float) (l : list A) : option A :=
  match l with
  | [] => None
  | x :: l => Some (fold_left (fun acc y => if fgt (key acc) (key y) then acc else y) l x)
  end.

Definition argmax (probs : list float) : nat * float :=
  default (0%nat, fzero) (max_by_key snd (imap pair probs)).

Definition pipeline_output_key (outputs : list PipelineOutputSpec) (reference : string) : option string :=
  (fun o => stage_output_key (out_stage o) (out_output o)) <$> List.find (fun o => output_matches_ref o reference) outputs.

Record DetectionScores : Type := mk_scores {
  sc_confidence : float; sc_alert_threshold : float; sc_ae : float; sc_anomaly : float; sc_c2 : float }.

Definition add_score (po : PipelineOutputs) (row_idx : nat) (s : DetectionScores) (output : PipelineOutputSpec) : DetectionScores :=
  let value := scalars po !! stage_output_key (out_stage output) (out_output output) ≫= (fun vs => vs !! row_idx) in
  match role output, value with
  | AnomalyScore, Some v => mk_scores (sc_confidence s) (sc_alert_threshold s) (fmax (sc_ae s) v) (sc_anomaly s) (sc_c2 s)
  | BinaryScore, Some v => mk_scores (sc_confidence s) (sc_alert_threshold s) (sc_ae s) (fmax (sc_anomaly s) v) (sc_c2 s)
  | C2Score, Some v => mk_scores (sc_confidence s) (sc_alert_threshold s) (sc_ae s) (sc_anomaly s) (fmax (sc_c2 s) v)
  | _, _ => s
  end.
Definition detection_scores_from_roles (outputs : list PipelineOutputSpec) (po : PipelineOutputs) (row_idx : nat) : DetectionScores :=
  let s := fold_left (add_score po row_idx) outputs (mk_scores fzero (f32_of_Z 1) fzero fzero fzero) in
  mk_scores (fmax (fmax (sc_ae s) (sc_anomaly s)) (sc_c2 s)) (sc_alert_threshold s) (sc_ae s) (sc_anomaly s) (sc_c2 s).

Record RuleCandidate : Type := mk_candidate { rc_confidence : float; rc_alert_threshold : float; rc_attack_type : CanonicalAttackType }.

Abbreviation label_map := (list (string * LabelSpec)).
Definition label_get (labels : label_map) (key : string) : option LabelSpec :=
  snd <$> List.find (fun kv => String.eqb (fst kv) key) labels.

Definition attack_type_from_mapping (attack : AttackMappingSpec) (outputs : list PipelineOutputSpec) (labels : label_map)
    (normal_label : string) (po : PipelineOutputs) (row_idx : nat) : option CanonicalAttackType :=
  match attack with
  | PredictedClass output exclude_normal =>
      let! key := pipeline_output_key outputs output else None in
      let! row := matrices po !! key ≫= (fun rows => rows !! row_idx) else None in
      let '(predicted_class, _) := argmax row in
      let! label := label_get labels (print_dec (Z.of_nat predicted_class)) else None in
      if exclude_normal && eq_ignore_ascii_case (lb_name label) normal_label then None
      else Some (translate ML (lb_name label))
  | FixedLabel label => Some (translate ML label)
  end.

Definition evaluate_rule (outputs : list PipelineOutputSpec) (labels : label_map) (normal_label : string)
    (po : PipelineOutputs) (row_idx : nat) (rule : DetectionRuleSpec) : option RuleCandidate :=
  match rule with
  | Threshold _ output attack =>
      let! key := pipeline_output_key outputs output else None in
      let! value := scalars po !! key ≫= (fun vs => vs !! row_idx) else None in
      let! threshold := thresholds po !! key else None in
      if fle value threshold then None
      else
        let! attack_type := attack_type_from_mapping attack outputs labels normal_label po row_idx else None in
        Some (mk_candidate value threshold attack_type)
  | ClassConfidence _ output attack =>
      let! key := pipeline_output_key outputs output else None in
      let! row := matrices po !! key ≫= (fun rows => rows !! row_idx) else None in
      let '(_, confidence) := argmax row in
      let! min_confidence := min_confidences po !! key else None in
      if flt confidence min_confidence then None
      else
        let! attack_type := attack_type_from_mapping attack outputs labels normal_label po row_idx else None in
        Some (mk_candidate confidence min_confidence attack_type)
  end.

Definition best_rule_candidate (rules : list DetectionRuleSpec) (outputs : list PipelineOutputSpec) (labels : label_map)
    (normal_label : string) (po : PipelineOutputs) (row_idx : nat) : option RuleCandidate :=
  max_by_key rc_confidence (omap (evaluate_rule outputs labels normal_label po row_idx) rules).

(** ** Results *)

Record DetectionResult : Type := mk_result {
  dr_flow_key : string; dr_flow_key_raw : FlowKey; dr_direction : Direction; dr_is_attack : bool;
  dr_attack_type : option CanonicalAttackType; dr_confidence : float; dr_alert_threshold : float;
  dr_ae_score : float; dr_anomaly_score : float; dr_c2_score : float; dr_packet_count : Z; dr_flow_duration_us : Z }.

Definition ip_bytes_to_string (v : IpVersion) (l : bytes) : string :=
  if is_v6 v then print_ipv6 (from_be_bytes l) else print_ipv4 (from_be_bytes (take 4 l)).
Definition src_ip_string (k : FlowKey) : string := ip_bytes_to_string (fk_ip_version k) (fk_src_ip k).
Definition dst_ip_string (k : FlowKey) : string := ip_bytes_to_string (fk_ip_version k) (fk_dst_ip k).
Definition direction_str (d : Direction) : string := match d with Ingress => "Ingress" | Egress => "Egress" end.

Definition build_flow_key_label (flow : FlowSnapshot) : string :=
  let k := sn_flow_key flow in
  (src_ip_string k ++ ":" ++ print_dec (fk_src_port k) ++ " -> " ++ dst_ip_string k ++ ":" ++ print_dec (fk_dst_port k)
   ++ " (proto " ++ print_dec (fk_protocol k) ++ ") [" ++ direction_str (sn_direction flow) ++ "]")%string.

Definition detection_result (flow : FlowSnapshot) (is_attack : bool) (attack_type : option CanonicalAttackType)
    (scores : DetectionScores) : DetectionResult := {|
  dr_flow_key := if is_attack then build_flow_key_label flow else "";
  dr_flow_key_raw := sn_flow_key flow; dr_direction := sn_direction flow; dr_is_attack := is_attack;
  dr_attack_type := attack_type; dr_confidence := sc_confidence scores; dr_alert_threshold := sc_alert_threshold scores;
  dr_ae_score := sc_ae scores; dr_anomaly_score := sc_anomaly scores; dr_c2_score := sc_c2 scores;
  dr_packet_count := Z.of_nat (sn_packet_count flow); dr_flow_duration_us := sn_duration_us flow |}.

Definition flow_result (outputs : list PipelineOutputSpec) (rules : list DetectionRuleSpec) (labels : label_map)
    (normal_label : string) (po : PipelineOutputs) (idx : nat) (flow : FlowSnapshot) : DetectionResult :=
  let scores := detection_scores_from_roles outputs po idx in
  let candidate := best_rule_candidate rules outputs labels normal_label po idx in
  detection_result flow (bool_decide (is_Some candidate)) (rc_attack_type <$> candidate)
    (mk_scores (default (sc_confidence scores) (rc_confidence <$> candidate))
       (default (f32_of_Z 1) (rc_alert_threshold <$> candidate)) (sc_ae scores) (sc_anomaly scores) (sc_c2 scores)).
Definition pipeline_detection_results (flows : list FlowSnapshot) (outputs : list PipelineOutputSpec)
    (rules : list DetectionRuleSpec) (labels : label_map) (normal_label : string) (po : PipelineOutputs) : list DetectionResult :=
  imap (flow_result outputs rules labels normal_label po) flows.

(** ** Loaded models *)

Record MLModelAdapter : Type := mk_pipeline {
  ad_stages : list PipelineStageAdapter; ad_outputs : list PipelineOutputSpec;
  ad_detection_rules : list DetectionRuleSpec; ad_labels : label_map; ad_normal_label : string }.

Definition confirmations_from_labels (labels : label_map) (attack_type : CanonicalAttackType) : option Z :=
  List.find (fun spec => bool_decide (translate ML (lb_name spec) = attack_type)) (map snd labels) ≫= confirmations.

(** [build_adapter]: [load] gives the runtime of a model file, or why there is none. *)
Definition build_stage (load : string -> nat -> nat -> result Fault ModelRuntime) (batch_size : nat) (stage : StageSpec) :
    result Fault PipelineStageAdapter :=
  let n_features := length (inputs stage) in
  let? runtime := load (model_file stage) n_features batch_size in
  Ok (mk_adapter (st_id stage) (st_kind stage) runtime batch_size n_features (inputs stage) (preprocessing stage) (output_heads stage)).
Definition build_adapter (load : string -> nat -> nat -> result Fault ModelRuntime) (manifest : ModelManifest) (batch_size : nat) :
    result Fault MLModelAdapter :=
  match topological_stages manifest with
  | Err _ => Err Failed
  | Ok ordered =>
      let? stages := try_map (build_stage load batch_size) ordered in
      Ok (mk_pipeline stages (outputs manifest) (detection_rules manifest) (labels manifest) (normal_label (mf_runtime manifest)))
  end.

Record ModelInfo : Type := mk_info {
  mi_name : string; adapter_kind : string; features_count : nat; loaded_at_secs : Z; mi_qps_recent : float }.
(** The time of an error is in seconds since the epoch, or before it. *)
Inductive ModelSourceState : Type :=
  | Dormant
  | Active (adapter : MLModelAdapter) (info : ModelInfo)
  | LoadError (msg : string) (since : Z) (last_attempted_path : option string).
Definition is_active (s : ModelSourceState) : bool := match s with Active _ _ => true | _ => false end.
Inductive ModelSourceStatus : Type :=
  | StatusDormant
  | StatusActive (info : ModelInfo)
  | StatusError (msg : string) (since_secs : Z) (last_attempted_path : option string).
Definition to_status (s : ModelSourceState) : ModelSourceStatus :=
  match s with
  | Dormant => StatusDormant
  | Active _ info => StatusActive info
  | LoadError msg since path => StatusError msg (Z.max 0 since) path
  end.

(** ** The circuit breaker

    The atomics of [Inference]; times are in seconds since the epoch. *)

Inductive Phase : Type := CB_CLOSED | CB_OPEN | CB_HALF_OPEN.
#[export] Instance Phase_eq_dec : EqDecision Phase.
Proof. solve_decision. Defined.

Record CircuitBreakerConfig : Type := mk_breaker_config { cb_threshold : Z; cb_window_secs : Z; cb_cooldown_secs : Z }.
Definition breaker_config_valid (c : CircuitBreakerConfig) : bool := (0 <? cb_threshold c) && (0 <? cb_window_secs c).

Record Breaker : Type := mk_breaker {
  cb_phase : Phase; cb_failure_count : Z; cb_window_start_secs : Z; cb_open_since_secs : Z }.

Record Inference : Type := mk_inference { state : ModelSourceState; qps_recent : Z; breaker : Breaker }.
Definition new_inference (initial_state : ModelSourceState) : Inference := mk_inference initial_state 0 (mk_breaker CB_CLOSED 0 0 0).

Abbreviation infer A := (sm Inference Fault A).
Definition set_breaker (b : Breaker) (w : Inference) : Inference := mk_inference (state w) (qps_recent w) b.

(** Between the load of the phase and the exchange no other task writes it. *)
Definition is_circuit_open (cfg : CircuitBreakerConfig) (now : Z) : infer bool :=
  do! w := sm_get in
  let b := breaker w in
  match cb_phase b with
  | CB_OPEN =>
      let elapsed := saturating_sub now (cb_open_since_secs b) in
      if cb_cooldown_secs cfg <=? elapsed then
        run! sm_modify (set_breaker (mk_breaker CB_HALF_OPEN (cb_failure_count b) (cb_window_start_secs b) (cb_open_since_secs b))) in
        sm_ret false
      else sm_ret true
  | CB_HALF_OPEN => sm_ret true
  | CB_CLOSED => sm_ret false
  end.

Definition record_success : infer unit :=
  do! w := sm_get in
  sm_put (set_breaker (mk_breaker CB_CLOSED 0 0 (cb_open_since_secs (breaker w))) w).

Definition record_failure (cfg : CircuitBreakerConfig) (now : Z) : infer unit :=
  do! w := sm_get in
  let b := breaker w in
  match cb_phase b with
  | CB_OPEN => sm_ret tt
  | CB_HALF_OPEN => sm_put (set_breaker (mk_breaker CB_OPEN (Z.max (cb_threshold cfg) 1) now now) w)
  | CB_CLOSED =>
      let window_start := cb_window_start_secs b in
      let '(count, start) :=
        if (window_start =? 0) || (cb_window_secs cfg <? saturating_sub now window_start)
        then (1, now) else (wrapping_add 32 (cb_failure_count b) 1, window_start) in
      if cb_threshold cfg <=? count then sm_put (set_breaker (mk_breaker CB_OPEN count start now) w)
      else sm_put (set_breaker (mk_breaker CB_CLOSED count start (cb_open_since_secs b)) w)
  end.

Definition swap_state (new_state : ModelSourceState) : infer unit :=
  run! sm_modify (fun w => mk_inference new_state (qps_recent w) (breaker w)) in
  if is_active new_state then record_success else sm_ret tt.

Definition model_source_status (w : Inference) : ModelSourceStatus :=
  match to_status (state w) with
  | StatusActive i => StatusActive (mk_info (mi_name i) (adapter_kind i) (features_count i) (loaded_at_secs i) (f32_of_Z (qps_recent w)))
  | s => s
  end.
Definition confirmations_for_attack_type (attack_type : CanonicalAttackType) (w : Inference) : option Z :=
  match state w with Active a _ => confirmations_from_labels (ad_labels a) attack_type | _ => None end.
Definition attack_type_count (w : Inference) : nat :=
  match state w with Active a _ => length (ad_labels a) | _ => 0%nat end.
Definition record_tick_qps (flows_per_second : float) (w : Inference) : Inference :=
  mk_inference (state w) (f_to_uint 32 (fmax flows_per_second fzero)) (breaker w).

(** ** A batch *)

Section Batch.
Context `{L : Ln} (config : MLInferenceConfig) (cfg : CircuitBreakerConfig).

(** An error of a stage is counted as a failure and gives no results; [t_fail] is
    the time at which it is counted. *)
Definition infer_pipeline (t_fail : Z) (a : MLModelAdapter) (flows : list FlowSnapshot) : infer (list DetectionResult) :=
  match run_stages config (ad_stages a) flows no_outputs with
  | Ok po => sm_ret (pipeline_detection_results flows (ad_outputs a) (ad_detection_rules a) (ad_labels a) (ad_normal_label a) po)
  | Err Failed => run! record_failure cfg t_fail in sm_ret []
  | Err e => sm_fail e
  end.

(** [infer_batch] *)
Definition infer_batch (t_check t_fail : Z) (flows : list FlowSnapshot) : infer (list DetectionResult) :=
  do! open := is_circuit_open cfg t_check in
  if open then sm_ret []
  else
    do! w := sm_get in
    match state w with
    | Active adapter _ =>
        do! outcome := sm_try (infer_pipeline t_fail adapter flows) in
        match outcome with
        | Ok results => run! record_success in sm_ret results
        | Err Panicked => run! record_failure cfg t_fail in sm_ret []
        | Err e => sm_fail e
        end
    | Dormant | LoadError _ _ _ => sm_ret []
    end.
End Batch.

(** ** Outputs of finished stages *)

Section Covers.
Context `{L : Ln} (config : MLInferenceConfig).

(** The entry of an output in the maps of a stage. *)
Definition entry_length (kind : StageKind) (acc : scalar_map * matrix_map) (h : OutputHeadSpec) (k : nat) : Prop :=
  if head_is_matrix kind h
  then acc.1 !! head_name h = None /\ exists rows, acc.2 !! head_name h = Some rows /\ length rows = k
  else exists vs, acc.1 !! head_name h = Some vs /\ length vs = k.
(** ... before anything was appended, too. *)
Definition entry_so_far (kind : StageKind) (acc : scalar_map * matrix_map) (h : OutputHeadSpec) (k : nat) : Prop :=
  if head_is_matrix kind h
  then acc.1 !! head_name h = None /\ length (default [] (acc.2 !! head_name h)) = k
  else length (default [] (acc.1 !! head_name h)) = k.

Lemma append_other (kind : StageKind) (k : nat) heads ts acc (name : string) :
  Forall2 (tensor_for kind k) heads ts -> name ∉ map head_name heads ->
  (append_stage_tensors acc ts).1 !! name = acc.1 !! name /\ (append_stage_tensors acc ts).2 !! name = acc.2 !! name.
Proof.
  intros H. revert acc. induction H as [|h t heads ts Ht _ IH]; intros acc Hn; [done|].
  rewrite map_cons, not_elem_of_cons in Hn. destruct Hn as [Hne Hn].
  change (append_stage_tensors acc (t :: ts)) with (append_stage_tensors (append_tensor acc t) ts).
  destruct (IH (append_tensor acc t) Hn) as [-> ->]. destruct acc as [s m].
  destruct t as [nm vs|nm rows]; destruct Ht as [-> _]; cbn; by rewrite lookup_insert_ne.
Qed.

Lemma append_entry (kind : StageKind) (k : nat) heads ts acc (h : OutputHeadSpec) (k0 : nat) :
  Forall2 (tensor_for kind k) heads ts -> NoDup (map head_name heads) -> h ∈ heads ->
  entry_so_far kind acc h k0 -> entry_length kind (append_stage_tensors acc ts) h (k0 + k).
Proof.
  intros H. revert acc. induction H as [|h' t heads ts Ht Hts IH]; intros acc Hnd Hin He; [by apply elem_of_nil in Hin|].
  rewrite map_cons, NoDup_cons in Hnd. destruct Hnd as [Hn Hnd].
  change (append_stage_tensors acc (t :: ts)) with (append_stage_tensors (append_tensor acc t) ts).
  apply elem_of_cons in Hin as [->|Hin].
  - destruct (append_other kind k heads ts (append_tensor acc t) (head_name h') Hts Hn) as [E1 E2].
    unfold entry_length, entry_so_far in *. rewrite E1, E2. destruct acc as [s m].
    destruct t as [nm vs|nm rows]; destruct Ht as (-> & Hm & <-); rewrite Hm in *; cbn in *; rewrite lookup_insert_eq.
    + eexists. split; [done|]. rewrite length_app. lia.
    + destruct He as [Hs Hr]. split; [done|]. eexists. split; [done|]. rewrite length_app. lia.
  - apply IH; [done|done|]. assert (head_name h <> head_name h') as Hne.
    { intros Heq. apply Hn. rewrite <- Heq. by apply list_elem_of_fmap_2. }
    unfold entry_so_far in *. destruct acc as [s m].
    destruct t as [nm vs|nm rows]; destruct Ht as [-> _]; cbn in *; by rewrite lookup_insert_ne by congruence.
Qed.

Lemma entry_length_so_far kind acc h k : entry_length kind acc h k -> entry_so_far kind acc h k.
Proof.
  unfold entry_length, entry_so_far. destruct (head_is_matrix kind h).
  - intros [-> (rows & -> & <-)]. done.
  - intros (vs & -> & <-). done.
Qed.

(** The chunks of a stage together cover every row, and the loop ends. *)
Lemma stage_chunks_covers (stage : PipelineStageAdapter) (rows : list (list float)) : forall fuel chunk_start acc acc',
  Delivers (sa_model stage) -> NoDup (map head_name (sa_output_heads stage)) -> length rows <> 0%nat ->
  (chunk_start <= length rows)%nat ->
  (forall h, h ∈ sa_output_heads stage ->
     entry_so_far (sa_kind stage) acc h chunk_start /\
     (chunk_start <> 0%nat -> entry_length (sa_kind stage) acc h chunk_start)) ->
  stage_chunks fuel stage rows (length rows) chunk_start acc = Ok acc' ->
  forall h, h ∈ sa_output_heads stage -> entry_length (sa_kind stage) acc' h (length rows).
Proof.
  induction fuel as [|fuel IH]; intros start acc acc' Hd Hnd Hpos Hle Hacc H h Hh; [done|]. cbn [stage_chunks] in H.
  destruct (start <? length rows)%nat eqn:Hlt.
  - apply Nat.ltb_lt in Hlt. apply res_bind_inv in H as (ts & Hts & H).
    apply delivers in Hts. rewrite length_take, length_drop in Hts.
    set (e := Nat.min (start + sa_batch_size stage) (length rows)) in *.
    assert (start <= e <= length rows)%nat as He by lia.
    assert (forall h, h ∈ sa_output_heads stage -> entry_length (sa_kind stage) (append_stage_tensors acc ts) h e) as Hnew.
    { intros h' Hh'. replace e with (start + (e - start) `min` (length rows - start))%nat by lia.
      eapply append_entry; [exact Hts|done|done|]. by apply Hacc. }
    eapply IH; [done|done|done| |exact (fun h' Hh' => conj (entry_length_so_far _ _ _ _ (Hnew h' Hh')) (fun _ => Hnew h' Hh'))|exact H|done].
    lia.
  - apply Nat.ltb_ge in Hlt. simplify_eq. replace (length rows) with start by lia. apply Hacc; [done|lia].
Qed.

Lemma stage_chunks_total (stage : PipelineStageAdapter) (rows : list (list float)) :
  (0 < sa_batch_size stage)%nat ->
  (forall chunk, (length chunk <= sa_batch_size stage)%nat -> Forall (fun row => row ∈ rows) chunk ->
     exists ts, sa_model stage chunk (sa_batch_size stage) (sa_n_features stage) (sa_kind stage) (sa_output_heads stage) = Ok ts) ->
  forall fuel chunk_start acc, (length rows - chunk_start < fuel)%nat ->
  exists acc', stage_chunks fuel stage rows (length rows) chunk_start acc = Ok acc'.
Proof.
  intros Hb Hrun. induction fuel as [|fuel IH]; intros start acc Hf; [lia|]. cbn [stage_chunks].
  destruct (start <? length rows)%nat eqn:Hlt; [|by eexists]. apply Nat.ltb_lt in Hlt.
  edestruct Hrun as [ts ->]; [| |cbn [res_bind]; apply IH; lia].
  - rewrite length_take, length_drop. lia.
  - apply Forall_forall. intros row Hrow. by eapply subseteq_drop, subseteq_take.
Qed.
End Covers.

(** An output under its key, with its bounds. *)
Definition head_recorded (stage : PipelineStageAdapter) (po : PipelineOutputs) (h : OutputHeadSpec) : Prop :=
  let key := stage_output_key (sa_id stage) (head_name h) in
  (if head_is_matrix (sa_kind stage) h then is_Some (matrices po !! key) else is_Some (scalars po !! key)) /\
  (is_Some (threshold h) -> is_Some (thresholds po !! key)) /\
  (is_Some (min_confidence h) -> is_Some (min_confidences po !! key)).

(** Every value has one entry for each of the [n] flows. *)
Record lengths_ok (n : nat) (po : PipelineOutputs) : Prop := {
  lo_scalars : forall k vs, scalars po !! k = Some vs -> length vs = n;
  lo_matrices : forall k rows, matrices po !! k = Some rows -> length rows = n }.

Record grows (po po' : PipelineOutputs) : Prop := {
  gr_scalars : forall k, is_Some (scalars po !! k) -> is_Some (scalars po' !! k);
  gr_matrices : forall k, is_Some (matrices po !! k) -> is_Some (matrices po' !! k);
  gr_thresholds : forall k, is_Some (thresholds po !! k) -> is_Some (thresholds po' !! k);
  gr_min_confidences : forall k, is_Some (min_confidences po !! k) -> is_Some (min_confidences po' !! k) }.

#[export] Instance grows_preorder : PreOrder grows.
Proof.
  split; [by intros po; split|]. intros a b c [] []. split; eauto.
Qed.

Lemma head_recorded_grows stage po po' h : grows po po' -> head_recorded stage po h -> head_recorded stage po' h.
Proof.
  intros [H1 H2 H3 H4] (Ha & Hb & Hc). split; [|split; eauto]. destruct (head_is_matrix _ h); eauto.
Qed.

Lemma insert_is_Some {A} (m : gmap string A) (k j : string) (v : A) : is_Some (m !! j) -> is_Some (<[k := v]> m !! j).
Proof. intros H. destruct (decide (k = j)) as [->|]; [rewrite lookup_insert_eq; by eexists|by rewrite lookup_insert_ne]. Qed.

Lemma insert_all {A} (P : A -> Prop) (m : gmap string A) (k : string) (v : A) :
  (forall j x, m !! j = Some x -> P x) -> P v -> forall j x, <[k := v]> m !! j = Some x -> P x.
Proof. intros Hm Hv j x H. apply lookup_insert_Some in H as [[_ <-]|[_ H]]; eauto. Qed.

Lemma is_Some_opt_insert {A} (o : option A) (m : gmap string A) (k j : string) :
  is_Some (m !! j) -> is_Some (match o with Some t => <[k := t]> m | None => m end !! j).
Proof. intros H. destruct o; [by apply insert_is_Some|done]. Qed.
Lemma is_Some_opt_insert_eq {A} (o : option A) (m : gmap string A) (k : string) :
  is_Some o -> is_Some (match o with Some t => <[k := t]> m | None => m end !! k).
Proof. intros [t ->]. rewrite lookup_insert_eq. by eexists. Qed.

Lemma record_head_ok (stage : PipelineStageAdapter) (n : nat) acc po h :
  lengths_ok n po -> entry_length (sa_kind stage) acc h n ->
  exists acc' po', record_head stage (acc, po) h = (acc', po') /\ lengths_ok n po' /\ grows po po' /\
    head_recorded stage po' h /\
    forall name, name <> head_name h -> acc'.1 !! name = acc.1 !! name /\ acc'.2 !! name = acc.2 !! name.
Proof.
  intros [Hs Hm] He. destruct acc as [ss sm]. unfold record_head, head_recorded, entry_length in *. cbn [fst snd] in *.
  destruct (head_is_matrix (sa_kind stage) h).
  - destruct He as [-> (rows & -> & Hl)]. do 2 eexists. split; [done|]. split; [|split; [|split]]; cbn.
    + split; cbn; [done|]. by apply (insert_all (fun rows => length rows = n)).
    + split; cbn; auto using insert_is_Some, is_Some_opt_insert.
    + split; [rewrite lookup_insert_eq; by eexists|]. split; apply is_Some_opt_insert_eq.
    + intros name Hn. by rewrite lookup_delete_ne.
  - destruct He as (vs & -> & Hl). do 2 eexists. split; [done|]. split; [|split; [|split]]; cbn.
    + split; cbn; [|done]. by apply (insert_all (fun rows => length rows = n)).
    + split; cbn; auto using insert_is_Some, is_Some_opt_insert.
    + split; [rewrite lookup_insert_eq; by eexists|]. split; apply is_Some_opt_insert_eq.
    + intros name Hn. by rewrite lookup_delete_ne.
Qed.

Lemma record_heads_ok (stage : PipelineStageAdapter) (n : nat) : forall heads acc po,
  NoDup (map head_name heads) -> lengths_ok n po ->
  (forall h, h ∈ heads -> entry_length (sa_kind stage) acc h n) ->
  let po' := (fold_left (record_head stage) heads (acc, po)).2 in
  lengths_ok n po' /\ grows po po' /\ forall h, h ∈ heads -> head_recorded stage po' h.
Proof.
  induction heads as [|h heads IH]; intros acc po Hnd Hl He; cbn [fold_left].
  - split; [done|]. split; [done|]. intros h Hh. by apply elem_of_nil in Hh.
  - rewrite map_cons, NoDup_cons in Hnd. destruct Hnd as [Hn Hnd].
    destruct (record_head_ok stage n acc po h Hl (He h (list_elem_of_here _ _))) as (acc' & po' & -> & Hl' & Hg & Hr & Ho).
    destruct (IH acc' po' Hnd Hl') as (Hl2 & Hg2 & Hr2).
    { intros h' Hh'. assert (head_name h' <> head_name h) as Hne.
      { intros Heq. apply Hn. rewrite <- Heq. by apply list_elem_of_fmap_2. }
      specialize (He h' (list_elem_of_further _ _ _ Hh')). unfold entry_length in *.
      destruct (Ho _ Hne) as [-> ->]. done. }
    split; [done|]. split; [by etransitivity|]. intros h' [->|Hh']%elem_of_cons; [|by apply Hr2].
    by eapply head_recorded_grows.
Qed.

(** What holds before the stages that follow [done]. *)
Record covers (n : nat) (done : list PipelineStageAdapter) (po : PipelineOutputs) : Prop := {
  cv_lengths : lengths_ok n po;
  cv_heads : forall st h, st ∈ done -> h ∈ sa_output_heads st -> head_recorded st po h }.

Lemma pipeline_stage_rows_length (config : MLInferenceConfig) `{L : Ln} stage flows so rows :
  pipeline_stage_rows config stage flows so = Ok rows -> length rows = length flows.
Proof. intros H. apply try_map_length in H. by rewrite length_imap in H. Qed.

Lemma run_stage_covers (config : MLInferenceConfig) `{L : Ln} stage flows done po po' :
  Delivers (sa_model stage) -> NoDup (map head_name (sa_output_heads stage)) -> flows <> [] ->
  covers (length flows) done po -> run_stage config stage flows po = Ok po' ->
  covers (length flows) (done ++ [stage]) po'.
Proof.
  intros Hd Hnd Hne [Hl Hh] H. apply res_bind_inv in H as (rows & Hrows & H).
  apply pipeline_stage_rows_length in Hrows. apply res_bind_inv in H as (acc & Hacc & [= <-]). rewrite <- Hrows in *.
  assert (length rows <> 0%nat) as Hpos by (rewrite Hrows; by destruct flows).
  pose proof (stage_chunks_covers stage rows (S (length rows)) 0 (∅, ∅) acc Hd Hnd Hpos ltac:(lia)) as Hcov.
  destruct (record_heads_ok stage (length rows) (sa_output_heads stage) acc po Hnd Hl) as (Hl' & Hg & Hr).
  { apply Hcov; [|exact Hacc]. intros h _. split; [|lia]. unfold entry_so_far. cbn. by destruct (head_is_matrix _ _). }
  split; [done|]. intros st h [Hst| ->%list_elem_of_singleton]%elem_of_app Hh'; [|by apply Hr].
  eapply head_recorded_grows; [exact Hg|by apply Hh].
Qed.

(** ** Accepted manifests run *)

(** Autoencoders have only scores, and stages read only numbers, under keys that are no
    feature's name. *)
Definition scalar_key (m : ModelManifest) (key : string) : bool :=
  forallb (fun s => forallb (fun h => negb (String.eqb (stage_output_key (st_id s) (head_name h)) key)
                                     || negb (output_semantic_is_matrix (semantic h))) (output_heads s)) (stages m).
Definition typed_inputs (m : ModelManifest) : bool :=
  forallb (fun s =>
    (negb (bool_decide (st_kind s = Autoencoder)) || forallb (fun h => negb (output_semantic_is_matrix (semantic h))) (output_heads s))
    && forallb (fun i => match source i, in_stage i, in_output i with
                         | StageOutput, Some st, Some o =>
                             scalar_key m (stage_output_key st o) && negb (feature_is_known (stage_output_key st o))
                         | _, _, _ => true
                         end) (inputs s)) (stages m).

(** A run on a chunk of well-formed rows does not fail. *)
Definition stage_answers (st : PipelineStageAdapter) : Prop :=
  forall rows, (length rows <= sa_batch_size st)%nat -> Forall (fun row => length row = sa_n_features st) rows ->
  exists ts, sa_model st rows (sa_batch_size st) (sa_n_features st) (sa_kind st) (sa_output_heads st) = Ok ts.

Record built (batch_size : nat) (s : StageSpec) (st : PipelineStageAdapter) : Prop := {
  bt_id : sa_id st = st_id s; bt_kind : sa_kind st = st_kind s; bt_batch : sa_batch_size st = batch_size;
  bt_features : sa_n_features st = length (inputs s); bt_inputs : sa_inputs st = inputs s;
  bt_preprocessing : sa_preprocessing st = preprocessing s; bt_heads : sa_output_heads st = output_heads s }.

Lemma build_adapter_ok load m batch_size a :
  build_adapter load m batch_size = Ok a ->
  exists ordered, topological_stages m = Ok ordered /\ Forall2 (built batch_size) ordered (ad_stages a) /\
    ad_outputs a = outputs m /\ ad_detection_rules a = detection_rules m /\ ad_labels a = labels m /\
    ad_normal_label a = normal_label (mf_runtime m).
Proof.
  unfold build_adapter. destruct (topological_stages m) as [ordered|]; [|done].
  intros (sts & Hs & [= <-])%res_bind_inv. exists ordered. split_and!; try done. cbn.
  apply try_map_ok in Hs. eapply Forall2_impl; [exact Hs|]. unfold build_stage.
  by intros s st (rt & _ & [= <-])%res_bind_inv.
Qed.

(** A stage whose inputs are there gets its rows. *)
Lemma pipeline_stage_rows_total `{L : Ln} (config : MLInferenceConfig) (stage : PipelineStageAdapter) flows so :
  (forall k vs, so !! k = Some vs -> length vs = length flows) ->
  (forall i, i ∈ sa_inputs stage ->
     match source i with
     | Feature => forall flow, flow ∈ flows -> exists v, preprocess_pipeline_feature config flow (in_name i) (sa_preprocessing stage) = Ok v
     | StageOutput => exists st o, in_stage i = Some st /\ in_output i = Some o /\ is_Some (so !! stage_output_key st o)
     end) ->
  exists rows, pipeline_stage_rows config stage flows so = Ok rows /\
    Forall (fun row => length row = length (sa_inputs stage)) rows.
Proof.
  intros Hlen Hin. destruct (try_map_total (fun '(row_idx, flow) =>
    try_map (stage_input_value config stage so row_idx flow) (sa_inputs stage)) (imap pair flows)) as [rows Hrows].
  - intros [idx flow] Hif%elem_of_lookup_imap. destruct Hif as (idx' & flow' & [= -> ->] & Hflow).
    apply try_map_total. intros i Hi. specialize (Hin i Hi). unfold stage_input_value. destruct (source i).
    + destruct (Hin flow') as [v ->]; [by eapply list_elem_of_lookup_2|]. cbn. by eexists.
    + destruct Hin as (st & o & -> & -> & vs & Hvs). rewrite Hvs.
      destruct (lookup_lt_is_Some_2 vs idx') as [v ->]; [|by eexists].
      rewrite (Hlen _ _ Hvs). by eapply lookup_lt_Some.
  - exists rows. split; [exact Hrows|]. apply try_map_ok in Hrows. apply Forall_forall. intros row Hrow.
    apply list_elem_of_lookup_1 in Hrow as [k Hk]. destruct (Forall2_lookup_r _ _ _ _ _ Hrows Hk) as ([idx flow] & _ & Hr).
    by apply try_map_length in Hr.
Qed.

(** The stage before a key's reader has recorded it. *)
Lemma scalar_recorded (n b : nat) m pre earlier po key :
  typed_inputs m = true -> scalar_key m key = true -> (forall s, s ∈ pre -> s ∈ stages m) ->
  Forall2 (built b) pre earlier -> covers n earlier po -> key ∈ concat (map head_keys pre) -> is_Some (scalars po !! key).
Proof.
  intros Ht Hk Hsub Hb [_ Hc] Hin. apply list_elem_of_In, in_concat in Hin as (keys & Hkeys & Hin).
  apply in_map_iff in Hkeys as (s & <- & Hs). unfold head_keys in Hin. apply in_map_iff in Hin as (h & <- & Hh).
  apply list_elem_of_In in Hs, Hh. destruct (list_elem_of_lookup_1 _ _ Hs) as [j Hj].
  destruct (Forall2_lookup_l _ _ _ _ _ Hb Hj) as (st & Hst & Hbt).
  destruct (Hc st h) as [Hrec _]; [by eapply list_elem_of_lookup_2|by rewrite (bt_heads _ _ _ Hbt)|].
  assert (head_is_matrix (sa_kind st) h = false) as Hm.
  { apply Hsub in Hs. unfold scalar_key in Hk. rewrite forallb_forall in Hk. specialize (Hk s (proj1 (list_elem_of_In _ _) Hs)).
    rewrite forallb_forall in Hk. specialize (Hk h (proj1 (list_elem_of_In _ _) Hh)). rewrite String.eqb_refl in Hk.
    unfold head_is_matrix. destruct (sa_kind st); [done|by apply negb_true_iff..]. }
  by rewrite Hm, (bt_id _ _ _ Hbt) in Hrec.
Qed.

Lemma typed_input m s i st o :
  typed_inputs m = true -> s ∈ stages m -> i ∈ inputs s -> source i = StageOutput -> in_stage i = Some st -> in_output i = Some o ->
  scalar_key m (stage_output_key st o) = true /\ feature_is_known (stage_output_key st o) = false.
Proof.
  intros Ht Hs Hi E1 E2 E3. unfold typed_inputs in Ht. rewrite forallb_forall in Ht.
  apply list_elem_of_In, Ht, andb_true_iff in Hs as [_ Hs]. rewrite forallb_forall in Hs.
  apply list_elem_of_In, Hs in Hi. rewrite E1, E2, E3 in Hi. by apply andb_true_iff in Hi as [? ?%negb_true_iff].
Qed.

Section AcceptedRun.
Context `{L : Ln} (config : MLInferenceConfig) (path : string) (m : ModelManifest) (flows : list FlowSnapshot) (b : nat).
Hypothesis Hsound : sound_manifest path m.
Hypothesis Htyped : typed_inputs m = true.
Hypothesis Hb : (0 < b)%nat.
Hypothesis Hscales : forall s i flow, s ∈ stages m -> i ∈ inputs s -> source i = Feature -> flow ∈ flows ->
  exists v, preprocess_pipeline_feature config flow (in_name i) (preprocessing s) = Ok v.

Lemma run_stage_total s st pre earlier po :
  (forall s, s ∈ pre -> s ∈ stages m) -> s ∈ stages m -> Forall (input_available m pre) (inputs s) ->
  Forall2 (built b) pre earlier -> built b s st -> Delivers (sa_model st) -> stage_answers st -> flows <> [] ->
  covers (length flows) earlier po ->
  exists po', run_stage config st flows po = Ok po' /\ covers (length flows) (earlier ++ [st]) po'.
Proof.
  intros Hsub Hs Hav Hpre Hst Hd Ha Hne Hc. pose proof (lo_scalars _ _ (cv_lengths _ _ _ Hc)) as Hl.
  destruct (pipeline_stage_rows_total config st flows (scalars po) Hl) as (rows & Hrows & Hwidth).
  { rewrite (bt_inputs _ _ _ Hst), (bt_preprocessing _ _ _ Hst). intros i Hi.
    rewrite Forall_forall in Hav. specialize (Hav i Hi). unfold input_available in Hav. destruct (source i) eqn:Hsrc.
    - intros flow Hflow. by eapply Hscales.
    - destruct Hav as (sg & o & E1 & E2 & Hkey). destruct (typed_input m s i sg o Htyped Hs Hi Hsrc E1 E2) as [Hk1 Hk2].
      exists sg, o. split_and!; [done|done|]. destruct Hkey as [Hkey|Hkey]; [|by rewrite Hk2 in Hkey].
      by eapply scalar_recorded. }
  assert (exists po', run_stage config st flows po = Ok po') as [po' Hpo'].
  { unfold run_stage. rewrite Hrows. cbn [res_bind]. pose proof (pipeline_stage_rows_length _ _ _ _ _ Hrows) as Hlen.
    destruct (stage_chunks_total st rows) with (fuel := S (length flows)) (chunk_start := 0%nat) (acc := (∅, ∅) : scalar_map * matrix_map)
      as [acc Hacc]; [by rewrite (bt_batch _ _ _ Hst)| |lia|].
    - intros chunk Hle Hin. apply Ha; [done|]. rewrite (bt_features _ _ _ Hst), <- (bt_inputs _ _ _ Hst).
      eapply Forall_impl; [exact Hin|]. intros row Hrow. rewrite Forall_forall in Hwidth. by apply Hwidth.
    - rewrite Hlen in Hacc. rewrite Hacc. by eexists. }
  exists po'. split; [done|]. eapply run_stage_covers; [done| |done|done|done].
  pose proof (so_heads _ _ Hsound) as Hheads. rewrite Forall_forall in Hheads. rewrite (bt_heads _ _ _ Hst). by apply Hheads.
Qed.

Lemma run_stages_total : forall post rest pre earlier po,
  flows <> [] -> Forall2 (built b) pre earlier -> Forall2 (built b) post rest ->
  (forall s, s ∈ (pre ++ post)%list -> s ∈ stages m) ->
  (forall p s q, (pre ++ post = p ++ s :: q)%list -> Forall (input_available m p) (inputs s)) ->
  Forall (fun st => Delivers (sa_model st) /\ stage_answers st) rest ->
  covers (length flows) earlier po ->
  exists po', run_stages config rest flows po = Ok po' /\ covers (length flows) (earlier ++ rest) po'.
Proof.
  induction post as [|s post IH]; intros rest pre earlier po Hne Hpre Hpost Hsub Hav Hrun Hc.
  - inversion Hpost; subst. exists po. by rewrite app_nil_r.
  - inversion Hpost as [|? st ? rest' Hst Hrest]; subst. inversion Hrun as [|? ? [Hd Ha] Hrun']; subst.
    destruct (run_stage_total s st pre earlier po) as (po1 & H1 & Hc1); try done.
    + intros s' Hs'. apply Hsub, elem_of_app. by left.
    + apply Hsub, elem_of_app. right. by left.
    + by apply (Hav pre s post).
    + cbn [run_stages]. rewrite H1. cbn [res_bind]. replace (earlier ++ st :: rest')%list with ((earlier ++ [st]) ++ rest')%list by by rewrite <- app_assoc.
      apply (IH rest' (pre ++ [s])%list); try done.
      * apply Forall2_app; [done|]. constructor; [done|constructor].
      * intros s'. rewrite <- app_assoc. apply Hsub.
      * intros p s' q. rewrite <- app_assoc. apply Hav.
Qed.

Lemma covers_init n : covers n [] no_outputs.
Proof.
  split; [split; intros k ?; cbn; by rewrite lookup_empty|]. intros st h Hin. by apply elem_of_nil in Hin.
Qed.

Lemma accepted_stages_run load a :
  build_adapter load m b = Ok a -> Forall (fun st => Delivers (sa_model st) /\ stage_answers st) (ad_stages a) -> flows <> [] ->
  exists po, run_stages config (ad_stages a) flows no_outputs = Ok po /\ covers (length flows) (ad_stages a) po.
Proof.
  intros (ordered & Hord & Hbuilt & _)%build_adapter_ok Hrun Hne.
  destruct (so_order _ _ Hsound) as (l & Hl & Hperm & _ & Hin). rewrite Hord in Hl. injection Hl as ->.
  assert (forall pre s post, l = (pre ++ s :: post)%list -> Forall (input_available m pre) (inputs s)) as Hav by (intros pre s post He; by eapply Hin).
  apply (run_stages_total l (ad_stages a) [] [] no_outputs Hne (List.Forall2_nil _) Hbuilt); [|done|done|apply covers_init].
  intros s Hs. cbn in Hs. by rewrite <- Hperm.
Qed.
End AcceptedRun.

(** What a rule compares is there for the flow at [idx], and so are the rows its label
    is read from. *)
Definition attack_readable (a : MLModelAdapter) (po : PipelineOutputs) (idx : nat) (attack : AttackMappingSpec) : Prop :=
  match attack with
  | PredictedClass output _ => exists key rows row, pipeline_output_key (ad_outputs a) output = Some key /\
      matrices po !! key = Some rows /\ rows !! idx = Some row
  | FixedLabel _ => True
  end.
Definition rule_readable (a : MLModelAdapter) (po : PipelineOutputs) (idx : nat) (r : DetectionRuleSpec) : Prop :=
  match r with
  | Threshold _ output attack => attack_readable a po idx attack /\
      exists key vs v t, pipeline_output_key (ad_outputs a) output = Some key /\
        scalars po !! key = Some vs /\ vs !! idx = Some v /\ thresholds po !! key = Some t
  | ClassConfidence _ output attack => attack_readable a po idx attack /\
      exists key rows row t, pipeline_output_key (ad_outputs a) output = Some key /\
        matrices po !! key = Some rows /\ rows !! idx = Some row /\ min_confidences po !! key = Some t
  end.

Section Readable.
Context (m : ModelManifest) (load : string -> nat -> nat -> result Fault ModelRuntime) (b : nat) (a : MLModelAdapter)
  (path : string) (po : PipelineOutputs) (n : nat).
Hypothesis Hsound : sound_manifest path m.
Hypothesis Htyped : typed_inputs m = true.
Hypothesis Hbuild : build_adapter load m b = Ok a.
Hypothesis Hcovers : covers n (ad_stages a) po.

Lemma output_recorded reference o h :
  pipeline_output_head m reference = Ok (o, h) ->
  exists key, pipeline_output_key (ad_outputs a) reference = Some key /\
    (if output_semantic_is_matrix (semantic h) then is_Some (matrices po !! key) else is_Some (scalars po !! key)) /\
    (is_Some (threshold h) -> is_Some (thresholds po !! key)) /\
    (is_Some (min_confidence h) -> is_Some (min_confidences po !! key)).
Proof.
  destruct (build_adapter_ok load m b a Hbuild) as (l & Hl & Hbuilt & -> & _).
  destruct (so_order _ _ Hsound) as (l' & Hl' & Hperm & _). rewrite Hl in Hl'. injection Hl' as <-.
  unfold pipeline_output_head, pipeline_output_by_ref, stage_by_id, pipeline_output_key.
  destruct (List.find _ (outputs m)) as [o'|] eqn:Ho; [|done].
  destruct (List.find _ (stages m)) as [s|] eqn:Hs; [|done].
  destruct (head_by_name s _) as [h'|] eqn:Hh; [|done]. intros [= -> ->].
  apply find_some in Hs as [Hs Hid%String.eqb_eq], Hh as [Hh Hname%String.eqb_eq].
  apply list_elem_of_In in Hs, Hh. exists (stage_output_key (out_stage o) (out_output o)). split; [done|].
  pose proof Hs as Hs'. rewrite <- Hperm in Hs. apply list_elem_of_lookup_1 in Hs as [j Hj].
  destruct (Forall2_lookup_l _ _ _ _ _ Hbuilt Hj) as (st & Hst & Hbt).
  destruct (cv_heads _ _ _ Hcovers st h) as (H1 & H2 & H3);
    [by eapply list_elem_of_lookup_2|by rewrite (bt_heads _ _ _ Hbt)|].
  rewrite (bt_id _ _ _ Hbt), Hid, Hname in H1, H2, H3. split; [|done].
  assert (head_is_matrix (sa_kind st) h = output_semantic_is_matrix (semantic h)) as <-; [|done].
  rewrite (bt_kind _ _ _ Hbt). unfold head_is_matrix. destruct (st_kind s) eqn:Hk; try done.
  unfold typed_inputs in Htyped. rewrite forallb_forall in Htyped.
  apply list_elem_of_In, Htyped, andb_true_iff in Hs' as [Hae _]. rewrite Hk, bool_decide_eq_true_2 in Hae by done.
  cbn [negb orb] in Hae. rewrite forallb_forall in Hae. symmetry. by apply negb_true_iff, Hae, list_elem_of_In.
Qed.

Lemma recorded_row key idx : (idx < n)%nat -> is_Some (matrices po !! key) ->
  exists rows row, matrices po !! key = Some rows /\ rows !! idx = Some row.
Proof.
  intros Hi [rows Hr]. exists rows. destruct (lookup_lt_is_Some_2 rows idx) as [row Hrow]; [|by exists row].
  by rewrite (lo_matrices _ _ (cv_lengths _ _ _ Hcovers) _ _ Hr).
Qed.

Lemma attack_resolved idx attack : (idx < n)%nat -> attack_resolves m attack -> attack_readable a po idx attack.
Proof.
  intros Hi. destruct attack as [output en|label]; [|done]. intros (o & h & Hh & Hm & _).
  destruct (output_recorded _ _ _ Hh) as (key & Hkey & Hrec & _). rewrite Hm in Hrec.
  destruct (recorded_row key idx Hi Hrec) as (rows & row & H1 & H2). by exists key, rows, row.
Qed.

Lemma rules_readable idx r : (idx < n)%nat -> r ∈ detection_rules m -> rule_readable a po idx r.
Proof.
  intros Hi Hr. pose proof (so_rules _ _ Hsound) as Hrules. rewrite Forall_forall in Hrules. specialize (Hrules r Hr).
  destruct r as [id output attack|id output attack]; destruct Hrules as (o & h & t & Hh & Hm & Ht & Hatt);
    (split; [by apply attack_resolved|]); destruct (output_recorded _ _ _ Hh) as (key & Hkey & Hrec & Hth & Hmc);
    rewrite Hm in Hrec.
  - destruct Hrec as [vs Hvs], Hth as [t' Ht']; [by eexists|].
    destruct (lookup_lt_is_Some_2 vs idx) as [v Hv]; [by rewrite (lo_scalars _ _ (cv_lengths _ _ _ Hcovers) _ _ Hvs)|].
    by exists key, vs, v, t'.
  - destruct (recorded_row key idx Hi Hrec) as (rows & row & H1 & H2), Hmc as [t' Ht']; [by eexists|].
    by exists key, rows, row, t'.
Qed.
End Readable.

Lemma max_by_key_some {A} (key : A -> float) (l : list A) : is_Some (max_by_key key l) <-> l <> [].
Proof. destruct l; cbn; [split; [by intros []|done]|]. split; [done|]. intros _. by eexists. Qed.

Lemma omap_nonempty {A B} (f : A -> option B) (l : list A) : omap f l <> [] <-> exists x, x ∈ l /\ is_Some (f x).
Proof.
  induction l as [|x l IH]; [split; [done|intros (? & []%elem_of_nil & _)]|].
  cbn. destruct (f x) as [y|] eqn:Hf.
  - split; [intros _; exists x; split; [by left|by rewrite Hf]|done].
  - rewrite IH. split; intros (z & Hz & Hs); exists z; split; try done; [by right|].
    apply elem_of_cons in Hz as [->|Hz]; [|done]. rewrite Hf in Hs. by destruct Hs.
Qed.

Lemma is_attack_iff outputs rules labels nl po idx flow :
  dr_is_attack (flow_result outputs rules labels nl po idx flow) = true <->
  exists r, r ∈ rules /\ is_Some (evaluate_rule outputs labels nl po idx r).
Proof.
  cbn. rewrite bool_decide_eq_true. unfold best_rule_candidate. by rewrite max_by_key_some, omap_nonempty.
Qed.

(** ** The breaker's transitions *)

Section Transitions.
Context `{L : Ln} (config : MLInferenceConfig) (cfg : CircuitBreakerConfig).

Definition outcome (a : MLModelAdapter) (flows : list FlowSnapshot) : result Fault PipelineOutputs :=
  run_stages config (ad_stages a) flows no_outputs.
Definition closed_at (s : Z) : Breaker := mk_breaker CB_CLOSED 0 0 s.

Lemma infer_batch_blocked t_check t_fail flows w :
  cb_phase (breaker w) = CB_OPEN -> saturating_sub t_check (cb_open_since_secs (breaker w)) < cb_cooldown_secs cfg ->
  infer_batch config cfg t_check t_fail flows w = (Ok [], w).
Proof.
  intros Hp Ht. unfold infer_batch, is_circuit_open, sm_bind, sm_get. rewrite Hp.
  destruct (cb_cooldown_secs cfg <=? _) eqn:He; [apply Z.leb_le in He; lia|done].
Qed.

(** Once it is let through, a batch that ends without a panic closes the breaker. *)
Lemma infer_batch_ran t_check t_fail flows w a info :
  state w = Active a info ->
  cb_phase (breaker w) = CB_CLOSED \/
    (cb_phase (breaker w) = CB_OPEN /\ cb_cooldown_secs cfg <= saturating_sub t_check (cb_open_since_secs (breaker w))) ->
  match outcome a flows with
  | Err Looping => True
  | Err Panicked => exists w', infer_batch config cfg t_check t_fail flows w = (Ok [], w') /\ state w' = state w /\
      (cb_phase (breaker w) = CB_CLOSED -> w' = (record_failure cfg t_fail w).2) /\
      (cb_phase (breaker w) = CB_OPEN -> cb_phase (breaker w') = CB_OPEN /\ cb_open_since_secs (breaker w') = t_fail)
  | Err Failed => exists s, infer_batch config cfg t_check t_fail flows w = (Ok [], set_breaker (closed_at s) w)
  | Ok po => exists s, infer_batch config cfg t_check t_fail flows w =
      (Ok (pipeline_detection_results flows (ad_outputs a) (ad_detection_rules a) (ad_labels a) (ad_normal_label a) po),
       set_breaker (closed_at s) w)
  end.
Proof.
  intros Ha Hp. destruct w as [st q [ph cnt ws os]]. cbn [state breaker cb_phase cb_open_since_secs] in *. subst st.
  destruct Hp as [->|[-> Hc]]; unfold infer_batch, is_circuit_open, sm_bind, sm_get, sm_try, infer_pipeline, outcome, sm_modify, sm_ret;
    cbn [state breaker cb_phase cb_open_since_secs set_breaker];
    [|apply Z.leb_le in Hc; rewrite Hc; cbn [state breaker cb_phase cb_open_since_secs set_breaker]];
    (destruct (run_stages config (ad_stages a) flows no_outputs) as [po|[| |]]; [by eexists| | |done]);
    unfold record_failure, record_success, sm_bind, sm_get, sm_put, sm_ret, sm_fail;
    cbn [state breaker cb_phase cb_failure_count cb_window_start_secs cb_open_since_secs set_breaker].
  - destruct ((ws =? 0) || _); (destruct (cb_threshold cfg <=? _); by eexists).
  - destruct ((ws =? 0) || _); (destruct (cb_threshold cfg <=? _); by eexists).
  - by eexists.
  - eexists. split; [done|]. by split.
Qed.

(** A series of batches, each given by the times it reads and its flows. *)
Fixpoint run_batches (calls : list (Z * Z * list FlowSnapshot)) (w : Inference) : Inference :=
  match calls with
  | [] => w
  | (t_check, t_fail, flows) :: calls => run_batches calls (infer_batch config cfg t_check t_fail flows w).2
  end.

Definition panics_within (a : MLModelAdapter) (first : Z) (c : Z * Z * list FlowSnapshot) : Prop :=
  outcome a c.2 = Err Panicked /\ saturating_sub c.1.2 first <= cb_window_secs cfg.

Lemma panics_counted a info first : forall calls w n,
  0 < first -> state w = Active a info -> 1 <= n -> n < 2 ^ 32 -> n + Z.of_nat (length calls) <= cb_threshold cfg < 2 ^ 32 ->
  cb_phase (breaker w) = CB_CLOSED /\ n < cb_threshold cfg \/ calls = [] ->
  cb_failure_count (breaker w) = n -> cb_window_start_secs (breaker w) = first ->
  Forall (panics_within a first) calls ->
  let w' := run_batches calls w in
  state w' = Active a info /\ (cb_failure_count (breaker w') = n + Z.of_nat (length calls)) /\
  (calls <> [] ->
   cb_phase (breaker w') = if n + Z.of_nat (length calls) =? cb_threshold cfg then CB_OPEN else CB_CLOSED) /\
  (calls <> [] -> n + Z.of_nat (length calls) = cb_threshold cfg -> Some (cb_open_since_secs (breaker w')) = (fun c => c.1.2) <$> last calls).
Proof.
  induction calls as [|[[t0 t1] flows] calls IH]; intros w n Hf Hst Hn Hw32 Hth Hph Hcnt Hws Hcalls.
  - cbn. split_and!; [done|lia|done|done].
  - inversion Hcalls as [|? ? [Hp Hwin] Hrest]; subst. cbn [fst snd] in Hp, Hwin.
    destruct Hph as [[Hph Hlt]|]; [|done]. cbn [length] in Hth.
    pose proof (infer_batch_ran t0 t1 flows w a info Hst (or_introl Hph)) as H. rewrite Hp in H.
    destruct H as (w1 & H1 & Hst1 & Hw1 & _). specialize (Hw1 Hph). cbn [run_batches]. rewrite H1. cbn [snd].
    unfold record_failure, sm_bind, sm_get in Hw1. rewrite Hph in Hw1.
    destruct (cb_window_start_secs (breaker w) =? 0) eqn:E0; [apply Z.eqb_eq in E0; lia|].
    destruct (cb_window_secs cfg <? _) eqn:E1; [apply Z.ltb_lt in E1; lia|]. cbn [orb] in Hw1.
    unfold wrapping_add in Hw1. rewrite wrap_small in Hw1 by (unfold in_width, pow2; lia).
    set (n := cb_failure_count (breaker w)) in *. set (first := cb_window_start_secs (breaker w)) in *.
    rewrite Hst in Hst1.
    destruct (cb_threshold cfg <=? n + 1) eqn:E2.
    + apply Z.leb_le in E2. assert (calls = []) as -> by (destruct calls; [done|cbn [length] in Hth; lia]).
      subst w1. cbn [length]. split_and!; [done|cbn; lia|intros _|done].
      by rewrite (proj2 (Z.eqb_eq (n + Z.of_nat 1) _)) by (cbn [length] in *; lia).
    + apply Z.leb_gt in E2.
      assert (cb_phase (breaker w1) = CB_CLOSED /\ cb_failure_count (breaker w1) = n + 1 /\ cb_window_start_secs (breaker w1) = first)
        as (Hp1 & Hc1 & Hs1) by (subst w1; done).
      destruct (IH w1 (n + 1) Hf Hst1) as (I1 & I2 & I3 & I4); try done; [lia|lia|lia|by left|].
      split_and!; [done|cbn [length]; lia| |].
      * intros _. destruct calls as [|c calls]; [|rewrite I3 by done].
        2: { cbn [length]. by replace (n + Z.of_nat (S (S (length calls)))) with (n + 1 + Z.of_nat (S (length calls))) by lia. }
        cbn [run_batches length]. rewrite Hp1. by rewrite (proj2 (Z.eqb_neq (n + Z.of_nat 1) _)) by lia.
      * intros _ Heq. destruct calls as [|c calls]; [cbn in Heq; lia|]. rewrite last_cons_cons. apply I4; [done|]. cbn [length] in *. lia.
Qed.
End Transitions.

(** ** What the pipeline guarantees *)

(** An accepted model scores every flow, if its features can be scaled. *)
Lemma model_scores_every_flow `{L : Ln} (config : MLInferenceConfig) (cfg : CircuitBreakerConfig) (path : string)
    (m : ModelManifest) load (b : nat) (a : MLModelAdapter) info (flows : list FlowSnapshot) (t_check t_fail : Z) (w : Inference) :
  validate path m = Ok tt -> typed_inputs m = true -> (0 < b)%nat -> build_adapter load m b = Ok a ->
  Forall (fun st => Delivers (sa_model st) /\ stage_answers st) (ad_stages a) ->
  (forall s i flow, s ∈ stages m -> i ∈ inputs s -> source i = Feature -> flow ∈ flows ->
     exists v, preprocess_pipeline_feature config flow (in_name i) (preprocessing s) = Ok v) ->
  flows <> [] -> state w = Active a info -> cb_phase (breaker w) = CB_CLOSED ->
  exists po results s, run_stages config (ad_stages a) flows no_outputs = Ok po /\
    infer_batch config cfg t_check t_fail flows w = (Ok results, set_breaker (closed_at s) w) /\
    map dr_flow_key_raw results = map sn_flow_key flows /\
    forall idx res, results !! idx = Some res ->
      Forall (rule_readable a po idx) (detection_rules m) /\
      (dr_is_attack res = true <-> exists r, r ∈ detection_rules m /\
         is_Some (evaluate_rule (outputs m) (labels m) (normal_label (mf_runtime m)) po idx r)).
Proof.
  intros Hv%validate_sound Ht Hb Hbuild Hrun Hsc Hne Hst Hph.
  destruct (accepted_stages_run config path m flows b Hv Ht Hb Hsc load a Hbuild Hrun Hne) as (po & Hpo & Hc).
  pose proof (infer_batch_ran config cfg t_check t_fail flows w a info Hst (or_introl Hph)) as H.
  unfold outcome in H. rewrite Hpo in H. destruct H as [s Hs]. exists po. do 2 eexists. split; [done|]. split; [exact Hs|].
  split.
  - apply list_eq. intros i. rewrite !list_lookup_fmap. unfold pipeline_detection_results.
    rewrite list_lookup_imap. by destruct (flows !! i).
  - intros idx res Hres. destruct (build_adapter_ok load m b a Hbuild) as (_ & _ & _ & Eo & Er & El & En).
    unfold pipeline_detection_results in Hres. rewrite list_lookup_imap, Eo, Er, El, En in Hres.
    destruct (flows !! idx) as [flow|] eqn:Hflow; [|done]. cbn in Hres. injection Hres as <-. split; [|apply is_attack_iff].
    apply Forall_forall. intros r Hr. eapply (rules_readable m load b a path po); try done. by eapply lookup_lt_Some.
Qed.

(** The breaker counts panics: from a fresh breaker, batches that panic within one
    window are counted and the one that reaches the threshold opens it; from then on,
    until the cooldown is over, every batch is refused without running the model or
    changing anything; the first batch after the cooldown runs, and closes the
    breaker unless it panics, which opens it for another cooldown. *)
Theorem breaker_opens_at_threshold `{L : Ln} (config : MLInferenceConfig) (cfg : CircuitBreakerConfig) (a : MLModelAdapter) info
    (t0 t1 : Z) (flows : list FlowSnapshot) (calls : list (Z * Z * list FlowSnapshot)) (w : Inference) (s : Z) :
  breaker_config_valid cfg = true -> cb_threshold cfg < 2 ^ 32 -> 1 < cb_threshold cfg ->
  state w = Active a info -> breaker w = closed_at s -> 0 < t1 ->
  outcome config a flows = Err Panicked -> Forall (panics_within config cfg a t1) calls -> calls <> [] ->
  1 + Z.of_nat (length calls) <= cb_threshold cfg ->
  let w' := run_batches config cfg ((t0, t1, flows) :: calls) w in
  cb_phase (breaker w') = (if 1 + Z.of_nat (length calls) =? cb_threshold cfg then CB_OPEN else CB_CLOSED) /\
  (1 + Z.of_nat (length calls) = cb_threshold cfg -> forall t_check t_fail batch,
     let since := cb_open_since_secs (breaker w') in
     Some since = (fun c => c.1.2) <$> last calls /\
     if saturating_sub t_check since <? cb_cooldown_secs cfg
     then infer_batch config cfg t_check t_fail batch w' = (Ok [], w')
     else
       let w2 := (infer_batch config cfg t_check t_fail batch w').2 in
       match outcome config a batch with
       | Err Looping => True
       | Err Panicked => cb_phase (breaker w2) = CB_OPEN /\ cb_open_since_secs (breaker w2) = t_fail
       | _ => exists s', breaker w2 = closed_at s'
       end).
Proof.
  intros Hvalid H32 Hth Hst Hbr Ht1 Hp Hcalls Hne Hle.
  assert (cb_phase (breaker w) = CB_CLOSED) as Hph by by rewrite Hbr.
  pose proof (infer_batch_ran config cfg t0 t1 flows w a info Hst (or_introl Hph)) as H. rewrite Hp in H.
  destruct H as (w1 & H1 & Hst1 & Hw1 & _). specialize (Hw1 Hph). cbn [run_batches]. rewrite H1. cbn [snd].
  unfold record_failure, sm_bind, sm_get in Hw1. rewrite Hbr in Hw1. cbn [cb_phase cb_window_start_secs closed_at] in Hw1.
  cbn [Z.eqb orb] in Hw1. rewrite (proj2 (Z.leb_gt _ _)) in Hw1 by lia. rewrite Hst in Hst1.
  destruct (panics_counted config cfg a info t1 calls w1 1) as (I1 & I2 & I3 & I4); try done; try lia;
    [left; by rewrite Hw1|by rewrite Hw1|by rewrite Hw1|].
  specialize (I3 Hne). split; [exact I3|]. 
  intros Heq t_check t_fail batch. specialize (I4 Hne Heq). set (since := cb_open_since_secs _) in I4 |- *.
  rewrite (proj2 (Z.eqb_eq _ _) Heq) in I3. split; [exact I4|].
  destruct (saturating_sub t_check since <? cb_cooldown_secs cfg) eqn:Hc.
  - apply Z.ltb_lt in Hc. by apply infer_batch_blocked.
  - apply Z.ltb_ge in Hc.
    pose proof (infer_batch_ran config cfg t_check t_fail batch _ a info I1 (or_intror (conj I3 Hc))) as H.
    destruct (outcome config a batch) as [po|[| |]]; [destruct H as [s0 ->]; by exists s0|destruct H as [s0 ->]; by exists s0| |done].
    destruct H as (w2 & -> & _ & _ & Ho). exact (Ho I3).
Qed.

(** ** Concrete models *)

(** A runtime whose scores are two and whose class is the third. *)
Definition steady_runtime : ModelRuntime := fun rows _ _ kind heads =>
  Ok (map (fun h => if head_is_matrix kind h
                    then Matrix (head_name h) (map (fun _ => [fzero; fzero; f32_of_Z 1]) rows)
                    else Scalar (head_name h) (map (fun _ => f32_of_Z 2) rows)) heads).
Lemma steady_delivers : Delivers steady_runtime.
Proof.
  intros rows b n kind heads ts [= <-]. apply Forall2_fmap_r, Forall_Forall2_diag, Forall_forall. intros h _.
  destruct (head_is_matrix kind h) eqn:E; cbn; rewrite E; split_and!; auto using List.length_map.
Qed.
Definition steady_config : MLInferenceConfig := {|
  ae_feature_names := map in_name shipped_features; ae_clip_params := ∅;
  ae_scaler_mean := replicate 31 fzero; ae_scaler_std := replicate 31 (f64_of_Z 1);
  ae_post_clip_min := f64_of_Z (-5); ae_post_clip_max := f64_of_Z 5;
  classifier_feature_names := map in_name (inputs classifier);
  minmax_params := ∅; robust_params := ∅; quantile_params := ∅ |}.
Definition sample_snapshot : option FlowSnapshot :=
  let p := mk_user V4 6 TCP_SYN (pad_ip [10; 0; 0; 1]) (pad_ip [10; 0; 0; 2]) 4000 443 60 0 20 1024 5 true in
  from_flow_data (Sel := sorting_select) (new_flow (from_packet p) p Ingress).
#[local] Instance no_ln : Ln := fun x => x.

(** Which features of a manifest can be scaled for a flow. *)
Definition scales (config : MLInferenceConfig) (m : ModelManifest) (flow : FlowSnapshot) : bool :=
  forallb (fun s => forallb (fun i => match source i with
    | Feature => is_ok (preprocess_pipeline_feature config flow (in_name i) (preprocessing s))
    | StageOutput => true end) (inputs s)) (stages m).
Lemma scales_spec config m flow : scales config m flow = true ->
  forall s i, s ∈ stages m -> i ∈ inputs s -> source i = Feature ->
  exists v, preprocess_pipeline_feature config flow (in_name i) (preprocessing s) = Ok v.
Proof.
  intros H s i Hs Hi E. unfold scales in H. rewrite forallb_forall in H. apply list_elem_of_In, H in Hs.
  rewrite forallb_forall in Hs. apply list_elem_of_In, Hs in Hi. rewrite E in Hi.
  destruct (preprocess_pipeline_feature _ _ _ _) as [v|]; [by exists v|done].
Qed.

Lemma breaker_opens_at_threshold_witness :
  exists flow, sample_snapshot = Some flow /\
    let a := mk_pipeline [mk_adapter "s" Generic (fun _ _ _ _ _ => Err Panicked) 1 0 [] [] []] [] [] [] "Normal" in
    let w := new_inference (Active a (mk_info "m" "pipeline" 0 0 fzero)) in
    let cfg := mk_breaker_config 2 60 120 in
    let w' := run_batches steady_config cfg [(5, 5, [flow]); (6, 6, [flow])] w in
    cb_phase (breaker w') = CB_OPEN /\ infer_batch steady_config cfg 100 100 [flow] w' = (Ok [], w').
Proof.
  destruct sample_snapshot as [flow|] eqn:E; [|vm_compute in E; discriminate]. exists flow. split; [done|]. intros a w cfg.
  destruct (breaker_opens_at_threshold steady_config cfg a (mk_info "m" "pipeline" 0 0 fzero) 5 5 [flow] [(6, 6, [flow])] w 0)
    as [H1 H2]; [done..| |done|cbv; discriminate|].
  - constructor; [|constructor]. split; [done|]. cbv. discriminate.
  - split; [exact H1|]. destruct (H2 eq_refl 100 100 [flow]) as [Hs%(inj Some) H3].
    rewrite Hs in H3. exact H3.
Defined.

(** An error of a model is counted and then forgotten: the batch that failed ends by
    closing the breaker, so errors never open it, however many there are. *)
Lemma model_errors_never_open `{L : Ln} config cfg a info : forall calls w,
  state w = Active a info -> cb_phase (breaker w) = CB_CLOSED ->
  Forall (fun c : Z * Z * list FlowSnapshot => outcome config a c.2 = Err Failed) calls ->
  cb_phase (breaker (run_batches config cfg calls w)) = CB_CLOSED.
Proof.
  induction calls as [|[[t0 t1] flows] calls IH]; intros w Hst Hph Hf; [done|]. inversion Hf as [|? ? Hc Hf']; subst.
  cbn [run_batches]. pose proof (infer_batch_ran config cfg t0 t1 flows w a info Hst (or_introl Hph)) as H.
  cbn [snd] in Hc. rewrite Hc in H. destruct H as [s ->]. by apply IH.
Qed.
