(* ===== verification/Engine.v ===== *)
(** * The detection engine

    What happens with the results of the inference pipeline: the aggregator that
    asks for confirmations (core/inference/aggregator.rs), the drift detector
    (core/inference/drift_detector.rs, domain/detection/drift.rs), the alerts
    (core/inference/alert.rs) and the periodic tick that drives all of them
    (core/inference/engine.rs).  Instants and durations are in nanoseconds. *)

From Stdlib Require Import ZArith Lia List Ascii String Sorted.
From Corelib Require Import SpecFloat.
From stdpp Require Import base list gmap strings.
From S2P Require Import Prelude Abi RStr Float IpAddr Event FlowTracker Features Manifest Onnx Inference.

Local Open Scope string_scope.
Local Open Scope Z_scope.

Definition from_secs (s : Z) : Z := s * 1000000000.
(** [Instant::duration_since] *)
Definition duration_since (now earlier : Z) : Z := saturating_sub now earlier.

(** ** Confirmations *)

Definition MAX_DETECTIONS_PER_FLOW : nat := 256.

Record AttackAggregator : Type := mk_aggregator {
  detections : gmap FlowKey (list (Z * float)); window_duration : Z; max_flow_keys : nat }.
Definition new_aggregator (window_secs : Z) (max_flow_keys : nat) : AttackAggregator :=
  mk_aggregator ∅ (from_secs window_secs) (Nat.max max_flow_keys 1).
Definition with_detections (a : AttackAggregator) (d : gmap FlowKey (list (Z * float))) : AttackAggregator :=
  mk_aggregator d (window_duration a) (max_flow_keys a).

Definition in_window (window now : Z) (e : Z * float) : Prop := duration_since now e.1 < window.
#[export] Instance in_window_dec window now e : Decision (in_window window now e).
Proof. unfold in_window. apply _. Defined.

Definition cleanup_at (now : Z) (a : AttackAggregator) : AttackAggregator :=
  with_detections a (omap (fun l =>
    let l := filter (in_window (window_duration a) now) l in
    match l with [] => None | _ => Some l end) (detections a)).

(** [iter().sum::<f32>()] *)
Definition f32_sum (l : list float) : float := fold_left f32_add l (S754_zero true).

Definition should_alert (now : Z) (flow_key : FlowKey) (score threshold : float) (required_confirmations : nat)
    (alert_multiplier : float) (a : AttackAggregator) : bool * AttackAggregator :=
  let is_new := bool_decide (detections a !! flow_key = None) in
  let full (a : AttackAggregator) := (max_flow_keys a <=? size (detections a))%nat in
  let a := if full a && is_new then cleanup_at now a else a in
  if full a && is_new then (false, a)
  else
    let l := default [] (detections a !! flow_key) in
    let l := (filter (in_window (window_duration a) now) l ++ [(now, score)])%list in
    let history_limit := Nat.max MAX_DETECTIONS_PER_FLOW required_confirmations in
    let l := if (history_limit <? length l)%nat then drop (length l - history_limit) l else l in
    let a := with_detections a (<[flow_key := l]> (detections a)) in
    if (length l <? required_confirmations)%nat then (false, a)
    else
      let avg_score := f32_div (f32_sum (map snd l)) (f32_of_Z (Z.of_nat (length l))) in
      (fgt avg_score (f32_mul threshold alert_multiplier), a).

(** ** Drift *)

Record FeatureBaselines : Type := mk_baselines { names : list string; means : list float; stds : list float }.
Definition from_inference_config (config : MLInferenceConfig) : option FeatureBaselines :=
  match ae_feature_names config with
  | [] => None
  | _ => Some (mk_baselines (ae_feature_names config) (ae_scaler_mean config) (ae_scaler_std config))
  end.
Record DriftReport : Type := mk_report { drifted_features : list string; max_deviation : float }.

Record DriftDetector : Type := mk_drift {
  snapshots : list (Z * list float); num_features : nat; baselines : option FeatureBaselines;
  drift_window : Z; max_snapshots : nat }.
Definition new_drift (baselines : option FeatureBaselines) (drift_window : Z) (max_snapshots : nat) : DriftDetector :=
  mk_drift [] (match baselines with Some b => length (names b) | None => 0%nat end) baselines drift_window max_snapshots.

(** [evict_stale]: from the front, while too old. *)
Fixpoint evict_stale (window now : Z) (l : list (Z * list float)) : list (Z * list float) :=
  match l with
  | [] => []
  | e :: l' => if window <? duration_since now e.1 then evict_stale window now l' else l
  end.
Definition drift_update (now : Z) (features : list float) (d : DriftDetector) : DriftDetector :=
  if (0 <? num_features d)%nat && negb (length features =? num_features d)%nat then d
  else
    let l := evict_stale (drift_window d) now (snapshots d ++ [(now, features)])%list in
    let l := drop (length l - max_snapshots d) l in
    mk_drift l (num_features d) (baselines d) (drift_window d) (max_snapshots d).

(** [sums[i] += val], over the first features. *)
Fixpoint add_features (sums features : list float) : list float :=
  match sums, features with
  | s :: sums, v :: features => f64_add s v :: add_features sums features
  | _, _ => sums
  end.
Definition f64_abs (x : float) : float := SFabs x.
(** Sums, means and deviations with the position of each feature. *)
Fixpoint check_features (n : float) (names : list string) (i : nat) (rows : list (float * (float * float)))
    (drifted : list string) (max_deviation : float) : result Fault (list string * float) :=
  match rows with
  | [] => Ok (drifted, max_deviation)
  | (sum, (bl_mean, bl_std)) :: rows =>
      let current_mean := f64_div sum n in
      if flt bl_std (f64_of_ratio 1 1000000000000) then check_features n names (S i) rows drifted max_deviation
      else
        let deviation := f64_abs (f64_div (f64_sub current_mean bl_mean) bl_std) in
        if fgt deviation (f64_of_Z 3) then
          match names !! i with
          | None => Err Panicked
          | Some name => check_features n names (S i) rows (drifted ++ [name])%list
                           (if fgt deviation max_deviation then deviation else max_deviation)
          end
        else check_features n names (S i) rows drifted max_deviation
  end.
Definition check_drift (d : DriftDetector) : result Fault (option DriftReport) :=
  match baselines d with
  | None => Ok None
  | Some b =>
      if bool_decide (snapshots d = []) || (num_features d =? 0)%nat then Ok None
      else
        let n := f64_of_Z (Z.of_nat (length (snapshots d))) in
        let sums := fold_left (fun sums e => add_features sums (snd e)) (snapshots d) (replicate (num_features d) fzero) in
        let rows := take (num_features d) (zip sums (zip (means b) (stds b))) in
        let? found := check_features n (names b) 0 rows [] fzero in
        let '(drifted, dev) := found in
        Ok (match drifted with [] => None | _ => Some (mk_report drifted dev) end)
  end.

(** ** Alerts *)

Record AlertMessage : Type := mk_alert {
  am_timestamp : Z; am_flow_key : string; am_src_ip : string; am_dst_ip : string; am_src_port : Z; am_dst_port : Z;
  am_protocol : Z; am_is_attack : bool; am_attack_type : option string; am_confidence : float; am_ae_score : float;
  am_anomaly_score : float; am_c2_score : float; am_packet_count : Z; am_flow_duration_us : Z }.
Definition from_detection_result (r : DetectionResult) (timestamp : Z) : AlertMessage :=
  let k := dr_flow_key_raw r in {|
  am_timestamp := timestamp; am_flow_key := dr_flow_key r; am_src_ip := src_ip_string k; am_dst_ip := dst_ip_string k;
  am_src_port := fk_src_port k; am_dst_port := fk_dst_port k; am_protocol := fk_protocol k; am_is_attack := dr_is_attack r;
  am_attack_type := attack_str <$> dr_attack_type r; am_confidence := dr_confidence r; am_ae_score := dr_ae_score r;
  am_anomaly_score := dr_anomaly_score r; am_c2_score := dr_c2_score r; am_packet_count := dr_packet_count r;
  am_flow_duration_us := dr_flow_duration_us r |}.
(** The channel: how many listen, and what was sent. *)
Record MLAlert : Type := mk_ml_alert { receiver_count : nat; sent : list AlertMessage }.
Definition broadcast_alert (timestamp : Z) (r : DetectionResult) (x : MLAlert) : MLAlert :=
  if (0 <? receiver_count x)%nat then mk_ml_alert (receiver_count x) (sent x ++ [from_detection_result r timestamp])%list else x.

Record InferenceStats : Type := mk_stats_inf {
  total_flows : nat; malicious_flows : nat; benign_flows : nat; flows_per_second : float }.
Definition from_results (results : list DetectionResult) (elapsed_us : Z) : InferenceStats :=
  let total := length results in
  let malicious := length (List.filter dr_is_attack results) in
  mk_stats_inf total malicious (total - malicious)
    (if 0 <? elapsed_us then f32_of_f64 (f64_div (f64_of_Z (Z.of_nat total)) (f64_div (f64_of_Z elapsed_us) (f64_of_Z 1000000)))
     else fzero).

(** ** The engine *)

Definition ICMP_PROTOCOL : Z := 1.
Definition TCP_PROTOCOL : Z := 6.
Definition UDP_PROTOCOL : Z := 17.
Definition DNS_PORT : Z := 53.
Definition HTTPS_PORT : Z := 443.
Definition NTP_PORT : Z := 123.
Definition NTP_MAX_AVG_PACKET_BYTES : Z := 90.
Definition ALERT_THRESHOLD_MULTIPLIER : float := f32_of_ratio 12 10.
Definition KNOWN_C2_PORTS : list Z := [4444; 8443; 8080; 1337; 31337].

Record EngineConfig : Type := mk_engine_config {
  ec_max_flows : nat; ec_min_packets : nat; ec_min_packets_floor : nat; ec_batch_size : nat;
  ec_inference_interval_secs : Z; ec_aggregator_window_secs : Z; ec_confirmation_window_fraction : Z }.

(** [drift_sent] are the updates handed to the drift detector's channel. *)
Record Engine : Type := mk_engine {
  trackers : list FlowTracker; inference_pipeline : Inference; aggregator : AttackAggregator;
  drift_sent : list (list float); ml_alert : MLAlert; min_packets : nat; min_packets_floor : nat;
  default_confirmations : nat; batch_size : nat; inference_interval_secs : Z }.

Definition new_engine (inference : Inference) (alert : MLAlert) (c : EngineConfig) (limits : FlowLimits) (num_threads : nat) : Engine :=
  let interval_secs := Z.max (ec_inference_interval_secs c) 1 in
  let ticks_per_window := ec_aggregator_window_secs c / interval_secs in
  let default_confirmations := Z.max (ticks_per_window / Z.max (ec_confirmation_window_fraction c) 1) 1 in
  let max_flows_per_thread := (ec_max_flows c / Nat.max num_threads 1)%nat in {|
  trackers := replicate num_threads (new_tracker (Z.of_nat max_flows_per_thread) limits);
  inference_pipeline := inference; aggregator := new_aggregator (ec_aggregator_window_secs c) (ec_max_flows c);
  drift_sent := []; ml_alert := alert; min_packets := ec_min_packets c;
  min_packets_floor := Nat.max (ec_min_packets_floor c) 1; default_confirmations := Z.to_nat default_confirmations;
  batch_size := ec_batch_size c; inference_interval_secs := ec_inference_interval_secs c |}.

(** [tracker]: the index of a queue's tracker; a division by zero without trackers. *)
Definition tracker_index (queue_id : Z) (e : Engine) : option nat :=
  match trackers e with [] => None | _ => Some (Z.to_nat (queue_id mod Z.of_nat (length (trackers e)))) end.
(** [QueueTrackerSink::process_packet] *)
Definition sink_packet (queue_id : Z) (packet : UserPacket) (is_ingress : bool) (e : Engine) : Engine :=
  match tracker_index queue_id e with
  | None => e
  | Some i => mk_engine (alter (process_packet packet is_ingress) i (trackers e)) (inference_pipeline e) (aggregator e)
                (drift_sent e) (ml_alert e) (min_packets e) (min_packets_floor e) (default_confirmations e) (batch_size e)
                (inference_interval_secs e)
  end.

Definition is_strong_benign (k : FlowKey) (fwd_count bwd_count : nat) (total_bytes : Z) : bool :=
  if (fk_protocol k =? TCP_PROTOCOL) && (fk_dst_port k =? HTTPS_PORT) then (0 <? fwd_count)%nat && (0 <? bwd_count)%nat
  else if (fk_protocol k =? UDP_PROTOCOL) && (fk_dst_port k =? DNS_PORT) then (fwd_count + bwd_count <=? 4)%nat
  else if (fk_protocol k =? UDP_PROTOCOL) && (fk_dst_port k =? NTP_PORT) then
    let total_pkts := Z.of_nat (fwd_count + bwd_count) in
    (0 <? total_pkts) && (total_bytes / total_pkts <=? NTP_MAX_AVG_PACKET_BYTES)
  else false.

Definition effective_min_packets (k : FlowKey) (global floor : nat) : nat :=
  let floored := Nat.max global (Nat.max floor 1) in
  let port := fk_dst_port k in
  if fk_protocol k =? ICMP_PROTOCOL then 1
  else if fk_protocol k =? UDP_PROTOCOL then
    if port =? DNS_PORT then 1
    else if port =? NTP_PORT then 2
    else if (port =? 3333) || (port =? 45700) then 2
    else floored
  else if fk_protocol k =? TCP_PROTOCOL then
    if port =? DNS_PORT then 2
    else if (port =? 3333) || (port =? 45700) then 2
    else if existsb (Z.eqb port) KNOWN_C2_PORTS then 2
    else floored
  else floored.

(** The flows a tick looks at. *)
Definition is_candidate (e : Engine) (flow : FlowSnapshot) : bool :=
  (effective_min_packets (sn_flow_key flow) (min_packets e) (min_packets_floor e) <=? sn_packet_count flow)%nat
  && negb (is_strong_benign (sn_flow_key flow) (sn_fwd_packet_count flow) (sn_bwd_packet_count flow) (sn_total_bytes flow)).

Section Tick.
Context `{L : Ln} `{Sel : SelectFloat} (config : MLInferenceConfig) (cfg : CircuitBreakerConfig)
  (order : gmap FlowKey TrackedFlow -> list FlowKey).

(** Every tracker hands out up to a batch of flows, which it marks as inferred. *)
Fixpoint collect_flows (e : Engine) (l : list FlowTracker) : option (list FlowSnapshot) * list FlowTracker :=
  match l with
  | [] => (Some [], [])
  | t :: l =>
      let '(flows, t) := uninferred_snapshots order (batch_size e) t in
      let '(rest, l) := collect_flows e l in
      (let! flows := flows else None in let! rest := rest else None in
       Some (List.filter (is_candidate e) flows ++ rest)%list, t :: l)
  end.

(** [update_drift]: the z-scores of the first batch. *)
Definition normalize (x : float * (float * float)) : float :=
  let '(val, (mean, std)) := x in
  if fgt (f64_abs std) (f64_of_ratio 1 1000000000000) then f64_div (f64_sub val mean) std else fzero.
Definition drift_snapshot (flow : FlowSnapshot) : list float :=
  let features := extract_from_stats (sn_feature_stats flow) (ae_feature_names config) in
  map normalize (zip (Features.features features) (zip (ae_scaler_mean config) (ae_scaler_std config))).

(** What a tick reads from clocks. *)
Record TickTimes : Type := mk_times {
  tt_now_us : Z; tt_check : Z; tt_fail : Z; tt_elapsed_us : Z; tt_instant : nat -> Z; tt_epoch_secs : Z }.

(** One result: an attack that is confirmed is broadcast. *)
Definition handle_result (tt : TickTimes) (e : Engine) (i : nat) (r : DetectionResult) : Engine :=
  if negb (dr_is_attack r) then e
  else
    let required := default (default_confirmations e)
      (Z.to_nat <$> (dr_attack_type r ≫= fun t => confirmations_for_attack_type t (inference_pipeline e))) in
    let '(alert, agg) := should_alert (tt_instant tt i) (dr_flow_key_raw r) (dr_confidence r) (dr_alert_threshold r) required
                           ALERT_THRESHOLD_MULTIPLIER (aggregator e) in
    mk_engine (trackers e) (inference_pipeline e) agg (drift_sent e)
      (if alert then broadcast_alert (tt_epoch_secs tt) r (ml_alert e) else ml_alert e)
      (min_packets e) (min_packets_floor e) (default_confirmations e) (batch_size e) (inference_interval_secs e).
Fixpoint handle_results (tt : TickTimes) (e : Engine) (i : nat) (l : list DetectionResult) : Engine :=
  match l with
  | [] => e
  | r :: l => handle_results tt (handle_result tt e i r) (S i) l
  end.

Definition with_inference (e : Engine) (w : Inference) : Engine :=
  mk_engine (trackers e) w (aggregator e) (drift_sent e) (ml_alert e) (min_packets e) (min_packets_floor e)
    (default_confirmations e) (batch_size e) (inference_interval_secs e).
Definition run_inference (tt : TickTimes) (flows : list FlowSnapshot) (e : Engine) : result Fault Engine :=
  let batch := take (batch_size e) flows in
  let '(results, w) := infer_batch config cfg (tt_check tt) (tt_fail tt) batch (inference_pipeline e) in
  let? results := results in
  let stats := from_results results (tt_elapsed_us tt) in
  let e := handle_results tt (with_inference e (record_tick_qps (flows_per_second stats) w)) 0 results in
  Ok (mk_engine (trackers e) (inference_pipeline e) (cleanup_at (tt_instant tt (length results)) (aggregator e)) (drift_sent e)
        (ml_alert e) (min_packets e) (min_packets_floor e) (default_confirmations e) (batch_size e) (inference_interval_secs e)).

Definition with_trackers (e : Engine) (l : list FlowTracker) : Engine :=
  mk_engine l (inference_pipeline e) (aggregator e) (drift_sent e) (ml_alert e) (min_packets e) (min_packets_floor e)
    (default_confirmations e) (batch_size e) (inference_interval_secs e).
Definition update_drift (flows : list FlowSnapshot) (e : Engine) : Engine :=
  mk_engine (trackers e) (inference_pipeline e) (aggregator e)
    (drift_sent e ++ map drift_snapshot (take (batch_size e) flows))%list (ml_alert e) (min_packets e) (min_packets_floor e)
    (default_confirmations e) (batch_size e) (inference_interval_secs e).

Definition run_inference_tick (tt : TickTimes) (e : Engine) : result Fault Engine :=
  let cleaned := map (fun t => (cleanup_stale_flows (tt_now_us tt) t).2) (trackers e) in
  let '(flows, l) := collect_flows e cleaned in
  let e := with_trackers e l in
  match flows with
  | None => Err Panicked
  | Some [] => Ok e
  | Some flows => if negb (is_active (state (inference_pipeline e))) then Ok e else run_inference tt flows (update_drift flows e)
  end.
End Tick.

(** ** Windows over events in the order of their times *)

Section Window.
Context {A : Type} (stamp : A -> Z) (alive : Z -> A -> Prop) `{forall now x, Decision (alive now x)}.
Hypothesis alive_later : forall now x y, stamp x <= stamp y -> alive now x -> alive now y.
Hypothesis alive_before : forall now now' x, now <= now' -> alive now' x -> alive now x.

Definition in_order : list A -> Prop := StronglySorted (fun x y => stamp x <= stamp y).

Lemma alive_all now x l : in_order (x :: l) -> alive now x -> filter (alive now) (x :: l) = x :: l.
Proof.
  intros Ho Hx. apply StronglySorted_inv in Ho as [_ Ho]. rewrite filter_cons_True by done. f_equal.
  induction Ho as [|y l Hy Ho IH]; [done|]. rewrite filter_cons_True by eauto. by rewrite IH.
Qed.

(** What a window forgets is what came first. *)
Lemma filter_suffix now l : in_order l -> exists d, l = (d ++ filter (alive now) l)%list /\ Forall (fun x => ~ alive now x) d.
Proof.
  induction l as [|x l IH]; intros Ho; [by exists []|]. destruct (decide (alive now x)) as [Hx|Hx].
  - exists []. split; [by rewrite alive_all|constructor].
  - apply StronglySorted_inv in Ho as [Ho _]. destruct (IH Ho) as (d & Hd & Hn). exists (x :: d).
    rewrite filter_cons_False by done. cbn. split; [by f_equal|by constructor].
Qed.

Lemma filter_dead now d : Forall (fun x => ~ alive now x) d -> filter (alive now) d = [].
Proof. induction 1 as [|x d Hx _ IH]; [done|]. by rewrite filter_cons_False. Qed.

Lemma dead_later now now' d : now <= now' -> Forall (fun x => ~ alive now x) d -> Forall (fun x => ~ alive now' x) d.
Proof. intros Hle Hd. eapply Forall_impl; [exact Hd|]. intros x Hx Ha. apply Hx. by eapply alive_before. Qed.

Lemma in_order_app l k : in_order (l ++ k) -> in_order l /\ in_order k /\ forall x y, x ∈ l -> y ∈ k -> stamp x <= stamp y.
Proof.
  induction l as [|x l IH]; cbn; intros Ho.
  - split; [constructor|]. split; [done|]. intros x y Hx. by apply elem_of_nil in Hx.
  - apply StronglySorted_inv in Ho as [Ho Hx]. destruct (IH Ho) as (H1 & H2 & H3). rewrite Forall_forall in Hx.
    split; [constructor; [done|]; apply Forall_forall; intros y Hy; apply Hx, elem_of_app; by left|]. split; [done|].
    intros y z [->|Hy]%elem_of_cons Hz; [apply Hx, elem_of_app; by right|by apply H3].
Qed.

Lemma in_order_snoc l x : in_order l -> (forall y, y ∈ l -> stamp y <= stamp x) -> in_order (l ++ [x]).
Proof.
  induction l as [|y l IH]; cbn; intros Ho Hl; [by repeat constructor|].
  apply StronglySorted_inv in Ho as [Ho Hy]. constructor; [apply IH; [done|]; intros z Hz; apply Hl; by right|].
  apply Forall_app. split; [done|]. constructor; [apply Hl; by left|constructor].
Qed.

Lemma in_order_drop n l : in_order l -> in_order (drop n l).
Proof. intros Ho. rewrite <- (take_drop n l) in Ho. by destruct (in_order_app _ _ Ho) as (_ & ? & _). Qed.

Lemma in_order_filter (P : A -> Prop) `{forall x, Decision (P x)} l : in_order l -> in_order (filter P l).
Proof.
  induction l as [|x l IH]; intros Ho; [constructor|]. apply StronglySorted_inv in Ho as [Ho Hx].
  destruct (decide (P x)); [rewrite filter_cons_True by done|rewrite filter_cons_False by done; by apply IH].
  constructor; [by apply IH|]. apply Forall_forall. intros y [_ Hy]%list_elem_of_filter. rewrite Forall_forall in Hx. by apply Hx.
Qed.

(** A bounded window: the last [limit] events that are alive, kept across events that
    may forget more of the past. [kept limit now all l]: the list [l] ends [all], and
    what is missing is dead or more than [limit] events ago. *)
Definition kept (limit : nat) (now : Z) (all l : list A) : Prop :=
  exists d, all = (d ++ l)%list /\ ((limit <= length l)%nat \/ Forall (fun x => ~ alive now x) d).

Lemma kept_filter limit now now' all l :
  in_order all -> now <= now' -> kept limit now all l -> kept limit now' all (filter (alive now') l).
Proof.
  intros Ho Hle (d & -> & Hd). destruct (in_order_app _ _ Ho) as (_ & Hol & Hdl).
  destruct (filter_suffix now' l Hol) as (p & Hp & Hn). exists (d ++ p)%list.
  split; [by rewrite <- app_assoc, <- Hp|]. destruct p as [|x p].
  - cbn in Hp. rewrite <- Hp, app_nil_r. destruct Hd as [Hd|Hd]; [by left|right]. by eapply dead_later.
  - right. apply Forall_app. split; [|done]. apply Forall_forall. intros y Hy Ha.
    apply Forall_inv in Hn. apply Hn. eapply alive_later; [|exact Ha]. apply Hdl; [done|]. rewrite Hp. by left.
Qed.

Lemma kept_snoc limit now all l x : kept limit now all l -> kept limit now (all ++ [x]) (l ++ [x]).
Proof.
  intros (d & -> & Hd). exists d. split; [by rewrite <- app_assoc|]. rewrite length_app. cbn. destruct Hd; [left; lia|by right].
Qed.

Lemma kept_drop limit now all l n : kept limit now all l -> (limit <= length l - n)%nat -> kept limit now all (drop n l).
Proof.
  intros (d & -> & Hd) Hn. exists (d ++ take n l)%list. split; [by rewrite <- app_assoc, take_drop|].
  left. rewrite length_drop. lia.
Qed.

(** Below the limit nothing that is alive was lost. *)
Lemma kept_exact limit now all l :
  in_order all -> kept limit now all l -> (length (filter (alive now) all) < limit)%nat ->
  filter (alive now) l = filter (alive now) all.
Proof.
  intros Ho (d & -> & Hd) Hlen. rewrite filter_app in Hlen |- *. destruct Hd as [Hd|Hd]; [|by rewrite (filter_dead now d Hd)].
  destruct (in_order_app _ _ Ho) as (_ & Hol & Hdl). destruct (filter_suffix now l Hol) as (p & Hp & Hn).
  rewrite length_app in Hlen. destruct p as [|x p].
  - cbn in Hp. rewrite <- Hp in Hlen. lia.
  - rewrite (filter_dead now d); [done|]. apply Forall_forall. intros y Hy Ha. apply Forall_inv in Hn. apply Hn.
    eapply alive_later; [|exact Ha]. apply Hdl; [done|]. rewrite Hp. by left.
Qed.
End Window.

(** ** The aggregator against its history *)

Record Report : Type := mk_rep {
  rp_time : Z; rp_key : FlowKey; rp_score : float; rp_threshold : float; rp_required : nat; rp_multiplier : float }.
Inductive agg_op : Type := OpReport (r : Report) | OpCleanup (now : Z).
Definition op_time (o : agg_op) : Z := match o with OpReport r => rp_time r | OpCleanup now => now end.
Definition report_to (r : Report) (a : AttackAggregator) : bool * AttackAggregator :=
  should_alert (rp_time r) (rp_key r) (rp_score r) (rp_threshold r) (rp_required r) (rp_multiplier r) a.
Definition apply_op (a : AttackAggregator) (o : agg_op) : AttackAggregator :=
  match o with OpReport r => (report_to r a).2 | OpCleanup now => cleanup_at now a end.
Definition apply_ops (a : AttackAggregator) (ops : list agg_op) : AttackAggregator := fold_left apply_op ops a.

Definition reports_of (k : FlowKey) (ops : list agg_op) : list (Z * float) :=
  omap (fun o => match o with
                 | OpReport r => if bool_decide (rp_key r = k) then Some (rp_time r, rp_score r) else None
                 | OpCleanup _ => None
                 end) ops.
Definition keys_of (ops : list agg_op) : gset FlowKey :=
  list_to_set (omap (fun o => match o with OpReport r => Some (rp_key r) | OpCleanup _ => None end) ops).
Definition ops_in_order (ops : list agg_op) : Prop := in_order op_time ops.

Section AggregatorHistory.
Variables (window : Z) (limit : nat).
Abbreviation alive := (in_window window).
Abbreviation entry a k := (default [] (detections a !! k)).

Lemma alive_later now (x y : Z * float) : x.1 <= y.1 -> alive now x -> alive now y.
Proof. unfold in_window, duration_since, saturating_sub. lia. Qed.
Lemma alive_before now now' (x : Z * float) : now <= now' -> alive now' x -> alive now x.
Proof. unfold in_window, duration_since, saturating_sub. lia. Qed.

Lemma cleanup_entry now a k : window_duration a = window -> entry (cleanup_at now a) k = filter (alive now) (entry a k).
Proof.
  intros <-. unfold cleanup_at. cbn. rewrite lookup_omap. destruct (detections a !! k) as [l|]; [|done]. cbn.
  by destruct (filter _ l).
Qed.
Lemma cleanup_dom now a : dom (detections (cleanup_at now a)) ⊆ dom (detections a).
Proof.
  intros k. rewrite !elem_of_dom. unfold cleanup_at. cbn. rewrite lookup_omap. intros [l Hl].
  destruct (detections a !! k); [by eexists|done].
Qed.

(** The state after a history: nothing alive is missing below the cap. *)
Record history_ok (ops : list agg_op) (t : Z) (a : AttackAggregator) : Prop := {
  ho_window : window_duration a = window; ho_limit : max_flow_keys a = limit;
  ho_time : Forall (fun o => op_time o <= t) ops; ho_order : ops_in_order ops;
  ho_keys : dom (detections a) ⊆ keys_of ops;
  ho_entries : forall k, kept alive MAX_DETECTIONS_PER_FLOW t (reports_of k ops) (entry a k) }.

Lemma reports_times k ops t : Forall (fun o => op_time o <= t) ops -> Forall (fun e : Z * float => e.1 <= t) (reports_of k ops).
Proof.
  induction 1 as [|o ops Ho _ IH]; [constructor|]. unfold reports_of. destruct o as [r|now]; cbn; [|done].
  destruct (bool_decide _); [by constructor|done].
Qed.
Lemma reports_in_order k ops : ops_in_order ops -> in_order fst (reports_of k ops).
Proof.
  induction ops as [|o ops IH]; intros Ho; [constructor|]. apply StronglySorted_inv in Ho as [Ho Hall].
  unfold reports_of. destruct o as [r|now]; cbn; [|by apply IH]. destruct (bool_decide _); [|by apply IH].
  constructor; [by apply IH|]. clear IH Ho. induction Hall as [|o' ops Hle _ IH]; [constructor|].
  destruct o' as [r'|now']; cbn; [|done]. destruct (bool_decide _); [by constructor|done].
Qed.
Lemma reports_snoc k ops o : reports_of k (ops ++ [o]) = (reports_of k ops ++ reports_of k [o])%list.
Proof. apply omap_app. Qed.
Lemma keys_snoc ops o : keys_of (ops ++ [o]) = keys_of ops ∪ keys_of [o].
Proof. unfold keys_of. by rewrite omap_app, list_to_set_app_L. Qed.

(** A report with room for its flow: what the entry holds afterwards. *)
Lemma report_room ops t a r :
  history_ok ops t a -> (size (keys_of (ops ++ [OpReport r])) <= limit)%nat ->
  ((limit <=? size (detections a))%nat && bool_decide (detections a !! rp_key r = None)) = false.
Proof.
  intros H Hk. apply andb_false_iff. destruct (decide (detections a !! rp_key r = None)) as [Hn|Hn]; [left|right; by apply bool_decide_eq_false].
  apply Nat.leb_gt. rewrite <- size_dom. eapply Nat.lt_le_trans; [|exact Hk].
  assert ({[rp_key r]} ∪ dom (detections a) ⊆ keys_of (ops ++ [OpReport r])) as Hsub.
  { rewrite keys_snoc. pose proof (ho_keys _ _ _ H). unfold keys_of at 2. cbn. set_solver. }
  apply subseteq_size in Hsub. rewrite size_union, size_singleton in Hsub; [lia|].
  apply not_elem_of_dom in Hn. set_solver.
Qed.
End AggregatorHistory.

Section AggregatorSteps.
Variables (window : Z) (limit : nat).

Definition pushed (a : AttackAggregator) (r : Report) : list (Z * float) :=
  (filter (in_window window (rp_time r)) (default [] (detections a !! rp_key r)) ++ [(rp_time r, rp_score r)])%list.
Definition history_limit (r : Report) : nat := Nat.max MAX_DETECTIONS_PER_FLOW (rp_required r).
Definition capped (r : Report) (l : list (Z * float)) : list (Z * float) :=
  if (history_limit r <? length l)%nat then drop (length l - history_limit r) l else l.

Lemma report_effect a r :
  window_duration a = window ->
  ((max_flow_keys a <=? size (detections a))%nat && bool_decide (detections a !! rp_key r = None)) = false ->
  let l := capped r (pushed a r) in
  report_to r a =
    ((if (length l <? rp_required r)%nat then false
      else fgt (f32_div (f32_sum (map snd l)) (f32_of_Z (Z.of_nat (length l)))) (f32_mul (rp_threshold r) (rp_multiplier r))),
     with_detections a (<[rp_key r := l]> (detections a))).
Proof.
  intros Hw Hroom. unfold report_to, should_alert. rewrite Hroom. cbv zeta. rewrite Hroom, Hw. unfold capped, pushed, history_limit.
  by destruct (length _ <? rp_required r)%nat.
Qed.

Lemma history_step ops t a o :
  history_ok window limit ops t a -> t <= op_time o -> (size (keys_of (ops ++ [o])) <= limit)%nat ->
  history_ok window limit (ops ++ [o]) (op_time o) (apply_op a o).
Proof.
  intros H Ht Hk. pose proof (ho_window _ _ _ _ _ H) as Hw.
  assert (Forall (fun o' => op_time o' <= op_time o) (ops ++ [o])) as Htime.
  { apply Forall_app. split; [|by repeat constructor]. eapply Forall_impl; [exact (ho_time _ _ _ _ _ H)|]. cbn. lia. }
  assert (ops_in_order (ops ++ [o])) as Hord.
  { apply in_order_snoc; [exact (ho_order _ _ _ _ _ H)|]. intros y Hy. rewrite Forall_forall in Htime. apply Htime, elem_of_app. by left. }
  assert (forall k, kept (in_window window) MAX_DETECTIONS_PER_FLOW (op_time o) (reports_of k ops)
                      (filter (in_window window (op_time o)) (default [] (detections a !! k)))) as Hf.
  { intros k. eapply kept_filter; [apply alive_later|apply alive_before| |exact Ht|exact (ho_entries _ _ _ _ _ H k)].
    exact (reports_in_order k ops (ho_order _ _ _ _ _ H)). }
  destruct o as [r|now]; cbn [apply_op op_time] in *.
  - pose proof (report_room window limit ops t a r H Hk) as Hroom. rewrite <- (ho_limit _ _ _ _ _ H) in Hroom.
    rewrite (report_effect a r Hw Hroom). cbn [snd]. split; cbn; [done|exact (ho_limit _ _ _ _ _ H)|done|done| |].
    + rewrite dom_insert, keys_snoc. pose proof (ho_keys _ _ _ _ _ H). unfold keys_of at 2. cbn. set_solver.
    + intros k. rewrite reports_snoc. destruct (decide (rp_key r = k)) as [<-|Hne].
      * rewrite lookup_insert_eq. cbn. rewrite bool_decide_eq_true_2 by done. specialize (Hf (rp_key r)).
        apply (kept_snoc _ _ _ _ _ (rp_time r, rp_score r)) in Hf. unfold capped. fold (pushed a r) in Hf.
        destruct (history_limit r <? _)%nat eqn:Hl; [|exact Hf]. apply Nat.ltb_lt in Hl. apply kept_drop; [exact Hf|].
        unfold history_limit in *. lia.
      * rewrite lookup_insert_ne by done. cbn. rewrite bool_decide_eq_false_2 by done. rewrite app_nil_r.
        destruct (ho_entries _ _ _ _ _ H k) as (d & Hd & [Hl|Hl]); exists d; (split; [done|]); [by left|right].
        eapply dead_later; [apply alive_before|exact Ht|exact Hl].
  - split; cbn; [exact Hw|exact (ho_limit _ _ _ _ _ H)|done|done| |].
    + rewrite keys_snoc. pose proof (ho_keys _ _ _ _ _ H). pose proof (cleanup_dom now a). cbn in *. set_solver.
    + intros k. rewrite reports_snoc. cbn [reports_of omap list_omap]. rewrite app_nil_r.
      pose proof (cleanup_entry window now a k Hw) as He. cbn in He. rewrite He. apply Hf.
Qed.

End AggregatorSteps.

Section AggregatorReached.
Variables (window : Z) (limit : nat).

Lemma history_init n t : history_ok window n [] t (mk_aggregator ∅ window n).
Proof.
  split; [done|done|constructor|constructor| |].
  - cbn. by rewrite dom_empty_L.
  - intros k. cbn. rewrite lookup_empty. exists []. split; [done|]. right. constructor.
Qed.

Lemma history_reached : forall ops, ops_in_order ops -> (size (keys_of ops) <= Nat.max limit 1)%nat ->
  exists t, Forall (fun o => op_time o <= t) ops /\ (forall t', Forall (fun o => op_time o <= t') ops -> ops <> [] -> t <= t') /\
    history_ok window (Nat.max limit 1) ops t (apply_ops (mk_aggregator ∅ window (Nat.max limit 1)) ops).
Proof.
  intros ops. induction ops as [|o ops IH] using rev_ind; intros Ho Hk.
  - exists 0. split; [constructor|]. split; [done|]. apply history_init.
  - destruct (in_order_app _ _ _ Ho) as (Ho1 & _ & Hle).
    assert (size (keys_of ops) <= Nat.max limit 1)%nat as Hk1.
    { etrans; [|exact Hk]. apply subseteq_size. rewrite keys_snoc. set_solver. }
    destruct (IH Ho1 Hk1) as (t & Ht & Hmin & H). exists (op_time o).
    assert (Forall (fun o' => op_time o' <= op_time o) ops) as Hops.
    { apply Forall_forall. intros y Hy. apply Hle; [done|by left]. }
    split; [apply Forall_app; split; [done|by repeat constructor]|]. split.
    + intros t' Ht' _. apply Forall_app in Ht' as [_ Ht']. by apply Forall_inv in Ht'.
    + unfold apply_ops. rewrite fold_left_app. cbn [fold_left]. destruct ops as [|o' ops'].
      * apply (history_step window (Nat.max limit 1) [] (op_time o)); [apply history_init|done|done].
      * eapply history_step; [exact H| |exact Hk]. by apply Hmin.
Qed.
End AggregatorReached.

Lemma from_secs_new (window_secs : Z) (n : nat) :
  new_aggregator window_secs n = mk_aggregator ∅ (from_secs window_secs) (Nat.max n 1).
Proof. done. Qed.

(** Confirmations are counted exactly: after any reports and cleanups in the order of
    their times, on no more flows than the aggregator has room for, a report raises an
    alert precisely when the reports of its flow within the window, itself included,
    are at least as many as required and their mean exceeds the threshold; this holds
    as long as at most 256 of them are in the window. *)
Theorem alerts_need_confirmations (window_secs : Z) (max_flow_keys : nat) (ops : list agg_op) (r : Report) :
  ops_in_order (ops ++ [OpReport r]) -> (size (keys_of (ops ++ [OpReport r])) <= max_flow_keys)%nat ->
  let recent := filter (in_window (from_secs window_secs) (rp_time r)) (reports_of (rp_key r) ops) in
  (length recent < MAX_DETECTIONS_PER_FLOW)%nat ->
  let l := (recent ++ [(rp_time r, rp_score r)])%list in
  (report_to r (apply_ops (new_aggregator window_secs max_flow_keys) ops)).1 =
  (rp_required r <=? length l)%nat &&
  fgt (f32_div (f32_sum (map snd l)) (f32_of_Z (Z.of_nat (length l)))) (f32_mul (rp_threshold r) (rp_multiplier r)).
Proof.
  intros Ho Hk recent Hlen l. rewrite from_secs_new.
  destruct (in_order_app _ _ _ Ho) as (Ho1 & _ & Hle).
  assert (size (keys_of ops) <= Nat.max max_flow_keys 1)%nat as Hk1.
  { assert (size (keys_of ops) <= size (keys_of (ops ++ [OpReport r])))%nat by (apply subseteq_size; rewrite keys_snoc; set_solver). lia. }
  assert (size (keys_of (ops ++ [OpReport r])) <= Nat.max max_flow_keys 1)%nat as Hk2 by lia.
  destruct (history_reached (from_secs window_secs) max_flow_keys ops Ho1 Hk1) as (t & _ & Hmin & H).
  set (a := apply_ops _ ops) in *.
  pose proof (report_room _ _ _ _ _ _ H Hk2) as Hroom. rewrite <- (ho_limit _ _ _ _ _ H) in Hroom.
  rewrite (report_effect (from_secs window_secs) a r (ho_window _ _ _ _ _ H) Hroom). cbn [fst].
  assert (filter (in_window (from_secs window_secs) (rp_time r)) (default [] (detections a !! rp_key r)) = recent) as Hrec.
  { eapply (kept_exact fst _ (alive_later _)); [by apply reports_in_order| |exact Hlen].
    destruct ops as [|o ops']; [cbn; exists []; split; [done|right; constructor]|].
    assert (t <= rp_time r) as Ht by (apply Hmin; [apply Forall_forall; intros y Hy; apply (Hle y (OpReport r)); [done|by left]|done]).
    destruct (ho_entries _ _ _ _ _ H (rp_key r)) as (d & Hd & [Hl|Hl]); exists d; (split; [exact Hd|]); [by left|right].
    eapply dead_later; [apply alive_before|exact Ht|exact Hl]. }
  unfold pushed. rewrite Hrec. fold l. assert (length l <= history_limit r)%nat as Hcap.
  { unfold l, history_limit. rewrite length_app. cbn. lia. }
  unfold capped. rewrite (proj2 (Nat.ltb_ge _ _) Hcap). rewrite Nat.leb_antisym. by destruct (length l <? rp_required r)%nat.
Qed.

Lemma alerts_need_confirmations_witness :
  let k := mk_key [10; 0; 0; 1] [10; 0; 0; 2] 4000 80 6 V4 in
  let rep t := mk_rep (from_secs t) k (f32_of_Z 1) (f32_of_ratio 1 2) 2 ALERT_THRESHOLD_MULTIPLIER in
  let a ops := apply_ops (new_aggregator 30 4) ops in
  (report_to (rep 10) (a [])).1 = false /\
  (report_to (rep 20) (a [OpReport (rep 10)])).1 = true /\
  (report_to (rep 50) (a [OpReport (rep 10); OpCleanup (from_secs 45)])).1 = false.
Proof.
  intros k rep a. split; [|split]; subst a; cbv beta.
  - rewrite (alerts_need_confirmations 30 4 [] (rep 10)); [reflexivity| | |vm_compute; lia]; [constructor; constructor|].
    apply (bool_decide_eq_true_1 _). vm_compute. reflexivity.
  - rewrite (alerts_need_confirmations 30 4 [OpReport (rep 10)] (rep 20));
      [vm_compute; reflexivity| | |].
    + cbn [app]. repeat (apply SSorted_cons; [|repeat (apply Forall_cons_2; [vm_compute; discriminate|]); apply Forall_nil_2]). apply SSorted_nil.
    + apply (bool_decide_eq_true_1 _). vm_compute. reflexivity.
    + vm_compute. lia.
  - rewrite (alerts_need_confirmations 30 4 [OpReport (rep 10); OpCleanup (from_secs 45)] (rep 50));
      [vm_compute; reflexivity| | |].
    + cbn [app]. repeat (apply SSorted_cons; [|repeat (apply Forall_cons_2; [vm_compute; discriminate|]); apply Forall_nil_2]). apply SSorted_nil.
    + apply (bool_decide_eq_true_1 _). vm_compute. reflexivity.
    + vm_compute. lia.
Defined.

(** However it is used, the aggregator keeps at most its number of flows. *)
Lemma aggregator_bounded (a : AttackAggregator) (o : agg_op) :
  (0 < max_flow_keys a)%nat -> (size (detections a) <= max_flow_keys a)%nat ->
  max_flow_keys (apply_op a o) = max_flow_keys a /\ (size (detections (apply_op a o)) <= max_flow_keys a)%nat.
Proof.
  intros Hpos Hs. assert (forall now, size (detections (cleanup_at now a)) <= size (detections a))%nat as Hc.
  { intros now. rewrite <- !size_dom. apply subseteq_size, cleanup_dom. }
  destruct o as [r|now]; cbn [apply_op]; [|split; [done|]; specialize (Hc now); lia].
  unfold report_to, should_alert. set (is_new := bool_decide _).
  set (a1 := if _ && is_new then cleanup_at (rp_time r) a else a).
  assert (max_flow_keys a1 = max_flow_keys a /\ (size (detections a1) <= max_flow_keys a)%nat /\
          (is_new = false -> a1 = a)) as (Hm & Hs1 & Heq).
  { unfold a1. destruct is_new; [|by rewrite andb_false_r]. rewrite andb_true_r. destruct (_ <=? _)%nat; [|done].
    split; [done|]. split; [|done]. specialize (Hc (rp_time r)). lia. }
  clearbody a1. destruct ((max_flow_keys a1 <=? size (detections a1))%nat && is_new) eqn:E; [done|].
  assert (forall l, size (<[rp_key r := l]> (detections a1)) <= max_flow_keys a)%nat as Hins.
  { intros l. apply andb_false_iff in E as [E|E].
    - apply Nat.leb_gt in E. rewrite <- size_dom, dom_insert. rewrite Hm in E.
      rewrite size_union_alt, size_singleton.
      assert (size (dom (detections a1) ∖ {[rp_key r]}) <= size (detections a1))%nat; [|lia].
      rewrite <- size_dom. apply subseteq_size. set_solver.
    - rewrite (Heq E). unfold is_new in E. apply bool_decide_eq_false in E. rewrite <- size_dom, dom_insert.
      assert ({[rp_key r]} ∪ dom (detections a) ⊆ dom (detections a)) as Hsub.
      { apply union_subseteq. split; [|done]. apply singleton_subseteq_l, elem_of_dom. destruct (_ !! _); [by eexists|done]. }
      apply subseteq_size in Hsub. rewrite size_dom in Hsub. lia. }
  destruct (_ <? rp_required r)%nat; cbn; split; auto.
Qed.

(** ** The drift window *)

Definition last_n {A} (n : nat) (l : list A) : list A := drop (length l - n) l.

Lemma last_n_all {A} (n : nat) (l : list A) : (length l <= n)%nat -> last_n n l = l.
Proof. intros H. unfold last_n. by replace (length l - n)%nat with 0%nat by lia. Qed.

Lemma last_n_suffix {A} (n : nat) (d l : list A) : (n <= length l)%nat -> last_n n (d ++ l) = last_n n l.
Proof.
  intros H. unfold last_n. rewrite length_app.
  replace (length d + length l - n)%nat with (length d + (length l - n))%nat by lia. by rewrite <- drop_drop, drop_app_length.
Qed.

Lemma last_n_app {A} (n : nat) (l k : list A) : last_n n (last_n n l ++ k) = last_n n (l ++ k).
Proof.
  destruct (decide (length l <= n)%nat) as [Hl|Hl]; [by rewrite (last_n_all n l)|].
  assert (l ++ k = take (length l - n) l ++ (last_n n l ++ k))%list as ->.
  { unfold last_n. by rewrite app_assoc, take_drop. }
  symmetry. apply last_n_suffix. rewrite length_app. unfold last_n. rewrite length_drop. lia.
Qed.

Lemma filter_one {A} (P : A -> Prop) `{forall x, Decision (P x)} (x : A) : P x -> filter P [x] = [x].
Proof. intros Hx. by rewrite filter_cons_True. Qed.

Section DriftWindow.
Variable window : Z.

Definition recent (now : Z) (e : Z * list float) : Prop := duration_since now e.1 <= window.
#[export] Instance recent_dec now e : Decision (recent now e).
Proof. unfold recent. apply _. Defined.

Lemma recent_later now (x y : Z * list float) : x.1 <= y.1 -> recent now x -> recent now y.
Proof. unfold recent, duration_since, saturating_sub. lia. Qed.
Lemma recent_before now now' (x : Z * list float) : now <= now' -> recent now' x -> recent now x.
Proof. unfold recent, duration_since, saturating_sub. lia. Qed.

Lemma evict_filter now l : in_order fst l -> evict_stale window now l = filter (recent now) l.
Proof.
  induction l as [|x l IH]; intros Ho; [done|]. cbn [evict_stale].
  destruct (Z.ltb_spec window (duration_since now x.1)) as [Hx|Hx].
  - rewrite filter_cons_False by (unfold recent; lia). apply StronglySorted_inv in Ho as [Ho _]. by apply IH.
  - by rewrite (alive_all fst _ recent_later now x l Ho Hx).
Qed.

Lemma filter_last_n now n l : in_order fst l -> filter (recent now) (last_n n l) = last_n n (filter (recent now) l).
Proof.
  intros Ho. destruct (filter_suffix fst _ recent_later now l Ho) as (p & Hp & Hn).
  set (G := filter (recent now) l) in *.
  assert (Forall (recent now) G) as HG.
  { apply Forall_forall. intros x Hx. by apply list_elem_of_filter in Hx as [? _]. }
  destruct (decide (n <= length G)%nat) as [Hle|Hle].
  - rewrite Hp, last_n_suffix by done. by apply filter_id, Forall_drop.
  - rewrite (last_n_all n G) by lia. unfold last_n. rewrite Hp at 2. rewrite drop_app_le by (rewrite Hp, length_app; lia).
    rewrite filter_app, (filter_dead recent now (drop _ p)) by (by apply Forall_drop). by apply filter_id.
Qed.
End DriftWindow.

Definition drift_updates (us : list (Z * list float)) (d : DriftDetector) : DriftDetector :=
  fold_left (fun d u => drift_update u.1 u.2 d) us d.
(** The updates with a value for every feature of the baseline. *)
Definition fits (b : FeatureBaselines) (u : Z * list float) : Prop := length u.2 = length (names b).
#[export] Instance fits_dec b u : Decision (fits b u).
Proof. unfold fits. apply _. Defined.

Lemma drift_updates_invariant (b : FeatureBaselines) (window : Z) (max : nat) (us : list (Z * list float)) :
  names b <> [] -> 0 <= window -> in_order fst us ->
  let d := drift_updates us (new_drift (Some b) window max) in
  num_features d = length (names b) /\ baselines d = Some b /\ drift_window d = window /\ max_snapshots d = max /\
  snapshots d = match last (filter (fits b) us) with
                | None => []
                | Some x => last_n max (filter (recent window x.1) (filter (fits b) us))
                end.
Proof.
  intros Hb Hw. induction us as [|u us IH] using rev_ind; intros Ho; [done|].
  destruct (in_order_app _ _ _ Ho) as (Ho1 & _ & Hle). destruct (IH Ho1) as (H1 & H2 & H3 & H4 & H5).
  unfold drift_updates in *. rewrite fold_left_app. cbn [fold_left]. set (d := fold_left _ us _) in *. cbv zeta.
  unfold drift_update. rewrite filter_app, H1. rewrite (proj2 (Nat.ltb_lt 0 _)) by (destruct (names b); [done|cbn; lia]).
  cbn [andb]. destruct (Nat.eqb_spec (length u.2) (length (names b))) as [Hu|Hu]; cbn [negb].
  - rewrite (filter_one (fits b) u) by done. rewrite last_snoc. cbn. split_and!; try done.
    fold (last_n (max_snapshots d) (evict_stale (drift_window d) u.1 (snapshots d ++ [u]))).
    replace ((u.1, u.2) :: []) with [u] by by destruct u. fold (last_n (max_snapshots d) (evict_stale (drift_window d) u.1 (snapshots d ++ [u]))).
    rewrite H3, H4, H5.
    pose proof (in_order_filter fst (fits b) us Ho1) as Hof.
    assert (recent window u.1 u) as Hru by (unfold recent, duration_since, saturating_sub; lia).
    destruct (last (filter (fits b) us)) as [x|] eqn:Hlast.
    + assert (x.1 <= u.1) as Hxu.
      { apply Hle; [|by left]. apply last_Some_elem_of, list_elem_of_filter in Hlast. by destruct Hlast. }
      assert (forall n l, in_order fst l -> Forall (fun y => y ∈ filter (fits b) us) l -> in_order fst (last_n n l ++ [u])) as Hsn.
      { intros n l Hl Hall. apply in_order_snoc; [by apply in_order_drop|]. intros y Hy%subseteq_drop.
        rewrite Forall_forall in Hall. apply Hall, list_elem_of_filter in Hy. apply Hle; [by destruct Hy|by left]. }
      assert (in_order fst (filter (recent window x.1) (filter (fits b) us))) as Hofr.
      { by apply in_order_filter. }
      rewrite evict_filter; [|by apply Hsn; [|apply Forall_forall; intros y [_ ?]%list_elem_of_filter]].
      rewrite filter_app, (filter_one (recent window u.1) u) by done.
      rewrite filter_last_n, last_n_app by done. f_equal. rewrite filter_app, (filter_one (recent window u.1) u) by done. f_equal.
      apply list_filter_filter_l. intros y Hy. by eapply recent_before; [exact Hxu|].
    + apply last_None in Hlast. rewrite Hlast. cbn [app].
      rewrite evict_filter by (repeat constructor). by rewrite (filter_one (recent window u.1) u).
  - rewrite (filter_cons_False (fits b) u []) by done. by rewrite app_nil_r.
Qed.

Lemma check_features_total (n : float) (names : list string) : forall rows i drifted dev,
  (i + length rows <= length names)%nat -> exists r, check_features n names i rows drifted dev = Ok r.
Proof.
  induction rows as [|[sum [m s]] rows IH]; intros i drifted dev Hi; [by eexists|]. cbn [check_features length] in *.
  destruct (flt s _); [apply IH; lia|]. destruct (fgt _ (f64_of_Z 3)); [|apply IH; lia].
  destruct (lookup_lt_is_Some_2 names i) as [name ->]; [lia|]. apply IH; lia.
Qed.

Lemma check_drift_total (d : DriftDetector) :
  (forall b, baselines d = Some b -> num_features d = length (names b)) -> exists r, check_drift d = Ok r.
Proof.
  intros Hn. unfold check_drift. destruct (baselines d) as [b|]; [|by eexists].
  destruct (_ || _); [by eexists|].
  destruct (check_features_total (f64_of_Z (Z.of_nat (length (snapshots d)))) (names b)
    (take (num_features d) (zip (fold_left (fun sums e => add_features sums e.2) (snapshots d) (replicate (num_features d) fzero))
       (zip (means b) (stds b)))) 0 [] fzero) as [[drifted dev] ->].
  - rewrite length_take, (Hn b) by done. lia.
  - cbn. by eexists.
Qed.

(** C35: The drift window is exact: after updates in the order of their times, the last one
    complete, the detector holds the last of the complete updates that are within the
    window, at most its maximum of them, and checking them for drift never indexes
    outside the baseline. *)
Theorem drift_window_exact (b : FeatureBaselines) (window : Z) (max : nat) (us : list (Z * list float)) (now : Z) (features : list float) :
  names b <> [] -> 0 <= window -> in_order fst (us ++ [(now, features)]) -> length features = length (names b) ->
  let d := drift_updates (us ++ [(now, features)]) (new_drift (Some b) window max) in
  snapshots d = last_n max (filter (recent window now) (filter (fits b) us) ++ [(now, features)]) /\
  exists report, check_drift d = Ok report.
Proof.
  intros Hb Hw Ho Hf d. destruct (drift_updates_invariant b window max _ Hb Hw Ho) as (H1 & H2 & _ & _ & H5).
  fold d in H1, H2, H5. split.
  - rewrite filter_app, (filter_one (fits b) (now, features)), last_snoc in H5 by done. cbn [fst] in H5.
    rewrite filter_app, (filter_one (recent window now) (now, features)) in H5; [done|].
    unfold recent, duration_since, saturating_sub. cbn. lia.
  - apply check_drift_total. intros b' Hb'. rewrite H2 in Hb'. by injection Hb' as <-.
Qed.

Lemma drift_window_exact_witness :
  let b := mk_baselines ["a"; "b"] [fzero; fzero] [f64_of_Z 1; f64_of_Z 1] in
  let u t := (t, [f64_of_Z t; fzero]) in
  snapshots (drift_updates ([u 1; (5, [fzero]); u 20; u 25; u 28] ++ [u 30]) (new_drift (Some b) 10 3)) = [u 25; u 28; u 30].
Proof.
  intros b u. destruct (drift_window_exact b 10 3 [u 1; (5, [fzero]); u 20; u 25; u 28] 30 [f64_of_Z 30; fzero]) as [H _];
    [done|lia| |done|etrans; [exact H|vm_compute; reflexivity]].
  cbn [app]. repeat (apply SSorted_cons; [|repeat (apply Forall_cons_2; [vm_compute; discriminate|]); apply Forall_nil_2]). apply SSorted_nil.
Defined.

(** The updates are z-scores, but the baseline they are compared with is that of the raw
    features: traffic exactly at the trained mean is reported as drift. *)
Lemma healthy_features_drift :
  let mean := f64_of_Z 10 in
  let b := mk_baselines ["pkt_len_mean"] [mean] [f64_of_Z 1] in
  let z := normalize (mean, (mean, f64_of_Z 1)) in
  check_drift (drift_updates [(1, [z])] (new_drift (Some b) 10 3)) = Ok (Some (mk_report ["pkt_len_mean"] (f64_of_Z 10))).
Proof. vm_compute. reflexivity. Qed.

(** ** A tick *)

Section TickSafe.
Context `{L : Ln} `{SelL : SelectFloatLaws} (config : MLInferenceConfig) (cfg : CircuitBreakerConfig)
  (order : gmap FlowKey TrackedFlow -> list FlowKey).

(** The stages have a batch size and their models come back. *)
Definition comes_back (st : PipelineStageAdapter) : Prop :=
  (0 < sa_batch_size st)%nat /\
  forall rows, sa_model st rows (sa_batch_size st) (sa_n_features st) (sa_kind st) (sa_output_heads st) <> Err Looping.

Lemma stage_chunks_comes_back st rows : comes_back st -> forall fuel start acc, (length rows - start < fuel)%nat ->
  stage_chunks fuel st rows (length rows) start acc <> Err Looping.
Proof.
  intros [Hb Hm]. induction fuel as [|fuel IH]; intros start acc Hf; [lia|]. cbn [stage_chunks].
  destruct (start <? length rows)%nat eqn:Hlt; [|done]. apply Nat.ltb_lt in Hlt.
  destruct (sa_model st _ _ _ _ _) as [ts|f] eqn:E; cbn [res_bind]; [apply IH; lia|]. intros [= ->]. by apply Hm in E.
Qed.

Lemma try_map_error {E A B} (f : A -> result E B) (l : list A) (e : E) : try_map f l = Err e -> exists x, f x = Err e.
Proof.
  induction l as [|x l IH]; [done|]. cbn. destruct (f x) as [y|e'] eqn:Hx; cbn; [|intros [= ->]; by exists x].
  destruct (try_map f l) as [ys|e']; cbn; [done|]. intros [= ->]. by apply IH.
Qed.

Lemma apply_steps_comes_back name : forall steps v, apply_steps config name v steps <> Err Looping.
Proof.
  induction steps as [|s steps IH]; intros v; [done|]. cbn [apply_steps].
  assert (apply_preprocessing_step config name v s <> Err Looping) as H.
  { destruct s; cbn [apply_preprocessing_step]; unfold quantile_transform;
      repeat match goal with |- context [match ?x with _ => _ end] => destruct x end; done. }
  destruct (apply_preprocessing_step config name v s) as [v'|f]; cbn [res_bind]; [apply IH|congruence].
Qed.

Lemma rows_come_back st flows so : pipeline_stage_rows config st flows so <> Err Looping.
Proof.
  intros H. apply try_map_error in H as [[idx flow] H]. apply try_map_error in H as [i H].
  unfold stage_input_value in H. destruct (source i).
  - unfold preprocess_pipeline_feature in H.
    pose proof (apply_steps_comes_back (in_name i) (sa_preprocessing st) (get (sn_feature_stats flow) (in_name i))) as Hn.
    destruct (apply_steps _ _ _ _); [done|]. cbn in H. congruence.
  - repeat match type of H with context [match ?x with _ => _ end] => destruct x; try done end.
Qed.

Lemma stages_come_back : forall stages flows po, Forall comes_back stages -> run_stages config stages flows po <> Err Looping.
Proof.
  induction stages as [|st stages IH]; intros flows po Hs; [done|]. inversion Hs as [|? ? Hst Hs']; subst. cbn [run_stages].
  assert (run_stage config st flows po <> Err Looping) as H.
  { unfold run_stage. pose proof (rows_come_back st flows (scalars po)) as Hr.
    destruct (pipeline_stage_rows config st flows (scalars po)) as [rows|f] eqn:E; cbn [res_bind]; [|congruence].
    rewrite <- (pipeline_stage_rows_length _ _ _ _ _ E).
    pose proof (stage_chunks_comes_back st rows Hst (S (length rows)) 0 (∅, ∅) ltac:(lia)) as Hc.
    destruct (stage_chunks _ _ _ _ _ _) as [acc|f]; cbn [res_bind]; [done|congruence]. }
  destruct (run_stage config st flows po) as [po'|f]; cbn [res_bind]; [by apply IH|congruence].
Qed.

Lemma record_failure_ok t_fail w : exists w', record_failure cfg t_fail w = (Ok tt, w').
Proof.
  unfold record_failure, sm_bind, sm_get. destruct (cb_phase _); [|by eexists..].
  destruct (_ || _); (destruct (_ <=? _); by eexists).
Qed.

(** Models that come back: what a batch can give. *)
Lemma infer_batch_gives t_check t_fail flows w :
  (forall a info, state w = Active a info -> Forall comes_back (ad_stages a)) ->
  exists results w', infer_batch config cfg t_check t_fail flows w = (Ok results, w') /\
    (results = [] \/ exists a info po, state w = Active a info /\ run_stages config (ad_stages a) flows no_outputs = Ok po /\
       results = pipeline_detection_results flows (ad_outputs a) (ad_detection_rules a) (ad_labels a) (ad_normal_label a) po).
Proof.
  intros Hc. unfold infer_batch, sm_bind at 1.
  assert (exists open w1, is_circuit_open cfg t_check w = (Ok open, w1) /\ state w1 = state w) as (open & w1 & -> & Hst).
  { unfold is_circuit_open, sm_bind, sm_get. destruct (cb_phase (breaker w)); [by do 2 eexists| |by do 2 eexists].
    destruct (cb_cooldown_secs cfg <=? _); by do 2 eexists. }
  destruct open; [do 2 eexists; split; [done|by left]|]. unfold sm_bind at 1, sm_get.
  destruct (state w1) as [|a info|] eqn:Ha; try (do 2 eexists; split; [done|by left]).
  specialize (Hc a info (eq_sym Hst)). unfold sm_bind, sm_try, infer_pipeline.
  pose proof (stages_come_back (ad_stages a) flows no_outputs Hc) as Hn.
  destruct (run_stages config (ad_stages a) flows no_outputs) as [po|[| |]] eqn:Hr; [| | |done].
  - cbn. do 2 eexists. split; [done|]. right. by exists a, info, po.
  - destruct (record_failure_ok t_fail w1) as [w2 H2]. cbn -[record_failure record_success]. unfold sm_bind. rewrite H2. cbn. do 2 eexists. split; [done|by left].
  - destruct (record_failure_ok t_fail w1) as [w2 H2]. cbn -[record_failure]. unfold sm_bind. rewrite H2. cbn. do 2 eexists. split; [done|by left].
Qed.
End TickSafe.

Section TickTheorem.
Context `{L : Ln} `{SelL : SelectFloatLaws} (config : MLInferenceConfig) (cfg : CircuitBreakerConfig)
  (order : gmap FlowKey TrackedFlow -> list FlowKey).

(** The flows a tick may run: what each tracker, rid of its stale flows, hands out of those
    not scored yet, without the flows that are no candidates; the first batch of them is run. *)
Definition handed_out (e : Engine) (now : Z) (t : FlowTracker) : list FlowSnapshot :=
  default [] (uninferred_snapshots order (batch_size e) (cleanup_stale_flows now t).2).1.
Definition candidates (e : Engine) (now : Z) : list FlowSnapshot :=
  flat_map (fun t => filter (fun flow => is_candidate e flow = true) (handed_out e now t)) (trackers e).

Lemma filter_bool {A} (f : A -> bool) (l : list A) : List.filter f l = filter (fun x => f x = true) l.
Proof.
  induction l as [|x l IH]; [done|]. rewrite filter_cons. cbn [List.filter].
  destruct (f x); [by rewrite decide_True, IH|by rewrite decide_False, IH].
Qed.
Lemma collect_candidates e now : exists l', collect_flows order e (map (fun t => (cleanup_stale_flows now t).2) (trackers e)) = (Some (candidates e now), l').
Proof.
  unfold candidates, handed_out. induction (trackers e) as [|t l (l' & Hl)]; [by exists []|]. cbn [map collect_flows flat_map]. rewrite Hl.
  pose proof (uninferred_snapshots_total order (batch_size e) (cleanup_stale_flows now t).2) as Ht.
  destruct (uninferred_snapshots order (batch_size e) (cleanup_stale_flows now t).2) as [got t'] eqn:E. cbn in Ht. destruct Ht as (l0 & -> & _).
  eexists. cbn [fst default]. by rewrite filter_bool.
Qed.

(** Broadcasts of a series of results: of the attacks among them, in their order. *)
Definition attacks (results : list DetectionResult) : list DetectionResult := filter (fun r => dr_is_attack r = true) results.
Lemma handle_results_sent tt : forall results e i, exists new,
  sent (ml_alert (handle_results tt e i results)) = (sent (ml_alert e) ++ new)%list /\
  new `sublist_of` map (fun r => from_detection_result r (tt_epoch_secs tt)) (attacks results).
Proof.
  unfold attacks. induction results as [|r results IH]; intros e i; cbn [handle_results].
  - exists []. by rewrite app_nil_r.
  - destruct (IH (handle_result tt e i r) (S i)) as (new & Hs & Hn). rewrite filter_cons. unfold handle_result in *.
    destruct (dr_is_attack r) eqn:Hr; cbn [negb] in *; [rewrite decide_True by done|rewrite decide_False by done; by exists new].
    destruct (should_alert _ _ _ _ _ _ _) as [alert agg]. cbn [ml_alert] in Hs. cbn [map]. rewrite Hs. unfold broadcast_alert.
    destruct alert; [destruct (0 <? _)%nat|]; [|exists new; split; [done|by apply sublist_cons]..].
    exists (from_detection_result r (tt_epoch_secs tt) :: new). cbn [sent]. rewrite <- app_assoc. split; [done|]. by apply sublist_skip.
Qed.

(** C30: A tick ends and its alerts are justified: when the loaded stages have a batch size
    and their models come back, with whatever answer, error or panic, a tick ends
    without an error.  What it broadcasts are, in their order and at most once each,
    results that are attacks among those the pipeline gives for the batch of this tick:
    the first of the flows the trackers hand out that have enough packets and are not
    strongly benign.  Without an active model there is none. *)
Theorem tick_completes (tt : TickTimes) (e : Engine) :
  (forall a info, state (inference_pipeline e) = Active a info -> Forall comes_back (ad_stages a)) ->
  let batch := take (batch_size e) (candidates e (tt_now_us tt)) in
  exists e' new, run_inference_tick config cfg order tt e = Ok e' /\
    sent (ml_alert e') = (sent (ml_alert e) ++ new)%list /\
    (new = [] \/ exists a info po, state (inference_pipeline e) = Active a info /\
       run_stages config (ad_stages a) batch no_outputs = Ok po /\
       new `sublist_of` map (fun r => from_detection_result r (tt_epoch_secs tt))
         (attacks (pipeline_detection_results batch (ad_outputs a) (ad_detection_rules a) (ad_labels a) (ad_normal_label a) po))).
Proof.
  intros Hc batch. unfold run_inference_tick. destruct (collect_candidates e (tt_now_us tt)) as (l & ->).
  assert (forall e', sent (ml_alert e') = sent (ml_alert e) -> forall P, exists e'' new, Ok (E := Fault) e' = Ok e'' /\
    sent (ml_alert e'') = (sent (ml_alert e) ++ new)%list /\ (new = [] \/ P new)) as Hquiet.
  { intros e' H P. exists e', []. rewrite app_nil_r. split; [done|]. split; [done|by left]. }
  destruct (candidates e (tt_now_us tt)) as [|flow flows]; [by apply Hquiet|]. cbn [inference_pipeline with_trackers].
  destruct (is_active (state (inference_pipeline e))) eqn:Hact; cbn [negb]; [|by apply Hquiet].
  unfold run_inference. cbn [inference_pipeline update_drift with_trackers batch_size]. fold batch.
  destruct (infer_batch_gives config cfg (tt_check tt) (tt_fail tt) batch (inference_pipeline e) Hc) as (results & w & -> & Hres). cbn [res_bind].
  match goal with |- context [handle_results tt ?x 0 results] => destruct (handle_results_sent tt results x 0) as (new & Hs & Hn) end.
  do 2 eexists. split; [done|]. cbn [ml_alert]. split; [exact Hs|].
  destruct Hres as [->|(a & info & po & Ha & Hpo & ->)]; [left; by apply sublist_nil_r in Hn|right].
  by exists a, info, po.
Qed.
End TickTheorem.

(** ** A concrete engine *)

Definition sample_packet (port : Z) (t : Z) : UserPacket :=
  mk_user V4 6 TCP_SYN (pad_ip [10; 0; 0; 1]) (pad_ip [10; 0; 0; 2]) 4000 port 60 0 20 1024 t true.
Definition sample_limits : FlowLimits := mk_limits 100 10 5000000 4 1000 60000000 60000000.
Definition sample_order (m : gmap FlowKey TrackedFlow) : list FlowKey := map fst (map_to_list m).
Definition sample_times : TickTimes := mk_times 100 1 1 1000 (fun _ => from_secs 1) 1.
(** An engine with two queues, a listener and the shipped model with a steady runtime. *)
Definition sample_engine (batch : nat) : option Engine :=
  match build_adapter (fun _ _ _ => Ok steady_runtime) shipped_manifest batch with
  | Ok a => Some (new_engine (new_inference (Active a (mk_info "m" "pipeline" 31 0 fzero))) (mk_ml_alert 1 [])
                    (mk_engine_config 100 5 5 batch 5 30 2) sample_limits 2)
  | Err _ => None
  end.
Definition feed (e : Engine) : Engine :=
  sink_packet 1 (sample_packet 8080 12) false (sink_packet 1 (sample_packet 8080 11) false
    (sink_packet 0 (sample_packet 4444 12) false (sink_packet 0 (sample_packet 4444 11) false e))).
#[local] Instance engine_ln : Ln := fun x => x.
#[local] Instance engine_select : SelectFloat := sorting_select.

Lemma steady_comes_back st : (0 < sa_batch_size st)%nat -> sa_model st = steady_runtime -> comes_back st.
Proof. intros Hb Hm. split; [done|]. intros rows. by rewrite Hm. Qed.

Lemma sample_engine_comes_back e : sample_engine 1 = Some e ->
  forall a info, state (inference_pipeline (feed e)) = Active a info -> Forall comes_back (ad_stages a).
Proof.
  unfold sample_engine. destruct (build_adapter _ _ _) as [a0|] eqn:E; [|done]. intros [= <-] a info [= <- _].
  vm_compute in E. injection E as <-. constructor; [by apply steady_comes_back; [cbn; lia|]|].
  constructor; [by apply steady_comes_back; [cbn; lia|]|constructor].
Qed.

(** Each queue hands out a batch of flows and marks them as inferred, but only one batch
    of them all is run: with a batch of one, the second queue's flow is never scored. *)
Lemma second_queue_starves :
  match sample_engine 1 with
  | Some e =>
      match run_inference_tick steady_config (mk_breaker_config 5 60 120) sample_order sample_times (feed e) with
      | Ok e' => map am_dst_port (sent (ml_alert e')) = [4444] /\
                 map (fun t => (uninferred_snapshots sample_order 1 t).1) (trackers e') = [Some []; Some []]
      | Err _ => False
      end
  | None => False
  end.
Proof. vm_compute. split; reflexivity. Qed.
Lemma nothing_sent : match sample_engine 1 with Some e => sent (ml_alert (feed e)) = [] | None => False end.
Proof. vm_compute. reflexivity. Qed.

Lemma tick_completes_witness :
  exists e e' new, sample_engine 1 = Some e /\
    run_inference_tick steady_config (mk_breaker_config 5 60 120) sample_order sample_times (feed e) = Ok e' /\
    sent (ml_alert e') = (sent (ml_alert (feed e)) ++ new)%list /\ map am_dst_port new = [4444] /\
    exists a info po, state (inference_pipeline (feed e)) = Active a info /\
      new `sublist_of` map (fun r => from_detection_result r 1) (attacks (pipeline_detection_results
        (take (batch_size (feed e)) (candidates sample_order (feed e) 100)) (ad_outputs a) (ad_detection_rules a) (ad_labels a) (ad_normal_label a) po)).
Proof.
  destruct (sample_engine 1) as [e|] eqn:E; [|vm_compute in E; discriminate].
  destruct (tick_completes (SelL := sorting_select_laws : SelectFloatLaws engine_select) steady_config (mk_breaker_config 5 60 120) sample_order sample_times (feed e))
    as (e' & new & H1 & H2 & H3); [by apply sample_engine_comes_back|].
  exists e, e', new. split; [reflexivity|]. split; [exact H1|]. split; [exact H2|].
  assert (map am_dst_port new = [4444]) as Hn.
  { pose proof second_queue_starves as Hports. rewrite E, H1 in Hports. destruct Hports as [Hports _].
    pose proof nothing_sent as Hsent. rewrite E in Hsent. rewrite H2, Hsent in Hports. exact Hports. }
  split; [exact Hn|]. destruct H3 as [->|(a & info & po & Ha & _ & Hsub)]; [discriminate|]. exists a, info, po. split; [exact Ha|exact Hsub].
Defined.

