(* ===== verification/ModelConfig.v ===== *)
(** * Loading models

    The sidecar with the parameters of a model's preprocessing and its validation
    against the manifest (adapter/model_loading/config_loader.rs, manifest.rs), and
    the reload of a model from disk (core/inference/model_watcher.rs).  Files and
    the YAML and JSON parsers are parameters. *)

From Stdlib Require Import ZArith Lia List Ascii String.
From Corelib Require Import SpecFloat.
From stdpp Require Import base list gmap strings.
From S2P Require Import Prelude Abi RStr Float FloatBounds IpAddr Event FlowTracker Features Manifest Onnx Inference.

Local Open Scope string_scope.
Local Open Scope Z_scope.

Inductive MLError : Type :=
  | ManifestReadFailed | ManifestParseFailed | ManifestRejected (e : ManifestError)
  | ConfigLoadFailed | ConfigParseFailed | ConfigInvalid | AdapterFailed.
Abbreviation checked := (result MLError unit).

(** A loop that stops at the first error. *)
Fixpoint check_all {A} (f : A -> checked) (l : list A) : checked :=
  match l with
  | [] => Ok tt
  | x :: l => let? _ := f x in check_all f l
  end.
Definition require (b : bool) : checked := if b then Ok tt else Err ConfigInvalid.

(** ** The sidecar *)

Definition validate_f64_slice (values : list float) : checked := require (forallb is_finite values).
Definition validate_non_negative_f64_slice (values : list float) : checked :=
  require (forallb (fun v => is_finite v && fge v fzero) values).
Definition validate_clip_range (lower upper : float) : checked :=
  require (is_finite lower && is_finite upper && fle lower upper).

(** [windows(2)] *)
Fixpoint ascending (l : list float) : bool :=
  match l with
  | x :: l => match l with y :: _ => negb (fgt x y) && ascending l | [] => true end
  | [] => true
  end.
Definition validate_quantile_params (values quantiles : list float) : checked :=
  let? _ := require ((length values =? length quantiles)%nat && (2 <=? length values)%nat) in
  let? _ := validate_f64_slice values in
  let? _ := validate_f64_slice quantiles in
  let? _ := require (ascending values) in
  require (ascending quantiles).

Definition validate_config (config : MLInferenceConfig) : checked :=
  let? _ := require (negb (bool_decide (ae_feature_names config = []))) in
  let? _ := require (length (ae_scaler_mean config) =? length (ae_feature_names config))%nat in
  let? _ := require (length (ae_scaler_std config) =? length (ae_feature_names config))%nat in
  let? _ := validate_f64_slice (ae_scaler_mean config) in
  let? _ := validate_non_negative_f64_slice (ae_scaler_std config) in
  let? _ := validate_clip_range (ae_post_clip_min config) (ae_post_clip_max config) in
  let? _ := check_all (fun kv : string * ClipParams => validate_clip_range (clip_lower kv.2) (clip_upper kv.2))
              (map_to_list (ae_clip_params config)) in
  let? _ := check_all (fun kv : string * MinMaxParams => validate_clip_range (mm_min kv.2) (mm_max kv.2))
              (map_to_list (minmax_params config)) in
  let? _ := check_all (fun kv : string * RobustParams =>
              require (is_finite (center kv.2) && is_finite (scale kv.2) && fge (scale kv.2) fzero))
              (map_to_list (robust_params config)) in
  let? _ := check_all (fun kv : string * QuantileParams => validate_quantile_params (values kv.2) (quantiles kv.2))
              (map_to_list (quantile_params config)) in
  check_all (fun name => require (feature_is_known name)) (ae_feature_names config).

Definition feature_input_names (stage : StageSpec) : list string :=
  map in_name (List.filter (fun i => match source i with Feature => true | StageOutput => false end) (inputs stage)).
Definition stage_input_names (stage : StageSpec) : list string := map in_name (inputs stage).

Definition validate_manifest_alignment (manifest : ModelManifest) (config : MLInferenceConfig) : checked :=
  match stages manifest with
  | [] => Err (ManifestRejected ManifestInvalid)
  | primary :: _ =>
      if negb (bool_decide (ae_feature_names config = feature_input_names primary)) then Err (ManifestRejected ManifestInvalid)
      else
        match List.find (fun s => bool_decide (st_kind s = Classifier)) (stages manifest) with
        | None => Ok tt
        | Some classifier =>
            if negb (bool_decide (classifier_feature_names config = stage_input_names classifier))
            then Err (ManifestRejected ManifestInvalid) else Ok tt
        end
  end.

Definition step_has_params (config : MLInferenceConfig) (step : PreprocessingStep) (name : string) : checked :=
  match step with
  | StandardScaler _ => require (existsb (String.eqb name) (ae_feature_names config))
  | MinMaxScaler _ => require (bool_decide (is_Some (minmax_params config !! name)))
  | RobustScaler _ => require (bool_decide (is_Some (robust_params config !! name)))
  | Quantile _ => require (bool_decide (is_Some (quantile_params config !! name)))
  | LogTransform _ | Clip _ _ => Ok tt
  end.
Definition validate_preprocessing_sidecar_params (manifest : ModelManifest) (config : MLInferenceConfig) : checked :=
  check_all (fun stage => check_all (fun step => check_all (step_has_params config step) (feature_input_names stage))
                            (preprocessing stage)) (stages manifest).

(** ** Files *)

(** [Path::parent] and [join] *)
Definition component_str (c : Component) : string :=
  match c with RootDir => "" | CurDir => "." | ParentDir => ".." | Normal s => s end.
Definition render (l : list Component) : string :=
  match l with RootDir :: l => "/" ++ join "/" (map component_str l) | _ => join "/" (map component_str l) end.
Definition parent (path : string) : option string :=
  match components path with [] | [RootDir] => None | l => Some (render (removelast l)) end.
Definition path_join (dir relative : string) : string :=
  if is_absolute relative || is_empty dir then relative else dir ++ "/" ++ relative.
Definition resolve_relative (manifest_path relative : string) : string :=
  path_join (default "." (parent manifest_path)) relative.

Section Loading.
Context (file_exists : string -> bool) (read_file : string -> option string) (parse_manifest : string -> option ModelManifest)
  (parse_config : string -> option MLInferenceConfig).

Definition load_model_manifest (path : string) : result MLError ModelManifest :=
  let! content := read_file path else Err ManifestReadFailed in
  let! manifest := parse_manifest content else Err ManifestParseFailed in
  match validate path manifest with Ok _ => Ok manifest | Err e => Err (ManifestRejected e) end.

Definition load_file_at (path : string) : result MLError MLInferenceConfig :=
  let! content := read_file path else Err ConfigLoadFailed in
  let! config := parse_config content else Err ConfigParseFailed in
  let? _ := validate_config config in
  Ok config.

Definition load_manifest_with_sidecar (manifest_path : string) : result MLError (MLInferenceConfig * ModelManifest) :=
  let? manifest := load_model_manifest manifest_path in
  let! sidecar_rel := primary_scaler_sidecar manifest else Err (ManifestRejected ManifestInvalid) in
  let? config := load_file_at (resolve_relative manifest_path sidecar_rel) in
  let? _ := validate_manifest_alignment manifest config in
  let? _ := validate_preprocessing_sidecar_params manifest config in
  Ok (config, manifest).

(** ** Reloading *)

Definition manifest_path : string := "models/manifest.yaml".

Inductive ModelReloadOutcome : Type :=
  | ReloadActive (info : ModelInfo)
  | ReloadDormant
  | ReloadError (msg : MLError) (last_attempted_path : option string).

Context (to_string : MLError -> string) (load : string -> nat -> nat -> result Fault ModelRuntime).

Definition record_error (now : Z) (e : MLError) : infer ModelReloadOutcome :=
  do! w := sm_get in
  run! (if is_active (state w) then sm_ret tt else swap_state (LoadError (to_string e) now (Some manifest_path))) in
  sm_ret (ReloadError e (Some manifest_path)).

(** [reload_model_from_disk]; the sidecar is read and validated but not handed on. *)
Definition reload_model_from_disk (batch_size : nat) (now : Z) : infer ModelReloadOutcome :=
  if negb (file_exists manifest_path) then run! swap_state Dormant in sm_ret ReloadDormant
  else
      match load_manifest_with_sidecar manifest_path with
      | Err e => record_error now e
      | Ok (_, manifest) =>
          match build_adapter load manifest batch_size with
          | Err _ => record_error now AdapterFailed
          | Ok adapter =>
              let info := mk_info (mf_name manifest) "pipeline" (runtime_feature_count manifest) now fzero in
              run! swap_state (Active adapter info) in
              sm_ret (ReloadActive info)
          end
      end.
End Loading.

(** ** What loading establishes *)

Lemma require_ok (b : bool) : require b = Ok tt <-> b = true.
Proof. by destruct b. Qed.

Lemma check_all_ok {A} (f : A -> checked) (l : list A) : check_all f l = Ok tt -> forall x, x ∈ l -> f x = Ok tt.
Proof.
  induction l as [|y l IH]; intros H x Hx; [by apply elem_of_nil in Hx|]. cbn in H.
  apply res_bind_inv in H as ([] & Hy & H). apply elem_of_cons in Hx as [->|Hx]; [done|by apply IH].
Qed.

(** A sidecar that was accepted for a manifest has what the manifest's steps need. *)
Record config_fits (config : MLInferenceConfig) (m : ModelManifest) : Prop := {
  cf_means : length (ae_scaler_mean config) = length (ae_feature_names config);
  cf_stds : length (ae_scaler_std config) = length (ae_feature_names config);
  cf_quantiles : forall name p, quantile_params config !! name = Some p ->
    length (values p) = length (quantiles p) /\ (2 <= length (values p))%nat;
  cf_params : forall s step name, s ∈ stages m -> step ∈ preprocessing s -> name ∈ feature_input_names s ->
    step_has_params config step name = Ok tt }.

Lemma validated_config (config : MLInferenceConfig) :
  validate_config config = Ok tt ->
  length (ae_scaler_mean config) = length (ae_feature_names config) /\
  length (ae_scaler_std config) = length (ae_feature_names config) /\
  forall name p, quantile_params config !! name = Some p -> length (values p) = length (quantiles p) /\ (2 <= length (values p))%nat.
Proof.
  unfold validate_config. intros H.
  do 10 (apply res_bind_inv in H as ([] & ?H & H)).
  apply require_ok, Nat.eqb_eq in H1, H2. split; [done|]. split; [done|]. intros name p Hp.
  apply elem_of_map_to_list in Hp.
  match goal with Hq : check_all (fun kv : string * QuantileParams => _) _ = Ok tt |- _ => pose proof (check_all_ok _ _ Hq _ Hp) as Hv end.
  cbn [snd] in Hv. apply res_bind_inv in Hv as ([] & Hv & _). apply require_ok, andb_true_iff in Hv as [Hv1%Nat.eqb_eq Hv2%Nat.leb_le].
  done.
Qed.

Section Loaded.
Context (read_file : string -> option string) (parse_manifest : string -> option ModelManifest)
  (parse_config : string -> option MLInferenceConfig).

Lemma loaded_fits path config m :
  load_manifest_with_sidecar read_file parse_manifest parse_config path = Ok (config, m) ->
  validate path m = Ok tt /\ config_fits config m.
Proof.
  unfold load_manifest_with_sidecar. intros (m' & Hm & H)%res_bind_inv.
  destruct (primary_scaler_sidecar m') as [rel|]; [|done]. apply res_bind_inv in H as (config' & Hc & H).
  apply res_bind_inv in H as (u & _ & H). apply res_bind_inv in H as (u' & Hp & [= <- <-]). destruct u, u'.
  unfold load_model_manifest in Hm. destruct (read_file path) as [content|]; [|done].
  destruct (parse_manifest content) as [m1|]; [|done]. destruct (validate path m1) as [[]|] eqn:Hv; [|done]. injection Hm as ->.
  split; [done|]. unfold load_file_at in Hc. destruct (read_file _) as [content'|]; [|done].
  destruct (parse_config content') as [c1|]; [|done]. apply res_bind_inv in Hc as ([] & Hc & [= ->]).
  apply validated_config in Hc as (H1 & H2 & H3). split; [done|done|done|]. intros s step name Hs Hst Hn.
  exact (check_all_ok _ _ (check_all_ok _ _ (check_all_ok _ _ Hp s Hs) step Hst) name Hn).
Qed.
End Loaded.

(** Steps that can always be taken: no logarithm, and bounds that are numbers of their type. *)
Definition plain_step (step : PreprocessingStep) : bool :=
  match step with
  | LogTransform _ => false
  | Clip lo hi => valid_binary 24 128 lo && valid_binary 24 128 hi
  | _ => true
  end.
Definition plain_manifest (m : ModelManifest) : bool := forallb (fun s => forallb plain_step (preprocessing s)) (stages m).

Lemma quantile_total value vs qs : length vs = length qs -> (2 <= length vs)%nat -> exists v, quantile_transform value vs qs = Ok v.
Proof.
  intros Hl H2. unfold quantile_transform. rewrite Hl, Nat.eqb_refl. rewrite <- Hl, (proj2 (Nat.ltb_ge _ _) H2). cbn [negb orb].
  destruct vs as [|v vs]; [cbn in H2; lia|]. destruct qs as [|q qs]; [done|]. destruct (fle value v); by eexists.
Qed.

Lemma step_total `{L : Ln} config m path s step name v :
  config_fits config m -> sound_manifest path m -> s ∈ stages m -> step ∈ preprocessing s -> plain_step step = true ->
  name ∈ feature_input_names s -> exists v', apply_preprocessing_step config name v step = Ok v'.
Proof.
  intros [Hm Hs Hq Hp] Hsound Hin Hst Hplain Hn. specialize (Hp s step name Hin Hst Hn).
  destruct step as [f|f|f|off|lo hi|f]; cbn [apply_preprocessing_step step_has_params plain_step] in *; [| | |done| |].
  - apply require_ok, existsb_exists in Hp as (x & Hx & <-%String.eqb_eq). apply list_elem_of_In in Hx.
    destruct (list_find_elem_of (eq name) _ name Hx eq_refl) as [[i y] Hf]. rewrite Hf.
    apply list_find_Some in Hf as (Hi & _ & _). apply lookup_lt_Some in Hi.
    destruct (lookup_lt_is_Some_2 (ae_scaler_mean config) i) as [mu ->]; [lia|].
    destruct (lookup_lt_is_Some_2 (ae_scaler_std config) i) as [sd ->]; [lia|]. by eexists.
  - apply require_ok, bool_decide_eq_true in Hp as [p ->]. by eexists.
  - apply require_ok, bool_decide_eq_true in Hp as [p ->]. by eexists.
  - apply andb_true_iff in Hplain as [Hl Hh]. destruct (so_clips _ _ Hsound s lo hi Hin Hst) as (F1 & F2 & F3).
    rewrite widen_ordered by done. by eexists.
  - apply require_ok, bool_decide_eq_true in Hp as [p Hp]. rewrite Hp. destruct (Hq _ _ Hp). by apply quantile_total.
Qed.

Lemma features_scale `{L : Ln} config m path :
  config_fits config m -> sound_manifest path m -> plain_manifest m = true ->
  forall s i flow, s ∈ stages m -> i ∈ inputs s -> source i = Feature ->
  exists v, preprocess_pipeline_feature config flow (in_name i) (preprocessing s) = Ok v.
Proof.
  intros Hf Hsound Hp s i flow Hs Hi E. unfold preprocess_pipeline_feature.
  assert (in_name i ∈ feature_input_names s) as Hn.
  { unfold feature_input_names. apply list_elem_of_In, in_map, filter_In. split; [by apply list_elem_of_In|by rewrite E]. }
  unfold plain_manifest in Hp. rewrite forallb_forall in Hp. pose proof Hs as Hs'. apply list_elem_of_In, Hp in Hs'.
  rewrite forallb_forall in Hs'. generalize (get (sn_feature_stats flow) (in_name i)).
  assert (forall steps, (forall st, st ∈ steps -> st ∈ preprocessing s) -> forall v,
    exists v', apply_steps config (in_name i) v steps = Ok v') as H; [|by apply H].
  induction steps as [|st steps IH]; intros Hin v; [by eexists|]. cbn [apply_steps].
  destruct (step_total config m path s st (in_name i) v Hf Hsound Hs) as [v' ->]; [apply Hin; by left| |done|].
  - apply Hs', list_elem_of_In, Hin. by left.
  - cbn [res_bind]. apply IH. intros st' Hst'. apply Hin. by right.
Qed.

(** C29: A loaded model scores every flow: once a manifest and its sidecar are accepted, the
    manifest takes no logarithms, its stages read only outputs that are single numbers
    (which the loader does not check: [matrix_input_is_accepted]), the runtimes answer
    well-formed chunks as their interface promises and the breaker is closed, a batch of
    any flows ends with one result for each of them, in their order, without an error and
    with the breaker still closed; every rule finds the values it compares, and a flow is an attack exactly
    when one of the rules fires. *)
Theorem loaded_model_scores_every_flow `{L : Ln} read_file parse_manifest parse_config (path : string)
    (config : MLInferenceConfig) (m : ModelManifest) (cfg : CircuitBreakerConfig) load (b : nat) (a : MLModelAdapter) info
    (flows : list FlowSnapshot) (t_check t_fail : Z) (w : Inference) :
  load_manifest_with_sidecar read_file parse_manifest parse_config path = Ok (config, m) ->
  plain_manifest m = true -> typed_inputs m = true -> (0 < b)%nat -> build_adapter load m b = Ok a ->
  Forall (fun st => Delivers (sa_model st) /\ stage_answers st) (ad_stages a) ->
  flows <> [] -> state w = Active a info -> cb_phase (breaker w) = CB_CLOSED ->
  exists po results s, run_stages config (ad_stages a) flows no_outputs = Ok po /\
    infer_batch config cfg t_check t_fail flows w = (Ok results, set_breaker (closed_at s) w) /\
    map dr_flow_key_raw results = map sn_flow_key flows /\
    forall idx res, results !! idx = Some res ->
      Forall (rule_readable a po idx) (detection_rules m) /\
      (dr_is_attack res = true <-> exists r, r ∈ detection_rules m /\
         is_Some (evaluate_rule (outputs m) (labels m) (normal_label (mf_runtime m)) po idx r)).
Proof.
  intros (Hv & Hf)%loaded_fits Hp Ht Hb Hbuild Hrun Hne Hst Hph.
  eapply model_scores_every_flow; try done.
  intros s i flow Hs Hi E _. eapply features_scale; try done. by apply validate_sound.
Qed.

#[local] Instance plain_ln : Ln := fun x => x.

Lemma loaded_model_scores_every_flow_witness :
  exists flow a w, sample_snapshot = Some flow /\
    load_manifest_with_sidecar (fun _ => Some "") (fun _ => Some shipped_manifest) (fun _ => Some steady_config) manifest_path
      = Ok (steady_config, shipped_manifest) /\
    build_adapter (fun _ _ _ => Ok steady_runtime) shipped_manifest 2 = Ok a /\
    exists results s, infer_batch steady_config (mk_breaker_config 5 60 120) 1 1 [flow; flow; flow] w =
      (Ok results, set_breaker (closed_at s) w) /\ map dr_flow_key_raw results = replicate 3 (sn_flow_key flow).
Proof.
  destruct sample_snapshot as [flow|] eqn:E; [|vm_compute in E; discriminate].
  destruct (build_adapter (fun _ _ _ => Ok steady_runtime) shipped_manifest 2) as [a|] eqn:Ea; [|vm_compute in Ea; discriminate].
  assert (load_manifest_with_sidecar (fun _ => Some "") (fun _ => Some shipped_manifest) (fun _ => Some steady_config) manifest_path
            = Ok (steady_config, shipped_manifest)) as Hload.
  { unfold load_manifest_with_sidecar, load_model_manifest, load_file_at. replace (validate manifest_path shipped_manifest) with (Ok (E := ManifestError) tt) by (vm_compute; reflexivity).
    cbn [res_bind]. replace (primary_scaler_sidecar shipped_manifest) with (Some "inference_config.json") by (vm_compute; reflexivity).
    replace (validate_config steady_config) with (Ok (E := MLError) tt) by (vm_compute; reflexivity). cbn [res_bind].
    replace (validate_manifest_alignment shipped_manifest steady_config) with (Ok (E := MLError) tt) by (vm_compute; reflexivity).
    by replace (validate_preprocessing_sidecar_params shipped_manifest steady_config) with (Ok (E := MLError) tt) by (vm_compute; reflexivity). }
  set (info := mk_info "m" "pipeline" 31 0 fzero). exists flow, a, (new_inference (Active a info)). split; [reflexivity|]. split; [exact Hload|]. split; [reflexivity|].
  destruct (loaded_model_scores_every_flow (fun _ => Some "") (fun _ => Some shipped_manifest) (fun _ => Some steady_config) manifest_path
      steady_config shipped_manifest (mk_breaker_config 5 60 120) (fun _ _ _ => Ok steady_runtime) 2 a info [flow; flow; flow] 1 1
      (new_inference (Active a info)) Hload) as (po & results & s & _ & H1 & H2 & _);
    [vm_compute; reflexivity|vm_compute; reflexivity|lia|exact Ea| |discriminate|reflexivity|reflexivity|].
  2: { exists results, s. split; [exact H1|exact H2]. }
  vm_compute in Ea. injection Ea as <-.
  assert (forall st, sa_model st = steady_runtime -> Delivers (sa_model st) /\ stage_answers st) as Hst.
  { intros st Hm. unfold stage_answers. rewrite Hm. split; [apply steady_delivers|]. intros rows _ _. by eexists. }
  constructor; [by apply Hst|]. constructor; [by apply Hst|constructor].
Defined.

(** ** Reloading *)

Section Reload.
Context (file_exists : string -> bool) (read_file : string -> option string) (parse_manifest : string -> option ModelManifest)
  (parse_config : string -> option MLInferenceConfig) (to_string : MLError -> string)
  (load : string -> nat -> nat -> result Fault ModelRuntime).
Abbreviation reload := (reload_model_from_disk file_exists read_file parse_manifest parse_config to_string load).
Abbreviation load_sidecar := (load_manifest_with_sidecar read_file parse_manifest parse_config manifest_path).

(** What an outcome says about the state it leaves; [present] is whether there is a manifest. *)
Definition reload_effect (present : bool) (batch_size : nat) (now : Z) (w w' : Inference) (out : ModelReloadOutcome) : Prop :=
  qps_recent w' = qps_recent w /\ match out with
  | ReloadDormant => present = false /\ state w' = Dormant /\ breaker w' = breaker w
  | ReloadError e _ => present = true /\ breaker w' = breaker w /\
      (if is_active (state w) then w' = w else state w' = LoadError (to_string e) now (Some manifest_path)) /\
      (forall config m, load_sidecar = Ok (config, m) -> exists f, build_adapter load m batch_size = Err f)
  | ReloadActive info => exists config m a, load_sidecar = Ok (config, m) /\ build_adapter load m batch_size = Ok a /\
      state w' = Active a info /\ mi_name info = mf_name m /\ exists s, breaker w' = closed_at s
  end.

Lemma record_error_effect (batch_size : nat) (now : Z) (w : Inference) (e : MLError) :
  (forall config m, load_sidecar = Ok (config, m) -> exists f, build_adapter load m batch_size = Err f) ->
  exists out w', record_error to_string now e w = (Ok out, w') /\ reload_effect true batch_size now w w' out.
Proof.
  intros He. unfold reload_effect, record_error, sm_bind at 1, sm_get.
  destruct (is_active (state w)) eqn:Ha; (do 2 eexists; split; [reflexivity|]; done).
Qed.

(** A reload never takes a working model away for an error: it always ends; without a
    manifest the source is dormant; a manifest that cannot be loaded leaves an active
    model as it was and otherwise records the error; and one that loads becomes the
    active model, with a closed breaker. *)
Theorem reload_keeps_working_model (batch_size : nat) (now : Z) (w : Inference) :
  exists out w', reload batch_size now w = (Ok out, w') /\ reload_effect (file_exists manifest_path) batch_size now w w' out.
Proof.
  unfold reload_model_from_disk. destruct (file_exists manifest_path); cbn [negb].
  2: { do 2 eexists. split; [reflexivity|]. done. }
  destruct load_sidecar as [[config m]|e] eqn:Hl.
  2: { apply record_error_effect. by rewrite Hl. }
  destruct (build_adapter load m batch_size) as [a|f] eqn:Hb.
  2: { apply record_error_effect. rewrite Hl. intros c' m' [= <- <-]. by exists f. }
  do 2 eexists. split; [reflexivity|]. split; [done|]. exists config, m, a. split_and!; try done. by eexists.
Qed.
End Reload.

(** The parameters of a reloaded model's sidecar are validated and dropped: the pipeline
    keeps those it was started with.  A model with features of its own is accepted and
    active, and gives no results for any flows. *)
Definition retrained_stage : StageSpec :=
  mk_stage "detector" Autoencoder "detector.onnx" [] [feature_input "Fwd IAT Max"] [StandardScaler "params.json"]
    [mk_head "score" 0 ["1"] SemAnomalyScore (Some (f32_of_Z 1)) None].
Definition retrained_manifest : ModelManifest := {|
  mf_name := "retrained"; mf_version := 1; mf_runtime := mk_runtime "dag" "Normal";
  artifacts := [mk_artifact "detector" "detector.onnx" Onnx; mk_artifact "params" "params.json" Sidecar];
  stages := [retrained_stage]; outputs := [mk_output "detector" "score" None AnomalyScore];
  detection_rules := [Threshold "anomaly" "detector.score" (FixedLabel "Bot")];
  labels := [("0", mk_label "Bot" None None)]; alert_rules := [mk_alert_rule "score > threshold" "score"] |}.
Definition retrained_config : MLInferenceConfig := {|
  ae_feature_names := ["Fwd IAT Max"]; ae_clip_params := ∅; ae_scaler_mean := [fzero]; ae_scaler_std := [f64_of_Z 1];
  ae_post_clip_min := fzero; ae_post_clip_max := f64_of_Z 1; classifier_feature_names := [];
  minmax_params := ∅; robust_params := ∅; quantile_params := ∅ |}.

Lemma reload_keeps_old_scaling :
  let reload := reload_model_from_disk (fun _ => true) (fun _ => Some "") (fun _ => Some retrained_manifest)
                  (fun _ => Some retrained_config) (fun _ => "") (fun _ _ _ => Ok steady_runtime) 8 1 in
  let w := (reload (new_inference Dormant)).2 in
  let cfg := mk_breaker_config 5 60 120 in
  is_active (state w) = true /\
  (forall flow flows, (infer_batch steady_config cfg 1 1 (flow :: flows) w).1 = Ok []) /\
  forall flow, exists r, (infer_batch retrained_config cfg 1 1 [flow] w).1 = Ok [r] /\ dr_is_attack r = true.
Proof.
  intros reload w cfg.
  assert (exists a info s, w = mk_inference (Active a info) 0 (closed_at s) /\
    ad_stages a = [mk_adapter "detector" Autoencoder steady_runtime 8 1 (inputs retrained_stage) (preprocessing retrained_stage) (output_heads retrained_stage)] /\
    ad_outputs a = outputs retrained_manifest /\ ad_detection_rules a = detection_rules retrained_manifest)
    as (a & info & s & -> & Ha & Ho & Hr) by (do 3 eexists; split_and!; vm_compute; reflexivity).
  split; [done|]. set (w := mk_inference _ _ _).
  assert (forall config flows, match outcome config a flows with Err Looping => False | Err _ => True | Ok _ => True end ->
    (infer_batch config cfg 1 1 flows w).1 =
      match outcome config a flows with
      | Ok po => Ok (pipeline_detection_results flows (ad_outputs a) (ad_detection_rules a) (ad_labels a) (ad_normal_label a) po)
      | Err _ => Ok []
      end) as Hb.
  { intros config flows Hl. pose proof (infer_batch_ran config cfg 1 1 flows w a info eq_refl (or_introl eq_refl)) as H.
    destruct (outcome config a flows) as [po|[| |]]; [by destruct H as [? ->]|by destruct H as [? ->]|by destruct H as (? & -> & _)|done]. }
  split.
  - intros flow flows. assert (outcome steady_config a (flow :: flows) = Err Failed) as H by (unfold outcome; rewrite Ha; vm_compute; reflexivity).
    specialize (Hb steady_config (flow :: flows)). rewrite H in Hb. by apply Hb.
  - intros flow. specialize (Hb retrained_config [flow]).
    destruct (outcome retrained_config a [flow]) as [po|f] eqn:E; [|unfold outcome in E; rewrite Ha in E; vm_compute in E; discriminate].
    rewrite Hb by done. eexists. split; [reflexivity|]. rewrite Ho, Hr. unfold outcome in E. rewrite Ha in E. vm_compute in E.
    injection E as <-. apply is_attack_iff. eexists. split; [by left|]. vm_compute. by eexists.
Qed.
