(* ===== verification/Store.v ===== *)
(** * The models directory

    Files and directories of a disk, and the operations on them that the promotion
    of a model uses (adapter/model_promotion_store.rs).  A path is the list of its
    components.  Every operation may fail, as a list of faults decides; a failed
    removal of a directory may have removed a part of it. *)

From Stdlib Require Import ZArith Lia List Ascii String.
From stdpp Require Import base list gmap strings.
From S2P Require Import Prelude RStr Manifest.

Local Open Scope string_scope.
Local Open Scope Z_scope.

Abbreviation Path := (list string).
Inductive Node : Type := File (content : string) | Dir.
#[export] Instance Node_eq_dec : EqDecision Node.
Proof. solve_decision. Defined.

Record Disk : Type := mk_disk {
  nodes : gmap Path Node;
  (** What becomes of the next operations; when the list ends they work. *)
  faults : list (option (list Path));
  (** How many bytes have been written to files. *)
  written : Z }.
Definition set_nodes (f : gmap Path Node -> gmap Path Node) (d : Disk) : Disk := mk_disk (f (nodes d)) (faults d) (written d).
Definition set_faults (l : list (option (list Path))) (d : Disk) : Disk := mk_disk (nodes d) l (written d).
Definition is_quiet (d : Disk) : Prop := Forall (fun f => f = None) (faults d).

Abbreviation io A := (sm Disk unit A).

Definition faulty {A : Type} (partial : list Path -> gmap Path Node -> gmap Path Node) (m : io A) : io A := fun d =>
  match faults d with
  | [] => m d
  | None :: l => m (set_faults l d)
  | Some part :: l => (Err tt, set_nodes (partial part) (set_faults l d))
  end.
Definition nothing (part : list Path) (m : gmap Path Node) : gmap Path Node := m.

(** ** [FsModelPromotionStore] *)

Definition try_exists (path : Path) : io bool := faulty nothing (fun d => (Ok (bool_decide (is_Some (nodes d !! path))), d)).

(** Every prefix of the path that is missing becomes a directory, up to a file in the way. *)
Fixpoint prefixes (path : Path) : list Path :=
  match path with [] => [] | c :: path => [c] :: map (cons c) (prefixes path) end.
Definition create_dir_all (path : Path) : io unit := faulty nothing (fun d =>
  if forallb (fun p => match nodes d !! p with Some (File _) => false | _ => true end) (prefixes path)
  then (Ok tt, set_nodes (fun m => foldr (fun p => <[p := Dir]>) m (prefixes path)) d)
  else (Err tt, d)).

Definition strip (dir path : Path) : option Path :=
  if bool_decide (dir `prefix_of` path) then Some (drop (length dir) path) else None.
Definition move_tree (src dst : Path) (m : gmap Path Node) : gmap Path Node :=
  list_to_map (map (fun '(p, n) => (match strip src p with Some rest => (dst ++ rest)%list | None => p end, n)) (map_to_list m)).

(** A file replaces a file; a directory goes where nothing is.  The directory of the
    target has to exist. *)
Definition rename_nodes (src dst : Path) (m : gmap Path Node) : option (gmap Path Node) :=
  if negb (bool_decide (m !! removelast dst = Some Dir)) then None
  else match m !! src, m !! dst with
  | Some (File c), Some Dir => None
  | Some (File c), _ => Some (<[dst := File c]> (delete src m))
  | Some Dir, None => if bool_decide (src `prefix_of` dst) then None else Some (move_tree src dst m)
  | Some Dir, Some _ | None, _ => None
  end.
Definition rename (src dst : Path) : io unit := faulty nothing (fun d =>
  match rename_nodes src dst (nodes d) with
  | Some m => (Ok tt, set_nodes (fun _ => m) d)
  | None => (Err tt, d)
  end).

Definition without_tree (path : Path) (m : gmap Path Node) : gmap Path Node := filter (fun pn => ~ path `prefix_of` pn.1) m.
Definition remove_dir_all (path : Path) : io unit :=
  faulty (fun part m => filter (fun pn => ~ (pn.1 ∈ part /\ path `prefix_of` pn.1)) m) (fun d =>
    match nodes d !! path with
    | Some Dir => (Ok tt, set_nodes (without_tree path) d)
    | _ => (Err tt, d)
    end).
Definition remove_file (path : Path) : io unit := faulty nothing (fun d =>
  match nodes d !! path with
  | Some (File _) => (Ok tt, set_nodes (delete path) d)
  | _ => (Err tt, d)
  end).

(** The digest of a file is that of its content; [digest] is SHA-256. *)
Definition sha256_file (digest : string -> string) (path : Path) : io string := faulty nothing (fun d =>
  match nodes d !! path with
  | Some (File c) => (Ok (digest c), d)
  | _ => (Err tt, d)
  end).

(** ** Writing files *)

(** [File::create]: an empty file, whether one was there or not. *)
Definition create_file (path : Path) : io unit := faulty nothing (fun d =>
  match nodes d !! path with
  | Some Dir => (Err tt, d)
  | _ => if bool_decide (nodes d !! removelast path = Some Dir)
         then (Ok tt, set_nodes (<[path := File ""]>) d) else (Err tt, d)
  end).
(** [write_all] on an open file; a failure writes nothing. *)
Definition write_all (path : Path) (chunk : string) : io unit := faulty nothing (fun d =>
  match nodes d !! path with
  | Some (File c) =>
      (Ok tt, mk_disk (<[path := File (c ++ chunk)]> (nodes d)) (faults d) (written d + Z.of_nat (String.length chunk)))
  | _ => (Err tt, d)
  end).

(** [?] on an operation whose error becomes one of the caller's. *)
Definition map_err {S E E' A : Type} (e : E') (m : sm S E A) : sm S E' A := fun w =>
  let '(r, w) := m w in (match r with Ok a => Ok a | Err _ => Err e end, w).
(** The error of an operation is logged. *)
Definition logged {S E E'} (m : sm S E unit) : sm S E' unit := fun w => let '(_, w) := m w in (Ok tt, w).

(** ** What the operations change *)

Lemma rename_nodes_file (src dst : Path) (m m' : gmap Path Node) (c : string) :
  m !! src = Some (File c) -> rename_nodes src dst m = Some m' -> m' = <[dst := File c]> (delete src m) /\ m !! dst <> Some Dir.
Proof.
  unfold rename_nodes. intros Hs. rewrite Hs. destruct (negb _); [done|]. destruct (m !! dst) as [[c'|]|]; intros [= <-]; done.
Qed.
Lemma rename_nodes_ok (src dst : Path) (m : gmap Path Node) (c : string) :
  m !! src = Some (File c) -> m !! dst <> Some Dir -> m !! removelast dst = Some Dir ->
  rename_nodes src dst m = Some (<[dst := File c]> (delete src m)).
Proof.
  unfold rename_nodes. intros Hs Hd Hp. rewrite bool_decide_eq_true_2 by done. cbn [negb]. rewrite Hs.
  by destruct (m !! dst) as [[c'|]|].
Qed.

Lemma faulty_quiet {A : Type} partial (m : io A) (d : Disk) : is_quiet d ->
  exists l, Forall (fun f => f = None) l /\ faulty partial m d = m (set_faults l d).
Proof.
  unfold is_quiet, faulty. intros H. destruct (faults d) as [|f l] eqn:E.
  - exists []. split; [done|]. destruct d as [n f' wr]. cbn in E. by subst f'.
  - inversion H as [|? ? -> Hl]; subst. by exists l.
Qed.
