(* ===== verification/Promotion.v ===== *)
(** * Promoting a staged model

    A staged model is validated, recorded in the audit log and moved over the one in
    models/, with a copy of what was there to go back to
    (core/inference/model_promotion.rs). *)

From Stdlib Require Import ZArith Lia List Ascii String.
From stdpp Require Import base list gmap strings pretty.
From S2P Require Import Prelude RStr Manifest Onnx Inference ModelConfig Store.

Local Open Scope string_scope.
Local Open Scope Z_scope.

Definition MODELS_DIR : Path := ["models"].
Definition MANIFEST_FILENAME : string := "manifest.yaml".

(** [join] with a plain file name. *)
Definition child (dir : Path) (file : string) : Path := (dir ++ [file])%list.
#[global] Arguments child : simpl never.
Definition path_str (path : Path) : string := join "/" path.

Inductive PromoteError : Type :=
  | BadManifest (err : option MLError)
  | ValidationFailed (err : MLError)
  | StagingIo | PromoteIo | AuditWrite | ConcurrentPromote | ConcurrentValidation.

(** ** Data *)

Inductive ArtifactTag : Type := TagOnnx | TagSidecar.
Record PromoteArtifact : Type := mk_promote_artifact {
  pa_file : string; pa_kind : ArtifactTag; staged : Path; target : Path; backup_name : string }.
Record PromoteFileSet : Type := mk_file_set {
  staging_manifest : Path; fs_artifacts : list PromoteArtifact; target_manifest : Path; backup_dir : Path }.
Record PromoteBackups : Type := mk_backups { bk_manifest : option Path; bk_artifacts : list (Path * option Path) }.

Record ArtifactDigest : Type := mk_digest { dg_file : string; dg_kind : ArtifactTag; sha256 : string }.
Record ModelValidationReport : Type := mk_report {
  rp_manifest_name : string; rp_adapter_kind : string; manifest_sha256 : string; rp_artifacts : list ArtifactDigest }.

(** The detail of an audit row is the JSON of the report and of the status before. *)
Record AuditRow : Type := mk_audit { au_actor : string; au_action : string; au_detail : ModelValidationReport * ModelSourceStatus }.
Definition AUDIT_ACTION_MODEL_SWAP : string := "model_swap".

Record World : Type := mk_world {
  disk : Disk; audit_log : list AuditRow; promote_gate : bool; validation_gate : bool }.
Definition set_disk (d : Disk) (w : World) : World := mk_world d (audit_log w) (promote_gate w) (validation_gate w).
Definition set_audit_log (l : list AuditRow) (w : World) : World := mk_world (disk w) l (promote_gate w) (validation_gate w).
Definition set_promote_gate (b : bool) (w : World) : World := mk_world (disk w) (audit_log w) b (validation_gate w).
Definition set_validation_gate (b : bool) (w : World) : World := mk_world (disk w) (audit_log w) (promote_gate w) b.
Abbreviation promo A := (sm World PromoteError A).
Definition on_disk {E A : Type} (m : sm Disk E A) : sm World E A := fun w =>
  let '(r, d) := m (disk w) in (r, set_disk d w).

(** [try_acquire] and the guard, which is dropped however the rest ends. *)
Definition guarded {A : Type} (held : World -> bool) (set : bool -> World -> World) (busy : PromoteError) (m : promo A) : promo A := fun w =>
  if held w then (Err busy, w) else let '(r, w) := m (set true w) in (r, set false w).

(** ** The files of a manifest *)

Definition str_has (c : ascii) (s : string) : bool := negb (all_bytes (fun a => negb (Ascii.eqb a c)) s).
Definition validate_manifest_basename (value : string) : result PromoteError unit :=
  if is_empty value then Err (BadManifest None)
  else if str_has "/" value || str_has "\" value then Err (BadManifest None)
  else if String.eqb value "." || String.eqb value ".." || str_contains value ".." then Err (BadManifest None)
  else if is_absolute value then Err (BadManifest None)
  else if negb (bool_decide (file_name value = Some value)) then Err (BadManifest None)
  else Ok tt.

Section Collect.
Context (staging_dir models_dir : Path).

Definition push_artifact (acc : list PromoteArtifact * gset string) (file : string) (kind : ArtifactTag) :
    result PromoteError (list PromoteArtifact * gset string) :=
  let '(artifacts, seen) := acc in
  let? _ := validate_manifest_basename file in
  if bool_decide (file ∈ seen) then Ok acc
  else
    let name := "artifact-" ++ pretty (length artifacts) ++ "-" ++ file in
    Ok ((artifacts ++ [mk_promote_artifact file kind (child staging_dir file) (child models_dir file) name])%list, {[ file ]} ∪ seen).

(** A loop that threads its accumulator and stops at an error. *)
Fixpoint res_fold {E A B : Type} (f : B -> A -> result E B) (acc : B) (l : list A) : result E B :=
  match l with [] => Ok acc | x :: l => let? acc := f acc x in res_fold f acc l end.

Definition collect_manifest_artifacts (manifest : ModelManifest) : result PromoteError (list PromoteArtifact) :=
  let? acc := res_fold (fun acc stage =>
    let? acc := push_artifact acc (model_file stage) TagOnnx in
    res_fold (fun acc step =>
      match preprocessing_sidecar step with
      | Some sidecar => push_artifact acc sidecar TagSidecar
      | None => Ok acc
      end) acc (preprocessing stage)) ([], ∅) (stages manifest) in
  Ok acc.1.
End Collect.

(** ** Moving the files *)

Definition backup_existing (tgt backup_dir : Path) (name : string) : promo (option Path) :=
  do! present := on_disk (map_err PromoteIo (try_exists tgt)) in
  if negb present then sm_ret None
  else
    let backup := child backup_dir name in
    run! on_disk (map_err PromoteIo (rename tgt backup)) in
    sm_ret (Some backup).

Fixpoint backup_existing_artifacts (backup_dir : Path) (l : list PromoteArtifact) : promo (list (Path * option Path)) :=
  match l with
  | [] => sm_ret []
  | a :: l =>
      do! backup := backup_existing (target a) backup_dir (backup_name a) in
      do! backups := backup_existing_artifacts backup_dir l in
      sm_ret ((target a, backup) :: backups)
  end.

Definition move_file (src dst : Path) : promo unit := on_disk (map_err PromoteIo (rename src dst)).

Definition remove_if_exists (path : Path) : promo unit :=
  do! present := sm_try (on_disk (try_exists path)) in
  match present with
  | Ok true => on_disk (logged (remove_file path))
  | Ok false | Err _ => sm_ret tt
  end.
Definition restore_backup (backup : option Path) (tgt : Path) : promo unit :=
  match backup with
  | Some backup => on_disk (logged (rename backup tgt))
  | None => sm_ret tt
  end.
Definition rollback_promote (files : PromoteFileSet) (backups : PromoteBackups) : promo unit :=
  run! remove_if_exists (target_manifest files) in
  run! sm_iter (fun a => remove_if_exists (target a)) (fs_artifacts files) in
  run! restore_backup (bk_manifest backups) (target_manifest files) in
  sm_iter (fun '(tgt, backup) => restore_backup backup tgt) (bk_artifacts backups).
Definition cleanup_backup_dir (backup_dir : Path) : promo unit := on_disk (logged (remove_dir_all backup_dir)).

(** The backups are taken, and then the files moved. *)
Definition take_backups (files : PromoteFileSet) : promo PromoteBackups :=
  run! on_disk (map_err PromoteIo (create_dir_all (backup_dir files))) in
  do! m := backup_existing (target_manifest files) (backup_dir files) "manifest.yaml" in
  do! l := backup_existing_artifacts (backup_dir files) (fs_artifacts files) in
  sm_ret (mk_backups m l).
Definition install (files : PromoteFileSet) : promo unit :=
  run! sm_iter (fun a => move_file (staged a) (target a)) (fs_artifacts files) in
  move_file (staging_manifest files) (target_manifest files).

Definition promote_files_with_backups (files : PromoteFileSet) : promo PromoteBackups :=
  do! backups := take_backups files in
  do! r := sm_try (install files) in
  match r with
  | Ok _ => sm_ret backups
  | Err err =>
      run! rollback_promote files backups in
      run! cleanup_backup_dir (backup_dir files) in
      sm_fail err
  end.

(** [works] is whether the row can be written. *)
Definition insert_audit_log (works : bool) (row : AuditRow) : promo unit :=
  if works then sm_modify (fun w => set_audit_log (audit_log w ++ [row])%list w) else sm_fail AuditWrite.

Definition promote_files_atomically_with_required_audit (works : bool) (files : PromoteFileSet) (row : AuditRow) : promo unit :=
  run! insert_audit_log works row in
  run! promote_files_with_backups files in
  cleanup_backup_dir (backup_dir files).

(** ** Validation and promotion *)

Section Promotion.
Context (reads : gmap Path Node -> string -> option string) (parse_manifest : string -> option ModelManifest)
  (parse_config : string -> option MLInferenceConfig)
  (load : gmap Path Node -> string -> string -> nat -> nat -> result Fault ModelRuntime)
  (digest : string -> string) (audit_works : bool).

Definition read_manifest (path : Path) : promo ModelManifest := fun w =>
  match load_model_manifest (reads (nodes (disk w))) parse_manifest (path_str path) with
  | Ok m => (Ok m, w)
  | Err e => (Err (BadManifest (Some e)), w)
  end.
Definition check_runtime (path : Path) (batch_size : nat) : promo ModelManifest := fun w =>
  match load_manifest_with_sidecar (reads (nodes (disk w))) parse_manifest parse_config (path_str path) with
  | Err e => (Err (ValidationFailed e), w)
  | Ok (_, m) =>
      match build_adapter (load (nodes (disk w)) (path_str path)) m batch_size with
      | Ok _ => (Ok m, w)
      | Err _ => (Err (ValidationFailed AdapterFailed), w)
      end
  end.
Fixpoint digests (l : list PromoteArtifact) : promo (list ArtifactDigest) :=
  match l with
  | [] => sm_ret []
  | a :: l =>
      do! sha := on_disk (map_err StagingIo (sha256_file digest (staged a))) in
      do! rest := digests l in
      sm_ret (mk_digest (pa_file a) (pa_kind a) sha :: rest)
  end.

Definition validate_unguarded (staging_dir : Path) (batch_size : nat) : promo ModelValidationReport :=
  let manifest_file := child staging_dir MANIFEST_FILENAME in
  do! preview := read_manifest manifest_file in
  if bool_decide (stages preview = []) then sm_fail (BadManifest None)
  else
    do! l := sm_lift (collect_manifest_artifacts staging_dir MODELS_DIR preview) in
    do! manifest := check_runtime manifest_file batch_size in
    do! sha := on_disk (map_err StagingIo (sha256_file digest manifest_file)) in
    do! reports := digests l in
    sm_ret (mk_report (mf_name manifest) "pipeline" sha reports).
Definition validate_staged_model (staging_dir : Path) (batch_size : nat) : promo ModelValidationReport :=
  guarded validation_gate set_validation_gate ConcurrentValidation (validate_unguarded staging_dir batch_size).

(** [uuid] is drawn for the directory of the backups. *)
Definition validate_and_promote (staging_dir : Path) (inference : Inference) (actor_username uuid : string)
    (batch_size : nat) : promo ModelValidationReport :=
  guarded promote_gate set_promote_gate ConcurrentPromote (
    do! validation := validate_staged_model staging_dir batch_size in
    let manifest_file := child staging_dir MANIFEST_FILENAME in
    do! manifest := read_manifest manifest_file in
    do! l := sm_lift (collect_manifest_artifacts staging_dir MODELS_DIR manifest) in
    let before := model_source_status inference in
    let backups := child MODELS_DIR (".promote-backup-" ++ uuid) in
    let actor := "SecurityAdmin@" ++ actor_username in
    run! promote_files_atomically_with_required_audit audit_works
      (mk_file_set manifest_file l (child MODELS_DIR MANIFEST_FILENAME) backups)
      (mk_audit actor AUDIT_ACTION_MODEL_SWAP (validation, before)) in
    sm_ret validation).
End Promotion.

(** ** The files collected *)

Lemma basename_is_component (f : string) : validate_manifest_basename f = Ok tt -> components f = [Normal f].
Proof.
  unfold validate_manifest_basename. destruct (is_empty f) eqn:He; [done|].
  destruct (str_has "/" f) eqn:Hs; [done|]. destruct (str_has "\" f); [done|]. cbn [orb].
  destruct (String.eqb f ".") eqn:H1; [done|]. destruct (String.eqb f "..") eqn:H2; [done|]. intros _.
  apply negb_false_iff in Hs. unfold components. rewrite split_free by done. rewrite He, H1. cbn. unfold component_of.
  by rewrite He, H1, H2.
Qed.

(** The number in the name of a backup is free of the dash after it. *)
Lemma pretty_N_go_free (x : N) (s : string) : free_of "-" s -> free_of "-" (pretty_N_go x s).
Proof.
  revert s. induction (N.lt_wf_0 x) as [x _ IH]. intros s Hs. destruct (decide (0 < x)%N) as [Hx|Hx].
  - rewrite pretty_N_go_step by done. apply IH; [by apply N.div_lt|]. unfold free_of in *. cbn [all_bytes]. rewrite Hs.
    unfold pretty_N_char. by repeat (case_match; try done).
  - assert (x = 0%N) as -> by lia. by rewrite pretty_N_go_0.
Qed.
Lemma pretty_free (n : nat) : free_of "-" (pretty n).
Proof.
  unfold pretty, pretty_nat, pretty, pretty_N. destruct (decide _); [reflexivity|]. by apply pretty_N_go_free.
Qed.
Lemma backup_names_differ (i j : nat) (f g : string) :
  "artifact-" ++ pretty i ++ "-" ++ f = "artifact-" ++ pretty j ++ "-" ++ g -> i = j.
Proof.
  intros H. apply (f_equal (split "-")) in H.
  change ("artifact-" ++ pretty i ++ "-" ++ f) with ("artifact" ++ String "-" (pretty i ++ String "-" f)) in H.
  change ("artifact-" ++ pretty j ++ "-" ++ g) with ("artifact" ++ String "-" (pretty j ++ String "-" g)) in H.
  rewrite !split_app_sep in H by (reflexivity || apply pretty_free). injection H as H _. by apply (inj pretty) in H.
Qed.
Lemma backup_name_not_manifest (i : nat) (f : string) : "artifact-" ++ pretty i ++ "-" ++ f <> MANIFEST_FILENAME.
Proof. intros [=]. Qed.

(** An artifact at its place in the list. *)
Definition artifact_at (staging_dir models_dir : Path) (i : nat) (a : PromoteArtifact) : Prop :=
  validate_manifest_basename (pa_file a) = Ok tt /\
  staged a = child staging_dir (pa_file a) /\ target a = child models_dir (pa_file a) /\
  backup_name a = "artifact-" ++ pretty i ++ "-" ++ pa_file a.
(** The files a manifest names. *)
Definition stage_files (s : StageSpec) : list string := model_file s :: omap preprocessing_sidecar (preprocessing s).
Definition manifest_files (m : ModelManifest) : list string := stages m ≫= stage_files.

Section CollectOk.
Context (staging_dir models_dir : Path).

Record collected (l : list PromoteArtifact) (seen : gset string) : Prop := {
  co_seen : seen = list_to_set (map pa_file l);
  co_nodup : NoDup (map pa_file l);
  co_at : forall i a, l !! i = Some a -> artifact_at staging_dir models_dir i a }.

Lemma push_artifact_ok acc file kind acc' : collected acc.1 acc.2 ->
  push_artifact staging_dir models_dir acc file kind = Ok acc' ->
  collected acc'.1 acc'.2 /\ forall f, f ∈ map pa_file acc'.1 <-> f ∈ map pa_file acc.1 \/ f = file.
Proof.
  destruct acc as [l seen]. cbn [fst snd]. intros [Hseen Hn Hat]. subst seen. unfold push_artifact.
  intros ([] & Hb & H)%res_bind_inv. case_bool_decide as Hs.
  { injection H as <-. split; [by constructor|]. intros f. cbn. split; [by left|]. intros [?| ->]; [done|]. by apply elem_of_list_to_set in Hs. }
  injection H as <-. cbn [fst snd]. rewrite elem_of_list_to_set in Hs. split; [constructor|].
  - rewrite map_app, list_to_set_app_L. cbn. set_solver.
  - rewrite map_app. apply NoDup_app. split; [done|]. split; [|apply NoDup_singleton]. intros f Hf [-> |?%elem_of_nil]%elem_of_cons; done.
  - intros i a [Hi|[Hi Ha]]%lookup_app_Some; [by apply Hat|]. destruct (i - length l)%nat as [|k] eqn:Hk; [|by destruct k].
    injection Ha as <-. assert (i = length l) as -> by lia. done.
  - intros f. rewrite map_app, elem_of_app. cbn. rewrite list_elem_of_singleton. done.
Qed.

Lemma res_fold_collected {A : Type} (g : list PromoteArtifact * gset string -> A -> result PromoteError (list PromoteArtifact * gset string))
    (names : A -> list string) acc l acc' :
  (forall acc x acc', collected acc.1 acc.2 -> g acc x = Ok acc' ->
    collected acc'.1 acc'.2 /\ forall f, f ∈ map pa_file acc'.1 <-> f ∈ map pa_file acc.1 \/ f ∈ names x) ->
  collected acc.1 acc.2 -> res_fold g acc l = Ok acc' ->
  collected acc'.1 acc'.2 /\ forall f, f ∈ map pa_file acc'.1 <-> f ∈ map pa_file acc.1 \/ f ∈ l ≫= names.
Proof.
  intros Hg. revert acc. induction l as [|x l IH]; intros acc Hc; cbn [res_fold].
  - intros [= <-]. split; [done|]. intros f. cbn. rewrite elem_of_nil. tauto.
  - intros (acc1 & H1 & H2)%res_bind_inv. destruct (Hg _ _ _ Hc H1) as [Hc1 Hf1]. destruct (IH _ Hc1 H2) as [Hc2 Hf2].
    split; [done|]. intros f. cbn. rewrite Hf2, Hf1, elem_of_app. tauto.
Qed.

Lemma collect_ok (m : ModelManifest) (l : list PromoteArtifact) :
  collect_manifest_artifacts staging_dir models_dir m = Ok l ->
  NoDup (map pa_file l) /\ (forall i a, l !! i = Some a -> artifact_at staging_dir models_dir i a) /\
  forall f, f ∈ map pa_file l <-> f ∈ manifest_files m.
Proof.
  unfold collect_manifest_artifacts. intros ([l' seen] & H & [= ->])%res_bind_inv. cbn [fst].
  apply (res_fold_collected _ stage_files) in H as [[_ Hn Hat] Hf].
  - split; [done|]. split; [done|]. intros f. cbn [fst] in Hf. rewrite Hf. cbn. rewrite elem_of_nil. unfold manifest_files. tauto.
  - intros acc s acc' Hc (acc1 & H1 & H2)%res_bind_inv. apply push_artifact_ok in H1 as [Hc1 Hf1]; [|done].
    apply (res_fold_collected _ (fun step => option_list (preprocessing_sidecar step))) in H2 as [Hc2 Hf2]; [| |done].
    + split; [done|]. intros f. rewrite Hf2, Hf1. unfold stage_files. rewrite elem_of_cons, list_elem_of_omap, list_elem_of_bind.
      split; [intros [[?| ->]|(step & Hstep & ?)]|intros [?|[?|(step & ? & Hstep)]]]; eauto 8.
      * destruct (preprocessing_sidecar step) eqn:E; [|by apply elem_of_nil in Hstep].
        apply list_elem_of_singleton in Hstep as ->. right. right. by exists step.
      * right. exists step. rewrite Hstep. split; [apply list_elem_of_singleton; done|done].
    + intros acc2 step acc3 Hc2. destruct (preprocessing_sidecar step) as [f|].
      * intros [Hc3 Hf3]%push_artifact_ok; [|done]. split; [done|]. intros g. rewrite Hf3. cbn. by rewrite list_elem_of_singleton.
      * intros [= <-]. split; [done|]. intros g. cbn. rewrite elem_of_nil. tauto.
  - constructor; [done|constructor|]. intros i a. cbn. by rewrite lookup_nil.
Qed.
End CollectOk.

(** ** What moving files does *)

Abbreviation ns w := (nodes (disk w)).

(** Operations on the disk leave the log and the gates. *)
Definition same_records (w w' : World) : Prop :=
  audit_log w' = audit_log w /\ promote_gate w' = promote_gate w /\ validation_gate w' = validation_gate w.
#[local] Instance same_records_preorder : PreOrder same_records.
Proof. split; [done|]. intros a b c (H1 & H2 & H3) (H4 & H5 & H6). repeat split; congruence. Qed.
Lemma on_disk_records {E A : Type} (m : sm Disk E A) : keeps same_records (on_disk m).
Proof. intros w. unfold on_disk. by destruct (m (disk w)). Qed.
#[local] Hint Resolve on_disk_records keeps_ret keeps_fail keeps_lift : keeps.

Lemma backup_existing_records tgt dir name : keeps same_records (backup_existing tgt dir name).
Proof. unfold backup_existing. keeps_tac. Qed.
Lemma backup_artifacts_records dir l : keeps same_records (backup_existing_artifacts dir l).
Proof. induction l; cbn [backup_existing_artifacts]; [keeps_tac|]. pose proof backup_existing_records. keeps_tac. Qed.
Lemma remove_records p : keeps same_records (remove_if_exists p).
Proof. unfold remove_if_exists. keeps_tac. Qed.
Lemma restore_records b t : keeps same_records (restore_backup b t).
Proof. unfold restore_backup. keeps_tac. Qed.
Lemma promote_files_records files : keeps same_records (promote_files_with_backups files).
Proof.
  unfold promote_files_with_backups, take_backups, install, rollback_promote, move_file, cleanup_backup_dir.
  pose proof backup_existing_records. pose proof backup_artifacts_records. pose proof remove_records. pose proof restore_records. keeps_tac.
Qed.

Lemma try_exists_step {E : Type} (e : E) p w r w' : on_disk (map_err e (try_exists p)) w = (r, w') ->
  ns w' = ns w /\ match r with Ok b => b = bool_decide (is_Some (ns w !! p)) | Err e' => e' = e end.
Proof.
  unfold on_disk, map_err, try_exists, faulty, nothing. destruct (faults (disk w)) as [|[part|] l]; intros [= <- <-]; done.
Qed.
Lemma rename_step {E : Type} (e : E) src dst w r w' : on_disk (map_err e (rename src dst)) w = (r, w') ->
  match r with Ok _ => rename_nodes src dst (ns w) = Some (ns w') | Err e' => e' = e /\ ns w' = ns w end.
Proof.
  unfold on_disk, map_err, rename, faulty, nothing. destruct (faults (disk w)) as [|[part|] l]; cbn [nodes set_faults];
    try (intros [= <- <-]; done); (destruct (rename_nodes src dst (ns w)) as [m|] eqn:Hm; intros [= <- <-]; [by rewrite <- Hm|done]).
Qed.
Lemma create_dir_step {E : Type} (e : E) p w r w' : on_disk (map_err e (create_dir_all p)) w = (r, w') ->
  match r with Ok _ => ns w' = foldr (fun p => <[p := Dir]>) (ns w) (prefixes p) | Err e' => e' = e /\ ns w' = ns w end.
Proof.
  unfold on_disk, map_err, create_dir_all, faulty, nothing. destruct (faults (disk w)) as [|[part|] l]; cbn [nodes set_faults];
    try (intros [= <- <-]; done); (destruct (forallb _ _); intros [= <- <-]; done).
Qed.

(** ** Backups *)

Definition stashed (l : list (Path * Path)) (m m' : gmap Path Node) : Prop :=
  (forall t b, (t, b) ∈ l -> m' !! t = None /\ m' !! b = m !! t) /\
  forall p, p ∉ map fst l -> p ∉ map snd l -> m' !! p = m !! p.
(** No path comes twice, on either side. *)
Definition apart (l : list (Path * Path)) : Prop := NoDup (map fst l ++ map snd l).

Lemma apart_cons t b l : apart ((t, b) :: l) ->
  t <> b /\ t ∉ map fst l /\ t ∉ map snd l /\ b ∉ map fst l /\ b ∉ map snd l /\ apart l.
Proof.
  unfold apart. cbn. intros [Ht H]%NoDup_cons. apply NoDup_app in H as (H1 & H2 & [H3 H4]%NoDup_cons).
  rewrite elem_of_app, elem_of_cons in Ht. split_and!; try tauto.
  - intros Hb. apply (H2 b Hb). by left.
  - apply NoDup_app. split_and!; [done| |done]. intros x Hx Hx'. apply (H2 x Hx). by right.
Qed.
Lemma pair_fst (t b : Path) l : (t, b) ∈ l -> t ∈ map fst l.
Proof. intros H. by apply (list_elem_of_fmap_2 fst) in H. Qed.
Lemma pair_snd (t b : Path) l : (t, b) ∈ l -> b ∈ map snd l.
Proof. intros H. by apply (list_elem_of_fmap_2 snd) in H. Qed.

Lemma stashed_cons t b l m m1 m2 : apart ((t, b) :: l) -> stashed [(t, b)] m m1 -> stashed l m1 m2 -> stashed ((t, b) :: l) m m2.
Proof.
  intros (Hne & Ht1 & Ht2 & Hb1 & Hb2 & _)%apart_cons [Ha Hb] [Hc Hd]. destruct (Ha t b) as [Ht Hbm]; [by left|].
  cbn in Hb. setoid_rewrite not_elem_of_cons in Hb. split.
  - intros t' b' [[= -> ->]|Hin]%elem_of_cons; [rewrite !Hd by done; done|].
    destruct (Hc _ _ Hin) as [H1 H2]. split; [done|]. rewrite H2. apply Hb; (split; [|apply not_elem_of_nil]).
    + intros ->. by apply Ht1, (pair_fst _ b').
    + intros ->. by apply Hb1, (pair_fst _ b').
  - intros p. cbn. rewrite !not_elem_of_cons. intros [H1 H2] [H3 H4]. rewrite Hd by done.
    apply Hb; (split; [done|apply not_elem_of_nil]).
Qed.

(** What a backup is: the file, if there was one. *)
Definition backup_of (m : gmap Path Node) (t b : Path) : option Path := match m !! t with Some _ => Some b | None => None end.

Lemma backup_existing_ok t dir name w o w' :
  t <> child dir name -> ns w !! t <> Some Dir -> ns w !! child dir name = None -> backup_existing t dir name w = (Ok o, w') ->
  stashed [(t, child dir name)] (ns w) (ns w') /\ o = backup_of (ns w) t (child dir name).
Proof.
  intros Hne Hd Hb. unfold backup_existing, sm_bind at 1. destruct (on_disk _ w) as [[present|e] w1] eqn:E1; [|done].
  apply try_exists_step in E1 as [Hw1 ->]. case_bool_decide as Hp; cbn [negb].
  - unfold sm_bind. destruct (on_disk _ w1) as [[[]|e] w2] eqn:E2; [|done]. apply rename_step in E2. intros [= <- <-].
    rewrite Hw1 in E2. destruct Hp as [[c|] Hc]; [|done]. destruct (rename_nodes_file _ _ _ _ _ Hc E2) as [-> _].
    unfold backup_of. rewrite Hc. split; [|done]. split.
    + intros t' b' [= -> ->]%list_elem_of_singleton. by simplify_map_eq.
    + intros p. cbn. rewrite !list_elem_of_singleton. intros H1 H2. by simplify_map_eq.
  - intros [= <- <-]. rewrite <- eq_None_not_Some in Hp. unfold backup_of. rewrite Hp, Hw1. split; [|done]. split; [|done].
    intros t' b' [= -> ->]%list_elem_of_singleton. by rewrite Hb, Hp.
Qed.

Definition places (dir : Path) (l : list PromoteArtifact) : list (Path * Path) :=
  map (fun a => (target a, child dir (backup_name a))) l.
Definition all_places (files : PromoteFileSet) : list (Path * Path) :=
  (target_manifest files, child (backup_dir files) "manifest.yaml") :: places (backup_dir files) (fs_artifacts files).

(** Files can be backed up: no target is a directory, no backup exists. *)
Definition can_stash (l : list (Path * Path)) (m : gmap Path Node) : Prop :=
  forall t b, (t, b) ∈ l -> m !! t <> Some Dir /\ m !! b = None.
Lemma can_stash_after t b l m m1 : apart ((t, b) :: l) -> can_stash ((t, b) :: l) m -> stashed [(t, b)] m m1 -> can_stash l m1.
Proof.
  intros (Hne & Ht1 & Ht2 & Hb1 & Hb2 & _)%apart_cons Hc [_ Hs] t' b' Hin. cbn in Hs. setoid_rewrite list_elem_of_singleton in Hs.
  destruct (Hc t' b') as [H1 H2]; [by right|]. pose proof (pair_fst _ _ _ Hin). pose proof (pair_snd _ _ _ Hin).
  rewrite !Hs by (intros ->; done). done.
Qed.

Lemma backup_artifacts_ok dir l w bs w' : apart (places dir l) -> can_stash (places dir l) (ns w) ->
  backup_existing_artifacts dir l w = (Ok bs, w') ->
  stashed (places dir l) (ns w) (ns w') /\ bs = map (fun '(t, b) => (t, backup_of (ns w) t b)) (places dir l).
Proof.
  revert w bs. induction l as [|a l IH]; intros w bs Ha Hc; cbn [backup_existing_artifacts].
  { intros [= <- <-]. split; [|done]. split; [|done]. by intros ? ? ?%elem_of_nil. }
  unfold sm_bind at 1. destruct (backup_existing _ _ _ w) as [[o|] w1] eqn:E1; [|done].
  unfold sm_bind. destruct (backup_existing_artifacts dir l w1) as [[rest|] w2] eqn:E2; [|done]. intros [= <- <-].
  cbn in Ha, Hc. destruct (Hc (target a) (child dir (backup_name a))) as [H1 H2]; [by left|].
  pose proof (apart_cons _ _ _ Ha) as (Hne & Ht1 & Ht2 & Hb1 & Hb2 & Hal).
  apply backup_existing_ok in E1 as [Hs Ho]; [|done..]. apply IH in E2 as [Hs2 ->]; [|done|by eapply can_stash_after].
  split; [by eapply stashed_cons|]. cbn. rewrite Ho. f_equal. apply map_ext_in. intros [t b] Hin%list_elem_of_In. f_equal. unfold backup_of.
  destruct Hs as [_ Hs]. rewrite Hs; [done| |]; cbn; rewrite list_elem_of_singleton; intros ->; pose proof (pair_fst _ _ _ Hin); done.
Qed.

(** ** Installation *)

Definition moves (files : PromoteFileSet) : list (Path * Path) :=
  map (fun a => (staged a, target a)) (fs_artifacts files) ++ [(staging_manifest files, target_manifest files)].

Lemma sm_iter_app {S E A} (f : A -> sm S E unit) (l k : list A) (w : S) :
  sm_iter f (l ++ k) w = sm_bind (sm_iter f l) (fun _ => sm_iter f k) w.
Proof.
  revert w. induction l as [|x l IH]; intros w; [done|]. cbn [sm_iter app]. rewrite sm_bind_assoc.
  unfold sm_bind at 1 2. destruct (f x w) as [[[]|e] w']; [|done]. by rewrite IH.
Qed.
Lemma sm_iter_map {S E A B} (g : A -> B) (f : B -> sm S E unit) (l : list A) (w : S) :
  sm_iter f (map g l) w = sm_iter (fun x => f (g x)) l w.
Proof.
  revert w. induction l as [|x l IH]; intros w; [done|]. cbn [sm_iter map]. unfold sm_bind. destruct (f (g x) w) as [[[]|e] w']; [|done].
  by rewrite IH.
Qed.
Lemma install_moves files w : install files w = sm_iter (fun '(s, t) => move_file s t) (moves files) w.
Proof.
  unfold install, moves. rewrite sm_iter_app. unfold sm_bind at 1 2. rewrite sm_iter_map.
  destruct (sm_iter _ (fs_artifacts files) w) as [[[]|e] w']; [|done]. cbn. unfold sm_bind. by destruct (move_file _ _ w') as [[[]|e] w2].
Qed.

Definition only_changes (l : list (Path * Path)) (m m' : gmap Path Node) : Prop :=
  forall p, p ∉ map fst l -> p ∉ map snd l -> m' !! p = m !! p.
Definition no_dirs (l : list Path) (m : gmap Path Node) : Prop := forall p, p ∈ l -> m !! p <> Some Dir.

Lemma move_ok l w r w' : apart l -> no_dirs (map fst l) (ns w) -> no_dirs (map snd l) (ns w) ->
  sm_iter (fun '(s, t) => move_file s t) l w = (r, w') ->
  only_changes l (ns w) (ns w') /\ no_dirs (map snd l) (ns w') /\
  match r with
  | Ok _ => forall s t, (s, t) ∈ l -> exists c, ns w !! s = Some (File c) /\ ns w' !! t = Some (File c)
  | Err e => e = PromoteIo
  end.
Proof.
  revert w. induction l as [|[s t] l IH]; intros w Ha Hs Ht; cbn [sm_iter].
  { intros [= <- <-]. split; [done|]. split; [done|]. by intros ? ? ?%elem_of_nil. }
  pose proof (apart_cons _ _ _ Ha) as (Hne & Hs1 & Hs2 & Ht1 & Ht2 & Hal). unfold sm_bind.
  destruct (move_file s t w) as [[[]|e] w1] eqn:E1; apply rename_step in E1.
  2: { destruct E1 as [-> E1]. intros [= <- <-]. rewrite E1. split; [done|]. split; [done|]. done. }
  assert (exists c, ns w !! s = Some (File c) /\ ns w1 = <[t := File c]> (delete s (ns w))) as (c & Hc & Hw1).
  { destruct (ns w !! s) as [[c|]|] eqn:Hsrc.
    - exists c. split; [done|]. by destruct (rename_nodes_file _ _ _ _ _ Hsrc E1).
    - exfalso. apply (Hs s); [by left|done].
    - unfold rename_nodes in E1. rewrite Hsrc in E1. by destruct (negb _). }
  assert (forall p, p <> s -> p <> t -> ns w1 !! p = ns w !! p) as Hsame by (intros p ? ?; rewrite Hw1; by simplify_map_eq).
  intros H. apply IH in H as (H1 & H2 & H3); [|done| |].
  - assert (ns w' !! t = Some (File c)) as Hwt by (rewrite H1 by done; rewrite Hw1; by simplify_map_eq). split_and!.
    + intros p. cbn. rewrite !not_elem_of_cons. intros [? ?] [? ?]. rewrite H1 by done. by apply Hsame.
    + intros p. cbn [map snd]. intros [->|Hp]%elem_of_cons; [by rewrite Hwt|by apply H2].
    + destruct r; [|done]. intros s' t' [[= -> ->]|Hin]%elem_of_cons; [by exists c|].
      destruct (H3 _ _ Hin) as (c' & Hc' & Hc2). exists c'. split; [|done]. pose proof (pair_fst _ _ _ Hin).
      rewrite Hsame in Hc' by (intros ->; done). done.
  - intros p Hp. rewrite Hsame by (intros ->; done). apply Hs. by right.
  - intros p Hp. rewrite Hsame by (intros ->; done). apply Ht. by right.
Qed.

(** ** The way back *)

Lemma remove_quiet p w : is_quiet (disk w) -> ns w !! p <> Some Dir ->
  exists w', remove_if_exists p w = (Ok tt, w') /\ is_quiet (disk w') /\ ns w' = delete p (ns w).
Proof.
  intros Hq Hd. unfold remove_if_exists, sm_bind, sm_try, on_disk. 
  destruct (faulty_quiet nothing (fun d => (Ok (E := unit) (bool_decide (is_Some (nodes d !! p))), d)) _ Hq) as (l & Hl & He).
  unfold try_exists. rewrite He. change (nodes (set_faults l (disk w))) with (ns w).
  destruct (ns w !! p) as [[c|]|] eqn:Hc; [| |].
  - rewrite (bool_decide_eq_true_2 (is_Some _)) by done. unfold logged, remove_file. cbn [disk set_disk].
    match goal with |- context [faulty nothing ?m ?d] => destruct (faulty_quiet nothing m d Hl) as (l2 & Hl2 & ->) end.
    cbn [nodes set_faults]. rewrite Hc. by eexists.
  - done.
  - rewrite (bool_decide_eq_false_2 (is_Some _)) by (by intros [? ?]). eexists. split; [reflexivity|]. split; [done|]. cbn. by rewrite delete_id.
Qed.
Lemma restore_quiet b t c w : is_quiet (disk w) -> ns w !! b = Some (File c) -> ns w !! t <> Some Dir ->
  ns w !! removelast t = Some Dir ->
  exists w', restore_backup (Some b) t w = (Ok tt, w') /\ is_quiet (disk w') /\ ns w' = <[t := File c]> (delete b (ns w)).
Proof.
  intros Hq Hb Ht Hp. unfold restore_backup, on_disk, logged, rename.
  match goal with |- context [faulty nothing ?m ?d] => destruct (faulty_quiet nothing m d Hq) as (l2 & Hl2 & ->) end.
  cbn [nodes set_faults disk]. erewrite rename_nodes_ok by done. by eexists.
Qed.

Lemma remove_all_quiet l w : is_quiet (disk w) -> no_dirs l (ns w) ->
  exists w', sm_iter remove_if_exists l w = (Ok tt, w') /\ is_quiet (disk w') /\
    forall p, ns w' !! p = if bool_decide (p ∈ l) then None else ns w !! p.
Proof.
  revert w. induction l as [|q l IH]; intros w Hq Hd.
  { exists w. split; [done|]. split; [done|]. intros p. by rewrite bool_decide_eq_false_2 by apply not_elem_of_nil. }
  destruct (remove_quiet q w) as (w1 & H1 & Hq1 & Hn1); [done|apply Hd; by left|].
  destruct (IH w1) as (w2 & H2 & Hq2 & Hn2); [done| |].
  { intros p Hp. rewrite Hn1. destruct (decide (p = q)) as [->|]; simplify_map_eq; [done|]. apply Hd. by right. }
  exists w2. cbn [sm_iter]. unfold sm_bind. rewrite H1, H2. split; [done|]. split; [done|]. intros p. rewrite Hn2, Hn1.
  destruct (decide (p = q)) as [->|]; simplify_map_eq.
  - rewrite (bool_decide_eq_true_2 (q ∈ q :: l)) by by left. by case_bool_decide.
  - case_bool_decide as H; [rewrite bool_decide_eq_true_2 by (by right); done|].
    rewrite bool_decide_eq_false_2; [done|]. by rewrite not_elem_of_cons.
Qed.

Lemma restore_all_quiet (m : gmap Path Node) l w : is_quiet (disk w) -> apart l -> no_dirs (map fst l) m ->
  (forall t b, (t, b) ∈ l -> ns w !! t = None /\ ns w !! b = m !! t /\ ns w !! removelast t = Some Dir) ->
  (forall t, t ∈ map fst l -> removelast t ∉ map fst l /\ removelast t ∉ map snd l) ->
  exists w', sm_iter (fun '(t, b) => restore_backup b t) (map (fun '(t, b) => (t, backup_of m t b)) l) w = (Ok tt, w') /\
    is_quiet (disk w') /\ (forall t, t ∈ map fst l -> ns w' !! t = m !! t) /\ only_changes l (ns w) (ns w').
Proof.
  revert w. induction l as [|[t b] l IH]; intros w Hq Ha Hm Hl Hp.
  { exists w. split; [done|]. split; [done|]. split; [|done]. by intros ? ?%elem_of_nil. }
  pose proof (apart_cons _ _ _ Ha) as (Hne & Ht1 & Ht2 & Hb1 & Hb2 & Hal).
  destruct (Hl t b) as (Ht & Hb & Hpar); [by left|].
  assert (exists w1, restore_backup (backup_of m t b) t w = (Ok tt, w1) /\ is_quiet (disk w1) /\ ns w1 !! t = m !! t /\
      forall p, p <> t -> p <> b -> ns w1 !! p = ns w !! p) as (w1 & H1 & Hq1 & Hw1 & Hs1).
  { unfold backup_of. destruct (m !! t) as [[c|]|] eqn:Hmt.
    - destruct (restore_quiet b t c w) as (w1 & H1 & H2 & H3); [done..|by rewrite Ht|done|]. exists w1.
      split; [done|]. split; [done|]. split; [rewrite H3; by simplify_map_eq|]. intros p ? ?. rewrite H3. by simplify_map_eq.
    - exfalso. apply (Hm t); [by left|done].
    - exists w. by rewrite Ht. }
  destruct (IH w1) as (w2 & H2 & Hq2 & Hn2 & Ho2); [done|done| | | |].
  - intros q Hin. apply Hm. by right.
  - intros t' b' Hin. pose proof (pair_fst _ _ _ Hin). pose proof (pair_snd _ _ _ Hin).
    destruct (Hl t' b') as (H3 & H4 & H5); [by right|]. rewrite !Hs1 by (intros ->; done). split_and!; [done..|].
    destruct (Hp t') as [Hp1 Hp2]; [by right|]. cbn in Hp1, Hp2. rewrite not_elem_of_cons in Hp1, Hp2. rewrite Hs1; tauto.
  - intros q Hin. destruct (Hp q) as [Hp1 Hp2]; [by right|]. cbn in Hp1, Hp2. rewrite not_elem_of_cons in Hp1, Hp2. tauto.
  - exists w2. cbn [map sm_iter]. unfold sm_bind. rewrite H1. split; [done|]. split; [done|]. split.
    + intros q. cbn [map fst]. intros [->|Hin]%elem_of_cons; [|by apply Hn2]. by rewrite Ho2.
    + intros p. cbn. rewrite !not_elem_of_cons. intros [? ?] [? ?]. rewrite Ho2 by done. by apply Hs1.
Qed.

(** ** A single failing operation *)

Fixpoint at_most_one (l : list (option (list Path))) : Prop :=
  match l with [] => True | None :: l => at_most_one l | Some _ :: l => Forall (fun f => f = None) l end.
Lemma at_most_one_quiet l : Forall (fun f => f = None) l -> at_most_one l.
Proof. induction 1 as [|f l -> _ IH]; [done|exact IH]. Qed.
Lemma at_most_one_tail l : at_most_one l -> at_most_one (tail l).
Proof. destruct l as [|[part|] l]; [done| |done]. apply at_most_one_quiet. Qed.

(** Whether an operation that failed was the one. *)
Definition one_fault (w w' : World) : Prop := at_most_one (faults (disk w)) -> at_most_one (faults (disk w')).
#[local] Instance one_fault_preorder : PreOrder one_fault.
Proof. split; [by intros ? ?|]. intros a b c H1 H2 H. by apply H2, H1. Qed.
Definition one_step {A : Type} (m : io A) : Prop := forall d, faults (m d).2 = tail (faults d).
Lemma one_step_keeps {E A : Type} (e : E) (m : io A) : one_step m -> keeps one_fault (on_disk (map_err e m)).
Proof.
  intros Hm w Hw. unfold on_disk, map_err. specialize (Hm (disk w)). destruct (m (disk w)) as [r d]. cbn in *. rewrite Hm. by apply at_most_one_tail.
Qed.
Lemma faulty_step {A : Type} part (m : io A) : (forall d, faults (m d).2 = faults d) -> one_step (faulty part m).
Proof. intros Hm d. unfold faulty. destruct (faults d) as [|[p|] l] eqn:E; [by rewrite Hm, E|done|by rewrite Hm]. Qed.
Lemma try_exists_one p : one_step (try_exists p).
Proof. by apply faulty_step. Qed.
Lemma rename_one s t : one_step (rename s t).
Proof. apply faulty_step. intros d. by destruct (rename_nodes _ _ _). Qed.
Lemma create_dir_one p : one_step (create_dir_all p).
Proof. apply faulty_step. intros d. by destruct (forallb _ _). Qed.
Lemma sha256_one digest p : one_step (sha256_file digest p).
Proof. apply faulty_step. intros d. by destruct (nodes d !! p) as [[c|]|]. Qed.
#[local] Hint Resolve try_exists_one rename_one create_dir_one sha256_one one_step_keeps : keeps.

Lemma digests_one digest l : keeps one_fault (digests digest l).
Proof. induction l as [|a l IH]; cbn [digests]; keeps_tac. Qed.
Lemma backup_one t d n : keeps one_fault (backup_existing t d n).
Proof. unfold backup_existing. keeps_tac. Qed.
Lemma take_backups_one files : keeps one_fault (take_backups files).
Proof.
  assert (forall d l, keeps one_fault (backup_existing_artifacts d l)) as Hl.
  { intros d l. pose proof backup_one. induction l as [|a l IH]; cbn [backup_existing_artifacts]; keeps_tac. }
  pose proof backup_one. unfold take_backups. keeps_tac.
Qed.
#[local] Hint Resolve digests_one take_backups_one : keeps.

(** A move that could work fails only when it is the one. *)
Definition can_move (l : list (Path * Path)) (m : gmap Path Node) : Prop := forall s t, (s, t) ∈ l ->
  (exists c, m !! s = Some (File c)) /\ m !! t <> Some Dir /\ m !! removelast t = Some Dir /\
  removelast t ∉ map fst l /\ removelast t ∉ map snd l.
Lemma rename_fault src dst c w e w' : ns w !! src = Some (File c) -> ns w !! dst <> Some Dir -> ns w !! removelast dst = Some Dir ->
  move_file src dst w = (Err e, w') -> at_most_one (faults (disk w)) -> is_quiet (disk w').
Proof.
  intros Hs Hd Hp. unfold move_file, on_disk, map_err, rename, faulty, nothing, is_quiet.
  destruct (faults (disk w)) as [|[part|] l]; cbn [nodes set_faults].
  - by erewrite rename_nodes_ok.
  - by intros [= <- <-].
  - by erewrite rename_nodes_ok.
Qed.
Lemma move_fault l w e w' : apart l -> can_move l (ns w) -> sm_iter (fun '(s, t) => move_file s t) l w = (Err e, w') ->
  at_most_one (faults (disk w)) -> is_quiet (disk w').
Proof.
  revert w. induction l as [|[s t] l IH]; intros w Ha Hc; cbn [sm_iter]; [done|]. unfold sm_bind.
  pose proof (apart_cons _ _ _ Ha) as (Hne & Hs1 & Hs2 & Ht1 & Ht2 & Hal).
  destruct (Hc s t) as ((c & Hsrc) & Hd & Hp & _ & _); [by left|].
  destruct (move_file s t w) as [[[]|e1] w1] eqn:E1; [|intros [= <- <-]; by eapply rename_fault].
  pose proof (one_step_keeps PromoteIo (rename s t) (rename_one s t) w) as Ho. unfold move_file in E1. rewrite E1 in Ho. intros E Hw.
  apply rename_step in E1. destruct (rename_nodes_file _ _ _ _ _ Hsrc E1) as [Hw1 _].
  apply (IH w1); [done| |done|by apply Ho]. intros s' t' Hin. pose proof (pair_fst _ _ _ Hin). pose proof (pair_snd _ _ _ Hin).
  destruct (Hc s' t') as ((c' & Hc') & Hd' & Hp' & Hr1 & Hr2); [by right|]. cbn in Hr1, Hr2. rewrite not_elem_of_cons in Hr1, Hr2.
  destruct Hr1 as [Hr1 ?], Hr2 as [Hr2 ?].
  assert (forall p, p <> s -> p <> t -> ns w1 !! p = ns w !! p) as Hsame by (intros p ? ?; rewrite Hw1; by simplify_map_eq).
  rewrite !Hsame by (done || (intros ->; done)). split; [by exists c'|]. done.
Qed.

(** Backups that fail on the way: those taken so far. *)
Definition partly_stashed (l : list (Path * Path)) (m m' : gmap Path Node) : Prop :=
  exists done rest, l = (done ++ rest)%list /\ stashed done m m'.
Lemma stashed_nil m : stashed [] m m.
Proof. split; [|done]. by intros ? ? ?%elem_of_nil. Qed.
Lemma apart_app_l l k : apart (l ++ k) -> apart l.
Proof.
  unfold apart. rewrite !map_app, !NoDup_app. intros ((H1 & _ & _) & H2 & (H3 & _ & _)). split_and!; [done| |done].
  intros x Hx Hx'. apply (H2 x); apply elem_of_app; by left.
Qed.
Lemma backup_existing_err t d n w e w' : backup_existing t d n w = (Err e, w') -> ns w' = ns w.
Proof.
  unfold backup_existing, sm_bind at 1. destruct (on_disk _ w) as [[present|e1] w1] eqn:E1; apply try_exists_step in E1 as [Hw1 _].
  - destruct present; cbn [negb]; [|done]. unfold sm_bind. destruct (on_disk _ w1) as [[[]|e2] w2] eqn:E2; [done|].
    apply rename_step in E2 as [_ H2]. intros [= <- <-]. by rewrite H2.
  - by intros [= <- <-].
Qed.
Lemma backup_artifacts_err dir l w e w' : apart (places dir l) -> can_stash (places dir l) (ns w) ->
  backup_existing_artifacts dir l w = (Err e, w') -> partly_stashed (places dir l) (ns w) (ns w').
Proof.
  revert w. induction l as [|a l IH]; intros w Ha Hc; cbn [backup_existing_artifacts]; [done|].
  unfold sm_bind at 1. destruct (backup_existing _ _ _ w) as [[o|e1] w1] eqn:E1.
  2: { intros [= <- <-]. apply backup_existing_err in E1. exists [], (places dir (a :: l)). split; [done|]. rewrite E1. apply stashed_nil. }
  unfold sm_bind. destruct (backup_existing_artifacts dir l w1) as [[rest|e2] w2] eqn:E2; [done|]. intros [= <- <-].
  cbn in Ha, Hc. destruct (Hc (target a) (child dir (backup_name a))) as [H1 H2]; [by left|].
  pose proof (apart_cons _ _ _ Ha) as (Hne & _ & _ & _ & _ & Hal).
  apply backup_existing_ok in E1 as [Hs _]; [|done..]. apply IH in E2 as (dn & rs & Hl & Hd); [|done|by eapply can_stash_after].
  exists ((target a, child dir (backup_name a)) :: dn), rs. split; [cbn; by f_equal|]. eapply stashed_cons; [|done..].
  apply (apart_app_l _ rs). cbn. unfold places in Hl. by rewrite <- Hl.
Qed.

(** Moving files fails only as [PromoteIo]. *)
Definition fails_as {A : Type} (e : PromoteError) (m : promo A) : Prop := forall w e' w', m w = (Err e', w') -> e' = e.
Lemma fails_as_bind {A B : Type} e (m : promo A) (f : A -> promo B) : fails_as e m -> (forall a, fails_as e (f a)) -> fails_as e (sm_bind m f).
Proof. intros Hm Hf w e' w'. unfold sm_bind. destruct (m w) as [[a|e1] w1] eqn:E; [by apply Hf|]. intros [= <- <-]. by eapply Hm. Qed.
Lemma fails_as_ret {A : Type} e (a : A) : fails_as e (sm_ret a).
Proof. by intros w e' w' [=]. Qed.
Lemma fails_as_map_err {S A : Type} e (m : sm Disk S A) : fails_as e (on_disk (map_err e m)).
Proof. intros w e' w'. unfold on_disk, map_err. destruct (m (disk w)) as [[a|e1] d]; [done|]. by intros [= <- <-]. Qed.
Lemma fails_as_iter {A : Type} e (f : A -> promo unit) l : (forall x, fails_as e (f x)) -> fails_as e (sm_iter f l).
Proof. intros Hf. induction l; [apply fails_as_ret|]. by apply fails_as_bind. Qed.
#[local] Hint Resolve fails_as_bind fails_as_ret fails_as_map_err fails_as_iter : core.

Lemma backup_fails_as t d n : fails_as PromoteIo (backup_existing t d n).
Proof. apply fails_as_bind; [done|]. intros []; cbn [negb]; auto. Qed.
Lemma take_backups_fails_as files : fails_as PromoteIo (take_backups files).
Proof.
  apply fails_as_bind; [auto|]. intros _. apply fails_as_bind; [apply backup_fails_as|]. intros o. apply fails_as_bind; [|auto].
  generalize (fs_artifacts files). intros k. induction k as [|a k IH]; cbn; [auto|]. apply fails_as_bind; [apply backup_fails_as|auto].
Qed.
Lemma install_fails_as files : fails_as PromoteIo (install files).
Proof. apply fails_as_bind; [|intros _; apply fails_as_map_err]. apply fails_as_iter. intros a. apply fails_as_map_err. Qed.

(** ** A promotion as a whole *)

(** The directories of a promotion: models/.staging/id, and models/.promote-backup-uuid
    that is not there yet.  No name of the bundle is that of a directory of models/, and
    the drawn [uuid] is in none. *)
Definition staging_path (id : string) : Path := ["models"; ".staging"; id].
Definition backup_path (uuid : string) : Path := child MODELS_DIR (".promote-backup-" ++ uuid).
Definition bundle_names (names : list string) : list string := MANIFEST_FILENAME :: names.
Record can_promote (id uuid : string) (names : list string) (m : gmap Path Node) : Prop := {
  cp_models : m !! MODELS_DIR = Some Dir;
  cp_staging : m !! child MODELS_DIR ".staging" = Some Dir;
  cp_targets : forall f, f ∈ bundle_names names -> m !! child MODELS_DIR f <> Some Dir;
  cp_fresh : forall p, backup_path uuid `prefix_of` p -> m !! p = None;
  cp_uuid : (".promote-backup-" ++ uuid) ∉ bundle_names names }.

Definition outside (id uuid : string) (p : Path) : Prop := ~ staging_path id `prefix_of` p /\ ~ backup_path uuid `prefix_of` p.
(** The files of the bundle are in models/, and nothing else changes. *)
Definition installed (id uuid : string) (names : list string) (m m' : gmap Path Node) : Prop :=
  (forall f, f ∈ bundle_names names -> exists c,
    m !! child (staging_path id) f = Some (File c) /\ m' !! child MODELS_DIR f = Some (File c)) /\
  forall p, outside id uuid p -> (forall f, f ∈ bundle_names names -> p <> child MODELS_DIR f) -> m' !! p = m !! p.
(** Every file is where it was or among the backups, and nothing else changes. *)
Definition stranded (id uuid : string) (names : list string) (m m' : gmap Path Node) : Prop :=
  (forall f, f ∈ bundle_names names -> m' !! child MODELS_DIR f = m !! child MODELS_DIR f \/
    (m' !! child MODELS_DIR f = None /\ exists g, m' !! child (backup_path uuid) g = m !! child MODELS_DIR f)) /\
  forall p, outside id uuid p -> (forall f, f ∈ bundle_names names -> p <> child MODELS_DIR f) -> m' !! p = m !! p.
Definition restored (id : string) (m m' : gmap Path Node) : Prop := forall p, ~ staging_path id `prefix_of` p -> m' !! p = m !! p.

Lemma child_inj dir f g : child dir f = child dir g -> f = g.
Proof. unfold child. by intros [= ->]%app_inv_head. Qed.
Lemma length_child dir f : length (child dir f) = S (length dir).
Proof. unfold child. rewrite length_app. cbn. lia. Qed.
Lemma removelast_child dir f : removelast (child dir f) = dir.
Proof. apply removelast_last. Qed.
Lemma prefix_child dir f : dir `prefix_of` child dir f.
Proof. by exists [f]. Qed.

(** The way back ends, whatever fails on it. *)
Lemma sm_iter_total {S E A} (f : A -> sm S E unit) (l : list A) : (forall x w, exists w', f x w = (Ok tt, w')) ->
  forall w, exists w', sm_iter f l w = (Ok tt, w').
Proof.
  intros Hf. induction l as [|x l IH]; intros w; [by eexists|]. cbn [sm_iter]. unfold sm_bind. destruct (Hf x w) as [w1 ->]. apply IH.
Qed.
Lemma remove_total p w : exists w', remove_if_exists p w = (Ok tt, w').
Proof.
  unfold remove_if_exists, sm_bind, sm_try, on_disk, logged. destruct (try_exists p (disk w)) as [[[]|] d]; try by eexists.
  destruct (remove_file _ _). by eexists.
Qed.
Lemma restore_total b t w : exists w', restore_backup b t w = (Ok tt, w').
Proof. destruct b; cbn; [|by eexists]. unfold on_disk, logged. destruct (rename _ _ _). by eexists. Qed.
Lemma cleanup_total d w : exists w', cleanup_backup_dir d w = (Ok tt, w').
Proof. unfold cleanup_backup_dir, on_disk, logged. destruct (remove_dir_all _ _). by eexists. Qed.
Lemma rollback_total files backups w : exists w', rollback_promote files backups w = (Ok tt, w').
Proof.
  unfold rollback_promote, sm_bind. destruct (remove_total (target_manifest files) w) as [w1 ->].
  destruct (sm_iter_total (fun a => remove_if_exists (target a)) (fs_artifacts files) (fun a => remove_total (target a)) w1) as [w2 ->].
  destruct (restore_total (bk_manifest backups) (target_manifest files) w2) as [w3 ->].
  apply sm_iter_total. intros [t b]. apply restore_total.
Qed.

Section FileSet.
Context (id uuid : string) (l : list PromoteArtifact).
Let dir := staging_path id.
Let bdir := backup_path uuid.
Let names := map pa_file l.
Let files := mk_file_set (child dir MANIFEST_FILENAME) l (child MODELS_DIR MANIFEST_FILENAME) bdir.
Context (Hnodup : NoDup names) (Hat : forall i a, l !! i = Some a -> artifact_at dir MODELS_DIR i a)
  (Hmanifest : MANIFEST_FILENAME ∉ names).

Lemma target_names : map fst (all_places files) = map (child MODELS_DIR) (bundle_names names).
Proof.
  unfold all_places, places, bundle_names, names. cbn. f_equal. rewrite !map_map. apply map_ext_in. intros a [i Hi]%list_elem_of_In%list_elem_of_lookup.
  cbn. by destruct (Hat _ _ Hi) as (_ & _ & ? & _).
Qed.
Lemma backup_names_nodup : NoDup (map snd (all_places files)).
Proof.
  unfold all_places, places. cbn. rewrite map_map. cbn. apply NoDup_cons. split.
  - intros (a & Ha & [i Hi]%list_elem_of_lookup)%list_elem_of_fmap. apply child_inj in Ha.
    destruct (Hat _ _ Hi) as (_ & _ & _ & Hn). rewrite Hn in Ha. by apply (backup_name_not_manifest i (pa_file a)).
  - apply NoDup_alt. intros i j p Hi Hj. apply list_lookup_fmap_Some in Hi as (a & -> & Hi), Hj as (b & Hp & Hj).
    apply child_inj in Hp. destruct (Hat _ _ Hi) as (_ & _ & _ & Hn1), (Hat _ _ Hj) as (_ & _ & _ & Hn2).
    rewrite Hn1, Hn2 in Hp. by apply backup_names_differ in Hp.
Qed.
Lemma backup_under b : b ∈ map snd (all_places files) -> exists g, b = child bdir g.
Proof.
  unfold all_places, places. cbn [map snd backup_dir files]. rewrite map_map. intros [->|(a & -> & _)%list_elem_of_fmap]%elem_of_cons; eauto.
Qed.

Lemma bundle_nodup : NoDup (bundle_names names).
Proof. by apply NoDup_cons. Qed.
Lemma children_nodup d (k : list string) : NoDup k -> NoDup (map (child d) k).
Proof. intros H. apply (NoDup_fmap_2_strong (child d)); [|done]. intros ? ? _ _. apply child_inj. Qed.

Lemma places_apart : apart (all_places files).
Proof.
  unfold apart. apply NoDup_app. rewrite target_names. split; [by apply children_nodup, bundle_nodup|]. split; [|by apply backup_names_nodup].
  intros p (f & -> & _)%list_elem_of_fmap (g & Hg)%backup_under. apply (f_equal length) in Hg. revert Hg. rewrite !length_child.
  unfold bdir, backup_path. rewrite length_child. done.
Qed.
Lemma move_names : map fst (moves files) = map (child dir) (names ++ [MANIFEST_FILENAME]) /\
  map snd (moves files) = map (child MODELS_DIR) (names ++ [MANIFEST_FILENAME]).
Proof.
  unfold moves, names. rewrite !map_app, !map_map. cbn [map fst snd staging_manifest target_manifest fs_artifacts files].
  split; f_equal; apply map_ext_in; intros a [i Hi]%list_elem_of_In%list_elem_of_lookup; by destruct (Hat _ _ Hi) as (_ & ? & ? & _).
Qed.
Lemma moved_names f : f ∈ (names ++ [MANIFEST_FILENAME])%list <-> f ∈ bundle_names names.
Proof. unfold bundle_names. rewrite elem_of_app, list_elem_of_singleton, elem_of_cons. tauto. Qed.
Lemma moves_apart : apart (moves files).
Proof.
  unfold apart. destruct move_names as [-> ->].
  assert (NoDup (names ++ [MANIFEST_FILENAME])) as Hn.
  { apply NoDup_app. split; [done|]. split; [|apply NoDup_singleton]. intros f Hf ->%list_elem_of_singleton. done. }
  apply NoDup_app. split; [by apply children_nodup|]. split; [|by apply children_nodup].
  intros p (f & -> & _)%list_elem_of_fmap (g & Hg & _)%list_elem_of_fmap. by apply (f_equal length) in Hg.
Qed.
Lemma move_of f : f ∈ bundle_names names -> (child dir f, child MODELS_DIR f) ∈ moves files.
Proof.
  unfold moves, bundle_names, names. rewrite elem_of_cons, elem_of_app. intros [->|(a & -> & Ha)%list_elem_of_fmap]; [right; by left|left].
  apply list_elem_of_fmap. exists a. split; [|done]. apply list_elem_of_lookup in Ha as [i Hi]. destruct (Hat _ _ Hi) as (_ & -> & -> & _). done.
Qed.

(** The paths outside: those of neither side of the places and of the moves. *)
Lemma outside_places p : ~ bdir `prefix_of` p -> p ∉ map snd (all_places files).
Proof. intros Hp (g & ->)%backup_under. apply Hp, prefix_child. Qed.
Lemma outside_moves p : ~ dir `prefix_of` p -> p ∉ map fst (moves files).
Proof. destruct move_names as [-> _]. intros Hp (g & -> & _)%list_elem_of_fmap. apply Hp, prefix_child. Qed.
Lemma target_iff p : p ∈ map fst (all_places files) <-> exists f, f ∈ bundle_names names /\ p = child MODELS_DIR f.
Proof. rewrite target_names. rewrite list_elem_of_fmap. naive_solver. Qed.
Lemma moved_iff p : p ∈ map snd (moves files) <-> p ∈ map fst (all_places files).
Proof. rewrite target_iff. destruct move_names as [_ ->]. rewrite list_elem_of_fmap. setoid_rewrite moved_names. naive_solver. Qed.
Lemma target_outside_backup p : p ∈ map fst (all_places files) -> ~ dir `prefix_of` p.
Proof. intros (f & _ & ->)%target_iff [k Hk]. apply (f_equal length) in Hk. rewrite length_app, length_child in Hk. cbn in Hk. lia. Qed.

Context (w : World) (Hok : can_promote id uuid names (ns w))
  (Hsrc : forall f, f ∈ bundle_names names -> exists c, ns w !! child dir f = Some (File c)).
(** The disk with the directory of the backups. *)
Let m0 := <[bdir := Dir]> (ns w).

Lemma m0_other p : p <> bdir -> m0 !! p = ns w !! p.
Proof. intros H. unfold m0. by simplify_map_eq. Qed.
Lemma target_not_backup f : f ∈ bundle_names names -> child MODELS_DIR f <> bdir.
Proof. intros Hf H%child_inj. subst f. by apply (cp_uuid _ _ _ _ Hok). Qed.
Lemma can_stash_all : can_stash (all_places files) m0.
Proof.
  intros t b Hin. split.
  - apply pair_fst, target_iff in Hin as (f & Hf & ->). rewrite m0_other by by apply target_not_backup. by apply (cp_targets _ _ _ _ Hok).
  - apply pair_snd, backup_under in Hin as (g & ->). rewrite m0_other.
    + apply (cp_fresh _ _ _ _ Hok), prefix_child.
    + intros H. apply (f_equal length) in H. rewrite length_child in H. lia.
Qed.

Lemma take_backups_ok backups w1 : take_backups files w = (Ok backups, w1) ->
  stashed (all_places files) m0 (ns w1) /\
  bk_manifest backups = backup_of m0 (target_manifest files) (child bdir "manifest.yaml") /\
  bk_artifacts backups = map (fun '(t, b) => (t, backup_of m0 t b)) (places bdir l).
Proof.
  unfold take_backups, sm_bind at 1. destruct (on_disk _ w) as [[[]|e] w2] eqn:E1; [|done].
  apply create_dir_step in E1. assert (ns w2 = m0) as Hm.
  { rewrite E1. unfold m0, bdir, backup_path, files. cbn. apply insert_id. rewrite lookup_insert_ne by done. apply (cp_models _ _ _ _ Hok). }
  unfold sm_bind. destruct (backup_existing _ _ _ w2) as [[o|e] w3] eqn:E2; [|done].
  destruct (backup_existing_artifacts _ _ w3) as [[bs|e] w4] eqn:E3; [|done]. intros [= <- <-].
  pose proof places_apart as Ha. pose proof can_stash_all as Hc. rewrite <- Hm in Hc |- *. unfold all_places in Ha, Hc.
  destruct (apart_cons _ _ _ Ha) as (Hne & _ & _ & _ & _ & Hal). edestruct Hc as [H1 H2]; [by left|].
  apply backup_existing_ok in E2 as [Hs ->]; [|done..].
  apply backup_artifacts_ok in E3 as [Hs2 ->]; [|done|by eapply can_stash_after].
  split; [by eapply stashed_cons|]. split; [done|]. cbn [bk_artifacts fs_artifacts files backup_dir].
  apply map_ext_in. intros [t b] Hin%list_elem_of_In. f_equal. unfold backup_of.
  destruct (apart_cons _ _ _ Ha) as (_ & Ht1 & Ht2 & Hb1 & Hb2 & _). pose proof (pair_fst _ _ _ Hin) as Hf.
  destruct Hs as [_ Hs]. rewrite Hs; [done| |]; cbn; rewrite list_elem_of_singleton; intros ->; done.
Qed.

Lemma not_place p : length p <> 2%nat -> length p <> 3%nat -> p ∉ map fst (all_places files) /\ p ∉ map snd (all_places files).
Proof.
  intros H2 H3. split; [intros (f & _ & ->)%target_iff; by rewrite length_child in H2|].
  intros (g & ->)%backup_under. rewrite length_child in H3. unfold bdir, backup_path in H3. by rewrite length_child in H3.
Qed.
Lemma bdir_not_place : bdir ∉ map fst (all_places files) /\ bdir ∉ map snd (all_places files).
Proof.
  split; [intros (f & Hf & H)%target_iff; by apply (target_not_backup f Hf)|].
  intros (g & H)%backup_under. apply (f_equal length) in H. rewrite length_child in H. lia.
Qed.

Lemma rollback_sequence backups w1 : bk_manifest backups = backup_of m0 (target_manifest files) (child bdir "manifest.yaml") ->
  bk_artifacts backups = map (fun '(t, b) => (t, backup_of m0 t b)) (places bdir l) ->
  rollback_promote files backups w1 =
    sm_bind (sm_iter remove_if_exists (map fst (all_places files)))
      (fun _ => sm_iter (fun '(t, b) => restore_backup b t) (map (fun '(t, b) => (t, backup_of m0 t b)) (all_places files))) w1.
Proof.
  intros Hm Hl. unfold rollback_promote. rewrite Hm, Hl. unfold all_places, places. cbn [map sm_iter fst]. rewrite sm_bind_assoc.
  unfold sm_bind. destruct (remove_if_exists (target_manifest files) w1) as [[[]|e] w2]; [|done]. rewrite !sm_iter_map. cbn [fst].
  by destruct (sm_iter (fun a => remove_if_exists (target a)) (fs_artifacts files) w2) as [[[]|e] w3].
Qed.

Lemma cleanup_quiet w1 : is_quiet (disk w1) -> ns w1 !! bdir = Some Dir ->
  exists w2, cleanup_backup_dir bdir w1 = (Ok tt, w2) /\ ns w2 = without_tree bdir (ns w1).
Proof.
  intros Hq Hd. unfold cleanup_backup_dir, on_disk, logged, remove_dir_all.
  match goal with |- context [faulty ?p ?m ?d] => destruct (faulty_quiet p m d Hq) as (l2 & Hl2 & ->) end.
  cbn [nodes set_faults]. rewrite Hd. by eexists.
Qed.
Lemma lookup_without_tree (d : Path) (m : gmap Path Node) (p : Path) : without_tree d m !! p = if bool_decide (d `prefix_of` p) then None else m !! p.
Proof.
  unfold without_tree. rewrite map_lookup_filter. case_bool_decide as H; destruct (m !! p) as [n|]; [|done| |done]; cbn.
  - rewrite option_guard_False; [done|]. cbn. tauto.
  - rewrite option_guard_True; [done|]. done.
Qed.
Lemma target_not_under p : p ∈ map fst (all_places files) -> ~ bdir `prefix_of` p.
Proof.
  intros (f & Hf & ->)%target_iff [k Hk]. apply (target_not_backup f Hf). destruct k as [|x k]; [by rewrite app_nil_r in Hk|].
  apply (f_equal length) in Hk. rewrite length_app, length_child in Hk. unfold bdir, backup_path in Hk. rewrite length_child in Hk. cbn in Hk. lia.
Qed.

Lemma rollback_puts_back backups w1 e w2 : take_backups files w = (Ok backups, w1) -> install files w1 = (Err e, w2) ->
  is_quiet (disk w2) ->
  exists w3 w4, rollback_promote files backups w2 = (Ok tt, w3) /\ cleanup_backup_dir bdir w3 = (Ok tt, w4) /\ restored id (ns w) (ns w4).
Proof.
  intros (Hst & Hbm & Hbl)%take_backups_ok Hin Hq. rewrite install_moves in Hin. destruct Hst as [Hs1 Hs2].
  assert (forall p, p ∈ map fst (all_places files) -> ns w1 !! p = None) as Hgone.
  { intros p ([t b] & -> & Hp)%list_elem_of_fmap. by apply (Hs1 _ _ Hp). }
  apply move_ok in Hin as (Hch & Hnd & _); [|by apply moves_apart| |].
  2: { destruct move_names as [-> _]. intros p (f & -> & Hf%moved_names)%list_elem_of_fmap. rewrite Hs2, m0_other.
       - by destruct (Hsrc f Hf) as [c ->].
       - intros Hp. apply (f_equal length) in Hp. by rewrite length_child in Hp.
       - intros Hp%target_outside_backup. apply Hp, prefix_child.
       - intros (g & Hp)%backup_under. apply (f_equal length) in Hp. by rewrite !length_child in Hp. }
  2: { intros p Hp%moved_iff. by rewrite Hgone. }
  destruct (remove_all_quiet (map fst (all_places files)) w2) as (w3 & H3 & Hq3 & Hn3); [done|intros p Hp; by apply Hnd, moved_iff|].
  assert (forall p, p ∉ map fst (all_places files) -> ~ dir `prefix_of` p -> ns w3 !! p = ns w1 !! p) as Hw3.
  { intros p H1 H2. rewrite Hn3, bool_decide_eq_false_2 by done. apply Hch; [by apply outside_moves|]. by rewrite moved_iff. }
  assert (MODELS_DIR ∉ map fst (all_places files) /\ MODELS_DIR ∉ map snd (all_places files)) as [HM1 HM2] by (by apply not_place).
  assert (forall g, child bdir g ∉ map fst (all_places files) /\ ~ dir `prefix_of` child bdir g) as Hbn.
  { intros g. split; [intros (f & _ & H)%target_iff; apply (f_equal length) in H; by rewrite !length_child in H|].
    unfold child, bdir, backup_path, MODELS_DIR, dir, staging_path. by intros [k [=]]. }
  assert (ns w3 !! bdir = Some Dir /\ ns w3 !! MODELS_DIR = Some Dir) as [HB HM].
  { destruct bdir_not_place. rewrite !Hw3, !Hs2; try done.
    - split; [unfold m0; by simplify_map_eq|]. rewrite m0_other by done. apply (cp_models _ _ _ _ Hok).
    - intros [k Hk]. apply (f_equal length) in Hk. by rewrite length_app in Hk.
    - intros [k Hk]. apply (f_equal length) in Hk. by rewrite length_app in Hk. }
  destruct (restore_all_quiet m0 (all_places files) w3) as (w4 & H4 & Hq4 & Hn4 & Ho4); [done|by apply places_apart| | | |].
  { intros p ([t b] & -> & Hp)%list_elem_of_fmap. by apply (can_stash_all _ _ Hp). }
  { intros t b Hp. destruct (Hs1 _ _ Hp) as [Ht Hb]. pose proof (pair_fst _ _ _ Hp) as Hf. split; [|split].
    - by rewrite Hn3, bool_decide_eq_true_2.
    - apply pair_snd, backup_under in Hp as (g & ->). destruct (Hbn g). rewrite Hw3 by done. done.
    - apply target_iff in Hf as (f & _ & ->). by rewrite removelast_child. }
  { intros t (f & _ & ->)%target_iff. by rewrite removelast_child. }
  assert (ns w4 !! bdir = Some Dir) as HB4 by (destruct bdir_not_place; by rewrite Ho4).
  destruct (cleanup_quiet w4) as (w5 & H5 & Hn5); [done..|]. exists w4, w5.
  split; [rewrite (rollback_sequence _ _ Hbm Hbl); unfold sm_bind; by rewrite H3|]. split; [done|].
  intros p Hp. rewrite Hn5, lookup_without_tree. case_bool_decide as Hu; [by rewrite (cp_fresh _ _ _ _ Hok)|].
  assert (p <> bdir) as Hnb by (by intros ->). destruct (decide (p ∈ map fst (all_places files))) as [Ht|Ht].
  - rewrite Hn4 by done. by apply m0_other.
  - pose proof (outside_places p Hu). rewrite Ho4, Hw3, Hs2 by done. by apply m0_other.
Qed.

(** After the backups every move can work. *)
Lemma install_fault backups w1 e w2 : take_backups files w = (Ok backups, w1) -> install files w1 = (Err e, w2) ->
  at_most_one (faults (disk w1)) -> is_quiet (disk w2).
Proof.
  intros ([Hs1 Hs2] & _)%take_backups_ok Hin. rewrite install_moves in Hin. eapply move_fault; [by apply moves_apart| |done].
  assert (MODELS_DIR ∉ map fst (all_places files) /\ MODELS_DIR ∉ map snd (all_places files)) as [HM1 HM2] by (by apply not_place).
  intros s t Hst. pose proof (pair_snd _ _ _ Hst) as Ht. apply pair_fst in Hst.
  pose proof Ht as Ht'. apply moved_iff, target_iff in Ht' as (f & Hf & ->). rewrite removelast_child.
  destruct move_names as [Hfst Hsnd]. rewrite Hfst in Hst. apply list_elem_of_fmap in Hst as (g & -> & Hg%moved_names).
  destruct (Hsrc g Hg) as [c Hc]. split; [exists c|split; [|split; [|split]]].
  - destruct (not_place (child dir g)) as [H1 H2]; [done..|]. rewrite Hs2, m0_other by done. done.
  - apply moved_iff, list_elem_of_fmap in Ht as ([t b] & Heq & Hp). cbn in Heq. rewrite Heq. by rewrite (proj1 (Hs1 _ _ Hp)).
  - rewrite Hs2, m0_other by done. apply (cp_models _ _ _ _ Hok).
  - rewrite Hfst. intros (k & Hk & _)%list_elem_of_fmap. by apply (f_equal length) in Hk.
  - rewrite Hsnd. intros (k & Hk & _)%list_elem_of_fmap. by apply (f_equal length) in Hk.
Qed.

(** Backups that cannot all be taken are not put back. *)
Lemma take_backups_err e w1 : take_backups files w = (Err e, w1) -> stranded id uuid names (ns w) (ns w1).
Proof.
  assert (forall m, partly_stashed (all_places files) m0 m -> stranded id uuid names (ns w) m) as Hst.
  { intros m (dn & rest & Hl & Hs1 & Hs2). pose proof places_apart as Ha. rewrite Hl in Ha.
    assert (forall p, p ∉ map fst (all_places files) -> ~ bdir `prefix_of` p -> m !! p = ns w !! p) as Hother.
    { intros p H1 H2. pose proof (outside_places p H2) as H3. rewrite Hl, map_app, elem_of_app in H1, H3. rewrite Hs2 by tauto.
      apply m0_other. intros ->. by apply H2. }
    split; [|intros p [_ H1] H2; apply Hother; [|done]; intros (f & Hf & ->)%target_iff; by apply (H2 f)].
    intros f Hf. assert (child MODELS_DIR f ∈ map fst (all_places files)) as Hin by (apply target_iff; by exists f).
    destruct (decide (child MODELS_DIR f ∈ map fst dn)) as [([t b] & Ht & Hd)%list_elem_of_fmap|Hd].
    - cbn in Ht. destruct (Hs1 _ _ Hd) as [H1 H2]. right. rewrite Ht. split; [done|].
      assert (b ∈ map snd (all_places files)) as [g ->]%backup_under by (rewrite Hl, map_app, elem_of_app; left; by eapply pair_snd).
      exists g. fold bdir. rewrite H2, m0_other; [done|]. rewrite <- Ht. by apply target_not_backup.
    - left. rewrite Hs2; [apply m0_other; by apply target_not_backup|done|].
      intros H. assert (child MODELS_DIR f ∈ map snd (all_places files)) as [g Hg]%backup_under by (rewrite Hl, map_app, elem_of_app; by left).
      apply (f_equal length) in Hg. rewrite !length_child in Hg. unfold bdir, backup_path in Hg. by rewrite length_child in Hg. }
  assert (stranded id uuid names (ns w) (ns w)) as Hnone by (split; [by left|done]).
  unfold take_backups, sm_bind at 1. destruct (on_disk _ w) as [[[]|e1] w2] eqn:E1; apply create_dir_step in E1.
  2: { intros [= <- <-]. destruct E1 as [_ ->]. done. }
  assert (ns w2 = m0) as Hm.
  { rewrite E1. unfold m0, bdir, backup_path, files. cbn. apply insert_id. rewrite lookup_insert_ne by done. apply (cp_models _ _ _ _ Hok). }
  pose proof places_apart as Ha. pose proof can_stash_all as Hc. rewrite <- Hm in Hc, Hst. unfold all_places in Ha, Hc.
  destruct (apart_cons _ _ _ Ha) as (Hne & _ & _ & _ & _ & Hal). edestruct Hc as [H1 H2]; [by left|].
  unfold sm_bind. destruct (backup_existing _ _ _ w2) as [[o|e2] w3] eqn:E2.
  2: { apply backup_existing_err in E2. intros [= <- <-]. rewrite E2. apply Hst. eexists [], _. split; [done|]. apply stashed_nil. }
  destruct (backup_existing_artifacts _ _ w3) as [[bs|e3] w4] eqn:E3; [done|]. intros [= <- <-].
  apply backup_existing_ok in E2 as [Hs _]; [|done..].
  apply backup_artifacts_err in E3 as (dn & rest & Hl & Hd); [|done|by eapply can_stash_after].
  apply Hst. eexists (_ :: dn), rest. split; [unfold all_places; cbn [app]; by f_equal|]. eapply stashed_cons; [|done..].
  apply (apart_app_l _ rest). cbn [app]. rewrite <- Hl. exact Ha.
Qed.

(** What a run of the promotion comes to. *)
Lemma promote_files_outcome r w' : promote_files_with_backups files w = (r, w') ->
  match r with
  | Ok _ => installed id uuid names (ns w) (ns w')
  | Err e => e = PromoteIo /\
      (at_most_one (faults (disk w)) -> restored id (ns w) (ns w') \/ stranded id uuid names (ns w) (ns w'))
  end.
Proof.
  unfold promote_files_with_backups, sm_bind at 1. destruct (take_backups files w) as [[backups|e] w1] eqn:E1.
  2: { intros [= <- <-]. split; [by eapply take_backups_fails_as|]. intros _. right. by eapply take_backups_err. }
  unfold sm_bind at 1, sm_try. destruct (install files w1) as [[[]|e] w2] eqn:E2.
  - intros [= <- <-]. apply take_backups_ok in E1 as ([Hs1 Hs2] & _). rewrite install_moves in E2.
    assert (forall p, p ∈ map snd (moves files) -> ns w1 !! p = None) as Hgone.
    { intros p ([t b] & -> & Hp)%moved_iff%list_elem_of_fmap. by apply (Hs1 _ _ Hp). }
    assert (forall f, ns w1 !! child dir f = ns w !! child dir f) as Hsame.
    { intros f. destruct (not_place (child dir f)) as [H1 H2]; [done..|]. rewrite Hs2, m0_other by done. done. }
    apply move_ok in E2 as (Hch & _ & Hm); [|by apply moves_apart| |].
    + split.
      * intros f Hf. destruct (Hm _ _ (move_of f Hf)) as (c & Hc & Hc'). exists c. by rewrite <- Hsame.
      * intros p [Ho1 Ho2] Ht. assert (p ∉ map fst (all_places files)) as Hn by (intros (f & Hf & ->)%target_iff; by apply (Ht f)).
        pose proof (outside_places p Ho2). rewrite Hch, Hs2; [|done..|by apply outside_moves|by rewrite moved_iff].
        apply m0_other. intros ->. by apply Ho2.
    + destruct move_names as [-> _]. intros p (f & -> & Hf%moved_names)%list_elem_of_fmap. rewrite Hsame. by destruct (Hsrc f Hf) as [c ->].
    + intros p Hp. by rewrite Hgone.
  - intros Hrun. assert (r = Err e) as ->.
    { revert Hrun. unfold sm_bind. destruct (rollback_total files backups w2) as [w3 ->].
      destruct (cleanup_total (backup_dir files) w3) as [w4 ->]. by intros [= <- <-]. }
    split; [by eapply install_fails_as|]. intros Hone. left.
    assert (is_quiet (disk w2)) as Hq by (eapply install_fault; [done..|]; pose proof (take_backups_one files w) as Ho; rewrite E1 in Ho; by apply Ho).
    destruct (rollback_puts_back backups w1 e w2) as (w3 & w4 & H3 & H4 & H5); [done..|].
    revert Hrun. unfold sm_bind. rewrite H3. cbn [backup_dir files]. rewrite H4. by intros [= <-].
Qed.
End FileSet.

(** ** The bundle that is promoted *)

(** The manifest of a bundle is not one of its artifacts: its validation sees to that. *)
Lemma manifest_not_artifact (id : string) (m : ModelManifest) (l : list PromoteArtifact) : free_of "/" id ->
  validate (path_str (child (staging_path id) MANIFEST_FILENAME)) m = Ok tt ->
  collect_manifest_artifacts (staging_path id) MODELS_DIR m = Ok l -> MANIFEST_FILENAME ∉ map pa_file l.
Proof.
  intros Hid Hv%validate_sound Hc Hin. apply collect_ok in Hc as (_ & Hat & Hf). pose proof (so_files _ _ Hv) as Hs.
  assert (file_name (path_str (child (staging_path id) MANIFEST_FILENAME)) = Some MANIFEST_FILENAME) as Hn.
  { unfold file_name, components, path_str. rewrite split_join; [|by repeat constructor|done].
    unfold child, staging_path, MANIFEST_FILENAME. cbn. destruct (component_of id); reflexivity. }
  assert (safe_file (path_str (child (staging_path id) MANIFEST_FILENAME)) MANIFEST_FILENAME) as (_ & names & Hnames & Hd).
  { apply Hf, list_elem_of_bind in Hin as (s & Hin & Hs'). rewrite Forall_forall in Hs. destruct (Hs _ Hs') as (H1 & _ & H2).
    apply elem_of_cons in Hin as [He|(step & Hstep & Hside)%list_elem_of_omap]; [by rewrite <- He in H1|]. by apply (H2 _ _ Hstep Hside). }
  apply (Hd MANIFEST_FILENAME); [done|]. change (components MANIFEST_FILENAME) with (map Normal [MANIFEST_FILENAME]) in Hnames.
  apply (f_equal (omap (fun c => match c with Normal s => Some s | _ => None end))) in Hnames.
  assert (forall k, omap (fun c => match c with Normal s => Some s | _ => None end) (map Normal k) = k) as He
    by (induction k as [|x k IH]; [done|]; cbn; by rewrite IH).
  rewrite !He in Hnames. done.
Qed.

Lemma bundle_names_ext (k l : list string) : (forall f, f ∈ k <-> f ∈ l) -> forall f, f ∈ bundle_names k <-> f ∈ bundle_names l.
Proof. intros H f. unfold bundle_names. rewrite !elem_of_cons, H. done. Qed.
Lemma can_promote_ext id uuid k l m : (forall f, f ∈ k <-> f ∈ l) -> can_promote id uuid k m -> can_promote id uuid l m.
Proof. intros Hk [H1 H2 H3 H4 H5]. pose proof (bundle_names_ext k l Hk) as H. split; try done; [|]; setoid_rewrite <- H; done. Qed.
Lemma installed_ext id uuid k l m m' : (forall f, f ∈ k <-> f ∈ l) -> installed id uuid k m m' -> installed id uuid l m m'.
Proof. intros Hk. unfold installed. by setoid_rewrite (bundle_names_ext k l Hk). Qed.

Lemma stranded_ext id uuid k l m m' : (forall f, f ∈ k <-> f ∈ l) -> stranded id uuid k m m' -> stranded id uuid l m m'.
Proof. intros Hk. unfold stranded. by setoid_rewrite (bundle_names_ext k l Hk). Qed.

(** Reading the files of a bundle changes nothing. *)
Definition only_reads (w w' : World) : Prop := ns w' = ns w /\ same_records w w'.
#[local] Instance only_reads_preorder : PreOrder only_reads.
Proof. split; [done|]. intros a b c [H1 H2] [H3 H4]. split; [congruence|by etransitivity]. Qed.
Lemma sha256_reads {E : Type} (e : E) digest p : keeps only_reads (on_disk (map_err e (sha256_file digest p))).
Proof.
  intros w. split; [|by apply on_disk_records]. unfold on_disk, map_err, sha256_file, faulty, nothing.
  destruct (faults (disk w)) as [|[part|] k]; cbn; try done; by destruct (ns w !! p) as [[c|]|].
Qed.
#[local] Hint Resolve sha256_reads : keeps.
Lemma sha256_file_ok {E : Type} (e : E) digest p w s w' : on_disk (map_err e (sha256_file digest p)) w = (Ok s, w') ->
  ns w' = ns w /\ exists c, ns w !! p = Some (File c) /\ s = digest c.
Proof.
  unfold on_disk, map_err, sha256_file, faulty, nothing. destruct (faults (disk w)) as [|[part|] k]; cbn [nodes set_faults]; [|done|];
    destruct (ns w !! p) as [[c|]|]; try done; intros [= <- <-]; (split; [done|by exists c]).
Qed.
Lemma digests_ok digest l w ds w' : digests digest l w = (Ok ds, w') -> forall a, a ∈ l -> exists c, ns w !! staged a = Some (File c).
Proof.
  revert w ds. induction l as [|x l IH]; intros w ds; cbn [digests]; [by intros _ ? ?%elem_of_nil|].
  unfold sm_bind at 1. destruct (on_disk _ w) as [[sha|e] w1] eqn:E1; [|done]. apply sha256_file_ok in E1 as [Hn (c & Hc & _)].
  unfold sm_bind. destruct (digests digest l w1) as [[rest|e] w2] eqn:E2; [|done]. intros [= _ <-] a [->|Ha]%elem_of_cons; [by exists c|].
  rewrite <- Hn. by eapply IH.
Qed.
Lemma digests_reads digest l : keeps only_reads (digests digest l).
Proof. induction l as [|a l IH]; cbn [digests]; keeps_tac. Qed.
#[local] Hint Resolve digests_reads : keeps.

Lemma cleanup_changes (d : Path) (w w' : World) r : cleanup_backup_dir d w = (r, w') ->
  r = Ok tt /\ same_records w w' /\ forall p, ~ d `prefix_of` p -> ns w' !! p = ns w !! p.
Proof.
  intros H. pose proof (on_disk_records (logged (E' := PromoteError) (remove_dir_all d)) w) as Hr.
  assert (r = Ok tt) as -> by (revert H; destruct (cleanup_total d w) as [w2 ->]; by intros [= <-]).
  unfold cleanup_backup_dir in H. rewrite H in Hr. split; [done|]. split; [exact Hr|]. intros p Hp. revert H.
  unfold on_disk, logged, remove_dir_all, faulty.
  assert (forall m : gmap Path Node, without_tree d m !! p = m !! p) as Hw.
  { intros m. unfold without_tree. rewrite map_lookup_filter. destruct (m !! p); [|done]. cbn. by rewrite option_guard_True. }
  destruct (faults (disk w)) as [|[part|] k]; cbn [nodes set_faults].
  - destruct (ns w !! d) as [[c|]|]; intros [= <-]; cbn; [done|apply Hw|done].
  - intros [= <-]. cbn. rewrite map_lookup_filter. destruct (ns w !! p); [|done]. cbn. rewrite option_guard_True; [done|]. cbn. tauto.
  - destruct (ns w !! d) as [[c|]|]; intros [= <-]; cbn; [done|apply Hw|done].
Qed.

Lemma installed_cleaned (id uuid : string) (names : list string) (w : World) (m m' : gmap Path Node) : can_promote id uuid names (ns w) ->
  installed id uuid names (ns w) m -> (forall p, ~ backup_path uuid `prefix_of` p -> m' !! p = m !! p) -> installed id uuid names (ns w) m'.
Proof.
  intros Hok [H1 H2] Hm. split.
  - intros f Hf. destruct (H1 f Hf) as (c & Hc & Hc'). exists c. split; [done|]. rewrite Hm; [done|]. intros [k Hk].
    pose proof (f_equal length Hk) as Hl. unfold backup_path in Hk, Hl. rewrite length_app, !length_child in Hl. destruct k as [|x k]; [|cbn in Hl; lia].
    rewrite app_nil_r in Hk. apply child_inj in Hk. subst f. by apply (cp_uuid _ _ _ _ Hok).
  - intros p Hp Hf. rewrite Hm by apply Hp. by apply H2.
Qed.

(** The part after the audit row. *)
Lemma promote_atomically_outcome works id uuid m l row w r w' :
  free_of "/" id -> validate (path_str (child (staging_path id) MANIFEST_FILENAME)) m = Ok tt ->
  collect_manifest_artifacts (staging_path id) MODELS_DIR m = Ok l -> can_promote id uuid (manifest_files m) (ns w) ->
  (forall f, f ∈ bundle_names (manifest_files m) -> exists c, ns w !! child (staging_path id) f = Some (File c)) ->
  let files := mk_file_set (child (staging_path id) MANIFEST_FILENAME) l (child MODELS_DIR MANIFEST_FILENAME) (backup_path uuid) in
  promote_files_atomically_with_required_audit works files row w = (r, w') ->
  promote_gate w' = promote_gate w /\ validation_gate w' = validation_gate w /\
  match r with
  | Ok _ => works = true /\ audit_log w' = (audit_log w ++ [row])%list /\ installed id uuid (manifest_files m) (ns w) (ns w')
  | Err e => (e = AuditWrite /\ works = false /\ w' = w) \/
      (e = PromoteIo /\ audit_log w' = (audit_log w ++ [row])%list /\
        (at_most_one (faults (disk w)) -> restored id (ns w) (ns w') \/ stranded id uuid (manifest_files m) (ns w) (ns w')))
  end.
Proof.
  intros Hid Hv Hc Hok Hsrc files. unfold promote_files_atomically_with_required_audit, insert_audit_log, sm_bind at 1.
  destruct works; cbn [sm_modify sm_fail]; [|intros [= <- <-]; split_and!; [done..|by left]].
  set (w1 := set_audit_log _ w). pose proof (manifest_not_artifact _ _ _ Hid Hv Hc) as Hn.
  apply collect_ok in Hc as (Hnd & Hat & Hf).
  assert (can_promote id uuid (map pa_file l) (ns w1)) as Hok1 by (by eapply can_promote_ext; [|exact Hok]; intros f; rewrite Hf).
  assert (forall f, f ∈ bundle_names (map pa_file l) -> exists c, ns w1 !! child (staging_path id) f = Some (File c)) as Hsrc1
    by (intros f Hin; apply Hsrc; by eapply bundle_names_ext; [|exact Hin]; intros g; rewrite Hf).
  unfold sm_bind. destruct (promote_files_with_backups files w1) as [r1 w2] eqn:E.
  pose proof (promote_files_records files w1) as (Ha & Hp & Hg). rewrite E in Ha, Hp, Hg. cbn [snd] in Ha, Hp, Hg.
  pose proof (promote_files_outcome id uuid l Hnd Hat Hn w1 Hok1 Hsrc1 r1 w2 E) as Ho. destruct r1 as [bs|e].
  - intros (-> & (Ha2 & Hp2 & Hg2) & Hm)%cleanup_changes. split; [by rewrite Hp2|]. split; [by rewrite Hg2|]. split; [done|]. split; [by rewrite Ha2, Ha|].
    eapply installed_ext; [by intros f; rewrite Hf|]. by eapply (installed_cleaned _ _ _ w1).
  - intros [= <- <-]. split; [done|]. split; [done|]. right. destruct Ho as [-> Ho]. split; [done|]. split; [done|].
    intros [H|H]%Ho; [by left|right]. eapply stranded_ext; [|exact H]. intros f. by rewrite Hf.
Qed.

Section Promoting.
Context (reads : gmap Path Node -> string -> option string) (parse_manifest : string -> option ModelManifest)
  (parse_config : string -> option MLInferenceConfig)
  (load : gmap Path Node -> string -> string -> nat -> nat -> result Fault ModelRuntime)
  (digest : string -> string) (audit_works : bool).
Abbreviation manifest_str id := (path_str (child (staging_path id) MANIFEST_FILENAME)).
Abbreviation load_manifest m := (load_model_manifest (reads m) parse_manifest).
Abbreviation load_sidecar m := (load_manifest_with_sidecar (reads m) parse_manifest parse_config).

Lemma sidecar_manifest n p config m : load_sidecar n p = Ok (config, m) -> load_manifest n p = Ok m.
Proof.
  unfold load_manifest_with_sidecar. intros (m' & -> & H)%res_bind_inv. revert H. destruct (primary_scaler_sidecar m'); [|done].
  by intros (? & _ & (? & _ & (? & _ & [= <- <-])%res_bind_inv)%res_bind_inv)%res_bind_inv.
Qed.

Lemma collect_fails (d : Path) (md : Path) m e : collect_manifest_artifacts d md m = Err e -> e <> PromoteIo.
Proof.
  assert (forall acc f k e, push_artifact d md acc f k = Err e -> e <> PromoteIo) as Hp.
  { intros [l seen] f k e'. unfold push_artifact, validate_manifest_basename.
    repeat (match goal with |- context [if ?b then _ else _] => destruct b end); cbn; congruence. }
  assert (forall A (g : list PromoteArtifact * gset string -> A -> result PromoteError (list PromoteArtifact * gset string)) acc l e,
    (forall acc x e, g acc x = Err e -> e <> PromoteIo) -> res_fold g acc l = Err e -> e <> PromoteIo) as Hf.
  { intros A g acc l e' Hg. revert acc. induction l as [|x l IH]; intros acc; cbn [res_fold]; [done|].
    destruct (g acc x) as [acc'|e2] eqn:E; cbn [res_bind]; [apply IH|]. intros [= <-]. by eapply Hg. }
  unfold collect_manifest_artifacts. match goal with |- res_bind ?r _ = _ -> _ => destruct r as [acc|e'] eqn:E end; cbn [res_bind]; [done|].
  intros [= <-]. revert E. apply Hf. intros acc s e1. destruct (push_artifact _ _ acc _ _) as [acc'|e2] eqn:E; cbn [res_bind].
  - apply Hf. intros acc2 step e3. destruct (preprocessing_sidecar step); [apply Hp|done].
  - intros [= <-]. by eapply Hp.
Qed.

Lemma digests_fail l : fails_as StagingIo (digests digest l).
Proof.
  induction l as [|x l IH]; cbn [digests]; [apply fails_as_ret|]. apply fails_as_bind; [apply fails_as_map_err|]. intros s.
  apply fails_as_bind; [done|]. intros k. apply fails_as_ret.
Qed.
Lemma staged_model_outcome id batch_size w r w' :
  validate_staged_model reads parse_manifest parse_config load digest (staging_path id) batch_size w = (r, w') ->
  only_reads w w' /\ one_fault w w' /\
  match r with
  | Ok report => exists config m a l, load_sidecar (ns w) (manifest_str id) = Ok (config, m) /\
      build_adapter (load (ns w) (manifest_str id)) m batch_size = Ok a /\
      collect_manifest_artifacts (staging_path id) MODELS_DIR m = Ok l /\ rp_manifest_name report = mf_name m /\
      forall f, f ∈ bundle_names (manifest_files m) -> exists c, ns w !! child (staging_path id) f = Some (File c)
  | Err e => e <> PromoteIo
  end.
Proof.
  unfold validate_staged_model, guarded. destruct (validation_gate w) eqn:Hg; [by intros [= <- <-]|].
  destruct (validate_unguarded _ _ _ _ _ _ _ _) as [r1 w1] eqn:E. intros [= <- <-]. revert E. set (w0 := set_validation_gate true w).
  unfold validate_unguarded, read_manifest, sm_bind at 1. cbn [disk w0 set_validation_gate].
  assert (only_reads w (set_validation_gate false w0) /\ one_fault w (set_validation_gate false w0)) as [Hw0 Hw1] by (split; [by split; [|split_and!]|by intros ?]).
  destruct (load_manifest (ns w) (manifest_str id)) as [m|e] eqn:Hm; [|by intros [= <- <-]].
  case_bool_decide; [by intros [= <- <-]|]. unfold sm_bind at 1, sm_lift.
  destruct (collect_manifest_artifacts _ _ m) as [l|e] eqn:Hl; [|intros [= <- <-]; split; [done|split; [done|by eapply collect_fails]]].
  unfold sm_bind at 1, check_runtime. cbn [disk w0 set_validation_gate].
  destruct (load_sidecar (ns w) (manifest_str id)) as [[config m']|e] eqn:Hs; [|by intros [= <- <-]].
  assert (m' = m) as -> by (apply sidecar_manifest in Hs; congruence).
  destruct (build_adapter _ m batch_size) as [a|e] eqn:Ha; [|by intros [= <- <-]].
  intros E. assert (only_reads w0 w1 /\ one_fault w0 w1) as [[Hn (Hr1 & Hr2 & Hr3)] Ho].
  { match type of E with ?m w0 = _ => assert (keeps only_reads m) as Hk by keeps_tac; assert (keeps one_fault m) as Hk2 by keeps_tac end.
    specialize (Hk w0). specialize (Hk2 w0). by rewrite E in Hk, Hk2. }
  split; [split; [done|by split_and!]|]. split; [exact Ho|]. revert E. unfold sm_bind. destruct (on_disk _ w0) as [[sha|e] w2] eqn:E1.
  2: { intros [= <- <-]. apply fails_as_map_err in E1 as ->. done. }
  apply sha256_file_ok in E1 as [Hn2 (c & Hc & _)].
  destruct (digests digest l w2) as [[ds|e] w3] eqn:E2; intros [= <- <-].
  - exists config, m, a, l. split_and!; [done..|]. pose proof (collect_ok _ _ _ _ Hl) as (_ & Hat & Hf).
    intros f [->|Hin]%elem_of_cons; [by exists c|]. apply Hf, list_elem_of_fmap in Hin as (x & -> & Hx).
    destruct (digests_ok _ _ _ _ _ E2 x Hx) as [c' Hc']. exists c'. apply list_elem_of_lookup in Hx as [i Hi].
    destruct (Hat _ _ Hi) as (_ & <- & _). by rewrite <- Hc', Hn2.
  - by apply digests_fail in E2 as ->.
Qed.

Lemma validate_and_promote_outcome (id uuid actor : string) (inference : Inference) (batch_size : nat) (w w' : World)
    (r : result PromoteError ModelValidationReport) :
  free_of "/" id -> at_most_one (faults (disk w)) ->
  (forall m, load_manifest (ns w) (manifest_str id) = Ok m -> can_promote id uuid (manifest_files m) (ns w)) ->
  validate_and_promote reads parse_manifest parse_config load digest audit_works (staging_path id) inference actor uuid batch_size w = (r, w') ->
  promote_gate w' = promote_gate w /\ validation_gate w' = validation_gate w /\
  match r with
  | Ok report => exists config m a, load_sidecar (ns w) (manifest_str id) = Ok (config, m) /\
      build_adapter (load (ns w) (manifest_str id)) m batch_size = Ok a /\ rp_manifest_name report = mf_name m /\
      installed id uuid (manifest_files m) (ns w) (ns w') /\
      audit_log w' = (audit_log w ++ [mk_audit ("SecurityAdmin@" ++ actor) AUDIT_ACTION_MODEL_SWAP (report, model_source_status inference)])%list
  | Err PromoteIo => exists m, load_manifest (ns w) (manifest_str id) = Ok m /\
      (restored id (ns w) (ns w') \/ stranded id uuid (manifest_files m) (ns w) (ns w'))
  | Err _ => ns w' = ns w /\ audit_log w' = audit_log w
  end.
Proof.
  intros Hid Hone Hok. unfold validate_and_promote, guarded. destruct (promote_gate w) eqn:Hg; [by intros [= <- <-]|].
  match goal with |- context [let '(_, _) := ?m in _] => destruct m as [r1 w1] eqn:E end. intros [= <- <-].
  revert E. unfold sm_bind at 1. destruct (validate_staged_model _ _ _ _ _ _ _ _) as [[report|e] w2] eqn:E1;
    apply staged_model_outcome in E1 as ([Hn2 (Ha2 & _ & Hg2)] & Ho2 & Hv); cbn in Hn2, Ha2, Hg2.
  2: { intros [= <- <-]. split; [done|]. split; [done|]. by destruct e. }
  destruct Hv as (config & m & a & l & Hs & Ha & Hl & Hname & Hsrc). cbn [disk set_promote_gate] in Hs, Ha, Hsrc.
  assert (load_manifest (ns w) (manifest_str id) = Ok m) as Hm by (by eapply sidecar_manifest).
  unfold sm_bind at 1, read_manifest. rewrite Hn2, Hm. unfold sm_bind at 1, sm_lift. rewrite Hl. unfold sm_bind.
  match goal with |- context [promote_files_atomically_with_required_audit ?wk ?fs ?row w2] =>
    destruct (promote_files_atomically_with_required_audit wk fs row w2) as [r3 w3] eqn:E3 end.
  assert (validate (manifest_str id) m = Ok tt) as Hvalid.
  { revert Hm. unfold load_model_manifest. destruct (reads _ _) as [c|]; [|done]. destruct (parse_manifest c) as [m2|]; [|done].
    destruct (validate (manifest_str id) m2) as [[]|] eqn:Hv; [|done]. by intros [= <-]. }
  eapply promote_atomically_outcome in E3 as (Hp3 & Hv3 & H3); [|done|done|done|rewrite Hn2; by apply Hok|by rewrite Hn2].
  destruct r3 as [[]|e]; intros [= <- <-]; (split; [done|split; [cbn; congruence|]]).
  - destruct H3 as (_ & Ha3 & Hi). exists config, m, a. rewrite Hn2 in Hi. cbn. by rewrite Ha3, Ha2.
  - destruct H3 as [(-> & _ & ->)|(-> & _ & H4)]; [by split|]. rewrite Hn2 in H4. exists m. split; [done|]. by apply H4, Ho2.
Qed.

(** C17: A promotion puts all of a validated bundle in place or nothing: it succeeds only
    with a bundle that loads and runs, whose files are then the ones in models/, with
    nothing else changed and the swap in the audit log; an error before the files are
    moved changes neither disk nor log; and when one operation fails while they are
    moved, every file is as it was or, when it was a backup that failed, is there or
    among the backups.  The gates are free again in any case. *)
Theorem promotion_swaps_or_keeps (id uuid actor : string) (inference : Inference) (batch_size : nat) (w w' : World)
    (r : result PromoteError ModelValidationReport) :
  free_of "/" id -> at_most_one (faults (disk w)) ->
  (forall m, load_manifest (ns w) (manifest_str id) = Ok m -> can_promote id uuid (manifest_files m) (ns w)) ->
  validate_and_promote reads parse_manifest parse_config load digest audit_works (staging_path id) inference actor uuid batch_size w = (r, w') ->
  promote_gate w' = promote_gate w /\ validation_gate w' = validation_gate w /\
  match r with
  | Ok report => exists config m a, load_sidecar (ns w) (manifest_str id) = Ok (config, m) /\
      build_adapter (load (ns w) (manifest_str id)) m batch_size = Ok a /\ rp_manifest_name report = mf_name m /\
      installed id uuid (manifest_files m) (ns w) (ns w') /\
      audit_log w' = (audit_log w ++ [mk_audit ("SecurityAdmin@" ++ actor) AUDIT_ACTION_MODEL_SWAP (report, model_source_status inference)])%list
  | Err PromoteIo => exists m, load_manifest (ns w) (manifest_str id) = Ok m /\
      (restored id (ns w) (ns w') \/ stranded id uuid (manifest_files m) (ns w) (ns w'))
  | Err _ => ns w' = ns w /\ audit_log w' = audit_log w
  end.
Proof. apply validate_and_promote_outcome. Qed.
End Promoting.

(** ** A bundle on a disk *)

(** Files are read from the disk; what they hold stands for what the parsers give. *)
Definition plain_reads (m : gmap Path Node) (path : string) : option string :=
  match m !! split "/" path with Some (File c) => Some c | _ => None end.
Definition plain_manifest_of (content : string) : option ModelManifest :=
  if String.eqb content "old manifest" || String.eqb content "manifest" then Some shipped_manifest else None.
Definition plain_load (m : gmap Path Node) (manifest_path file : string) (rows features : nat) : result Fault ModelRuntime := Ok steady_runtime.
Definition bundle_files : list string := [MANIFEST_FILENAME; "deep_autoencoder.onnx"; "inference_config.json"; "classifier.onnx"].
Definition bundle_disk : gmap Path Node :=
  list_to_map ([(MODELS_DIR, Dir); (child MODELS_DIR ".staging", Dir); (staging_path "s", Dir)] ++
    map (fun f => (child MODELS_DIR f, File (if String.eqb f MANIFEST_FILENAME then "old manifest" else "old"))) bundle_files ++
    map (fun f => (child (staging_path "s") f, File (if String.eqb f MANIFEST_FILENAME then "manifest" else "new"))) bundle_files).
Definition bundle_world (l : list (option (list Path))) : World := mk_world (mk_disk bundle_disk l 0) [] false false.
Definition run_promotion (l : list (option (list Path))) : result PromoteError ModelValidationReport * World :=
  validate_and_promote plain_reads plain_manifest_of (fun _ => Some steady_config) plain_load (fun c => c) true
    (staging_path "s") (new_inference Dormant) "root" "u" 8 (bundle_world l).

Lemma bundle_can_promote : can_promote "s" "u" (manifest_files shipped_manifest) bundle_disk.
Proof.
  split; [vm_compute; reflexivity..| | |].
  - apply Forall_forall. replace (bundle_names (manifest_files shipped_manifest)) with bundle_files by (vm_compute; reflexivity).
    repeat (apply Forall_cons; split; [vm_compute; discriminate|]). constructor.
  - intros p Hp. apply eq_None_not_Some. intros [n Hn]. revert Hp.
    assert (map_Forall (fun p _ => ~ backup_path "u" `prefix_of` p) bundle_disk) as H by (refine (bool_decide_eq_true_1 _ _); vm_compute; reflexivity).
    by apply (H p n).
  - replace (bundle_names (manifest_files shipped_manifest)) with bundle_files by (vm_compute; reflexivity).
    refine (bool_decide_eq_true_1 _ _); vm_compute; reflexivity.
Qed.

Lemma promotion_swaps_or_keeps_witness : exists report w', run_promotion [] = (Ok report, w') /\
  installed "s" "u" (manifest_files shipped_manifest) bundle_disk (ns w') /\ length (audit_log w') = 1%nat.
Proof.
  destruct (run_promotion []) as [[report|e] w'] eqn:E.
  2: { exfalso. apply (f_equal (fun x => is_ok x.1)) in E. vm_compute in E. discriminate. }
  exists report, w'. split; [reflexivity|].
  assert (load_model_manifest (plain_reads bundle_disk) plain_manifest_of (path_str (child (staging_path "s") MANIFEST_FILENAME)) = Ok shipped_manifest) as Hm.
  { unfold load_model_manifest. replace (plain_reads bundle_disk _) with (Some "manifest") by (vm_compute; reflexivity).
    cbn [plain_manifest_of]. change (plain_manifest_of "manifest") with (Some shipped_manifest). cbv beta iota.
    replace (validate _ shipped_manifest) with (Ok (E := ManifestError) tt) by (vm_compute; reflexivity). reflexivity. }
  destruct (promotion_swaps_or_keeps plain_reads plain_manifest_of (fun _ => Some steady_config) plain_load (fun c => c) true
    "s" "u" "root" (new_inference Dormant) 8 (bundle_world []) w' (Ok report)) as (_ & _ & config & m & a & Hs & _ & _ & Hi & Ha).
  - reflexivity.
  - exact I.
  - intros m Hm'. cbn [disk nodes bundle_world] in Hm'. rewrite Hm in Hm'. injection Hm' as <-. exact bundle_can_promote.
  - exact E.
  - apply sidecar_manifest in Hs. cbn [disk nodes bundle_world] in Hs, Hi. rewrite Hm in Hs. injection Hs as <-. split; [exact Hi|]. by rewrite Ha.
Defined.

(** A backup that fails on the way is not put back: with the manifest among the backups
    the promotion fails, the audit log says the model was swapped, and the next reload
    takes the model in use away. *)
Lemma failed_backup_takes_model_away :
  let '(r, w) := run_promotion [None; None; None; None; None; None; None; None; Some []] in
  r = Err PromoteIo /\ length (audit_log w) = 1%nat /\ ns w !! child MODELS_DIR MANIFEST_FILENAME = None /\
  ns w !! child (backup_path "u") "manifest.yaml" = Some (File "old manifest") /\
  forall a info qps b, state (reload_model_from_disk (fun p => bool_decide (is_Some (ns w !! split "/" p))) (plain_reads (ns w)) plain_manifest_of
    (fun _ => Some steady_config) (fun _ => "") (plain_load (ns w) manifest_path) 8 1 (mk_inference (Active a info) qps b)).2 = Dormant.
Proof.
  assert ((fun x => (x.1, length (audit_log x.2), ns x.2 !! child MODELS_DIR MANIFEST_FILENAME, ns x.2 !! child (backup_path "u") "manifest.yaml"))
    (run_promotion [None; None; None; None; None; None; None; None; Some []]) = (Err PromoteIo, 1%nat, None, Some (File "old manifest"))) as H
    by (vm_compute; reflexivity).
  destruct (run_promotion _) as [r w]. cbn [fst snd] in H.
  injection H as -> Hl Hm Hb. split_and!; [done..|]. intros a info qps b. unfold reload_model_from_disk.
  rewrite bool_decide_eq_false_2; [reflexivity|]. change (split "/" manifest_path) with (child MODELS_DIR MANIFEST_FILENAME). rewrite Hm. by intros [? ?].
Qed.
