(* ===== verification/Upload.v ===== *)
(** * Uploading a model

    The upload of a model bundle: the multipart field streamed to a file, the archive
    taken apart within its limits, and the promotion of what was staged
    (adapter/http/detection/model_upload.rs, byo.rs, infrastructure/staging_cleanup.rs).
    The archive reader is a parameter. *)

From Stdlib Require Import ZArith Lia List Ascii String.
From stdpp Require Import base list gmap strings.
From S2P Require Import Prelude RStr Manifest Onnx Inference ModelConfig Store Promotion.

Local Open Scope string_scope.
Local Open Scope Z_scope.

Definition FIELD_BUNDLE : string := "bundle".
Definition BUNDLE_FILENAME : string := "model_bundle.zip".
Definition STAGING_SUBDIR : string := ".staging".
Definition PROMOTE_REQUIRED_PERMISSION : string := "users:admin".

(** ** Limits and errors *)

Record UploadCaps : Type := mk_caps { cap_bundle : Z; cap_manifest : Z; cap_onnx : Z; cap_scaler : Z }.
Record ModelUploadConfig : Type := mk_upload_config { max_manifest_bytes : Z; max_onnx_bytes : Z; max_scaler_bytes : Z }.
Definition from_config (c : ModelUploadConfig) : UploadCaps := {|
  cap_bundle := saturating_add 64 (saturating_add 64 (max_manifest_bytes c) (max_onnx_bytes c)) (max_scaler_bytes c);
  cap_manifest := max_manifest_bytes c; cap_onnx := max_onnx_bytes c; cap_scaler := max_scaler_bytes c |}.

Record UploadSummary : Type := mk_summary { bundle_bytes : Z; sm_manifest_bytes : Z; sm_onnx_bytes : Z; sm_scaler_bytes : option Z }.
Record BundleExtractionSummary : Type := mk_extraction { manifest_bytes : Z; onnx_bytes : Z; scaler_bytes : option Z }.

Inductive UploadError : Type :=
  | MissingField | DuplicateField | FilenameConflict (name : string) | UnknownField (name : string)
  | BundleTooLarge (max : Z) | BundleNotZip | BundleEntryInvalid | BundleExtractionFailed
  | ManifestTooLarge (max : Z) | OnnxTooLarge (max : Z) | ScalerTooLarge (max : Z) | StreamFailure | StagingSetupFailure.

(** A response is its status and the code in its body. *)
Inductive Response : Type :=
  | Structured (status : Z) (code : string)
  | PromotedResponse (staging_id : string) (summary : UploadSummary) (report : ModelValidationReport)
  | ValidationResponse (staging_id : string) (summary : UploadSummary) (report : option ModelValidationReport) (severity code : string).

Definition structured_error_response (status : Z) (code : string) : Response :=
  Structured (if existsb (Z.eqb status) [400; 403; 409; 413; 422] then status else 500) code.
Definition into_response (e : UploadError) : Response :=
  let '(status, code) :=
    match e with
    | MissingField => (400, "missing_field")
    | DuplicateField => (400, "duplicate_field")
    | FilenameConflict _ => (400, "filename_conflict")
    | UnknownField _ => (400, "unknown_field")
    | BundleTooLarge _ => (413, "bundle_too_large")
    | BundleNotZip => (400, "bundle_not_zip")
    | BundleEntryInvalid => (422, "bundle_entry_invalid")
    | BundleExtractionFailed => (422, "bundle_extraction_failed")
    | ManifestTooLarge _ => (413, "manifest_too_large")
    | OnnxTooLarge _ => (413, "onnx_too_large")
    | ScalerTooLarge _ => (413, "sidecar_too_large")
    | StreamFailure => (400, "upload_stream_failure")
    | StagingSetupFailure => (500, "staging_setup_failure")
    end in
  structured_error_response status code.
Definition promote_error_response (e : PromoteError) : Response :=
  let '(status, code) :=
    match e with
    | BadManifest _ => (422, "manifest_invalid")
    | ValidationFailed _ => (422, "model_validation_failed")
    | StagingIo => (500, "staging_io_failed")
    | PromoteIo => (500, "promotion_io_failed")
    | AuditWrite => (500, "audit_write_failed")
    | ConcurrentPromote => (409, "concurrent_promote")
    | ConcurrentValidation => (409, "concurrent_validation")
    end in
  structured_error_response status code.
(** The severity and the code of the diagnostic of a validation. *)
Definition diagnostic_from_promote_error (e : PromoteError) : string * string :=
  match e with
  | BadManifest _ => ("error", "manifest_invalid")
  | ValidationFailed _ => ("error", "model_validation_failed")
  | StagingIo => ("error", "staging_io_failed")
  | PromoteIo => ("error", "promotion_io_failed")
  | AuditWrite => ("error", "audit_write_failed")
  | ConcurrentPromote => ("warning", "concurrent_promote")
  | ConcurrentValidation => ("warning", "concurrent_validation")
  end.

(** ** Receiving the bundle *)

(** A field of the request and its chunks; [None] is an error of the stream. *)
Record Field : Type := mk_field { fd_name : option string; fd_filename : option string; fd_chunks : list (option string) }.

Abbreviation upl A := (sm Disk UploadError A).

Definition sanitize_filename (raw : string) : string :=
  let trimmed := default "model.onnx" (last (split "/" (map_string (fun c => if Ascii.eqb c "\"%char then "/"%char else c) raw))) in
  if is_empty trimmed || String.eqb trimmed "." || String.eqb trimmed ".." then "model.onnx" else trimmed.
Definition looks_like_zip (first_chunk : string) : bool := starts_with first_chunk "PK".
Definition size (s : string) : Z := Z.of_nat (String.length s).

(** Bytes that wait in the file's buffer are written by [flush]. *)
Definition flush : io unit := faulty nothing (fun d => (Ok tt, d)).
Fixpoint stream_chunks (dest : Path) (max_bytes : Z) (total : Z) (sniffed : bool) (chunks : list (option string)) : upl Z :=
  match chunks with
  | [] => run! map_err StreamFailure flush in sm_ret total
  | None :: _ => sm_fail StreamFailure
  | Some chunk :: chunks =>
      if negb sniffed && negb (looks_like_zip chunk) then sm_fail BundleNotZip
      else
        let total := saturating_add 64 total (size chunk) in
        if max_bytes <? total then sm_fail (BundleTooLarge max_bytes)
        else
          run! map_err StreamFailure (write_all dest chunk) in
          stream_chunks dest max_bytes total true chunks
  end.
Definition stream_field_to_file (chunks : list (option string)) (dest : Path) (max_bytes : Z) : upl Z :=
  run! map_err StagingSetupFailure (create_file dest) in
  stream_chunks dest max_bytes 0 false chunks.

(** ** Taking the archive apart *)

Record Entry : Type := mk_entry { is_dir : bool; enclosed_name : option string }.

Definition reserve_upload_filename (used : list string) (filename : string) : result UploadError (list string) :=
  if existsb (fun existing => String.eqb existing filename) used then Err (FilenameConflict filename)
  else Ok (used ++ [filename])%list.
Definition max_for_file (caps : UploadCaps) (filename : string) : Z :=
  if String.eqb filename MANIFEST_FILENAME then cap_manifest caps
  else if ends_with filename ".onnx" then cap_onnx caps
  else if ends_with filename ".json" then cap_scaler caps
  else cap_bundle caps.
Definition too_large (caps : UploadCaps) (filename : string) : UploadError :=
  if String.eqb filename MANIFEST_FILENAME then ManifestTooLarge (cap_manifest caps)
  else if ends_with filename ".onnx" then OnnxTooLarge (cap_onnx caps)
  else if ends_with filename ".json" then ScalerTooLarge (cap_scaler caps)
  else BundleExtractionFailed.

(** What the loop has seen so far. *)
Record Extracted : Type := mk_extracted {
  seen_files : list string; ex_manifest : option Z; ex_onnx : Z; ex_scaler : option Z; total_uncompressed : Z }.
Definition record_entry (filename : string) (copied : Z) (seen : list string) (total : Z) (x : Extracted) : Extracted :=
  if String.eqb filename MANIFEST_FILENAME then mk_extracted seen (Some copied) (ex_onnx x) (ex_scaler x) total
  else if ends_with filename ".onnx" then mk_extracted seen (ex_manifest x) (saturating_add 64 (ex_onnx x) copied) (ex_scaler x) total
  else if ends_with filename ".json" then mk_extracted seen (ex_manifest x) (ex_onnx x) (Some copied) total
  else mk_extracted seen (ex_manifest x) (ex_onnx x) (ex_scaler x) total.

(** [ZipArchive]: the number of entries of an archive; an entry, and up to [limit] bytes
    of what it holds, of an archive that was opened with one content and has another by now. *)
Class ZipReader : Type := {
  zip_len : string -> option nat;
  by_index : string -> string -> nat -> option Entry;
  entry_bytes : string -> string -> nat -> Z -> option string }.

Section Extract.
Context `{ZipReader} (caps : UploadCaps) (staging_dir : Path).
Let bundle_path := child staging_dir BUNDLE_FILENAME.

Definition content_of (path : Path) (d : Disk) : string := match nodes d !! path with Some (File c) => c | _ => "" end.
Definition open_file (path : Path) : io string := faulty nothing (fun d =>
  match nodes d !! path with Some (File c) => (Ok c, d) | _ => (Err tt, d) end).

(** [io::copy] of at most [limit] bytes; a failure leaves a part of the file. *)
Definition copy_entry (opened : string) (idx : nat) (limit : Z) (dest : Path) : upl Z :=
  do! d := sm_get in
  match entry_bytes opened (content_of bundle_path d) idx limit with
  | None => sm_fail BundleExtractionFailed
  | Some bytes =>
      let bytes := String.substring 0 (Z.to_nat limit) bytes in
      run! map_err BundleExtractionFailed (write_all dest bytes) in
      sm_ret (size bytes)
  end.

Definition extract_entry (opened : string) (x : Extracted) (idx : nat) : upl Extracted :=
  do! d := sm_get in
  match by_index opened (content_of bundle_path d) idx with
  | None => sm_fail BundleExtractionFailed
  | Some entry =>
      if is_dir entry then sm_ret x
      else
        match enclosed_name entry with
        | None => sm_fail BundleEntryInvalid
        | Some enclosed =>
            if negb (length (components enclosed) =? 1)%nat then sm_fail BundleEntryInvalid
            else
              match file_name enclosed with
              | None => sm_fail BundleEntryInvalid
              | Some filename =>
                  do! seen := sm_lift (reserve_upload_filename (seen_files x) filename) in
                  let dest := child staging_dir filename in
                  run! map_err BundleExtractionFailed (create_file dest) in
                  let max := max_for_file caps filename in
                  do! copied := copy_entry opened idx (saturating_add 64 max 1) dest in
                  if max <? copied then sm_fail (too_large caps filename)
                  else
                    let total := saturating_add 64 (total_uncompressed x) copied in
                    if cap_bundle caps <? total then sm_fail BundleExtractionFailed
                    else sm_ret (record_entry filename copied seen total x)
              end
        end
  end.
(** The entries from [idx] on, [n] of them. *)
Fixpoint extract_entries (opened : string) (n idx : nat) (x : Extracted) : upl Extracted :=
  match n with
  | O => sm_ret x
  | S n => do! x := extract_entry opened x idx in extract_entries opened n (S idx) x
  end.

Definition extract_bundle_zip : upl BundleExtractionSummary :=
  do! opened := map_err BundleExtractionFailed (open_file bundle_path) in
  match zip_len opened with
  | None => sm_fail BundleExtractionFailed
  | Some n =>
      do! x := extract_entries opened n 0 (mk_extracted [] None 0 None 0) in
      match ex_manifest x with
      | None => sm_fail BundleExtractionFailed
      | Some m => if ex_onnx x =? 0 then sm_fail BundleExtractionFailed else sm_ret (mk_extraction m (ex_onnx x) (ex_scaler x))
      end
  end.

(** ** The request *)

Fixpoint receive_fields (payload : list (option Field)) (bundle : option Z) : upl (option Z) :=
  match payload with
  | [] => sm_ret bundle
  | None :: _ => sm_fail StreamFailure
  | Some field :: payload =>
      let name := default "" (fd_name field) in
      if String.eqb name FIELD_BUNDLE then
        match bundle with
        | Some _ => sm_fail DuplicateField
        | None =>
            do! written := stream_field_to_file (fd_chunks field) bundle_path (cap_bundle caps) in
            receive_fields payload (Some written)
        end
      else sm_fail (UnknownField name)
  end.
Definition ingest_multipart (payload : list (option Field)) : upl UploadSummary :=
  run! map_err StagingSetupFailure (create_dir_all staging_dir) in
  do! bundle := receive_fields payload None in
  match bundle with
  | None => sm_fail MissingField
  | Some bytes =>
      do! x := extract_bundle_zip in
      sm_ret (mk_summary bytes (manifest_bytes x) (onnx_bytes x) (scaler_bytes x))
  end.
End Extract.

Definition cleanup_staging_dir (staging_dir : Path) : promo unit := on_disk (logged (remove_dir_all staging_dir)).

Section Handlers.
Context `{ZipReader} (reads : gmap Path Node -> string -> option string) (parse_manifest : string -> option ModelManifest)
  (parse_config : string -> option MLInferenceConfig)
  (load : gmap Path Node -> string -> string -> nat -> nat -> result Fault ModelRuntime)
  (digest : string -> string) (audit_works : bool).

Definition may_promote (permissions : list string) : bool := existsb (fun p => String.eqb p PROMOTE_REQUIRED_PERMISSION) permissions.

(** [upload]; the two identifiers are drawn by the handler and by the promotion. *)
Definition upload (config : ModelUploadConfig) (batch_size : nat) (inference : Inference) (permissions : list string) (username : string)
    (payload : list (option Field)) (staging_id uuid : string) (w : World) : Response * World :=
  if negb (may_promote permissions) then (structured_error_response 403 "permission_denied", w)
  else
    let staging_dir := staging_path staging_id in
    let '(ingested, d) := ingest_multipart (from_config config) staging_dir payload (disk w) in
    let w := set_disk d w in
    match ingested with
    | Err e => (into_response e, (cleanup_staging_dir staging_dir w).2)
    | Ok summary =>
        let '(outcome, w) := validate_and_promote reads parse_manifest parse_config load digest audit_works staging_dir inference username uuid batch_size w in
        (match outcome with
         | Ok report => PromotedResponse staging_id summary report
         | Err e => promote_error_response e
         end, (cleanup_staging_dir staging_dir w).2)
    end.

(** [validate_bundle]: the same without the promotion. *)
Definition validate_bundle (config : ModelUploadConfig) (batch_size : nat) (permissions : list string)
    (payload : list (option Field)) (staging_id : string) (w : World) : Response * World :=
  if negb (may_promote permissions) then (structured_error_response 403 "permission_denied", w)
  else
    let staging_dir := staging_path staging_id in
    let '(ingested, d) := ingest_multipart (from_config config) staging_dir payload (disk w) in
    let w := set_disk d w in
    match ingested with
    | Err e => (into_response e, (cleanup_staging_dir staging_dir w).2)
    | Ok summary =>
        let '(outcome, w) := validate_staged_model reads parse_manifest parse_config load digest staging_dir batch_size w in
        (match outcome with
         | Ok report => ValidationResponse staging_id summary (Some report) "info" "validation_passed"
         | Err e => let '(severity, code) := diagnostic_from_promote_error e in ValidationResponse staging_id summary None severity code
         end, (cleanup_staging_dir staging_dir w).2)
    end.
End Handlers.

(** ** What a request changes *)

Definition only_within (dir : Path) (d d' : Disk) : Prop :=
  (forall p, ~ dir `prefix_of` p -> nodes d' !! p = nodes d !! p) /\ (at_most_one (faults d) -> at_most_one (faults d')).
#[local] Instance only_within_preorder dir : PreOrder (only_within dir).
Proof. split; [by split|]. intros a b c [H1 H2] [H3 H4]. split; [|tauto]. intros p Hp. by rewrite H3, H1. Qed.

Lemma faulty_within {A : Type} dir part (m : io A) :
  (forall l n p, ~ dir `prefix_of` p -> part l n !! p = n !! p) -> (forall d, only_within dir d (m d).2) -> keeps (only_within dir) (faulty part m).
Proof.
  intros Hp Hm d. unfold faulty. destruct (faults d) as [|[l|] k] eqn:E; [apply Hm| |].
  - split; [intros p Hd; by apply Hp|]. rewrite E. cbn. apply at_most_one_quiet.
  - destruct (Hm (set_faults k d)) as [H1 H2]. split; [exact H1|]. rewrite E. exact H2.
Qed.
Lemma map_err_within {E E' A : Type} dir (e : E') (m : sm Disk E A) : keeps (only_within dir) m -> keeps (only_within dir) (map_err e m).
Proof. intros Hm d. specialize (Hm d). unfold map_err. by destruct (m d). Qed.

Section Within.
Context (dir : Path).
Lemma create_file_within p : dir `prefix_of` p -> keeps (only_within dir) (create_file p).
Proof.
  intros Hp. apply faulty_within; [done|]. intros d. assert (forall q, ~ dir `prefix_of` q -> q <> p) as Hne by (intros q Hq ->; done).
  destruct (nodes d !! p) as [[c|]|]; cbn; [|reflexivity|]; (destruct (bool_decide _); [|reflexivity]); (split; [|done]);
    intros q Hq; cbn; rewrite lookup_insert_ne; [done| |done|]; intros <-; by apply (Hne p).
Qed.
Lemma write_all_within p s : dir `prefix_of` p -> keeps (only_within dir) (write_all p s).
Proof.
  intros Hp. apply faulty_within; [done|]. intros d. destruct (nodes d !! p) as [[c|]|]; [|reflexivity|reflexivity].
  split; [|done]. intros q Hq. cbn. rewrite lookup_insert_ne; [done|]. by intros <-.
Qed.
Lemma flush_within : keeps (only_within dir) flush.
Proof. apply faulty_within; [done|]. intros d. reflexivity. Qed.
Lemma open_file_within p : keeps (only_within dir) (open_file p).
Proof. apply faulty_within; [done|]. intros d. cbn. by destruct (nodes d !! p) as [[c|]|]. Qed.
#[local] Hint Resolve create_file_within write_all_within flush_within open_file_within map_err_within prefix_child : keeps.
#[local] Hint Resolve keeps_ret keeps_fail keeps_lift keeps_get : keeps.

Lemma stream_within dest max total sniffed chunks : dir `prefix_of` dest -> keeps (only_within dir) (stream_chunks dest max total sniffed chunks).
Proof.
  intros Hd. revert total sniffed. induction chunks as [|[c|] chunks IH]; intros total sniffed; cbn [stream_chunks]; keeps_tac.
Qed.
Lemma receive_within caps payload bundle : keeps (only_within dir) (receive_fields caps dir payload bundle).
Proof.
  pose proof stream_within. revert bundle. induction payload as [|[f|] payload IH]; intros bundle; cbn [receive_fields]; unfold stream_field_to_file; keeps_tac.
Qed.
Context `{ZipReader}.
Lemma copy_within opened idx limit dest : dir `prefix_of` dest -> keeps (only_within dir) (copy_entry dir opened idx limit dest).
Proof. intros Hd. unfold copy_entry. keeps_tac. Qed.
Lemma extract_entry_within caps opened x idx : keeps (only_within dir) (extract_entry caps dir opened x idx).
Proof. pose proof copy_within. unfold extract_entry. keeps_tac. Qed.
Lemma extract_within caps : keeps (only_within dir) (extract_bundle_zip caps dir).
Proof.
  assert (forall opened n idx x, keeps (only_within dir) (extract_entries caps dir opened n idx x)) as He.
  { intros opened n. pose proof extract_entry_within. induction n as [|n IH]; intros idx x; cbn [extract_entries]; keeps_tac. }
  unfold extract_bundle_zip. keeps_tac.
Qed.
End Within.

Lemma foldr_dirs (l : list Path) (m : gmap Path Node) p :
  foldr (fun q => <[q := Dir]>) m l !! p = if bool_decide (p ∈ l) then Some Dir else m !! p.
Proof.
  induction l as [|q l IH]; cbn [foldr]; [by rewrite bool_decide_eq_false_2 by apply not_elem_of_nil|].
  destruct (decide (p = q)) as [->|Hne]; simplify_map_eq.
  - by rewrite bool_decide_eq_true_2 by by left.
  - rewrite IH. case_bool_decide as H; [rewrite bool_decide_eq_true_2 by (by right); done|].
    rewrite bool_decide_eq_false_2; [done|]. by rewrite not_elem_of_cons.
Qed.

Section Ingest.
Context `{ZipReader} (caps : UploadCaps) (id : string).
Let dir := staging_path id.

Lemma ingest_changes payload d r d' : ingest_multipart caps dir payload d = (r, d') ->
  (forall p, ~ dir `prefix_of` p -> p ∉ prefixes dir -> nodes d' !! p = nodes d !! p) /\
  (at_most_one (faults d) -> at_most_one (faults d')) /\
  match r with Ok _ => nodes d' !! MODELS_DIR = Some Dir /\ nodes d' !! child MODELS_DIR ".staging" = Some Dir | Err _ => True end.
Proof.
  unfold ingest_multipart, sm_bind at 1. destruct (map_err _ (create_dir_all dir) d) as [r1 d1] eqn:E1.
  assert (at_most_one (faults d) -> at_most_one (faults d1)) as Ho1.
  { pose proof (create_dir_one dir d) as H1. unfold map_err in E1. destruct (create_dir_all dir d) as [r2 d2]. cbn in H1. injection E1 as _ <-.
    rewrite H1. apply at_most_one_tail. }
  assert (match r1 with Ok _ => nodes d1 = foldr (fun q => <[q := Dir]>) (nodes d) (prefixes dir) | Err _ => nodes d1 = nodes d end) as Hn1.
  { revert E1. unfold map_err, create_dir_all, faulty, nothing. destruct (faults d) as [|[part|] l]; cbn [nodes set_faults];
      try (intros [= <- <-]; done); (destruct (forallb _ _); intros [= <- <-]; done). }
  destruct r1 as [[]|e]; [|intros [= <- <-]; rewrite Hn1; done].
  intros E. assert (only_within dir d1 d') as [Hw Ho].
  { match type of E with ?m d1 = _ => assert (keeps (only_within dir) m) as Hk end.
    - pose proof (receive_within dir caps payload None). pose proof (extract_within dir caps). keeps_tac; try apply keeps_fail; try apply keeps_ret.
      all: try typeclasses eauto.
    - specialize (Hk d1). by rewrite E in Hk. }
  split; [|split; [tauto|]].
  - intros p Hp Hq. rewrite Hw by done. rewrite Hn1, foldr_dirs. by rewrite bool_decide_eq_false_2.
  - destruct r; [|done]. rewrite !Hw, Hn1, !foldr_dirs; [done| |]; intros [k Hk]; apply (f_equal length) in Hk; by rewrite length_app in Hk.
Qed.
End Ingest.

Lemma cleanup_staging_changes (dir : Path) (w : World) : let w' := (cleanup_staging_dir dir w).2 in
  same_records w w' /\ forall p, ~ dir `prefix_of` p -> ns w' !! p = ns w !! p.
Proof. cbv zeta. destruct (cleanup_staging_dir dir w) as [r w'] eqn:E. apply cleanup_changes in E as (_ & H1 & H2). done. Qed.

(** ** Uploads as a whole *)

Section Uploads.
Context `{ZipReader} (reads : gmap Path Node -> string -> option string) (parse_manifest : string -> option ModelManifest)
  (parse_config : string -> option MLInferenceConfig)
  (load : gmap Path Node -> string -> string -> nat -> nat -> result Fault ModelRuntime)
  (digest : string -> string) (audit_works : bool).
Context (config : ModelUploadConfig) (batch_size : nat) (inference : Inference) (permissions : list string) (username : string)
  (payload : list (option Field)) (id uuid : string).

(** Paths of the models directory other than those the request works in. *)
Definition elsewhere (p : Path) : Prop := ~ staging_path id `prefix_of` p /\ p ∉ prefixes (staging_path id).
Definition untouched (m m' : gmap Path Node) : Prop := forall p, elsewhere p -> m' !! p = m !! p.

(** models/ has no directory but the staging area, the drawn [uuid] is new, and no
    manifest that loads names either. *)
Record tidy (m : gmap Path Node) : Prop := {
  td_dirs : forall f, m !! child MODELS_DIR f = Some Dir -> f = ".staging";
  td_fresh : forall p, backup_path uuid `prefix_of` p -> m !! p = None;
  td_names : forall n mf, load_model_manifest (reads n) parse_manifest (path_str (child (staging_path id) MANIFEST_FILENAME)) = Ok mf ->
    ".staging" ∉ manifest_files mf /\ (".promote-backup-" ++ uuid) ∉ manifest_files mf }.

Lemma child_elsewhere f : f <> ".staging" -> elsewhere (child MODELS_DIR f).
Proof.
  intros Hf. split; [intros [k Hk]; apply (f_equal length) in Hk; by rewrite length_child in Hk|].
  unfold staging_path, child, MODELS_DIR. cbn. rewrite !not_elem_of_cons. split_and!; [done| |done|apply not_elem_of_nil]. by intros [= ->].
Qed.
Lemma backup_elsewhere p : backup_path uuid `prefix_of` p -> elsewhere p.
Proof.
  intros [k ->]. unfold backup_path, child, MODELS_DIR, staging_path. split; [by intros [k' [=]]|]. cbn. rewrite !not_elem_of_cons.
  split_and!; [done..|apply not_elem_of_nil].
Qed.

Lemma tidy_can_promote d mf n : tidy (nodes d) -> (forall p, elsewhere p -> n !! p = nodes d !! p) ->
  n !! MODELS_DIR = Some Dir -> n !! child MODELS_DIR ".staging" = Some Dir ->
  load_model_manifest (reads n) parse_manifest (path_str (child (staging_path id) MANIFEST_FILENAME)) = Ok mf ->
  can_promote id uuid (manifest_files mf) n.
Proof.
  intros [Hd Hf Hn] Hs H1 H2 Hm. destruct (Hn _ _ Hm) as [Hn1 Hn2]. split; [done|done| | |].
  - intros f Hin Hdir. assert (f <> ".staging") as Hne by (intros ->; apply elem_of_cons in Hin as [[=]|]; done).
    rewrite Hs in Hdir by by apply child_elsewhere. by apply Hd in Hdir.
  - intros p Hp. rewrite Hs by by apply backup_elsewhere. by apply Hf.
  - intros [[=]|Hin]%elem_of_cons. done.
Qed.

Definition scattered (names : list string) (m m' : gmap Path Node) : Prop :=
  (forall f, f ∈ bundle_names names -> m' !! child MODELS_DIR f = m !! child MODELS_DIR f \/
    (m' !! child MODELS_DIR f = None /\ exists g, m' !! child (backup_path uuid) g = m !! child MODELS_DIR f)) /\
  forall p, elsewhere p -> ~ backup_path uuid `prefix_of` p -> (forall f, f ∈ bundle_names names -> p <> child MODELS_DIR f) -> m' !! p = m !! p.

(** C20: An upload swaps the model as a whole or leaves it: without the permission nothing
    is read; what is refused before files are moved leaves all of models/ but the
    request's own directory; a bundle that is promoted is the one that was sent, complete
    in models/, with nothing else changed and one row in the audit log; and when one
    operation fails while files are moved, every file is as it was or, for a failed
    backup, in place or among the backups. *)
Theorem upload_swaps_or_keeps (w w' : World) (resp : Response) :
  free_of "/" id -> at_most_one (faults (disk w)) -> tidy (ns w) ->
  upload reads parse_manifest parse_config load digest audit_works config batch_size inference permissions username payload id uuid w = (resp, w') ->
  promote_gate w' = promote_gate w /\ validation_gate w' = validation_gate w /\
  match resp with
  | PromotedResponse i summary report => i = id /\ may_promote permissions = true /\
      (exists row, audit_log w' = (audit_log w ++ [row])%list /\ au_actor row = "SecurityAdmin@" ++ username) /\
      exists d mf, ingest_multipart (from_config config) (staging_path id) payload (disk w) = (Ok summary, d) /\
        load_model_manifest (reads (nodes d)) parse_manifest (path_str (child (staging_path id) MANIFEST_FILENAME)) = Ok mf /\
        rp_manifest_name report = mf_name mf /\
        (forall f, f ∈ bundle_names (manifest_files mf) -> exists c,
          nodes d !! child (staging_path id) f = Some (File c) /\ ns w' !! child MODELS_DIR f = Some (File c)) /\
        forall p, elsewhere p -> ~ backup_path uuid `prefix_of` p ->
          (forall f, f ∈ bundle_names (manifest_files mf) -> p <> child MODELS_DIR f) -> ns w' !! p = ns w !! p
  | Structured _ code =>
      if String.eqb code "promotion_io_failed"
      then untouched (ns w) (ns w') \/ exists mf, scattered (manifest_files mf) (ns w) (ns w')
      else audit_log w' = audit_log w /\ untouched (ns w) (ns w')
  | ValidationResponse _ _ _ _ _ => False
  end.
Proof.
  intros Hid Hone Htidy. unfold upload. destruct (may_promote permissions) eqn:Hp; cbn [negb]; [|by intros [= <- <-]].
  destruct (ingest_multipart _ _ _ _) as [ingested d] eqn:Ei. destruct (ingest_changes _ _ _ _ _ _ Ei) as (Hi & Hio & Hdirs).
  assert (forall p, elsewhere p -> nodes d !! p = ns w !! p) as Hi' by (intros p [H1 H2]; by apply Hi).
  pose proof cleanup_staging_changes (staging_path id) as Hcl. destruct ingested as [summary|e].
  2: { intros [= <- <-]. destruct (Hcl (set_disk d w)) as [(H1 & H2 & H3) H4]. split; [done|]. split; [done|].
       assert (untouched (ns w) (ns (cleanup_staging_dir (staging_path id) (set_disk d w)).2)) as Hu
         by (intros p Hel; rewrite H4 by apply Hel; by apply Hi'). by destruct e. }
  destruct (validate_and_promote _ _ _ _ _ _ _ _ _ _ _ _) as [r w1] eqn:Ev. intros [= <- <-].
  apply validate_and_promote_outcome in Ev as (Hg1 & Hg2 & Ho); [|done|cbn; tauto|].
  2: { intros mf Hm. destruct Hdirs. by eapply (tidy_can_promote (disk w)). }
  destruct (Hcl w1) as [(H1 & H2 & H3) H4]. cbn [disk set_disk promote_gate validation_gate audit_log] in Hg1, Hg2, Ho.
  split; [congruence|]. split; [congruence|]. destruct r as [report|e].
  - destruct Ho as (cfg & mf & a & Hs & _ & Hname & [Hin1 Hin2] & Hlog). apply sidecar_manifest in Hs. split; [done|]. split; [done|].
    split; [eexists; split; [rewrite H1; exact Hlog|done]|]. exists d, mf. split; [done|]. split; [done|]. split; [done|]. split.
    + intros f Hf. destruct (Hin1 f Hf) as (c & Hc & Hc'). exists c. split; [done|]. rewrite H4; [done|].
      intros [k Hk]. apply (f_equal length) in Hk. by rewrite length_child in Hk.
    + intros p Hel Hb Hf. rewrite H4 by apply Hel. rewrite Hin2; [by apply Hi'| |done]. split; [apply Hel|done].
  - assert ((ns w1 = nodes d /\ audit_log w1 = audit_log w) -> audit_log (cleanup_staging_dir (staging_path id) w1).2 = audit_log w /\
      untouched (ns w) (ns (cleanup_staging_dir (staging_path id) w1).2)) as Hsame.
    { intros [Hn Hl]. split; [congruence|]. intros p Hel. rewrite H4 by apply Hel. rewrite Hn. by apply Hi'. }
    destruct e; try by apply Hsame. cbn [promote_error_response structured_error_response String.eqb]. cbn.
    destruct Ho as (mf & Hm & [Hr|[Hs1 Hs2]]).
    + left. intros p Hel. rewrite H4 by apply Hel. rewrite Hr by apply Hel. by apply Hi'.
    + right. exists mf. destruct (td_names _ Htidy _ _ Hm) as [Hn1 _]. split.
      * intros f Hf. assert (f <> ".staging") as Hne by (intros ->; apply elem_of_cons in Hf as [[=]|]; done).
        assert (~ staging_path id `prefix_of` child MODELS_DIR f) as Hnp by apply (child_elsewhere f Hne).
        rewrite <- (Hi' _ (child_elsewhere f Hne)), H4 by done. destruct (Hs1 f Hf) as [Hk|[Hk (g & Hg)]]; [by left|right].
        split; [done|]. exists g. rewrite H4; [done|]. apply (backup_elsewhere (child (backup_path uuid) g)), prefix_child.
      * intros p Hel Hb Hf. rewrite H4 by apply Hel. rewrite Hs2; [by apply Hi'| |done]. split; [apply Hel|done].
Qed.
End Uploads.

(** ** How much is written *)

Definition same_written (d d' : Disk) : Prop := written d' = written d.
#[local] Instance same_written_preorder : PreOrder same_written.
Proof. split; [done|]. intros a b c H1 H2. unfold same_written in *. congruence. Qed.
Lemma faulty_written {A : Type} part (m : io A) : (forall d, written (m d).2 = written d) -> keeps same_written (faulty part m).
Proof. intros Hm d. unfold faulty, same_written. destruct (faults d) as [|[l|] k]; [apply Hm|done|]. by rewrite Hm. Qed.
Lemma map_err_written {E E' A : Type} (e : E') (m : sm Disk E A) : keeps same_written m -> keeps same_written (map_err e m).
Proof. intros Hm d. specialize (Hm d). unfold map_err. by destruct (m d). Qed.
Lemma create_file_written p : keeps same_written (create_file p).
Proof. apply faulty_written. intros d. by destruct (nodes d !! p) as [[c|]|]; try destruct (bool_decide _). Qed.
Lemma create_dir_written p : keeps same_written (create_dir_all p).
Proof. apply faulty_written. intros d. by destruct (forallb _ _). Qed.
Lemma flush_written : keeps same_written flush.
Proof. by apply faulty_written. Qed.
Lemma open_file_written p : keeps same_written (open_file p).
Proof. apply faulty_written. intros d. by destruct (nodes d !! p) as [[c|]|]. Qed.
Lemma write_all_written {E : Type} (e : E) p s d : written (map_err e (write_all p s) d).2 <= written d + size s.
Proof.
  unfold map_err, write_all, faulty, nothing, size. pose proof (Nat2Z.is_nonneg (String.length s)).
  destruct (faults d) as [|[part|] l]; cbn [nodes set_faults]; [| cbn; lia|]; destruct (nodes d !! p) as [[c|]|]; cbn; lia.
Qed.

Lemma substring_length (n : nat) (s : string) : (String.length (String.substring 0 n s) <= n)%nat.
Proof. revert n. induction s as [|c s IH]; intros [|n]; cbn; [lia..|]. specialize (IH n). lia. Qed.
Lemma saturating_exact a b : 0 <= a -> 0 <= b -> saturating_add 64 a b < umax 64 -> saturating_add 64 a b = a + b.
Proof. unfold saturating_add. lia. Qed.

Lemma stream_written dest max total sniffed chunks d : 0 <= total <= max -> max < umax 64 ->
  let '(r, d') := stream_chunks dest max total sniffed chunks d in
  written d' <= written d + (max - total) /\ match r with Ok n => 0 <= n <= max | Err _ => True end.
Proof.
  revert total sniffed d. induction chunks as [|[c|] chunks IH]; intros total sniffed d Ht Hm; cbn [stream_chunks].
  - unfold sm_bind. pose proof (map_err_written StreamFailure _ flush_written d) as Hf. unfold same_written in Hf.
    destruct (map_err StreamFailure flush d) as [[[]|e] d']; cbn in *; split; lia || done.
  - destruct (negb sniffed && negb (looks_like_zip c)); [cbn; split; [lia|done]|]. destruct (max <? saturating_add 64 total (size c)) eqn:Hb; [cbn; split; [lia|done]|].
    apply Z.ltb_ge in Hb. assert (0 <= size c) by (unfold size; lia). rewrite saturating_exact in Hb |- * by lia.
    unfold sm_bind. pose proof (write_all_written StreamFailure dest c d) as Hw. destruct (map_err _ (write_all dest c) d) as [[[]|e] d1]; cbn [snd] in Hw.
    + specialize (IH (total + size c) true d1 ltac:(lia) Hm). destruct (stream_chunks _ _ _ _ _ d1) as [r d']. destruct IH as [H1 H2]. split; [lia|done].
    + split; [lia|done].
  - cbn. split; [lia|done].
Qed.

Section Written.
Context `{ZipReader} (caps : UploadCaps) (dir : Path).
Context (Hcaps : 0 <= cap_manifest caps <= cap_bundle caps /\ 0 <= cap_onnx caps <= cap_bundle caps /\
  0 <= cap_scaler caps <= cap_bundle caps /\ cap_bundle caps < umax 64).

Lemma max_for_file_bound f : 0 <= max_for_file caps f <= cap_bundle caps.
Proof. unfold max_for_file. destruct Hcaps as (H1 & H2 & H3 & H4). repeat destruct (_ : bool); lia. Qed.

(** The counts never pass what was written. *)
Record counted (x : Extracted) : Prop := {
  ct_total : 0 <= total_uncompressed x <= cap_bundle caps;
  ct_onnx : 0 <= ex_onnx x <= total_uncompressed x;
  ct_manifest : match ex_manifest x with Some m => 0 <= m <= cap_manifest caps | None => True end }.

Lemma record_entry_counted f n seen x : counted x -> 0 <= n <= max_for_file caps f -> total_uncompressed x + n <= cap_bundle caps ->
  counted (record_entry f n seen (total_uncompressed x + n) x).
Proof.
  intros [H1 H2 H3] Hn Hb. unfold record_entry, max_for_file in *. pose proof Hcaps as (_ & _ & _ & Hu).
  destruct (String.eqb f MANIFEST_FILENAME); [split; cbn; [lia|lia|lia]|].
  destruct (ends_with f ".onnx"); [split; cbn; [lia| |done]; unfold saturating_add; lia|].
  destruct (ends_with f ".json"); split; cbn; try done; lia.
Qed.

Lemma extract_entry_written opened x idx d : counted x ->
  let '(r, d') := extract_entry caps dir opened x idx d in
  match r with
  | Ok x' => counted x' /\ written d' + total_uncompressed x <= written d + total_uncompressed x'
  | Err _ => written d' <= written d + cap_bundle caps + 1
  end.
Proof.
  intros Hx. pose proof Hcaps as (_ & _ & _ & Hu). pose proof (ct_total _ Hx) as Htot. unfold extract_entry, sm_bind at 1, sm_get.
  destruct (by_index _ _ _) as [entry|]; [|cbn; lia]. destruct (is_dir entry); [cbn; split; [done|lia]|].
  destruct (enclosed_name entry) as [enclosed|]; [|cbn; lia]. destruct (negb _); [cbn; lia|].
  destruct (file_name enclosed) as [f|]; [|cbn; lia]. unfold sm_bind at 1, sm_lift. destruct (reserve_upload_filename _ _) as [seen|]; [|lia].
  unfold sm_bind at 1. pose proof (map_err_written BundleExtractionFailed _ (create_file_written (child dir f)) d) as Hc. unfold same_written in Hc.
  destruct (map_err _ (create_file _) d) as [[[]|e] d1]; cbn [snd] in Hc; [|lia].
  pose proof (max_for_file_bound f) as Hmax. unfold sm_bind at 1, copy_entry, sm_bind at 1, sm_get.
  destruct (entry_bytes _ _ _ _) as [bytes|]; [|cbn; lia].
  set (lim := saturating_add 64 (max_for_file caps f) 1). set (data := String.substring _ _ bytes).
  assert (0 <= size data <= max_for_file caps f + 1) as Hd.
  { unfold size, data. pose proof (substring_length (Z.to_nat lim) bytes). unfold lim, saturating_add in *. lia. }
  unfold sm_bind at 1. pose proof (write_all_written BundleExtractionFailed (child dir f) data d1) as Hw.
  destruct (map_err _ (write_all _ data) d1) as [[[]|e] d2]; cbn [snd] in Hw; [|lia]. cbn [sm_ret].
  destruct (max_for_file caps f <? size data) eqn:Hm; [cbn; lia|]. apply Z.ltb_ge in Hm.
  destruct (cap_bundle caps <? saturating_add 64 _ _) eqn:Hb; [cbn; lia|]. apply Z.ltb_ge in Hb. rewrite saturating_exact in Hb |- * by lia.
  cbn [sm_ret]. split; [apply record_entry_counted; [done|lia|lia]|]. assert (forall n s t x, total_uncompressed (record_entry f n s t x) = t) as ->.
  { intros n s t y. unfold record_entry. by repeat destruct (_ : bool). }
  lia.
Qed.
End Written.

Section Bounded.
Context `{ZipReader} (dir : Path) (config : ModelUploadConfig).
Context (Hconfig : 0 <= max_manifest_bytes config /\ 0 <= max_onnx_bytes config /\ 0 <= max_scaler_bytes config /\
  max_manifest_bytes config + max_onnx_bytes config + max_scaler_bytes config < umax 64).
Let caps := from_config config.

Lemma caps_bounds : 0 <= cap_manifest caps <= cap_bundle caps /\ 0 <= cap_onnx caps <= cap_bundle caps /\
  0 <= cap_scaler caps <= cap_bundle caps /\ cap_bundle caps < umax 64.
Proof. unfold caps, from_config, saturating_add. cbn [cap_bundle cap_manifest cap_onnx cap_scaler]. lia. Qed.

Lemma extract_entries_written opened n idx x d : counted caps x ->
  let '(r, d') := extract_entries caps dir opened n idx x d in
  match r with
  | Ok x' => counted caps x' /\ written d' + total_uncompressed x <= written d + total_uncompressed x'
  | Err _ => written d' + total_uncompressed x <= written d + 2 * cap_bundle caps + 1
  end.
Proof.
  pose proof caps_bounds as Hb. revert idx x d. induction n as [|n IH]; intros idx x d Hx; cbn [extract_entries]; [cbn; split; [done|lia]|].
  unfold sm_bind. pose proof (extract_entry_written caps dir Hb opened x idx d Hx) as He. destruct (extract_entry _ _ _ _ _ d) as [[x1|e] d1].
  - destruct He as [Hx1 He]. specialize (IH (S idx) x1 d1 Hx1). destruct (extract_entries _ _ _ _ _ _ d1) as [[x2|e] d2]; [|lia].
    destruct IH as [Hx2 IH]. split; [done|lia].
  - pose proof (ct_total _ _ Hx). lia.
Qed.

Lemma extract_written d : let '(r, d') := extract_bundle_zip caps dir d in
  written d' <= written d + 2 * cap_bundle caps + 1 /\
  match r with
  | Ok x => 0 <= manifest_bytes x <= cap_manifest caps /\ 0 < onnx_bytes x <= cap_bundle caps
  | Err _ => True
  end.
Proof.
  pose proof caps_bounds as Hb. unfold extract_bundle_zip, sm_bind at 1.
  pose proof (map_err_written BundleExtractionFailed _ (open_file_written (child dir BUNDLE_FILENAME)) d) as Ho. unfold same_written in Ho.
  destruct (map_err _ (open_file _) d) as [[opened|e] d1]; cbn [snd] in Ho; [|split; [lia|done]].
  destruct (zip_len opened) as [n|]; [|cbn [sm_fail]; split; [lia|done]].
  assert (counted caps (mk_extracted [] None 0 None 0)) as H0 by (split; cbn [total_uncompressed ex_onnx ex_manifest]; [lia|lia|done]).
  unfold sm_bind. pose proof (extract_entries_written opened n 0 _ d1 H0) as He. cbn [total_uncompressed] in He.
  destruct (extract_entries _ _ _ _ _ _ d1) as [[x|e] d2]; [|split; [lia|done]].
  destruct He as [[H1 H2 H3] He]. destruct (ex_manifest x) as [m|]; [|cbn [sm_fail]; split; [lia|done]].
  destruct (ex_onnx x =? 0) eqn:Hz; cbn [sm_fail sm_ret manifest_bytes onnx_bytes]; (split; [lia|]); [done|]. apply Z.eqb_neq in Hz. lia.
Qed.

Lemma receive_written payload bundle d : let '(r, d') := receive_fields caps dir payload bundle d in
  written d' <= written d + match bundle with None => cap_bundle caps | Some _ => 0 end /\
  match r with Ok (Some n) => bundle = Some n \/ 0 <= n <= cap_bundle caps | _ => True end.
Proof.
  pose proof caps_bounds as Hb. revert bundle d. induction payload as [|[f|] payload IH]; intros bundle d; cbn [receive_fields].
  - cbn [sm_ret]. destruct bundle; split; [lia|by left|lia|done].
  - destruct (String.eqb _ _); [|cbn [sm_fail]; destruct bundle; split; lia || done]. destruct bundle as [n|]; [cbn [sm_fail sm_ret]; split; [lia|done]|].
    unfold sm_bind at 1, stream_field_to_file, sm_bind at 1. set (dest := child dir BUNDLE_FILENAME).
    pose proof (map_err_written StagingSetupFailure _ (create_file_written dest) d) as Hc. unfold same_written in Hc.
    destruct (map_err _ (create_file dest) d) as [[[]|e] d1]; cbn [snd] in Hc; [|split; [lia|done]].
    pose proof (stream_written dest (cap_bundle caps) 0 false (fd_chunks f) d1 ltac:(lia) ltac:(lia)) as Hs.
    destruct (stream_chunks _ _ _ _ _ d1) as [[n|e] d2]; [|split; [lia|done]]. destruct Hs as [Hs Hn].
    specialize (IH (Some n) d2). destruct (receive_fields _ _ _ _ d2) as [r d3]. destruct IH as [H1 H2]. split; [lia|].
    destruct r as [[k|]|]; [|done|done]. destruct H2 as [[= ->]|H2]; [by right|by right].
  - cbn [sm_fail]. destruct bundle; split; lia || done.
Qed.

(** Whatever is sent, an upload writes at most three times the limit of a bundle and one
    byte: the bundle, the files taken out of it, and the file that is found too large.
    What is accepted has a manifest within its limit and a model within the bundle's. *)
Theorem ingest_bounded (payload : list (option Field)) (d d' : Disk) (r : result UploadError UploadSummary) :
  ingest_multipart (from_config config) dir payload d = (r, d') ->
  written d' <= written d + 3 * cap_bundle (from_config config) + 1 /\
  match r with
  | Ok s => 0 <= bundle_bytes s <= cap_bundle (from_config config) /\ 0 <= sm_manifest_bytes s <= max_manifest_bytes config /\
      0 < sm_onnx_bytes s <= cap_bundle (from_config config)
  | Err _ => True
  end.
Proof.
  pose proof caps_bounds as Hb. fold caps. unfold ingest_multipart, sm_bind at 1.
  pose proof (map_err_written StagingSetupFailure _ (create_dir_written dir) d) as Hc. unfold same_written in Hc.
  destruct (map_err _ (create_dir_all dir) d) as [[[]|e] d1]; cbn [snd] in Hc; [|intros [= <- <-]; split; [lia|done]].
  unfold sm_bind at 1. pose proof (receive_written payload None d1) as Hr. destruct (receive_fields _ _ _ _ d1) as [[[n|]|e] d2];
    [|intros [= <- <-]; split; [lia|done]..]. destruct Hr as [Hr [[=]|Hn]].
  unfold sm_bind. pose proof (extract_written d2) as Hx. destruct (extract_bundle_zip caps dir d2) as [[x|e] d3]; intros [= <- <-]; (split; [lia|]); [|done].
  destruct Hx as (_ & Hm & Ho). cbn [bundle_bytes sm_manifest_bytes sm_onnx_bytes]. change (cap_manifest caps) with (max_manifest_bytes config) in Hm. lia.
Qed.
End Bounded.

(** ** A bundle that is sent *)

(** An archive whose entries are the files of the bundle. *)
#[local] Instance bundle_reader : ZipReader := {|
  zip_len := fun opened => if looks_like_zip opened then Some (length bundle_files) else None;
  by_index := fun _ _ i => option_map (fun f => mk_entry false (Some f)) (bundle_files !! i);
  entry_bytes := fun _ _ i _ => option_map (fun f => if String.eqb f MANIFEST_FILENAME then "manifest" else "new") (bundle_files !! i) |}.
Definition sent_bundle : list (option Field) := [Some (mk_field (Some "bundle") (Some "b.zip") [Some "PK"; Some "data"])].
Definition sent_config : ModelUploadConfig := mk_upload_config 100 100 100.
Definition served_disk : Disk := mk_disk (list_to_map ([(MODELS_DIR, Dir)] ++ map (fun f => (child MODELS_DIR f, File "old")) bundle_files)) [] 0.
Definition run_upload : Response * World :=
  upload plain_reads plain_manifest_of (fun _ => Some steady_config) plain_load (fun c => c) true sent_config 8 (new_inference Dormant)
    [PROMOTE_REQUIRED_PERMISSION] "root" sent_bundle "s" "u" (mk_world served_disk [] false false).

Lemma plain_manifest_loads n path m : load_model_manifest (plain_reads n) plain_manifest_of path = Ok m -> m = shipped_manifest.
Proof.
  unfold load_model_manifest. destruct (plain_reads n path) as [c|]; [|done]. unfold plain_manifest_of.
  destruct (String.eqb c "old manifest" || String.eqb c "manifest"); [|done]. destruct (validate path shipped_manifest); [|done]. by intros [= <-].
Qed.
Lemma served_tidy : tidy plain_reads plain_manifest_of "s" "u" (nodes served_disk).
Proof.
  assert (map_Forall (fun p n => n = Dir -> p = MODELS_DIR) (nodes served_disk)) as Hd by (refine (bool_decide_eq_true_1 _ _); vm_compute; reflexivity).
  assert (map_Forall (fun p _ => ~ backup_path "u" `prefix_of` p) (nodes served_disk)) as Hb by (refine (bool_decide_eq_true_1 _ _); vm_compute; reflexivity).
  split.
  - intros f Hf. pose proof (Hd _ _ Hf eq_refl) as H. apply (f_equal length) in H. by rewrite length_child in H.
  - intros p Hp. apply eq_None_not_Some. intros [n Hn]. by apply (Hb p n).
  - intros n mf ->%plain_manifest_loads. split; refine (bool_decide_eq_true_1 _ _); vm_compute; reflexivity.
Qed.

Lemma upload_swaps_or_keeps_witness : exists summary report w' d mf, run_upload = (PromotedResponse "s" summary report, w') /\
  rp_manifest_name report = mf_name mf /\ forall f, f ∈ bundle_names (manifest_files mf) -> exists c,
    nodes d !! child (staging_path "s") f = Some (File c) /\ ns w' !! child MODELS_DIR f = Some (File c).
Proof.
  destruct run_upload as [resp w'] eqn:E.
  pose proof (upload_swaps_or_keeps plain_reads plain_manifest_of (fun _ => Some steady_config) plain_load (fun c => c) true sent_config 8
    (new_inference Dormant) [PROMOTE_REQUIRED_PERMISSION] "root" sent_bundle "s" "u" (mk_world served_disk [] false false) w' resp
    eq_refl I served_tidy E) as (_ & _ & H).
  destruct resp as [status code|i summary report|]; [|clear E|destruct H].
  - exfalso. apply (f_equal (fun x => match x.1 with Structured _ _ => true | _ => false end)) in E. vm_compute in E. discriminate.
  - destruct H as (-> & _ & _ & d & mf & _ & _ & Hn & Hf & _). exists summary, report, w', d, mf. split; [reflexivity|]. split; [exact Hn|exact Hf].
Defined.

Lemma ingest_bounded_witness : exists r d', ingest_multipart (from_config sent_config) (staging_path "s") sent_bundle served_disk = (r, d') /\
  is_ok r = true /\ written d' <= 901.
Proof.
  destruct (ingest_multipart (from_config sent_config) (staging_path "s") sent_bundle served_disk) as [r d'] eqn:E. exists r, d'.
  split; [reflexivity|]. split.
  - apply (f_equal (fun x => is_ok x.1)) in E. vm_compute in E. symmetry. exact E.
  - destruct (ingest_bounded (staging_path "s") sent_config ltac:(repeat split; vm_compute; try discriminate; reflexivity) sent_bundle served_disk d' r E) as [H _].
    change (cap_bundle (from_config sent_config)) with 300 in H. cbn [written served_disk] in H. lia.
Defined.

Lemma substring_whole (n : nat) (s : string) : (String.length s <= n)%nat -> String.substring 0 n s = s.
Proof. revert n. induction s as [|c s IH]; intros [|n]; cbn; try done; [lia|]. intros Hn. rewrite IH by lia. done. Qed.

(** An entry named model_bundle.zip is created over the archive that is being read, whose
    content is gone before the entry is. *)
Lemma entry_overwrites_bundle `{ZipReader} (caps : UploadCaps) (opened now bytes : string) (d : Disk) :
  let dir := staging_path "s" in
  faults d = [] -> nodes d !! dir = Some Dir -> nodes d !! child dir BUNDLE_FILENAME = Some (File now) ->
  by_index opened now 0 = Some (mk_entry false (Some BUNDLE_FILENAME)) -> 0 <= cap_bundle caps ->
  entry_bytes opened "" 0 (saturating_add 64 (cap_bundle caps) 1) = Some bytes -> size bytes <= cap_bundle caps -> cap_bundle caps < umax 64 ->
  let '(r, d') := extract_entry caps dir opened (mk_extracted [] None 0 None 0) 0 d in
  is_ok r = true /\ nodes d' !! child dir BUNDLE_FILENAME = Some (File bytes).
Proof.
  intros dir Hf Hdir Hb He Hcap Hbytes Hsize Hmax. unfold extract_entry, sm_bind at 1, sm_get, content_of. rewrite Hb, He. cbn [is_dir enclosed_name].
  change (components BUNDLE_FILENAME) with [Normal BUNDLE_FILENAME]. change (file_name BUNDLE_FILENAME) with (Some BUNDLE_FILENAME). cbn [length Nat.eqb negb].
  unfold sm_bind at 1, sm_lift. change (reserve_upload_filename [] BUNDLE_FILENAME) with (Ok (E := UploadError) [BUNDLE_FILENAME]). cbn [seen_files reserve_upload_filename existsb app].
  change (max_for_file caps BUNDLE_FILENAME) with (cap_bundle caps).
  unfold sm_bind at 1, map_err at 1, create_file, faulty. rewrite Hf, Hb. rewrite removelast_child, bool_decide_eq_true_2 by done.
  unfold sm_bind at 1, copy_entry, sm_bind at 1, sm_get, content_of. cbn [nodes set_nodes]. rewrite lookup_insert_eq. rewrite Hbytes.
  unfold sm_bind at 1, map_err, write_all, faulty. cbn [faults set_nodes nodes]. rewrite Hf, lookup_insert_eq.
  rewrite substring_whole by (unfold size, saturating_add in *; lia). cbn [sm_ret]. rewrite (proj2 (Z.ltb_ge _ _) Hsize). cbn [total_uncompressed].
  rewrite saturating_exact by (unfold size, saturating_add in *; lia). rewrite (proj2 (Z.ltb_ge _ _)) by lia. cbn [sm_ret]. split; [done|]. cbn [nodes].
  by rewrite lookup_insert_eq.
Qed.
