(* ===== verification/AuditChain.v ===== *)
(** * The audit log

    Rows chained by the hash of the row before, their verification
    (adapter/persistence/audit.rs) and what the endpoint and the event logger make of
    it (adapter/http/audit.rs, infrastructure/audit_logger.rs).  SHA-256 is a
    parameter. *)

From Stdlib Require Import ZArith Lia List Ascii String.
From stdpp Require Import base list gmap strings sorting.
From S2P Require Import Prelude RStr.

Local Open Scope string_scope.
Local Open Scope Z_scope.

(** SHA-256: 32 bytes for any input. *)
Class Sha256 : Type := sha256_digest : bytes -> bytes.
Class Sha256Laws (S : Sha256) : Prop := {
  digest_bytes : forall x, bytes_ok (sha256_digest x);
  digest_length : forall x, length (sha256_digest x) = 32%nat }.

(** ** Hashes *)

Definition hex_digit (d : Z) : ascii := ascii_of_nat (Z.to_nat (if d <? 10 then 48 + d else 87 + d)).
(** [{:02x}] of every byte *)
Fixpoint hash_to_hex (l : bytes) : string :=
  match l with [] => "" | b :: l => String (hex_digit (b / 16)) (String (hex_digit (b mod 16)) (hash_to_hex l)) end.

(** [to_be_bytes] of a 64-bit length, and the bytes. *)
Definition length_prefixed (part : string) : bytes := (reverse (to_ne_bytes 8 (Z.of_nat (String.length part))) ++ str_bytes part)%list.
Definition hash_input (parts : list string) : bytes := flat_map length_prefixed parts.

Section Chain.
Context `{Sha256}.

Definition audit_row_hash (ts actor action detail prev_hash : string) : string :=
  hash_to_hex (sha256_digest (hash_input [ts; actor; action; detail; prev_hash])).

(** ** The table *)

Record AuditRecord : Type := mk_record {
  ar_id : Z; ts : string; actor : string; action : string; detail : string; prev_hash : string; row_hash : string }.
(** The rows by ascending [id], which AUTOINCREMENT never gives twice. *)
Record AuditTable : Type := mk_table { rows : list AuditRecord; next_id : Z }.
Definition empty_table : AuditTable := mk_table [] 1.

Inductive AuditError : Type :=
  | AuditCheckpointMissing (id : Z) | AuditPrevHashMismatch (id : Z) | AuditRowHashMismatch (id : Z) | AuditQueryFailed.

Definition last_hash (l : list AuditRecord) : string := match last l with Some r => row_hash r | None => "" end.

(** [works] is whether the transaction is committed. *)
Definition insert_audit_log (works : bool) (now act_or action detail : string) (t : AuditTable) : result AuditError unit * AuditTable :=
  if works then
    let prev := last_hash (rows t) in
    let hash := audit_row_hash now act_or action detail prev in
    (Ok tt, mk_table (rows t ++ [mk_record (next_id t) now act_or action detail prev hash]) (next_id t + 1))
  else (Err AuditQueryFailed, t).

Fixpoint verify_rows (l : list AuditRecord) (expected_prev : string) (count : nat) (last_id : Z) : result AuditError (nat * Z) :=
  match l with
  | [] => Ok (count, last_id)
  | r :: l =>
      if negb (String.eqb (prev_hash r) expected_prev) then Err (AuditPrevHashMismatch (ar_id r))
      else
        let computed := audit_row_hash (ts r) (actor r) (action r) (detail r) (prev_hash r) in
        if negb (String.eqb computed (row_hash r)) then Err (AuditRowHashMismatch (ar_id r))
        else verify_rows l (row_hash r) (S count) (ar_id r)
  end.
Definition verify_audit_log_chain (after_id : Z) (t : AuditTable) : result AuditError (nat * Z) :=
  let? expected_prev :=
    (if 0 <? after_id then
       match List.find (fun r => ar_id r =? after_id) (rows t) with
       | Some r => Ok (row_hash r)
       | None => Err (AuditCheckpointMissing after_id)
       end
     else Ok "") in
  verify_rows (filter (fun r => after_id < ar_id r) (rows t)) expected_prev 0 after_id.

(** An entry as it is listed. *)
Record AuditLogEntry : Type := mk_entry { en_id : Z; en_actor : string; en_action : string; en_detail : string; created_at : string }.
Definition entry_of (r : AuditRecord) : AuditLogEntry := mk_entry (ar_id r) (actor r) (action r) (detail r) (ts r).
Definition list_audit_logs (t : AuditTable) : list AuditLogEntry := map entry_of (take 200 (reverse (rows t))).
(** [src_ip_of] is what [json_extract] finds in a valid detail; a negative limit is none. *)
Definition list_audit_logs_by_src_ip (src_ip_of : string -> option string) (src_ip : string) (limit : Z) (t : AuditTable) : list AuditLogEntry :=
  let found := filter (fun r => action r = "fused_threat_emitted" /\ src_ip_of (detail r) = Some src_ip) (rows t) in
  map entry_of (if limit <? 0 then found else take (Z.to_nat limit) found).

(** The triggers refuse every UPDATE and DELETE; a statement is otherwise an insert. *)
Inductive Statement : Type :=
  | Insert (works : bool) (now act_or action detail : string)
  | Update (id : Z) (r : AuditRecord)
  | Delete (id : Z).
Definition execute (s : Statement) (t : AuditTable) : result AuditError unit * AuditTable :=
  match s with
  | Insert works now a b d => insert_audit_log works now a b d t
  | Update id _ | Delete id => if existsb (fun r => ar_id r =? id) (rows t) then (Err AuditQueryFailed, t) else (Ok tt, t)
  end.
Definition execute_all (l : list Statement) (t : AuditTable) : AuditTable := fold_left (fun t s => (execute s t).2) l t.

(** ** The endpoint *)

Inductive VerifyResponse : Type :=
  | ChainIntact (verified : nat) | ChainBroken (kind : string) | ChainUnknown.
Definition verify_chain (t : AuditTable) : Z * VerifyResponse :=
  match verify_audit_log_chain 0 t with
  | Ok (count, _) => (200, ChainIntact count)
  | Err (AuditPrevHashMismatch _) => (200, ChainBroken "prev_hash_mismatch")
  | Err (AuditRowHashMismatch _) => (200, ChainBroken "row_hash_mismatch")
  | Err _ => (500, ChainUnknown)
  end.
End Chain.

(** ** Hashes tell inputs apart *)

Lemma str_bytes_length (s : string) : length (str_bytes s) = String.length s.
Proof. induction s as [|c s IH]; cbn; [done|]. by rewrite IH. Qed.
Definition short (s : string) : Prop := Z.of_nat (String.length s) < pow2 64.
#[export] Instance short_dec s : Decision (short s).
Proof. unfold short. apply _. Defined.

Lemma length_prefixed_app (a b : string) (k l : bytes) : short a -> short b ->
  (length_prefixed a ++ k = length_prefixed b ++ l)%list -> a = b /\ k = l.
Proof.
  unfold length_prefixed, short. intros Ha Hb. rewrite <- !app_assoc. intros H0.
  apply app_inj_1 in H0 as [Hl H1]; [|by rewrite !length_reverse, !to_ne_bytes_length].
  apply (inj reverse) in Hl. apply (f_equal from_ne_bytes) in Hl.
  rewrite !from_to_ne_bytes in Hl by (split; [apply Nat2Z.is_nonneg|assumption]). apply Nat2Z.inj in Hl.
  apply app_inj_1 in H1 as [Hs ->]; [|by rewrite !str_bytes_length]. by apply str_bytes_inj in Hs.
Qed.
Lemma hash_input_inj (a b : list string) : length a = length b -> Forall short a -> Forall short b -> hash_input a = hash_input b -> a = b.
Proof.
  revert b. induction a as [|x a IH]; intros [|y b]; try done. cbn. intros [= Hl] [Hx Ha]%Forall_cons [Hy Hb]%Forall_cons H0.
  apply length_prefixed_app in H0 as [-> H0]; [|done..]. f_equal. by apply IH.
Qed.

Lemma hex_digit_code (d : Z) : 0 <= d < 16 -> nat_of_ascii (hex_digit d) = Z.to_nat (if d <? 10 then 48 + d else 87 + d).
Proof. intros Hd. unfold hex_digit. apply nat_ascii_embedding. destruct (Z.ltb_spec d 10); lia. Qed.
Lemma hex_digit_inj (a b : Z) : 0 <= a < 16 -> 0 <= b < 16 -> hex_digit a = hex_digit b -> a = b.
Proof.
  intros Ha Hb H. apply (f_equal nat_of_ascii) in H. rewrite !hex_digit_code in H by done.
  destruct (Z.ltb_spec a 10), (Z.ltb_spec b 10); lia.
Qed.
Lemma hash_to_hex_inj (a b : bytes) : bytes_ok a -> bytes_ok b -> hash_to_hex a = hash_to_hex b -> a = b.
Proof.
  intros Ha. revert b. induction Ha as [|x a Hx Ha IH]; intros [|y b] Hb; cbn; try done.
  apply Forall_cons in Hb as [Hy Hb]. unfold byte_ok in *. intros [= H1 H2 H3].
  apply hex_digit_inj in H1, H2; [|(split; [apply Z.div_pos; lia|apply Z.div_lt_upper_bound; lia]) || (apply Z.mod_pos_bound; lia)..].
  rewrite (IH b Hb H3). f_equal. rewrite (Z.div_mod x 16), (Z.div_mod y 16) by lia. lia.
Qed.

Section ChainLaws.
Context `{HS : Sha256}.

(** ** What verification accepts *)

Fixpoint chained (prev : string) (l : list AuditRecord) : Prop :=
  match l with
  | [] => True
  | r :: l => prev_hash r = prev /\ row_hash r = audit_row_hash (ts r) (actor r) (action r) (detail r) (prev_hash r) /\ chained (row_hash r) l
  end.
Definition last_id (d : Z) (l : list AuditRecord) : Z := match last l with Some r => ar_id r | None => d end.

Lemma last_id_cons d r l : last_id d (r :: l) = last_id (ar_id r) l.
Proof. unfold last_id. rewrite last_cons. by destruct (last l). Qed.
Lemma verify_rows_ok l prev c i n j :
  verify_rows l prev c i = Ok (n, j) <-> chained prev l /\ n = (c + length l)%nat /\ j = last_id i l.
Proof.
  revert prev c i. induction l as [|r l IH]; intros prev c i; cbn [verify_rows chained length].
  - rewrite Nat.add_0_r. unfold last_id. cbn. split; [intros [= <- <-]; done|by intros (_ & -> & ->)].
  - destruct (String.eqb_spec (prev_hash r) prev) as [->|Hp]; cbn [negb]; [|split; [done|by intros ((? & _) & _)]].
    destruct (String.eqb_spec (audit_row_hash (ts r) (actor r) (action r) (detail r) prev) (row_hash r)) as [Hh|Hh]; cbn [negb].
    + rewrite IH, last_id_cons, Nat.add_succ_comm. split; [intros (H1 & H2 & H3); split; [done|done]|by intros ((_ & _ & H1) & H2 & H3)].
    + split; [done|]. intros ((_ & H1 & _) & _). congruence.
Qed.
Lemma chained_app prev a b : chained prev (a ++ b) <-> chained prev a /\ chained (default prev (row_hash <$> last a)) b.
Proof.
  revert prev. induction a as [|r a IH]; intros prev; cbn [chained app]; [tauto|]. rewrite IH, last_cons.
  by destruct (last a); cbn; tauto.
Qed.
Lemma last_hash_default l : last_hash l = default "" (row_hash <$> last l).
Proof. unfold last_hash. by destruct (last l). Qed.

(** ** The table as statements leave it *)

Record well_kept (t : AuditTable) : Prop := {
  wk_chained : chained "" (rows t);
  wk_sorted : StronglySorted (fun a b => ar_id a < ar_id b) (rows t);
  wk_ids : Forall (fun r => 1 <= ar_id r < next_id t) (rows t) /\ 1 <= next_id t }.

Lemma sorted_snoc (l : list AuditRecord) r :
  StronglySorted (fun a b => ar_id a < ar_id b) l -> Forall (fun a => ar_id a < ar_id r) l -> StronglySorted (fun a b => ar_id a < ar_id b) (l ++ [r]).
Proof.
  induction 1 as [|a l Hl IH Ha]; cbn; [repeat constructor|]. intros [H1 H2]%Forall_cons. constructor; [by apply IH|].
  apply Forall_app. split; [done|by repeat constructor].
Qed.
Lemma execute_keeps s t : well_kept t -> well_kept (execute s t).2 /\ exists new, rows (execute s t).2 = (rows t ++ new)%list.
Proof.
  intros [Hc Hs [Hi Hn]]. destruct s as [works now a b d|id r|id]; cbn [execute].
  2-3: by destruct (existsb _ _); (split; [done|exists []; by rewrite app_nil_r]).
  unfold insert_audit_log. destruct works; cbn [snd]; [|by split; [|exists []; rewrite app_nil_r]].
  split; [|by eexists]. split; cbn [rows next_id].
  - apply chained_app. split; [done|]. rewrite <- last_hash_default. cbn. done.
  - apply sorted_snoc; [done|]. cbn. eapply Forall_impl; [exact Hi|]. cbn. lia.
  - split; [|lia]. apply Forall_app. split; [eapply Forall_impl; [exact Hi|]; cbn; lia|repeat constructor; cbn; lia].
Qed.
Lemma execute_all_keeps l t : well_kept t -> well_kept (execute_all l t) /\ exists new, rows (execute_all l t) = (rows t ++ new)%list.
Proof.
  unfold execute_all. revert t. induction l as [|s l IH]; intros t Ht; cbn [fold_left]; [by split; [|exists []; rewrite app_nil_r]|].
  destruct (execute_keeps s t Ht) as [H1 [n1 H2]]. destruct (IH _ H1) as [H3 [n2 H4]]. split; [done|].
  exists (n1 ++ n2)%list. by rewrite H4, H2, app_assoc.
Qed.
Lemma empty_well_kept : well_kept empty_table.
Proof. split; cbn; [done|constructor|split; [constructor|lia]]. Qed.

(** The rows after a checkpoint. *)
Lemma after_row l r k : StronglySorted (fun a b => ar_id a < ar_id b) (l ++ r :: k)%list ->
  filter (fun x => ar_id r < ar_id x) (l ++ r :: k)%list = k.
Proof.
  intros Hs. rewrite filter_app. assert (filter (fun x => ar_id r < ar_id x) l = []) as ->.
  { induction l as [|x l IH]; [done|]. inversion Hs as [|? ? Hs' Hx]; subst. apply Forall_app in Hx as [_ [Hx _]%Forall_cons].
    rewrite filter_cons_False by lia. by apply IH. }
  cbn [app]. rewrite filter_cons_False by lia. apply filter_id.
  assert (StronglySorted (fun a b => ar_id a < ar_id b) (r :: k)) as Hk by (clear -Hs; induction l as [|x l IH]; [done|]; inversion Hs; subst; by apply IH).
  by inversion Hk.
Qed.

(** C21: The audit log is append-only and always verifies: whatever statements are run, rows
    stay and keep their content, and the chain verifies from the start and from the id of
    any row, with the number of the rows after it and the id of the last. *)
Theorem audit_chain_verifies (l k : list Statement) (after_id : Z) :
  let t := execute_all (l ++ k) empty_table in
  (exists new, rows t = (rows (execute_all l empty_table) ++ new)%list) /\
  (after_id <= 0 \/ after_id ∈ map ar_id (rows t) ->
   let after := filter (fun r => after_id < ar_id r) (rows t) in
   verify_audit_log_chain after_id t = Ok (length after, last_id after_id after)).
Proof.
  cbv zeta. assert (execute_all (l ++ k) empty_table = execute_all k (execute_all l empty_table)) as -> by (unfold execute_all; apply fold_left_app).
  destruct (execute_all_keeps l _ empty_well_kept) as [Hl _]. destruct (execute_all_keeps k _ Hl) as [[Hc Hs [Hi _]] Hnew]. split; [exact Hnew|].
  set (t := execute_all k _) in *. intros Hafter. unfold verify_audit_log_chain. destruct (Z.ltb_spec 0 after_id) as [Hpos|Hneg].
  - destruct Hafter as [?|Hin]; [lia|]. apply list_elem_of_fmap in Hin as (r & -> & (a & b & Hr)%list_elem_of_split). rewrite Hr in *.
    assert (List.find (fun x => ar_id x =? ar_id r) (a ++ r :: b)%list = Some r) as ->.
    { clear -Hs. induction a as [|x a IH]; cbn; [by rewrite Z.eqb_refl|]. inversion Hs as [|? ? Hs' Hx]; subst.
      apply Forall_app in Hx as [_ [Hx _]%Forall_cons]. rewrite (proj2 (Z.eqb_neq _ _)) by lia. by apply IH. }
    rewrite after_row by done. cbn [res_bind]. apply verify_rows_ok. split; [|done].
    apply chained_app in Hc as [_ Hc]. by destruct Hc as (_ & _ & Hc).
  - assert (filter (fun r => after_id < ar_id r) (rows t) = rows t) as -> by (apply filter_id; eapply Forall_impl; [exact Hi|]; cbn; lia).
    cbn [res_bind]. by apply verify_rows_ok.
Qed.

(** ** Rows that were tampered with *)

Definition content (r : AuditRecord) : string * string * string * string := (ts r, actor r, action r, detail r).
Definition short_row (r : AuditRecord) : Prop := Forall short [ts r; actor r; action r; detail r; prev_hash r].
#[export] Instance short_row_dec r : Decision (short_row r).
Proof. unfold short_row. apply _. Defined.
(** The bytes a row's hash is taken of. *)
Definition row_input (r : AuditRecord) : bytes := hash_input [ts r; actor r; action r; detail r; prev_hash r].
(** A row of each log on which SHA-256 collides. *)
Definition colliding_rows (l k : list AuditRecord) : Prop :=
  Exists (fun r => Exists (fun s => row_input r <> row_input s /\ sha256_digest (row_input r) = sha256_digest (row_input s)) k) l.
#[export] Instance colliding_rows_dec l k : Decision (colliding_rows l k).
Proof. unfold colliding_rows. apply _. Defined.

Context `{!Sha256Laws HS}.

Lemma hex_length (l : bytes) : String.length (hash_to_hex l) = (2 * length l)%nat.
Proof. induction l as [|b l IH]; cbn; [done|]. rewrite IH. lia. Qed.
Lemma row_hash_not_empty a b c d e : audit_row_hash a b c d e <> "".
Proof. intros H. apply (f_equal String.length) in H. unfold audit_row_hash in H. rewrite hex_length, digest_length in H. done. Qed.

Lemma row_hash_binds (r s : AuditRecord) : short_row r -> short_row s ->
  audit_row_hash (ts r) (actor r) (action r) (detail r) (prev_hash r) = audit_row_hash (ts s) (actor s) (action s) (detail s) (prev_hash s) ->
  (content r = content s /\ prev_hash r = prev_hash s) \/
  (row_input r <> row_input s /\ sha256_digest (row_input r) = sha256_digest (row_input s)).
Proof.
  intros Hr Hs H. apply hash_to_hex_inj in H; [|apply digest_bytes..].
  destruct (decide (row_input r = row_input s)) as [He|Hne]; [|by right].
  left. apply hash_input_inj in He; [|done..]. unfold content. by injection He as -> -> -> -> ->.
Qed.

Lemma chains_agree (l k : list AuditRecord) : Forall short_row l -> Forall short_row k -> chained "" l -> chained "" k ->
  last_hash l = last_hash k -> map content l = map content k \/ colliding_rows l k.
Proof.
  revert k. induction l as [|r l IH] using rev_ind; intros k Hl Hk Hcl Hck Hlast.
  - left. destruct k as [|s k _] using rev_ind; [done|]. exfalso. apply chained_app in Hck as [_ (_ & Hs & _)].
    unfold last_hash in Hlast. rewrite last_snoc in Hlast. cbn in Hlast. rewrite Hs in Hlast. symmetry in Hlast. by apply row_hash_not_empty in Hlast.
  - apply chained_app in Hcl as [Hcl (Hrp & Hr & _)]. rewrite <- last_hash_default in Hrp. unfold last_hash in Hlast at 1. rewrite last_snoc in Hlast.
    destruct k as [|s k _] using rev_ind.
    { exfalso. cbn in Hlast. rewrite Hr in Hlast. by apply row_hash_not_empty in Hlast. }
    apply chained_app in Hck as [Hck (Hsp & Hs & _)]. rewrite <- last_hash_default in Hsp. unfold last_hash in Hlast. rewrite last_snoc in Hlast.
    apply Forall_app in Hl as [Hl [Hsr _]%Forall_cons], Hk as [Hk [Hss _]%Forall_cons]. rewrite Hr, Hs in Hlast.
    destruct (row_hash_binds r s Hsr Hss Hlast) as [[Hc Hp]|Hcol]; [|right; apply Exists_app; right; apply Exists_cons; left; apply Exists_app; right; by apply Exists_cons; left]. rewrite Hrp, Hsp in Hp.
    destruct (IH k Hl Hk Hcl Hck Hp) as [He|Hcol].
    2: { right. apply Exists_app. left. eapply Exists_impl; [exact Hcol|]. intros a Ha. apply Exists_app. by left. }
    left. rewrite !map_app. cbn. by rewrite He, Hc.
Qed.

(** C24: The hash of the last row binds the whole log: two tables that verify from the start
    and end in the same hash hold the same rows in the same order, unless SHA-256 gives two
    different rows, one of each table, the same digest.  So no row can be changed, added,
    removed or moved without a change of the last hash or a failing verification, short of
    such a pair of rows. *)
Theorem last_hash_binds_log (t u : AuditTable) (n m : nat) (i j : Z) :
  Forall short_row (rows t) -> Forall short_row (rows u) ->
  Forall (fun r => 0 < ar_id r) (rows t) -> Forall (fun r => 0 < ar_id r) (rows u) ->
  verify_audit_log_chain 0 t = Ok (n, i) -> verify_audit_log_chain 0 u = Ok (m, j) -> last_hash (rows t) = last_hash (rows u) ->
  (map content (rows t) = map content (rows u) /\ n = m) \/ colliding_rows (rows t) (rows u).
Proof.
  intros Ht Hu Hit Hiu Hvt Hvu Hlast. unfold verify_audit_log_chain in Hvt, Hvu. cbn [Z.ltb Z.compare res_bind] in Hvt, Hvu.
  rewrite filter_id in Hvt, Hvu by done. apply verify_rows_ok in Hvt as (Hct & -> & _), Hvu as (Hcu & -> & _).
  destruct (chains_agree _ _ Ht Hu Hct Hcu Hlast) as [He|Hcol]; [left|by right]. split; [done|].
  apply (f_equal length) in He. rewrite !length_map in He. by rewrite He.
Qed.

(** Rows missing at the end cannot be seen: what is left verifies as before. *)
Lemma truncated_log_verifies (t : AuditTable) (n : nat) (count : nat) (i : Z) : verify_audit_log_chain 0 t = Ok (count, i) ->
  exists j, verify_chain (mk_table (take n (rows t)) (next_id t)) = (200, ChainIntact j).
Proof.
  unfold verify_chain, verify_audit_log_chain. cbn [Z.ltb Z.compare res_bind rows].
  intros (Hc & _ & _)%verify_rows_ok. rewrite <- (take_drop n (rows t)), filter_app in Hc. apply chained_app in Hc as [Hc _].
  set (l := filter _ (take n (rows t))) in *. exists (length l).
  assert (verify_rows l "" 0 0 = Ok ((0 + length l)%nat, last_id 0 l)) as -> by (by apply verify_rows_ok). done.
Qed.
End ChainLaws.

(** ** A log *)

(** A checksum in place of the digest. *)
#[local] Instance checksum : Sha256 := fun x => replicate 32 (foldr Z.add 0 x mod 256).
#[local] Instance checksum_laws : Sha256Laws checksum.
Proof.
  split; [|intros x; apply length_replicate]. intros x. apply Forall_replicate. unfold byte_ok. apply Z.mod_pos_bound. lia.
Qed.
Definition log_statements : list Statement :=
  [Insert true "2026-01-01 00:00:00" "system" "start" "{}"; Insert false "2026-01-01 00:00:01" "a" "b" "c"; Delete 1;
   Insert true "2026-01-01 00:00:02" "SecurityAdmin@root" "model_swap" "{}"].

Lemma audit_chain_verifies_witness :
  verify_audit_log_chain 1 (execute_all (log_statements ++ [])%list empty_table) = Ok (1%nat, 2).
Proof.
  destruct (audit_chain_verifies log_statements [] 1) as [_ H]. cbv zeta in H. rewrite H.
  - vm_compute. reflexivity.
  - right. apply list_elem_of_In. vm_compute. left. reflexivity.
Defined.

Lemma last_hash_binds_log_witness : let t := execute_all log_statements empty_table in
  let u := execute_all (log_statements ++ [Delete 2]) empty_table in
  ~ colliding_rows (rows t) (rows u) /\ map content (rows t) = map content (rows u).
Proof.
  intros t u. assert (~ colliding_rows (rows t) (rows u)) as Hfree by (refine (bool_decide_eq_false_1 _ _); vm_compute; reflexivity).
  split; [exact Hfree|].
  assert (verify_audit_log_chain 0 t = Ok (2%nat, 2)) as Hv by (vm_compute; reflexivity).
  assert (verify_audit_log_chain 0 u = Ok (2%nat, 2)) as Hv' by (vm_compute; reflexivity).
  assert (Forall short_row (rows t)) as Hs by (refine (bool_decide_eq_true_1 _ _); vm_compute; reflexivity).
  assert (Forall (fun r => 0 < ar_id r) (rows t)) as Hi by (refine (bool_decide_eq_true_1 _ _); vm_compute; reflexivity).
  assert (last_hash (rows t) = last_hash (rows u)) as Hl by (vm_compute; reflexivity).
  destruct (last_hash_binds_log t u 2 2 2 2 Hs Hs Hi Hi Hv Hv' Hl) as [[Hc _]|Hcol]; [exact Hc|].
  destruct (Hfree Hcol).
Defined.
