(* ===== verification/ProtoFilter.v ===== *)
(** * Protocol filters of the control plane

    The services, methods and addresses the HTTP and SSH filters of the kernel go by, as
    the control plane edits and lists them (adapter/ebpf/protocol_filter.rs), and the
    endpoints around them (adapter/http/data_plane/filter.rs).  The maps are the ones
    [Xdp] reads. *)

From Stdlib Require Import ZArith Lia List String.
From stdpp Require Import base list gmap strings.
From S2P Require Import Prelude Abi PortRule IpAddr Parsing Xdp AclMap.

Local Open Scope Z_scope.

Inductive FilterError : Type := NotLoaded | MapOperationError | FilterIpDoesNotExist | IpVersionMismatch (expected : IpVersion).
#[export] Instance FilterError_eq_dec : EqDecision FilterError.
Proof. solve_decision. Defined.

(** ** Native addresses and keys *)

Inductive SocketAddr : Type := SockV4 (bits port : Z) | SockV6 (bits port flowinfo scope_id : Z).
#[export] Instance SocketAddr_eq_dec : EqDecision SocketAddr.
Proof. solve_decision. Defined.

Definition addr_v4_from_native (bits port : Z) : bytes := AddrPortV4_new (to_be 4 bits) port.
Definition addr_v4_into_native (key : bytes) : SocketAddr := SockV4 (to_be 4 (AddrPortV4_ip key)) (AddrPortV4_port key).
Definition addr_v6_from_native (bits port : Z) : bytes := AddrPortV6_new (to_be 16 bits) port.
Definition addr_v6_into_native (key : bytes) : SocketAddr := SockV6 (to_be 16 (AddrPortV6_ip key)) (AddrPortV6_port key) 0 0.
#[global] Arguments to_be : simpl never.
#[global] Arguments addr_v4_from_native : simpl never.
#[global] Arguments addr_v6_from_native : simpl never.
Definition ip_v4_into_native (key : Z) : IpAddr := Ip4 (to_be 4 key).
Definition ip_v6_into_native (key : Z) : IpAddr := Ip6 (to_be 16 key).

Definition require_v4_socket (a : SocketAddr) : result FilterError (Z * Z) :=
  match a with SockV4 bits port => Ok (bits, port) | SockV6 _ _ _ _ => Err (IpVersionMismatch V4) end.
Definition require_v6_socket (a : SocketAddr) : result FilterError (Z * Z) :=
  match a with SockV6 bits port _ _ => Ok (bits, port) | SockV4 _ _ => Err (IpVersionMismatch V6) end.
Definition require_v4_ip (a : IpAddr) : result FilterError Z := match a with Ip4 bits => Ok bits | Ip6 _ => Err (IpVersionMismatch V4) end.
Definition require_v6_ip (a : IpAddr) : result FilterError Z := match a with Ip6 bits => Ok bits | Ip4 _ => Err (IpVersionMismatch V6) end.

(** ** Kernel maps

    [None] when eBPF is unavailable.  A new key fails in a full map, the removal of a
    missing one always. *)

Section Maps.
Context {K : Type} `{Countable K}.

Definition bpf_insert (m : gmap K Z) (k : K) (v : Z) : result FilterError (gmap K Z) :=
  if bool_decide (m !! k = None) && (MAX_RULES <=? size m)%nat then Err MapOperationError else Ok (<[k := v]> m).
Definition bpf_remove (m : gmap K Z) (k : K) : result FilterError (gmap K Z) :=
  match m !! k with Some _ => Ok (delete k m) | None => Err MapOperationError end.
Definition loaded {A : Type} (w : option A) : result FilterError A := match w with Some m => Ok m | None => Err NotLoaded end.

(** [EntryMap] *)
Definition entry_get_all {N : Type} (into_native : K -> N) (w : option (gmap K Z)) : list N :=
  match w with None => [] | Some m => map into_native (map fst (map_to_list m)) end.
Definition entry_add (w : option (gmap K Z)) (key : K) : result FilterError (option (gmap K Z)) :=
  let? m := loaded w in let? m := bpf_insert m key 0 in Ok (Some m).
Definition entry_remove (w : option (gmap K Z)) (key : K) : result FilterError (option (gmap K Z)) :=
  let? m := loaded w in let? m := bpf_remove m key in Ok (Some m).

(** [HttpServiceWrapper] *)
Definition http_get_method {N : Type} (into_native : K -> N) (w : option (gmap K Z)) : list (N * list HttpMethod) :=
  match w with None => [] | Some m => map (fun '(k, v) => (into_native k, convert_from_bitmap v)) (map_to_list m) end.
Definition http_add (w : option (gmap K Z)) (key : K) (methods : list HttpMethod) : result FilterError (option (gmap K Z)) :=
  let? m := loaded w in let? m := bpf_insert m key (convert_to_bitmap methods) in Ok (Some m).
Definition http_remove (w : option (gmap K Z)) (key : K) (removed : list HttpMethod) : result FilterError (option (gmap K Z)) :=
  let? m := loaded w in
  match m !! key with
  | None => Err FilterIpDoesNotExist
  | Some current =>
      let kept := filter (fun x => x ∉ removed) (convert_from_bitmap current) in
      let? m := (if bool_decide (kept = []) then bpf_remove m key else bpf_insert m key (convert_to_bitmap kept)) in
      Ok (Some m)
  end.
End Maps.

(** [WhiteListControl] *)
Definition is_white_list_enable (w : option (list Z)) : bool :=
  match w with Some m => match m !! 0%nat with Some status => negb (status =? 0) | None => false end | None => false end.
Definition set_white_list (w : option (list Z)) (enabled : bool) : result FilterError (option (list Z)) :=
  let? m := loaded w in
  match m with [] => Err MapOperationError | _ :: l => Ok (Some ((if enabled then 1 else 0) :: l)) end.

(** ** [ProtocolFilter] *)

Record ProtocolFilter : Type := mk_filter {
  ipv4_http_service : option (gmap bytes Z); ipv6_http_service : option (gmap bytes Z);
  ssh_white_list_enable : option (list Z);
  ipv4_ssh_service : option (gmap bytes Z); ipv6_ssh_service : option (gmap bytes Z);
  ipv4_ssh_white_list : option (gmap Z Z); ipv6_ssh_white_list : option (gmap Z Z);
  ipv4_ssh_black_list : option (gmap Z Z); ipv6_ssh_black_list : option (gmap Z Z) }.
Definition unavailable_filter : ProtocolFilter := mk_filter None None None None None None None None None.

Definition set_ipv4_http (w : option (gmap bytes Z)) (f : ProtocolFilter) : ProtocolFilter :=
  let '(mk_filter _ b c d e g h i j) := f in mk_filter w b c d e g h i j.
Definition set_ipv6_http (w : option (gmap bytes Z)) (f : ProtocolFilter) : ProtocolFilter :=
  let '(mk_filter a _ c d e g h i j) := f in mk_filter a w c d e g h i j.
Definition set_ssh_enable (w : option (list Z)) (f : ProtocolFilter) : ProtocolFilter :=
  let '(mk_filter a b _ d e g h i j) := f in mk_filter a b w d e g h i j.
Definition set_ipv4_ssh (w : option (gmap bytes Z)) (f : ProtocolFilter) : ProtocolFilter :=
  let '(mk_filter a b c _ e g h i j) := f in mk_filter a b c w e g h i j.
Definition set_ipv6_ssh (w : option (gmap bytes Z)) (f : ProtocolFilter) : ProtocolFilter :=
  let '(mk_filter a b c d _ g h i j) := f in mk_filter a b c d w g h i j.
Definition set_ipv4_ssh_white (w : option (gmap Z Z)) (f : ProtocolFilter) : ProtocolFilter :=
  let '(mk_filter a b c d e _ h i j) := f in mk_filter a b c d e w h i j.
Definition set_ipv6_ssh_white (w : option (gmap Z Z)) (f : ProtocolFilter) : ProtocolFilter :=
  let '(mk_filter a b c d e g _ i j) := f in mk_filter a b c d e g w i j.
Definition set_ipv4_ssh_black (w : option (gmap Z Z)) (f : ProtocolFilter) : ProtocolFilter :=
  let '(mk_filter a b c d e g h _ j) := f in mk_filter a b c d e g h w j.
Definition set_ipv6_ssh_black (w : option (gmap Z Z)) (f : ProtocolFilter) : ProtocolFilter :=
  let '(mk_filter a b c d e g h i _) := f in mk_filter a b c d e g h i w.

(** An edit of one of the maps: the filter is as it was after an error. *)
Definition edit {W : Type} (r : result FilterError W) (set : W -> ProtocolFilter -> ProtocolFilter) (f : ProtocolFilter) :
    result FilterError unit * ProtocolFilter :=
  match r with Ok w => (Ok tt, set w f) | Err e => (Err e, f) end.

Definition get_http_service (v : IpVersion) (f : ProtocolFilter) : list (SocketAddr * list HttpMethod) :=
  match v with
  | V4 => http_get_method addr_v4_into_native (ipv4_http_service f)
  | V6 => http_get_method addr_v6_into_native (ipv6_http_service f)
  end.
Definition add_http_service (v : IpVersion) (a : SocketAddr) (methods : list HttpMethod) (f : ProtocolFilter) :=
  match v with
  | V4 => edit (let? ap := require_v4_socket a in http_add (ipv4_http_service f) (addr_v4_from_native ap.1 ap.2) methods) set_ipv4_http f
  | V6 => edit (let? ap := require_v6_socket a in http_add (ipv6_http_service f) (addr_v6_from_native ap.1 ap.2) methods) set_ipv6_http f
  end.
Definition remove_http_service (v : IpVersion) (a : SocketAddr) (methods : list HttpMethod) (f : ProtocolFilter) :=
  match v with
  | V4 => edit (let? ap := require_v4_socket a in http_remove (ipv4_http_service f) (addr_v4_from_native ap.1 ap.2) methods) set_ipv4_http f
  | V6 => edit (let? ap := require_v6_socket a in http_remove (ipv6_http_service f) (addr_v6_from_native ap.1 ap.2) methods) set_ipv6_http f
  end.

Definition is_ssh_white_list_enable (f : ProtocolFilter) : bool := is_white_list_enable (ssh_white_list_enable f).
Definition enable_ssh_white_list (f : ProtocolFilter) := edit (set_white_list (ssh_white_list_enable f) true) set_ssh_enable f.
Definition disable_ssh_white_list (f : ProtocolFilter) := edit (set_white_list (ssh_white_list_enable f) false) set_ssh_enable f.

Definition get_ssh_service (v : IpVersion) (f : ProtocolFilter) : list SocketAddr :=
  match v with
  | V4 => entry_get_all addr_v4_into_native (ipv4_ssh_service f)
  | V6 => entry_get_all addr_v6_into_native (ipv6_ssh_service f)
  end.
Definition add_ssh_service (v : IpVersion) (a : SocketAddr) (f : ProtocolFilter) :=
  match v with
  | V4 => edit (let? ap := require_v4_socket a in entry_add (ipv4_ssh_service f) (addr_v4_from_native ap.1 ap.2)) set_ipv4_ssh f
  | V6 => edit (let? ap := require_v6_socket a in entry_add (ipv6_ssh_service f) (addr_v6_from_native ap.1 ap.2)) set_ipv6_ssh f
  end.
Definition remove_ssh_service (v : IpVersion) (a : SocketAddr) (f : ProtocolFilter) :=
  match v with
  | V4 => edit (let? ap := require_v4_socket a in entry_remove (ipv4_ssh_service f) (addr_v4_from_native ap.1 ap.2)) set_ipv4_ssh f
  | V6 => edit (let? ap := require_v6_socket a in entry_remove (ipv6_ssh_service f) (addr_v6_from_native ap.1 ap.2)) set_ipv6_ssh f
  end.

Definition get_ssh_white_list (v : IpVersion) (f : ProtocolFilter) : list IpAddr :=
  match v with
  | V4 => entry_get_all ip_v4_into_native (ipv4_ssh_white_list f)
  | V6 => entry_get_all ip_v6_into_native (ipv6_ssh_white_list f)
  end.
Definition add_ssh_white_list (v : IpVersion) (ip : IpAddr) (f : ProtocolFilter) :=
  match v with
  | V4 => edit (let? b := require_v4_ip ip in entry_add (ipv4_ssh_white_list f) (to_be 4 b)) set_ipv4_ssh_white f
  | V6 => edit (let? b := require_v6_ip ip in entry_add (ipv6_ssh_white_list f) (to_be 16 b)) set_ipv6_ssh_white f
  end.
Definition remove_ssh_white_list (v : IpVersion) (ip : IpAddr) (f : ProtocolFilter) :=
  match v with
  | V4 => edit (let? b := require_v4_ip ip in entry_remove (ipv4_ssh_white_list f) (to_be 4 b)) set_ipv4_ssh_white f
  | V6 => edit (let? b := require_v6_ip ip in entry_remove (ipv6_ssh_white_list f) (to_be 16 b)) set_ipv6_ssh_white f
  end.

Definition get_ssh_black_list (v : IpVersion) (f : ProtocolFilter) : list IpAddr :=
  match v with
  | V4 => entry_get_all ip_v4_into_native (ipv4_ssh_black_list f)
  | V6 => entry_get_all ip_v6_into_native (ipv6_ssh_black_list f)
  end.
Definition add_ssh_black_list (v : IpVersion) (ip : IpAddr) (f : ProtocolFilter) :=
  match v with
  | V4 => edit (let? b := require_v4_ip ip in entry_add (ipv4_ssh_black_list f) (to_be 4 b)) set_ipv4_ssh_black f
  | V6 => edit (let? b := require_v6_ip ip in entry_add (ipv6_ssh_black_list f) (to_be 16 b)) set_ipv6_ssh_black f
  end.
Definition remove_ssh_black_list (v : IpVersion) (ip : IpAddr) (f : ProtocolFilter) :=
  match v with
  | V4 => edit (let? b := require_v4_ip ip in entry_remove (ipv4_ssh_black_list f) (to_be 4 b)) set_ipv4_ssh_black f
  | V6 => edit (let? b := require_v6_ip ip in entry_remove (ipv6_ssh_black_list f) (to_be 16 b)) set_ipv6_ssh_black f
  end.

(** ** Edits *)

Inductive FilterOp : Type :=
  | AddHttp (v : IpVersion) (a : SocketAddr) (methods : list HttpMethod)
  | RemoveHttp (v : IpVersion) (a : SocketAddr) (methods : list HttpMethod)
  | EnableWhiteList | DisableWhiteList
  | AddSsh (v : IpVersion) (a : SocketAddr) | RemoveSsh (v : IpVersion) (a : SocketAddr)
  | AddSshWhite (v : IpVersion) (ip : IpAddr) | RemoveSshWhite (v : IpVersion) (ip : IpAddr)
  | AddSshBlack (v : IpVersion) (ip : IpAddr) | RemoveSshBlack (v : IpVersion) (ip : IpAddr).
Definition run_op (o : FilterOp) (f : ProtocolFilter) : result FilterError unit * ProtocolFilter :=
  match o with
  | AddHttp v a ms => add_http_service v a ms f
  | RemoveHttp v a ms => remove_http_service v a ms f
  | EnableWhiteList => enable_ssh_white_list f
  | DisableWhiteList => disable_ssh_white_list f
  | AddSsh v a => add_ssh_service v a f
  | RemoveSsh v a => remove_ssh_service v a f
  | AddSshWhite v ip => add_ssh_white_list v ip f
  | RemoveSshWhite v ip => remove_ssh_white_list v ip f
  | AddSshBlack v ip => add_ssh_black_list v ip f
  | RemoveSshBlack v ip => remove_ssh_black_list v ip f
  end.
Definition run_ops (l : list FilterOp) (f : ProtocolFilter) : ProtocolFilter := fold_left (fun f o => (run_op o f).2) l f.
(** The filter at startup: all maps empty, the white list off. *)
Definition loaded_filter : ProtocolFilter :=
  mk_filter (Some ∅) (Some ∅) (Some [0]) (Some ∅) (Some ∅) (Some ∅) (Some ∅) (Some ∅) (Some ∅).

(** Addresses and ports within their widths. *)
Definition sock_ok (a : SocketAddr) : Prop :=
  match a with SockV4 b p => in_width 32 b /\ in_width 16 p | SockV6 b p _ _ => in_width 128 b /\ in_width 16 p end.
Definition ip_ok (a : IpAddr) : Prop := match a with Ip4 b => in_width 32 b | Ip6 b => in_width 128 b end.
Definition op_ok (o : FilterOp) : Prop :=
  match o with
  | AddHttp _ a _ | RemoveHttp _ a _ | AddSsh _ a | RemoveSsh _ a => sock_ok a
  | AddSshWhite _ ip | RemoveSshWhite _ ip | AddSshBlack _ ip | RemoveSshBlack _ ip => ip_ok ip
  | EnableWhiteList | DisableWhiteList => True
  end.

(** ** Byte order *)

Lemma to_be_width (n : nat) (b : Z) : 0 <= to_be n b < 256 ^ Z.of_nat n.
Proof.
  unfold to_be. pose proof (from_ne_bytes_bound (reverse (to_ne_bytes n b))) as H. rewrite length_reverse, to_ne_bytes_length in H.
  apply H. apply Forall_reverse, to_ne_bytes_ok.
Qed.
Lemma to_be_involutive (n : nat) (b : Z) : 0 <= b < 256 ^ Z.of_nat n -> to_be n (to_be n b) = b.
Proof.
  intros Hb. unfold to_be. set (l := reverse (to_ne_bytes n b)).
  assert (to_ne_bytes n (from_ne_bytes l) = l) as ->.
  { assert (length l = n) as Hlen by (unfold l; by rewrite length_reverse, to_ne_bytes_length). rewrite <- Hlen at 1.
    apply to_from_ne_bytes. unfold l. apply Forall_reverse, to_ne_bytes_ok. }
  unfold l. rewrite reverse_involutive. by apply from_to_ne_bytes.
Qed.

Lemma addr_v4_native (b p : Z) : in_width 32 b -> in_width 16 p -> addr_v4_into_native (addr_v4_from_native b p) = SockV4 b p.
Proof.
  intros Hb Hp. unfold addr_v4_into_native, addr_v4_from_native. pose proof (to_be_width 4 b) as Hw.
  rewrite AddrPortV4_ip_new, AddrPortV4_port_new by done. by rewrite to_be_involutive.
Qed.
Lemma ip_v4_native (b : Z) : in_width 32 b -> ip_v4_into_native (to_be 4 b) = Ip4 b.
Proof. intros Hb. unfold ip_v4_into_native. by rewrite to_be_involutive. Qed.

(** ** Keys are those of native addresses *)

Definition key_v4 (k : bytes) : Prop := exists b p, in_width 32 b /\ in_width 16 p /\ k = addr_v4_from_native b p.
Definition ip_key_v4 (k : Z) : Prop := exists b, in_width 32 b /\ k = to_be 4 b.
Definition keys {K : Type} `{Countable K} (P : K -> Prop) (w : option (gmap K Z)) : Prop :=
  match w with Some m => forall k v, m !! k = Some v -> P k | None => True end.
Record filter_ok (f : ProtocolFilter) : Prop := {
  fo_http : keys key_v4 (ipv4_http_service f);
  fo_ssh : keys key_v4 (ipv4_ssh_service f);
  fo_white : keys ip_key_v4 (ipv4_ssh_white_list f);
  fo_black : keys ip_key_v4 (ipv4_ssh_black_list f) }.

Section KeysKept.
Context {K : Type} `{Countable K} (P : K -> Prop).
Lemma keys_insert m k v m' : keys P (Some m) -> P k -> bpf_insert m k v = Ok m' -> keys P (Some m').
Proof.
  unfold bpf_insert, keys. intros Hm Hk. destruct (_ && _); [done|]. intros [= <-] k' v'.
  destruct (decide (k' = k)) as [->|]; simplify_map_eq; [done|]. apply Hm.
Qed.
Lemma keys_remove m k m' : keys P (Some m) -> bpf_remove m k = Ok m' -> keys P (Some m').
Proof.
  unfold bpf_remove, keys. intros Hm. destruct (m !! k); [|done]. intros [= <-] k' v' [_ Hv]%lookup_delete_Some. by eapply Hm.
Qed.
Lemma keys_entry_add w k w' : keys P w -> P k -> entry_add w k = Ok w' -> keys P w'.
Proof. unfold entry_add, loaded. destruct w as [m|]; [|done]. cbn [res_bind]. intros Hm Hk (m' & H1 & [= <-])%res_bind_inv. by eapply keys_insert. Qed.
Lemma keys_entry_remove w k w' : keys P w -> entry_remove w k = Ok w' -> keys P w'.
Proof. unfold entry_remove, loaded. destruct w as [m|]; [|done]. cbn [res_bind]. intros Hm (m' & H1 & [= <-])%res_bind_inv. by eapply keys_remove. Qed.
Lemma keys_http_add w k ms w' : keys P w -> P k -> http_add w k ms = Ok w' -> keys P w'.
Proof. unfold http_add, loaded. destruct w as [m|]; [|done]. cbn [res_bind]. intros Hm Hk (m' & H1 & [= <-])%res_bind_inv. by eapply keys_insert. Qed.
Lemma keys_http_remove w k ms w' : keys P w -> P k -> http_remove w k ms = Ok w' -> keys P w'.
Proof.
  unfold http_remove, loaded. destruct w as [m|]; [|done]. cbn [res_bind]. intros Hm Hk. destruct (m !! k); [|done].
  intros (m' & H1 & [= <-])%res_bind_inv. destruct (bool_decide _); [by eapply keys_remove|by eapply keys_insert].
Qed.
End KeysKept.

Lemma key_v4_of a b p : sock_ok a -> require_v4_socket a = Ok (b, p) -> key_v4 (addr_v4_from_native b p).
Proof. destruct a; [|done]. intros [H1 H2] [= <- <-]. by eexists _, _. Qed.
Lemma ip_key_v4_of a b : ip_ok a -> require_v4_ip a = Ok b -> ip_key_v4 (to_be 4 b).
Proof. destruct a; [|done]. intros H1 [= <-]. by eexists. Qed.

Lemma run_op_ok o f : op_ok o -> filter_ok f -> filter_ok (run_op o f).2.
Proof.
  intros Ho [H1 H2 H3 H4]. destruct f as [a b c d e g h i j]. cbn in H1, H2, H3, H4.
  destruct o as [[] s ms|[] s ms| | |[] s|[] s|[] s|[] s|[] s|[] s]; cbn [run_op op_ok] in *;
    unfold add_http_service, remove_http_service, enable_ssh_white_list, disable_ssh_white_list, add_ssh_service, remove_ssh_service,
      add_ssh_white_list, remove_ssh_white_list, add_ssh_black_list, remove_ssh_black_list, edit;
    match goal with |- filter_ok (match ?r with _ => _ end).2 => destruct r as [w|e'] eqn:Hr end; try (by split);
    try (by split; cbn).
  all: apply res_bind_inv in Hr as (x & Hx & Hr); cbn in Hr.
  all: split; cbn; try done.
  all: first [destruct x as [bb pp]; pose proof (key_v4_of _ _ _ Ho Hx) | pose proof (ip_key_v4_of _ _ Ho Hx)].
  all: cbn [fst snd] in Hr.
  all: first [eapply keys_http_add; [| |exact Hr]|eapply keys_http_remove; [| |exact Hr]|eapply keys_entry_add; [| |exact Hr]|eapply keys_entry_remove; [|exact Hr]]; done.
Qed.
Lemma run_ops_ok l f : Forall op_ok l -> filter_ok f -> filter_ok (run_ops l f).
Proof. unfold run_ops. intros Hl. revert f. induction Hl as [|o l Ho Hl IH]; intros f Hf; [done|]. by apply IH, run_op_ok. Qed.
Lemma loaded_filter_ok : filter_ok loaded_filter.
Proof. by split; intros k v H; rewrite lookup_empty in H. Qed.

(** ** Requests as the kernel reads them *)

Definition method_text (m : HttpMethod) : string :=
  match m with
  | GET => "GET" | POST => "POST" | PUT => "PUT" | DELETE => "DELETE" | HEAD => "HEAD"
  | OPTIONS => "OPTIONS" | PATCH => "PATCH" | TRACE => "TRACE" | CONNECT => "CONNECT"
  end.

(** A segment that carries the start of a request, in the middle of a connection. *)
Record request (f : tcp_frame) (m : HttpMethod) : Prop := {
  rq_wf : frame_wf f;
  rq_flags : has_flag (f_flags f) (Z.lor (Z.lor TCP_SYN TCP_RST) TCP_FIN) = false;
  rq_data : Z.land (f_flags f) (Z.lor TCP_PSH TCP_ACK) = Z.lor TCP_PSH TCP_ACK;
  rq_text : exists rest, f_payload f = (str_bytes (method_text m ++ " ") ++ rest)%list;
  rq_length : (8 <= length (f_payload f))%nat }.

Lemma request_method (m : HttpMethod) (rest : bytes) :
  http_method_of (take 8 (str_bytes (method_text m ++ " ") ++ rest)) = Some (method_bit m).
Proof. by destruct m. Qed.

Lemma bitmap_methods (v : Z) (m : HttpMethod) : m ∈ convert_from_bitmap v <-> Z.land v (method_bit m) <> 0.
Proof.
  unfold convert_from_bitmap. rewrite list_elem_of_filter. unfold has_flag. rewrite negb_true_iff, Z.eqb_neq.
  assert (m ∈ all_methods) by (destruct m; vm_compute; set_solver). tauto.
Qed.

Lemma frame_payload (f : tcp_frame) : frame_wf f -> (8 <= length (f_payload f))%nat ->
  load (encode_frame f) (34 + Z.of_nat (length (f_opts f)) + f_thl f) 8 = Val (take 8 (f_payload f)).
Proof.
  intros Hwf Hl. rewrite (frame_tcp_split f). rewrite <- (take_drop 8 (f_payload f)) at 1. rewrite !app_assoc, <- (app_assoc _ (take 8 _)).
  apply load_app; [|unfold plen; rewrite length_take; lia].
  pose proof (tcp_prefix_len f Hwf) as H1. pose proof (tcp_len f Hwf) as H2. unfold plen, f_thl in *. rewrite !length_app in *. lia.
Qed.

Lemma http_request_checked (f : tcp_frame) (m : HttpMethod) (p : ParsedPacket) (services : gmap bytes Z) (dst : bytes) :
  request f m -> protocol p = 6 -> tcp_flags p = f_flags f -> ip_version p = 4 ->
  http_service_violation (encode_frame f) p services dst =
    Val (match services !! dst with Some allowed => Z.land allowed (method_bit m) =? 0 | None => false end).
Proof.
  intros [Hwf Hsyn Hdata (rest & Hpay) Hlen] Hproto Hflags Hver. unfold http_service_violation. destruct (services !! dst) as [allowed|]; [|done].
  rewrite Hproto, Hflags, Hver, Hsyn, Hdata. change (6 =? IpProto_Tcp) with true. rewrite Z.eqb_refl. cbn [negb].
  pose proof (frame_len f Hwf) as Hl. destruct (fw_opts f Hwf) as (k & Hk & Hk10). destruct (words_bound _ _ Hk) as [Hw Hwk].
  destruct (fw_topts f Hwf) as (j & Hj & Hj10). destruct (words_bound _ _ Hj) as [Hv Hvj]. unfold f_total in Hl.
  assert (f_thl f = 20 + words (f_topts f) * 4) as Hthl by (unfold f_thl; lia).
  destruct (Z.gtb_spec 15 (plen (encode_frame f))); [unfold f_thl in *; lia|]. change (4 =? as_u8 V4) with true. cbv iota.
  rewrite (frame_ip_byte f Hwf 0 (64 + (5 + words (f_opts f)))) by done. cbn [mem_bind].
  set (ihl := 5 + words (f_opts f)) in *.
  assert (Z.land (64 + ihl) 15 = ihl) as ->.
  { change 15 with (Z.ones 4). rewrite Z.land_ones by lia. change (2 ^ 4) with 16.
    replace (64 + ihl) with (ihl + 4 * 16) by lia. rewrite Z.mod_add, Z.mod_small by lia. done. }
  assert (14 + ihl * 4 = 34 + Z.of_nat (length (f_opts f))) as -> by lia.
  match goal with |- context [?a >? ?b] => destruct (Z.gtb_spec a b) end; [unfold f_thl in *; lia|].
  rewrite (frame_tcp_byte f Hwf 12 (16 * (5 + words (f_topts f)))).
  2: { unfold tcp_part. pose proof (fw_seqack f Hwf) as Hsa. revert Hsa. generalize (f_seqack f); intros l Hsa. explode l. }
  2: { lia. }
  cbn [mem_bind]. rewrite Z.shiftr_div_pow2 by lia. change (2 ^ 4) with 16. rewrite (Z.mul_comm 16), Z.div_mul by lia.
  set (d := 5 + words (f_topts f)) in *. destruct (Z.leb_spec 5 d); [|lia]. destruct (Z.leb_spec d 15); [|lia]. cbn [negb andb].
  unfold get_http_request_method. assert (34 + Z.of_nat (length (f_opts f)) + d * 4 = 34 + Z.of_nat (length (f_opts f)) + f_thl f) as -> by lia.
  match goal with |- context [?a >? ?b] => destruct (Z.gtb_spec a b) end; [lia|].
  rewrite frame_payload by done. cbn [mem_bind]. by rewrite Hpay, request_method.
Qed.

(** ** What is listed and what is enforced *)

Lemma listed_http (f : ProtocolFilter) (m : gmap bytes Z) (b p : Z) (ms : list HttpMethod) : ipv4_http_service f = Some m ->
  keys key_v4 (Some m) -> in_width 32 b -> in_width 16 p ->
  (SockV4 b p, ms) ∈ get_http_service V4 f <-> exists v, m !! addr_v4_from_native b p = Some v /\ ms = convert_from_bitmap v.
Proof.
  intros Hf Hk Hb Hp. cbn [get_http_service]. unfold http_get_method. rewrite Hf, list_elem_of_fmap. split.
  - intros ([k v] & [= Hkey ->] & Hin%elem_of_map_to_list). destruct (Hk _ _ Hin) as (b' & p' & Hb' & Hp' & ->).
    change (addr_v4_into_native (addr_v4_from_native b' p')) with (SockV4 b p) in Hkey || idtac.
    exists v. split; [|done]. pose proof (addr_v4_native b' p' Hb' Hp') as Hn. unfold addr_v4_into_native in Hn. injection Hn as Hn1 Hn2.
    rewrite Hn1, Hn2 in *. by simplify_eq.
  - intros (v & Hv & ->). exists (addr_v4_from_native b p, v). split; [by rewrite addr_v4_native|by apply elem_of_map_to_list].
Qed.
Lemma listed_entry {K N : Type} `{Countable K} (into : K -> N) (P : K -> Prop) (w : gmap K Z) (k : K) (n : N) :
  (forall k', P k' -> into k' = n -> k' = k) -> into k = n -> keys P (Some w) -> n ∈ entry_get_all into (Some w) <-> is_Some (w !! k).
Proof.
  intros Hinj Hk Hkeys. unfold entry_get_all. rewrite list_elem_of_fmap. split.
  - intros (k' & Hn & ([k2 v] & Heq & Hin%elem_of_map_to_list)%list_elem_of_fmap). cbn in Heq. subst k2. pose proof (Hkeys _ _ Hin) as HP.
    rewrite (Hinj k' HP (eq_sym Hn)) in Hin. by exists v.
  - intros [v Hv]. exists k. split; [done|]. apply list_elem_of_fmap. exists (k, v). split; [done|by apply elem_of_map_to_list].
Qed.
Lemma key_v4_inj b p : in_width 32 b -> in_width 16 p -> forall k, key_v4 k -> addr_v4_into_native k = SockV4 b p -> k = addr_v4_from_native b p.
Proof. intros Hb Hp k (b' & p' & Hb' & Hp' & ->). rewrite addr_v4_native by done. by intros [= -> ->]. Qed.
Lemma ip_key_v4_inj b : in_width 32 b -> forall k, ip_key_v4 k -> ip_v4_into_native k = Ip4 b -> k = to_be 4 b.
Proof. intros Hb k (b' & Hb' & ->). rewrite ip_v4_native by done. by intros [= ->]. Qed.

(** The kernel has the maps the control plane writes. *)
Record kernel_sees (f : ProtocolFilter) (M : kmaps) : Prop := {
  ks_http : ipv4_http_service f = Some (IPV4_HTTP_SERVICE M);
  ks_enable : ssh_white_list_enable f = Some (SSH_WHITE_LIST_ENABLE M);
  ks_ssh : ipv4_ssh_service f = Some (IPV4_SSH_SERVICE M);
  ks_white : ipv4_ssh_white_list f = Some (IPV4_SSH_WHITE_LIST M);
  ks_black : ipv4_ssh_black_list f = Some (IPV4_SSH_BLACK_LIST M) }.

(** C23: What the control plane lists is what the kernel enforces: after any edits, a segment
    that carries an HTTP request violates the filters exactly when its destination is
    listed as an HTTP service without the request's method, or as an SSH service and its
    source is missing from the white list while that is on, or on the black list while
    it is off. *)
Theorem listed_filters_are_enforced (ops : list FilterOp) (M : kmaps) (fr : tcp_frame) (t : ParsedPacket) (m : HttpMethod) (src dst : Z) :
  let f := run_ops ops loaded_filter in
  Forall op_ok ops -> kernel_sees f M -> request fr m -> in_width 32 src -> in_width 32 dst ->
  f_src fr = reverse (to_ne_bytes 4 src) -> f_dst fr = reverse (to_ne_bytes 4 dst) ->
  exists p b, parse_packet (encode_frame fr) t = Val (p, Some tt) /\ ipv4_service_rule_violation M (encode_frame fr) p = Val b /\
    (b = true <->
      (exists ms, (SockV4 dst (f_dport fr), ms) ∈ get_http_service V4 f /\ m ∉ ms) \/
      (SockV4 dst (f_dport fr) ∈ get_ssh_service V4 f /\
        if is_ssh_white_list_enable f then Ip4 src ∉ get_ssh_white_list V4 f else Ip4 src ∈ get_ssh_black_list V4 f)).
Proof.
  intros f Hops Hk Hr Hsrc Hdst Hfs Hfd. destruct (run_ops_ok ops _ Hops loaded_filter_ok) as [H1 H2 H3 H4]. fold f in H1, H2, H3, H4.
  pose proof (rq_wf _ _ Hr) as Hwf. pose proof (fw_dport _ Hwf) as Hport. destruct Hk as [Kh Ke Ks Kw Kb]. rewrite Kh in H1. rewrite Ks in H2. rewrite Kw in H3. rewrite Kb in H4.
  rewrite parse_tcp_frame_exact by done. eexists _, _. split; [reflexivity|]. unfold ipv4_service_rule_violation.
  rewrite (http_request_checked fr m) by done. cbn [mem_bind]. split; [reflexivity|].
  set (p := mk_ParsedPacket _ _ _ _ _ _ _ _ _ _).
  assert (forall n l, reverse (to_ne_bytes 4 n) = l -> forall r, from_ne_bytes (take 4 (l ++ r)) = to_be 4 n) as Hbe.
  { intros n l <- r. rewrite take_app_length' by (by rewrite length_reverse, to_ne_bytes_length). done. }
  assert (dst_addr_v4 p = addr_v4_from_native dst (f_dport fr)) as ->.
  { unfold dst_addr_v4, dst_ip_v4, p. cbn [dst_ip dst_port]. rewrite (Hbe dst) by done. done. }
  assert (AddrPortV4_ip (src_addr_v4 p) = to_be 4 src) as Hip.
  { unfold src_addr_v4, src_ip_v4, p. cbn [src_ip src_port]. rewrite (Hbe src) by done. apply AddrPortV4_ip_new. apply to_be_width. }
  rewrite orb_true_iff. setoid_rewrite (listed_http f _ dst (f_dport fr) _ Kh H1 Hdst Hport). apply Morphisms_Prop.or_iff_morphism.
  - destruct (IPV4_HTTP_SERVICE M !! addr_v4_from_native dst (f_dport fr)) as [v|].
    + rewrite Z.eqb_eq. split; [|intros (ms & (v' & [= <-] & ->) & Hm)].
      * intros Hz. exists (convert_from_bitmap v). split; [by exists v|]. rewrite bitmap_methods. tauto.
      * rewrite bitmap_methods in Hm. by apply dec_stable in Hm.
    + split; [done|]. by intros (ms & (v' & [=] & _) & _).
  - unfold ipv4_ssh_service_violation. rewrite Hip. cbn [get_ssh_service get_ssh_white_list get_ssh_black_list]. rewrite Ks, Kw, Kb.
    pose proof (listed_entry addr_v4_into_native key_v4 _ _ _ (key_v4_inj dst (f_dport fr) Hdst Hport) (addr_v4_native _ _ Hdst Hport) H2) as Hservice.
    pose proof (listed_entry ip_v4_into_native ip_key_v4 _ _ _ (ip_key_v4_inj src Hsrc) (ip_v4_native _ Hsrc) H3) as Hwhite.
    pose proof (listed_entry ip_v4_into_native ip_key_v4 _ _ _ (ip_key_v4_inj src Hsrc) (ip_v4_native _ Hsrc) H4) as Hblack.
    unfold is_ssh_white_list_enable, is_white_list_enable. rewrite Ke.
    change (match SSH_WHITE_LIST_ENABLE M !! 0%nat with Some status => negb (status =? 0) | None => false end) with (ssh_white_list_enabled M).
    case_bool_decide as Hs; [|split; [done|by intros [?%Hservice _]]]. destruct (ssh_white_list_enabled M); rewrite bool_decide_eq_true.
    + rewrite eq_None_not_Some. tauto.
    + tauto.
Qed.

(** A service that takes GET only, and a POST to it. *)
Definition posted_frame : tcp_frame :=
  mk_tcp_frame (replicate 12 2) 0 [0; 1; 64; 0] 64 [0; 0] [10; 0; 0; 1] [10; 0; 0; 2]
    [1; 1; 1; 0] 40000 80 (replicate 8 0) (TCP_PSH + TCP_ACK) (replicate 6 0) [] (str_bytes "POST /login HTTP/1.1").
Definition get_only : list FilterOp := [AddHttp V4 (SockV4 167772162 80) [GET]; AddSsh V4 (SockV4 167772162 22); AddHttp V6 (SockV4 1 2) []].
Definition get_only_maps : kmaps :=
  let f := run_ops get_only loaded_filter in
  mk_kmaps ∅ [] ∅ ∅ ∅ ∅ ∅ ∅ ∅ ∅ (fun _ _ => None) (fun _ _ => None) []
    (default ∅ (ipv4_http_service f)) ∅ (default [] (ssh_white_list_enable f)) (default ∅ (ipv4_ssh_service f)) ∅
    (default ∅ (ipv4_ssh_white_list f)) ∅ (default ∅ (ipv4_ssh_black_list f)) ∅ [] ∅ (fun _ => true) Z.of_nat.

Lemma posted_request : request posted_frame POST.
Proof.
  split.
  - constructor; try reflexivity; [by exists 1%nat; split; [|lia]|by exists 0%nat; split; [|lia]|..]; unfold in_width, pow2; simpl; lia.
  - reflexivity.
  - reflexivity.
  - by exists (str_bytes "/login HTTP/1.1").
  - simpl. lia.
Qed.

Lemma listed_filters_are_enforced_witness : exists p b, parse_packet (encode_frame posted_frame) zeroed_packet = Val (p, Some tt) /\
  ipv4_service_rule_violation get_only_maps (encode_frame posted_frame) p = Val b /\ b = true.
Proof.
  destruct (listed_filters_are_enforced get_only get_only_maps posted_frame zeroed_packet POST 167772161 167772162) as (p & b & Hp & Hb & Hiff).
  - repeat (apply Forall_cons_2; [cbn [op_ok sock_ok]; unfold in_width; repeat split; vm_compute; congruence|]). apply Forall_nil_2.
  - constructor; reflexivity.
  - exact posted_request.
  - split; [lia|reflexivity].
  - split; [lia|reflexivity].
  - reflexivity.
  - reflexivity.
  - exists p, b. split; [exact Hp|]. split; [exact Hb|]. apply Hiff. left. exists [GET]. split; [|by intros [[=]|?%elem_of_nil]%elem_of_cons].
    vm_compute. left.
Defined.

(** An empty list of methods refuses every request, while the removal of the last method
    takes the service off the filter. *)
Lemma last_method_removed_lifts_filter :
  let a := SockV4 167772162 80 in
  get_http_service V4 (run_ops [AddHttp V4 a []] loaded_filter) = [(a, [])] /\
  get_http_service V4 (run_ops [AddHttp V4 a [GET]; RemoveHttp V4 a [GET]] loaded_filter) = [].
Proof. split; vm_compute; reflexivity. Qed.

(** ** The endpoints *)

Inductive FilterReply (A : Type) : Type := FilterOk (a : A) | BadRequest | InternalServerError.
Arguments FilterOk {A}. Arguments BadRequest {A}. Arguments InternalServerError {A}.

Definition parse_ip_version (path : string) : option IpVersion :=
  if String.eqb path "ipv4" then Some V4 else if String.eqb path "ipv6" then Some V6 else None.
Definition protocol_filter_error (e : FilterError) : FilterReply unit :=
  match e with IpVersionMismatch _ => BadRequest | _ => InternalServerError end.
Definition protocol_filter_result (r : result FilterError unit) : FilterReply unit :=
  match r with Ok _ => FilterOk tt | Err e => protocol_filter_error e end.

(** A listing and an edit of one IP version. *)
Definition listing {A : Type} (get : IpVersion -> ProtocolFilter -> A) (path : string) (f : ProtocolFilter) : FilterReply A :=
  match parse_ip_version path with None => BadRequest | Some v => FilterOk (get v f) end.
Definition editing (op : IpVersion -> FilterOp) (path : string) (f : ProtocolFilter) : FilterReply unit * ProtocolFilter :=
  match parse_ip_version path with
  | None => (BadRequest, f)
  | Some v => let '(r, f') := run_op (op v) f in (protocol_filter_result r, f')
  end.

Definition get_http_service_endpoint := listing get_http_service.
Definition add_http_service_endpoint (path : string) (payload : SocketAddr * list HttpMethod) := editing (fun v => AddHttp v payload.1 payload.2) path.
Definition remove_http_service_endpoint (path : string) (payload : SocketAddr * list HttpMethod) := editing (fun v => RemoveHttp v payload.1 payload.2) path.
Definition get_ssh_service_endpoint := listing get_ssh_service.
Definition add_ssh_service_endpoint (path : string) (payload : SocketAddr) := editing (fun v => AddSsh v payload) path.
Definition remove_ssh_service_endpoint (path : string) (payload : SocketAddr) := editing (fun v => RemoveSsh v payload) path.
Definition get_ssh_white_list_endpoint := listing get_ssh_white_list.
Definition add_ssh_white_list_endpoint (path : string) (payload : IpAddr) := editing (fun v => AddSshWhite v payload) path.
Definition remove_ssh_white_list_endpoint (path : string) (payload : IpAddr) := editing (fun v => RemoveSshWhite v payload) path.
Definition get_ssh_black_list_endpoint := listing get_ssh_black_list.
Definition add_ssh_black_list_endpoint (path : string) (payload : IpAddr) := editing (fun v => AddSshBlack v payload) path.
Definition remove_ssh_black_list_endpoint (path : string) (payload : IpAddr) := editing (fun v => RemoveSshBlack v payload) path.
Definition set_ssh_white_list_endpoint (enabled : bool) (f : ProtocolFilter) : FilterReply unit * ProtocolFilter :=
  let '(r, f') := run_op (if enabled then EnableWhiteList else DisableWhiteList) f in (protocol_filter_result r, f').

(** An edit that is answered with an error has changed nothing. *)
Lemma failed_edit_changes_nothing (op : IpVersion -> FilterOp) (path : string) (f : ProtocolFilter) :
  (editing op path f).1 <> FilterOk tt -> (editing op path f).2 = f.
Proof.
  unfold editing. destruct (parse_ip_version path) as [v|]; [|done]. destruct (run_op (op v) f) as [r f'] eqn:E. cbn [fst snd].
  destruct r as [[]|e]; [done|]. intros _. revert E.
  destruct (op v) as [[] ? ?|[] ? ?| | |[] ?|[] ?|[] ?|[] ?|[] ?|[] ?]; cbn [run_op];
    unfold add_http_service, remove_http_service, enable_ssh_white_list, disable_ssh_white_list, add_ssh_service, remove_ssh_service,
      add_ssh_white_list, remove_ssh_white_list, add_ssh_black_list, remove_ssh_black_list, edit;
    (match goal with |- context [match ?r with _ => _ end] => destruct r end); congruence.
Qed.
