(* ===== verification/Xsk.v ===== *)
(** * The AF_XDP forwarding path

    What moves packets between the two interfaces (adapter/ebpf/xsk_manager.rs): a
    thread per queue and interface that takes received frames, filters, tracks and
    forwards their packets to the other interface, and sends what the other interface
    forwarded.  The rings and the shared packet memory belong to the kernel and to the
    [xsk-rs] crate: they are an interface ([XskRings]) with its documented laws
    ([XskLaws]), and [Ring] is a concrete instance of it. *)

From Stdlib Require Import ZArith Lia List Ascii String.
From stdpp Require Import base list gmap strings relations.
From S2P Require Import Prelude Abi Parsing FlowTracker.

Local Open Scope Z_scope.

(** ** The pool of packet buffers *)

Record BufferPool : Type := mk_pool { buffers : list bytes; max_capacity : nat }.

Definition pool_new (capacity : nat) : BufferPool := mk_pool (replicate capacity []) (capacity * 2).
(** A buffer is its contents; its reserved capacity is not seen by the code. *)
Definition pool_get (p : BufferPool) : bytes * BufferPool :=
  match last (buffers p) with
  | Some buf => (buf, mk_pool (take (length (buffers p) - 1) (buffers p)) (max_capacity p))
  | None => ([], p)
  end.
Definition pool_put (buf : bytes) (p : BufferPool) : BufferPool :=
  if (length (buffers p) <? max_capacity p)%nat then mk_pool (buffers p ++ [[]])%list (max_capacity p) else p.
Definition pool_put_all (bufs : list bytes) (p : BufferPool) : BufferPool := fold_left (fun p b => pool_put b p) bufs p.

(** ** The channel between the two threads of a queue *)

Record channel : Type := mk_channel { queued : list bytes; chan_cap : nat; receiver_alive : bool }.

Inductive send_result : Type := Sent | Full | Disconnected.
Definition try_send (buf : bytes) (c : channel) : send_result * channel :=
  if negb (receiver_alive c) then (Disconnected, c)
  else if (length (queued c) <? chan_cap c)%nat then (Sent, mk_channel (queued c ++ [buf])%list (chan_cap c) true)
  else (Full, c).
(** [while let Ok(packet) = try_recv() { push; if len >= tx_batch_size { break } }]: the test
    comes after the push, so a batch size of zero takes one packet. *)
Definition recv_batch (tx_batch_size : nat) (c : channel) : list bytes * channel :=
  let n := Nat.max 1 tx_batch_size in
  (take n (queued c), mk_channel (drop n (queued c)) (chan_cap c) (receiver_alive c)).

(** ** What the rings do *)

(** [Desc] is the crate's frame descriptor, [R] the rings with the packet memory. A
    wake-up that fails gives [Some] error, with whether it is the one of a call that
    would have to wait. *)
Class XskRings (Desc R : Type) : Type := {
  desc_len : Desc -> nat;
  contents : R -> Desc -> bytes;
  comp_consume : nat -> R -> list Desc * R;
  rx_consume : nat -> R -> list Desc * R;
  fill_produce : list Desc -> R -> nat * R;
  tx_produce : list Desc -> R -> nat * R;
  tx_wakeup : R -> option bool * R;
  cursor_write_all : Desc -> bytes -> R -> option Desc * R }.

Inductive XskLog : Type :=
  | FramePoolExhausted (send_len : nat) | NoFramesAvailable | TXWakeupFailed | TXQueueError | ForwardChannelFull
  | ForwardChannelDisconnected | FillQueueIncomplete (produced expected : nat) | InvalidPacketLength.

Section Pair.
Context {Desc R : Type} `{!XskRings Desc R} {S : Type}.

(** What does not change while a pair runs. *)
Record PairConf : Type := mk_conf {
  pair_direction : Direction;
  sink : option (UserPacket -> bool -> S -> S);
  dns_filter : option (bytes -> bool);
  drop_monitor : bool;
  completion_batch_size : nat; rx_batch_size : nat; tx_batch_size : nat }.

(** The pair with what its thread shares: the two channels, the sink's state, the
    count of dropped DNS queries and the log. *)
Record XskPair : Type := mk_pair {
  rings : R; frame_pool : list Desc; tx_packet_buf : list bytes; tx_frame_buf : list Desc;
  buffer_pool : BufferPool; forward_tx : channel; forward_rx : channel;
  sink_state : S; dns_drops : nat; logged : list XskLog }.

Definition set_rings r p := mk_pair r (frame_pool p) (tx_packet_buf p) (tx_frame_buf p) (buffer_pool p) (forward_tx p)
  (forward_rx p) (sink_state p) (dns_drops p) (logged p).
Definition set_frame_pool fs p := mk_pair (rings p) fs (tx_packet_buf p) (tx_frame_buf p) (buffer_pool p) (forward_tx p)
  (forward_rx p) (sink_state p) (dns_drops p) (logged p).
Definition set_tx_packets ps p := mk_pair (rings p) (frame_pool p) ps (tx_frame_buf p) (buffer_pool p) (forward_tx p)
  (forward_rx p) (sink_state p) (dns_drops p) (logged p).
Definition set_tx_frames fs p := mk_pair (rings p) (frame_pool p) (tx_packet_buf p) fs (buffer_pool p) (forward_tx p)
  (forward_rx p) (sink_state p) (dns_drops p) (logged p).
Definition set_buffer_pool b p := mk_pair (rings p) (frame_pool p) (tx_packet_buf p) (tx_frame_buf p) b (forward_tx p)
  (forward_rx p) (sink_state p) (dns_drops p) (logged p).
Definition set_forward_tx c p := mk_pair (rings p) (frame_pool p) (tx_packet_buf p) (tx_frame_buf p) (buffer_pool p) c
  (forward_rx p) (sink_state p) (dns_drops p) (logged p).
Definition set_forward_rx c p := mk_pair (rings p) (frame_pool p) (tx_packet_buf p) (tx_frame_buf p) (buffer_pool p) (forward_tx p)
  c (sink_state p) (dns_drops p) (logged p).
Definition set_sink_state s p := mk_pair (rings p) (frame_pool p) (tx_packet_buf p) (tx_frame_buf p) (buffer_pool p) (forward_tx p)
  (forward_rx p) s (dns_drops p) (logged p).
Definition set_dns_drops n p := mk_pair (rings p) (frame_pool p) (tx_packet_buf p) (tx_frame_buf p) (buffer_pool p) (forward_tx p)
  (forward_rx p) (sink_state p) n (logged p).
Definition log (e : XskLog) (p : XskPair) : XskPair := mk_pair (rings p) (frame_pool p) (tx_packet_buf p) (tx_frame_buf p) (buffer_pool p)
  (forward_tx p) (forward_rx p) (sink_state p) (dns_drops p) (logged p ++ [e])%list.

Definition process_comp_queue (c : PairConf) (p : XskPair) : nat * XskPair :=
  let '(comp_descs, r) := comp_consume (completion_batch_size c) (rings p) in
  (length comp_descs, set_frame_pool (frame_pool p ++ comp_descs)%list (set_rings r p)).

(** [if let Err(e) = forward_tx.try_send(buf)]: the buffer of a packet that is not sent
    goes back to the pool. *)
Definition forward (raw : bytes) (p : XskPair) : XskPair :=
  let '(buf, pool) := pool_get (buffer_pool p) in
  let buf := (buf ++ raw)%list in
  let '(res, chan) := try_send buf (forward_tx p) in
  let p := set_forward_tx chan (set_buffer_pool pool p) in
  match res with
  | Sent => p
  | Full => log ForwardChannelFull (set_buffer_pool (pool_put buf (buffer_pool p)) p)
  | Disconnected => log ForwardChannelDisconnected (set_buffer_pool (pool_put buf (buffer_pool p)) p)
  end.

Definition blocked_query (c : PairConf) (raw : bytes) : bool :=
  match dns_filter c with Some dns => dns raw | None => false end.

(** [sink.process_packet]: the packet is parsed only when there is a sink. *)
Definition track (c : PairConf) (timestamp_us : Z) (raw : bytes) (s : S) : mem S :=
  match sink c with
  | None => Val s
  | Some process_packet =>
      let* parsed := parse_packet_at raw timestamp_us in
      Val (match parsed with
           | Some (packet_info, _) => process_packet packet_info (bool_decide (pair_direction c = Ingress)) s
           | None => s
           end)
  end.

(** One received frame. *)
Definition receive (c : PairConf) (timestamp_us : Z) (rx_desc : Desc) (p : XskPair) : mem XskPair :=
  let packet_len := desc_len rx_desc in
  let data := contents (rings p) rx_desc in
  if (length data <? packet_len)%nat then Val (log InvalidPacketLength p)
  else
    let raw := take packet_len data in
    if blocked_query c raw then Val (if drop_monitor c then set_dns_drops (Datatypes.S (dns_drops p)) p else p)
    else
      let* s := track c timestamp_us raw (sink_state p) in
      Val (forward raw (set_sink_state s p)).

Fixpoint receive_all (c : PairConf) (timestamp_us : Z) (rx_descs : list Desc) (p : XskPair) : mem XskPair :=
  match rx_descs with
  | [] => Val p
  | d :: rx_descs => let* p := receive c timestamp_us d p in receive_all c timestamp_us rx_descs p
  end.

Definition process_rx_queue (c : PairConf) (timestamp_us : Z) (p : XskPair) : mem (nat * XskPair) :=
  let '(rx_descs, r) := rx_consume (rx_batch_size c) (rings p) in
  let rx_count := length rx_descs in
  let p := set_rings r p in
  if (rx_count =? 0)%nat then Val (rx_count, p)
  else
    let* p := receive_all c timestamp_us rx_descs p in
    let '(produced, r) := fill_produce rx_descs (rings p) in
    let p := set_rings r p in
    Val (rx_count, if (produced =? rx_count)%nat then p else log (FillQueueIncomplete produced rx_count) p).

(** [for (frame, packet) in tx_frame_buf.iter_mut().zip(tx_packet_buf.iter())]: the frames
    written so far, and whether every write succeeded. *)
Fixpoint write_frames (frames : list Desc) (packets : list bytes) (r : R) : bool * list Desc * R :=
  match frames, packets with
  | frame :: frames, packet :: packets =>
      match cursor_write_all frame packet r with
      | (Some frame, r) => let '(ok, written, r) := write_frames frames packets r in (ok, frame :: written, r)
      | (None, r) => (false, frame :: frames, r)
      end
  | frames, _ => (true, frames, r)
  end.

(** [drain(..)] of the packets into the buffer pool. *)
Definition return_packets (p : XskPair) : XskPair :=
  set_tx_packets [] (set_buffer_pool (pool_put_all (tx_packet_buf p) (buffer_pool p)) p).

Definition submit_frames (total_packets : nat) (p : XskPair) : nat * XskPair :=
  let '(nb_submitted, r) := tx_produce (tx_frame_buf p) (rings p) in
  let p := set_rings r p in
  let p := if (nb_submitted <? length (tx_frame_buf p))%nat
           then set_frame_pool (frame_pool p ++ drop nb_submitted (tx_frame_buf p))%list p else p in
  let '(woken, r) := tx_wakeup (rings p) in
  let p := set_rings r p in
  let p := match woken with Some would_block => if would_block then p else log TXWakeupFailed p | None => p end in
  let dropped := (total_packets - nb_submitted)%nat in
  let p := if (0 <? dropped)%nat then log (FramePoolExhausted dropped) p else p in
  (nb_submitted, return_packets p).

(** The outcome: the number of packets submitted, or an error of a write. *)
Definition process_tx_queue (c : PairConf) (p : XskPair) : option nat * XskPair :=
  let '(packets, chan) := recv_batch (tx_batch_size c) (forward_rx p) in
  let p := set_tx_packets packets (set_forward_rx chan p) in
  match packets with
  | [] => (Some 0%nat, p)
  | _ =>
      let p := (process_comp_queue c p).2 in
      let total_packets := length (tx_packet_buf p) in
      match frame_pool p with
      | [] => (Some 0%nat, log (FramePoolExhausted total_packets) (return_packets p))
      | _ =>
          let available := Nat.min (length (frame_pool p)) total_packets in
          let at_ := (length (frame_pool p) - available)%nat in
          let p := set_frame_pool (take at_ (frame_pool p)) (set_tx_frames (drop at_ (frame_pool p)) p) in
          match tx_frame_buf p with
          | [] => (Some 0%nat, log NoFramesAvailable (return_packets p))
          | _ =>
              let '(ok, written, r) := write_frames (tx_frame_buf p) (tx_packet_buf p) (rings p) in
              let p := set_tx_frames written (set_rings r p) in
              if ok then let '(n, p) := submit_frames total_packets p in (Some n, p) else (None, p)
          end
      end
  end.

(** One turn of the thread's loop, with how long it then sleeps in microseconds. *)
Definition turn (c : PairConf) (timestamp_us : Z) (idle_count : Z) (p : XskPair) : mem (Z * Z * XskPair) :=
  let '(completed, p) := process_comp_queue c p in
  let* received := process_rx_queue c timestamp_us p in
  let '(received, p) := received in
  let '(sent, p) := process_tx_queue c p in
  let p := match sent with Some _ => p | None => log TXQueueError p end in
  let total_activity := (completed + received + default 0 sent)%nat in
  let idle_count := if (total_activity =? 0)%nat then saturating_add 32 idle_count 1 else 0 in
  let sleep_us := if idle_count <=? 0 then 0 else if idle_count <=? 10 then 1 else if idle_count <=? 100 then 10 else 100 in
  Val (idle_count, sleep_us, p).
End Pair.
Arguments PairConf : clear implicits.
Arguments XskPair : clear implicits.

(** ** What the kernel and the crate promise *)

(** [frame_of] is the frame a descriptor describes, [held] the frames the kernel has on
    any of the four rings or in its hands, [transmitted] the packets handed to it to
    send; [kernel_moves] is what the kernel may do on its own. *)
Class XskLaws (Desc R : Type) `{!XskRings Desc R} : Type := {
  frame_of : Desc -> Z;
  held : R -> list Z;
  transmitted : R -> list bytes;
  frame_capacity : nat;
  kernel_moves : R -> R -> Prop;
  kernel_law r r' : kernel_moves r r' -> held r' ≡ₚ held r /\ transmitted r' = transmitted r;
  contents_law r d : length (contents r d) = desc_len d /\ (desc_len d <= frame_capacity)%nat /\ bytes_ok (contents r d);
  comp_law n r ds r' : comp_consume n r = (ds, r') ->
    (length ds <= n)%nat /\ held r ≡ₚ (map frame_of ds ++ held r')%list /\ Forall (fun d => desc_len d = 0%nat) ds /\
    transmitted r' = transmitted r /\ forall d, contents r' d = contents r d;
  rx_law n r ds r' : rx_consume n r = (ds, r') ->
    (length ds <= n)%nat /\ held r ≡ₚ (map frame_of ds ++ held r')%list /\
    transmitted r' = transmitted r /\ forall d, contents r' d = contents r d;
  fill_law ds r n r' : fill_produce ds r = (n, r') ->
    (n <= length ds)%nat /\ held r' ≡ₚ (map frame_of (take n ds) ++ held r)%list /\
    transmitted r' = transmitted r /\ forall d, contents r' d = contents r d;
  tx_law ds r n r' : tx_produce ds r = (n, r') ->
    (n <= length ds)%nat /\ held r' ≡ₚ (map frame_of (take n ds) ++ held r)%list /\
    transmitted r' = (transmitted r ++ map (contents r) (take n ds))%list /\ forall d, contents r' d = contents r d;
  wakeup_law r o r' : tx_wakeup r = (o, r') -> held r' ≡ₚ held r /\ transmitted r' = transmitted r;
  (** A cursor writes behind what the frame holds and fails when that does not fit. *)
  write_law d packet r o r' : cursor_write_all d packet r = (o, r') ->
    held r' = held r /\ transmitted r' = transmitted r /\
    (forall d', frame_of d' <> frame_of d -> contents r' d' = contents r d') /\
    match o with
    | Some d' => frame_of d' = frame_of d /\ (bytes_ok packet -> contents r' d' = (contents r d ++ packet)%list)
    | None => (frame_capacity < desc_len d + length packet)%nat
    end }.

Section Frames.
Context {Desc R : Type} `{!XskRings Desc R} `{!XskLaws Desc R} {S : Type} (c : PairConf S).

Notation XskPair := (XskPair Desc R S).
Notation frames := (map frame_of).

(** Every frame the pair or the kernel has. *)
Definition owned (p : XskPair) : list Z := (frames (frame_pool p) ++ held (rings p))%list.

(** A log entry after which frames may be missing. *)
Definition lossy (e : XskLog) : bool := match e with FillQueueIncomplete _ _ | TXQueueError => true | _ => false end.

(** From [p] to [p'] frames are only lost, and only with an entry that says so. *)
Definition accounts (p p' : XskPair) : Prop :=
  exists lost new, logged p' = (logged p ++ new)%list /\ owned p ≡ₚ (lost ++ owned p')%list /\ (lost <> [] -> existsb lossy new = true).

Lemma accounts_same p p' new : logged p' = (logged p ++ new)%list -> owned p ≡ₚ owned p' -> accounts p p'.
Proof. intros Hl Ho. by exists [], new. Qed.
#[local] Instance accounts_preorder : PreOrder accounts.
Proof.
  split.
  - intros p. apply (accounts_same p p []); [by rewrite app_nil_r|done].
  - intros p q r (l1 & n1 & E1 & P1 & H1) (l2 & n2 & E2 & P2 & H2). exists (l1 ++ l2)%list, (n1 ++ n2)%list.
    rewrite E2, E1, app_assoc. split; [done|]. split; [by rewrite P1, P2, app_assoc|].
    rewrite existsb_app, orb_true_iff. intros Hne. destruct l1; [right; by apply H2|left; by apply H1].
Qed.

Lemma comp_owned p : owned (process_comp_queue c p).2 ≡ₚ owned p /\ logged (process_comp_queue c p).2 = logged p.
Proof.
  unfold process_comp_queue. destruct (comp_consume _ _) as [ds r] eqn:E. destruct (comp_law _ _ _ _ E) as (_ & Hp & _).
  split; [|done]. unfold owned. cbn [snd frame_pool rings set_frame_pool set_rings]. by rewrite map_app, <- app_assoc, <- Hp.
Qed.

(** What receiving changes: no frame. *)
Definition same_frames (p p' : XskPair) : Prop := rings p' = rings p /\ frame_pool p' = frame_pool p /\ exists new, logged p' = (logged p ++ new)%list.
#[local] Instance same_frames_preorder : PreOrder same_frames.
Proof.
  split; [intros p; repeat split; exists []; by rewrite app_nil_r|].
  intros p q r (H1 & H2 & n1 & E1) (H3 & H4 & n2 & E2). unfold same_frames. rewrite H3, H4, H1, H2, E2, E1. split; [done|]. split; [done|].
  exists (n1 ++ n2)%list. by rewrite app_assoc.
Qed.
Lemma same_frames_log p e : same_frames p (log e p).
Proof. repeat split. by exists [e]. Qed.
Lemma same_frames_quiet p p' : rings p' = rings p -> frame_pool p' = frame_pool p -> logged p' = logged p -> same_frames p p'.
Proof. intros ? ? E. repeat split; [done..|]. exists []. by rewrite E, app_nil_r. Qed.

Lemma forward_frames raw p : same_frames p (forward raw p).
Proof.
  unfold forward. destruct (pool_get _) as [buf pool], (try_send _ _) as [[] ch].
  - by apply same_frames_quiet.
  - etransitivity; [|apply same_frames_log]. by apply same_frames_quiet.
  - etransitivity; [|apply same_frames_log]. by apply same_frames_quiet.
Qed.
Lemma receive_frames ts d p p' : receive c ts d p = Val p' -> same_frames p p'.
Proof.
  unfold receive. case_match; [intros [= <-]; apply same_frames_log|].
  case_match; [intros [= <-]; case_match; by apply same_frames_quiet|].
  destruct (track _ _ _ _) as [s|]; [|done]. intros [= <-]. etransitivity; [|apply forward_frames]. by apply same_frames_quiet.
Qed.
Lemma receive_all_frames ts ds p p' : receive_all c ts ds p = Val p' -> same_frames p p'.
Proof.
  revert p. induction ds as [|d ds IH]; intros p; cbn [receive_all]; [by intros [= <-]|].
  destruct (receive c ts d p) as [q|] eqn:E; [|done]. intros H. etransitivity; [by eapply receive_frames|by apply IH].
Qed.

(** Frames the fill queue refuses are gone. *)
Lemma rx_accounts ts p n p' : process_rx_queue c ts p = Val (n, p') -> accounts p p'.
Proof.
  unfold process_rx_queue. destruct (rx_consume _ _) as [ds r] eqn:E. destruct (rx_law _ _ _ _ E) as (_ & Hp & _).
  case_match eqn:Hn.
  - intros [= <- <-]. apply Nat.eqb_eq, length_zero_iff_nil in Hn as ->. apply (accounts_same _ _ []); [by rewrite app_nil_r|].
    unfold owned. cbn. by rewrite Hp.
  - destruct (receive_all _ _ _ _) as [q|] eqn:Hq; [|done]. cbn [mem_bind]. destruct (fill_produce _ _) as [k r'] eqn:Ef. intros [= <- <-].
    apply receive_all_frames in Hq as (Hr & Hf & new & Hl). cbn [rings frame_pool logged set_rings] in *.
    apply fill_law in Ef as (Hk & Hh & _). rewrite Hr in Hh.
    assert (held (rings p) ≡ₚ frames (drop k ds) ++ held r')%list as Hsplit.
    { rewrite Hh, Hp, <- (take_drop k ds) at 1. rewrite map_app, <- !app_assoc. rewrite !app_assoc. f_equiv. by rewrite Permutation_app_comm. }
    exists (frames (drop k ds)), (if (k =? length ds)%nat then new else new ++ [FillQueueIncomplete k (length ds)])%list.
    assert (owned p ≡ₚ frames (drop k ds) ++ frames (frame_pool q) ++ held r')%list as Ho.
    { unfold owned. rewrite Hf, Hsplit, !app_assoc. f_equiv. apply Permutation_app_comm. }
    case_match eqn:Hkl; cbn [logged log set_rings rings frame_pool].
    + split; [done|]. split; [done|]. apply Nat.eqb_eq in Hkl as ->. by rewrite drop_all.
    + rewrite Hl, <- app_assoc. split; [done|]. split; [done|]. intros _. rewrite existsb_app. cbn. by rewrite orb_true_r.
Qed.

(** *** Writing and submitting *)

Lemma write_frames_spec fs packets r ok written r' : write_frames fs packets r = (ok, written, r') ->
  held r' = held r /\ transmitted r' = transmitted r /\ (ok = true -> frames written = frames fs) /\
  forall d, frame_of d ∉ frames fs -> contents r' d = contents r d.
Proof.
  revert packets r ok written r'. induction fs as [|f fs IH]; intros [|pkt packets] r ok written r'; cbn [write_frames]; try by intros [= <- <- <-].
  destruct (cursor_write_all f pkt r) as [[f'|] r1] eqn:E; apply write_law in E as (Hh & Ht & Hc & Ho).
  - destruct (write_frames fs packets r1) as [[ok1 w1] r2] eqn:E. apply IH in E as (Hh2 & Ht2 & Hf & Hc2). intros [= <- <- <-].
    rewrite Hh2, Ht2, Hh, Ht. split; [done|]. split; [done|]. split.
    + intros Hok. cbn. f_equal; [apply Ho|by apply Hf].
    + intros d [Hd1 Hd2]%not_elem_of_cons. rewrite Hc2 by done. by apply Hc.
  - intros [= <- <- <-]. split; [done|]. split; [done|]. split; [done|]. intros d [Hd1 Hd2]%not_elem_of_cons. by apply Hc.
Qed.

Lemma submit_owned total p n p' : submit_frames total p = (n, p') ->
  owned p' ≡ₚ (frames (tx_frame_buf p) ++ owned p)%list /\
  exists new, logged p' = (logged p ++ new)%list /\ existsb lossy new = false.
Proof.
  unfold submit_frames. destruct (tx_produce _ _) as [k r] eqn:E. apply tx_law in E as (Hk & Hh & _).
  destruct (tx_wakeup _) as [w r'] eqn:Ew. assert (held r' ≡ₚ held r) as Hw.
  { revert Ew. case_match; cbn [rings set_rings set_frame_pool]; intros Ew; by apply wakeup_law in Ew as [? _]. }
  intros [= <- <-]. split.
  - assert (forall q, rings q = r' -> frame_pool q = frame_pool (if (k <? length (tx_frame_buf p))%nat
        then set_frame_pool (frame_pool p ++ drop k (tx_frame_buf p))%list (set_rings r p) else set_rings r p) ->
      owned q ≡ₚ frames (tx_frame_buf p) ++ owned p)%list as H1.
    { intros q Hr Hq. unfold owned. rewrite Hr, Hq, Hw, Hh. rewrite <- (take_drop k (tx_frame_buf p)) at 4. rewrite map_app.
      destruct (k <? length (tx_frame_buf p))%nat eqn:Hl; cbn [rings frame_pool set_rings set_frame_pool].
      - rewrite map_app. solve_Permutation.
      - apply Nat.ltb_ge in Hl. rewrite (drop_ge _ k) by lia. solve_Permutation. }
    apply H1; unfold return_packets; destruct (0 <? _)%nat, w as [[]|]; done.
  - eexists ((match w with Some false => [TXWakeupFailed] | _ => [] end) ++ (if (0 <? total - k)%nat then [FramePoolExhausted (total - k)] else []))%list.
    unfold return_packets. destruct (k <? _)%nat, (0 <? _)%nat, w as [[]|]; cbn; by rewrite ?app_nil_r, <- ?app_assoc.
Qed.

(** One sending step of the loop. *)
Definition tx_step (p : XskPair) : XskPair :=
  let '(sent, p) := process_tx_queue c p in match sent with Some _ => p | None => log TXQueueError p end.

Lemma tx_accounts p : accounts p (tx_step p).
Proof.
  unfold tx_step, process_tx_queue. destruct (recv_batch _ _) as [packets ch]. destruct packets as [|pk packets].
  { apply (accounts_same _ _ []); [by rewrite app_nil_r|done]. }
  set (p0 := set_tx_packets _ _). destruct (comp_owned p0) as [Ho Hl]. set (p1 := (process_comp_queue c p0).2) in *.
  change (owned p0) with (owned p) in Ho. change (logged p0) with (logged p) in Hl.
  destruct (frame_pool p1) as [|f fp] eqn:Hfp.
  { apply (accounts_same _ _ [FramePoolExhausted (length (tx_packet_buf p1))]); [by rewrite <- Hl|]. by rewrite <- Ho. }
  rewrite <- Hfp. clear f fp Hfp. set (at_ := (_ - _)%nat). set (p2 := set_frame_pool _ _).
  assert (owned p1 ≡ₚ frames (tx_frame_buf p2) ++ owned p2)%list as H2.
  { unfold owned. cbn [rings frame_pool p2 set_frame_pool set_tx_frames tx_frame_buf]. rewrite <- (take_drop at_ (frame_pool p1)) at 1.
    rewrite map_app. solve_Permutation. }
  destruct (tx_frame_buf p2) as [|f fs] eqn:Hb.
  { apply (accounts_same _ _ [NoFramesAvailable]); [cbn; by rewrite Hl|]. by rewrite <- Ho, H2. }
  rewrite <- Hb in *. clear f fs Hb. destruct (write_frames _ _ _) as [[ok written] r] eqn:Ew.
  apply write_frames_spec in Ew as (Hh & _ & Hf & _). destruct ok.
  - set (p3 := set_tx_frames _ _). destruct (submit_frames _ p3) as [n p4] eqn:Es. apply submit_owned in Es as (H4 & new & Hn & Hlossy).
    apply (accounts_same _ _ new); [by rewrite Hn; cbn; rewrite Hl|]. rewrite H4, <- Ho, H2. subst p3. cbn [tx_frame_buf set_tx_frames].
    rewrite Hf by done. unfold owned. cbn [rings frame_pool set_tx_frames set_rings]. by rewrite Hh.
  - exists (frames (tx_frame_buf p2)), [TXQueueError]. split; [cbn; by rewrite Hl|]. split; [|done].
    rewrite <- Ho, H2. f_equiv. unfold owned. cbn [rings frame_pool set_tx_frames set_rings log]. by rewrite Hh.
Qed.

(** *** Runs *)

(** Completions, receiving and sending in any order, among moves of the kernel, of the
    thread at the other end of the channels and of whoever else uses the sink. *)
Inductive step : XskPair -> XskPair -> Prop :=
  | step_comp p : step p (process_comp_queue c p).2
  | step_rx ts p n p' : process_rx_queue c ts p = Val (n, p') -> step p p'
  | step_tx p : step p (tx_step p)
  | step_kernel p r : kernel_moves (rings p) r -> step p (set_rings r p)
  | step_forward_tx p ch : step p (set_forward_tx ch p)
  | step_forward_rx p ch : step p (set_forward_rx ch p)
  | step_sink p s : step p (set_sink_state s p).

Lemma step_accounts p p' : step p p' -> accounts p p'.
Proof.
  destruct 1 as [p|ts p n p' H|p|p r H| | |]; try (apply (accounts_same _ _ []); [by rewrite app_nil_r|done]).
  - destruct (comp_owned p) as [Ho Hl]. by apply (accounts_same _ _ []); [rewrite app_nil_r|].
  - by eapply rx_accounts.
  - apply tx_accounts.
  - apply (accounts_same _ _ []); [by rewrite app_nil_r|]. unfold owned. cbn. by rewrite (proj1 (kernel_law _ _ H)).
Qed.
Lemma steps_account p p' : rtc step p p' -> accounts p p'.
Proof. induction 1; [done|]. etransitivity; [by apply step_accounts|done]. Qed.

(** The loop makes these steps and no other. *)
Lemma turn_steps ts idle p idle' sleep p' : turn c ts idle p = Val (idle', sleep, p') -> rtc step p p'.
Proof.
  unfold turn. pose proof (step_comp p) as H1. destruct (process_comp_queue c p) as [n1 p1]. cbn [snd] in H1.
  destruct (process_rx_queue c ts p1) as [[n2 p2]|] eqn:E2; [|done]. cbn [mem_bind]. pose proof (step_tx p2) as H3. unfold tx_step in H3.
  destruct (process_tx_queue c p2) as [o p3]. intros [= _ _ <-]. eapply rtc_l; [exact H1|]. eapply rtc_l; [by eapply step_rx|].
  by apply rtc_once.
Qed.

(** *** Forwarding *)

Definition pool_ok (p : XskPair) : Prop := Forall (fun b => b = []) (buffers (buffer_pool p)).

Lemma pool_get_empty b : Forall (fun b => b = []) (buffers b) -> (pool_get b).1 = [] /\ Forall (fun b => b = []) (buffers (pool_get b).2).
Proof.
  intros H. unfold pool_get. destruct (last (buffers b)) as [x|] eqn:E; [|done]. split.
  - apply last_Some in E as [l E]. rewrite E, Forall_app, Forall_singleton in H. apply H.
  - by apply Forall_take.
Qed.
Lemma pool_put_empty x b : Forall (fun b => b = []) (buffers b) -> Forall (fun b => b = []) (buffers (pool_put x b)).
Proof. intros H. unfold pool_put. case_match; [|done]. apply Forall_app. by split; [|apply Forall_singleton]. Qed.
Lemma pool_put_all_empty l b : Forall (fun b => b = []) (buffers b) -> Forall (fun b => b = []) (buffers (pool_put_all l b)).
Proof. revert b. induction l as [|x l IH]; intros b H; [done|]. by apply IH, pool_put_empty. Qed.

(** The packets the pair lets through, and what its sink has seen of them. *)
Definition passes (raw : bytes) : Prop := blocked_query c raw = false.
#[export] Instance passes_dec raw : Decision (passes raw).
Proof. unfold passes. apply _. Defined.

Lemma forward_spec raw p : pool_ok p -> receiver_alive (forward_tx p) = true -> (length (queued (forward_tx p)) <= chan_cap (forward_tx p))%nat ->
  pool_ok (forward raw p) /\ rings (forward raw p) = rings p /\
  forward_tx (forward raw p) = mk_channel (take (chan_cap (forward_tx p)) (queued (forward_tx p) ++ [raw])%list) (chan_cap (forward_tx p)) true.
Proof.
  intros Hp Ha Hc. unfold forward. destruct (pool_get_empty _ Hp) as [Hb Hb']. destruct (pool_get _) as [buf pool]. cbn [fst snd] in Hb, Hb'. subst buf.
  unfold try_send. rewrite Ha. cbn [negb app]. destruct (_ <? _)%nat eqn:Hl.
  - apply Nat.ltb_lt in Hl. split; [done|]. split; [done|]. cbn. rewrite take_ge; [done|]. rewrite length_app. cbn. lia.
  - apply Nat.ltb_ge in Hl. split; [by apply pool_put_empty|]. split; [done|]. cbn. rewrite take_app_le by lia. rewrite take_ge by lia.
    destruct (forward_tx p). cbn in *. by rewrite Ha.
Qed.

Lemma track_val ts raw s : bytes_ok raw -> exists s', track c ts raw s = Val s'.
Proof.
  intros H. unfold track. destruct (sink c) as [f|]; [|by exists s]. destruct (parse_packet_at_safe raw ts H) as (r & -> & _). by eexists.
Qed.

Lemma take_app_take {A} n (l k : list A) : take n (take n l ++ k)%list = take n (l ++ k)%list.
Proof. rewrite !take_app, take_take, Nat.min_id, length_take. do 2 f_equal. lia. Qed.

Lemma receive_all_spec ts ds p : pool_ok p -> receiver_alive (forward_tx p) = true -> (length (queued (forward_tx p)) <= chan_cap (forward_tx p))%nat ->
  exists p', receive_all c ts ds p = Val p' /\ rings p' = rings p /\ pool_ok p' /\
    forward_tx p' = mk_channel (take (chan_cap (forward_tx p)) (queued (forward_tx p) ++ filter passes (map (contents (rings p)) ds))%list)
                      (chan_cap (forward_tx p)) true.
Proof.
  revert p. induction ds as [|d ds IH]; intros p Hp Ha Hc; cbn [receive_all map].
  - exists p. split; [done|]. split; [done|]. split; [done|]. rewrite filter_nil, app_nil_r, take_ge by done. destruct (forward_tx p). cbn in *. by rewrite Ha.
  - destruct (contents_law (rings p) d) as (Hlen & _ & Hok). unfold receive. rewrite Hlen, Nat.ltb_irrefl, take_ge by lia.
    set (raw := contents (rings p) d) in *. destruct (decide (passes raw)) as [Hpass|Hpass].
    + rewrite filter_cons_True by done. rewrite Hpass. destruct (track_val ts raw (sink_state p) Hok) as [s ->]. cbn [mem_bind].
      destruct (forward_spec raw (set_sink_state s p) Hp Ha Hc) as (Hp1 & Hr1 & Hf1). cbn [rings forward_tx set_sink_state] in Hr1, Hf1.
      destruct (IH _ Hp1) as (p' & Hp' & Hr' & Hpo & Hf'); [by rewrite Hf1|rewrite Hf1; cbn; rewrite length_take; lia|].
      exists p'. rewrite Hp', Hr', Hr1, Hf', Hf1. split; [done|]. split; [done|]. split; [done|]. cbn [queued chan_cap].
      rewrite Hr1, take_app_take, <- app_assoc. done.
    + rewrite filter_cons_False by done. unfold passes in Hpass. apply not_false_is_true in Hpass. rewrite Hpass. cbn [mem_bind].
      destruct (drop_monitor c); [by apply (IH (set_dns_drops (Datatypes.S (dns_drops p)) p))|by apply IH].
Qed.

(** Receiving puts the packets that pass behind those in the channel, in order, as far
    as it has room. *)
Lemma rx_forwards ts p ds r : pool_ok p -> receiver_alive (forward_tx p) = true -> (length (queued (forward_tx p)) <= chan_cap (forward_tx p))%nat ->
  rx_consume (rx_batch_size c) (rings p) = (ds, r) ->
  exists p', process_rx_queue c ts p = Val (length ds, p') /\ pool_ok p' /\
    forward_tx p' = mk_channel (take (chan_cap (forward_tx p)) (queued (forward_tx p) ++ filter passes (map (contents r) ds))%list)
                      (chan_cap (forward_tx p)) true.
Proof.
  intros Hp Ha Hc Hds. unfold process_rx_queue. rewrite Hds.
  destruct (receive_all_spec ts ds (set_rings r p) Hp Ha Hc) as (q & Hq & _ & Hpo & Hf). cbn [rings forward_tx set_rings] in Hf.
  case_match eqn:Hn.
  - apply Nat.eqb_eq, length_zero_iff_nil in Hn as ->. cbn in Hq. injection Hq as <-. by eexists.
  - rewrite Hq. cbn [mem_bind]. destruct (fill_produce _ _) as [k r']. case_match; by eexists.
Qed.

(** *** Sending *)

Definition sendable_packet (pkt : bytes) : Prop := (length pkt <= frame_capacity)%nat /\ bytes_ok pkt.

Lemma write_frames_contents fs packets r : NoDup (frames fs) -> Forall (fun d => desc_len d = 0%nat) fs ->
  Forall sendable_packet packets -> (length fs <= length packets)%nat ->
  exists written r', write_frames fs packets r = (true, written, r') /\ map (contents r') written = take (length fs) packets.
Proof.
  revert packets r. induction fs as [|f fs IH]; intros [|pkt packets] r Hnd Hz Hfit Hlen; cbn [length] in Hlen; try lia; cbn [write_frames];
    [by eexists _, _..|].
  apply NoDup_cons in Hnd as [Hnew Hnd]. apply Forall_cons in Hz as [Hz1 Hz]. apply Forall_cons in Hfit as [[Hf1 Hok] Hfit].
  destruct (cursor_write_all f pkt r) as [[f'|] r1] eqn:E; apply write_law in E as (_ & _ & _ & Ho); [|lia]. destruct Ho as [Hff Hc]. specialize (Hc Hok).
  destruct (IH packets r1 Hnd Hz Hfit) as (w & r' & Hw & Hmap); [lia|]. exists (f' :: w), r'. rewrite Hw. split; [done|].
  cbn. rewrite Hmap. f_equal. apply write_frames_spec in Hw as (_ & _ & _ & Hother). rewrite Hother by (by rewrite Hff).
  rewrite Hc. destruct (contents_law r f) as [Hl _]. rewrite Hz1 in Hl. by rewrite (nil_length_inv _ Hl).
Qed.

Lemma submit_transmits total (p : XskPair) : exists n p', submit_frames total p = (n, p') /\ (n <= length (tx_frame_buf p))%nat /\
  transmitted (rings p') = (transmitted (rings p) ++ take n (map (contents (rings p)) (tx_frame_buf p)))%list /\
  ((forall ds r, (tx_produce ds r).1 = length ds) -> n = length (tx_frame_buf p)).
Proof.
  unfold submit_frames. destruct (tx_produce _ _) as [k r] eqn:E.
  assert ((forall ds r, (tx_produce ds r).1 = length ds) -> k = length (tx_frame_buf p)) as Hall by (intros H; specialize (H (tx_frame_buf p) (rings p)); by rewrite E in H).
  apply tx_law in E as (Hk & _ & Ht & _).
  destruct (tx_wakeup _) as [w r'] eqn:Ew. eexists _, _. split; [reflexivity|]. split; [done|].
  assert (transmitted r' = transmitted r) as Hw.
  { revert Ew. case_match; cbn [rings set_rings set_frame_pool]; intros Ew; by apply wakeup_law in Ew as [_ ?]. }
  split; [|done]. rewrite firstn_map, <- Ht, <- Hw. unfold return_packets. destruct (0 <? _)%nat, w as [[]|]; done.
Qed.

(** The frames at hand are empty and each has one owner, and what is forwarded fits one. *)
Record sendable (p : XskPair) : Prop := {
  sd_distinct : NoDup (owned p);
  sd_empty : Forall (fun d => desc_len d = 0%nat) (frame_pool p);
  sd_fit : Forall sendable_packet (queued (forward_rx p)) }.

Definition ring_never_full : Prop := forall ds r, (tx_produce ds r).1 = length ds.

(** Sending hands the forwarded packets to the kernel in order and byte for byte; all of
    the batch when there is a frame for each and the ring has room. *)
Lemma tx_transmits p : sendable p ->
  let batch := (recv_batch (tx_batch_size c) (forward_rx p)).1 in
  exists n p', process_tx_queue c p = (Some n, p') /\ (n <= length batch)%nat /\
    transmitted (rings p') = (transmitted (rings p) ++ take n batch)%list /\
    ((length batch <= length (frame_pool p))%nat -> ring_never_full -> n = length batch).
Proof.
  intros [Hnd Hz Hfit] batch. unfold process_tx_queue. assert (Forall sendable_packet batch) as Hb.
  { subst batch. by apply Forall_take. }
  destruct (recv_batch _ _) as [packets ch] eqn:Er. cbn [fst] in batch. subst batch. destruct packets as [|pk packets].
  { exists 0%nat. eexists. split; [done|]. split; [cbn; lia|]. by rewrite app_nil_r. }
  set (batch := pk :: packets) in *. set (p0 := set_tx_packets _ _). destruct (comp_owned p0) as [Ho _]. change (owned p0) with (owned p) in Ho.
  assert (Forall (fun d => desc_len d = 0%nat) (frame_pool (process_comp_queue c p0).2) /\ tx_packet_buf (process_comp_queue c p0).2 = batch /\
    transmitted (rings (process_comp_queue c p0).2) = transmitted (rings p) /\ (length (frame_pool p) <= length (frame_pool (process_comp_queue c p0).2))%nat)
    as (Hz1 & Hpk & Ht1 & Hmore).
  { unfold process_comp_queue. destruct (comp_consume _ _) as [ds r] eqn:E. apply comp_law in E as (_ & _ & Hds & Ht & _).
    cbn. rewrite length_app. repeat split; [by apply Forall_app|done|lia]. }
  set (p1 := (process_comp_queue c p0).2) in *. destruct (frame_pool p1) as [|f fp] eqn:Hfp.
  { exists 0%nat. eexists. split; [done|]. split; [lia|]. rewrite app_nil_r. split; [done|]. cbn [length] in *. intros. lia. }
  rewrite <- Hfp in *. assert (0 < length (frame_pool p1))%nat as Hpos by (rewrite Hfp; cbn; lia). clear f fp Hfp.
  rewrite Hpk. set (at_ := (_ - _)%nat). set (p2 := set_frame_pool _ _).
  assert (NoDup (frames (tx_frame_buf p2))) as Hnd2.
  { rewrite <- Ho in Hnd. unfold owned in Hnd. apply NoDup_app in Hnd as (Hnd & _ & _). rewrite <- (take_drop at_ (frame_pool p1)), map_app in Hnd.
    by apply NoDup_app in Hnd as (_ & _ & ?). }
  assert (length (tx_frame_buf p2) = Nat.min (length (frame_pool p1)) (length batch)) as Hl2.
  { change (tx_frame_buf p2) with (drop at_ (frame_pool p1)). rewrite length_drop. subst at_. lia. }
  destruct (tx_frame_buf p2) as [|f fs] eqn:Hb2; [cbn in Hl2; lia|]. rewrite <- Hb2 in *. clear f fs Hb2.
  destruct (write_frames_contents (tx_frame_buf p2) batch (rings p2)) as (w & r & Hw & Hmap); [done|by apply Forall_drop|done|lia|].
  change (tx_packet_buf p2) with (tx_packet_buf p1). rewrite Hpk, Hw. set (p3 := set_tx_frames _ _).
  apply write_frames_spec in Hw as (_ & Ht3 & Hfr & _). specialize (Hfr eq_refl). apply (f_equal length) in Hfr. rewrite !length_map in Hfr.
  destruct (submit_transmits (length batch) p3) as (n & p4 & Hs & Hn & Ht4 & Hall). exists n, p4. rewrite Hs. split; [done|].
  change (tx_frame_buf p3) with w in *. change (rings p3) with r in *. rewrite Hmap, take_take in Ht4. split; [lia|]. split.
  - rewrite Ht4, Ht3. change (rings p2) with (rings p1). rewrite Ht1. do 2 f_equal. lia.
  - intros Henough Hring. rewrite (Hall Hring). lia.
Qed.
End Frames.

(** *** Starting a pair *)

Inductive XskError : Type :=
  | InvalidConfigField (field : string) | UmemSetFailed | SocketSetFailed | AfXdpQueueUnavailable (d : Direction) (queue_id : Z)
  | FillQueueInitIncomplete (submitted expected : nat) | NotLoaded | AfXdpSetFailed | ThreadSpawnFailed.

Record EbpfConfig : Type := mk_ebpf {
  ingress_ifname : string; egress_ifname : string; combined_queue_count : Z; channel_size : nat;
  fill_queue_size : Z; comp_queue_size : Z; tx_queue_size : Z; rx_queue_size : Z; frame_size : Z; frame_count : Z;
  buffer_pool_capacity : nat; xsk_completion_batch_size : nat; xsk_rx_batch_size : nat; xsk_tx_batch_size : nat }.

(** The crate's constructors: whether a size is accepted, the packet memory with its
    frames, and the socket on an interface's queue, which comes without fill and
    completion rings when another socket of the memory has them. *)
Class XskSetup (Desc R U : Type) : Type := {
  queue_size_new : Z -> bool;
  frame_size_new : Z -> bool;
  umem_config_build : Z -> Z -> Z -> bool;
  umem_new : Z -> Z -> Z -> Z -> option (U * list Desc);
  socket_new : Z -> Z -> U -> string -> Z -> option (option R) }.
Class XskSetupLaws (Desc R U : Type) `{!XskRings Desc R} `{!XskLaws Desc R} `{!XskSetup Desc R U} : Prop := {
  umem_law fill comp size count u ds : umem_new fill comp size count = Some (u, ds) ->
    NoDup (map frame_of ds) /\ Forall (fun d : Desc => desc_len d = 0%nat) ds;
  socket_law tx rx u ifname queue_id (r : R) : socket_new tx rx u ifname queue_id = Some (Some r) -> held r = [] /\ transmitted r = [] }.

Definition require {E : Type} (b : bool) (e : E) : result E unit := if b then Ok tt else Err e.
Definition has_nul (s : string) : bool := existsb (Ascii.eqb "000"%char) (list_ascii_of_string s).

Section Start.
Context {Desc R U : Type} `{!XskRings Desc R} `{!XskSetup Desc R U} {S : Type}.

(** [XskPair::new]: half of the frames, at most a fill ring full, go to the kernel; the
    rest is the pool.  The new pair has its rings and its pool. *)
Definition xsk_new (config : EbpfConfig) (queue_id : Z) (rx_ifname : string) (direction : Direction)
    (sink : option (UserPacket -> bool -> S -> S)) (dns : option (bytes -> bool)) (monitor : bool) :
    result XskError (PairConf S * R * list Desc) :=
  let ifname_field := match direction with Ingress => "ebpf.ingress_ifname" | Egress => "ebpf.egress_ifname" end%string in
  let? _ := require (negb (has_nul rx_ifname)) (InvalidConfigField ifname_field) in
  let? _ := require (queue_size_new (fill_queue_size config)) (InvalidConfigField "ebpf.fill_queue_size") in
  let? _ := require (queue_size_new (comp_queue_size config)) (InvalidConfigField "ebpf.comp_queue_size") in
  let? _ := require (queue_size_new (tx_queue_size config)) (InvalidConfigField "ebpf.tx_queue_size") in
  let? _ := require (queue_size_new (rx_queue_size config)) (InvalidConfigField "ebpf.rx_queue_size") in
  let? _ := require (frame_size_new (frame_size config)) (InvalidConfigField "ebpf.frame_size") in
  let? _ := require (negb (frame_count config =? 0)) (InvalidConfigField "ebpf.frame_count") in
  let? _ := require (umem_config_build (fill_queue_size config) (comp_queue_size config) (frame_size config)) UmemSetFailed in
  match umem_new (fill_queue_size config) (comp_queue_size config) (frame_size config) (frame_count config) with
  | None => Err UmemSetFailed
  | Some (umem, frame_descs) =>
      match socket_new (tx_queue_size config) (rx_queue_size config) umem rx_ifname queue_id with
      | None => Err SocketSetFailed
      | Some None => Err (AfXdpQueueUnavailable direction queue_id)
      | Some (Some r) =>
          let fill_frames_count := Nat.min (length frame_descs / 2) (Z.to_nat (fill_queue_size config)) in
          let fill_frames := take fill_frames_count frame_descs in
          let '(submitted, r) := fill_produce fill_frames r in
          if (submitted =? length fill_frames)%nat then
            Ok (mk_conf direction sink dns monitor (xsk_completion_batch_size config) (xsk_rx_batch_size config)
                  (xsk_tx_batch_size config), r, drop fill_frames_count frame_descs)
          else Err (FillQueueInitIncomplete submitted (length fill_frames))
      end
  end.

(** The pair as its thread starts. *)
Definition started (config : EbpfConfig) (r : R) (pool : list Desc) (tx rx : channel) (s : S) : XskPair Desc R S :=
  mk_pair r pool [] [] (pool_new (buffer_pool_capacity config)) tx rx s 0 [].

(** ** The threads of all queues *)

(** The two channels of a queue; [bounded(channel_size)] makes one. *)
Inductive chan_name : Type := IngressToEgress (queue_id : Z) | EgressToIngress (queue_id : Z).
Record Thread : Type := mk_thread {
  th_queue : Z; th_direction : Direction; th_conf : PairConf S; th_rings : R; th_pool : list Desc;
  th_sends : chan_name; th_receives : chan_name }.

(** The two maps of sockets and what has been started; [None] is a map that is not
    loaded. *)
Record XskManager : Type := mk_manager {
  ingress_xsk_map : option (gmap Z Z); egress_xsk_map : option (gmap Z Z); threads : list Thread; queues_started : list Z }.
Definition unavailable_manager : XskManager := mk_manager None None [] [].

(** The socket's descriptor, whether the kernel takes it into the map, and whether a
    thread can be spawned. *)
Context (rx_fd : R -> Z) (map_takes : Direction -> Z -> bool) (spawns : Direction -> Z -> bool).

Definition map_set (d : Direction) (queue_id fd : Z) (m : gmap Z Z) : result XskError (gmap Z Z) :=
  if map_takes d queue_id then Ok (<[queue_id := fd]> m) else Err AfXdpSetFailed.

Definition run_thread (t : Thread) : sm XskManager XskError unit :=
  if spawns (th_direction t) (th_queue t)
  then sm_modify (fun w => mk_manager (ingress_xsk_map w) (egress_xsk_map w) (threads w ++ [t])%list (queues_started w))
  else sm_fail ThreadSpawnFailed.

Definition run_queue (network : EbpfConfig) (sinks : option (Z -> option (UserPacket -> bool -> S -> S))) (dns : option (bytes -> bool))
    (monitor : bool) (queue_id : Z) : sm XskManager XskError unit :=
  let sink := match sinks with Some f => f queue_id | None => None end in
  do! (ic, ir, ip) := sm_lift (xsk_new network queue_id (ingress_ifname network) Ingress sink dns monitor) in
  do! (ec, er, ep) := sm_lift (xsk_new network queue_id (egress_ifname network) Egress sink None monitor) in
  do! w := sm_get in
  match ingress_xsk_map w, egress_xsk_map w with
  | Some im, Some em =>
      do! im := sm_lift (map_set Ingress queue_id (rx_fd ir) im) in
      run! sm_put (mk_manager (Some im) (egress_xsk_map w) (threads w) (queues_started w)) in
      do! em := sm_lift (map_set Egress queue_id (rx_fd er) em) in
      run! sm_put (mk_manager (Some im) (Some em) (threads w) (queues_started w)) in
      run! run_thread (mk_thread queue_id Ingress ic ir ip (IngressToEgress queue_id) (EgressToIngress queue_id)) in
      run! run_thread (mk_thread queue_id Egress ec er ep (EgressToIngress queue_id) (IngressToEgress queue_id)) in
      sm_modify (fun w => mk_manager (ingress_xsk_map w) (egress_xsk_map w) (threads w) (queues_started w ++ [queue_id])%list)
  | _, _ => sm_fail NotLoaded
  end.

Definition manager_run (network : EbpfConfig) (sinks : option (Z -> option (UserPacket -> bool -> S -> S))) (dns : option (bytes -> bool))
    (monitor : bool) : sm XskManager XskError unit := fun w =>
  match ingress_xsk_map w, egress_xsk_map w with
  | Some _, Some _ =>
      sm_iter (run_queue network sinks dns monitor) (map Z.of_nat (seq 0 (Z.to_nat (combined_queue_count network)))) w
  | _, _ => (Ok tt, w)
  end.

(** What a run that succeeds has started: for each queue in order an ingress thread that
    filters DNS queries and an egress thread that does not, each sending to the other. *)
Definition crossed (dns : option (bytes -> bool)) (queue_id : Z) (l : list Thread) : Prop :=
  exists i e, l = [i; e] /\ th_queue i = queue_id /\ th_queue e = queue_id /\ th_direction i = Ingress /\ th_direction e = Egress /\
    th_sends i = th_receives e /\ th_sends e = th_receives i /\ th_sends i <> th_sends e /\
    dns_filter (th_conf i) = dns /\ dns_filter (th_conf e) = None.

Lemma xsk_new_dns config q ifname d sk dns monitor pc r pool :
  xsk_new config q ifname d sk dns monitor = Ok (pc, r, pool) -> dns_filter pc = dns.
Proof.
  unfold xsk_new. intros H. repeat (apply res_bind_inv in H as (? & _ & H)). destruct (umem_new _ _ _ _) as [[u ds]|]; [|done].
  destruct (socket_new _ _ _ _ _) as [[r0|]|]; [|done..]. destruct (fill_produce _ _) as [k r1]. case_match; [|done]. by injection H as <- <- <-.
Qed.

Lemma run_queue_crosses network sinks dns monitor q w w' : run_queue network sinks dns monitor q w = (Ok tt, w') ->
  exists l, threads w' = (threads w ++ l)%list /\ crossed dns q l.
Proof.
  unfold run_queue, sm_bind, sm_lift, sm_get. destruct (xsk_new _ _ _ Ingress _ _ _) as [[[ic ir] ip]|] eqn:Ei; [|done].
  destruct (xsk_new _ _ _ Egress _ _ _) as [[[ec er] ep]|] eqn:Ee; [|done]. apply xsk_new_dns in Ei, Ee.
  destruct (ingress_xsk_map w) as [im|]; [|done]. destruct (egress_xsk_map w) as [em|]; [|done].
  destruct (map_set Ingress _ _ _) as [im'|]; [|done]. cbn [sm_put]. destruct (map_set Egress _ _ _) as [em'|]; [|done].
  unfold run_thread. cbn [th_direction th_queue]. destruct (spawns Ingress q); [|done]. cbn [sm_modify]. destruct (spawns Egress q); [|done].
  cbn. intros [= <-]. eexists. split; [by rewrite <- app_assoc|]. by eexists _, _.
Qed.

Lemma manager_run_crosses network sinks dns monitor w w' : threads w = [] -> ingress_xsk_map w <> None -> egress_xsk_map w <> None ->
  manager_run network sinks dns monitor w = (Ok tt, w') ->
  exists ls, threads w' = concat ls /\ Forall2 (crossed dns) (map Z.of_nat (seq 0 (Z.to_nat (combined_queue_count network)))) ls.
Proof.
  intros Hw Hi He. unfold manager_run. destruct (ingress_xsk_map w); [|done]. destruct (egress_xsk_map w); [|done]. clear Hi He.
  enough (forall l w, sm_iter (run_queue network sinks dns monitor) l w = (Ok tt, w') ->
    exists ls, threads w' = (threads w ++ concat ls)%list /\ Forall2 (crossed dns) l ls) as H.
  { intros Hr. destruct (H _ _ Hr) as (ls & Hl & Hf). rewrite Hw in Hl. by exists ls. }
  clear w Hw. induction l as [|q l IH]; intros w; cbn [sm_iter].
  - intros [= <-]. exists []. by rewrite app_nil_r.
  - unfold sm_bind. destruct (run_queue _ _ _ _ q w) as [[[]|] w1] eqn:Eq; [|done]. intros Hr.
    apply run_queue_crosses in Eq as (t & Ht & Hc). destruct (IH _ Hr) as (ls & Hl & Hf). exists (t :: ls). rewrite Hl, Ht, <- app_assoc. by split; [|constructor].
Qed.
End Start.

(** ** Frames and packets *)

Section Path.
Context {Desc R U : Type} `{!XskRings Desc R} `{!XskLaws Desc R} `{!XskSetup Desc R U} `{!XskSetupLaws Desc R U} {S : Type}.

Lemma started_owned config q ifname d sk dns mon (pc : PairConf S) r pool tx rx (s : S) :
  xsk_new config q ifname d sk dns mon = Ok (pc, r, pool) ->
  exists u ds, umem_new (fill_queue_size config) (comp_queue_size config) (frame_size config) (frame_count config) = Some (u, ds) /\
    owned (started config r pool tx rx s) ≡ₚ map frame_of ds.
Proof.
  unfold xsk_new. intros H. repeat (apply res_bind_inv in H as (? & _ & H)). destruct (umem_new _ _ _ _) as [[u ds]|]; [|done].
  destruct (socket_new _ _ _ _ _) as [[r0|]|] eqn:Es; [|done..]. apply socket_law in Es as [Hheld _].
  destruct (fill_produce _ r0) as [k r1] eqn:Ef. case_match eqn:Hk; [|done]. injection H as <- <- <-. apply Nat.eqb_eq in Hk as ->.
  apply fill_law in Ef as (_ & Hh & _). exists u, ds. split; [done|]. unfold owned, started. cbn [frame_pool rings].
  rewrite Hh, Hheld, firstn_all, app_nil_r. set (n := Nat.min _ _). rewrite <- (take_drop n ds) at 3. rewrite map_app. apply Permutation_app_comm.
Qed.

(** C26: Whatever the kernel, the other threads and the loop do, and in whatever order,
    every frame of the packet memory has at most one owner, the pair's pool or the kernel,
    no frame is made up, and none is missing unless the log says that the fill queue
    refused frames or that a packet could not be written. *)
Theorem frames_never_shared config queue_id ifname d sk dns mon (pc : PairConf S) r pool tx rx (s : S) (p : XskPair Desc R S) :
  xsk_new config queue_id ifname d sk dns mon = Ok (pc, r, pool) ->
  rtc (step pc) (started config r pool tx rx s) p ->
  exists u ds, umem_new (fill_queue_size config) (comp_queue_size config) (frame_size config) (frame_count config) = Some (u, ds) /\
    NoDup (owned p) /\ owned p ⊆+ map frame_of ds /\
    (existsb lossy (logged p) = false -> owned p ≡ₚ map frame_of ds).
Proof.
  intros Hnew Hsteps. destruct (started_owned _ _ _ _ _ _ _ _ _ _ tx rx s Hnew) as (u & ds & Hu & Ho). exists u, ds. split; [done|].
  destruct (steps_account _ _ _ Hsteps) as (lost & new & Hl & Hp & Hlossy). rewrite Ho in Hp. destruct (umem_law _ _ _ _ _ _ Hu) as [Hnd _].
  rewrite Hp in Hnd. split; [by apply NoDup_app in Hnd as (_ & _ & ?)|]. split; [rewrite Hp; by apply submseteq_inserts_l|].
  intros Hq. rewrite Hp. destruct lost; [done|]. specialize (Hlossy ltac:(done)). rewrite Hl in Hq. cbn in Hq. congruence.
Qed.

(** C28: From an empty channel between two interfaces, and with distinct frames in the
    sender's pool that hold nothing (one a full ring has refused does:
    [refused_packet_is_prepended]), a turn of the receiver and one of the sender hand over
    a prefix of what the filter lets through, up to the room of the channel and the size
    of a batch, in order and byte for byte; all of it when there is a frame for each
    packet and the ring has room.  A packet the filter blocks is not sent. *)
Theorem forwarded_in_order (c d : PairConf S) ts (p q : XskPair Desc R S) ds r :
  pool_ok p -> receiver_alive (forward_tx p) = true -> queued (forward_tx p) = [] ->
  rx_consume (rx_batch_size c) (rings p) = (ds, r) ->
  NoDup (owned q) -> Forall (fun f => desc_len f = 0%nat) (frame_pool q) ->
  let batch := take (Nat.max 1 (tx_batch_size d)) (take (chan_cap (forward_tx p)) (filter (passes c) (map (contents r) ds))) in
  exists p' n q', process_rx_queue c ts p = Val (length ds, p') /\
    process_tx_queue d (set_forward_rx (forward_tx p') q) = (Some n, q') /\
    transmitted (rings q') = (transmitted (rings q) ++ take n batch)%list /\ (n <= length batch)%nat /\
    ((length batch <= length (frame_pool q))%nat -> ring_never_full -> n = length batch).
Proof.
  intros Hpo Ha Hempty Hds Hnd Hz batch. assert (length (queued (forward_tx p)) <= chan_cap (forward_tx p))%nat as Hc by (rewrite Hempty; cbn; lia).
  destruct (rx_forwards c ts p ds r Hpo Ha Hc Hds) as (p' & Hp' & _ & Hf). rewrite Hempty in Hf. cbn [app] in Hf.
  assert (sendable (set_forward_rx (forward_tx p') q)) as Hs.
  { split; [done|done|]. cbn [forward_rx set_forward_rx]. rewrite Hf. cbn [queued]. apply Forall_take, Forall_forall. intros x [_ Hx]%list_elem_of_filter.
    apply list_elem_of_fmap in Hx as (f & -> & _). destruct (contents_law r f) as (Hlen & Hcap & Hok). split; [by rewrite Hlen|done]. }
  destruct (tx_transmits d _ Hs) as (n & q' & Hq & Hn & Ht & Hall). cbn [forward_rx set_forward_rx rings frame_pool] in *. rewrite Hf in Hn, Ht, Hall.
  exists p', n, q'. by repeat split.
Qed.
End Path.

(** ** A concrete instance *)

Module Ring.
Definition capacity : nat := 2048.
(** A frame's address and the length of what it holds. *)
Definition desc : Type := (Z * nat)%type.
Record ring : Type := mk_ring {
  fill : list desc; rx : list desc; tx : list desc; comp : list desc; tx_room : nat; memory : gmap Z bytes; sent : list bytes }.

Definition dlen (d : desc) : nat := Nat.min d.2 capacity.
Definition data (m : gmap Z bytes) (d : desc) : bytes :=
  map (fun b => b mod 256) (take (dlen d) (default [] (m !! d.1) ++ replicate (dlen d) 0)%list).

#[global] Instance rings_ops : XskRings desc ring := {|
  desc_len := dlen;
  contents r d := data (memory r) d;
  comp_consume n r := (map (fun d => (d.1, 0%nat)) (take n (comp r)), mk_ring (fill r) (rx r) (tx r) (drop n (comp r)) (tx_room r) (memory r) (sent r));
  rx_consume n r := (take n (rx r), mk_ring (fill r) (drop n (rx r)) (tx r) (comp r) (tx_room r) (memory r) (sent r));
  fill_produce ds r := (length ds, mk_ring (fill r ++ ds)%list (rx r) (tx r) (comp r) (tx_room r) (memory r) (sent r));
  tx_produce ds r :=
    if (length (tx r) + length ds <=? tx_room r)%nat
    then (length ds, mk_ring (fill r) (rx r) (tx r ++ ds)%list (comp r) (tx_room r) (memory r) (sent r ++ map (data (memory r)) ds)%list)
    else (0%nat, r);
  tx_wakeup r := (None, r);
  cursor_write_all d packet r :=
    if (dlen d + length packet <=? capacity)%nat
    then (Some (d.1, (dlen d + length packet)%nat),
          mk_ring (fill r) (rx r) (tx r) (comp r) (tx_room r) (<[d.1 := (data (memory r) d ++ packet)%list]> (memory r)) (sent r))
    else (None, r) |}.

(** A packet that arrives takes a frame of the fill ring, one that is sent gives its
    frame to the completion ring. *)
Inductive moves : ring -> ring -> Prop :=
  | arrive a n n' pkt fs xs ts cs room m out : moves (mk_ring ((a, n) :: fs) xs ts cs room m out) (mk_ring fs (xs ++ [(a, n')])%list ts cs room (<[a := pkt]> m) out)
  | leave d fs xs ts cs room m out : moves (mk_ring fs xs (d :: ts) cs room m out) (mk_ring fs xs ts (cs ++ [d])%list room m out).

Lemma data_length m d : length (data m d) = dlen d.
Proof. unfold data. rewrite length_map, length_take, length_app, length_replicate. lia. Qed.
Lemma data_ok m d : bytes_ok (data m d).
Proof. apply Forall_map, Forall_forall. intros b _. cbn. unfold byte_ok, in_width, pow2. apply Z.mod_pos_bound. lia. Qed.
Lemma mod_ok (l : bytes) : bytes_ok l -> map (fun b => b mod 256) l = l.
Proof. induction 1 as [|b l Hb _ IH]; [done|]. cbn. rewrite IH. f_equal. unfold byte_ok, in_width, pow2 in Hb. apply Z.mod_small. lia. Qed.

Lemma data_written m a n (l : bytes) k : bytes_ok l -> n = length (data m (a, k) ++ l)%list -> (n <= capacity)%nat ->
  data (<[a := (data m (a, k) ++ l)%list]> m) (a, n) = (data m (a, k) ++ l)%list.
Proof.
  intros Hok -> Hc. assert (bytes_ok (data m (a, k) ++ l)%list) as Hb by (apply Forall_app; split; [apply data_ok|done]).
  revert Hb Hc. generalize (data m (a, k) ++ l)%list. intros w Hb Hc. unfold data, dlen. cbn [fst snd].
  rewrite lookup_insert_eq, Nat.min_l by done. cbn [default from_option id]. rewrite take_app_length. by apply mod_ok.
Qed.

#[global] Program Instance rings_laws : XskLaws desc ring := {|
  frame_of := fst;
  held r := map fst (fill r ++ rx r ++ tx r ++ comp r)%list;
  transmitted := sent;
  frame_capacity := capacity;
  kernel_moves := moves |}.
Next Obligation.
  intros r r' []; cbn; rewrite !map_app; cbn; (split; [|done]).
  - rewrite <- app_assoc. cbn. by rewrite app_assoc, <- Permutation_middle, <- app_assoc.
  - rewrite map_app. do 2 f_equiv. rewrite app_assoc. symmetry. apply Permutation_cons_append.
Qed.
Next Obligation. intros r d. cbn. rewrite data_length. split; [done|]. split; [apply Nat.le_min_r|apply data_ok]. Qed.
Next Obligation.
  intros n r ds r' [= <- <-]. cbn. rewrite length_map, length_take, map_map. cbn. repeat split; [lia| |by apply Forall_map, Forall_forall].
  rewrite <- (take_drop n (comp r)) at 1. rewrite !map_app. change (map (fun x : desc => x.1)) with (map (@fst Z nat)). solve_Permutation.
Qed.
Next Obligation.
  intros n r ds r' [= <- <-]. cbn. rewrite length_take. repeat split; [lia|].
  rewrite <- (take_drop n (rx r)) at 1. rewrite !map_app. solve_Permutation.
Qed.
Next Obligation. intros ds r n r' [= <- <-]. cbn. rewrite firstn_all, !map_app. repeat split; [done|]. solve_Permutation. Qed.
Next Obligation.
  intros ds r n r'. cbn. case_match; intros [= <- <-]; cbn; repeat split; try lia.
  - rewrite firstn_all, !map_app. solve_Permutation.
  - by rewrite firstn_all.
  - done.
  - by rewrite take_0, app_nil_r.
Qed.
Next Obligation. by intros r o r' [= <- <-]. Qed.
Next Obligation.
  intros d pkt r o r'. cbn. case_match eqn:Hc; intros [= <- <-]; cbn; [|apply Nat.leb_gt in Hc; by repeat split].
  apply Nat.leb_le in Hc. repeat split.
  - intros d' Hd. unfold data. by rewrite lookup_insert_ne by done.
  - destruct d as [a k]. intros Hok. apply (data_written (memory r) a (dlen (a, k) + length pkt)%nat pkt k); [done| |done]. by rewrite length_app, data_length.
Qed.

(** Sizes are powers of two; frame [i] lies at [i] times the frame size. *)
Definition power_of_two (x : Z) : bool := (0 <? x) && (Z.land x (x - 1) =? 0).
#[global] Instance setup_ops : XskSetup desc ring unit := {|
  queue_size_new := power_of_two;
  frame_size_new x := power_of_two x && (2048 <=? x);
  umem_config_build _ _ _ := true;
  umem_new _ _ size count := if 0 <? size then Some (tt, map (fun i => (size * Z.of_nat i, 0%nat)) (seq 0 (Z.to_nat count))) else None;
  socket_new txs _ _ _ _ := Some (Some (mk_ring [] [] [] [] (Z.to_nat txs) ∅ [])) |}.
#[global] Instance setup_laws : XskSetupLaws desc ring unit.
Proof.
  split.
  - intros f k size count [] ds. cbn. case_match eqn:Hs; [|done]. apply Z.ltb_lt in Hs. intros [= <-]. split; [|by apply Forall_map, Forall_forall].
    rewrite map_map. cbn. apply NoDup_fmap_2; [|apply NoDup_seq]. intros a b Hab. nia.
  - by intros txs rxs u ifname q r [= <-].
Qed.
End Ring.

(** ** Runs of the concrete instance *)

Definition small_config : EbpfConfig :=
  mk_ebpf "eth0" "eth1" 1 4 2 4 1 4 2048 4 4 4 4 4.
Definition starts_with (b : Z) (raw : bytes) : bool := match raw with x :: _ => x =? b | [] => false end.
Definition small_conf (d : Direction) (dns : option (bytes -> bool)) : PairConf unit := mk_conf d None dns true 4 4 4.
Definition small_pool : list Ring.desc := [(4096, 0%nat); (6144, 0%nat)].
Definition small_rings : Ring.ring := Ring.mk_ring [(0, 0%nat); (2048, 0%nat)] [] [] [] 1 ∅ [].
Definition empty_channel : channel := mk_channel [] 4 true.
Definition small_pair : XskPair Ring.desc Ring.ring unit := started small_config small_rings small_pool empty_channel empty_channel tt.
Lemma small_new d dns : xsk_new (U := unit) small_config 0 "eth0" d (None : option (UserPacket -> bool -> unit -> unit)) dns true =
  Ok (small_conf d dns, small_rings, small_pool).
Proof. by vm_compute. Qed.
(** What the kernel does: a packet arrives on the next frame of the fill ring, or the
    first frame of the ring to send is sent. *)
Definition arrives (pkt : bytes) (p : XskPair Ring.desc Ring.ring unit) : XskPair Ring.desc Ring.ring unit :=
  let r := rings p in
  match Ring.fill r with
  | (a, _) :: fs => set_rings (Ring.mk_ring fs (Ring.rx r ++ [(a, length pkt)])%list (Ring.tx r) (Ring.comp r) (Ring.tx_room r)
                      (<[a := pkt]> (Ring.memory r)) (Ring.sent r)) p
  | [] => p
  end.
Definition leaves (p : XskPair Ring.desc Ring.ring unit) : XskPair Ring.desc Ring.ring unit :=
  let r := rings p in
  match Ring.tx r with
  | d :: ts => set_rings (Ring.mk_ring (Ring.fill r) (Ring.rx r) ts (Ring.comp r ++ [d])%list (Ring.tx_room r) (Ring.memory r) (Ring.sent r)) p
  | [] => p
  end.
Definition offered (l : list bytes) (p : XskPair Ring.desc Ring.ring unit) : XskPair Ring.desc Ring.ring unit :=
  set_forward_rx (mk_channel l 4 true) p.
Definition after_turn (c : PairConf unit) (p : XskPair Ring.desc Ring.ring unit) : XskPair Ring.desc Ring.ring unit :=
  match turn c 0 0 p with Val (_, _, p) => p | Fault => p end.

Lemma arrives_steps c pkt p : rtc (step c) p (arrives pkt p).
Proof.
  unfold arrives. destruct (Ring.fill (rings p)) as [|[a n] fs] eqn:E; [done|]. apply rtc_once, step_kernel.
  destruct (rings p). cbn in *. subst. apply Ring.arrive.
Qed.
Lemma after_turn_steps c p : rtc (step c) p (after_turn c p).
Proof. unfold after_turn. destruct (turn c 0 0 p) as [[[i s] p']|] eqn:E; [|done]. by eapply turn_steps. Qed.

(** Two packets come in and are forwarded, one is to be sent and goes. *)
Definition ran (c : PairConf unit) (p : XskPair Ring.desc Ring.ring unit) : XskPair Ring.desc Ring.ring unit :=
  leaves (after_turn c (offered [[7; 8]] (arrives [2; 2] (arrives [1; 1] p)))).

Lemma ran_steps c : rtc (step c) small_pair (ran c small_pair).
Proof.
  etransitivity; [apply (arrives_steps c [1; 1])|]. etransitivity; [apply (arrives_steps c [2; 2])|].
  eapply rtc_l; [apply (step_forward_rx c _ (mk_channel [[7; 8]] 4 true))|]. etransitivity; [apply after_turn_steps|].
  unfold ran, leaves. destruct (Ring.tx _) as [|d ts] eqn:Et; [done|]. apply rtc_once, step_kernel.
  unfold offered in Et |- *. destruct (rings (after_turn _ _)). cbn in *. subst. apply Ring.leave.
Qed.

Lemma frames_never_shared_witness :
  let c := small_conf Ingress (Some (starts_with 2)) in
  queued (forward_tx (ran c small_pair)) = [[1; 1]] /\ Ring.sent (rings (ran c small_pair)) = [[7; 8]] /\
  existsb lossy (logged (ran c small_pair)) = false /\
  exists u ds, @umem_new _ _ _ Ring.setup_ops 2 4 2048 4 = Some (u, ds) /\
    NoDup (owned (ran c small_pair)) /\ owned (ran c small_pair) ⊆+ map frame_of ds /\
    (existsb lossy (logged (ran c small_pair)) = false -> owned (ran c small_pair) ≡ₚ map frame_of ds).
Proof.
  intros c. split; [by vm_compute|]. split; [by vm_compute|]. split; [by vm_compute|].
  apply (frames_never_shared (U := unit) small_config 0 "eth0" Ingress None (Some (starts_with 2)) true c small_rings small_pool
    empty_channel empty_channel tt); [apply small_new|apply ran_steps].
Defined.

(** The packets of one interface that pass are sent on the other. *)
Lemma forwarded_in_order_witness :
  let c := small_conf Ingress (Some (starts_with 2)) in let d := small_conf Egress None in
  exists p' n q', process_rx_queue c 0 (arrives [2; 2] (arrives [1; 1] small_pair)) = Val (2%nat, p') /\
    process_tx_queue d (set_forward_rx (forward_tx p') small_pair) = (Some n, q') /\
    Ring.sent (rings q') = take n [[1; 1]] /\ (n <= 1)%nat.
Proof.
  intros c d. set (p := arrives [2; 2] (arrives [1; 1] small_pair)).
  edestruct (forwarded_in_order c d 0 p small_pair (Ring.rx (rings p))) as (p' & n & q' & H1 & H2 & H3 & H4 & _).
  - by vm_compute; repeat constructor.
  - done.
  - done.
  - reflexivity.
  - apply (bool_decide_unpack _). by vm_compute.
  - by repeat constructor.
  - exists p', n, q'. split; [exact H1|]. split; [exact H2|]. split; [exact H3|exact H4].
Defined.

(** A frame whose packet the ring refuses goes back to the pool with the packet still in
    it, and the next packet that gets the frame is sent behind that one. *)
Lemma refused_packet_is_prepended :
  let c := small_conf Egress None in let refused := after_turn c (offered [[1; 1]; [2; 2]] small_pair) in
  Ring.sent (rings refused) = [] /\ Ring.sent (rings (after_turn c (offered [[9]] refused))) = [[2; 2; 9]].
Proof. by vm_compute. Qed.
