(* ===== verification/Geo.v ===== *)
(** * Blocking countries

    The country blocks of the control plane: the index of a GeoIP database and the two
    longest-prefix tries of the kernel (adapter/ebpf/geo_block.rs), the table of blocked
    countries (adapter/persistence/enforcement.rs) and the service that keeps both
    together (core/data_plane/acl_service.rs), up to what the kernel program of [Xdp]
    drops.  The database file is read by a crate: [GeoReader] is what it gives. *)

From Stdlib Require Import ZArith Lia List Ascii String.
From stdpp Require Import base list gmap strings.
From S2P Require Import ProtoFilter Prelude Abi RStr IpAddr Tables Parsing Xdp AclMap.

Local Open Scope string_scope.
Local Open Scope Z_scope.

(** [str::to_uppercase] maps by Unicode tables; on ASCII it is the ASCII map. *)
Definition to_ascii_upper (c : ascii) : ascii :=
  let n := nat_of_ascii c in if (97 <=? n)%nat && (n <=? 122)%nat then ascii_of_nat (n - 32) else c.
Fixpoint to_ascii_uppercase (s : string) : string :=
  match s with EmptyString => EmptyString | String c s => String (to_ascii_upper c) (to_ascii_uppercase s) end.
Class Uppercase : Type := to_uppercase : string -> string.
Class UppercaseLaws (U : Uppercase) : Prop :=
  law_uppercase : forall s, all_bytes (fun c => code c <? 128) s = true -> to_uppercase s = to_ascii_uppercase s.
#[export] Instance ascii_uppercase : Uppercase := to_ascii_uppercase.
#[export] Instance ascii_uppercase_laws : UppercaseLaws ascii_uppercase.
Proof. done. Qed.

Inductive GeoError : Type := GeoNotLoaded | OpenFileFailed | InvalidCountryCode (code : string) | GeoDatabase.

(** ** The index *)

Inductive IpNetwork : Type := Net4 (ip prefix : Z) | Net6 (ip prefix : Z).
(** One entry of an iteration over the database: an error, or an entry whose network and
    whose record may fail to decode; a record without a country code has [None]. *)
Record GeoEntry : Type := mk_entry { ge_network : option IpNetwork; ge_record : option (option (option string)) }.
(** [within] the whole address space of each family, where that does not fail. *)
Record GeoReader : Type := mk_reader { within_v4 : option (list (option GeoEntry)); within_v6 : option (list (option GeoEntry)) }.

Record GeoIndex : Type := mk_index { gi_v4 : gmap string (list (Z * Z)); gi_v6 : gmap string (list (Z * Z)) }.

Abbreviation trie := (gmap (Z * Z) Z).

Section Geo.
Context `{U : Uppercase}.

(** The network and the country of an entry, where it has both. *)
Definition entry_country (e : option GeoEntry) : option (IpNetwork * string) :=
  let! lookup := e else None in
  let! network := ge_network lookup else None in
  let! decoded := ge_record lookup else None in
  let! record := decoded else None in
  let! code := record else None in
  Some (network, to_uppercase code).

(** [entry(code).or_default().push(prefix)] *)
Definition index_push (code : string) (prefix : Z * Z) (m : gmap string (list (Z * Z))) : gmap string (list (Z * Z)) :=
  <[code := (default [] (m !! code) ++ [prefix])%list]> m.

Definition index_entries (pick : IpNetwork -> option (Z * Z)) (entries : option (list (option GeoEntry))) : gmap string (list (Z * Z)) :=
  fold_left (fun m e =>
    match entry_country e with
    | Some (network, code) => match pick network with Some prefix => index_push code prefix m | None => m end
    | None => m
    end) (default [] entries) ∅.

(** The address in network byte order, and the prefix length. *)
Definition pick_v4 (n : IpNetwork) : option (Z * Z) := match n with Net4 ip prefix => Some (to_be 4 ip, prefix) | Net6 _ _ => None end.
Definition pick_v6 (n : IpNetwork) : option (Z * Z) := match n with Net6 ip prefix => Some (to_be 16 ip, prefix) | Net4 _ _ => None end.
Definition build_index (r : GeoReader) : GeoIndex := mk_index (index_entries pick_v4 (within_v4 r)) (index_entries pick_v6 (within_v6 r)).

(** ** The tries *)

(** A trie by address and prefix length; the kernel refuses a new key when it holds
    [max_entries]. *)
Definition trie_insert (max_entries : Z) (t : trie) (key : Z * Z) : option trie :=
  if bool_decide (t !! key = None) && (max_entries <=? Z.of_nat (size t)) then None else Some (<[key := 1]> t).

(** The bits of a network: the first [len] of the address in network order. *)
Definition prefix_bits (width_bytes : nat) (len data : Z) : Z := Z.shiftr (to_be width_bytes data) (8 * Z.of_nat width_bytes - len).
Definition prefix_matches (width_bytes : nat) (len data : Z) (key : Z * Z) : Prop :=
  key.2 <= len /\ prefix_bits width_bytes key.2 key.1 = prefix_bits width_bytes key.2 data.
#[export] Instance prefix_matches_dec w len data key : Decision (prefix_matches w len data key).
Proof. unfold prefix_matches. apply _. Defined.
(** [LpmTrie::get]: the value of the longest key that is a prefix of the address. *)
Definition longer (best : option ((Z * Z) * Z)) (e : (Z * Z) * Z) : option ((Z * Z) * Z) :=
  match best with Some b => if e.1.2 <=? b.1.2 then Some b else Some e | None => Some e end.
Definition lpm_get (width_bytes : nat) (t : trie) (len data : Z) : option Z :=
  option_map snd (fold_left longer (filter (fun e => prefix_matches width_bytes len data e.1) (map_to_list t)) None).

(** ** [GeoBlock] *)

Record GeoBlock : Type := mk_geo {
  geo_block_v4 : option trie; geo_block_v6 : option trie; blocked_countries : gset string; geo_index : option GeoIndex }.
Definition unavailable_geo : GeoBlock := mk_geo None None ∅ None.
Definition new_geo : GeoBlock := mk_geo (Some ∅) (Some ∅) ∅ None.

(** The order in which a set of prefixes is iterated, and the capacity of the tries. *)
Context (order : gset (Z * Z) -> list (Z * Z)) (max_entries : Z).

(** The index is built from the file when first needed. *)
Definition index (file : option GeoReader) (g : GeoBlock) : result GeoError (GeoIndex * GeoBlock) :=
  match geo_index g with
  | Some i => Ok (i, g)
  | None =>
      match file with
      | None => Err OpenFileFailed
      | Some r => let i := build_index r in Ok (i, mk_geo (geo_block_v4 g) (geo_block_v6 g) (blocked_countries g) (Some i))
      end
  end.

Definition wanted (m : gmap string (list (Z * Z))) (countries : gset string) : gset (Z * Z) :=
  ⋃ map (fun code => list_to_set (default [] (m !! code))) (elements countries).

(** The new keys go in, a refused one is only not counted; then the others go. *)
Definition insert_all (keys : list (Z * Z)) (t : trie) : Z * trie :=
  fold_left (fun '(count, t) key => match trie_insert max_entries t key with Some t => (count + 1, t) | None => (count, t) end) keys (0, t).
Definition remove_stale (desired : gset (Z * Z)) (t : trie) : trie := filter (fun e => e.1 ∈ desired) t.

Definition rebuild_tries_for (file : option GeoReader) (countries : gset string) (g : GeoBlock) : result GeoError Z * GeoBlock :=
  match geo_block_v4 g, geo_block_v6 g with
  | Some v4, Some v6 =>
      let indexed := if bool_decide (countries = ∅) then Ok (mk_index ∅ ∅, g) else index file g in
      match indexed with
      | Err e => (Err e, g)
      | Ok (i, g) =>
          let v4_entries := wanted (gi_v4 i) countries in
          let v6_entries := wanted (gi_v6 i) countries in
          let '(count4, v4) := insert_all (order v4_entries) v4 in
          let '(count6, v6) := insert_all (order v6_entries) v6 in
          (Ok (count4 + count6),
           mk_geo (Some (remove_stale v4_entries v4)) (Some (remove_stale v6_entries v6)) (blocked_countries g) (geo_index g))
      end
  | _, _ => (Err GeoNotLoaded, g)
  end.

(** [char::is_ascii_alphabetic] *)
Definition is_ascii_alphabetic (c : ascii) : bool :=
  let n := code c in ((65 <=? n) && (n <=? 90)) || ((97 <=? n) && (n <=? 122)).
Definition valid_code (upper : string) : bool :=
  (String.length upper =? 2)%nat && forallb is_ascii_alphabetic (list_ascii_of_string upper).

Definition rebuild_to (file : option GeoReader) (next : gset string) (g : GeoBlock) : result GeoError Z * GeoBlock :=
  match rebuild_tries_for file next g with
  | (Ok count, g) => (Ok count, mk_geo (geo_block_v4 g) (geo_block_v6 g) next (geo_index g))
  | (Err e, g) => (Err e, g)
  end.
Definition block_countries (file : option GeoReader) (country_codes : list string) (g : GeoBlock) : result GeoError Z * GeoBlock :=
  let next := fold_left (fun next code =>
    let upper := to_uppercase (trim code) in if valid_code upper then {[upper]} ∪ next else next) country_codes (blocked_countries g) in
  rebuild_to file next g.
Definition unblock_countries (file : option GeoReader) (country_codes : list string) (g : GeoBlock) : result GeoError Z * GeoBlock :=
  let next := fold_left (fun next code => next ∖ {[to_uppercase (trim code)]}) country_codes (blocked_countries g) in
  rebuild_to file next g.
Definition list_blocked (g : GeoBlock) : list string := elements (blocked_countries g).

(** ** The service *)

(** The blocks and the table [geo_blocked_countries]; each statement on the table is one
    transaction that may fail. *)
Record GeoWorld : Type := mk_world { gw_geo : GeoBlock; gw_table : gset string }.
Definition insert_geo_countries (db_works : bool) (codes : list string) (t : gset string) : option (gset string) :=
  if db_works then Some (fold_left (fun t code => {[code]} ∪ t) codes t) else None.
Definition delete_geo_countries (db_works : bool) (codes : list string) (t : gset string) : option (gset string) :=
  if db_works then Some (fold_left (fun t code => t ∖ {[code]}) codes t) else None.

Fixpoint normalize_loop (codes : list string) (normalized : list string) : result GeoError (list string) :=
  match codes with
  | [] => Ok normalized
  | code :: codes =>
      let upper := to_uppercase (trim code) in
      if valid_code upper then normalize_loop codes (if bool_decide (upper ∈ normalized) then normalized else normalized ++ [upper])%list
      else Err (InvalidCountryCode code)
  end.
Definition normalize_geo_codes (codes : list string) : result GeoError (list string) := normalize_loop codes [].
Definition current_geo_set (g : GeoBlock) : gset string := list_to_set (map (fun code => to_uppercase (trim code)) (list_blocked g)).

(** What may go wrong during a request: the database file, read before and after, and the
    call of the table. *)
Record GeoEnv : Type := mk_env { env_file : option GeoReader; env_file_rollback : option GeoReader; env_db : bool }.

Definition block_geo_countries (env : GeoEnv) (codes : list string) (w : GeoWorld) : result GeoError Z * GeoWorld :=
  match normalize_geo_codes codes with
  | Err e => (Err e, w)
  | Ok codes =>
      let current := current_geo_set (gw_geo w) in
      let delta := filter (fun code => code ∉ current) codes in
      match block_countries (env_file env) codes (gw_geo w) with
      | (Err e, g) => (Err e, mk_world g (gw_table w))
      | (Ok total, g) =>
          match insert_geo_countries (env_db env) codes (gw_table w) with
          | Some t => (Ok total, mk_world g t)
          | None => (Err GeoDatabase, mk_world (unblock_countries (env_file_rollback env) delta g).2 (gw_table w))
          end
      end
  end.
Definition unblock_geo_countries (env : GeoEnv) (codes : list string) (w : GeoWorld) : result GeoError Z * GeoWorld :=
  match normalize_geo_codes codes with
  | Err e => (Err e, w)
  | Ok codes =>
      let current := current_geo_set (gw_geo w) in
      let delta := filter (fun code => code ∈ current) codes in
      match unblock_countries (env_file env) codes (gw_geo w) with
      | (Err e, g) => (Err e, mk_world g (gw_table w))
      | (Ok total, g) =>
          match delete_geo_countries (env_db env) codes (gw_table w) with
          | Some t => (Ok total, mk_world g t)
          | None => (Err GeoDatabase, mk_world (block_countries (env_file_rollback env) delta g).2 (gw_table w))
          end
      end
  end.
(** At a start the table is read and its countries are blocked. *)
Definition restore_geo_countries (env : GeoEnv) (w : GeoWorld) : GeoWorld :=
  if negb (env_db env) then w
  else
    match elements (gw_table w) with
    | [] => w
    | countries => mk_world (block_countries (env_file env) countries (gw_geo w)).2 (gw_table w)
    end.
End Geo.

(** ** Laws of upper case *)

Definition no_lower (s : string) : bool := forallb (fun c => negb ((97 <=? code c) && (code c <=? 122))) (list_ascii_of_string s).
(** No upper-case mapping produces a lower-case letter. *)
Class UppercaseFinal (U : Uppercase) : Prop := law_no_lower : forall s, no_lower (to_uppercase s) = true.

Lemma to_ascii_upper_code c : code (to_ascii_upper c) = if (97 <=? code c) && (code c <=? 122) then code c - 32 else code c.
Proof. by destruct c as [[] [] [] [] [] [] [] []]. Qed.
#[export] Instance ascii_uppercase_final : UppercaseFinal ascii_uppercase.
Proof.
  intros s. unfold to_uppercase, ascii_uppercase. induction s as [|c s IH]; [done|]. cbn. rewrite to_ascii_upper_code.
  fold (no_lower (to_ascii_uppercase s)). rewrite IH, andb_true_r. generalize (code c). intros n.
  destruct (97 <=? n) eqn:E1, (n <=? 122) eqn:E2; cbn [andb negb]; rewrite ?E1, ?E2; try done.
  apply Z.leb_le in E1, E2. apply negb_true_iff, andb_false_iff. left. apply Z.leb_gt. lia.
Qed.

Definition capitals : list ascii := map (fun n => ascii_of_nat (65 + n)) (seq 0 26).
Lemma capital_in c : is_ascii_alphabetic c = true -> negb ((97 <=? code c) && (code c <=? 122)) = true -> c ∈ capitals.
Proof.
  unfold is_ascii_alphabetic. rewrite orb_true_iff, negb_true_iff. intros [H|H] Hn; [|congruence]. apply andb_true_iff in H as [?%Z.leb_le ?%Z.leb_le].
  unfold code in *. rewrite <- (ascii_nat_embedding c). apply list_elem_of_fmap. exists (nat_of_ascii c - 65)%nat. split; [f_equal; lia|].
  apply elem_of_seq. lia.
Qed.
Lemma capital_codes_fixed : forallb (fun a => forallb (fun b => let s := String a (String b EmptyString) in
  (trim s =? s)%string && (to_ascii_uppercase s =? s)%string && all_bytes (fun c => code c <? 128) s) capitals) capitals = true.
Proof. by vm_compute. Qed.

Section Laws.
Context `{U : Uppercase} `{!UppercaseLaws U} `{!UppercaseFinal U} (order : gset (Z * Z) -> list (Z * Z)) (max_entries : Z).

(** A country code as the code keeps it. *)
Definition good (c : string) : Prop := to_uppercase (trim c) = c /\ valid_code c = true.

Lemma valid_good s : valid_code (to_uppercase s) = true -> good (to_uppercase s).
Proof.
  intros Hv. pose proof (law_no_lower s) as Hn. split; [|done]. revert Hv Hn. generalize (to_uppercase s). clear s. intros s Hv Hn.
  unfold valid_code in Hv. apply andb_true_iff in Hv as [Hl Ha]. apply Nat.eqb_eq in Hl.
  destruct s as [|a [|b [|? ?]]]; try done. cbn in Ha, Hn. rewrite !andb_true_r, andb_true_iff in Ha, Hn.
  destruct Ha as [Ha Hb], Hn as [Hna Hnb]. pose proof (capital_in a Ha Hna) as Hca. pose proof (capital_in b Hb Hnb) as Hcb.
  pose proof capital_codes_fixed as H. rewrite forallb_forall in H. specialize (H a (proj1 (list_elem_of_In _ _) Hca)). rewrite forallb_forall in H.
  specialize (H b (proj1 (list_elem_of_In _ _) Hcb)). cbn beta zeta in H. apply andb_true_iff in H as [H Hasc]. apply andb_true_iff in H as [Ht Hu].
  apply String.eqb_eq in Ht, Hu. by rewrite Ht, law_uppercase.
Qed.

Lemma normalize_good codes out : normalize_geo_codes codes = Ok out -> Forall good out.
Proof.
  unfold normalize_geo_codes. assert (Forall good []) as H by constructor. revert H. generalize (@nil string). induction codes as [|c codes IH]; intros acc Hacc; cbn.
  - by intros [= <-].
  - destruct (valid_code _) eqn:Hv; [|done]. apply IH. case_bool_decide; [done|]. apply Forall_app. split; [done|]. apply Forall_singleton. by apply valid_good.
Qed.

Lemma block_next codes (s : gset string) : Forall good codes ->
  fold_left (fun next code => let upper := to_uppercase (trim code) in if valid_code upper then {[upper]} ∪ next else next) codes s = list_to_set codes ∪ s.
Proof.
  intros H. revert s. induction H as [|c codes [Hc Hv] _ IH]; intros s; cbn; [set_solver|]. rewrite Hc, Hv, IH. set_solver.
Qed.
Lemma unblock_next codes (s : gset string) : Forall good codes ->
  fold_left (fun next code => next ∖ {[to_uppercase (trim code)]}) codes s = s ∖ list_to_set codes.
Proof. intros H. revert s. induction H as [|c codes [Hc Hv] _ IH]; intros s; cbn; [set_solver|]. rewrite Hc, IH. set_solver. Qed.
Lemma insert_rows codes (t : gset string) : fold_left (fun t code => {[code]} ∪ t) codes t = list_to_set codes ∪ t.
Proof. revert t. induction codes as [|c codes IH]; intros t; cbn; [set_solver|]. rewrite IH. set_solver. Qed.
Lemma delete_rows codes (t : gset string) : fold_left (fun t code => t ∖ {[code]}) codes t = t ∖ list_to_set codes.
Proof. revert t. induction codes as [|c codes IH]; intros t; cbn; [set_solver|]. rewrite IH. set_solver. Qed.

(** *** The tries hold what is wanted *)

Lemma wanted_elem m countries k : k ∈ wanted m countries <-> exists code, code ∈ countries /\ k ∈ default [] (m !! code).
Proof.
  unfold wanted. rewrite elem_of_union_list. split.
  - intros (X & HX & Hk). apply list_elem_of_fmap in HX as (c & -> & Hc). exists c. split; [by apply elem_of_elements|]. by apply elem_of_list_to_set in Hk.
  - intros (c & Hc & Hk). exists (list_to_set (default [] (m !! c))). split; [|by apply elem_of_list_to_set].
    apply list_elem_of_fmap. exists c. split; [done|]. by apply elem_of_elements.
Qed.
Lemma wanted_mono m c1 c2 : c1 ⊆ c2 -> wanted m c1 ⊆ wanted m c2.
Proof. intros H k. rewrite !wanted_elem. intros (c & ? & ?). exists c. set_solver. Qed.
Definition all_prefixes (m : gmap string (list (Z * Z))) : gset (Z * Z) := wanted m (dom m).
Lemma wanted_all m countries : wanted m countries ⊆ all_prefixes m.
Proof.
  intros k. unfold all_prefixes. rewrite !wanted_elem. intros (c & Hc & Hk). exists c. split; [|done]. apply elem_of_dom.
  destruct (m !! c); [done|by apply elem_of_nil in Hk].
Qed.

Lemma insert_all_dom (keys : list (Z * Z)) (n : Z) (t : trie) (A : gset (Z * Z)) : Z.of_nat (size A) <= max_entries -> dom t ⊆ A -> list_to_set keys ⊆ A ->
  dom (fold_left (fun '(count, t) key => match trie_insert max_entries t key with Some t => (count + 1, t) | None => (count, t) end) keys (n, t)).2
    = dom t ∪ list_to_set keys.
Proof.
  intros HA. revert n t. induction keys as [|k keys IH]; intros n t Ht Hk; cbn [fold_left list_to_set]; [set_solver|].
  unfold trie_insert. destruct (bool_decide (t !! k = None) && _) eqn:E.
  - exfalso. apply andb_true_iff in E as [Hnone%bool_decide_eq_true Hfull%Z.leb_le]. apply not_elem_of_dom in Hnone.
    assert (size ({[k]} ∪ dom t) <= size A)%nat as Hs by (apply subseteq_size; set_solver).
    rewrite size_union, size_singleton, size_dom in Hs by set_solver. lia.
  - rewrite IH; [rewrite dom_insert_L; set_solver|rewrite dom_insert_L; set_solver|set_solver].
Qed.

Lemma trie_rebuilt (desired A : gset (Z * Z)) (t : trie) : (forall s, order s ≡ₚ elements s) -> Z.of_nat (size A) <= max_entries -> dom t ⊆ A -> desired ⊆ A ->
  dom (remove_stale desired (insert_all max_entries (order desired) t).2) = desired.
Proof.
  intros Ho HA Ht Hd. unfold insert_all. assert (list_to_set (C := gset (Z * Z)) (order desired) = desired) as Hset.
  { apply set_eq. intros x. rewrite elem_of_list_to_set, Ho. apply elem_of_elements. }
  pose proof (insert_all_dom (order desired) 0 t A HA Ht) as H. rewrite Hset in H. specialize (H Hd).
  unfold remove_stale. apply set_eq. intros k. rewrite elem_of_dom. split.
  - intros [v Hv]. apply map_lookup_filter_Some in Hv as [_ ?]. done.
  - intros Hk. assert (k ∈ dom t ∪ desired) as Hin by set_solver. rewrite <- H in Hin. apply elem_of_dom in Hin as [v Hv].
    exists v. by apply map_lookup_filter_Some.
Qed.

(** *** The state between requests *)

Hypothesis order_law : forall s, order s ≡ₚ elements s.
(** The database files there may be: their networks fit the tries and are those of
    addresses of their family. *)
Definition net_ok (n : IpNetwork) : Prop :=
  match n with Net4 ip l => in_width 32 ip /\ 0 <= l <= 32 | Net6 ip l => in_width 128 ip /\ 0 <= l <= 128 end.
Record file_ok (r : GeoReader) : Prop := {
  fo_fits4 : Z.of_nat (size (all_prefixes (gi_v4 (build_index r)))) <= max_entries;
  fo_fits6 : Z.of_nat (size (all_prefixes (gi_v6 (build_index r)))) <= max_entries;
  fo_nets : forall e n code, Some e ∈ (default [] (within_v4 r) ++ default [] (within_v6 r))%list -> entry_country (Some e) = Some (n, code) -> net_ok n }.

Definition index_of (g : GeoBlock) : GeoIndex := default (mk_index ∅ ∅) (geo_index g).
Record geo_inv (Rd : GeoReader -> Prop) (g : GeoBlock) : Prop := {
  gv_v4 : exists t, geo_block_v4 g = Some t /\ dom t = wanted (gi_v4 (index_of g)) (blocked_countries g);
  gv_v6 : exists t, geo_block_v6 g = Some t /\ dom t = wanted (gi_v6 (index_of g)) (blocked_countries g);
  gv_index : match geo_index g with None => blocked_countries g = ∅ | Some i => exists r, Rd r /\ i = build_index r end;
  gv_codes : forall c, c ∈ blocked_countries g -> good c }.

Lemma wanted_none m : wanted m ∅ = ∅.
Proof. unfold wanted. by rewrite elements_empty. Qed.

Lemma new_geo_inv Rd : geo_inv Rd new_geo.
Proof. split; cbn; [exists ∅; by rewrite wanted_none, dom_empty_L|exists ∅; by rewrite wanted_none, dom_empty_L|done|set_solver]. Qed.

Lemma rebuilt_inv (Rd : GeoReader -> Prop) file next g : (forall r, Rd r -> file_ok r) -> (forall r, file = Some r -> Rd r) ->
  geo_inv Rd g -> (forall c, c ∈ next -> good c) ->
  match rebuild_to order max_entries file next g with
  | (Ok _, g') => geo_inv Rd g' /\ blocked_countries g' = next /\ (geo_index g <> None -> geo_index g' = geo_index g)
  | (Err _, g') => g' = g /\ geo_index g = None /\ file = None /\ next <> ∅
  end.
Proof.
  intros HRd Hf [(t4 & E4 & D4) (t6 & E6 & D6) Hi Hc] Hn. unfold rebuild_to, rebuild_tries_for. rewrite E4, E6.
  assert (forall (i : GeoIndex) r, Rd r -> i = build_index r -> geo_index g = Some i \/ geo_index g = None ->
    dom t4 ⊆ all_prefixes (gi_v4 i) /\ dom t6 ⊆ all_prefixes (gi_v6 i)) as Hsub.
  { intros i r _ _ [Hg|Hg]; rewrite Hg in Hi; rewrite D4, D6; unfold index_of; rewrite Hg; cbn [default from_option id]; [split; apply wanted_all|].
    rewrite Hi, !wanted_none. set_solver. }
  assert (forall i g0, geo_index g0 = Some i -> blocked_countries g0 = blocked_countries g -> (geo_index g <> None -> geo_index g0 = geo_index g) ->
    (exists r, Rd r /\ i = build_index r) -> geo_index g = Some i \/ geo_index g = None ->
    match
      (let v4_entries := wanted (gi_v4 i) next in let v6_entries := wanted (gi_v6 i) next in
       let '(count4, v4) := insert_all max_entries (order v4_entries) t4 in let '(count6, v6) := insert_all max_entries (order v6_entries) t6 in
       (Ok (count4 + count6), mk_geo (Some (remove_stale v4_entries v4)) (Some (remove_stale v6_entries v6)) (blocked_countries g0) (geo_index g0))
         : result GeoError Z * GeoBlock)
    with
    | (Ok n, g') => geo_inv Rd (mk_geo (geo_block_v4 g') (geo_block_v6 g') next (geo_index g')) /\ (geo_index g <> None -> geo_index g' = geo_index g)
    | (Err _, _) => False
    end) as Hmain.
  { intros i g0 Hi0 _ Hsame (r & Hr & ->) Hor. destruct (Hsub _ r Hr eq_refl Hor) as [S4 S6]. destruct (HRd r Hr) as [F4 F6 _].
    pose proof (trie_rebuilt (wanted (gi_v4 (build_index r)) next) _ t4 order_law F4 S4 (wanted_all _ _)) as R4.
    pose proof (trie_rebuilt (wanted (gi_v6 (build_index r)) next) _ t6 order_law F6 S6 (wanted_all _ _)) as R6.
    cbn zeta. destruct (insert_all _ _ t4) as [n4 u4], (insert_all _ _ t6) as [n6 u6]. cbn [snd] in R4, R6.
    split; [|done]. unfold index_of. split; cbn [geo_block_v4 geo_block_v6 blocked_countries geo_index]; unfold index_of; cbn [geo_index]; rewrite ?Hi0; cbn [default from_option id]; eauto. }
  case_bool_decide as Hempty.
  - subst next. cbn zeta. cbn [gi_v4 gi_v6]. rewrite !wanted_none. destruct (insert_all _ _ t4) as [n4 u4], (insert_all _ _ t6) as [n6 u6].
    assert (forall t : trie, dom (remove_stale ∅ t) = ∅) as Hnone.
    { intros t. apply set_eq. intros k. rewrite elem_of_dom. split; [|set_solver]. intros [v Hv]. apply map_lookup_filter_Some in Hv as [_ Hv]. set_solver. }
    cbn. split; [|done]. split; cbn; [eexists; split; [done|]; by rewrite wanted_none, Hnone|eexists; split; [done|]; by rewrite wanted_none, Hnone| |set_solver].
    by destruct (geo_index g).
  - unfold index. destruct (geo_index g) as [i|] eqn:Hg.
    + specialize (Hmain i g Hg eq_refl ltac:(done) Hi ltac:(by left)). cbn zeta in Hmain |- *.
      destruct (insert_all _ _ t4) as [n4 u4], (insert_all _ _ t6) as [n6 u6]. cbn in Hmain |- *. rewrite Hg in *. by destruct Hmain.
    + destruct file as [r|]; [|done]. specialize (Hf r eq_refl).
      specialize (Hmain (build_index r) (mk_geo (geo_block_v4 g) (geo_block_v6 g) (blocked_countries g) (Some (build_index r))) eq_refl eq_refl ltac:(done)
        ltac:(by exists r) ltac:(by right)). cbn zeta in Hmain |- *.
      destruct (insert_all _ _ t4) as [n4 u4], (insert_all _ _ t6) as [n6 u6]. cbn in Hmain |- *. by destruct Hmain.
Qed.

(** *** Requests *)

Inductive GeoOp : Type := Block (env : GeoEnv) (codes : list string) | Unblock (env : GeoEnv) (codes : list string) | Start (env : GeoEnv).
Definition run_geo (o : GeoOp) (w : GeoWorld) : GeoWorld :=
  match o with
  | Block env codes => (block_geo_countries order max_entries env codes w).2
  | Unblock env codes => (unblock_geo_countries order max_entries env codes w).2
  | Start env => restore_geo_countries order max_entries env (mk_world new_geo (gw_table w))
  end.
Definition run_geos (ops : list GeoOp) (w : GeoWorld) : GeoWorld := fold_left (fun w o => run_geo o w) ops w.

Definition op_env (o : GeoOp) : GeoEnv := match o with Block e _ | Unblock e _ | Start e => e end.
(** The files there are during a run. *)
Definition files (ops : list GeoOp) (r : GeoReader) : Prop :=
  exists o, o ∈ ops /\ (env_file (op_env o) = Some r \/ env_file_rollback (op_env o) = Some r).
(** A start that finds its table and its file. *)
Definition start_works (o : GeoOp) : Prop :=
  match o with Start e => env_db e = true /\ env_file e <> None | _ => True end.

Record world_inv (Rd : GeoReader -> Prop) (w : GeoWorld) : Prop := {
  wv_geo : geo_inv Rd (gw_geo w);
  wv_table : blocked_countries (gw_geo w) ⊆ gw_table w;
  wv_codes : forall c, c ∈ gw_table w -> good c }.

Lemma current_blocked Rd g : geo_inv Rd g -> current_geo_set g = blocked_countries g.
Proof.
  intros [_ _ _ Hc]. unfold current_geo_set, list_blocked. apply set_eq. intros x. rewrite elem_of_list_to_set, list_elem_of_fmap. split.
  - intros (c & -> & Hin%elem_of_elements). by rewrite (proj1 (Hc _ Hin)).
  - intros Hin. exists x. split; [by rewrite (proj1 (Hc _ Hin))|]. by apply elem_of_elements.
Qed.

Lemma filter_good (P : string -> Prop) `{forall c, Decision (P c)} codes : Forall good codes -> Forall good (filter P codes).
Proof. intros Hc. apply Forall_forall. intros c [_ Hin]%list_elem_of_filter. by eapply Forall_forall in Hc. Qed.
Lemma block_good file codes g : Forall good codes ->
  block_countries order max_entries file codes g = rebuild_to order max_entries file (list_to_set codes ∪ blocked_countries g) g.
Proof. intros H. unfold block_countries. by rewrite block_next. Qed.
Lemma unblock_good file codes g : Forall good codes ->
  unblock_countries order max_entries file codes g = rebuild_to order max_entries file (blocked_countries g ∖ list_to_set codes) g.
Proof. intros H. unfold unblock_countries. by rewrite unblock_next. Qed.

Section Run.
Context (Rd : GeoReader -> Prop) (HRd : forall r, Rd r -> file_ok r).

Lemma block_inv env codes w : (forall r, env_file env = Some r \/ env_file_rollback env = Some r -> Rd r) -> world_inv Rd w ->
  let w' := (block_geo_countries order max_entries env codes w).2 in
  world_inv Rd w' /\ (blocked_countries (gw_geo w) = gw_table w -> blocked_countries (gw_geo w') = gw_table w').
Proof.
  intros He Hw. unfold block_geo_countries. destruct (normalize_geo_codes codes) as [cs|] eqn:Hn; [|done]. apply normalize_good in Hn.
  pose proof Hw as [Hg Ht Hc]. rewrite (block_good _ cs) by done. rewrite (current_blocked Rd) by done.
  assert (forall c, c ∈ list_to_set cs ∪ blocked_countries (gw_geo w) -> good c) as Hcs.
  { intros c [Hin|Hin]%elem_of_union; [|by apply (gv_codes _ _ Hg)]. apply elem_of_list_to_set in Hin. by eapply Forall_forall in Hin. }
  pose proof (rebuilt_inv Rd (env_file env) (list_to_set cs ∪ blocked_countries (gw_geo w)) (gw_geo w) HRd ltac:(auto) Hg Hcs) as Hr.
  destruct (rebuild_to _ _ _ _ _) as [[n|e] g]; cbn [snd]; [|destruct Hr as [-> _]; split; [by split|exact (fun E => E)]].
  destruct Hr as (Hg' & Hb & Hidx).
  unfold insert_geo_countries. destruct (env_db env).
  - cbn [snd gw_geo gw_table]. rewrite insert_rows. split; [split; cbn; [done|set_solver|]|].
    + intros c [Hin|Hin]%elem_of_union; [|by apply Hc]. apply elem_of_list_to_set in Hin. by eapply Forall_forall in Hin.
    + intros <-. by rewrite Hb.
  - cbn [snd gw_geo gw_table]. rewrite unblock_good by (by apply filter_good).
    assert (blocked_countries g ∖ list_to_set (filter (fun code => code ∉ blocked_countries (gw_geo w)) cs) = blocked_countries (gw_geo w)) as Hback.
    { rewrite Hb. apply set_eq. intros x. rewrite elem_of_difference, elem_of_union, !elem_of_list_to_set, list_elem_of_filter. 
      destruct (decide (x ∈ blocked_countries (gw_geo w))); naive_solver. }
    rewrite Hback. pose proof (rebuilt_inv Rd (env_file_rollback env) (blocked_countries (gw_geo w)) g HRd ltac:(auto) Hg' (gv_codes _ _ Hg)) as Hr.
    destruct (rebuild_to _ _ _ _ _) as [[m|e] g']; cbn [snd].
    + destruct Hr as (Hg2 & Hb2 & _). split; [split; cbn; [done|by rewrite Hb2|done]|by rewrite Hb2].
    + destruct Hr as (_ & Hnone & _ & Hne). exfalso. apply Hne. pose proof (gv_index _ _ Hg') as Hi. rewrite Hnone in Hi. rewrite Hi in Hb. set_solver.
Qed.

Lemma unblock_inv env codes w : (forall r, env_file env = Some r \/ env_file_rollback env = Some r -> Rd r) -> world_inv Rd w ->
  let w' := (unblock_geo_countries order max_entries env codes w).2 in
  world_inv Rd w' /\ (blocked_countries (gw_geo w) = gw_table w -> blocked_countries (gw_geo w') = gw_table w').
Proof.
  intros He Hw. unfold unblock_geo_countries. destruct (normalize_geo_codes codes) as [cs|] eqn:Hn; [|done]. apply normalize_good in Hn.
  pose proof Hw as [Hg Ht Hc]. rewrite (unblock_good _ cs) by done. rewrite (current_blocked Rd) by done.
  pose proof (rebuilt_inv Rd (env_file env) (blocked_countries (gw_geo w) ∖ list_to_set cs) (gw_geo w) HRd ltac:(auto) Hg
    ltac:(intros c [Hin _]%elem_of_difference; by apply (gv_codes _ _ Hg))) as Hr.
  destruct (rebuild_to _ _ _ _ _) as [[n|e] g]; cbn [snd]; [|destruct Hr as [-> _]; split; [by split|exact (fun E => E)]].
  destruct Hr as (Hg' & Hb & Hidx). unfold delete_geo_countries. destruct (env_db env).
  - cbn [snd gw_geo gw_table]. rewrite delete_rows. split; [split; cbn; [done|set_solver|set_solver]|]. intros <-. by rewrite Hb.
  - cbn [snd gw_geo gw_table]. rewrite block_good by (by apply filter_good).
    assert (list_to_set (filter (fun code => code ∈ blocked_countries (gw_geo w)) cs) ∪ blocked_countries g = blocked_countries (gw_geo w)) as Hback.
    { rewrite Hb. apply set_eq. intros x. rewrite elem_of_union, elem_of_difference, !elem_of_list_to_set, list_elem_of_filter.
      destruct (decide (x ∈ cs)); naive_solver. }
    rewrite Hback. pose proof (rebuilt_inv Rd (env_file_rollback env) (blocked_countries (gw_geo w)) g HRd ltac:(auto) Hg' (gv_codes _ _ Hg)) as Hr.
    destruct (rebuild_to _ _ _ _ _) as [[m|e] g']; cbn [snd].
    + destruct Hr as (Hg2 & Hb2 & _). split; [split; cbn; [done|by rewrite Hb2|done]|by rewrite Hb2].
    + destruct Hr as (_ & Hnone & _ & Hne). exfalso. apply Hne. destruct (geo_index (gw_geo w)) as [i|] eqn:Ei; [|by pose proof (gv_index _ _ Hg) as Hi; rewrite Ei in Hi].
      rewrite Hidx in Hnone; done.
Qed.

Lemma start_inv env w : (forall r, env_file env = Some r \/ env_file_rollback env = Some r -> Rd r) -> (forall c, c ∈ gw_table w -> good c) ->
  let w' := restore_geo_countries order max_entries env (mk_world new_geo (gw_table w)) in
  world_inv Rd w' /\ (env_db env = true -> env_file env <> None -> blocked_countries (gw_geo w') = gw_table w').
Proof.
  intros He Hc. assert (world_inv Rd (mk_world new_geo (gw_table w))) as H0 by (split; cbn; [apply new_geo_inv|set_solver|done]).
  unfold restore_geo_countries. destruct (env_db env); cbn [negb]; [|done]. cbn [gw_table gw_geo]. destruct (elements (gw_table w)) as [|c cs] eqn:E.
  { split; [done|]. intros _ _. cbn. apply elements_empty_iff in E. symmetry. by apply leibniz_equiv. }
  rewrite <- E. clear c cs E. rewrite block_good by (apply Forall_forall; intros x Hx%elem_of_elements; by apply Hc).
  rewrite list_to_set_elements_L. cbn [blocked_countries new_geo]. rewrite union_empty_r_L.
  pose proof (rebuilt_inv Rd (env_file env) (gw_table w) new_geo HRd ltac:(auto) (new_geo_inv Rd) Hc) as Hr.
  destruct (rebuild_to _ _ _ _ _) as [[n|e] g]; cbn [snd].
  - destruct Hr as (Hg & Hb & _). split; [split; cbn; [done|by rewrite Hb|done]|intros _ _; exact Hb].
  - destruct Hr as (-> & _ & Hf & _). split; [done|]. intros _ Hne. done.
Qed.

Lemma run_geos_inv ops w : (forall r, files ops r -> Rd r) -> world_inv Rd w ->
  world_inv Rd (run_geos ops w) /\ (Forall start_works ops -> blocked_countries (gw_geo w) = gw_table w ->
    blocked_countries (gw_geo (run_geos ops w)) = gw_table (run_geos ops w)).
Proof.
  revert w. induction ops as [|o ops IH]; intros w Hf Hw; cbn [run_geos fold_left]; [done|]. fold (run_geos ops (run_geo o w)).
  assert (forall r, env_file (op_env o) = Some r \/ env_file_rollback (op_env o) = Some r -> Rd r) as He.
  { intros r Hr. apply Hf. exists o. split; [by left|done]. }
  assert (world_inv Rd (run_geo o w) /\ (start_works o -> blocked_countries (gw_geo w) = gw_table w -> blocked_countries (gw_geo (run_geo o w)) = gw_table (run_geo o w)))
    as [H1 H2].
  { destruct o as [env codes|env codes|env]; cbn [run_geo op_env start_works] in *.
    - destruct (block_inv env codes w He Hw). by split; [|auto].
    - destruct (unblock_inv env codes w He Hw). by split; [|auto].
    - destruct (start_inv env w He (wv_codes _ _ Hw)) as [? H]. split; [done|]. intros [? ?] _. by apply H. }
  destruct (IH (run_geo o w)) as [H3 H4]; [|done|].
  - intros r (o' & Ho' & Hr). apply Hf. exists o'. split; [by right|done].
  - split; [done|]. intros [Hs Hss]%Forall_cons Heq. by apply H4; [|apply H2].
Qed.
End Run.

(** *** What the kernel drops *)

Lemma longer_some l b : (fold_left longer l b = None <-> l = [] /\ b = None).
Proof.
  revert b. induction l as [|e l IH]; intros b; cbn [fold_left]; [tauto|]. rewrite IH. split; [|by intros [[=] _]].
  intros [_ H]. unfold longer in H. destruct b as [b|]; [case_match|]; done.
Qed.
Lemma lpm_get_some (w : nat) (t : trie) (len data : Z) : is_Some (lpm_get w t len data) <-> exists k, k ∈ dom t /\ prefix_matches w len data k.
Proof.
  unfold lpm_get. set (l := filter _ _). assert (is_Some (option_map snd (fold_left longer l None)) <-> l <> []) as ->.
  { rewrite <- not_eq_None_Some. destruct (fold_left longer l None) eqn:E.
    - split; [|done]. intros _ ->. by cbn in E.
    - apply longer_some in E as [-> _]. cbn. tauto. }
  split.
  - intros Hl. destruct l as [|[k v] l'] eqn:E; [done|]. assert ((k, v) ∈ l) as Hin by (rewrite E; by left). apply list_elem_of_filter in Hin as [Hm Hin].
    apply elem_of_map_to_list in Hin. exists k. split; [|done]. apply elem_of_dom. by exists v.
  - intros (k & [v Hv]%elem_of_dom & Hm) El. assert ((k, v) ∈ l) as Hin by (apply list_elem_of_filter; split; [done|by apply elem_of_map_to_list]).
    rewrite El in Hin. by apply elem_of_nil in Hin.
Qed.

Lemma index_entries_elem (pick : IpNetwork -> option (Z * Z)) es (code : string) (k : Z * Z) : k ∈ default [] (index_entries pick es !! code) <->
  exists e n, e ∈ default [] es /\ entry_country e = Some (n, code) /\ pick n = Some k.
Proof.
  unfold index_entries. generalize (default [] es). intros l.
  enough (forall m : gmap string (list (Z * Z)), k ∈ default [] (fold_left (fun m e =>
      match entry_country e with
      | Some (network, code) => match pick network with Some prefix => index_push code prefix m | None => m end
      | None => m end) l m !! code) <->
    k ∈ default [] (m !! code) \/ exists e n, e ∈ l /\ entry_country e = Some (n, code) /\ pick n = Some k) as H.
  { rewrite H, lookup_empty. cbn. rewrite elem_of_nil. tauto. }
  induction l as [|e l IH]; intros m; cbn [fold_left].
  { split; [by left|]. intros [H|(e & n & H & _)]; [done|by apply elem_of_nil in H]. }
  rewrite IH. clear IH. setoid_rewrite elem_of_cons.
  assert (k ∈ default [] ((match entry_country e with Some (network, code0) => match pick network with Some prefix => index_push code0 prefix m | None => m end | None => m end)
    !! code) <-> k ∈ default [] (m !! code) \/ exists n, entry_country e = Some (n, code) /\ pick n = Some k) as ->.
  { destruct (entry_country e) as [[n c]|]; [|split; [by left|intros [?|(? & [=] & _)]; done]]. destruct (pick n) as [p|] eqn:Hp.
    - unfold index_push. destruct (decide (c = code)) as [->|Hne].
      + rewrite lookup_insert_eq. cbn [default from_option id]. rewrite elem_of_app, list_elem_of_singleton. split.
        * intros [?| ->]; [by left|]. right. by exists n.
        * intros [?|(? & [= <-] & E)]; [by left|]. rewrite Hp in E. injection E as ->. by right.
      + rewrite lookup_insert_ne by done. split; [by left|]. intros [?|(? & [=] & _)]; [done|congruence].
    - split; [by left|]. intros [?|(? & [= <-] & E)]; [done|congruence]. }
  split.
  - intros [[?|(n & ? & ?)]|(e' & n & ? & ? & ?)]; [by left|right; exists e, n; auto|right; exists e', n; auto].
  - intros [?|(e' & n & [->|?] & ? & ?)]; [by left; left|left; right; by exists n|right; by exists e', n].
Qed.

(** The database file places an address in a country: by an entry with a readable network
    and a country code. *)
Definition in_country_v4 (r : GeoReader) (ip : Z) (code : string) : Prop :=
  exists e a l, e ∈ default [] (within_v4 r) /\ entry_country e = Some (Net4 a l, code) /\ Z.shiftr ip (32 - l) = Z.shiftr a (32 - l).
Definition in_country_v6 (r : GeoReader) (ip : Z) (code : string) : Prop :=
  exists e a l, e ∈ default [] (within_v6 r) /\ entry_country e = Some (Net6 a l, code) /\ Z.shiftr ip (128 - l) = Z.shiftr a (128 - l).

(** The kernel's lookups are in the tries the control plane fills. *)
Record geo_seen (g : GeoBlock) (M : kmaps) : Prop := {
  gs_v4 : exists t, geo_block_v4 g = Some t /\ forall len data, GEO_BLOCK_V4 M len data = lpm_get 4 t len data;
  gs_v6 : exists t, geo_block_v6 g = Some t /\ forall len data, GEO_BLOCK_V6 M len data = lpm_get 16 t len data }.

Lemma prefix_native (w : nat) (len bits a l : Z) : 0 <= bits < 256 ^ Z.of_nat w -> 0 <= a < 256 ^ Z.of_nat w -> l <= len ->
  prefix_matches w len (to_be w bits) (to_be w a, l) <-> Z.shiftr bits (8 * Z.of_nat w - l) = Z.shiftr a (8 * Z.of_nat w - l).
Proof.
  intros Hb Ha Hl. unfold prefix_matches, prefix_bits. cbn [fst snd]. rewrite !to_be_involutive by done. split; [by intros [_ ->]|by intros ->].
Qed.

Lemma entry_net_ok r e n code : file_ok r -> e ∈ (default [] (within_v4 r) ++ default [] (within_v6 r))%list -> entry_country e = Some (n, code) -> net_ok n.
Proof. intros [_ _ H] He Hc. destruct e as [e|]; [by eapply H|done]. Qed.

Lemma v4_dropped (r : GeoReader) (g : GeoBlock) (M : kmaps) (p : ParsedPacket) (ip : Z) : file_ok r -> geo_seen g M ->
  (exists t, geo_block_v4 g = Some t /\ dom t = wanted (gi_v4 (build_index r)) (blocked_countries g)) ->
  in_width 32 ip -> src_ip_v4 p = to_be 4 ip ->
  ipv4_is_geo_blocked M p = true <-> exists code, code ∈ list_blocked g /\ in_country_v4 r ip code.
Proof.
  intros Hr [(t & Et & Hl) _] (t' & Et' & Hd) Hip Hp. rewrite Et in Et'. injection Et' as <-. unfold ipv4_is_geo_blocked. rewrite bool_decide_eq_true, Hl, Hp, lpm_get_some.
  rewrite Hd. setoid_rewrite wanted_elem. unfold build_index. cbn [gi_v4]. setoid_rewrite index_entries_elem. unfold list_blocked, in_country_v4. split.
  - intros (k & (code & Hc & e & n & He & Hn & Hk) & Hm). exists code. split; [by apply elem_of_elements|].
    pose proof (entry_net_ok r e n code Hr ltac:(apply elem_of_app; by left) Hn) as Hok. destruct n as [a l|]; [|done]. injection Hk as <-. destruct Hok as [Ha Hl'].
    exists e, a, l. split; [done|]. split; [done|]. apply (prefix_native 4) in Hm; [done| | |lia]; unfold in_width, pow2 in *; cbn; lia.
  - intros (code & Hc%elem_of_elements & e & a & l & He & Hn & Hm). exists (to_be 4 a, l). split; [exists code; split; [done|]; by exists e, (Net4 a l)|].
    pose proof (entry_net_ok r e _ code Hr ltac:(apply elem_of_app; by left) Hn) as [Ha Hl']. apply (prefix_native 4); [| |lia|done]; unfold in_width, pow2 in *; cbn; lia.
Qed.
Lemma v6_dropped (r : GeoReader) (g : GeoBlock) (M : kmaps) (p : ParsedPacket) (ip : Z) : file_ok r -> geo_seen g M ->
  (exists t, geo_block_v6 g = Some t /\ dom t = wanted (gi_v6 (build_index r)) (blocked_countries g)) ->
  in_width 128 ip -> src_ip_v6 p = to_be 16 ip ->
  ipv6_is_geo_blocked M p = true <-> exists code, code ∈ list_blocked g /\ in_country_v6 r ip code.
Proof.
  intros Hr [_ (t & Et & Hl)] (t' & Et' & Hd) Hip Hp. rewrite Et in Et'. injection Et' as <-. unfold ipv6_is_geo_blocked. rewrite bool_decide_eq_true, Hl, Hp, lpm_get_some.
  rewrite Hd. setoid_rewrite wanted_elem. unfold build_index. cbn [gi_v6]. setoid_rewrite index_entries_elem. unfold list_blocked, in_country_v6. split.
  - intros (k & (code & Hc & e & n & He & Hn & Hk) & Hm). exists code. split; [by apply elem_of_elements|].
    pose proof (entry_net_ok r e n code Hr ltac:(apply elem_of_app; by right) Hn) as Hok. destruct n as [|a l]; [done|]. injection Hk as <-. destruct Hok as [Ha Hl'].
    exists e, a, l. split; [done|]. split; [done|]. apply (prefix_native 16) in Hm; [done| | |lia]; unfold in_width, pow2 in *; cbn; lia.
  - intros (code & Hc%elem_of_elements & e & a & l & He & Hn & Hm). exists (to_be 16 a, l). split; [exists code; split; [done|]; by exists e, (Net6 a l)|].
    pose proof (entry_net_ok r e _ code Hr ltac:(apply elem_of_app; by right) Hn) as [Ha Hl']. apply (prefix_native 16); [| |lia|done]; unfold in_width, pow2 in *; cbn; lia.
Qed.

(** C16: Where the networks of every database file used fit the kernel's tries (see
    [full_trie_blocks_part] for one that does not): once the kernel maps are loaded, after
    any requests and starts and whatever calls fail, every country that is blocked is in the table, and the table holds no other
    while no start failed; and the kernel drops for its country exactly the packets whose
    source a database file places in a blocked country. *)
Theorem blocked_countries_are_dropped (ops : list GeoOp) (M : kmaps) :
  (forall r, files ops r -> file_ok r) ->
  let w := run_geos ops (mk_world new_geo ∅) in
  geo_seen (gw_geo w) M ->
  blocked_countries (gw_geo w) ⊆ gw_table w /\
  (Forall start_works ops -> blocked_countries (gw_geo w) = gw_table w) /\
  (list_blocked (gw_geo w) = [] /\ (forall p, ipv4_is_geo_blocked M p = false /\ ipv6_is_geo_blocked M p = false) \/
   exists r, files ops r /\
    (forall p ip, in_width 32 ip -> src_ip_v4 p = to_be 4 ip ->
      ipv4_is_geo_blocked M p = true <-> exists code, code ∈ list_blocked (gw_geo w) /\ in_country_v4 r ip code) /\
    (forall p ip, in_width 128 ip -> src_ip_v6 p = to_be 16 ip ->
      ipv6_is_geo_blocked M p = true <-> exists code, code ∈ list_blocked (gw_geo w) /\ in_country_v6 r ip code)).
Proof.
  intros Hfiles w Hs. destruct (run_geos_inv (files ops) Hfiles ops (mk_world new_geo ∅)) as [[Hg Ht _] Hsync]; [done|split; cbn; [apply new_geo_inv|set_solver|set_solver]|].
  fold w in Hg, Ht, Hsync. split; [done|]. split; [intros H; by apply Hsync|]. destruct Hg as [H4 H6 Hi _]. unfold index_of in H4, H6.
  destruct (geo_index (gw_geo w)) as [i|].
  - right. destruct Hi as (r & Hr & ->). cbn [default from_option id] in H4, H6. exists r. split; [done|]. specialize (Hfiles r Hr).
    split; intros p ip Hip Hp; [by eapply v4_dropped|by eapply v6_dropped].
  - left. split; [unfold list_blocked; by rewrite Hi, elements_empty|]. rewrite Hi, !wanted_none in *.
    destruct Hs as [(t4 & E4 & L4) (t6 & E6 & L6)], H4 as (t & E & D4), H6 as (t' & E' & D6). rewrite E4 in E. injection E as <-. rewrite E6 in E'. injection E' as <-.
    intros p. unfold ipv4_is_geo_blocked, ipv6_is_geo_blocked. rewrite !bool_decide_eq_false, L4, L6, !lpm_get_some, D4, D6. split; intros (k & Hk & _); set_solver.
Qed.
End Laws.

(** ** A run *)

Definition MAX_GEO_ENTRIES : Z := 131072.
Definition net_entry (n : IpNetwork) (code : string) : option GeoEntry := Some (mk_entry (Some n) (Some (Some (Some code)))).
(** 10/8 and 11/8 are in one country, 2001:db8::/32 in another. *)
Definition sample_file : GeoReader :=
  mk_reader (Some [net_entry (Net4 167772160 8) "de"; None; net_entry (Net4 184549376 8) "DE"]) (Some [net_entry (Net6 42540766411282592856903984951653826560 32) "FR"]).
Definition sample_ops : list GeoOp :=
  [Block (mk_env (Some sample_file) None true) [" de"]; Block (mk_env None None false) ["fr"]; Start (mk_env (Some sample_file) None true)].
Definition sample_world : GeoWorld := run_geos elements MAX_GEO_ENTRIES sample_ops (mk_world new_geo ∅).
Definition geo_maps (g : GeoBlock) : kmaps :=
  mk_kmaps ∅ [] ∅ ∅ ∅ ∅ ∅ ∅ ∅ ∅ (lpm_get 4 (default ∅ (geo_block_v4 g))) (lpm_get 16 (default ∅ (geo_block_v6 g)))
    [] ∅ ∅ [] ∅ ∅ ∅ ∅ ∅ ∅ [] ∅ (fun _ => true) (fun _ => 0).

Lemma sample_file_ok : file_ok MAX_GEO_ENTRIES sample_file.
Proof.
  split; [vm_compute; congruence|vm_compute; congruence|]. intros e n code He. cbn in He.
  repeat (apply elem_of_cons in He as [He|He]; [first [injection He as ->; intros [= <- <-]; cbn; unfold in_width, pow2; lia|done]|]).
  by apply elem_of_nil in He.
Qed.

Lemma blocked_countries_are_dropped_witness :
  list_blocked (gw_geo sample_world) = ["DE"] /\
  blocked_countries (gw_geo sample_world) ⊆ gw_table sample_world /\
  blocked_countries (gw_geo sample_world) = gw_table sample_world.
Proof.
  split; [by vm_compute|].
  destruct (blocked_countries_are_dropped elements MAX_GEO_ENTRIES (fun s => reflexivity _) sample_ops (geo_maps (gw_geo sample_world))) as (H1 & H2 & _).
  - intros r (o & Ho & Hr). repeat (apply elem_of_cons in Ho as [->|Ho]; [destruct Hr as [[= <-]|[=]]; apply sample_file_ok|]). by apply elem_of_nil in Ho.
  - split; eexists; (split; [by vm_compute|done]).
  - split; [exact H1|apply H2; repeat constructor; done].
Defined.

(** A trie that is full refuses networks of a country that is listed and stored as
    blocked all the same. *)
Lemma full_trie_blocks_part :
  let w := run_geos elements 1 [Block (mk_env (Some sample_file) None true) ["DE"]] (mk_world new_geo ∅) in
  list_blocked (gw_geo w) = ["DE"] /\ elements (gw_table w) = ["DE"] /\
  (block_geo_countries elements 1 (mk_env (Some sample_file) None true) ["DE"] (mk_world new_geo ∅)).1 = Ok 1 /\
  in_country_v4 sample_file 167772161 "DE" /\
  (forall p, src_ip_v4 p = to_be 4 167772161 -> ipv4_is_geo_blocked (geo_maps (gw_geo w)) p = false).
Proof.
  split; [by vm_compute|]. split; [by vm_compute|]. split; [by vm_compute|]. split.
  - exists (net_entry (Net4 167772160 8) "de"), 167772160, 8. split; [|done]. cbn. by left.
  - intros p Hp. unfold ipv4_is_geo_blocked. rewrite Hp. by vm_compute.
Qed.
