(* ===== verification/Config.v ===== *)
(** * Configuration

    The settings of the program: what the [config_settings] macro makes of a struct with
    [setting] attributes (macros/src/config.rs), the structs of domain/common/config with
    their rules, the loading of the settings table (core/common/config_loader.rs,
    adapter/persistence/config.rs) and the service that changes them
    (core/common/config_service.rs).  A configuration maps the path of a field,
    [section.field], to its value. *)

From Stdlib Require Import ZArith Lia List Ascii String.
From Corelib Require Import SpecFloat.
From stdpp Require Import base list gmap strings.
From S2P Require Import Prelude RStr Float IpAddr Condition Users Pipeline.

Local Open Scope string_scope.
Local Open Scope Z_scope.

(** ** Values *)

Inductive EnforceMode : Type := Monitor | MlOnly | Enforce.
#[export] Instance EnforceMode_eq_dec : EqDecision EnforceMode.
Proof. solve_decision. Defined.
Definition mode_as_str (m : EnforceMode) : string := match m with Monitor => "monitor" | MlOnly => "ml_only" | Enforce => "enforce" end.
Definition mode_from_str (s : string) : option EnforceMode :=
  if String.eqb s "monitor" then Some Monitor else if String.eqb s "ml_only" then Some MlOnly
  else if String.eqb s "enforce" then Some Enforce else None.

Inductive Value : Type := VString (s : string) | VBool (b : bool) | VVec (l : list string) | VInt (n : Z) | VFloat (x : float) | VMode (m : EnforceMode).
#[export] Instance Value_eq_dec : EqDecision Value.
Proof. solve_decision. Defined.
Abbreviation Config := (gmap string Value) (only parsing).
Abbreviation ConfigValues := (gmap string string) (only parsing).

(** [Display] of floats, which reads back. *)
Class FloatText : Type := { print_f32 : float -> string; print_f64 : float -> string }.
Class FloatTextLaws (F : FloatText) : Prop := {
  law_f32 : forall s x, parse_f32 s = Some x -> parse_f32 (print_f32 x) = Some x;
  law_f64 : forall s x, parse_f64 s = Some x -> parse_f64 (print_f64 x) = Some x }.

(** [str::parse::<i64>] *)
Definition parse_i64 (s : string) : option Z :=
  let '(neg, digits) := match s with String "+" s' => (false, s') | String "-" s' => (true, s') | _ => (false, s) end in
  if is_empty digits then None
  else let! n := parse_digits 0 digits else None in
       let n := if neg then - n else n in
       if (- pow2 63 <=? n) && (n <? pow2 63) then Some n else None.
Definition print_i64 (n : Z) : string := if n <? 0 then String "-" (print_dec (- n)) else print_dec n.

(** ** The macro *)

Inductive RType : Type := TString | TBool | TVec | TUint (width : Z) | TInt64 | TF32 | TF64 | TMode.

(** A [setting] attribute as written; [path] is only read on a struct. *)
Record SettingAttr : Type := mk_attr {
  at_flatten : bool; at_key : option string; at_default : option string; at_default_debug : option string;
  at_path : option string; at_section : option string; at_api : bool }.

Record SettingField : Type := mk_field {
  sf_ident : string; sf_ty : RType; sf_key : string; sf_default : string; sf_default_debug : option string;
  sf_section : option string; sf_api : bool }.
Record MappedSetting : Type := mk_mapped {
  ms_key : string; ms_default : string; ms_default_debug : option string; ms_parent : string; ms_sub_field : string;
  ms_section : option string; ms_api : bool }.
Inductive ConfigField : Type :=
  | Setting (s : SettingField)
  | Flatten (ident : string) (fields : list ConfigField)
  | MappedParent (ident : string) (sub_types : list (string * RType)) (settings : list MappedSetting).

(** A field of a struct: of a plain type, of a struct with settings of its own, or of a
    plain struct. *)
Inductive FieldType : Type := Plain (ty : RType) | Sub (fields : list ConfigField) | Params (sub_types : list (string * RType)).
Record StructDecl : Type := mk_struct {
  sd_section : option string; sd_attrs : list SettingAttr; sd_fields : list (string * FieldType * option SettingAttr) }.

Inductive MacroError : Type := PathWithoutDot | RequiresKey | RequiresDefault | NotASetting.

Definition or_else {A : Type} (a b : option A) : option A := match a with Some _ => a | None => b end.

(** The attributes of the struct that name a key, a default and a path. *)
Fixpoint parse_struct_mapped_settings (attrs : list SettingAttr) (default_section : option string) : result MacroError (list MappedSetting) :=
  match attrs with
  | [] => Ok []
  | a :: attrs =>
      match at_key a, at_default a, at_path a with
      | Some key, Some default, Some path =>
          match split_once "." path with
          | None => Err PathWithoutDot
          | Some (parent, sub_field) =>
              let? rest := parse_struct_mapped_settings attrs default_section in
              Ok (mk_mapped key default (at_default_debug a) parent sub_field (or_else (at_section a) default_section) (at_api a) :: rest)
          end
      | _, _, _ => parse_struct_mapped_settings attrs default_section
      end
  end.

Definition parse_field (ident : string) (ty : FieldType) (attr : option SettingAttr) (default_section : option string) :
    result MacroError (option ConfigField) :=
  match attr with
  | None => Ok None
  | Some a =>
      if at_flatten a then match ty with Sub fields => Ok (Some (Flatten ident fields)) | _ => Err NotASetting end
      else
        match at_key a, at_default a, ty with
        | None, _, _ => Err RequiresKey
        | _, None, _ => Err RequiresDefault
        | Some key, Some default, Plain ty =>
            Ok (Some (Setting (mk_field ident ty key default (at_default_debug a) (or_else (at_section a) default_section) (at_api a))))
        | _, _, _ => Err NotASetting
        end
  end.

Fixpoint expand_fields (mapped : list MappedSetting) (section : option string) (fields : list (string * FieldType * option SettingAttr)) :
    result MacroError (list ConfigField) :=
  match fields with
  | [] => Ok []
  | (ident, ty, attr) :: fields =>
      let? field :=
        match filter (fun m => ms_parent m = ident) mapped, ty with
        | [], _ => parse_field ident ty attr section
        | settings, Params sub_types => Ok (Some (MappedParent ident sub_types settings))
        | _, _ => Err NotASetting
        end in
      let? rest := expand_fields mapped section fields in
      Ok (match field with Some f => f :: rest | None => rest end)
  end.
Definition config_settings_impl (d : StructDecl) : result MacroError (list ConfigField) :=
  let? mapped := parse_struct_mapped_settings (sd_attrs d) (sd_section d) in
  expand_fields mapped (sd_section d) (sd_fields d).

(** *** The generated functions *)

(** The settings of a struct in the order in which the generated functions visit them,
    each with the path of its field. *)
Record Leaf : Type := mk_leaf {
  lf_path : string; lf_ty : RType; lf_key : string; lf_default : string; lf_default_debug : option string; lf_api : bool }.
Definition find_type (sub : string) (l : list (string * RType)) : RType :=
  match List.find (fun p => String.eqb p.1 sub) l with Some p => p.2 | None => TString end.
Fixpoint leaves (prefix : string) (f : ConfigField) : list Leaf :=
  match f with
  | Setting s => [mk_leaf (prefix ++ sf_ident s) (sf_ty s) (sf_key s) (sf_default s) (sf_default_debug s) (sf_api s)]
  | Flatten ident fields => flat_map (leaves (prefix ++ ident ++ ".")) fields
  | MappedParent ident subs settings =>
      map (fun m => mk_leaf (prefix ++ ident ++ "." ++ ms_sub_field m) (find_type (ms_sub_field m) subs) (ms_key m) (ms_default m)
                      (ms_default_debug m) (ms_api m)) settings
  end.
Definition all_leaves (prefix : string) (fields : list ConfigField) : list Leaf := flat_map (leaves prefix) fields.

(** [v.parse()] at the type of the field. *)
Definition parse_value (ty : RType) (v : string) : option Value :=
  match ty with
  | TUint w => VInt <$> parse_uint w v
  | TInt64 => VInt <$> parse_i64 v
  | TF32 => VFloat <$> parse_f32 v
  | TF64 => VFloat <$> parse_f64 v
  | TMode => VMode <$> mode_from_str v
  | TString | TBool | TVec => None
  end.
Definition truthy (v : string) : bool := String.eqb v "true" || String.eqb v "1".
Definition comma_list (v : string) : list string := if is_empty v then [] else map trim (split ","%char v).

(** The expression of a default; [None] where the literal is none of the type. *)
Definition make_default_val (ty : RType) (default : string) : option Value :=
  match ty with
  | TString => Some (VString default)
  | TBool => Some (VBool (truthy default))
  | TVec => Some (VVec (comma_list default))
  | _ => parse_value ty default
  end.
Definition default_text (debug : bool) (l : Leaf) : string :=
  match lf_default_debug l with Some d => if debug then d else lf_default l | None => lf_default l end.
Definition gen_defaults (debug : bool) (ls : list Leaf) : Config :=
  fold_left (fun cfg l => match make_default_val (lf_ty l) (default_text debug l) with Some v => <[lf_path l := v]> cfg | None => cfg end) ls ∅.

Definition apply_value (values : ConfigValues) (cfg : Config) (l : Leaf) : Config :=
  match values !! lf_key l with
  | None => cfg
  | Some v =>
      match lf_ty l with
      | TString => if is_empty v then cfg else <[lf_path l := VString v]> cfg
      | TBool => <[lf_path l := VBool (truthy v)]> cfg
      | TVec => <[lf_path l := VVec (comma_list v)]> cfg
      | ty => match parse_value ty v with Some x => <[lf_path l := x]> cfg | None => cfg end
      end
  end.
Definition gen_apply (values : ConfigValues) (ls : list Leaf) (cfg : Config) : Config := fold_left (apply_value values) ls cfg.
Definition gen_default_settings (debug : bool) (ls : list Leaf) : list (string * string) := map (fun l => (lf_key l, default_text debug l)) ls.

Section Text.
Context `{F : FloatText}.
Definition value_to_string (ty : RType) (v : Value) : string :=
  match v with
  | VString s => s
  | VVec l => join "," l
  | VBool b => if b then "true" else "false"
  | VInt n => print_i64 n
  | VFloat x => match ty with TF32 => print_f32 x | _ => print_f64 x end
  | VMode m => mode_as_str m
  end.
Definition gen_api_values (ls : list Leaf) (cfg : Config) : list (string * string) :=
  omap (fun l => if lf_api l then (fun v => (lf_key l, value_to_string (lf_ty l) v)) <$> cfg !! lf_path l else None) ls.
End Text.

(** The constants with the names of the keys: [API_KEYS] when all of a struct's own keys are in
    one section, else one per section. *)
Definition collect_api_keys (fields : list ConfigField) : list (string * string) :=
  flat_map (fun f => match f with
    | Setting s => if sf_api s then [(default "default" (sf_section s), sf_key s)] else []
    | MappedParent _ _ settings => flat_map (fun m => if ms_api m then [(default "default" (ms_section m), ms_key m)] else []) settings
    | Flatten _ _ => []
    end) fields.
Definition keys_const (name : option string) (fields : list ConfigField) : option (list string) :=
  let keys := collect_api_keys fields in
  let single := bool_decide (Forall (fun p => Some p.1 = head (map fst keys)) keys) in
  match keys, name with
  | [], _ => None
  | _, None => if single then Some (map snd keys) else None
  | _, Some section =>
      if single then None
      else match filter (fun p => p.1 = section) keys with [] => None | l => Some (map snd l) end
  end.

(** ** The structs *)

Definition setting (key default : string) : SettingAttr := mk_attr false (Some key) (Some default) None None None true.
Definition flatten : SettingAttr := mk_attr true None None None None None true.
Definition within (section : string) (a : SettingAttr) : SettingAttr :=
  mk_attr (at_flatten a) (at_key a) (at_default a) (at_default_debug a) (at_path a) (Some section) (at_api a).
Definition debug (d : string) (a : SettingAttr) : SettingAttr :=
  mk_attr (at_flatten a) (at_key a) (at_default a) (Some d) (at_path a) (at_section a) (at_api a).
Definition at_field (path : string) (a : SettingAttr) : SettingAttr :=
  mk_attr (at_flatten a) (at_key a) (at_default a) (at_default_debug a) (Some path) (at_section a) (at_api a).
Definition no_api (a : SettingAttr) : SettingAttr :=
  mk_attr (at_flatten a) (at_key a) (at_default a) (at_default_debug a) (at_path a) (at_section a) false.
Definition expanded (d : StructDecl) : list ConfigField := match config_settings_impl d with Ok l => l | Err _ => [] end.

Definition InferenceConfig : StructDecl := mk_struct None [] [
   ("max_concurrent_flows", Plain (TUint 64), Some (within "inference" (setting "max_concurrent_flows" "10000")));
   ("min_packets_for_inference", Plain (TUint 64), Some (within "inference" (setting "min_packets_for_inference" "5")));
   ("min_packets_floor", Plain (TUint 64), Some (within "ml" (setting "ml_min_packets_floor" "5")));
   ("inference_interval_secs", Plain (TUint 64), Some (within "inference" (setting "inference_interval_secs" "5")));
   ("aggregator_window_secs", Plain (TUint 64), Some (within "inference" (setting "aggregator_window_secs" "30")));
   ("inference_batch_size", Plain (TUint 64), Some (within "inference" (setting "inference_batch_size" "200")));
   ("confirmation_window_fraction", Plain (TUint 64), Some (within "ml" (setting "ml_confirmation_window_fraction" "2")));
   ("traffic_logging_mode", Plain TBool, Some (within "inference" (setting "traffic_logging_mode" "false")));
   ("traffic_log_csv_path", Plain TString, Some (within "inference" (setting "traffic_log_csv_path" "traffic_log.csv")));
   ("onnx_load_timeout_secs", Plain (TUint 64), Some (within "ml" (setting "ml_onnx_load_timeout_secs" "5")));
   ("model_watcher_debounce_secs", Plain (TUint 64), Some (within "ml" (setting "ml_model_watcher_debounce_secs" "5")))].
Definition FlowConfig : StructDecl := mk_struct (Some "ml") [] [
   ("max_packets_per_direction", Plain (TUint 64), Some (setting "ml_flow_max_packets_per_direction" "1000"));
   ("max_periods", Plain (TUint 64), Some (setting "ml_flow_max_periods" "1000"));
   ("idle_threshold_us", Plain (TUint 64), Some (setting "ml_flow_idle_threshold_us" "1000000"));
   ("bulk_min_packets", Plain (TUint 64), Some (setting "ml_flow_bulk_min_packets" "4"));
   ("bulk_min_bytes", Plain (TUint 64), Some (setting "ml_flow_bulk_min_bytes" "1000"));
   ("idle_timeout_us", Plain (TUint 64), Some (setting "ml_flow_idle_timeout_us" "120000000"));
   ("terminated_timeout_us", Plain (TUint 64), Some (setting "ml_flow_terminated_timeout_us" "5000000"))].
Definition DriftConfig : StructDecl := mk_struct (Some "ml") [] [
   ("window_secs", Plain (TUint 64), Some (setting "ml_drift_window_secs" "3600"));
   ("max_snapshots", Plain (TUint 64), Some (setting "ml_drift_max_snapshots" "10000"));
   ("channel_capacity", Plain (TUint 64), Some (setting "ml_drift_channel_capacity" "1024"))].
Definition CircuitBreakerConfig : StructDecl := mk_struct (Some "ml") [] [
   ("threshold", Plain (TUint 32), Some (setting "ml_circuit_breaker_threshold" "5"));
   ("window_secs", Plain (TUint 64), Some (setting "ml_circuit_breaker_window_secs" "60"));
   ("cooldown_secs", Plain (TUint 64), Some (setting "ml_circuit_breaker_cooldown_secs" "120"))].
Definition FlowTraceConfig : StructDecl := mk_struct (Some "flow_trace") [] [
   ("max_file_bytes", Plain (TUint 64), Some (setting "flow_trace_max_file_bytes" "524288000"));
   ("max_file_age_secs", Plain (TUint 64), Some (setting "flow_trace_max_file_age_secs" "3600"));
   ("total_budget_bytes", Plain (TUint 64), Some (setting "flow_trace_total_budget_bytes" "10737418240"));
   ("traffic_logger_channel_capacity", Plain (TUint 64), Some (setting "traffic_logger_channel_capacity" "65536"))].
Definition ModelUploadConfig : StructDecl := mk_struct (Some "model_upload") [] [
   ("max_onnx_bytes", Plain (TUint 64), Some (setting "model_upload_max_onnx_bytes" "104857600"));
   ("max_manifest_bytes", Plain (TUint 64), Some (setting "model_upload_max_manifest_bytes" "65536"));
   ("max_scaler_bytes", Plain (TUint 64), Some (setting "model_upload_max_scaler_bytes" "65536"))].
Definition AclConfig : StructDecl := mk_struct (Some "misc") [] [
   ("geoip_db_path", Plain TString, Some (setting "geoip_db_path" "net-guardia/static/geo/dbip-city-lite.mmdb"));
   ("geoip_cache_capacity", Plain (TUint 64), Some (setting "geoip_cache_capacity" "10000"))].
Definition CorrelationConfig : StructDecl := mk_struct (Some "correlation") [
   at_field "scan.window_secs" (setting "correlation_scan_window_secs" "120");
   at_field "scan.threshold" (setting "correlation_scan_threshold" "20");
   at_field "lateral.window_secs" (setting "correlation_lateral_window_secs" "300");
   at_field "lateral.threshold" (setting "correlation_lateral_threshold" "5");
   at_field "botnet.window_secs" (setting "correlation_botnet_window_secs" "300");
   at_field "botnet.threshold" (setting "correlation_botnet_threshold" "10")] [
   ("scan", Params [("window_secs", TUint 64); ("threshold", TUint 64)], None);
   ("lateral", Params [("window_secs", TUint 64); ("threshold", TUint 64)], None);
   ("botnet", Params [("window_secs", TUint 64); ("threshold", TUint 64)], None);
   ("max_tracked_entries", Plain (TUint 64), Some (setting "correlation_max_tracked_entries" "10000"))].
Definition FusionConfig : StructDecl := mk_struct (Some "fusion") [] [
   ("dedup_window_secs", Plain (TUint 64), Some (setting "fusion_dedup_window_secs" "30"));
   ("repeat_offender_window_secs", Plain (TUint 64), Some (setting "fusion_repeat_offender_window_secs" "7200"));
   ("max_dedup_entries", Plain (TUint 64), Some (setting "fusion_max_dedup_entries" "50000"));
   ("source_count_max_entries", Plain (TUint 64), Some (setting "fusion_source_count_max_entries" "10000"));
   ("repeat_tracker_max_entries", Plain (TUint 64), Some (setting "fusion_repeat_tracker_max_entries" "5000"))].
Definition BeaconingConfig : StructDecl := mk_struct (Some "beaconing") [] [
   ("analysis_interval_secs", Plain (TUint 64), Some (setting "beaconing_analysis_interval_secs" "30"));
   ("min_observations", Plain (TUint 64), Some (setting "beaconing_min_observations" "5"));
   ("cv_threshold", Plain TF64, Some (setting "beaconing_cv_threshold" "0.3"));
   ("max_cache_entries", Plain (TUint 64), Some (setting "beaconing_max_cache_entries" "50000"));
   ("max_timestamps_per_flow", Plain (TUint 64), Some (setting "beaconing_max_timestamps_per_flow" "100"));
   ("expiry_secs", Plain (TUint 64), Some (setting "beaconing_expiry_secs" "600"));
   ("alert_cooldown_secs", Plain (TUint 64), Some (setting "beaconing_alert_cooldown_secs" "300"))].
Definition FlowStatsConfig : StructDecl := mk_struct (Some "flow_stats") [] [
   ("max_snapshot_entries", Plain (TUint 64), Some (setting "flow_stats_max_snapshot_entries" "10000"));
   ("max_top_n", Plain (TUint 64), Some (setting "flow_stats_max_top_n" "10000"))].
Definition DetectionConfig : StructDecl := mk_struct (Some "detection") [] [
   ("fusion", Sub (expanded FusionConfig), Some (flatten));
   ("beaconing", Sub (expanded BeaconingConfig), Some (flatten));
   ("flow_stats", Sub (expanded FlowStatsConfig), Some (flatten));
   ("cleanup_interval_secs", Plain (TUint 64), Some (setting "detection_cleanup_interval_secs" "60"))].
Definition DnsFilterConfig : StructDecl := mk_struct (Some "dns") [] [
   ("max_domains_per_request", Plain (TUint 64), Some (setting "dns_max_domains_per_request" "1000"))].
Definition EbpfConfig : StructDecl := mk_struct None [] [
   ("ingress_ifname", Plain TString, Some (within "network" (setting "ingress_interface" "eth0")));
   ("egress_ifname", Plain TString, Some (within "network" (setting "egress_interface" "eth1")));
   ("refresh_interval", Plain (TUint 64), Some (within "network" (setting "refresh_interval" "5")));
   ("combined_queue_count", Plain (TUint 32), Some (within "xdp" (setting "combined_queue_count" "1")));
   ("channel_size", Plain (TUint 64), Some (within "xdp" (setting "channel_size" "4096")));
   ("fill_queue_size", Plain (TUint 32), Some (within "xdp" (setting "fill_queue_size" "4096")));
   ("comp_queue_size", Plain (TUint 32), Some (within "xdp" (setting "comp_queue_size" "4096")));
   ("tx_queue_size", Plain (TUint 32), Some (within "xdp" (setting "tx_queue_size" "4096")));
   ("rx_queue_size", Plain (TUint 32), Some (within "xdp" (setting "rx_queue_size" "4096")));
   ("frame_size", Plain (TUint 32), Some (within "xdp" (setting "frame_size" "4096")));
   ("frame_count", Plain (TUint 32), Some (within "xdp" (setting "frame_count" "4096")));
   ("packet_buffer_size", Plain (TUint 64), Some (within "xdp" (setting "packet_buffer_size" "2048")));
   ("buffer_pool_capacity", Plain (TUint 64), Some (within "xdp" (setting "buffer_pool_capacity" "1024")));
   ("xsk_completion_batch_size", Plain (TUint 64), Some (within "xdp" (setting "xsk_completion_batch_size" "256")));
   ("xsk_rx_batch_size", Plain (TUint 64), Some (within "xdp" (setting "xsk_rx_batch_size" "64")));
   ("xsk_tx_batch_size", Plain (TUint 64), Some (within "xdp" (setting "xsk_tx_batch_size" "64")));
   ("default_packet_rate", Plain (TUint 64), Some (no_api (within "xdp" (setting "default_packet_rate" "10000"))));
   ("default_syn_rate", Plain (TUint 64), Some (no_api (within "xdp" (setting "default_syn_rate" "100"))));
   ("default_udp_rate", Plain (TUint 64), Some (no_api (within "xdp" (setting "default_udp_rate" "5000"))));
   ("default_dns_rate", Plain (TUint 64), Some (no_api (within "xdp" (setting "default_dns_rate" "200"))))].
Definition HealthConfig : StructDecl := mk_struct (Some "health") [] [
   ("cpu_issue_percent", Plain TF32, Some (setting "health_cpu_issue_percent" "90.0"));
   ("cpu_warn_percent", Plain TF32, Some (setting "health_cpu_warn_percent" "75.0"));
   ("mem_issue_percent", Plain TF32, Some (setting "health_mem_issue_percent" "95.0"));
   ("mem_warn_percent", Plain TF32, Some (setting "health_mem_warn_percent" "80.0"));
   ("disk_issue_percent", Plain TF32, Some (setting "health_disk_issue_percent" "95.0"));
   ("disk_warn_percent", Plain TF32, Some (setting "health_disk_warn_percent" "90.0"));
   ("temp_issue_celsius", Plain TF32, Some (setting "health_temp_issue_celsius" "80.0"));
   ("temp_warn_celsius", Plain TF32, Some (setting "health_temp_warn_celsius" "70.0"));
   ("monitoring_interval_secs", Plain (TUint 64), Some (setting "health_monitoring_interval_secs" "5"));
   ("broadcast_channel_capacity", Plain (TUint 64), Some (setting "health_broadcast_channel_capacity" "100"))].
Definition HttpServerConfig : StructDecl := mk_struct (Some "http") [] [
   ("port", Plain (TUint 16), Some (setting "http_port" "8080"));
   ("cors_allowed_origins", Plain TVec, Some (no_api (setting "cors_allowed_origins" "")));
   ("force_https", Plain TBool, Some (setting "force_https" "false"));
   ("session_expiry_hours", Plain (TUint 64), Some (setting "session_expiry_hours" "24"));
   ("session_idle_timeout_minutes", Plain (TUint 64), Some (setting "session_idle_timeout_minutes" "30"))].
Definition MlConfig : StructDecl := mk_struct None [] [
   ("models_config_name", Plain TString, Some (within "models" (setting "models_config_name" "inference_config.json")));
   ("inference", Sub (expanded InferenceConfig), Some (flatten));
   ("flow", Sub (expanded FlowConfig), Some (flatten));
   ("drift", Sub (expanded DriftConfig), Some (flatten));
   ("circuit_breaker", Sub (expanded CircuitBreakerConfig), Some (flatten));
   ("flow_trace", Sub (expanded FlowTraceConfig), Some (flatten));
   ("model_upload", Sub (expanded ModelUploadConfig), Some (flatten));
   ("alert_channel_capacity", Plain (TUint 64), Some (within "ml" (setting "ml_alert_channel_capacity" "1024")))].
Definition TelegramConfig : StructDecl := mk_struct (Some "telegram") [] [
   ("rate_limit_max_messages", Plain (TUint 32), Some (setting "telegram_rate_limit_max_messages" "20"));
   ("rate_limit_window_secs", Plain (TUint 32), Some (setting "telegram_rate_limit_window_secs" "60"));
   ("max_retries", Plain (TUint 32), Some (setting "telegram_max_retries" "2"))].
Definition SmtpConfig : StructDecl := mk_struct (Some "smtp") [] [
   ("host", Plain TString, Some (setting "smtp_host" ""));
   ("port", Plain (TUint 16), Some (setting "smtp_port" "587"));
   ("username", Plain TString, Some (setting "smtp_username" ""));
   ("sender", Plain TString, Some (setting "smtp_sender" ""));
   ("recipient", Plain TString, Some (setting "smtp_recipient" ""))].
Definition NotificationConfig : StructDecl := mk_struct None [] [
   ("telegram", Sub (expanded TelegramConfig), Some (flatten));
   ("smtp", Sub (expanded SmtpConfig), Some (flatten))].
Definition ObservabilityConfig : StructDecl := mk_struct (Some "observability") [] [
   ("log_level", Plain TString, Some (debug "debug" (setting "log_level" "info")));
   ("log_buffer_capacity", Plain (TUint 64), Some (setting "log_buffer_capacity" "5000"));
   ("log_buffer_max_message_bytes", Plain (TUint 64), Some (setting "log_buffer_max_message_bytes" "8192"));
   ("log_max_download_size", Plain (TUint 64), Some (setting "log_max_download_size" "52428800"));
   ("log_live_default_limit", Plain (TUint 64), Some (setting "log_live_default_limit" "500"));
   ("log_live_max_limit", Plain (TUint 64), Some (setting "log_live_max_limit" "2000"));
   ("fusion_explain_scan_limit", Plain TInt64, Some (setting "fusion_explain_scan_limit" "5000"));
   ("fusion_explain_response_cap", Plain (TUint 64), Some (setting "fusion_explain_response_cap" "200"));
   ("default_event_channel_capacity", Plain (TUint 64), Some (setting "default_event_channel_capacity" "256"));
   ("drop_channel_capacity", Plain (TUint 64), Some (setting "drop_channel_capacity" "100"))].
Definition PipelineConfig : StructDecl := mk_struct (Some "pipeline") [] [
   ("ingress", Plain TVec, Some (no_api (setting "pipeline_ingress" "access_control,rate_limit,service")));
   ("egress", Plain TVec, Some (no_api (setting "pipeline_egress" "")))].
Definition SoarConfig : StructDecl := mk_struct (Some "soar") [] [
   ("max_auto_block_cap", Plain (TUint 32), Some (setting "soar_max_auto_block_cap" "100"));
   ("max_ttl_secs", Plain (TUint 64), Some (setting "soar_max_ttl_secs" "86400"));
   ("handle_concurrency", Plain (TUint 64), Some (setting "soar_handle_concurrency" "16"));
   ("max_pending_unblock_retries", Plain TInt64, Some (setting "soar_max_pending_unblock_retries" "5"));
   ("default_block_ttl_secs", Plain (TUint 64), Some (setting "soar_default_block_ttl_secs" "1800"));
   ("default_rate_limit_factor", Plain TF64, Some (setting "soar_default_rate_limit_factor" "0.5"));
   ("default_rate_limit_ttl_secs", Plain (TUint 64), Some (setting "soar_default_rate_limit_ttl_secs" "600"));
   ("default_webhook_timeout_secs", Plain (TUint 64), Some (setting "soar_default_webhook_timeout_secs" "10"));
   ("default_frequency_window_secs", Plain (TUint 64), Some (setting "soar_default_frequency_window_secs" "60"));
   ("default_single_source_high_min_confidence", Plain TF32, Some (setting "soar_default_single_source_high_min_confidence" "0.95"));
   ("default_cooldown_expiry_secs", Plain (TUint 64), Some (setting "soar_default_cooldown_expiry_secs" "3600"));
   ("rate_limit_cmd_channel_capacity", Plain (TUint 64), Some (setting "soar_rate_limit_cmd_channel_capacity" "64"));
   ("frequency_max_tracked_keys", Plain (TUint 64), Some (setting "soar_frequency_max_tracked_keys" "50000"));
   ("frequency_max_events_per_key", Plain (TUint 64), Some (setting "soar_frequency_max_events_per_key" "200"));
   ("frequency_retention_secs", Plain (TUint 64), Some (setting "soar_frequency_retention_secs" "7200"));
   ("fallback_cooldown_secs", Plain TInt64, Some (setting "soar_fallback_cooldown_secs" "300"));
   ("execution_list_limit", Plain TInt64, Some (setting "soar_execution_list_limit" "100"))].
Definition SuricataConfig : StructDecl := mk_struct (Some "suricata") [] [
   ("enabled", Plain TBool, Some (setting "suricata_enabled" "false"));
   ("binary_path", Plain TString, Some (setting "suricata_binary_path" "/usr/bin/suricata"));
   ("config_path", Plain TString, Some (setting "suricata_config_path" "/etc/netguardia/suricata.yaml"));
   ("eve_log_path", Plain TString, Some (setting "suricata_eve_log_path" "/var/log/netguardia/eve.json"));
   ("auto_restart_on_crash", Plain TBool, Some (setting "suricata_auto_restart_on_crash" "true"));
   ("restart_backoff_secs", Plain (TUint 64), Some (setting "suricata_restart_backoff_secs" "10"));
   ("poll_interval_ms", Plain (TUint 64), Some (setting "suricata_poll_interval_ms" "200"));
   ("file_wait_interval_secs", Plain (TUint 64), Some (setting "suricata_file_wait_interval_secs" "1"));
   ("confidence_high", Plain TF32, Some (setting "suricata_confidence_high" "0.95"));
   ("confidence_medium", Plain TF32, Some (setting "suricata_confidence_medium" "0.80"));
   ("confidence_low", Plain TF32, Some (setting "suricata_confidence_low" "0.65"));
   ("confidence_info", Plain TF32, Some (setting "suricata_confidence_info" "0.50"))].

(** The system section has no attributes; its functions are written out and do the same
    with these. *)
Definition system_fields : list ConfigField := [
   Setting (mk_field "enforce_mode" TMode "enforce_mode" "monitor" None None true);
   Setting (mk_field "database_path" TString "database_path" "net-guardia.db" None None false);
   Setting (mk_field "report_dir" TString "report_dir" "/var/lib/netguardia/reports" None None false);
   Setting (mk_field "log_dir" TString "log_dir" "logs" None None false)].

Definition structs : list StructDecl :=
  [AclConfig; CorrelationConfig; FusionConfig; BeaconingConfig; FlowStatsConfig; DetectionConfig; DnsFilterConfig; EbpfConfig; HealthConfig;
   HttpServerConfig; InferenceConfig; FlowConfig; DriftConfig; CircuitBreakerConfig; FlowTraceConfig; ModelUploadConfig; MlConfig;
   TelegramConfig; SmtpConfig; NotificationConfig; ObservabilityConfig; PipelineConfig; SoarConfig; SuricataConfig].
Lemma structs_expand : Forall (fun d => is_ok (config_settings_impl d) = true) structs.
Proof. by repeat (constructor; [by vm_compute|]). Qed.

(** [AppConfig]: its sections in the order in which every operation goes through them. *)
Definition app_sections : list (string * list ConfigField) :=
  [("acl", expanded AclConfig); ("correlation", expanded CorrelationConfig); ("detection", expanded DetectionConfig);
   ("dns_filter", expanded DnsFilterConfig); ("ebpf", expanded EbpfConfig); ("health", expanded HealthConfig);
   ("http_server", expanded HttpServerConfig); ("ml", expanded MlConfig); ("notification", expanded NotificationConfig);
   ("observability", expanded ObservabilityConfig); ("pipeline", expanded PipelineConfig); ("soar", expanded SoarConfig);
   ("suricata", expanded SuricataConfig); ("system", system_fields)].
Definition app_leaves : list Leaf := Eval vm_compute in flat_map (fun s => all_leaves (s.1 ++ ".") s.2) app_sections.

Definition defaults (dbg : bool) : Config := gen_defaults dbg app_leaves.
Definition apply_config_values (values : ConfigValues) (cfg : Config) : Config := gen_apply values app_leaves cfg.
Definition default_settings (dbg : bool) : list (string * string) := gen_default_settings dbg app_leaves.

(** ** The rules *)

Inductive ConfigError : Type := InvalidConfigField (field : string) | InvalidStage (stage valid : string) | EncryptFailed | ConfigDatabase.

#[export] Instance ConfigError_eq_dec : EqDecision ConfigError.
Proof. solve_decision. Defined.

Definition require_config_field (ok : bool) (field : string) : result ConfigError unit := if ok then Ok tt else Err (InvalidConfigField field).
Definition int (cfg : Config) (path : string) : Z := match cfg !! path with Some (VInt n) => n | _ => 0 end.
Definition flt_of (cfg : Config) (path : string) : float := match cfg !! path with Some (VFloat x) => x | _ => S754_nan end.
Definition vec_of (cfg : Config) (path : string) : list string := match cfg !! path with Some (VVec l) => l | _ => [] end.
(** [(lo..=hi).contains(&x)] *)
Definition within_f32 (lo hi : string) (x : float) : bool :=
  match parse_f32 lo, parse_f32 hi with Some lo, Some hi => fle lo x && fle x hi | _, _ => false end.
Definition within_f64 (lo hi : string) (x : float) : bool :=
  match parse_f64 lo, parse_f64 hi with Some lo, Some hi => fle lo x && fle x hi | _, _ => false end.

Definition validate_CorrelationDetectorParams (cfg : Config) (path prefix : string) : result ConfigError unit :=
  let? _ := require_config_field (0 <? int cfg (path ++ ".window_secs")) (prefix ++ ".window_secs") in
  require_config_field (0 <? int cfg (path ++ ".threshold")) (prefix ++ ".threshold").
Definition validate_FusionConfig (cfg : Config) : result ConfigError unit :=
  let? _ := require_config_field (0 <? int cfg "detection.fusion.max_dedup_entries") "detection.fusion.max_dedup_entries" in
  let? _ := require_config_field (0 <? int cfg "detection.fusion.source_count_max_entries") "detection.fusion.source_count_max_entries" in
  let? _ := require_config_field (0 <? int cfg "detection.fusion.repeat_tracker_max_entries") "detection.fusion.repeat_tracker_max_entries" in
  require_config_field (0 <? int cfg "detection.fusion.dedup_window_secs") "detection.fusion.dedup_window_secs".
Definition validate_BeaconingConfig (cfg : Config) : result ConfigError unit :=
  let? _ := require_config_field (0 <? int cfg "detection.beaconing.min_observations") "detection.beaconing.min_observations" in
  let? _ := require_config_field (0 <? int cfg "detection.beaconing.analysis_interval_secs") "detection.beaconing.analysis_interval_secs" in
  let? _ := require_config_field (is_finite (flt_of cfg "detection.beaconing.cv_threshold") && fgt (flt_of cfg "detection.beaconing.cv_threshold") (S754_zero false)) "detection.beaconing.cv_threshold" in
  let? _ := require_config_field (0 <? int cfg "detection.beaconing.max_cache_entries") "detection.beaconing.max_cache_entries" in
  let? _ := require_config_field (1 <? int cfg "detection.beaconing.max_timestamps_per_flow") "detection.beaconing.max_timestamps_per_flow" in
  let? _ := require_config_field (int cfg "detection.beaconing.min_observations" <=? int cfg "detection.beaconing.max_timestamps_per_flow") "detection.beaconing.min_observations" in
  require_config_field (0 <? int cfg "detection.beaconing.expiry_secs") "detection.beaconing.expiry_secs".
Definition validate_FlowStatsConfig (cfg : Config) : result ConfigError unit :=
  let? _ := require_config_field (0 <? int cfg "detection.flow_stats.max_snapshot_entries") "detection.flow_stats.max_snapshot_entries" in
  require_config_field (int cfg "detection.flow_stats.max_snapshot_entries" <=? int cfg "detection.flow_stats.max_top_n") "detection.flow_stats.max_top_n".
Definition validate_SmtpConfig (cfg : Config) : result ConfigError unit :=
  require_config_field (0 <? int cfg "notification.smtp.port") "notification.smtp.port".
Definition validate_AclConfig (cfg : Config) : result ConfigError unit :=
  require_config_field (0 <? int cfg "acl.geoip_cache_capacity") "acl.geoip_cache_capacity".
Definition validate_CorrelationConfig (cfg : Config) : result ConfigError unit :=
  let? _ := require_config_field (0 <? int cfg "correlation.max_tracked_entries") "correlation.max_tracked_entries" in
  let? _ := validate_CorrelationDetectorParams cfg "correlation.scan" "correlation.scan" in
  let? _ := validate_CorrelationDetectorParams cfg "correlation.lateral" "correlation.lateral" in
  validate_CorrelationDetectorParams cfg "correlation.botnet" "correlation.botnet".
Definition validate_DetectionConfig (cfg : Config) : result ConfigError unit :=
  let? _ := require_config_field (0 <? int cfg "detection.cleanup_interval_secs") "detection.cleanup_interval_secs" in
  let? _ := validate_FusionConfig cfg in
  let? _ := validate_BeaconingConfig cfg in
  validate_FlowStatsConfig cfg.
Definition validate_DnsFilterConfig (cfg : Config) : result ConfigError unit :=
  require_config_field (0 <? int cfg "dns_filter.max_domains_per_request") "dns.max_domains_per_request".
Definition validate_EbpfConfig (cfg : Config) : result ConfigError unit :=
  let? _ := require_config_field (0 <? int cfg "ebpf.refresh_interval") "ebpf.refresh_interval" in
  let? _ := require_config_field (int cfg "ebpf.refresh_interval" <=? 3600) "ebpf.refresh_interval" in
  let? _ := require_config_field (0 <? int cfg "ebpf.combined_queue_count") "ebpf.combined_queue_count" in
  let? _ := require_config_field (0 <? int cfg "ebpf.channel_size") "ebpf.channel_size" in
  let? _ := require_config_field (0 <? int cfg "ebpf.fill_queue_size") "ebpf.fill_queue_size" in
  let? _ := require_config_field (0 <? int cfg "ebpf.comp_queue_size") "ebpf.comp_queue_size" in
  let? _ := require_config_field (0 <? int cfg "ebpf.tx_queue_size") "ebpf.tx_queue_size" in
  let? _ := require_config_field (0 <? int cfg "ebpf.rx_queue_size") "ebpf.rx_queue_size" in
  let? _ := require_config_field (0 <? int cfg "ebpf.frame_size") "ebpf.frame_size" in
  let? _ := require_config_field (0 <? int cfg "ebpf.frame_count") "ebpf.frame_count" in
  let? _ := require_config_field (0 <? int cfg "ebpf.packet_buffer_size") "ebpf.packet_buffer_size" in
  let? _ := require_config_field (0 <? int cfg "ebpf.buffer_pool_capacity") "ebpf.buffer_pool_capacity" in
  let? _ := require_config_field (0 <? int cfg "ebpf.xsk_completion_batch_size") "ebpf.xsk_completion_batch_size" in
  let? _ := require_config_field (0 <? int cfg "ebpf.xsk_rx_batch_size") "ebpf.xsk_rx_batch_size" in
  require_config_field (0 <? int cfg "ebpf.xsk_tx_batch_size") "ebpf.xsk_tx_batch_size".
Definition validate_HealthConfig (cfg : Config) : result ConfigError unit :=
  let? _ := require_config_field (0 <? int cfg "health.monitoring_interval_secs") "health.monitoring_interval_secs" in
  let? _ := require_config_field (0 <? int cfg "health.broadcast_channel_capacity") "health.broadcast_channel_capacity" in
  let? _ := require_config_field (within_f32 "0.0" "100.0" (flt_of cfg "health.cpu_warn_percent")) "health.cpu_warn_percent" in
  let? _ := require_config_field (within_f32 "0.0" "100.0" (flt_of cfg "health.cpu_issue_percent")) "health.cpu_issue_percent" in
  let? _ := require_config_field (fle (flt_of cfg "health.cpu_warn_percent") (flt_of cfg "health.cpu_issue_percent")) "health.cpu_warn_percent" in
  let? _ := require_config_field (within_f32 "0.0" "100.0" (flt_of cfg "health.mem_warn_percent")) "health.mem_warn_percent" in
  let? _ := require_config_field (within_f32 "0.0" "100.0" (flt_of cfg "health.mem_issue_percent")) "health.mem_issue_percent" in
  let? _ := require_config_field (fle (flt_of cfg "health.mem_warn_percent") (flt_of cfg "health.mem_issue_percent")) "health.mem_warn_percent" in
  let? _ := require_config_field (within_f32 "0.0" "100.0" (flt_of cfg "health.disk_warn_percent")) "health.disk_warn_percent" in
  let? _ := require_config_field (within_f32 "0.0" "100.0" (flt_of cfg "health.disk_issue_percent")) "health.disk_issue_percent" in
  let? _ := require_config_field (fle (flt_of cfg "health.disk_warn_percent") (flt_of cfg "health.disk_issue_percent")) "health.disk_warn_percent" in
  require_config_field (fle (flt_of cfg "health.temp_warn_celsius") (flt_of cfg "health.temp_issue_celsius")) "health.temp_warn_celsius".
Definition validate_HttpServerConfig (cfg : Config) : result ConfigError unit :=
  let? _ := require_config_field (0 <? int cfg "http_server.port") "http_server.port" in
  let? _ := require_config_field (0 <? int cfg "http_server.session_expiry_hours") "http_server.session_expiry_hours" in
  require_config_field (0 <? int cfg "http_server.session_idle_timeout_minutes") "http_server.session_idle_timeout_minutes".
Definition validate_CircuitBreakerConfig (cfg : Config) : result ConfigError unit :=
  let? _ := require_config_field (0 <? int cfg "ml.circuit_breaker.threshold") "ml.circuit_breaker.threshold" in
  require_config_field (0 <? int cfg "ml.circuit_breaker.window_secs") "ml.circuit_breaker.window_secs".
Definition validate_DriftConfig (cfg : Config) : result ConfigError unit :=
  let? _ := require_config_field (0 <? int cfg "ml.drift.window_secs") "ml.drift.window_secs" in
  let? _ := require_config_field (0 <? int cfg "ml.drift.max_snapshots") "ml.drift.max_snapshots" in
  require_config_field (0 <? int cfg "ml.drift.channel_capacity") "ml.drift.channel_capacity".
Definition validate_FlowConfig (cfg : Config) : result ConfigError unit :=
  let? _ := require_config_field (0 <? int cfg "ml.flow.max_packets_per_direction") "ml.flow.max_packets_per_direction" in
  let? _ := require_config_field (0 <? int cfg "ml.flow.max_periods") "ml.flow.max_periods" in
  let? _ := require_config_field (0 <? int cfg "ml.flow.idle_threshold_us") "ml.flow.idle_threshold_us" in
  let? _ := require_config_field (0 <? int cfg "ml.flow.bulk_min_packets") "ml.flow.bulk_min_packets" in
  let? _ := require_config_field (0 <? int cfg "ml.flow.bulk_min_bytes") "ml.flow.bulk_min_bytes" in
  let? _ := require_config_field (0 <? int cfg "ml.flow.idle_timeout_us") "ml.flow.idle_timeout_us" in
  require_config_field (0 <? int cfg "ml.flow.terminated_timeout_us") "ml.flow.terminated_timeout_us".
Definition validate_FlowTraceConfig (cfg : Config) : result ConfigError unit :=
  let? _ := require_config_field (0 <? int cfg "ml.flow_trace.max_file_bytes") "ml.flow_trace.max_file_bytes" in
  let? _ := require_config_field (0 <? int cfg "ml.flow_trace.max_file_age_secs") "ml.flow_trace.max_file_age_secs" in
  let? _ := require_config_field (int cfg "ml.flow_trace.max_file_bytes" <=? int cfg "ml.flow_trace.total_budget_bytes") "ml.flow_trace.total_budget_bytes" in
  require_config_field (0 <? int cfg "ml.flow_trace.traffic_logger_channel_capacity") "ml.flow_trace.traffic_logger_channel_capacity".
Definition validate_InferenceConfig (cfg : Config) : result ConfigError unit :=
  let? _ := require_config_field (0 <? int cfg "ml.inference.max_concurrent_flows") "ml.inference.max_concurrent_flows" in
  let? _ := require_config_field (0 <? int cfg "ml.inference.min_packets_for_inference") "ml.inference.min_packets_for_inference" in
  let? _ := require_config_field (0 <? int cfg "ml.inference.min_packets_floor") "ml.inference.min_packets_floor" in
  let? _ := require_config_field (0 <? int cfg "ml.inference.inference_interval_secs") "ml.inference.inference_interval_secs" in
  let? _ := require_config_field (0 <? int cfg "ml.inference.aggregator_window_secs") "ml.inference.aggregator_window_secs" in
  let? _ := require_config_field (0 <? int cfg "ml.inference.inference_batch_size") "ml.inference.inference_batch_size" in
  let? _ := require_config_field (0 <? int cfg "ml.inference.confirmation_window_fraction") "ml.inference.confirmation_window_fraction" in
  require_config_field (0 <? int cfg "ml.inference.onnx_load_timeout_secs") "ml.inference.onnx_load_timeout_secs".
Definition validate_ModelUploadConfig (cfg : Config) : result ConfigError unit :=
  let? _ := require_config_field (0 <? int cfg "ml.model_upload.max_onnx_bytes") "ml.model_upload.max_onnx_bytes" in
  let? _ := require_config_field (0 <? int cfg "ml.model_upload.max_manifest_bytes") "ml.model_upload.max_manifest_bytes" in
  require_config_field (0 <? int cfg "ml.model_upload.max_scaler_bytes") "ml.model_upload.max_scaler_bytes".
Definition validate_MlConfig (cfg : Config) : result ConfigError unit :=
  let? _ := require_config_field (0 <? int cfg "ml.alert_channel_capacity") "ml.alert_channel_capacity" in
  let? _ := validate_InferenceConfig cfg in
  let? _ := validate_FlowConfig cfg in
  let? _ := validate_DriftConfig cfg in
  let? _ := validate_CircuitBreakerConfig cfg in
  let? _ := validate_FlowTraceConfig cfg in
  validate_ModelUploadConfig cfg.
Definition validate_NotificationConfig (cfg : Config) : result ConfigError unit :=
  validate_SmtpConfig cfg.
Definition validate_ObservabilityConfig (cfg : Config) : result ConfigError unit :=
  let? _ := require_config_field (0 <? int cfg "observability.log_buffer_capacity") "observability.log_buffer_capacity" in
  let? _ := require_config_field (0 <? int cfg "observability.log_buffer_max_message_bytes") "observability.log_buffer_max_message_bytes" in
  let? _ := require_config_field (0 <? int cfg "observability.log_live_default_limit") "observability.log_live_default_limit" in
  let? _ := require_config_field (int cfg "observability.log_live_default_limit" <=? int cfg "observability.log_live_max_limit") "observability.log_live_max_limit" in
  let? _ := require_config_field (0 <? int cfg "observability.fusion_explain_scan_limit") "observability.fusion_explain_scan_limit" in
  let? _ := require_config_field (0 <? int cfg "observability.fusion_explain_response_cap") "observability.fusion_explain_response_cap" in
  let? _ := require_config_field (int cfg "observability.fusion_explain_response_cap" <? pow2 63) "observability.fusion_explain_response_cap" in
  let? _ := require_config_field (int cfg "observability.fusion_explain_response_cap" <? int cfg "observability.fusion_explain_scan_limit") "observability.fusion_explain_scan_limit" in
  let? _ := require_config_field (0 <? int cfg "observability.default_event_channel_capacity") "observability.default_event_channel_capacity" in
  require_config_field (0 <? int cfg "observability.drop_channel_capacity") "observability.drop_channel_capacity".
Definition validate_SoarConfig (cfg : Config) : result ConfigError unit :=
  let? _ := require_config_field (0 <? int cfg "soar.handle_concurrency") "soar.handle_concurrency" in
  let? _ := require_config_field (0 <? int cfg "soar.rate_limit_cmd_channel_capacity") "soar.rate_limit_cmd_channel_capacity" in
  let? _ := require_config_field (0 <? int cfg "soar.max_auto_block_cap") "soar.max_auto_block_cap" in
  let? _ := require_config_field (0 <? int cfg "soar.max_ttl_secs") "soar.max_ttl_secs" in
  let? _ := require_config_field (0 <=? int cfg "soar.max_pending_unblock_retries") "soar.max_pending_unblock_retries" in
  let? _ := require_config_field (0 <? int cfg "soar.default_block_ttl_secs") "soar.default_block_ttl_secs" in
  let? _ := require_config_field (int cfg "soar.default_block_ttl_secs" <=? int cfg "soar.max_ttl_secs") "soar.default_block_ttl_secs" in
  let? _ := require_config_field (within_f64 "0.01" "1.0" (flt_of cfg "soar.default_rate_limit_factor")) "soar.default_rate_limit_factor" in
  let? _ := require_config_field (0 <? int cfg "soar.default_rate_limit_ttl_secs") "soar.default_rate_limit_ttl_secs" in
  let? _ := require_config_field (int cfg "soar.default_rate_limit_ttl_secs" <=? int cfg "soar.max_ttl_secs") "soar.default_rate_limit_ttl_secs" in
  let? _ := require_config_field (0 <? int cfg "soar.default_webhook_timeout_secs") "soar.default_webhook_timeout_secs" in
  let? _ := require_config_field (0 <? int cfg "soar.default_frequency_window_secs") "soar.default_frequency_window_secs" in
  let? _ := require_config_field (0 <? int cfg "soar.default_cooldown_expiry_secs") "soar.default_cooldown_expiry_secs" in
  let? _ := require_config_field (0 <? int cfg "soar.frequency_max_tracked_keys") "soar.frequency_max_tracked_keys" in
  let? _ := require_config_field (0 <? int cfg "soar.execution_list_limit") "soar.execution_list_limit" in
  let? _ := require_config_field (0 <? int cfg "soar.frequency_max_events_per_key") "soar.frequency_max_events_per_key" in
  let? _ := require_config_field (0 <? int cfg "soar.frequency_retention_secs") "soar.frequency_retention_secs" in
  let? _ := require_config_field (0 <=? int cfg "soar.fallback_cooldown_secs") "soar.fallback_cooldown_secs" in
  require_config_field (within_f32 "0.0" "1.0" (flt_of cfg "soar.default_single_source_high_min_confidence")) "soar.default_single_source_high_min_confidence".
Definition validate_SuricataConfig (cfg : Config) : result ConfigError unit :=
  let? _ := require_config_field (0 <? int cfg "suricata.restart_backoff_secs") "suricata.restart_backoff_secs" in
  let? _ := require_config_field (0 <? int cfg "suricata.poll_interval_ms") "suricata.poll_interval_ms" in
  let? _ := require_config_field (0 <? int cfg "suricata.file_wait_interval_secs") "suricata.file_wait_interval_secs" in
  let? _ := require_config_field (within_f32 "0.0" "1.0" (flt_of cfg "suricata.confidence_high")) "suricata.confidence_high" in
  let? _ := require_config_field (within_f32 "0.0" "1.0" (flt_of cfg "suricata.confidence_medium")) "suricata.confidence_medium" in
  let? _ := require_config_field (within_f32 "0.0" "1.0" (flt_of cfg "suricata.confidence_low")) "suricata.confidence_low" in
  let? _ := require_config_field (within_f32 "0.0" "1.0" (flt_of cfg "suricata.confidence_info")) "suricata.confidence_info" in
  let? _ := require_config_field (fge (flt_of cfg "suricata.confidence_high") (flt_of cfg "suricata.confidence_medium")) "suricata.confidence_high" in
  let? _ := require_config_field (fge (flt_of cfg "suricata.confidence_medium") (flt_of cfg "suricata.confidence_low")) "suricata.confidence_medium" in
  require_config_field (fge (flt_of cfg "suricata.confidence_low") (flt_of cfg "suricata.confidence_info")) "suricata.confidence_low".
Definition stage_error {A : Type} (r : result pipeline_error A) : result ConfigError A :=
  match r with Ok a => Ok a | Err (InvalidPipelineStage stage valid) => Err (InvalidStage stage valid) end.
Definition validate_PipelineConfig (cfg : Config) : result ConfigError unit :=
  let? _ := stage_error (validate_stage_list (vec_of cfg "pipeline.ingress")) in
  stage_error (validate_stage_list (vec_of cfg "pipeline.egress")).
Definition validate_SystemConfig (cfg : Config) : result ConfigError unit :=
  require_config_field (match cfg !! "system.enforce_mode" with Some (VMode m) => bool_decide (is_Some (mode_from_str (mode_as_str m))) | _ => false end)
    "system.enforce_mode".

Definition validate (cfg : Config) : result ConfigError unit :=
  let? _ := validate_AclConfig cfg in
  let? _ := validate_CorrelationConfig cfg in
  let? _ := validate_DetectionConfig cfg in
  let? _ := validate_DnsFilterConfig cfg in
  let? _ := validate_EbpfConfig cfg in
  let? _ := validate_HealthConfig cfg in
  let? _ := validate_HttpServerConfig cfg in
  let? _ := validate_MlConfig cfg in
  let? _ := validate_NotificationConfig cfg in
  let? _ := validate_ObservabilityConfig cfg in
  let? _ := validate_PipelineConfig cfg in
  let? _ := validate_SoarConfig cfg in
  let? _ := validate_SuricataConfig cfg in
  validate_SystemConfig cfg.

Definition validate_config_values (values : ConfigValues) : result ConfigError unit :=
  match values !! "enforce_mode" with
  | Some mode => require_config_field (bool_decide (is_Some (mode_from_str mode))) "system.enforce_mode"
  | None => Ok tt
  end.
Definition from_config_values (dbg : bool) (values : ConfigValues) : result ConfigError Config :=
  let? _ := validate_config_values values in
  let cfg := apply_config_values values (defaults dbg) in
  let? _ := validate cfg in
  Ok cfg.

(** ** Sections of the API *)

Inductive ConfigSection : Type :=
  | SNetwork | SHttp | SInference | SXdp | SModels | SMisc | SSoar | SMl | SFlowTrace | SModelUpload | STelegram | SDns | SSmtp | SSuricata
  | SDetection | SFusion | SBeaconing | SCorrelation | SObservability.
Definition ALL_SECTIONS : list ConfigSection :=
  [SNetwork; SHttp; SInference; SXdp; SModels; SMisc; SSoar; SMl; SFlowTrace; SModelUpload; STelegram; SDns; SSmtp; SSuricata;
   SDetection; SFusion; SBeaconing; SCorrelation; SObservability].
Definition section_name (s : ConfigSection) : string :=
  match s with
  | SNetwork => "network" | SHttp => "http" | SInference => "inference" | SXdp => "xdp" | SModels => "models" | SMisc => "misc"
  | SSoar => "soar" | SMl => "ml" | SFlowTrace => "flow_trace" | SModelUpload => "model_upload" | STelegram => "telegram" | SDns => "dns"
  | SSmtp => "smtp" | SSuricata => "suricata" | SDetection => "detection" | SFusion => "fusion" | SBeaconing => "beaconing"
  | SCorrelation => "correlation" | SObservability => "observability"
  end.
(** [None] is a constant the macro does not generate. *)
Definition section_consts (s : ConfigSection) : list (option (list string)) :=
  let API_KEYS d := keys_const None (expanded d) in
  let KEYS section d := keys_const (Some section) (expanded d) in
  match s with
  | SNetwork => [KEYS "network" EbpfConfig]
  | SHttp => [API_KEYS HttpServerConfig]
  | SInference => [KEYS "inference" InferenceConfig]
  | SXdp => [KEYS "xdp" EbpfConfig]
  | SModels => [KEYS "models" MlConfig]
  | SMisc => [API_KEYS AclConfig]
  | SSoar => [API_KEYS SoarConfig]
  | SMl => [KEYS "ml" InferenceConfig; API_KEYS DriftConfig; KEYS "ml" MlConfig; API_KEYS CircuitBreakerConfig; API_KEYS FlowConfig]
  | SFlowTrace => [API_KEYS FlowTraceConfig]
  | SModelUpload => [API_KEYS ModelUploadConfig]
  | STelegram => [API_KEYS TelegramConfig]
  | SDns => [API_KEYS DnsFilterConfig]
  | SSmtp => [API_KEYS SmtpConfig]
  | SSuricata => [API_KEYS SuricataConfig]
  | SDetection => [API_KEYS DetectionConfig]
  | SFusion => [API_KEYS FusionConfig]
  | SBeaconing => [API_KEYS BeaconingConfig]
  | SCorrelation => [API_KEYS CorrelationConfig]
  | SObservability => [API_KEYS ObservabilityConfig]
  end.
Definition section_keys (s : ConfigSection) : list string := flat_map (default []) (section_consts s).
Lemma section_consts_exist : Forall (fun s => Forall is_Some (section_consts s)) ALL_SECTIONS.
Proof. apply (bool_decide_unpack _). by vm_compute. Qed.

(** ** The settings table *)

(** The tables of settings and of secrets, with the configuration in force. *)
Record ConfigWorld : Type := mk_cworld { cw_settings : gmap string string; cw_secrets : gmap string string; cw_config : Config }.

Definition get_config_value (works : bool) (key : string) (t : gmap string string) : result ConfigError (option string) :=
  if works then Ok (t !! key) else Err ConfigDatabase.
Definition set_config_value (works : bool) (key value : string) (t : gmap string string) : result ConfigError (gmap string string) :=
  if works then Ok (<[key := value]> t) else Err ConfigDatabase.
(** One transaction over both tables. *)
Definition insert_or_replace (rows : list (string * string)) (t : gmap string string) : gmap string string :=
  fold_left (fun t kv => <[kv.1 := kv.2]> t) rows t.
Definition update_config_values_atomically (works : bool) (config_values secrets : list (string * string)) (w : ConfigWorld) :
    result ConfigError unit * ConfigWorld :=
  if works then (Ok tt, mk_cworld (insert_or_replace config_values (cw_settings w)) (insert_or_replace secrets (cw_secrets w)) (cw_config w))
  else (Err ConfigDatabase, w).

(** [reads] says for each key whether reading it works. *)
Fixpoint read_values (reads : string -> bool) (get : string -> option string) (keys : list (string * string)) (values : ConfigValues) :
    result ConfigError ConfigValues :=
  match keys with
  | [] => Ok values
  | (key, _) :: keys =>
      if reads key then read_values reads get keys (match get key with Some v => <[key := v]> values | None => values end)
      else Err ConfigDatabase
  end.
Definition load_app_config (dbg : bool) (reads : string -> bool) (get : string -> option string) : result ConfigError Config :=
  let? values := read_values reads get (default_settings dbg) ∅ in
  from_config_values dbg values.

Fixpoint seed_rows (works : string -> bool) (rows : list (string * string)) (t : gmap string string) : result ConfigError unit * gmap string string :=
  match rows with
  | [] => (Ok tt, t)
  | (key, value) :: rows =>
      match get_config_value (works key) key t with
      | Err e => (Err e, t)
      | Ok (Some _) => seed_rows works rows t
      | Ok None => match set_config_value (works key) key value t with Ok t => seed_rows works rows t | Err e => (Err e, t) end
      end
  end.
Definition seed_config_defaults (dbg : bool) (works : string -> bool) (t : gmap string string) := seed_rows works (default_settings dbg) t.

(** ** The service *)

Section Service.
Context `{F : FloatText} (dbg : bool).

Definition api_setting_values (cfg : Config) : gmap string string := list_to_map (reverse (gen_api_values app_leaves cfg)).

Definition SECRET_KEYS : list string := ["smtp_password"].
Definition CLEARABLE_CONFIG_KEYS : list string := ["smtp_host"; "smtp_username"; "smtp_sender"; "smtp_recipient"].

(** [v.get(key)] of an object *)
Definition object_get (j : Json) (key : string) : option Json :=
  match j with JObject l => option_map snd (List.find (fun p => String.eqb p.1 key) l) | _ => None end.
Definition scalar_as_string (v : Json) : option string :=
  match v with
  | JBool b => Some (if b then "true" else "false")
  | JNumber text => Some text
  | _ => None
  end.
Definition json_value_as_string (v : Json) : option string :=
  match v with JString s => if is_empty s then None else Some s | v => scalar_as_string v end.
Definition config_json_value_as_string (key : string) (v : Json) : option string :=
  match v with
  | JString s => if bool_decide (key ∈ CLEARABLE_CONFIG_KEYS) then Some (trim s) else if is_empty s then None else Some s
  | v => scalar_as_string v
  end.

(** The values a body has for the keys of its sections. *)
Definition section_object (body : Json) (name : string) : option Json :=
  match object_get body name with Some (JObject l) => Some (JObject l) | _ => None end.
Definition submitted_values (body : Json) : list (string * string) :=
  flat_map (fun s =>
    match section_object body (section_name s) with
    | None => []
    | Some obj => omap (fun key => let! v := object_get obj key else None in let! text := config_json_value_as_string key v else None in Some (key, text))
                    (section_keys s)
    end) ALL_SECTIONS.

(** Sections of secrets are named by the part of the key before the first underscore. *)
Definition secret_section (key : string) : string := match split "_" key with s :: _ => s | [] => "" end.
Definition submitted_secret (body : Json) (key : string) : option string :=
  let! obj := section_object body (secret_section key) else None in
  let! v := object_get obj key else None in
  json_value_as_string v.
Fixpoint submitted_secrets (encrypt : string -> option string) (body : Json) (keys : list string) : result ConfigError (list (string * string)) :=
  match keys with
  | [] => Ok []
  | key :: keys =>
      match submitted_secret body key with
      | None => submitted_secrets encrypt body keys
      | Some val =>
          match encrypt val with
          | None => Err EncryptFailed
          | Some envelope => let? rest := submitted_secrets encrypt body keys in Ok ((key, envelope) :: rest)
          end
      end
  end.

Definition pipeline_keys : list (string * string) := [("ingress", "pipeline_ingress"); ("egress", "pipeline_egress")].
Fixpoint submitted_stages (obj : Json) (fields : list (string * string)) : result ConfigError (list (string * string)) :=
  match fields with
  | [] => Ok []
  | (field, db_key) :: fields =>
      match object_get obj field with
      | Some (JString val) =>
          let? stages := stage_error (normalize_pipeline_stages val) in
          let? rest := submitted_stages obj fields in
          Ok ((db_key, join "," stages) :: rest)
      | _ => submitted_stages obj fields
      end
  end.

Fixpoint reject_unapplied_config_values (config_values : list (string * string)) (new_cfg : Config) : result ConfigError unit :=
  match config_values with
  | [] => Ok tt
  | (key, value) :: config_values =>
      if bool_decide (key ∈ SECRET_KEYS) || String.eqb key "pipeline_ingress" || String.eqb key "pipeline_egress"
      then reject_unapplied_config_values config_values new_cfg
      else
        match api_setting_values new_cfg !! key with
        | None => reject_unapplied_config_values config_values new_cfg
        | Some applied => if String.eqb applied value then reject_unapplied_config_values config_values new_cfg else Err (InvalidConfigField key)
        end
  end.

(** What may fail during a request: the reads of the table and the write; the service has
    a store of secrets or not. *)
Record ConfigEnv : Type := mk_cenv { ce_reads : string -> bool; ce_write : bool; ce_secrets : option (string -> option string) }.

(** What a request asks for: rows for both tables, and the names it answers with. *)
Definition prepare_update (env : ConfigEnv) (body : Json) : result ConfigError (list (string * string) * list (string * string)) :=
  let config_values := submitted_values body in
  let? secrets := match ce_secrets env with Some encrypt => submitted_secrets encrypt body SECRET_KEYS | None => Ok [] end in
  let config_values := (config_values ++ map (fun s => (s.1, "")) secrets)%list in
  let? stages := match section_object body "pipeline" with Some obj => submitted_stages obj pipeline_keys | None => Ok [] end in
  Ok ((config_values ++ stages)%list, secrets).

(** The configuration the table would have with these rows: read through
    [CandidateConfigRepo], which has them in front of the table. *)
Definition candidate_value (config_values : list (string * string)) (t : gmap string string) (key : string) : option string :=
  or_else (insert_or_replace config_values ∅ !! key) (t !! key).
Definition check_update (env : ConfigEnv) (config_values : list (string * string)) (w : ConfigWorld) : result ConfigError Config :=
  let? new_cfg := load_app_config dbg (fun key => bool_decide (is_Some (insert_or_replace config_values ∅ !! key)) || ce_reads env key)
                    (candidate_value config_values (cw_settings w)) in
  let? _ := reject_unapplied_config_values config_values new_cfg in
  Ok new_cfg.
Definition commit_update (env : ConfigEnv) (config_values secrets : list (string * string)) (new_cfg : Config) (w : ConfigWorld) :
    result ConfigError (list string) * ConfigWorld :=
  match update_config_values_atomically (ce_write env) config_values secrets w with
  | (Err e, w) => (Err e, w)
  | (Ok _, w) => (Ok (map fst config_values), mk_cworld (cw_settings w) (cw_secrets w) new_cfg)
  end.
Definition update_config (env : ConfigEnv) (body : Json) (w : ConfigWorld) : result ConfigError (list string) * ConfigWorld :=
  match prepare_update env body with
  | Err e => (Err e, w)
  | Ok (config_values, secrets) =>
      match check_update env config_values w with
      | Err e => (Err e, w)
      | Ok new_cfg => commit_update env config_values secrets new_cfg w
      end
  end.

(** [get_config] *)
Definition get_config (w : ConfigWorld) : Json :=
  let values := api_setting_values (cw_config w) in
  JObject (map (fun s => (section_name s, JObject (map (fun key => (key, JString (default "" (values !! key)))) (section_keys s)))) ALL_SECTIONS ++
    [("pipeline", JObject [("ingress", JString (join "," (vec_of (cw_config w) "pipeline.ingress")));
                           ("egress", JString (join "," (vec_of (cw_config w) "pipeline.egress")))])]).
End Service.

(** ** Every configuration is typed *)

Definition value_ok (ty : RType) (v : Value) : Prop :=
  match ty, v with
  | TString, VString _ | TBool, VBool _ | TVec, VVec _ | TF32, VFloat _ | TF64, VFloat _ | TMode, VMode _ => True
  | TUint w, VInt n => in_width w n
  | TInt64, VInt n => - pow2 63 <= n < pow2 63
  | _, _ => False
  end.
Definition typed (ls : list Leaf) (cfg : Config) : Prop := forall l, l ∈ ls -> exists v, cfg !! lf_path l = Some v /\ value_ok (lf_ty l) v.

Lemma parse_digits_nonneg s acc n : 0 <= acc -> parse_digits acc s = Some n -> 0 <= n.
Proof.
  revert acc. induction s as [|c s IH]; intros acc Ha; cbn; [by intros [= <-]|]. destruct (is_digit c) eqn:Hc; [|done].
  apply IH. unfold is_digit in Hc. apply andb_true_iff in Hc as [?%Z.leb_le _]. lia.
Qed.
Lemma parse_value_ok ty s v : parse_value ty s = Some v -> value_ok ty v.
Proof.
  destruct ty as [| | |w| | | |]; cbn; try done.
  - destruct (parse_uint w s) as [n|] eqn:E; [|done]. intros [= <-]. unfold parse_uint in E. cbn. destruct (is_empty _); [done|].
    destruct (parse_digits 0 _) as [m|] eqn:Ed; [|done]. destruct (m <? pow2 w) eqn:Hm; [|done]. injection E as ->. apply Z.ltb_lt in Hm.
    split; [|done]. by eapply parse_digits_nonneg in Ed.
  - destruct (parse_i64 s) as [n|] eqn:E; [|done]. intros [= <-]. unfold parse_i64 in E. cbn. destruct (match s with "" => _ | String _ _ => _ end) as [neg d].
    destruct (is_empty d); [done|]. destruct (parse_digits 0 d) as [m|]; [|done]. case_match eqn:Hb; [|done]. injection E as <-.
    apply andb_true_iff in Hb as [?%Z.leb_le ?%Z.ltb_lt]. by split.
  - destruct (parse_f32 s); [|done]. by intros [= <-].
  - destruct (parse_f64 s); [|done]. by intros [= <-].
  - destruct (mode_from_str s); [|done]. by intros [= <-].
Qed.

(** Every path has one setting, every key one path, and every default is a literal of its type. *)
Lemma app_paths_distinct : NoDup (map lf_path app_leaves).
Proof. apply (bool_decide_unpack _). by vm_compute. Qed.
Lemma app_keys_distinct : NoDup (map lf_key app_leaves).
Proof. apply (bool_decide_unpack _). by vm_compute. Qed.
Lemma app_defaults_parse dbg : forallb (fun l => match make_default_val (lf_ty l) (default_text dbg l) with Some _ => true | None => false end) app_leaves = true.
Proof. by destruct dbg; vm_compute. Qed.

Lemma make_default_ok ty s v : make_default_val ty s = Some v -> value_ok ty v.
Proof. destruct ty; cbn -[parse_value]; try (by intros [= <-]); apply parse_value_ok. Qed.

Lemma leaf_of_path l l' : l ∈ app_leaves -> l' ∈ app_leaves -> lf_path l = lf_path l' -> l = l'.
Proof.
  intros H H' E. pose proof app_paths_distinct as Hnd. apply list_elem_of_lookup in H as [i Hi]. apply list_elem_of_lookup in H' as [j Hj].
  assert (i = j) as ->; [|congruence]. eapply NoDup_lookup; [exact Hnd| |]; rewrite list_lookup_fmap; [by rewrite Hi|rewrite Hj; cbn; by rewrite E].
Qed.

Lemma defaults_typed dbg : typed app_leaves (defaults dbg).
Proof.
  unfold defaults, gen_defaults. pose proof (app_defaults_parse dbg) as Hall. rewrite forallb_forall in Hall.
  enough (forall ls cfg done, (forall l, l ∈ done -> l ∈ app_leaves) -> (forall l, l ∈ ls -> l ∈ app_leaves) -> typed done cfg ->
    typed (done ++ ls) (fold_left (fun cfg l => match make_default_val (lf_ty l) (default_text dbg l) with Some v => <[lf_path l := v]> cfg | None => cfg end) ls cfg)) as H.
  { by apply (H app_leaves ∅ []); [intros ? []%elem_of_nil| |intros ? []%elem_of_nil]. }
  induction ls as [|l ls IH]; intros cfg dn Hd Hl Ht; cbn [fold_left]; [by rewrite app_nil_r|].
  rewrite (cons_middle l dn ls), app_assoc. assert (l ∈ app_leaves) as Hin by (apply Hl; by left). pose proof (Hall l (proj1 (list_elem_of_In _ _) Hin)) as Hp.
  apply IH; [|intros l' ?; apply Hl; by right|].
  - intros l' [?|[->|[]%elem_of_nil]%elem_of_cons]%elem_of_app; auto.
  - destruct (make_default_val _ _) as [v|] eqn:Ev; [|done]. apply make_default_ok in Ev.
    intros l' [Hl'|[->|[]%elem_of_nil]%elem_of_cons]%elem_of_app; [|exists v; by rewrite lookup_insert_eq].
    destruct (decide (lf_path l = lf_path l')) as [E|Hne].
    + rewrite <- E. exists v. rewrite lookup_insert_eq. split; [done|]. by rewrite <- (leaf_of_path l l' Hin (Hd _ Hl') E).
    + rewrite lookup_insert_ne by done. by apply Ht.
Qed.

Lemma insert_typed l v cfg : l ∈ app_leaves -> value_ok (lf_ty l) v -> typed app_leaves cfg -> typed app_leaves (<[lf_path l := v]> cfg).
Proof.
  intros Hl Hv Ht l' Hl'. destruct (decide (lf_path l = lf_path l')) as [E|Hne]; [|by rewrite lookup_insert_ne; [apply Ht|]].
  rewrite <- E, lookup_insert_eq. exists v. by rewrite <- (leaf_of_path l l' Hl Hl' E).
Qed.
Lemma apply_value_typed values l cfg : l ∈ app_leaves -> typed app_leaves cfg -> typed app_leaves (apply_value values cfg l).
Proof.
  intros Hl Ht. unfold apply_value. destruct (values !! lf_key l) as [v|]; [|done]. destruct (lf_ty l) eqn:Ety;
    try (destruct (parse_value _ v) as [x|] eqn:Ex; [|done]; apply insert_typed; [done| |done]; rewrite Ety; by apply parse_value_ok in Ex).
  - case_match; [done|]. apply insert_typed; [done| |done]. by rewrite Ety.
  - apply insert_typed; [done| |done]. by rewrite Ety.
  - apply insert_typed; [done| |done]. by rewrite Ety.
Qed.
Lemma fold_apply_typed values ls cfg : (forall l, l ∈ ls -> l ∈ app_leaves) -> typed app_leaves cfg -> typed app_leaves (fold_left (apply_value values) ls cfg).
Proof.
  revert cfg. induction ls as [|l ls IH]; intros cfg Hl Ht; cbn [fold_left]; [done|].
  apply IH; [intros l' ?; apply Hl; by right|]. apply apply_value_typed; [apply Hl; by left|done].
Qed.
Lemma apply_typed values cfg : typed app_leaves cfg -> typed app_leaves (apply_config_values values cfg).
Proof. by apply fold_apply_typed. Qed.
Lemma loaded_typed dbg values cfg : from_config_values dbg values = Ok cfg -> typed app_leaves cfg /\ validate cfg = Ok tt.
Proof.
  unfold from_config_values. intros (? & _ & (? & Hv & [= <-])%res_bind_inv)%res_bind_inv. split; [apply apply_typed, defaults_typed|]. by destruct x0.
Qed.

(** ** Loading *)

Lemma insert_or_replace_lookup rows t key : insert_or_replace rows t !! key = or_else (insert_or_replace rows ∅ !! key) (t !! key).
Proof.
  unfold insert_or_replace. induction rows as [|[k v] rows IH] using rev_ind; cbn; [by rewrite lookup_empty|]. rewrite !fold_left_app. cbn.
  destruct (decide (k = key)) as [->|Hne]; [by rewrite !lookup_insert_eq|]. by rewrite !lookup_insert_ne.
Qed.
Lemma read_values_any reads get get' keys acc values : (forall key, get key = get' key) -> read_values reads get keys acc = Ok values ->
  read_values (fun _ => true) get' keys acc = Ok values.
Proof.
  intros Hg. revert acc. induction keys as [|[k d] keys IH]; intros acc; cbn; [done|]. destruct (reads k); [|done]. rewrite <- Hg. apply IH.
Qed.
Lemma load_any dbg reads get get' cfg : (forall key, get key = get' key) -> load_app_config dbg reads get = Ok cfg ->
  load_app_config dbg (fun _ => true) get' = Ok cfg.
Proof.
  intros Hg. unfold load_app_config. intros (values & Hv & Hc)%res_bind_inv. by rewrite (read_values_any _ _ _ _ _ _ Hg Hv).
Qed.

(** ** Updates *)

Section Updates.
Context `{F : FloatText} (dbg : bool).

(** Every key of a section is a setting the API shows, and none of those handled apart. *)
Lemma section_keys_shown : forallb (fun key => existsb (fun l => lf_api l && String.eqb (lf_key l) key) app_leaves &&
  negb (bool_decide (key ∈ SECRET_KEYS)) && negb (String.eqb key "pipeline_ingress") && negb (String.eqb key "pipeline_egress")) (flat_map section_keys ALL_SECTIONS) = true.
Proof. by vm_compute. Qed.

Lemma api_values_some cfg l : typed app_leaves cfg -> l ∈ app_leaves -> lf_api l = true -> is_Some (api_setting_values cfg !! lf_key l).
Proof.
  intros Ht Hl Ha. destruct (Ht l Hl) as (v & Hv & _). unfold api_setting_values. rewrite <- not_eq_None_Some. intros Hn.
  apply not_elem_of_list_to_map_2 in Hn. apply Hn. rewrite fmap_reverse, elem_of_reverse. apply list_elem_of_fmap.
  exists (lf_key l, value_to_string (lf_ty l) v). split; [done|]. unfold gen_api_values. apply list_elem_of_omap. exists l. split; [done|].
  rewrite Ha, Hv. done.
Qed.

#[local] Opaque api_setting_values section_keys app_leaves.

Lemma submitted_key body key text : (key, text) ∈ submitted_values body -> key ∈ flat_map section_keys ALL_SECTIONS.
Proof.
  unfold submitted_values. rewrite !list_elem_of_In, !in_flat_map. intros (s & Hs & Hin). exists s. split; [done|].
  destruct (section_object body (section_name s)) as [obj|]; [|done]. apply list_elem_of_In, list_elem_of_omap in Hin as (k & Hk & Hin).
  destruct (object_get obj k) as [v|]; [|done]. destruct (config_json_value_as_string k v); [|done]. injection Hin as -> ->. by apply list_elem_of_In.
Qed.

Lemma shown_key key : key ∈ flat_map section_keys ALL_SECTIONS ->
  (exists l, l ∈ app_leaves /\ lf_api l = true /\ lf_key l = key) /\ key ∉ SECRET_KEYS /\ key <> "pipeline_ingress" /\ key <> "pipeline_egress".
Proof.
  intros Hk. pose proof section_keys_shown as H. rewrite forallb_forall in H. specialize (H key (proj1 (list_elem_of_In _ _) Hk)).
  apply andb_true_iff in H as [H H4]. apply andb_true_iff in H as [H H3]. apply andb_true_iff in H as [H1 H2].
  apply negb_true_iff in H2, H3, H4. apply bool_decide_eq_false in H2. apply String.eqb_neq in H3, H4. split; [|exact (conj H2 (conj H3 H4))].
  apply existsb_exists in H1 as (l & Hl & [Ha Hkey%String.eqb_eq]%andb_true_iff). exists l.
  exact (conj (proj2 (list_elem_of_In _ _) Hl) (conj Ha Hkey)).
Qed.

Lemma not_rejected rows cfg key text : reject_unapplied_config_values rows cfg = Ok tt -> (key, text) ∈ rows ->
  key ∉ SECRET_KEYS -> key <> "pipeline_ingress" -> key <> "pipeline_egress" -> is_Some (api_setting_values cfg !! key) ->
  api_setting_values cfg !! key = Some text.
Proof.
  intros Hr Hin Hs Hi He Hsome. induction rows as [|[k v] rows IH]; [by apply elem_of_nil in Hin|].
  cbn [reject_unapplied_config_values] in Hr. apply elem_of_cons in Hin as [[= <- <-]|Hin].
  - rewrite bool_decide_eq_false_2, (proj2 (String.eqb_neq _ _) Hi), (proj2 (String.eqb_neq _ _) He) in Hr by done. cbn [orb] in Hr.
    destruct (api_setting_values cfg !! key) as [applied|]; [|by destruct Hsome]. destruct (String.eqb applied text) eqn:E; [|done].
    by apply String.eqb_eq in E as ->.
  - apply IH; [|done]. revert Hr. case_match; [done|]. case_match; [|done]. by case_match.
Qed.

(** The secrets of a request are those it submits, encrypted. *)
Lemma secrets_exact encrypt body keys secrets : submitted_secrets encrypt body keys = Ok secrets ->
  (forall key e, (key, e) ∈ secrets -> key ∈ keys /\ exists val, submitted_secret body key = Some val /\ encrypt val = Some e) /\
  (forall key val, key ∈ keys -> submitted_secret body key = Some val -> key ∈ map fst secrets).
Proof.
  revert secrets. induction keys as [|k keys IH]; intros secrets; cbn [submitted_secrets]; [intros [= <-]; split; [intros ? ? []%elem_of_nil|intros ? ? []%elem_of_nil]|].
  destruct (submitted_secret body k) as [val|] eqn:Ek.
  - destruct (encrypt val) as [env|] eqn:E; [|done]. intros (rest & Hrest & [= <-])%res_bind_inv. destruct (IH _ Hrest) as [H1 H2]. split.
    + intros key e [[= -> ->]|Hin]%elem_of_cons; [split; [by left|by exists val]|]. destruct (H1 _ _ Hin). split; [by right|done].
    + intros key v [->|Hin]%elem_of_cons Hv; [by left|]. right. by eapply H2.
  - intros Hk. destruct (IH _ Hk) as [H1 H2]. split; [intros key e Hin; destruct (H1 _ _ Hin); split; [by right|done]|].
    intros key v [->|Hin]%elem_of_cons Hv; [congruence|]. by eapply H2.
Qed.

(** So are the rows of its stages. *)
Definition submitted_stage (obj : Json) (field : string) : option string :=
  match object_get obj field with Some (JString val) => Some val | _ => None end.
Lemma stages_exact obj fields rows : submitted_stages obj fields = Ok rows ->
  (forall key v, (key, v) ∈ rows -> exists field val stages, (field, key) ∈ fields /\ submitted_stage obj field = Some val /\
     normalize_pipeline_stages val = Ok stages /\ v = join "," stages) /\
  (forall field key val, (field, key) ∈ fields -> submitted_stage obj field = Some val -> key ∈ map fst rows).
Proof.
  revert rows. induction fields as [|[f k] fields IH]; intros rows; cbn [submitted_stages]; [intros [= <-]; split; [intros ? ? []%elem_of_nil|intros ? ? ? []%elem_of_nil]|].
  assert (submitted_stage obj f = None -> submitted_stages obj fields = Ok rows ->
    (forall key v, (key, v) ∈ rows -> exists field val stages, (field, key) ∈ (f, k) :: fields /\ submitted_stage obj field = Some val /\
       normalize_pipeline_stages val = Ok stages /\ v = join "," stages) /\
    (forall field key val, (field, key) ∈ (f, k) :: fields -> submitted_stage obj field = Some val -> key ∈ map fst rows)) as Hskip.
  { intros Hf H. destruct (IH _ H) as [H1 H2]. split.
    - intros key v Hin. destruct (H1 _ _ Hin) as (field & val & st & ? & ?). exists field, val, st. split; [by right|done].
    - intros field key val [[= -> ->]|Hin]%elem_of_cons Hv; [congruence|]. by eapply H2. }
  destruct (object_get obj f) as [[]|] eqn:Ef; try (apply Hskip; unfold submitted_stage; by rewrite Ef).
  intros (st & Hst & (rest & Hrest & [= <-])%res_bind_inv)%res_bind_inv. destruct (IH _ Hrest) as [H1 H2].
  assert (submitted_stage obj f = Some s) as Hf by (unfold submitted_stage; by rewrite Ef). split.
  - intros key v [[= -> ->]|Hin]%elem_of_cons; [exists f, s; eexists; split; [by left|]; split; [done|]; split; [|reflexivity]|].
    + unfold stage_error in Hst. destruct (normalize_pipeline_stages s) as [x|[]]; [by injection Hst as ->|done].
    + destruct (H1 _ _ Hin) as (field & val & st' & ? & ?). exists field, val, st'. split; [by right|done].
  - intros field key val [[= -> ->]|Hin]%elem_of_cons Hv; [by left|]. right. by eapply H2.
Qed.

Lemma insert_or_replace_miss rows t key : key ∉ map fst rows -> insert_or_replace rows t !! key = t !! key.
Proof.
  unfold insert_or_replace. revert t. induction rows as [|[k v] rows IH]; intros t Hn; [done|]. cbn in *. apply not_elem_of_cons in Hn as [Hk Hn].
  rewrite IH by done. by rewrite lookup_insert_ne.
Qed.
Lemma insert_or_replace_const rows t key v : (forall v', (key, v') ∈ rows -> v' = v) -> key ∈ map fst rows -> insert_or_replace rows t !! key = Some v.
Proof.
  unfold insert_or_replace. induction rows as [|[k x] rows IH] using rev_ind; intros Hall Hin; [by apply elem_of_nil in Hin|].
  rewrite fold_left_app. cbn. destruct (decide (k = key)) as [->|Hne].
  - rewrite lookup_insert_eq. f_equal. apply Hall, elem_of_app. right. by left.
  - rewrite lookup_insert_ne by done. apply IH; [intros v' ?; apply Hall, elem_of_app; by left|]. rewrite map_app, elem_of_app in Hin. destruct Hin as [|Hin]; [done|].
    cbn in Hin. by apply list_elem_of_singleton in Hin.
Qed.

Lemma insert_or_replace_hit rows t key : key ∈ map fst rows -> exists v, insert_or_replace rows t !! key = Some v /\ (key, v) ∈ rows.
Proof.
  unfold insert_or_replace. induction rows as [|[k x] rows IH] using rev_ind; intros Hin; [by apply elem_of_nil in Hin|].
  rewrite fold_left_app. cbn [fold_left fst snd]. destruct (decide (k = key)) as [->|Hne].
  - exists x. rewrite lookup_insert_eq. split; [done|]. apply elem_of_app. right. by left.
  - rewrite lookup_insert_ne by done. rewrite map_app, elem_of_app in Hin. destruct Hin as [Hin|Hin]; [|cbn in Hin; by apply list_elem_of_singleton in Hin].
    destruct (IH Hin) as (v & ? & ?). exists v. split; [done|]. apply elem_of_app. by left.
Qed.

(** What a request asks for besides [submitted_values]: secrets, where there is a store of
    them, and stages of a pipeline. *)
Definition asked_secret (env : ConfigEnv) (body : Json) (key : string) : option string :=
  match ce_secrets env with
  | Some _ => if bool_decide (key ∈ SECRET_KEYS) then submitted_secret body key else None
  | None => None
  end.
Definition asked_stages (body : Json) (field : string) : option string :=
  let! obj := section_object body "pipeline" else None in submitted_stage obj field.
Definition asked (env : ConfigEnv) (body : Json) (key : string) : Prop :=
  key ∈ map fst (submitted_values body) \/ is_Some (asked_secret env body key) \/
  exists field, (field, key) ∈ pipeline_keys /\ is_Some (asked_stages body field).

(** The rows of a request are what it asks for. *)
Record prepared_rows (env : ConfigEnv) (body : Json) (rows secrets : list (string * string)) : Prop := {
  pr_keys : forall key, key ∈ map fst rows <-> asked env body key;
  pr_values : forall key text, (key, text) ∈ submitted_values body -> (key, text) ∈ rows;
  pr_blank : forall key, is_Some (asked_secret env body key) -> forall v, (key, v) ∈ rows -> v = "";
  pr_secret_keys : forall key, key ∈ map fst secrets <-> is_Some (asked_secret env body key);
  pr_secrets : forall key e, (key, e) ∈ secrets ->
    exists encrypt val, ce_secrets env = Some encrypt /\ asked_secret env body key = Some val /\ encrypt val = Some e;
  pr_stages : forall field key val, (field, key) ∈ pipeline_keys -> asked_stages body field = Some val ->
    exists stages, normalize_pipeline_stages val = Ok stages /\ forall v, (key, v) ∈ rows -> v = join "," stages }.

Lemma asked_secret_key env body key : is_Some (asked_secret env body key) -> key ∈ SECRET_KEYS.
Proof. unfold asked_secret. destruct (ce_secrets env); [|by intros []]. case_bool_decide; [done|by intros []]. Qed.
Lemma pipeline_key field key : (field, key) ∈ pipeline_keys ->
  (field, key) = ("ingress", "pipeline_ingress") \/ (field, key) = ("egress", "pipeline_egress").
Proof. intros [?|?%list_elem_of_singleton]%elem_of_cons; [by left|by right]. Qed.

Lemma secret_rows env body s :
  (match ce_secrets env with Some encrypt => submitted_secrets encrypt body SECRET_KEYS | None => Ok [] end) = Ok s ->
  (forall key e, (key, e) ∈ s -> exists encrypt val, ce_secrets env = Some encrypt /\ asked_secret env body key = Some val /\ encrypt val = Some e) /\
  (forall key, key ∈ map fst s <-> is_Some (asked_secret env body key)).
Proof.
  unfold asked_secret. destruct (ce_secrets env) as [encrypt|].
  2: { intros [= <-]. split; [intros key e []%elem_of_nil|]. intros key. split; [intros []%elem_of_nil|by intros []]. }
  intros [H1 H2]%secrets_exact. split.
  - intros key e Hin. destruct (H1 _ _ Hin) as (Hk & val & Hv & He). exists encrypt, val. split; [done|]. by rewrite bool_decide_eq_true_2.
  - intros key. split.
    + intros ([k e] & -> & Hin)%list_elem_of_fmap. destruct (H1 _ _ Hin) as (Hk & val & Hv & He). cbn [fst]. rewrite bool_decide_eq_true_2 by done. by exists val.
    + case_bool_decide; [|by intros []]. intros [val Hv]. by eapply H2.
Qed.
Lemma stage_rows body st :
  (match section_object body "pipeline" with Some obj => submitted_stages obj pipeline_keys | None => Ok [] end) = Ok st ->
  (forall key v, (key, v) ∈ st -> exists field val stages, (field, key) ∈ pipeline_keys /\ asked_stages body field = Some val /\
     normalize_pipeline_stages val = Ok stages /\ v = join "," stages) /\
  (forall field key, (field, key) ∈ pipeline_keys -> is_Some (asked_stages body field) -> key ∈ map fst st).
Proof.
  unfold asked_stages. destruct (section_object body "pipeline") as [obj|].
  2: { intros [= <-]. split; [intros key e []%elem_of_nil|]. intros ? ? _ []. done. }
  intros [H1 H2]%stages_exact. split; [done|]. intros field key Hin [val Hv]. by eapply H2.
Qed.

Lemma prepared env body rows secrets : prepare_update env body = Ok (rows, secrets) -> prepared_rows env body rows secrets.
Proof.
  unfold prepare_update. intros (s & Hs & (st & Hst & [= <- <-])%res_bind_inv)%res_bind_inv.
  apply secret_rows in Hs as [Hs1 Hs2]. apply stage_rows in Hst as [Ht1 Ht2].
  assert (forall key v, (key, v) ∈ st -> key ∈ map snd pipeline_keys) as Hpipe.
  { intros key v Hin. destruct (Ht1 _ _ Hin) as (field & _ & _ & Hk & _). apply list_elem_of_fmap. by exists (field, key). }
  assert (forall key, key ∈ SECRET_KEYS -> key ∉ map snd pipeline_keys) as Hapart by (intros key ->%list_elem_of_singleton; refine (bool_decide_eq_false_1 _ _); vm_compute; reflexivity).
  assert (forall key, key ∈ map snd pipeline_keys -> key = "pipeline_ingress" \/ key = "pipeline_egress") as Htwo
    by (intros key [|?%list_elem_of_singleton]%elem_of_cons; [by left|by right]).
  split.
  - intros key. rewrite !map_app, map_map, !elem_of_app. cbn [fst]. rewrite (Hs2 key). unfold asked. split.
    + intros [[?|?]|([k v] & -> & Hin)%list_elem_of_fmap]; [by left|by right; left|]. right; right.
      destruct (Ht1 _ _ Hin) as (field & val & _ & Hk & Hv & _). exists field. split; [exact Hk|by exists val].
    + intros [?|[?|(field & Hk & Hv)]]; [by left; left|by left; right|]. right. by apply (Ht2 field).
  - intros key text Hin. rewrite !elem_of_app. tauto.
  - intros key Hkey%asked_secret_key v. rewrite !elem_of_app, list_elem_of_fmap. intros [[Hin|(p & [= -> ->] & _)]|Hin]; [|done|].
    + apply submitted_key, shown_key in Hin as (_ & Hn & _). by destruct Hn.
    + destruct (Hapart key Hkey). by eapply Hpipe.
  - exact Hs2.
  - exact Hs1.
  - intros field key val Hk Hv. assert (key ∈ map snd pipeline_keys) as Hkey by (apply list_elem_of_fmap; by exists (field, key)).
    assert (exists v, (key, v) ∈ st) as [v0 Hv0].
    { pose proof (Ht2 field key Hk (ex_intro _ val Hv)) as ([k v] & -> & Hin)%list_elem_of_fmap. by exists v. }
    destruct (Ht1 _ _ Hv0) as (f0 & val0 & stages & Hk0 & Ha0 & Hn & _).
    assert (f0 = field) as -> by (destruct (pipeline_key _ _ Hk), (pipeline_key _ _ Hk0); congruence).
    assert (val0 = val) as -> by congruence. exists stages. split; [done|]. intros v. rewrite !elem_of_app, list_elem_of_fmap.
    intros [[Hin|((k & e) & [= -> ->] & Hin)]|Hin].
    + exfalso. apply submitted_key, shown_key in Hin as (_ & _ & Hi & He). by destruct (Htwo key Hkey).
    + exfalso. destruct (Hapart k); [|done]. apply (asked_secret_key env body), Hs2, list_elem_of_fmap. by exists (k, e).
    + destruct (Ht1 _ _ Hin) as (f & val' & stages' & Hk' & Ha' & Hn' & ->).
      assert (f = field) as -> by (destruct (pipeline_key _ _ Hk), (pipeline_key _ _ Hk'); congruence). congruence.
Qed.

(** Which rows a request can have. *)
Lemma row_keys env body rows secrets key : prepare_update env body = Ok (rows, secrets) -> key ∈ map fst rows ->
  key ∈ flat_map section_keys ALL_SECTIONS \/ key ∈ SECRET_KEYS \/ key ∈ map snd pipeline_keys.
Proof.
  intros Hp%prepared [Hin|[Hs|(field & Hk & _)]]%(pr_keys _ _ _ _ Hp).
  - left. apply list_elem_of_fmap in Hin as ([k v] & -> & Hin). by apply submitted_key in Hin.
  - right; left. by apply (asked_secret_key env body).
  - right; right. apply list_elem_of_fmap. by exists (field, key).
Qed.

(** What a request that succeeds has done, and that another has done nothing. *)
Lemma update_inv env body w updated w' : update_config dbg env body w = (Ok updated, w') ->
  exists rows secrets cfg, prepare_update env body = Ok (rows, secrets) /\ reject_unapplied_config_values rows cfg = Ok tt /\ updated = map fst rows /\
    w' = mk_cworld (insert_or_replace rows (cw_settings w)) (insert_or_replace secrets (cw_secrets w)) cfg /\
    load_app_config dbg (fun _ => true) (fun key => insert_or_replace rows (cw_settings w) !! key) = Ok cfg.
Proof.
  unfold update_config. destruct (prepare_update env body) as [[rows secrets]|] eqn:Hp; [|done].
  destruct (check_update dbg env rows w) as [cfg|] eqn:Hc; [|done]. unfold commit_update, update_config_values_atomically.
  destruct (ce_write env); [|done]. cbn [cw_settings cw_secrets cw_config]. intros [= <- <-]. unfold check_update in Hc.
  apply res_bind_inv in Hc as (cfg' & Hload & ([] & Hrej & [= ->])%res_bind_inv).
  exists rows, secrets, cfg. do 4 (split; [done|]).
  eapply load_any; [|exact Hload]. intros key. unfold candidate_value. by rewrite (insert_or_replace_lookup rows (cw_settings w)).
Qed.
Lemma update_refused env body w e w' : update_config dbg env body w = (Err e, w') -> w' = w.
Proof.
  unfold update_config. destruct (prepare_update env body) as [[rows secrets]|]; [|by intros [= _ <-]].
  destruct (check_update dbg env rows w); [|by intros [= _ <-]]. unfold commit_update, update_config_values_atomically.
  destruct (ce_write env); [done|by intros [= _ <-]].
Qed.

(** A row that was not refused is shown as sent. *)
Lemma submitted_in_force rows cfg body : reject_unapplied_config_values rows cfg = Ok tt ->
  (forall key text, (key, text) ∈ submitted_values body -> (key, text) ∈ rows) -> typed app_leaves cfg ->
  forall key text, (key, text) ∈ submitted_values body -> api_setting_values cfg !! key = Some text.
Proof.
  intros Hrej Hsub Ht key text Hin. destruct (shown_key key (submitted_key _ _ _ Hin)) as ((l & Hleaf & Ha & <-) & Hs & Hi & He).
  apply (not_rejected rows cfg (lf_key l) text Hrej (Hsub _ _ Hin) Hs Hi He). by apply api_values_some.
Qed.
End Updates.

(** ** A first start *)

Lemma seed_keeps dbg works t r t' key v : seed_config_defaults dbg works t = (r, t') -> t !! key = Some v -> t' !! key = Some v.
Proof.
  unfold seed_config_defaults. generalize (default_settings dbg). intros rows. revert t. induction rows as [|[k d] rows IH]; intros t; cbn [seed_rows]; [by intros [= _ <-]|].
  unfold get_config_value, set_config_value. destruct (works k); [|by intros [= _ <-]]. destruct (t !! k) as [v'|] eqn:Ek; [by apply IH|].
  intros Hs Hk. apply (IH _ Hs). rewrite lookup_insert_ne; [done|]. intros ->. congruence.
Qed.

(** A table that was empty holds the defaults after a start and loads to them, in release
    and in debug builds. *)
Lemma seeded_table_loads_defaults dbg :
  (seed_config_defaults dbg (fun _ => true) ∅).1 = Ok tt /\
  load_app_config dbg (fun _ => true) (fun key => (seed_config_defaults dbg (fun _ => true) ∅).2 !! key) = Ok (defaults dbg).
Proof. refine (bool_decide_eq_true_1 _ _). by destruct dbg; vm_compute. Qed.

(** ** One setting at a time *)

Lemma apply_value_other values cfg l path : lf_path l <> path -> apply_value values cfg l !! path = cfg !! path.
Proof.
  intros Hne. unfold apply_value. destruct (values !! lf_key l); [|done].
  destruct (lf_ty l); try (destruct (parse_value _ _)); try destruct (is_empty _); by rewrite ?lookup_insert_ne by done.
Qed.
Lemma apply_value_agree values values' cfg cfg' l path : cfg !! path = cfg' !! path ->
  (lf_path l = path -> values !! lf_key l = values' !! lf_key l) -> apply_value values cfg l !! path = apply_value values' cfg' l !! path.
Proof.
  intros Hc Hv. destruct (decide (lf_path l = path)) as [Hp|Hne]; [|by rewrite !apply_value_other].
  unfold apply_value. rewrite (Hv Hp). destruct (values' !! lf_key l); [|done]. rewrite Hp.
  destruct (lf_ty l); try (destruct (parse_value _ _)); try destruct (is_empty _); by rewrite ?lookup_insert_eq.
Qed.
Lemma gen_apply_agree values values' ls cfg cfg' path : cfg !! path = cfg' !! path ->
  (forall l, l ∈ ls -> lf_path l = path -> values !! lf_key l = values' !! lf_key l) -> gen_apply values ls cfg !! path = gen_apply values' ls cfg' !! path.
Proof.
  unfold gen_apply. revert cfg cfg'. induction ls as [|l ls IH]; intros cfg cfg' Hc Hv; [done|]. cbn [fold_left]. apply IH.
  - apply apply_value_agree; [done|]. apply Hv. by left.
  - intros l' Hin. apply Hv. by right.
Qed.
Lemma gen_apply_at values ls cfg l : NoDup (map lf_path ls) -> l ∈ ls -> gen_apply values ls cfg !! lf_path l = apply_value values cfg l !! lf_path l.
Proof.
  unfold gen_apply. revert cfg. induction ls as [|a ls IH]; intros cfg Hnd Hin; [by apply elem_of_nil in Hin|]. cbn [fold_left map] in *.
  apply NoDup_cons in Hnd as [Hna Hnd]. apply elem_of_cons in Hin as [->|Hin].
  - clear IH. generalize (apply_value values cfg a). intros c. revert c. induction ls as [|b ls IH]; intros c; [done|]. cbn [fold_left].
    cbn [map] in Hna. apply not_elem_of_cons in Hna as [Hne Hna]. apply NoDup_cons in Hnd as [_ Hnd]. rewrite (IH Hna Hnd). by apply apply_value_other.
  - rewrite (IH _ Hnd Hin). apply apply_value_agree; [|done]. apply apply_value_other. intros Heq. destruct Hna. rewrite Heq. apply list_elem_of_fmap. by exists l.
Qed.

(** A table read without failures: the rows of the settings there are. *)
Lemma read_values_lookup get keys acc : exists values, read_values (fun _ => true) get keys acc = Ok values /\
  forall key, values !! key = or_else (if bool_decide (key ∈ map fst keys) then get key else None) (acc !! key).
Proof.
  revert acc. induction keys as [|[k d] keys IH]; intros acc; [by exists acc|]. cbn [read_values].
  destruct (IH (match get k with Some v => <[k := v]> acc | None => acc end)) as (values & -> & Hv). exists values. split; [done|]. intros key. rewrite (Hv key).
  cbn [map fst]. destruct (decide (key = k)) as [->|Hne].
  - rewrite (bool_decide_eq_true_2 (k ∈ k :: _)) by (by left). case_bool_decide; destruct (get k); cbn [or_else]; by rewrite ?lookup_insert_eq.
  - assert (bool_decide (key ∈ k :: map fst keys) = bool_decide (key ∈ map fst keys)) as ->.
    { apply bool_decide_ext. rewrite elem_of_cons. split; [by intros [|]|by right]. }
    destruct (get k); [|done]. by rewrite lookup_insert_ne.
Qed.

(** A loaded configuration has at each setting what its row says. *)
Definition from_row (dbg : bool) (get : string -> option string) (l : Leaf) : option Value :=
  apply_value (match get (lf_key l) with Some v => {[lf_key l := v]} | None => ∅ end) (defaults dbg) l !! lf_path l.
Lemma read_settings dbg get : exists values, read_values (fun _ => true) get (default_settings dbg) ∅ = Ok values /\
  forall l, l ∈ app_leaves -> values !! lf_key l = get (lf_key l).
Proof.
  destruct (read_values_lookup get (default_settings dbg) ∅) as (values & Hr & Hv). exists values. split; [exact Hr|].
  intros l Hl. rewrite (Hv (lf_key l)), lookup_empty. rewrite bool_decide_eq_true_2; [destruct (get (lf_key l)); reflexivity|].
  unfold default_settings, gen_default_settings. rewrite map_map. apply list_elem_of_fmap. exists l. exact (conj eq_refl Hl).
Qed.
Lemma load_inv dbg get cfg : load_app_config dbg (fun _ => true) get = Ok cfg ->
  exists values, from_config_values dbg values = Ok cfg /\ cfg = apply_config_values values (defaults dbg) /\ forall l, l ∈ app_leaves -> values !! lf_key l = get (lf_key l).
Proof.
  unfold load_app_config. destruct (read_settings dbg get) as (values & -> & Hv). cbn [res_bind]. intros Hf. exists values. split; [exact Hf|]. split; [|exact Hv].
  unfold from_config_values in Hf. apply res_bind_inv in Hf as (_ & _ & (_ & _ & [= <-])%res_bind_inv). reflexivity.
Qed.
Lemma loaded_at dbg get cfg l : load_app_config dbg (fun _ => true) get = Ok cfg -> l ∈ app_leaves -> cfg !! lf_path l = from_row dbg get l.
Proof.
  intros (values & _ & -> & Hv)%load_inv Hl. unfold apply_config_values. rewrite (gen_apply_at _ _ _ l app_paths_distinct Hl).
  apply apply_value_agree; [reflexivity|]. intros _. rewrite (Hv l Hl). destruct (get (lf_key l)); [rewrite lookup_singleton_eq|]; reflexivity.
Qed.

Lemma mode_leaf : exists l, l ∈ app_leaves /\ lf_key l = "enforce_mode".
Proof.
  assert (existsb (fun l => String.eqb (lf_key l) "enforce_mode") app_leaves = true) as (l & Hin & Hl)%existsb_exists by by vm_compute.
  exists l. split; [by apply list_elem_of_In|by apply String.eqb_eq].
Qed.
(** A table that differs in some rows loads when the first one does and its
    configuration, which differs at their settings only, obeys the rules. *)
Lemma load_other dbg get get' cfg : load_app_config dbg (fun _ => true) get = Ok cfg -> get' "enforce_mode" = get "enforce_mode" ->
  exists cfg', (forall path, (forall l, l ∈ app_leaves -> lf_path l = path -> get' (lf_key l) = get (lf_key l)) -> cfg' !! path = cfg !! path) /\
    (validate cfg' = Ok tt -> load_app_config dbg (fun _ => true) get' = Ok cfg') /\
    forall l, l ∈ app_leaves -> cfg' !! lf_path l = from_row dbg get' l.
Proof.
  intros (values & Hf & -> & Hv)%load_inv Hm. destruct (read_settings dbg get') as (values' & Hr & Hk).
  exists (apply_config_values values' (defaults dbg)). split; [|split].
  - intros path Hp. apply gen_apply_agree; [reflexivity|]. intros l Hl Hpath. rewrite (Hk l Hl), (Hv l Hl). exact (Hp l Hl Hpath).
  - intros Hval. unfold load_app_config. rewrite Hr. cbn [res_bind]. unfold from_config_values in *.
    apply res_bind_inv in Hf as ([] & Hmode & _).
    assert (values' !! "enforce_mode" = values !! "enforce_mode") as Heq.
    { destruct mode_leaf as (l & Hl & Hkey). rewrite <- Hkey, (Hk l Hl), (Hv l Hl), Hkey. exact Hm. }
    unfold validate_config_values in *. rewrite Heq, Hmode. cbn [res_bind]. rewrite Hval. reflexivity.
  - clear Hf. intros l Hl. unfold apply_config_values. rewrite (gen_apply_at _ _ _ l app_paths_distinct Hl).
    apply apply_value_agree; [reflexivity|]. intros _. rewrite (Hk l Hl). destruct (get' (lf_key l)); [rewrite lookup_singleton_eq|]; reflexivity.
Qed.

(** ** Updates take effect *)

(** The stages of a pipeline read back from their row. *)
Lemma normalized_valid raw stages : normalize_pipeline_stages raw = Ok stages -> Forall (fun s => s ∈ VALID_PIPELINE_STAGES) stages.
Proof.
  unfold normalize_pipeline_stages. destruct (is_empty (trim raw)); [by intros [= <-]|]. generalize (split ","%char (trim raw)). intros l.
  revert stages. induction l as [|x l IH]; intros stages; cbn [normalize_all]; [by intros [= <-]|].
  intros ([] & Hx & (rest & Hrest & [= <-])%res_bind_inv)%res_bind_inv. constructor; [apply validate_stage_valid; by rewrite Hx|by apply IH].
Qed.
Lemma comma_list_join stages : Forall (fun s => s ∈ VALID_PIPELINE_STAGES) stages -> comma_list (join "," stages) = stages.
Proof.
  intros Hall. destruct stages as [|x stages]; [done|].
  assert (forall s, s ∈ VALID_PIPELINE_STAGES -> is_empty s = false /\ trim s = s /\ free_of ","%char s) as Hv.
  { intros s. unfold VALID_PIPELINE_STAGES. rewrite !elem_of_cons. intros [-> |[-> |[-> |[]%elem_of_nil]]]; by vm_compute. }
  unfold comma_list. assert (is_empty (join "," (x :: stages)) = false) as ->.
  { apply Forall_cons in Hall as [(Hx & _)%Hv _]. by destruct x, stages. }
  rewrite split_join; [|eapply Forall_impl; [exact Hall|]; intros s Hs; by apply Hv|done].
  rewrite <- (map_id (x :: stages)) at 2. apply map_ext_Forall. eapply Forall_impl; [exact Hall|]. intros s Hs. by apply Hv.
Qed.
Lemma pipeline_leaf field key : (field, key) ∈ pipeline_keys -> exists l, l ∈ app_leaves /\ lf_key l = key /\ lf_path l = "pipeline." ++ field /\ lf_ty l = TVec.
Proof.
  assert (forallb (fun p => existsb (fun l => String.eqb (lf_key l) p.2 && String.eqb (lf_path l) ("pipeline." ++ p.1) &&
    match lf_ty l with TVec => true | _ => false end) app_leaves) pipeline_keys = true) as H by (by vm_compute).
  rewrite forallb_forall in H. intros Hin%list_elem_of_In%H. apply existsb_exists in Hin as (l & Hl & H'). exists l.
  apply andb_true_iff in H' as [[H1%String.eqb_eq H2%String.eqb_eq]%andb_true_iff H3]. split; [by apply list_elem_of_In|]. split; [exact H1|]. split; [exact H2|].
  by destruct (lf_ty l).
Qed.
Lemma stages_loaded dbg get cfg field key stages : load_app_config dbg (fun _ => true) get = Ok cfg -> (field, key) ∈ pipeline_keys ->
  get key = Some (join "," stages) -> Forall (fun s => s ∈ VALID_PIPELINE_STAGES) stages -> cfg !! ("pipeline." ++ field) = Some (VVec stages).
Proof.
  intros Hload Hk Hget Hall. destruct (pipeline_leaf field key Hk) as (l & Hl & Hkey & <- & Hty). rewrite (loaded_at _ _ _ _ Hload Hl).
  unfold from_row. rewrite Hkey, Hget. unfold apply_value. rewrite Hkey, lookup_singleton_eq, Hty, lookup_insert_eq. by rewrite comma_list_join.
Qed.

Section Effects.
Context `{F : FloatText} (dbg : bool).
#[local] Opaque api_setting_values section_keys app_leaves.

(** C5: An update that fails changes nothing.  One that succeeds reports exactly the settings
    that were submitted and puts each in force: a value is shown exactly as sent; a secret
    is stored as the encryption of what was submitted under its key, and nowhere else; the
    stages of a pipeline are those of the text sent.  The rows and secrets of other keys
    stay, and table and program stay together: the table loads to the configuration that
    is now in force, which is typed and obeys every rule. *)
Theorem config_update_takes_effect (env : ConfigEnv) (body : Json) (w : ConfigWorld) :
  let '(r, w') := update_config dbg env body w in
  match r with
  | Err _ => w' = w
  | Ok updated =>
      validate (cw_config w') = Ok tt /\ typed app_leaves (cw_config w') /\
      load_app_config dbg (fun _ => true) (fun key => cw_settings w' !! key) = Ok (cw_config w') /\
      (forall key, key ∈ updated <-> asked env body key) /\
      (forall key, ~ asked env body key -> cw_settings w' !! key = cw_settings w !! key) /\
      (forall key text, (key, text) ∈ submitted_values body -> api_setting_values (cw_config w') !! key = Some text) /\
      (forall field key val, (field, key) ∈ pipeline_keys -> asked_stages body field = Some val ->
        exists stages, normalize_pipeline_stages val = Ok stages /\ cw_config w' !! ("pipeline." ++ field) = Some (VVec stages)) /\
      (forall key val, asked_secret env body key = Some val -> cw_settings w' !! key = Some "" /\
        exists encrypt e, ce_secrets env = Some encrypt /\ encrypt val = Some e /\ cw_secrets w' !! key = Some e) /\
      (forall key, asked_secret env body key = None -> cw_secrets w' !! key = cw_secrets w !! key)
  end.
Proof.
  destruct (update_config dbg env body w) as [[updated|e] w'] eqn:Hu; [|exact (update_refused _ _ _ _ _ _ Hu)].
  destruct (update_inv _ _ _ _ _ _ Hu) as (rows & secrets & cfg & Hp & Hrej & -> & -> & Hl). clear Hu. cbn [cw_settings cw_secrets cw_config].
  pose proof Hl as (values & _ & Hfrom)%res_bind_inv. destruct (loaded_typed _ _ _ Hfrom) as [Ht Hv].
  apply prepared in Hp as [Hkeys Hsub Hblank Hsec Henc Hst].
  split; [exact Hv|]. split; [exact Ht|]. split; [exact Hl|]. split; [exact Hkeys|].
  split; [intros key Hn; apply insert_or_replace_miss; by rewrite Hkeys|].
  split; [exact (submitted_in_force rows cfg body Hrej Hsub Ht)|]. split; [|split].
  - intros field key val Hk Hval. destruct (Hst _ _ _ Hk Hval) as (stages & Hn & Hrow). exists stages. split; [exact Hn|].
    apply (stages_loaded dbg _ cfg field key stages Hl Hk); [|exact (normalized_valid _ _ Hn)].
    apply insert_or_replace_const; [exact Hrow|]. apply Hkeys. right; right. exists field. split; [exact Hk|by exists val].
  - intros key val Hval. assert (is_Some (asked_secret env body key)) as Hsome by (by exists val).
    split; [apply insert_or_replace_const; [exact (Hblank key Hsome)|apply Hkeys; by right; left]|].
    destruct (insert_or_replace_hit secrets (cw_secrets w) key (proj2 (Hsec key) Hsome)) as (e & He & Hmem).
    destruct (Henc _ _ Hmem) as (encrypt & val' & Hstore & Hval' & Henv). rewrite Hval in Hval'. injection Hval' as <-.
    exact (ex_intro _ encrypt (ex_intro _ e (conj Hstore (conj Henv He)))).
  - intros key Hnone. apply insert_or_replace_miss. rewrite (Hsec key), Hnone. by intros [].
Qed.
End Effects.

(** ** Where updates go wrong *)

Definition seeded : ConfigWorld := mk_cworld (seed_config_defaults false (fun _ => true) ∅).2 ∅ (defaults false).
Definition working : ConfigEnv := mk_cenv (fun _ => true) true None.
Definition one_setting (section key : string) (v : Json) : Json := JObject [(section, JObject [(key, v)])].

(** A whole number for a setting that is a fraction is refused: the number is written with
    its fraction when it is sent and without when it is shown. *)
Lemma whole_number_refused `{F : FloatText} : print_f64 (SFone 53 1024) = "1" ->
  update_config false working (one_setting "soar" "soar_default_rate_limit_factor" (JNumber "1.0")) seeded =
    (Err (InvalidConfigField "soar_default_rate_limit_factor"), seeded).
Proof.
  intros Hp. unfold update_config.
  assert (prepare_update working (one_setting "soar" "soar_default_rate_limit_factor" (JNumber "1.0")) = Ok ([("soar_default_rate_limit_factor", "1.0")], [])) as ->
    by by vm_compute.
  unfold check_update. set (cfg := apply_config_values {["soar_default_rate_limit_factor" := "1.0"]} (defaults false)).
  assert (load_app_config false (fun key => bool_decide (is_Some (insert_or_replace [("soar_default_rate_limit_factor", "1.0")] ∅ !! key)) || ce_reads working key)
    (candidate_value [("soar_default_rate_limit_factor", "1.0")] (cw_settings seeded)) = Ok cfg) as ->.
  { refine (bool_decide_eq_true_1 _ _). by vm_compute. }
  cbn [res_bind reject_unapplied_config_values]. rewrite (bool_decide_eq_false_2 ("soar_default_rate_limit_factor" ∈ SECRET_KEYS)) by (intros H; by apply list_elem_of_singleton in H).
  change (false || String.eqb "soar_default_rate_limit_factor" "pipeline_ingress" || String.eqb "soar_default_rate_limit_factor" "pipeline_egress") with false. cbn iota.
  assert (api_setting_values cfg !! "soar_default_rate_limit_factor" = Some (print_f64 (SFone 53 1024))) as -> by by vm_compute.
  by rewrite Hp.
Qed.

(** Requests are not serialized: two that are each valid against the table can be checked
    before either is written, and leave a table the program cannot start with. *)
Lemma concurrent_updates_break_start `{F : FloatText} :
  let a := one_setting "flow_trace" "flow_trace_max_file_bytes" (JNumber "10737418240") in
  let b := one_setting "flow_trace" "flow_trace_total_budget_bytes" (JNumber "524288000") in
  let rows_a := [("flow_trace_max_file_bytes", "10737418240")] in
  let rows_b := [("flow_trace_total_budget_bytes", "524288000")] in
  prepare_update working a = Ok (rows_a, []) /\ prepare_update working b = Ok (rows_b, []) /\
  exists cfg_a cfg_b, check_update false working rows_a seeded = Ok cfg_a /\ check_update false working rows_b seeded = Ok cfg_b /\
    let w := (commit_update working rows_b [] cfg_b (commit_update working rows_a [] cfg_a seeded).2).2 in
    load_app_config false (fun _ => true) (fun key => cw_settings w !! key) = Err (InvalidConfigField "ml.flow_trace.total_budget_bytes").
Proof.
  intros a b rows_a rows_b. split; [by vm_compute|]. split; [by vm_compute|].
  exists (apply_config_values {["flow_trace_max_file_bytes" := "10737418240"]} (defaults false)),
    (apply_config_values {["flow_trace_total_budget_bytes" := "524288000"]} (defaults false)).
  split; [refine (bool_decide_eq_true_1 _ _); by vm_compute|]. split; [refine (bool_decide_eq_true_1 _ _); by vm_compute|].
  refine (bool_decide_eq_true_1 _ _). by vm_compute.
Qed.

(** A run: a value is sent, a password with it. *)
Definition sample_float_text : FloatText := {| print_f32 _ := "1"; print_f64 _ := "1" |}.
Lemma sample_update :
  let env := mk_cenv (fun _ => true) true (Some (fun p => Some ("sealed:" ++ p))) in
  let body := JObject [("http", JObject [("http_port", JNumber "9090")]); ("smtp", JObject [("smtp_host", JString " mail "); ("smtp_password", JString "pw")]);
    ("pipeline", JObject [("ingress", JString "service , rate_limit")])] in
  let '(r, w) := update_config (F := sample_float_text) false env body seeded in
  r = Ok ["http_port"; "smtp_host"; "smtp_password"; "pipeline_ingress"] /\ int (cw_config w) "http_server.port" = 9090 /\
  cw_settings w !! "smtp_password" = Some "" /\ cw_secrets w !! "smtp_password" = Some "sealed:pw" /\ cw_settings w !! "smtp_host" = Some "mail" /\
  vec_of (cw_config w) "pipeline.ingress" = ["service"; "rate_limit"].
Proof. by vm_compute. Qed.
