(* ===== verification/Setup.v ===== *)
(** * The first start

    Sealing of stored secrets (adapter/secret_store.rs), the setup of a new installation
    (core/common/setup_service.rs, adapter/http/setup.rs, the transaction of
    adapter/persistence/config.rs) and the start around it (infrastructure/system/mod.rs
    and setup.rs).  Requests to complete the setup run concurrently: a request is checked
    in one step, its transaction is another, and a third sets the flag the wizard waits
    for.  Base64, AES-GCM, the derivation of its key, and the printing of JSON are
    parameters with their documented laws. *)

From Stdlib Require Import ZArith Lia List Ascii String.
From stdpp Require Import base list gmap strings.
From S2P Require Import Prelude RStr IpAddr DnsFilter Identity Users Config.

Local Open Scope string_scope.
Local Open Scope Z_scope.

(** ** Sealed secrets *)

(** base64, HKDF with AES-256-GCM, and [Value::to_string]. *)
Class Crypto (K : Type) : Type := {
  b64_encode : bytes -> string;
  b64_decode : string -> option bytes;
  derive_key : string -> K;
  aes_encrypt : K -> bytes -> bytes -> option bytes;
  aes_decrypt : K -> bytes -> bytes -> option bytes;
  json_to_string : Json -> string }.

Definition plain_value (j : Json) : Prop := match j with JString _ | JNumber _ => True | _ => False end.
(** Printing an object of plain values with distinct keys and parsing it gives an object
    with the same values, perhaps in another order. *)
Class CryptoLaws (K : Type) `{J : SerdeJson} `{C : Crypto K} : Prop := {
  law_b64 : forall b, bytes_ok b -> b64_decode (b64_encode b) = Some b;
  law_aes : forall k nonce p c, bytes_ok p -> aes_encrypt k nonce p = Some c -> bytes_ok c /\ aes_decrypt k nonce c = Some p;
  law_object : forall l, NoDup (map fst l) -> Forall (fun kv : string * Json => plain_value kv.2) l ->
    exists j, json_parse (json_to_string (JObject l)) = Some j /\ forall key, object_get j key = object_get (JObject l) key }.

Definition ENVELOPE_FIELD_CIPHERTEXT : string := "ct".
Definition ENVELOPE_FIELD_NONCE : string := "nonce".
Definition AES_GCM_NONCE_LEN : nat := 12.

Inductive CryptoError : Type :=
  | EncryptionFailed | EnvelopeParseFailed | UnsupportedEnvelopeVersion (version : Z) | MissingEnvelopeField (field : string)
  | AlgNoneRejected | DecryptionFailed | MasterKeyUnavailable | InvalidNonceLength | UnsupportedAlgorithm (alg : string) | SecretDatabase.
#[export] Instance CryptoError_eq_dec : EqDecision CryptoError.
Proof. solve_decision. Defined.

Definition json_str (j : option Json) : option string := match j with Some (JString s) => Some s | _ => None end.
Definition json_u64 (j : option Json) : option Z := match j with Some (JNumber text) => parse_uint 64 text | _ => None end.

Section Secrets.
Context {K : Type} `{J : SerdeJson} `{C : Crypto K}.

Record SecretStore : Type := mk_store { cipher : option K }.
(** The key in the environment, if there is one. *)
Definition new_store (raw_key : option string) : SecretStore :=
  mk_store (derive_key <$> (let! k := raw_key else None in if is_empty k then None else Some k)).

(** [nonce] is the random one of the call. *)
Definition encrypt (st : SecretStore) (nonce : bytes) (plaintext : string) : result CryptoError string :=
  match cipher st with
  | Some cipher =>
      match aes_encrypt cipher nonce (str_bytes plaintext) with
      | None => Err EncryptionFailed
      | Some ciphertext =>
          Ok (json_to_string (JObject [("v", JNumber "1"); ("alg", JString "aes-256-gcm"); ("nonce", JString (b64_encode nonce));
                                       ("ct", JString (b64_encode ciphertext))]))
      end
  | None =>
      Ok (json_to_string (JObject [("v", JNumber "1"); ("alg", JString "none"); ("nonce", JString "");
                                   ("ct", JString (b64_encode (str_bytes plaintext)))]))
  end.

Definition from_utf8 (b : bytes) : result CryptoError string := if is_utf8 b then Ok (bytes_str b) else Err DecryptionFailed.
Definition ok_or {A : Type} (e : CryptoError) (o : option A) : result CryptoError A := match o with Some a => Ok a | None => Err e end.

Definition decrypt (st : SecretStore) (envelope_json : string) : result CryptoError string :=
  let? env := ok_or EnvelopeParseFailed (json_parse envelope_json) in
  let version := default 0 (json_u64 (object_get env "v")) in
  if negb (version =? 1) then Err (UnsupportedEnvelopeVersion version)
  else
    let alg := default "" (json_str (object_get env "alg")) in
    let? ct_b64 := ok_or (MissingEnvelopeField ENVELOPE_FIELD_CIPHERTEXT) (json_str (object_get env "ct")) in
    if String.eqb alg "none" then
      match cipher st with
      | Some _ => Err AlgNoneRejected
      | None => let? plaintext_bytes := ok_or DecryptionFailed (b64_decode ct_b64) in from_utf8 plaintext_bytes
      end
    else if String.eqb alg "aes-256-gcm" then
      let? cipher := ok_or MasterKeyUnavailable (cipher st) in
      let? nonce_b64 := ok_or (MissingEnvelopeField ENVELOPE_FIELD_NONCE) (json_str (object_get env "nonce")) in
      let? nonce_bytes := ok_or DecryptionFailed (b64_decode nonce_b64) in
      if negb (length nonce_bytes =? AES_GCM_NONCE_LEN)%nat then Err InvalidNonceLength
      else
        let? ciphertext := ok_or DecryptionFailed (b64_decode ct_b64) in
        let? plaintext_bytes := ok_or DecryptionFailed (aes_decrypt cipher nonce_bytes ciphertext) in
        from_utf8 plaintext_bytes
    else Err (UnsupportedAlgorithm alg).

(** The table of secrets under the store; [works] is whether the database answers. *)
Definition get_app_secret (works : bool) (key : string) (t : gmap string string) : result CryptoError (option string) :=
  if works then Ok (t !! key) else Err SecretDatabase.
Definition set_app_secret (works : bool) (key value : string) (t : gmap string string) : result CryptoError (gmap string string) :=
  if works then Ok (<[key := value]> t) else Err SecretDatabase.
Definition get_secret (st : SecretStore) (works : bool) (key : string) (t : gmap string string) : result CryptoError (option string) :=
  let? row := get_app_secret works key t in
  match row with
  | Some envelope_json => let? p := decrypt st envelope_json in Ok (Some p)
  | None => Ok None
  end.
Definition set_secret (st : SecretStore) (nonce : bytes) (works : bool) (key plaintext : string) (t : gmap string string) :
    result CryptoError (gmap string string) :=
  let? envelope := encrypt st nonce plaintext in
  set_app_secret works key envelope t.
Definition encrypt_envelope (st : SecretStore) (nonce : bytes) (plaintext : string) : result CryptoError string := encrypt st nonce plaintext.
End Secrets.
Arguments SecretStore : clear implicits.

(** ** The setup service *)

Record CompleteSetupInput : Type := mk_input {
  ingress_interface : string; egress_interface : string; admin_password : string; http_port : option Z;
  smtp_host : option string; smtp_port : option Z; smtp_username : option string; smtp_password : option string;
  smtp_recipient : option string; telegram_bot_token : option string; telegram_chat_id : option string }.

(** What is wrong with an input; the texts of the messages are left out. *)
Inductive InvalidInput : Type :=
  | InvalidInterfaceName (iface : string) | SameInterfaces | PasswordRefused (message : string) | ZeroHttpPort | ZeroSmtpPort
  | TelegramIncomplete | SmtpRequires (field : string).
Inductive SetupError : Type := InvalidSetupInput (why : InvalidInput) | HashFailed | SetupCrypto (e : CryptoError) | SetupAlreadyComplete | SetupInterrupted | SetupDatabase.
#[export] Instance InvalidInput_eq_dec : EqDecision InvalidInput.
Proof. solve_decision. Defined.
#[export] Instance SetupError_eq_dec : EqDecision SetupError.
Proof. solve_decision. Defined.

Definition interface_char (c : string) : bool :=
  ascii_char is_alnum c || String.eqb c "." || String.eqb c "_" || String.eqb c "-".
Definition is_valid_interface_name (name : string) : bool :=
  negb (is_empty name) && (String.length name <=? 16)%nat && negb (String.eqb name ".") && negb (String.eqb name "..") &&
  forallb interface_char (chars name).

Definition has_text (value : option string) : bool := match value with Some v => negb (is_empty (trim v)) | None => false end.
Definition trimmed_text_value (value : option string) : option string :=
  match value with Some v => if is_empty (trim v) then None else Some (trim v) | None => None end.

Definition refuse (c : bool) (why : InvalidInput) : result SetupError unit := if c then Err (InvalidSetupInput why) else Ok tt.
Definition required_smtp_fields (input : CompleteSetupInput) : list (string * option string) :=
  [("smtp_host", smtp_host input); ("smtp_username", smtp_username input); ("smtp_password", smtp_password input); ("smtp_recipient", smtp_recipient input)].
Fixpoint require_text (fields : list (string * option string)) : result SetupError unit :=
  match fields with
  | [] => Ok tt
  | (field, value) :: fields => let? _ := refuse (negb (has_text value)) (SmtpRequires field) in require_text fields
  end.
Definition validate_setup_input (input : CompleteSetupInput) : result SetupError unit :=
  let? _ := refuse (negb (is_valid_interface_name (ingress_interface input))) (InvalidInterfaceName (ingress_interface input)) in
  let? _ := refuse (negb (is_valid_interface_name (egress_interface input))) (InvalidInterfaceName (egress_interface input)) in
  let? _ := refuse (String.eqb (ingress_interface input) (egress_interface input)) SameInterfaces in
  let? _ := match validate_password (admin_password input) with Err message => Err (InvalidSetupInput (PasswordRefused message)) | Ok _ => Ok tt end in
  let? _ := refuse (bool_decide (http_port input = Some 0)) ZeroHttpPort in
  let? _ := refuse (bool_decide (smtp_port input = Some 0)) ZeroSmtpPort in
  let telegram_token_present := has_text (telegram_bot_token input) in
  let telegram_chat_present := has_text (telegram_chat_id input) in
  let? _ := refuse (negb (Bool.eqb telegram_token_present telegram_chat_present)) TelegramIncomplete in
  let smtp_requested := bool_decide (is_Some (smtp_port input)) || existsb (fun p => has_text p.2) (required_smtp_fields input) in
  if smtp_requested then require_text (required_smtp_fields input) else Ok tt.

Record SetupState : Type := mk_state {
  config_values : list (string * string); secret_values : list (string * string); notification_configs : list (string * string) }.

(** ** The database of a new installation *)

(** The tables the setup writes; a notification channel is a text and whether it is on. *)
Record SetupDb : Type := mk_sdb {
  sd_settings : gmap string string; sd_secrets : gmap string string; sd_notify : gmap string (string * bool);
  sd_state : gmap string string; sd_users : idb }.

(** Which statements work: the one that reads the state, and the others with the commit. *)
Record TxFaults : Type := mk_txf { tf_read : bool; tf_rest : bool }.

Definition get_system_state (works : bool) (key : string) (d : SetupDb) : result SetupError (option string) :=
  if works then Ok (sd_state d !! key) else Err SetupDatabase.
Definition set_notification_config (channel config_json : string) (t : gmap string (string * bool)) : gmap string (string * bool) :=
  <[channel := (config_json, true)]> t.
Definition get_notification_config (channel : string) (t : gmap string (string * bool)) : option string :=
  match t !! channel with Some (json, true) => Some json | _ => None end.

(** One transaction: on an error nothing of it stays. *)
Definition complete_setup_atomically (f : TxFaults) (now : Z) (s : SetupState) (admin_username password_hash : string) (d : SetupDb) :
    result SetupError unit * SetupDb :=
  if negb (tf_read f) then (Err SetupDatabase, d)
  else if bool_decide (sd_state d !! "setup_complete" = Some "true") then (Err SetupAlreadyComplete, d)
  else if negb (tf_rest f) then (Err SetupDatabase, d)
  else
    match setup_admin now admin_username password_hash (sd_users d) with
    | Err _ => (Err SetupDatabase, d)
    | Ok (_, users) =>
        (Ok tt, mk_sdb (insert_or_replace (config_values s) (sd_settings d)) (insert_or_replace (secret_values s) (sd_secrets d))
                  (fold_left (fun t kv => set_notification_config kv.1 kv.2 t) (notification_configs s) (sd_notify d))
                  (<["setup_complete" := "true"]> (sd_state d)) users)
    end.

Section Requests.
Context {K : Type} `{J : SerdeJson} `{C : Crypto K} `{H : PasswordHasher}.

(** The random values of a request: the salt of the password and a nonce for each secret. *)
Record Randomness : Type := mk_random { rnd_salt : string; rnd_smtp : bytes; rnd_telegram : bytes }.

Definition crypto {A : Type} (r : result CryptoError A) : result SetupError A := match r with Ok a => Ok a | Err e => Err (SetupCrypto e) end.

Definition optional (key : string) (value : option string) : list (string * string) := match value with Some v => [(key, v)] | None => [] end.
Definition smtp_password_given (input : CompleteSetupInput) : option string :=
  match smtp_password input with Some pass => if is_empty (trim pass) then None else Some pass | None => None end.
Definition telegram_given (input : CompleteSetupInput) : option (string * string) :=
  match trimmed_text_value (telegram_bot_token input), trimmed_text_value (telegram_chat_id input) with
  | Some token, Some chat_id => Some (token, chat_id)
  | _, _ => None
  end.
Definition prepare_setup_state (st : SecretStore K) (rnd : Randomness) (input : CompleteSetupInput) : result SetupError SetupState :=
  let config_values :=
    ([("ingress_interface", ingress_interface input); ("egress_interface", egress_interface input)] ++
     optional "http_port" (print_dec <$> http_port input) ++ optional "smtp_host" (trimmed_text_value (smtp_host input)) ++
     optional "smtp_port" (print_dec <$> smtp_port input) ++ optional "smtp_username" (trimmed_text_value (smtp_username input)))%list in
  let? sealed :=
    match smtp_password_given input with
    | Some pass =>
        let? envelope := crypto (encrypt_envelope st (rnd_smtp rnd) pass) in
        Ok ([("smtp_password", envelope)], (config_values ++ [("smtp_password", "__encrypted__")])%list)
    | None => Ok ([], config_values)
    end in
  let '(secrets, config_values) := sealed in
  let config_values := (config_values ++ optional "smtp_recipient" (trimmed_text_value (smtp_recipient input)))%list in
  match telegram_given input with
  | Some (token, chat_id) =>
      let? envelope := crypto (encrypt_envelope st (rnd_telegram rnd) token) in
      let config_json := json_to_string (JObject [("bot_token", JString "__encrypted__"); ("chat_id", JString chat_id)]) in
      Ok (mk_state config_values (secrets ++ [("telegram_bot_token", envelope)])%list [("telegram", config_json)])
  | None => Ok (mk_state config_values secrets [])
  end.

(** A request that passed the checks, with what its transaction will write. *)
Record Prepared : Type := mk_prepared { pr_state : SetupState; pr_hash : string }.
Definition prepare_request (st : SecretStore K) (rnd : Randomness) (input : CompleteSetupInput) : result SetupError Prepared :=
  let? _ := validate_setup_input input in
  match hash_password (rnd_salt rnd) (admin_password input) with
  | None => Err HashFailed
  | Some password_hash => let? state := prepare_setup_state st rnd input in Ok (mk_prepared state password_hash)
  end.
Definition commit_request (f : TxFaults) (now : Z) (p : Prepared) (d : SetupDb) : result SetupError unit * SetupDb :=
  complete_setup_atomically f now (pr_state p) DEFAULT_ADMIN_USERNAME (pr_hash p) d.
(** [SetupService::complete_setup] *)
Definition complete_setup (st : SecretStore K) (rnd : Randomness) (input : CompleteSetupInput) (f : TxFaults) (now : Z) (d : SetupDb) :
    result SetupError unit * SetupDb :=
  match prepare_request st rnd input with Err e => (Err e, d) | Ok p => commit_request f now p d end.

(** ** The wizard's server *)

Record SetupToken : Type := mk_token { token : string }.
Definition validate_token (t : SetupToken) (candidate : string) : bool := constant_time_eq (token t) candidate.

(** What the handler reads of a request; no or an unreadable header counts as empty. *)
Record SetupCall : Type := mk_call { sc_token : option string; sc_input : CompleteSetupInput; sc_random : Randomness }.

Definition setup_error_response (e : SetupError) : Z :=
  match e with SetupAlreadyComplete => 409 | InvalidSetupInput _ => 400 | _ => 500 end.

(** A request's way through the handler: the checks, the transaction, the flag. *)
Inductive ReqState : Type := Checked (p : Prepared) | Stored | Answered (status : Z).

Record SetupServer : Type := mk_server { ss_flag : bool; ss_db : SetupDb; ss_requests : list ReqState }.

(** The handler up to its transaction; [exists_] says which network interfaces there are. *)
Definition arrive (st : SecretStore K) (setup_token : SetupToken) (exists_ : string -> bool) (flag : bool) (call : SetupCall) : ReqState :=
  let input := sc_input call in
  if flag then Answered 409
  else if negb (validate_token setup_token (default "" (sc_token call))) then Answered 403
  else if negb (forallb (fun iface => is_valid_interface_name iface && exists_ iface) [ingress_interface input; egress_interface input]) then Answered 400
  else match prepare_request st (sc_random call) input with
       | Err e => Answered (setup_error_response e)
       | Ok p => Checked p
       end.

Inductive SetupEvent : Type := Arrive (exists_ : string -> bool) (call : SetupCall) | Commit (id : nat) (f : TxFaults) (now : Z) | Finish (id : nat).
Definition setup_step (st : SecretStore K) (setup_token : SetupToken) (s : SetupServer) (e : SetupEvent) : SetupServer :=
  match e with
  | Arrive exists_ call => mk_server (ss_flag s) (ss_db s) (ss_requests s ++ [arrive st setup_token exists_ (ss_flag s) call])%list
  | Commit id f now =>
      match ss_requests s !! id with
      | Some (Checked p) =>
          match commit_request f now p (ss_db s) with
          | (Ok _, d) => mk_server (ss_flag s) d (<[id := Stored]> (ss_requests s))
          | (Err e, d) => mk_server (ss_flag s) d (<[id := Answered (setup_error_response e)]> (ss_requests s))
          end
      | _ => s
      end
  | Finish id =>
      match ss_requests s !! id with
      | Some Stored => mk_server true (ss_db s) (<[id := Answered 200]> (ss_requests s))
      | _ => s
      end
  end.
Definition setup_run (st : SecretStore K) (setup_token : SetupToken) (evs : list SetupEvent) (s : SetupServer) : SetupServer :=
  fold_left (setup_step st setup_token) evs s.
Definition new_server (d : SetupDb) : SetupServer := mk_server false d [].
End Requests.

(** ** The start *)

Definition is_setup_complete (works : bool) (d : SetupDb) : result SetupError bool :=
  let? v := get_system_state works "setup_complete" d in Ok (match v with Some v => String.eqb v "true" | None => false end).

Inductive StartError : Type := StartConfig (e : ConfigError) | StartSetup (e : SetupError).
#[export] Instance StartError_eq_dec : EqDecision StartError.
Proof. solve_decision. Defined.
Definition config_part {A : Type} (r : result ConfigError A) : result StartError A := match r with Ok a => Ok a | Err e => Err (StartConfig e) end.
Definition setup_part {A : Type} (r : result SetupError A) : result StartError A := match r with Ok a => Ok a | Err e => Err (StartSetup e) end.

(** [System::setup] up to the runtime.  [wizard] is what a run of the wizard leaves and
    whether it ended with the setup complete; [playbooks] seeds the default playbooks into
    a table of its own, or fails. *)
Record StartEnv (P : Type) : Type := mk_start {
  st_works : string -> bool; st_reads : string -> bool; st_state : bool;
  st_wizard : SetupDb -> bool * SetupDb; st_playbooks : P -> option P }.
Arguments mk_start {P}. Arguments st_works {P}. Arguments st_reads {P}. Arguments st_state {P}. Arguments st_wizard {P}. Arguments st_playbooks {P}.

Definition with_settings (d : SetupDb) (t : gmap string string) : SetupDb := mk_sdb t (sd_secrets d) (sd_notify d) (sd_state d) (sd_users d).
Definition load_settings {P : Type} (dbg : bool) (env : StartEnv P) (d : SetupDb) : result StartError Config :=
  config_part (load_app_config dbg (st_reads env) (fun key => sd_settings d !! key)).
Definition run_setup_wizard {P : Type} (env : StartEnv P) (d : SetupDb) : result StartError unit * SetupDb :=
  let '(completed, d) := st_wizard env d in
  (if completed then Ok tt else Err (StartSetup SetupInterrupted), d).

(** Settings, the table of playbooks and the configuration the runtime is built with. *)
Definition system_setup {P : Type} (dbg : bool) (env : StartEnv P) (d : SetupDb) (playbooks : P) : result StartError Config * SetupDb * P :=
  let '(seeded, settings) := seed_config_defaults dbg (st_works env) (sd_settings d) in
  let d := with_settings d settings in
  match (let? _ := config_part seeded in
         let? _ := load_settings dbg env d in
         setup_part (is_setup_complete (st_state env) d)) with
  | Err e => (Err e, d, playbooks)
  | Ok true => (load_settings dbg env d, d, playbooks)
  | Ok false =>
      match run_setup_wizard env d with
      | (Err e, d) => (Err e, d, playbooks)
      | (Ok _, d) =>
          match st_playbooks env playbooks with
          | None => (Err (StartSetup SetupDatabase), d, playbooks)
          | Some playbooks => (load_settings dbg env d, d, playbooks)
          end
      end
  end.

(** ** One setup *)

Section Once.
Context {K : Type} `{J : SerdeJson} `{C : Crypto K} `{H : PasswordHasher} (st : SecretStore K) (tok : SetupToken).

(** A request that may complete the setup, and what its transaction writes. *)
Definition entitled (ex : string -> bool) (call : SetupCall) (p : Prepared) : Prop :=
  default "" (sc_token call) = token tok /\ validate_setup_input (sc_input call) = Ok tt /\
  ex (ingress_interface (sc_input call)) = true /\ ex (egress_interface (sc_input call)) = true /\
  prepare_request st (sc_random call) (sc_input call) = Ok p.

Definition won (r : ReqState) : Prop := r = Stored \/ r = Answered 200.

Lemma arrive_entitled ex flag call p : arrive st tok ex flag call = Checked p -> entitled ex call p.
Proof.
  unfold arrive, validate_token. destruct flag; [done|]. destruct (constant_time_eq (token tok) (default "" (sc_token call))) eqn:Ht; [|done]. cbn [negb].
  cbn [forallb]. rewrite andb_true_r. destruct (_ && _) eqn:Hif; [|done]. cbn [negb]. destruct (prepare_request _ _ _) eqn:Hp; [|done]. intros [= ->].
  apply andb_true_iff in Hif as [[_ H1]%andb_true_iff [_ H2]%andb_true_iff]. apply constant_time_eq_spec in Ht.
  split; [done|]. split; [|done]. unfold prepare_request in Hp. apply res_bind_inv in Hp as ([] & Hv & _). done.
Qed.
Lemma arrive_not_won ex flag call : ~ won (arrive st tok ex flag call).
Proof.
  unfold arrive. destruct flag; [by intros [|]|]. destruct (negb _); [by intros [|]|]. destruct (negb _); [by intros [|]|].
  destruct (prepare_request _ _ _) as [|e]; [by intros [|]|]. by destruct e; intros [|].
Qed.
Lemma error_not_won e : ~ won (Answered (setup_error_response e)).
Proof. by destruct e; intros [|]. Qed.

Lemma commit_once f now p d r d' : complete_setup_atomically f now (pr_state p) DEFAULT_ADMIN_USERNAME (pr_hash p) d = (r, d') ->
  match r with Ok _ => sd_state d !! "setup_complete" <> Some "true" /\ sd_state d' !! "setup_complete" = Some "true" | Err _ => d' = d end.
Proof.
  unfold complete_setup_atomically. destruct (tf_read f); [|by intros [= <- <-]]. cbn [negb]. case_bool_decide as Hs; [by intros [= <- <-]|].
  destruct (tf_rest f); [|by intros [= <- <-]]. cbn [negb]. destruct (setup_admin _ _ _ _) as [[? users]|]; [|by intros [= <- <-]].
  intros [= <- <-]. cbn. split; [done|]. apply lookup_insert_eq.
Qed.

Section Run.
Context (d0 : SetupDb).

Definition waiting (evs : list SetupEvent) (s : SetupServer) : Prop :=
  ss_db s = d0 /\ ss_flag s = false /\ forall r, r ∈ ss_requests s -> ~ won r.
Definition completed (evs : list SetupEvent) (s : SetupServer) : Prop :=
  exists id ex call p f now, Arrive ex call ∈ evs /\ entitled ex call p /\ commit_request f now p d0 = (Ok tt, ss_db s) /\
    sd_state (ss_db s) !! "setup_complete" = Some "true" /\
    ss_requests s !! id = Some (if ss_flag s then Answered 200 else Stored) /\
    (forall j r, j <> id -> ss_requests s !! j = Some r -> ~ won r).
Definition checked (evs : list SetupEvent) (s : SetupServer) : Prop :=
  forall j p, ss_requests s !! j = Some (Checked p) -> exists ex call, Arrive ex call ∈ evs /\ entitled ex call p.
Definition once (evs : list SetupEvent) (s : SetupServer) : Prop := checked evs s /\ (waiting evs s \/ completed evs s).

Lemma once_weaken evs e s : once evs s -> once (evs ++ [e]) s.
Proof.
  assert (forall x : SetupEvent, x ∈ evs -> x ∈ evs ++ [e])%list as Hin by (intros x Hx; apply elem_of_app; by left).
  intros [Hc [Hw|(id & ex & call & p & f & now & Ha & Hr)]]; (split; [intros j p' Hj; destruct (Hc j p' Hj) as (ex' & call' & Ha' & He'); eauto|]).
  - by left.
  - right. exists id, ex, call, p, f, now. split; [by apply Hin|done].
Qed.

Lemma once_arrive evs ex call s : once evs s -> once (evs ++ [Arrive ex call]) (setup_step st tok s (Arrive ex call)).
Proof.
  intros Ho. pose proof (once_weaken evs (Arrive ex call) s Ho) as [Hc' Hrest]. split.
  - intros j p. cbn [setup_step ss_requests]. intros [Hj|[_ Hj]]%lookup_app_Some; [by apply (Hc' j)|].
    apply list_lookup_singleton_Some in Hj as [_ Hj]. exists ex, call. split; [apply elem_of_app; right; by apply list_elem_of_singleton|].
    by apply (arrive_entitled ex (ss_flag s)).
  - destruct Hrest as [(Hd & Hf & Hn)|(id & ex' & call' & p & f & now & Ha & He & Hco & Hst & Hid & Hn)]; [left|right].
    + split; [done|]. split; [done|]. intros r [Hr|Hr]%elem_of_app; [by apply Hn|]. apply list_elem_of_singleton in Hr as ->. apply arrive_not_won.
    + exists id, ex', call', p, f, now. split; [done|]. split; [done|]. split; [done|]. split; [done|]. cbn [setup_step ss_requests ss_flag]. split; [by apply lookup_app_l_Some|].
      intros j r Hj [Hr|[_ Hr]]%lookup_app_Some; [by apply (Hn j)|]. apply list_lookup_singleton_Some in Hr as [_ <-]. apply arrive_not_won.
Qed.

(** Putting a state at a place where a request is. *)
Lemma checked_insert evs flag d id r s : checked evs s -> (forall p, r <> Checked p) -> checked evs (mk_server flag d (<[id := r]> (ss_requests s))).
Proof.
  intros Hc Hr j p. cbn [ss_requests]. intros Hj. destruct (decide (j = id)) as [->|Hne].
  - apply list_lookup_insert_Some in Hj as [(_ & -> & _)|[? _]]; [by destruct (Hr p)|done].
  - rewrite list_lookup_insert_ne in Hj by done. by apply (Hc j).
Qed.

Lemma once_commit evs id f now s : once evs s -> once (evs ++ [Commit id f now]) (setup_step st tok s (Commit id f now)).
Proof.
  intros Ho. pose proof (once_weaken evs (Commit id f now) s Ho) as [Hc Hrest]. cbn [setup_step].
  destruct (ss_requests s !! id) as [[p| |]|] eqn:Hreq; [|by split..].
  destruct (commit_request f now p (ss_db s)) as [r d] eqn:Hco. pose proof (commit_once _ _ _ _ _ _ Hco) as Hone.
  assert (id < length (ss_requests s))%nat as Hlt by (by eapply lookup_lt_Some).
  destruct r as [[]|e]; (split; [by apply checked_insert|]); destruct Hrest as [(Hd & Hf & Hn)|(i & ex & call & p' & f' & now' & Ha & He & Hco' & Hst & Hi & Hn)].
  - right. destruct (Hc id p Hreq) as (ex & call & Ha & He). exists id, ex, call, p, f, now. rewrite Hd in Hco. cbn [ss_db ss_requests ss_flag]. rewrite Hf.
    split; [done|]. split; [done|]. split; [done|]. split; [apply Hone|]. split; [by apply list_lookup_insert_eq|].
    intros j r Hj Hr. rewrite list_lookup_insert_ne in Hr by done. apply Hn. by eapply list_elem_of_lookup_2.
  - by destruct Hone.
  - left. subst d. split; [done|]. split; [done|]. cbn [ss_requests]. intros r [k Hr]%list_elem_of_lookup.
    apply list_lookup_insert_Some in Hr as [(_ & <- & _)|[_ Hr]]; [apply error_not_won|]. apply Hn. by eapply list_elem_of_lookup_2.
  - right. subst d. exists i, ex, call, p', f', now'. cbn [ss_db ss_requests ss_flag]. split; [done|]. split; [done|]. split; [done|]. split; [done|].
    assert (id <> i) as Hne by (intros ->; rewrite Hi in Hreq; by destruct (ss_flag s)). rewrite list_lookup_insert_ne by done. split; [done|].
    intros j r Hj Hr. apply list_lookup_insert_Some in Hr as [(_ & <- & _)|[_ Hr]]; [apply error_not_won|by apply (Hn j)].
Qed.

Lemma once_finish evs id s : once evs s -> once (evs ++ [Finish id]) (setup_step st tok s (Finish id)).
Proof.
  intros Ho. pose proof (once_weaken evs (Finish id) s Ho) as [Hc Hrest]. cbn [setup_step].
  destruct (ss_requests s !! id) as [[p| |]|] eqn:Hreq; [by split| |by split..]. split; [by apply checked_insert|].
  destruct Hrest as [(Hd & Hf & Hn)|(i & ex & call & p' & f' & now' & Ha & He & Hco' & Hst & Hi & Hn)].
  - destruct (Hn Stored); [by eapply list_elem_of_lookup_2|by left].
  - right. exists i, ex, call, p', f', now'. cbn [ss_db ss_requests ss_flag].
    assert (id = i) as -> by (destruct (decide (id = i)); [done|]; destruct (Hn id Stored); [done..|by left]).
    split; [done|]. split; [done|]. split; [done|]. split; [done|]. split; [apply list_lookup_insert_eq; by eapply lookup_lt_Some|].
    intros j r Hj Hr. rewrite list_lookup_insert_ne in Hr by done. by apply (Hn j).
Qed.

Lemma once_run evs : once evs (setup_run st tok evs (new_server d0)).
Proof.
  induction evs as [|e evs IH] using rev_ind.
  - split; [by intros j p|]. left. split; [done|]. split; [done|]. cbn. intros r Hr. by apply elem_of_nil in Hr.
  - unfold setup_run in *. rewrite fold_left_app. cbn [fold_left]. destruct e; [by apply once_arrive|by apply once_commit|by apply once_finish].
Qed.
End Run.

(** C31: Whatever requests arrive, however their steps are interleaved and whatever fails,
    the setup happens at most once: either no request has succeeded and the database is
    untouched, or exactly one has, it carried the token and a valid input naming
    interfaces that exist, and the database is what its transaction alone made of it; the
    flag the wizard waits for is up only when its answer is given. *)
Theorem setup_happens_once (d0 : SetupDb) (evs : list SetupEvent) :
  let s := setup_run st tok evs (new_server d0) in
  (ss_db s = d0 /\ ss_flag s = false /\ Answered 200 ∉ ss_requests s) \/
  exists id ex call p f now,
    Arrive ex call ∈ evs /\ default "" (sc_token call) = token tok /\ validate_setup_input (sc_input call) = Ok tt /\
    ex (ingress_interface (sc_input call)) = true /\ ex (egress_interface (sc_input call)) = true /\
    complete_setup st (sc_random call) (sc_input call) f now d0 = (Ok tt, ss_db s) /\ prepare_request st (sc_random call) (sc_input call) = Ok p /\
    is_setup_complete true (ss_db s) = Ok true /\
    ss_requests s !! id = Some (if ss_flag s then Answered 200 else Stored) /\
    forall j, j <> id -> ss_requests s !! j <> Some Stored /\ ss_requests s !! j <> Some (Answered 200).
Proof.
  intros s. destruct (once_run d0 evs) as [_ [(Hd & Hf & Hn)|(id & ex & call & p & f & now & Ha & (Ht & Hv & H1 & H2 & Hp) & Hco & Hst & Hid & Hn)]].
  - left. split; [done|]. split; [done|]. intros Hin. by destruct (Hn _ Hin); right.
  - right. exists id, ex, call, p, f, now. split_and!; try done.
    + unfold complete_setup. by rewrite Hp.
    + unfold is_setup_complete, get_system_state. fold s in Hst. cbn [res_bind]. by rewrite Hst.
    + intros j Hj. split; intros Hr; destruct (Hn j _ Hj Hr); [by left|by right].
Qed.
End Once.

(** ** What is sealed can be opened *)

Section Sealed.
Context {K : Type} `{CL : CryptoLaws K}.

Lemma envelope_reads (alg nonce ct : string) (f : Json -> result CryptoError string) :
  let env := JObject [("v", JNumber "1"); ("alg", JString alg); ("nonce", JString nonce); ("ct", JString ct)] in
  exists j, json_parse (json_to_string env) = Some j /\ forall key, object_get j key = object_get env key.
Proof. apply law_object; [|by repeat constructor]. refine (bool_decide_eq_true_1 _ _). by vm_compute. Qed.

Definition nonce_ok (nonce : bytes) : Prop := bytes_ok nonce /\ length nonce = AES_GCM_NONCE_LEN.

(** What a store seals it opens again; a store with a key opens nothing that was stored
    without one, and one without a key nothing that was sealed with one. *)
Lemma secret_round_trip (st st' : SecretStore K) (nonce : bytes) (p e : string) :
  nonce_ok nonce -> is_utf8 (str_bytes p) = true -> encrypt st nonce p = Ok e ->
  decrypt st e = Ok p /\
  (is_Some (cipher st') -> cipher st = None -> decrypt st' e = Err AlgNoneRejected) /\
  (is_Some (cipher st) -> cipher st' = None -> decrypt st' e = Err MasterKeyUnavailable).
Proof.
  intros [Hb Hn] Hu He. unfold encrypt in He. unfold decrypt, from_utf8. destruct (cipher st) as [k|] eqn:Hk.
  - destruct (aes_encrypt k nonce (str_bytes p)) as [c|] eqn:Ha; [|done]. injection He as <-.
    destruct (envelope_reads "aes-256-gcm" (b64_encode nonce) (b64_encode c) (fun _ => Ok p)) as (j & -> & Hj). cbn [ok_or res_bind]. rewrite !Hj.
    split; [|split; [done|intros _ ->; reflexivity]].
    destruct (law_aes _ _ _ _ (str_bytes_ok p) Ha) as [Hc Hopen].
    cbn -[b64_decode b64_encode aes_decrypt is_utf8 AES_GCM_NONCE_LEN]. rewrite !law_b64 by done. cbn [ok_or res_bind]. rewrite Hn. cbn [Nat.eqb negb AES_GCM_NONCE_LEN].
    rewrite Hopen. cbn [ok_or res_bind]. by rewrite Hu, bytes_str_bytes.
  - injection He as <-. destruct (envelope_reads "none" "" (b64_encode (str_bytes p)) (fun _ => Ok p)) as (j & -> & Hj). cbn [ok_or res_bind]. rewrite !Hj.
    split; [|split; [intros [k' ->] _; reflexivity|by intros [? ?]]].
    cbn -[b64_decode b64_encode is_utf8]. rewrite law_b64 by apply str_bytes_ok. cbn [ok_or res_bind]. by rewrite Hu, bytes_str_bytes.
Qed.
End Sealed.

(** ** Numbers as text *)

Lemma digit_char_code x : 0 <= x < 10 -> code (digit_char x) = 48 + x.
Proof.
  intros Hx. unfold digit_char, code. replace (x <? 10) with true by (symmetry; apply Z.ltb_lt; lia).
  rewrite nat_ascii_embedding; lia.
Qed.
Lemma parse_digit acc x s : 0 <= x < 10 -> parse_digits acc (String (digit_char x) s) = parse_digits (acc * 10 + x) s.
Proof.
  intros Hx. cbn [parse_digits]. unfold is_digit. rewrite (digit_char_code x Hx).
  replace ((48 <=? 48 + x) && (48 + x <=? 57)) with true by (symmetry; apply andb_true_iff; split; apply Z.leb_le; lia). f_equal. lia.
Qed.
Lemma print_digits_S n x acc : print_digits (S n) 10 x acc =
  (if x / 10 =? 0 then String (digit_char (x mod 10)) acc else print_digits n 10 (x / 10) (String (digit_char (x mod 10)) acc)).
Proof. done. Qed.
Lemma parse_print_digits n x acc : 0 <= x < 10 ^ Z.of_nat (S n) -> parse_digits 0 (print_digits (S n) 10 x acc) = parse_digits x acc.
Proof.
  revert x acc. induction n as [|n IH]; intros x acc Hx; rewrite print_digits_S; pose proof (Z.mod_pos_bound x 10 ltac:(lia)) as Hm;
    pose proof (Z.div_mod x 10 ltac:(lia)) as Hd; destruct (x / 10 =? 0) eqn:Hq.
  - apply Z.eqb_eq in Hq. rewrite parse_digit by done. f_equal. lia.
  - apply Z.eqb_neq in Hq. change (10 ^ Z.of_nat 1) with 10 in Hx. rewrite Z.div_small in Hq by lia. lia.
  - apply Z.eqb_eq in Hq. rewrite parse_digit by done. f_equal. lia.
  - rewrite IH; [rewrite parse_digit by done; f_equal; lia|].
    replace (Z.of_nat (S (S n))) with (Z.succ (Z.of_nat (S n))) in Hx by lia. rewrite Z.pow_succ_r in Hx by lia.
    split; [apply Z.div_pos; lia|apply Z.div_lt_upper_bound; lia].
Qed.
Lemma print_digits_head n x acc : exists d s, 0 <= d < 10 /\ print_digits (S n) 10 x acc = String (digit_char d) s.
Proof.
  revert x acc. induction n as [|n IH]; intros x acc; rewrite print_digits_S; pose proof (Z.mod_pos_bound x 10 ltac:(lia)) as Hm.
  - destruct (x / 10 =? 0); eauto.
  - destruct (x / 10 =? 0); [eauto|apply IH].
Qed.
Lemma parse_print_dec w x : 0 <= x < pow2 w -> pow2 w <= 10 ^ 40 -> parse_uint w (print_dec x) = Some x.
Proof.
  intros Hx Hw. unfold parse_uint, print_dec. change 40%nat with (S 39).
  pose proof (parse_print_digits 39 x "" ltac:(lia)) as Hp. destruct (print_digits_head 39 x "") as (d & s & Hd & He). rewrite He in *.
  assert (code (digit_char d) = 48 + d) as Hc by by apply digit_char_code.
  assert (match String (digit_char d) s with String "+" s' => s' | _ => String (digit_char d) s end = String (digit_char d) s) as ->.
  { destruct (digit_char d) as [[] [] [] [] [] [] [] []]; done. }
  cbn [is_empty]. rewrite Hp. cbn [parse_digits]. by replace (x <? pow2 w) with true by (symmetry; apply Z.ltb_lt; lia).
Qed.

(** ** The rules after the setup *)

Definition setup_paths : list string :=
  ["ebpf.ingress_ifname"; "ebpf.egress_ifname"; "http_server.port"; "notification.smtp.host"; "notification.smtp.port"; "notification.smtp.username";
   "notification.smtp.recipient"].

Ltac same_rule Hi Hf Hv Hc := repeat match goal with
  | |- context [int ?cfg ?p] => is_var cfg; progress rewrite (Hi p eq_refl)
  | |- context [flt_of ?cfg ?p] => is_var cfg; progress rewrite (Hf p eq_refl)
  | |- context [vec_of ?cfg ?p] => is_var cfg; progress rewrite (Hv p eq_refl)
  | |- context [?cfg !! ?p] => is_var cfg; progress rewrite (Hc p eq_refl) end; reflexivity.

Lemma positive_field b field : b = true -> require_config_field b field = Ok tt.
Proof. by intros ->. Qed.

Lemma valid_ports (cfg : gmap string Value) : validate cfg = Ok tt -> 0 < int cfg "http_server.port" /\ 0 < int cfg "notification.smtp.port".
Proof.
  assert (forall b field, require_config_field b field = Ok tt -> b = true) as Hr by by intros [|].
  unfold validate. intros ([] & _ & ([] & _ & ([] & _ & ([] & _ & ([] & _ & ([] & _ & ([] & V7 & ([] & _ & ([] & V9 & _)%res_bind_inv)%res_bind_inv)%res_bind_inv)%res_bind_inv)%res_bind_inv)%res_bind_inv)%res_bind_inv)%res_bind_inv)%res_bind_inv.
  apply res_bind_inv in V7 as ([] & V7%Hr & _). apply Hr in V9. split; by apply Z.ltb_lt.
Qed.

(** The rules look at no setting of the setup but the two ports. *)
Lemma validate_frame (cfg cfg0 : gmap string Value) :
  (forall path, bool_decide (path ∈ setup_paths) = false -> cfg !! path = cfg0 !! path) ->
  0 < int cfg "http_server.port" -> 0 < int cfg "notification.smtp.port" -> validate cfg0 = Ok tt -> validate cfg = Ok tt.
Proof.
  intros Hc Hhttp Hsmtp.
  assert (forall p, bool_decide (p ∈ setup_paths) = false -> int cfg p = int cfg0 p) as Hi by (intros p Hp; unfold int; by rewrite (Hc p Hp)).
  assert (forall p, bool_decide (p ∈ setup_paths) = false -> flt_of cfg p = flt_of cfg0 p) as Hf by (intros p Hp; unfold flt_of; by rewrite (Hc p Hp)).
  assert (forall p, bool_decide (p ∈ setup_paths) = false -> vec_of cfg p = vec_of cfg0 p) as Hv by (intros p Hp; unfold vec_of; by rewrite (Hc p Hp)).
  assert (validate_AclConfig cfg = validate_AclConfig cfg0) as EAcl by (unfold validate_AclConfig; same_rule Hi Hf Hv Hc).
  assert (validate_CorrelationConfig cfg = validate_CorrelationConfig cfg0) as ECorrelation by (unfold validate_CorrelationConfig, validate_CorrelationDetectorParams; same_rule Hi Hf Hv Hc).
  assert (validate_DetectionConfig cfg = validate_DetectionConfig cfg0) as EDetection by (unfold validate_DetectionConfig, validate_FusionConfig, validate_BeaconingConfig, validate_FlowStatsConfig; same_rule Hi Hf Hv Hc).
  assert (validate_DnsFilterConfig cfg = validate_DnsFilterConfig cfg0) as EDnsFilter by (unfold validate_DnsFilterConfig; same_rule Hi Hf Hv Hc).
  assert (validate_EbpfConfig cfg = validate_EbpfConfig cfg0) as EEbpf by (unfold validate_EbpfConfig; same_rule Hi Hf Hv Hc).
  assert (validate_HealthConfig cfg = validate_HealthConfig cfg0) as EHealth by (unfold validate_HealthConfig; same_rule Hi Hf Hv Hc).
  assert (validate_MlConfig cfg = validate_MlConfig cfg0) as EMl by (unfold validate_MlConfig, validate_InferenceConfig, validate_FlowConfig, validate_DriftConfig, validate_CircuitBreakerConfig, validate_FlowTraceConfig, validate_ModelUploadConfig; same_rule Hi Hf Hv Hc).
  assert (validate_ObservabilityConfig cfg = validate_ObservabilityConfig cfg0) as EObservability by (unfold validate_ObservabilityConfig; same_rule Hi Hf Hv Hc).
  assert (validate_PipelineConfig cfg = validate_PipelineConfig cfg0) as EPipeline by (unfold validate_PipelineConfig; same_rule Hi Hf Hv Hc).
  assert (validate_SoarConfig cfg = validate_SoarConfig cfg0) as ESoar by (unfold validate_SoarConfig; same_rule Hi Hf Hv Hc).
  assert (validate_SuricataConfig cfg = validate_SuricataConfig cfg0) as ESuricata by (unfold validate_SuricataConfig; same_rule Hi Hf Hv Hc).
  assert (validate_SystemConfig cfg = validate_SystemConfig cfg0) as ESystem by (unfold validate_SystemConfig; same_rule Hi Hf Hv Hc).
  unfold validate. intros ([] & V1 & ([] & V2 & ([] & V3 & ([] & V4 & ([] & V5 & ([] & V6 & ([] & V7 & ([] & V8 & ([] & V9 & Hrest)%res_bind_inv)%res_bind_inv)%res_bind_inv)%res_bind_inv)%res_bind_inv)%res_bind_inv)%res_bind_inv)%res_bind_inv)%res_bind_inv.
  assert (validate_HttpServerConfig cfg = Ok tt) as VH.
  { unfold validate_HttpServerConfig in *. rewrite (Hi "http_server.session_expiry_hours" eq_refl), (Hi "http_server.session_idle_timeout_minutes" eq_refl).
    apply res_bind_inv in V7 as (_ & _ & V7). rewrite (positive_field (0 <? int cfg "http_server.port")) by (by apply Z.ltb_lt). exact V7. }
  assert (validate_NotificationConfig cfg = Ok tt) as VN by (apply positive_field; by apply Z.ltb_lt).
  rewrite EAcl, V1, ECorrelation, V2, EDetection, V3, EDnsFilter, V4, EEbpf, V5, EHealth, V6, VH, EMl, V8, VN. cbn [res_bind].
  rewrite EObservability, EPipeline, ESoar, ESuricata, ESystem. exact Hrest.
Qed.

(** ** The settings of a setup *)

Definition setup_rows (input : CompleteSetupInput) : list (string * option string) :=
  [("ingress_interface", Some (ingress_interface input)); ("egress_interface", Some (egress_interface input));
   ("http_port", print_dec <$> http_port input); ("smtp_host", trimmed_text_value (smtp_host input));
   ("smtp_port", print_dec <$> smtp_port input); ("smtp_username", trimmed_text_value (smtp_username input));
   ("smtp_password", (fun _ => "__encrypted__") <$> smtp_password_given input); ("smtp_recipient", trimmed_text_value (smtp_recipient input))].
Definition given (rows : list (string * option string)) : list (string * string) := omap (fun r => (fun v => (r.1, v)) <$> r.2) rows.

Lemma given_in rows key v : (key, v) ∈ given rows <-> (key, Some v) ∈ rows.
Proof.
  unfold given. rewrite list_elem_of_omap. split.
  - intros ([k [w|]] & Hin & Heq); [|done]. cbn in Heq. by injection Heq as <- <-.
  - intros Hin. by exists (key, Some v).
Qed.
Lemma given_lookup rows t key o : NoDup (map fst rows) -> (key, o) ∈ rows -> insert_or_replace (given rows) t !! key = or_else o (t !! key).
Proof.
  intros Hnd Hin. assert (forall o', (key, o') ∈ rows -> o' = o) as Hone.
  { intros o' Hin'. apply list_elem_of_lookup in Hin as [i Hi], Hin' as [j Hj].
    assert (i = j) as <- by (eapply (NoDup_lookup (map fst rows)); [done| |]; rewrite list_lookup_fmap; [by rewrite Hi|by rewrite Hj]). congruence. }
  destruct o as [v|]; cbn [or_else].
  - apply insert_or_replace_const; [intros v' Hv'%given_in; by injection (Hone _ Hv')|].
    apply list_elem_of_fmap. exists (key, v). split; [done|]. by apply given_in.
  - apply insert_or_replace_miss. intros ([k v] & -> & Hv%given_in)%list_elem_of_fmap. by specialize (Hone _ Hv).
Qed.
Lemma given_miss rows t key : key ∉ map fst rows -> insert_or_replace (given rows) t !! key = t !! key.
Proof.
  intros Hn. apply insert_or_replace_miss. intros ([k v] & -> & Hv%given_in)%list_elem_of_fmap. destruct Hn. apply list_elem_of_fmap. by exists (k, Some v).
Qed.
Lemma setup_rows_distinct input : NoDup (map fst (setup_rows input)).
Proof. refine (bool_decide_eq_true_1 _ _). by vm_compute. Qed.

Section Prepared.
Context {K : Type} `{J : SerdeJson} `{C : Crypto K} `{H : PasswordHasher}.

Definition telegram_json (chat_id : string) : string := json_to_string (JObject [("bot_token", JString "__encrypted__"); ("chat_id", JString chat_id)]).

Lemma prepared_rows (st : SecretStore K) rnd input s : prepare_setup_state st rnd input = Ok s ->
  config_values s = given (setup_rows input) /\
  match smtp_password_given input with
  | Some pass => exists e, encrypt st (rnd_smtp rnd) pass = Ok e /\ ("smtp_password", e) ∈ secret_values s
  | None => "smtp_password" ∉ map fst (secret_values s)
  end /\
  match telegram_given input with
  | Some (token, chat_id) => (exists e, encrypt st (rnd_telegram rnd) token = Ok e /\ ("telegram_bot_token", e) ∈ secret_values s) /\
      notification_configs s = [("telegram", telegram_json chat_id)]
  | None => "telegram_bot_token" ∉ map fst (secret_values s) /\ notification_configs s = []
  end /\ NoDup (map fst (secret_values s)).
Proof.
  assert (forall {A : Type} (r : result CryptoError A) x, crypto r = Ok x -> r = Ok x) as Hc by (intros A [a|e] x; cbn; congruence).
  unfold prepare_setup_state, encrypt_envelope. intros (sealed & Hs & Hrest)%res_bind_inv.
  assert (exists secrets, sealed.1 = secrets /\ sealed.2 = given (take 7 (setup_rows input)) /\
    match smtp_password_given input with Some pass => exists e, encrypt st (rnd_smtp rnd) pass = Ok e /\ secrets = [("smtp_password", e)] | None => secrets = [] end)
    as (secrets & Hs1 & Hs2 & Hsec).
  { unfold setup_rows, optional in *. cbn [take].
    destruct (smtp_password_given input) as [pass|]; [apply res_bind_inv in Hs as (e & He & [= <-])|injection Hs as <-]; eexists; (split; [reflexivity|]); cbn [fst snd].
    all: destruct (http_port input), (trimmed_text_value (smtp_host input)), (smtp_port input), (trimmed_text_value (smtp_username input)); (split; [reflexivity|]); eauto. }
  destruct sealed as [? ?]. cbn [fst snd] in Hs1, Hs2. subst.
  assert (given (take 7 (setup_rows input)) ++ optional "smtp_recipient" (trimmed_text_value (smtp_recipient input)) = given (setup_rows input))%list as Hr.
  { unfold given. rewrite <- (take_drop 7 (setup_rows input)) at 2. rewrite omap_app. f_equal. cbn. by destruct (trimmed_text_value (smtp_recipient input)). }
  rewrite Hr in Hrest. clear Hr.
  destruct (telegram_given input) as [[token chat_id]|].
  - apply res_bind_inv in Hrest as (e' & He'%Hc & [= <-]). cbn [config_values secret_values notification_configs]. split; [done|].
    destruct (smtp_password_given input) as [pass|]; [destruct Hsec as (e & He & ->)|subst]; cbn [app map fst].
    + split; [exists e; split; [done|by left]|]. split; [split; [exists e'; split; [done|by right; left]|done]|]. refine (bool_decide_eq_true_1 _ _). by vm_compute.
    + split; [intros Hin; by apply list_elem_of_singleton in Hin|]. split; [split; [exists e'; split; [done|by left]|done]|]. apply NoDup_singleton.
  - injection Hrest as <-. cbn [config_values secret_values notification_configs]. split; [done|].
    destruct (smtp_password_given input) as [pass|]; [destruct Hsec as (e & He & ->)|subst]; cbn [map fst].
    + split; [exists e; split; [done|by left]|]. split; [split; [intros Hin; by apply list_elem_of_singleton in Hin|done]|apply NoDup_singleton].
    + split; [intros Hin; by apply elem_of_nil in Hin|]. split; [split; [intros Hin; by apply elem_of_nil in Hin|done]|constructor].
Qed.
End Prepared.

(** ** The settings read back *)

Lemma read_values_works reads get keys acc : (forall key, reads key = true) -> read_values reads get keys acc = read_values (fun _ => true) get keys acc.
Proof. intros Hr. revert acc. induction keys as [|[k d] keys IH]; intros acc; [done|]. cbn [read_values]. rewrite (Hr k). apply IH. Qed.
Lemma load_works dbg reads get : (forall key, reads key = true) -> load_app_config dbg reads get = load_app_config dbg (fun _ => true) get.
Proof. intros Hr. unfold load_app_config. by rewrite (read_values_works reads). Qed.

Lemma from_row_string dbg get l v : lf_ty l = TString -> get (lf_key l) = Some v -> is_empty v = false -> from_row dbg get l = Some (VString v).
Proof. intros Ht Hg He. unfold from_row, apply_value. rewrite Hg, lookup_singleton_eq, Ht, He. apply lookup_insert_eq. Qed.
Lemma from_row_uint dbg get l w v n : lf_ty l = TUint w -> get (lf_key l) = Some v -> parse_uint w v = Some n -> from_row dbg get l = Some (VInt n).
Proof. intros Ht Hg Hp. unfold from_row, apply_value. rewrite Hg, lookup_singleton_eq, Ht. unfold parse_value. rewrite Hp. apply lookup_insert_eq. Qed.

(** Where the settings of a setup are. *)
Lemma setup_leaf (path key : string) (port : bool) :
  (path, key, port) ∈ [("ebpf.ingress_ifname", "ingress_interface", false); ("ebpf.egress_ifname", "egress_interface", false);
    ("http_server.port", "http_port", true); ("notification.smtp.host", "smtp_host", false); ("notification.smtp.port", "smtp_port", true);
    ("notification.smtp.username", "smtp_username", false); ("notification.smtp.recipient", "smtp_recipient", false)] ->
  exists l, l ∈ app_leaves /\ lf_path l = path /\ lf_key l = key /\ lf_ty l = if port then TUint 16 else TString.
Proof.
  intros Hin. assert (forallb (fun '(path, key, port) => existsb (fun l => String.eqb (lf_path l) path && String.eqb (lf_key l) key &&
    match lf_ty l with TString => negb port | TUint 16 => port | _ => false end) app_leaves)
    [("ebpf.ingress_ifname", "ingress_interface", false); ("ebpf.egress_ifname", "egress_interface", false);
    ("http_server.port", "http_port", true); ("notification.smtp.host", "smtp_host", false); ("notification.smtp.port", "smtp_port", true);
    ("notification.smtp.username", "smtp_username", false); ("notification.smtp.recipient", "smtp_recipient", false)] = true) as Hall by by vm_compute.
  apply list_elem_of_In in Hin. eapply forallb_forall in Hall; [|exact Hin]. cbn beta iota in Hall. apply existsb_exists in Hall as (l & Hl & Ht).
  apply list_elem_of_In in Hl. exists l. apply andb_true_iff in Ht as [[Hp%String.eqb_eq Hk%String.eqb_eq]%andb_true_iff Ht]. split; [exact Hl|]. split; [exact Hp|]. split; [exact Hk|].
  destruct (lf_ty l) as [| | |w| | | |]; try done; [by destruct port|].
  destruct w as [|w|]; try done. do 4 (destruct w as [w|w|]; try done). destruct w; try done. by destruct port.
Qed.

Definition setup_keys : list string :=
  ["ingress_interface"; "egress_interface"; "http_port"; "smtp_host"; "smtp_port"; "smtp_username"; "smtp_password"; "smtp_recipient"].
Lemma setup_keys_paths l : l ∈ app_leaves -> lf_path l ∉ setup_paths ->
  lf_key l ∉ setup_keys.
Proof.
  intros Hl Hp Hk. assert (forallb (fun l => implb (bool_decide (lf_key l ∈ setup_keys))
    (bool_decide (lf_path l ∈ setup_paths))) app_leaves = true) as Hall by by vm_compute.
  apply list_elem_of_In in Hl. eapply forallb_forall in Hall; [|exact Hl]. rewrite (bool_decide_eq_true_2 _ Hk), (bool_decide_eq_false_2 _ Hp) in Hall. discriminate.
Qed.

(** ** The administrator *)

Lemma find_map_keep {A} (f : A -> A) (p : A -> bool) (l : list A) : (forall a, p (f a) = p a) -> List.find p (map f l) = f <$> List.find p l.
Proof. intros Hp. induction l as [|a l IH]; [done|]. cbn. rewrite Hp. by destruct (p a). Qed.

Lemma find_last {A} (p : A -> bool) (l : list A) x : List.find p l = None -> p x = true -> List.find p (l ++ [x])%list = Some x.
Proof. intros Hn Hx. induction l as [|a l IH]; cbn in *; [by rewrite Hx|]. destruct (p a); [done|by apply IH]. Qed.
Lemma setup_admin_done now name hash d a d' : setup_admin now name hash d = Ok (a, d') ->
  exists u g, user_by_name name d' = Some u /\ u_hash u = hash /\ u_force u = false /\ group_by_name GROUP_ADMIN d' = Some g /\ (u_id u, g_id g) ∈ user_group_members d'.
Proof.
  unfold setup_admin. cbv zeta. set (d1 := match user_by_name name d with Some u => update_user (u_id u) _ d | None => _ end).
  assert (exists u, user_by_name name d1 = Some u /\ u_hash u = hash /\ u_force u = false) as (u & Hu & Hh & Hf).
  { subst d1. destruct (user_by_name name d) as [u|] eqn:Hu.
    - unfold user_by_name in *. cbn [users update_user set_users]. rewrite find_map_keep by (intros x; by destruct (u_id x =? u_id u)).
      rewrite Hu. cbn. rewrite Z.eqb_refl. by eexists.
    - unfold user_by_name in *. cbn [users set_users]. exists (mk_user_row (next_user d) name hash ROLE_ADMIN false now). split; [|done].
      apply find_last; [done|]. apply String.eqb_refl. }
  rewrite Hu. destruct (group_by_name GROUP_ADMIN d1) as [g|] eqn:Hg; [|done]. intros [= <- <-].
  exists u, g. destruct (decide ((u_id u, g_id g) ∈ user_group_members d1)) as [Hm|Hm];
    [rewrite bool_decide_eq_true_2 by done|rewrite bool_decide_eq_false_2 by done]; [done|].
  split; [done|]. split; [done|]. split; [done|]. split; [done|]. cbn. apply elem_of_app. right. by apply list_elem_of_singleton.
Qed.

(** ** The start after the setup *)

Ltac at_list := first [apply list_elem_of_here | apply list_elem_of_further; at_list].

Section Starts.
Context {K : Type} `{CL : CryptoLaws K} `{HL : PasswordHasherLaws}.

(** The configuration [cfg] has the settings of the input, and those of [cfg0] where the
    input has none. *)
Definition settings_in_force (input : CompleteSetupInput) (cfg0 cfg : gmap string Value) : Prop :=
  cfg !! "ebpf.ingress_ifname" = Some (VString (ingress_interface input)) /\
  cfg !! "ebpf.egress_ifname" = Some (VString (egress_interface input)) /\
  cfg !! "http_server.port" = or_else (VInt <$> http_port input) (cfg0 !! "http_server.port") /\
  cfg !! "notification.smtp.port" = or_else (VInt <$> smtp_port input) (cfg0 !! "notification.smtp.port") /\
  cfg !! "notification.smtp.host" = or_else (VString <$> trimmed_text_value (smtp_host input)) (cfg0 !! "notification.smtp.host") /\
  cfg !! "notification.smtp.username" = or_else (VString <$> trimmed_text_value (smtp_username input)) (cfg0 !! "notification.smtp.username") /\
  cfg !! "notification.smtp.recipient" = or_else (VString <$> trimmed_text_value (smtp_recipient input)) (cfg0 !! "notification.smtp.recipient") /\
  forall path, path ∉ setup_paths -> cfg !! path = cfg0 !! path.

Definition port_ok (p : option Z) : Prop := match p with Some p => 0 <= p < 65536 | None => True end.

Lemma valid_input_inv input : validate_setup_input input = Ok tt ->
  is_empty (ingress_interface input) = false /\ is_empty (egress_interface input) = false /\ http_port input <> Some 0 /\ smtp_port input <> Some 0.
Proof.
  assert (forall b why, refuse b why = Ok tt -> b = false) as Hr by (by intros [|]).
  unfold validate_setup_input. intros ([] & H1%Hr & ([] & H2%Hr & (_ & _ & (_ & _ & ([] & H5%Hr & ([] & H6%Hr & _)%res_bind_inv)%res_bind_inv)%res_bind_inv)%res_bind_inv)%res_bind_inv)%res_bind_inv.
  apply negb_false_iff in H1, H2. unfold is_valid_interface_name in H1, H2. rewrite !andb_true_iff in H1, H2.
  destruct H1 as [[[[H1%negb_true_iff _] _] _] _], H2 as [[[[H2%negb_true_iff _] _] _] _].
  apply bool_decide_eq_false in H5, H6. done.
Qed.

Lemma trimmed_not_empty v t : trimmed_text_value v = Some t -> is_empty t = false.
Proof. unfold trimmed_text_value. destruct v as [v|]; [|done]. destruct (is_empty (trim v)) eqn:E; [done|]. by intros [= <-]. Qed.

(** The settings table after the transaction loads. *)
Lemma setup_settings_load dbg input (t : gmap string string) cfg0 :
  validate_setup_input input = Ok tt -> port_ok (http_port input) -> port_ok (smtp_port input) ->
  load_app_config dbg (fun _ => true) (fun key => t !! key) = Ok cfg0 ->
  exists cfg, load_app_config dbg (fun _ => true) (fun key => insert_or_replace (given (setup_rows input)) t !! key) = Ok cfg /\
    validate cfg = Ok tt /\ settings_in_force input cfg0 cfg.
Proof.
  intros Hval Hp1 Hp2 Hload. destruct (valid_input_inv input Hval) as (Hn1 & Hn2 & Hz1 & Hz2). set (rows := given (setup_rows input)).
  assert (forall key, key ∉ setup_keys -> insert_or_replace rows t !! key = t !! key) as Hmiss by (intros key Hk; by apply given_miss).
  assert (forall key o, (key, o) ∈ setup_rows input -> insert_or_replace rows t !! key = or_else o (t !! key)) as Hhit
    by (intros key o Hin; apply given_lookup; [apply setup_rows_distinct|done]).
  destruct (load_other dbg (fun key => t !! key) (fun key => insert_or_replace rows t !! key) cfg0 Hload) as (cfg & Hframe & Hok & Hat).
  { apply Hmiss. refine (bool_decide_eq_false_1 _ _). by vm_compute. }
  assert (forall path, path ∉ setup_paths -> cfg !! path = cfg0 !! path) as Hother.
  { intros path Hp. apply Hframe. intros l Hl <-. apply Hmiss. by apply setup_keys_paths. }
  pose proof Hload as (values & Hf & _ & _)%load_inv. destruct (loaded_typed _ _ _ Hf) as [_ Hv0].
  assert (forall path key k o, (path, key, k) ∈ [("ebpf.ingress_ifname", "ingress_interface", false); ("ebpf.egress_ifname", "egress_interface", false);
    ("http_server.port", "http_port", true); ("notification.smtp.host", "smtp_host", false); ("notification.smtp.port", "smtp_port", true);
    ("notification.smtp.username", "smtp_username", false); ("notification.smtp.recipient", "smtp_recipient", false)] ->
    (key, o) ∈ setup_rows input -> o = None -> cfg !! path = cfg0 !! path) as Hnone.
  { intros path key k o Hin Hrow ->. destruct (setup_leaf _ _ _ Hin) as (l & Hl & <- & Hk & _).
    apply Hframe. intros l' Hl' Heq. rewrite (leaf_of_path l' l Hl' Hl Heq), Hk, (Hhit key _ Hrow). reflexivity. }
  assert (forall path key o, (path, key, false) ∈ [("ebpf.ingress_ifname", "ingress_interface", false); ("ebpf.egress_ifname", "egress_interface", false);
    ("http_server.port", "http_port", true); ("notification.smtp.host", "smtp_host", false); ("notification.smtp.port", "smtp_port", true);
    ("notification.smtp.username", "smtp_username", false); ("notification.smtp.recipient", "smtp_recipient", false)] ->
    (key, o) ∈ setup_rows input -> (forall v, o = Some v -> is_empty v = false) -> cfg !! path = or_else (VString <$> o) (cfg0 !! path)) as Htext.
  { intros path key o Hin Hrow He. destruct o as [v|]; [|exact (Hnone path key false None Hin Hrow eq_refl)].
    destruct (setup_leaf _ _ _ Hin) as (l & Hl & <- & Hk & Ht). rewrite (Hat l Hl). apply from_row_string; [exact Ht| |exact (He v eq_refl)].
    rewrite Hk, (Hhit key (Some v) Hrow). reflexivity. }
  assert (forall path key o, (path, key, true) ∈ [("ebpf.ingress_ifname", "ingress_interface", false); ("ebpf.egress_ifname", "egress_interface", false);
    ("http_server.port", "http_port", true); ("notification.smtp.host", "smtp_host", false); ("notification.smtp.port", "smtp_port", true);
    ("notification.smtp.username", "smtp_username", false); ("notification.smtp.recipient", "smtp_recipient", false)] ->
    (key, print_dec <$> o) ∈ setup_rows input -> port_ok o -> cfg !! path = or_else (VInt <$> o) (cfg0 !! path)) as Hport.
  { intros path key o Hin Hrow Ho. destruct o as [p|]; [|exact (Hnone path key true None Hin Hrow eq_refl)].
    destruct (setup_leaf _ _ _ Hin) as (l & Hl & <- & Hk & Ht).
    rewrite (Hat l Hl). eapply from_row_uint; [exact Ht|rewrite Hk, (Hhit key _ Hrow); reflexivity|]. apply parse_print_dec; [exact Ho|]. by apply Z.leb_le. }
  destruct (valid_ports cfg0 Hv0) as [Hh Hs].
  assert (validate cfg = Ok tt) as Hv.
  { apply (validate_frame cfg cfg0); [|..|exact Hv0].
    - intros path Hp. apply Hother. by apply bool_decide_eq_false in Hp.
    - pose proof (Hport "http_server.port" "http_port" (http_port input) ltac:(at_list) ltac:(at_list) Hp1) as Hp. unfold int in *.
      destruct (http_port input) as [p|]; cbn [fmap option_fmap option_map or_else] in Hp; [rewrite Hp|by rewrite Hp]. destruct (decide (p = 0)) as [->|]; [by destruct Hz1|]. cbn in Hp1. lia.
    - pose proof (Hport "notification.smtp.port" "smtp_port" (smtp_port input) ltac:(at_list) ltac:(at_list) Hp2) as Hp. unfold int in *.
      destruct (smtp_port input) as [p|]; cbn [fmap option_fmap option_map or_else] in Hp; [rewrite Hp|by rewrite Hp]. destruct (decide (p = 0)) as [->|]; [by destruct Hz2|]. cbn in Hp2. lia. }
  exists cfg. split; [exact (Hok Hv)|]. split; [exact Hv|]. unfold settings_in_force.
  assert (forall v t, trimmed_text_value v = Some t -> is_empty t = false) as Htrim by exact trimmed_not_empty.
  split; [apply (Htext _ "ingress_interface" (Some (ingress_interface input))); [at_list|at_list|by intros v [= <-]]|].
  split; [apply (Htext _ "egress_interface" (Some (egress_interface input))); [at_list|at_list|by intros v [= <-]]|].
  split; [exact (Hport "http_server.port" "http_port" (http_port input) ltac:(at_list) ltac:(at_list) Hp1)|].
  split; [exact (Hport "notification.smtp.port" "smtp_port" (smtp_port input) ltac:(at_list) ltac:(at_list) Hp2)|].
  split; [apply (Htext _ "smtp_host"); [at_list|at_list|apply Htrim]|].
  split; [apply (Htext _ "smtp_username"); [at_list|at_list|apply Htrim]|].
  split; [apply (Htext _ "smtp_recipient"); [at_list|at_list|apply Htrim]|exact Hother].
Qed.

Lemma config_part_ok {A : Type} (r : result ConfigError A) a : config_part r = Ok a -> r = Ok a.
Proof. destruct r; cbn; congruence. Qed.

#[local] Opaque load_app_config seed_config_defaults validate app_leaves.
Lemma complete_setup_inv (st : SecretStore K) rnd input f now d0 d : complete_setup st rnd input f now d0 = (Ok tt, d) ->
  exists s hash users, validate_setup_input input = Ok tt /\ hash_password (rnd_salt rnd) (admin_password input) = Some hash /\
    prepare_setup_state st rnd input = Ok s /\ setup_admin now DEFAULT_ADMIN_USERNAME hash (sd_users d0) = Ok (tt, users) /\
    d = mk_sdb (insert_or_replace (config_values s) (sd_settings d0)) (insert_or_replace (secret_values s) (sd_secrets d0))
          (fold_left (fun t kv => set_notification_config kv.1 kv.2 t) (notification_configs s) (sd_notify d0)) (<["setup_complete" := "true"]> (sd_state d0)) users.
Proof.
  unfold complete_setup, prepare_request, commit_request, complete_setup_atomically. destruct (validate_setup_input input) as [[]|]; [|done]. cbn [res_bind].
  destruct (hash_password _ _) as [hash|]; [|done]. destruct (prepare_setup_state st rnd input) as [s|]; [|done]. cbn [res_bind pr_state pr_hash].
  destruct (tf_read f); [|done]. cbn [negb]. case_bool_decide; [done|]. destruct (tf_rest f); [|done]. cbn [negb].
  destruct (setup_admin _ _ _ _) as [[[] users]|] eqn:Ha; [|done]. intros [= <-]. exists s, hash, users. split_and!; done.
Qed.

(** A secret of the setup is read back. *)
Lemma stored_secret (st : SecretStore K) nonce secrets t key e p : NoDup (map fst secrets) -> (key, e) ∈ secrets ->
  nonce_ok nonce -> is_utf8 (str_bytes p) = true -> encrypt st nonce p = Ok e ->
  get_secret st true key (insert_or_replace secrets t) = Ok (Some p).
Proof.
  intros Hnd Hin Hn Hu He. unfold get_secret, get_app_secret. cbn [res_bind].
  assert (insert_or_replace secrets t !! key = Some e) as ->.
  { apply insert_or_replace_const; [|apply list_elem_of_fmap; by exists (key, e)]. intros e' Hin'.
    apply list_elem_of_lookup in Hin as [i Hi], Hin' as [j Hj].
    assert (i = j) as <- by (eapply (NoDup_lookup (map fst secrets)); [done| |]; rewrite list_lookup_fmap; [by rewrite Hi|by rewrite Hj]). congruence. }
  by rewrite (proj1 (secret_round_trip st st nonce p e Hn Hu He)).
Qed.

(** C32: After a setup the program starts: once the first load accepted the settings, the
    setup was completed and the default playbooks were seeded, the start goes on with a
    valid configuration that has every value submitted and the value from before for
    everything else, settings the input leaves out included; the secrets sent read back as
    sent and others are as before, the administrator logs in with the password sent and
    has the group's rights, and the wizard is over. *)
Theorem completed_setup_starts {P : Type} (dbg : bool) (env : StartEnv P) (start : SetupDb) (settings : gmap string string) (playbooks playbooks' : P)
    (st : SecretStore K) (rnd : Randomness) (input : CompleteSetupInput) (f : TxFaults) (now : Z) (d : SetupDb) (cfg0 : gmap string Value) :
  (forall key, st_reads env key = true) ->
  seed_config_defaults dbg (st_works env) (sd_settings start) = (Ok tt, settings) ->
  let d0 := with_settings start settings in
  load_settings dbg env d0 = Ok cfg0 -> is_setup_complete (st_state env) d0 = Ok false ->
  complete_setup st rnd input f now d0 = (Ok tt, d) -> port_ok (http_port input) -> port_ok (smtp_port input) ->
  nonce_ok (rnd_smtp rnd) -> nonce_ok (rnd_telegram rnd) ->
  st_wizard env d0 = (true, d) -> st_playbooks env playbooks = Some playbooks' ->
  exists cfg, system_setup dbg env start playbooks = (Ok cfg, d, playbooks') /\ validate cfg = Ok tt /\ settings_in_force input cfg0 cfg /\
    (forall pass, smtp_password_given input = Some pass -> is_utf8 (str_bytes pass) = true ->
      get_secret st true "smtp_password" (sd_secrets d) = Ok (Some pass) /\ sd_settings d !! "smtp_password" = Some "__encrypted__") /\
    (smtp_password_given input = None -> sd_secrets d !! "smtp_password" = sd_secrets start !! "smtp_password") /\
    (forall token chat_id, telegram_given input = Some (token, chat_id) -> is_utf8 (str_bytes token) = true ->
      get_secret st true "telegram_bot_token" (sd_secrets d) = Ok (Some token) /\
      get_notification_config "telegram" (sd_notify d) = Some (telegram_json chat_id)) /\
    (telegram_given input = None -> sd_secrets d !! "telegram_bot_token" = sd_secrets start !! "telegram_bot_token" /\ sd_notify d = sd_notify start) /\
    (exists u g, user_by_name DEFAULT_ADMIN_USERNAME (sd_users d) = Some u /\ verify_password (admin_password input) (u_hash u) = Some true /\
      u_force u = false /\ group_by_name GROUP_ADMIN (sd_users d) = Some g /\ (u_id u, g_id g) ∈ user_group_members (sd_users d)) /\
    is_setup_complete true d = Ok true.
Proof.
  intros Hreads Hseed d0 Hload Hnew Hdone Hp1 Hp2 Hn1 Hn2 Hwiz Hplay. destruct (complete_setup_inv _ _ _ _ _ _ _ Hdone) as (s & hash & users & Hval & Hhash & Hs & Hadm & Hd).
  destruct (prepared_rows _ _ _ _ Hs) as (Hrows & Hsmtp & Htel & Hnd).
  assert (load_app_config dbg (fun _ => true) (fun key => sd_settings d0 !! key) = Ok cfg0) as Hl0.
  { unfold load_settings in Hload. rewrite (load_works _ _ _ Hreads) in Hload. by apply config_part_ok. }
  destruct (setup_settings_load dbg input (sd_settings d0) cfg0 Hval Hp1 Hp2 Hl0) as (cfg & Hl & Hv & Hset).
  assert (load_settings dbg env d = Ok cfg) as Hld.
  { unfold load_settings. rewrite (load_works _ _ _ Hreads), Hd. cbn [sd_settings]. rewrite Hrows, Hl. reflexivity. }
  exists cfg. split; [|split; [exact Hv|split; [exact Hset|]]].
  { unfold system_setup. rewrite Hseed. fold d0. cbn [config_part res_bind]. rewrite Hload. cbn [res_bind]. rewrite Hnew. cbn [setup_part].
    unfold run_setup_wizard. rewrite Hwiz, Hplay, Hld. reflexivity. }
  clear Hld Hl Hl0 Hload Hseed. rewrite Hd. cbn [sd_settings sd_secrets sd_notify sd_users]. split; [|split; [|split; [|split; [|split]]]].
  - intros pass Hpass Hu. rewrite Hpass in Hsmtp. destruct Hsmtp as (e & He & Hin). split; [exact (stored_secret st _ _ _ _ e pass Hnd Hin Hn1 Hu He)|].
    rewrite Hrows, (given_lookup _ _ "smtp_password" (Some "__encrypted__")); [reflexivity|apply setup_rows_distinct|].
    unfold setup_rows. rewrite Hpass. at_list.
  - intros Hpass. rewrite Hpass in Hsmtp. by apply insert_or_replace_miss.
  - intros token chat_id Hgiven Hu. rewrite Hgiven in Htel. destruct Htel as ((e & He & Hin) & Hnot). split; [exact (stored_secret st _ _ _ _ e token Hnd Hin Hn2 Hu He)|].
    rewrite Hnot. unfold get_notification_config, set_notification_config. cbn [fold_left fst snd]. by rewrite lookup_insert_eq.
  - intros Hgiven. rewrite Hgiven in Htel. destruct Htel as [Hmiss ->]. split; [by apply insert_or_replace_miss|reflexivity].
  - destruct (setup_admin_done _ _ _ _ _ _ Hadm) as (u & g & Hu & Hh & Hf & Hg & Hm). exists u, g. split; [done|]. split; [|done].
    rewrite Hh. by eapply verify_hash.
  - unfold is_setup_complete, get_system_state. cbn [res_bind sd_state]. by rewrite lookup_insert_eq.
Qed.
End Starts.

(** ** Default playbooks

    They are seeded after the wizard and only then: when the seeding fails, or the program
    stops before it, the setup is complete and no later start seeds them. *)
Lemma default_playbooks_are_lost {P : Type} dbg (env : StartEnv P) (start d : SetupDb) settings (playbooks : P) cfg0 :
  seed_config_defaults dbg (st_works env) (sd_settings start) = (Ok tt, settings) ->
  load_settings dbg env (with_settings start settings) = Ok cfg0 -> is_setup_complete (st_state env) (with_settings start settings) = Ok false ->
  st_wizard env (with_settings start settings) = (true, d) -> sd_state d !! "setup_complete" = Some "true" ->
  st_playbooks env playbooks = None ->
  system_setup dbg env start playbooks = (Err (StartSetup SetupDatabase), d, playbooks) /\
  forall env' : StartEnv P, (system_setup dbg env' d playbooks).2 = playbooks.
Proof.
  intros Hseed Hload Hnew Hwiz Hc Hplay. split.
  - unfold system_setup. rewrite Hseed. cbn [config_part res_bind]. rewrite Hload. cbn [res_bind]. rewrite Hnew. cbn [setup_part].
    unfold run_setup_wizard. by rewrite Hwiz, Hplay.
  - intros env'. unfold system_setup. destruct (seed_config_defaults dbg (st_works env') (sd_settings d)) as [[[]|e] t]; [|done]. cbn [config_part res_bind].
    destruct (load_settings dbg env' (with_settings d t)) as [c|e]; [|done]. cbn [res_bind].
    unfold is_setup_complete, get_system_state. destruct (st_state env'); [|done]. cbn [sd_state with_settings res_bind]. by rewrite Hc.
Qed.

(** ** A run *)

Definition flat_strings (l : list (string * Json)) : list string :=
  flat_map (fun kv => match kv.2 with JString v => [kv.1; "s"; v] | JNumber v => [kv.1; "n"; v] | _ => [] end) l.
Fixpoint flat_object (l : list string) : list (string * Json) :=
  match l with
  | key :: tag :: v :: l => (key, if String.eqb tag "s" then JString v else JNumber v) :: flat_object l
  | _ => []
  end.
#[local] Instance flat_json : SerdeJson := {|
  json_parse := fun text => match text with String "o" text => JObject ∘ flat_object <$> read_items text | _ => json_parse (SerdeJson := list_json) text end;
  json_print := json_print (SerdeJson := list_json) |}.
(** Encryption turns the text around. *)
#[local] Instance toy_crypto : Crypto string := {|
  b64_encode := bytes_str; b64_decode := fun s => Some (str_bytes s); derive_key := fun s => s;
  aes_encrypt := fun k nonce p => Some (reverse p);
  aes_decrypt := fun k nonce c => Some (reverse c);
  json_to_string := fun j => match j with JObject l => String "o" (fold_right (fun s t => print_item s ++ t) "" (flat_strings l)) | _ => "" end |}.
Lemma flat_read l : Forall (fun kv : string * Json => plain_value kv.2) l -> flat_object (flat_strings l) = l.
Proof. induction 1 as [|[k v] l Hv Hl IH]; [done|]. destruct v; try done; cbn; by f_equal. Qed.
#[local] Instance toy_laws : CryptoLaws string.
Proof.
  split.
  - intros b Hb. cbn. f_equal. induction Hb as [|x b Hx Hb IH]; [done|]. unfold bytes_str in *. cbn [fold_right str_bytes]. rewrite IH. f_equal.
    unfold byte_ok, in_width, pow2 in Hx. rewrite nat_ascii_embedding; lia.
  - intros k nonce p c Hp [= <-]. cbn. split; [by apply Forall_reverse|]. by rewrite reverse_involutive.
  - intros l _ Hl. exists (JObject l). split; [|done]. cbn.
    assert (forall t : list string, read_items (fold_right (fun s t => print_item s ++ t) "" t) = Some t) as Hr.
    { induction t as [|s t IH]; [done|]. cbn [fold_right]. by rewrite read_print_item, IH. }
    rewrite Hr. cbn [fmap option_fmap option_map]. unfold compose. by rewrite flat_read.
Qed.
#[local] Instance plain_laws : PasswordHasherLaws plain_hasher.
Proof. exact plain_hasher_laws. Qed.
#[local] Existing Instance plain_hasher.

Definition first_db : SetupDb := mk_sdb ∅ ∅ ∅ ∅ (seed_groups 0 empty_idb).
Definition first_input : CompleteSetupInput :=
  mk_input "eth0" "eth1" "Secret-1" (Some 9090) (Some " mail ") (Some 25) (Some "user") (Some "pw") (Some "ops") (Some "token") (Some "42").
Definition first_random : Randomness := mk_random "salt" (repeat 1 12) (repeat 2 12).
Definition first_store : SecretStore string := new_store (Some "key").
Definition first_calls : list SetupEvent :=
  let call := mk_call (Some "T") first_input first_random in
  let any := fun _ : string => true in
  [Arrive any (mk_call (Some "X") first_input first_random); Arrive any call; Arrive any call; Commit 2 (mk_txf true true) 5; Commit 1 (mk_txf true true) 6; Finish 2;
   Arrive any call].
Definition seeded_db : SetupDb := with_settings first_db (seed_config_defaults false (fun _ => true) ∅).2.
Definition first_server : SetupServer := setup_run first_store (mk_token "T") first_calls (new_server seeded_db).

(** Of three requests that arrive before the setup is done one has the wrong token and one
    comes too late. *)
Lemma first_server_answers :
  map (fun r => match r with Answered status => Some status | _ => None end) (ss_requests first_server) = map Some [403; 409; 200; 409] /\ ss_flag first_server = true.
Proof. by vm_compute. Qed.

Definition first_done : result SetupError unit * SetupDb := complete_setup first_store first_random first_input (mk_txf true true) 5 seeded_db.
Definition first_start : StartEnv bool := mk_start (fun _ => true) (fun _ => true) true (fun _ => (true, first_done.2)) (fun _ => Some true).
Lemma completed_setup_starts_witness : exists cfg,
  system_setup false first_start first_db false = (Ok cfg, first_done.2, true) /\ settings_in_force first_input (defaults false) cfg /\
  get_secret first_store true "smtp_password" (sd_secrets first_done.2) = Ok (Some "pw").
Proof.
  destruct (completed_setup_starts (K := string) false first_start first_db (seed_config_defaults false (fun _ => true) ∅).2 false true first_store first_random
    first_input (mk_txf true true) 5 first_done.2 (defaults false)) as (cfg & Hstart & _ & Hset & Hsecret & _).
  - reflexivity.
  - rewrite (surjective_pairing (seed_config_defaults _ _ _)). exact (f_equal (fun r => (r, _)) (proj1 (seeded_table_loads_defaults false))).
  - exact (f_equal config_part (proj2 (seeded_table_loads_defaults false))).
  - reflexivity.
  - assert (first_done.1 = Ok tt) as E by (vm_compute; reflexivity). rewrite (surjective_pairing (complete_setup _ _ _ _ _ _)). exact (f_equal (fun r => (r, _)) E).
  - split; [discriminate|reflexivity].
  - split; [discriminate|reflexivity].
  - split; [repeat constructor; discriminate|reflexivity].
  - split; [repeat constructor; discriminate|reflexivity].
  - reflexivity.
  - reflexivity.
  - exists cfg. split; [exact Hstart|]. split; [exact Hset|]. apply (Hsecret "pw"); reflexivity.
Defined.
