(* ===== verification/Playbooks.v ===== *)
(** * Playbooks

    The playbooks an operator manages: the endpoints (adapter/http/response/soar.rs), the
    service (core/response/playbook_service.rs), the three tables with their keys, unique
    constraints and cascades (adapter/persistence/soar.rs, mod.rs), the default playbooks
    (domain/response/defaults.rs), and the reload after which the engine of [Soar] runs
    what is stored. *)

From Stdlib Require Import ZArith Lia List Ascii String Sorted.
From Corelib Require Import SpecFloat.
From stdpp Require Import base list gmap strings.
From S2P Require Import Prelude RStr Float Event Condition Matcher Soar.

Local Open Scope string_scope.
Local Open Scope Z_scope.

(** ** The tables *)

Record PlaybookRow : Type := mk_prow {
  p_id : Z; p_name : string; p_enabled : bool; p_trigger : string; p_threshold : option float; p_count : option Z; p_window : option Z; p_cooldown : Z }.
Record ActionRow : Type := mk_arow { a_id : Z; a_playbook : Z; a_order : Z; a_type : string; a_params : string }.
Record ConditionRow : Type := mk_crow { c_id : Z; c_playbook : Z; c_input : CreateConditionInput }.
(** Rows in the order of their insertion, and the next key of each table. *)
Record PlaybookDb : Type := mk_pdb {
  pt_playbooks : list PlaybookRow; pt_next : Z; pt_actions : list ActionRow; pt_next_action : Z; pt_conditions : list ConditionRow; pt_next_condition : Z }.
Definition empty_playbooks : PlaybookDb := mk_pdb [] 1 [] 1 [] 1.

Record ActionInput : Type := mk_action_input { ai_order : Z; ai_type : string; ai_params : string }.
Record CreatePlaybookInput : Type := mk_playbook_input {
  cp_name : string; cp_trigger : string; cp_threshold : option float; cp_count : option Z; cp_window : option Z; cp_cooldown : Z;
  cp_actions : list ActionInput; cp_conditions : list CreateConditionInput }.
Record UpdatePlaybookInput : Type := mk_update {
  up_name : string; up_trigger : string; up_threshold : option float; up_count : option Z; up_window : option Z; up_cooldown : Z }.

(** A statement fails on a key that is taken. *)
Definition insert_action (playbook_id : Z) (a : ActionInput) (d : PlaybookDb) : option PlaybookDb :=
  if existsb (fun r => (a_playbook r =? playbook_id) && (a_order r =? ai_order a)) (pt_actions d) then None
  else Some (mk_pdb (pt_playbooks d) (pt_next d) (pt_actions d ++ [mk_arow (pt_next_action d) playbook_id (ai_order a) (ai_type a) (ai_params a)])%list
               (pt_next_action d + 1) (pt_conditions d) (pt_next_condition d)).
Definition insert_condition (playbook_id : Z) (c : CreateConditionInput) (d : PlaybookDb) : option PlaybookDb :=
  if existsb (fun r => (c_playbook r =? playbook_id) && String.eqb (in_condition_type (c_input r)) (in_condition_type c)) (pt_conditions d) then None
  else Some (mk_pdb (pt_playbooks d) (pt_next d) (pt_actions d) (pt_next_action d)
               (pt_conditions d ++ [mk_crow (pt_next_condition d) playbook_id c])%list (pt_next_condition d + 1)).
Fixpoint insert_all {A : Type} (insert : A -> PlaybookDb -> option PlaybookDb) (l : list A) (d : PlaybookDb) : option PlaybookDb :=
  match l with
  | [] => Some d
  | x :: l => let! d := insert x d else None in insert_all insert l d
  end.

(** The transactions: [None] rolls back. *)
Definition insert_playbook_atomic (input : CreatePlaybookInput) (d : PlaybookDb) : option (Z * PlaybookDb) :=
  let playbook_id := pt_next d in
  let row := mk_prow playbook_id (cp_name input) true (cp_trigger input) (cp_threshold input) (cp_count input) (cp_window input) (cp_cooldown input) in
  let d := mk_pdb (pt_playbooks d ++ [row])%list (pt_next d + 1) (pt_actions d) (pt_next_action d) (pt_conditions d) (pt_next_condition d) in
  let! d := insert_all (insert_action playbook_id) (cp_actions input) d else None in
  let! d := insert_all (insert_condition playbook_id) (cp_conditions input) d else None in
  Some (playbook_id, d).
Definition rewrite_row (id : Z) (row : UpdatePlaybookInput) (p : PlaybookRow) : PlaybookRow :=
  if p_id p =? id
  then mk_prow (p_id p) (up_name row) (p_enabled p) (up_trigger row) (up_threshold row) (up_count row) (up_window row) (up_cooldown row)
  else p.
Definition drop_children (id : Z) (d : PlaybookDb) : PlaybookDb :=
  mk_pdb (pt_playbooks d) (pt_next d) (filter (fun a => a_playbook a <> id) (pt_actions d)) (pt_next_action d)
    (filter (fun c => c_playbook c <> id) (pt_conditions d)) (pt_next_condition d).
Definition set_rows (d : PlaybookDb) (l : list PlaybookRow) : PlaybookDb :=
  mk_pdb l (pt_next d) (pt_actions d) (pt_next_action d) (pt_conditions d) (pt_next_condition d).
Definition has_playbook (id : Z) (d : PlaybookDb) : bool := existsb (fun p => p_id p =? id) (pt_playbooks d).
Definition update_playbook_atomic (id : Z) (row : UpdatePlaybookInput) (actions : list ActionInput) (conditions : list CreateConditionInput) (d : PlaybookDb) :
    option (bool * PlaybookDb) :=
  if negb (has_playbook id d) then Some (false, d)
  else
    let d := drop_children id (set_rows d (map (rewrite_row id row) (pt_playbooks d))) in
    let! d := insert_all (insert_action id) actions d else None in
    let! d := insert_all (insert_condition id) conditions d else None in
    Some (true, d).
Definition update_playbook_enabled (id : Z) (enabled : bool) (d : PlaybookDb) : bool * PlaybookDb :=
  (has_playbook id d,
   set_rows d (map (fun p => if p_id p =? id then mk_prow (p_id p) (p_name p) enabled (p_trigger p) (p_threshold p) (p_count p) (p_window p) (p_cooldown p) else p)
                 (pt_playbooks d))).
(** The other tables refer to playbooks with ON DELETE CASCADE. *)
Definition delete_playbook_rows (id : Z) (d : PlaybookDb) : bool * PlaybookDb :=
  (has_playbook id d, drop_children id (set_rows d (filter (fun p => p_id p <> id) (pt_playbooks d)))).

(** ** Listing *)

Definition list_playbooks_with_actions (d : PlaybookDb) : list (PlaybookRow * option ActionRow) :=
  flat_map (fun p =>
    match order_by a_order (filter (fun a => a_playbook a = p_id p) (pt_actions d)) with
    | [] => [(p, None)]
    | l => map (fun a => (p, Some a)) l
    end) (order_by p_id (pt_playbooks d)).
Definition list_all_playbook_conditions (d : PlaybookDb) : list ConditionRow := order_by c_playbook (order_by c_id (pt_conditions d)).

Section Playbooks.
Context `{J : JsonValue}.
(** [serde_json]: printing of a value and parsing. *)
Class JsonText : Type := { js_text : json -> string; js_parse : string -> option json }.
Context `{T : JsonText}.

Record ActionView : Type := mk_aview { av_id : Z; av_order : Z; av_type : string; av_json : json }.
Record ConditionView : Type := mk_cview { cv_id : Z; cv_input : CreateConditionInput }.
Record PlaybookView : Type := mk_view { vw_row : PlaybookRow; vw_actions : list ActionView; vw_conditions : list ConditionView }.

(** [None] is a parameter text that is no JSON. *)
Definition action_view (a : ActionRow) : option ActionView :=
  let! j := js_parse (a_params a) else None in Some (mk_aview (a_id a) (a_order a) (a_type a) j).

(** The first loop of [list_playbooks]; [result] is the list so far, last one first. *)
Fixpoint group_rows (rows : list (PlaybookRow * option ActionRow)) (result : list PlaybookView) : option (list PlaybookView) :=
  match rows with
  | [] => Some (rev result)
  | (p, a) :: rows =>
      let result := match result with
                    | v :: _ => if p_id (vw_row v) =? p_id p then result else mk_view p [] [] :: result
                    | [] => [mk_view p [] []]
                    end in
      match a, result with
      | Some a, v :: result =>
          let! a := action_view a else None in
          group_rows rows (mk_view (vw_row v) (vw_actions v ++ [a])%list (vw_conditions v) :: result)
      | _, _ => group_rows rows result
      end
  end.

Fixpoint skip_lower (id : Z) (conds : list ConditionRow) : list ConditionRow :=
  match conds with
  | c :: conds' => if c_playbook c <? id then skip_lower id conds' else conds
  | [] => []
  end.
Fixpoint take_equal (id : Z) (conds : list ConditionRow) : list ConditionRow * list ConditionRow :=
  match conds with
  | c :: conds' => if c_playbook c =? id then let '(taken, rest) := take_equal id conds' in (c :: taken, rest) else ([], conds)
  | [] => ([], [])
  end.
Definition condition_view (c : ConditionRow) : ConditionView := mk_cview (c_id c) (c_input c).
(** The second loop: both lists are walked once. *)
Fixpoint attach_conditions (views : list PlaybookView) (conds : list ConditionRow) : list PlaybookView :=
  match views with
  | [] => []
  | v :: views =>
      let '(taken, rest) := take_equal (p_id (vw_row v)) (skip_lower (p_id (vw_row v)) conds) in
      mk_view (vw_row v) (vw_actions v) (vw_conditions v ++ map condition_view taken)%list :: attach_conditions views rest
  end.
Definition list_playbooks (d : PlaybookDb) : option (list PlaybookView) :=
  let! result := group_rows (list_playbooks_with_actions d) [] else None in
  Some (attach_conditions result (list_all_playbook_conditions d)).

(** What the engine takes of a listed playbook. *)
Definition engine_view (v : PlaybookView) : Soar.PlaybookView :=
  let p := vw_row v in
  mk_playbook_view (p_id p) (p_name p) (p_enabled p) (p_trigger p) (p_cooldown p)
    (map (fun a => mk_action_view (av_order a) (av_type a) (parse_action_params (av_json a))) (vw_actions v)) (map cv_input (vw_conditions v)).

(** ** The service *)

(** The tables and the engine's world, whose list of failures serves both. *)
Record PlaybookWorld : Type := mk_pworld { pw_db : PlaybookDb; pw_soar : soar_world }.

(** A call of the database: [None] when it fails. *)
Definition db_call (w : PlaybookWorld) : bool * PlaybookWorld :=
  match outside Database (pw_soar w) with (Ok _, s) => (true, mk_pworld (pw_db w) s) | (Err _, s) => (false, mk_pworld (pw_db w) s) end.
Definition transaction {A : Type} (t : PlaybookDb -> option (A * PlaybookDb)) (w : PlaybookWorld) : option A * PlaybookWorld :=
  match db_call w with
  | (false, w) => (None, w)
  | (true, w) => match t (pw_db w) with Some (a, d) => (Some a, mk_pworld d (pw_soar w)) | None => (None, w) end
  end.

(** [reload_cache] with the listing in front; its conditions are a second call. *)
Definition reload (env : Env) (w : PlaybookWorld) : bool * PlaybookWorld :=
  match list_playbooks (pw_db w) with
  | None => let '(_, w) := db_call w in (false, w)
  | Some views =>
      match db_call w with
      | (false, w) => (false, w)
      | (true, w) =>
          match reload_cache env (map engine_view views) (pw_soar w) with
          | (Ok _, s) => (true, mk_pworld (pw_db w) s)
          | (Err _, s) => (false, mk_pworld (pw_db w) s)
          end
      end
  end.

Definition svc_create_playbook (env : Env) (input : CreatePlaybookInput) (w : PlaybookWorld) : option Z * PlaybookWorld :=
  match transaction (insert_playbook_atomic input) w with
  | (None, w) => (None, w)
  | (Some playbook_id, w) => let '(ok, w) := reload env w in (if ok then Some playbook_id else None, w)
  end.
Definition update_row (input : CreatePlaybookInput) : UpdatePlaybookInput :=
  mk_update (cp_name input) (cp_trigger input) (cp_threshold input) (cp_count input) (cp_window input) (cp_cooldown input).
(** A change of rows, then the reload when there was something to change. *)
Definition change_and_reload (env : Env) (t : PlaybookDb -> option (bool * PlaybookDb)) (w : PlaybookWorld) : option bool * PlaybookWorld :=
  match transaction t w with
  | (None, w) => (None, w)
  | (Some false, w) => (Some false, w)
  | (Some true, w) => let '(ok, w) := reload env w in (if ok then Some true else None, w)
  end.
Definition svc_update_playbook (env : Env) (id : Z) (input : CreatePlaybookInput) : PlaybookWorld -> option bool * PlaybookWorld :=
  change_and_reload env (update_playbook_atomic id (update_row input) (cp_actions input) (cp_conditions input)).
Definition svc_toggle_playbook (env : Env) (id : Z) (enabled : bool) : PlaybookWorld -> option bool * PlaybookWorld :=
  change_and_reload env (fun d => Some (update_playbook_enabled id enabled d)).
Definition svc_delete_playbook (env : Env) (id : Z) : PlaybookWorld -> option bool * PlaybookWorld :=
  change_and_reload env (fun d => Some (delete_playbook_rows id d)).
Definition svc_list_playbooks (w : PlaybookWorld) : option (list PlaybookView) * PlaybookWorld :=
  match db_call w with
  | (false, w) => (None, w)
  | (true, w) => match list_playbooks (pw_db w) with None => (None, w) | Some views => let '(ok, w) := db_call w in (if ok then Some views else None, w) end
  end.

(** ** The endpoints *)

Record CreateActionRequest : Type := mk_action_request { ra_type : string; ra_params : option json }.
Record CreateConditionRequest : Type := mk_condition_request { rc_type : string; rc_operator : option string; rc_value : string; rc_value2 : option string }.
Record CreatePlaybookRequest : Type := mk_request {
  rq_name : string; rq_trigger : string; rq_threshold : option float; rq_count : option Z; rq_window : option Z; rq_cooldown : option Z;
  rq_actions : list CreateActionRequest; rq_conditions : option (list CreateConditionRequest) }.

(** [CreateConditionInput::new] *)
Definition new_condition (condition_type : string) (operator : option string) (value : string) (value2 : option string) : option CreateConditionInput :=
  let! operator := match operator with
                   | Some operator => Some operator
                   | None => default_operator <$> condition_from_str condition_type
                   end else None in
  Some (mk_input condition_type operator value value2).

Fixpoint map_actions (max_ttl_secs index : Z) (l : list CreateActionRequest) : result validation_error (list ActionInput) :=
  match l with
  | [] => Ok []
  | a :: l =>
      let? _ := validate_action (ra_type a) (ra_params a) max_ttl_secs in
      let params_str := match ra_params a with Some v => js_text v | None => "{}" end in
      let? rest := map_actions max_ttl_secs (index + 1) l in
      Ok (mk_action_input (index + 1) (ra_type a) params_str :: rest)
  end.
Fixpoint map_conditions (l : list CreateConditionRequest) : result validation_error (list CreateConditionInput) :=
  match l with
  | [] => Ok []
  | c :: l =>
      match new_condition (rc_type c) (rc_operator c) (rc_value c) (rc_value2 c) with
      | None => Err (ValidationFailed "condition_type")
      | Some input =>
          let? _ := validate_condition_input input in
          let? rest := map_conditions l in
          Ok (input :: rest)
      end
  end.
Definition map_request_to_input (body : CreatePlaybookRequest) (fallback_cooldown max_ttl_secs : Z) : result validation_error CreatePlaybookInput :=
  let? _ := validate_optional_positive_i64 "condition_count" (rq_count body) in
  let? _ := validate_optional_positive_i64 "condition_window_secs" (rq_window body) in
  let cooldown_secs := default fallback_cooldown (rq_cooldown body) in
  let? _ := validate_cooldown_secs cooldown_secs in
  let? actions := map_actions max_ttl_secs 0 (rq_actions body) in
  let? conditions := map_conditions (default [] (rq_conditions body)) in
  Ok (mk_playbook_input (rq_name body) (rq_trigger body) (rq_threshold body) (rq_count body) (rq_window body) cooldown_secs actions conditions).

(** A response: its status and, for a created playbook, the id. *)
Record Response : Type := mk_response { status : Z; created : option Z }.
Definition answer (status : Z) : Response := mk_response status None.
Definition changed (r : option bool) : Response := match r with Some true => answer 200 | Some false => answer 404 | None => answer 500 end.

Definition create_playbook (env : Env) (body : CreatePlaybookRequest) (w : PlaybookWorld) : Response * PlaybookWorld :=
  match map_request_to_input body (fallback_cooldown_secs (ev_cfg env)) (max_ttl_secs (ev_cfg env)) with
  | Err _ => (answer 400, w)
  | Ok input => match svc_create_playbook env input w with (Some id, w) => (mk_response 201 (Some id), w) | (None, w) => (answer 500, w) end
  end.
Definition update_playbook (env : Env) (id : Z) (body : CreatePlaybookRequest) (w : PlaybookWorld) : Response * PlaybookWorld :=
  match map_request_to_input body (fallback_cooldown_secs (ev_cfg env)) (max_ttl_secs (ev_cfg env)) with
  | Err _ => (answer 400, w)
  | Ok input => let '(r, w) := svc_update_playbook env id input w in (changed r, w)
  end.
Definition toggle_playbook (env : Env) (id : Z) (enabled : bool) (w : PlaybookWorld) : Response * PlaybookWorld :=
  let '(r, w) := svc_toggle_playbook env id enabled w in (changed r, w).
Definition delete_playbook (env : Env) (id : Z) (w : PlaybookWorld) : Response * PlaybookWorld :=
  let '(r, w) := svc_delete_playbook env id w in (changed r, w).

(** A dry run's event. *)
Record DryRunRequest : Type := mk_dry_run {
  dr_attack_type : string; dr_confidence : float; dr_source_ip : string; dr_sources : option (list string); dr_active_source_count : option Z;
  dr_fused_confidence : option float; dr_geoip_country : option string; dr_is_repeat_offender : option bool }.
Definition DEFAULT_DRY_RUN_DEST_IP : string := "0.0.0.0".
Definition DEFAULT_DRY_RUN_FLOW_COUNT : Z := 1.
Definition DEFAULT_DRY_RUN_PACKET_RATE : float := S754_zero false.
Definition DEFAULT_DRY_RUN_PROTOCOL : Z := 6.
Inductive DryRunError : Type := UnknownSource (name : string) | NoSources | SourceCountMismatch (got expected : Z).
Fixpoint sources_of (names : list string) : result DryRunError (list DetectionSource) :=
  match names with
  | [] => Ok []
  | name :: names =>
      match source_from_str name with
      | None => Err (UnknownSource name)
      | Some s => let? rest := sources_of names in Ok (s :: rest)
      end
  end.
Definition parse_dry_run_sources (names : option (list string)) : result DryRunError (list DetectionSource) :=
  let? sources := match names with Some names => sources_of names | None => Ok [ML] end in
  match sources with [] => Err NoSources | _ => Ok sources end.
Definition resolve_dry_run_active_source_count (active_source_count : option Z) (sources_len : Z) : result DryRunError Z :=
  let count := default sources_len active_source_count in
  if count =? sources_len then Ok count else Err (SourceCountMismatch count sources_len).
Definition build_event (req : DryRunRequest) : result DryRunError ThreatDetectedEvent :=
  let? sources := parse_dry_run_sources (dr_sources req) in
  let? active_source_count := resolve_dry_run_active_source_count (dr_active_source_count req) (Z.of_nat (length sources)) in
  Ok (mk_threat (dr_attack_type req) (dr_confidence req) (dr_source_ip req) DEFAULT_DRY_RUN_DEST_IP DEFAULT_DRY_RUN_FLOW_COUNT
        DEFAULT_DRY_RUN_PACKET_RATE DEFAULT_DRY_RUN_PROTOCOL (dr_geoip_country req) (default false (dr_is_repeat_offender req)) sources
        active_source_count (default (dr_confidence req) (dr_fused_confidence req)) []).
End Playbooks.

(** ** The default playbooks *)

Record DefaultPlaybook : Type := mk_default {
  df_name : string; df_trigger : string; df_threshold : option string; df_count : option Z; df_window : option Z; df_cooldown : Z;
  df_actions : list ActionInput; df_conditions : list CreateConditionInput }.
Definition quoted (s : string) : string := String (ascii_of_nat 34) (s ++ String (ascii_of_nat 34) "").
Definition ttl_hour : string := "{" ++ quoted "ttl_secs" ++ ": 3600}".
Definition level_warn : string := "{" ++ quoted "level" ++ ": " ++ quoted "warn" ++ "}".
Definition DEFAULT_PLAYBOOKS : list DefaultPlaybook := [
  mk_default "brute_force_block" "brute_force" None (Some 5) (Some 60) 600
    [mk_action_input 1 "block_ip" ttl_hour; mk_action_input 2 "send_telegram" "{}"; mk_action_input 3 "log" level_warn]
    [mk_input "frequency" ">=" "5" (Some "60")];
  mk_default "port_scan_alert" "port_scan" (Some "0.7") None None 300
    [mk_action_input 1 "send_telegram" "{}"; mk_action_input 2 "log" level_warn]
    [mk_input "threshold" ">=" "0.7" None];
  mk_default "fusion_c2_multi_source_block" "c2_beacon" None None None 600
    [mk_action_input 1 "block_ip" ttl_hour; mk_action_input 2 "send_telegram" "{}"; mk_action_input 3 "log" level_warn]
    [mk_input "multi_source_min" ">=" "2" None];
  mk_default "fusion_c2_suricata_solo_high_block" "c2_beacon" None None None 600
    [mk_action_input 1 "block_ip" ttl_hour; mk_action_input 2 "send_telegram" "{}"; mk_action_input 3 "log" level_warn]
    [mk_input "single_source_high" ">=" "Suricata" (Some "0.95")]].
Definition default_input (def : DefaultPlaybook) : CreatePlaybookInput :=
  mk_playbook_input (df_name def) (df_trigger def) (let! t := df_threshold def else None in parse_f64 t) (df_count def) (df_window def) (df_cooldown def)
    (df_actions def) (df_conditions def).
Fixpoint seed_default_playbooks_tx (defaults : list DefaultPlaybook) (d : PlaybookDb) : option PlaybookDb :=
  match defaults with
  | [] => Some d
  | def :: defaults => let! r := insert_playbook_atomic (default_input def) d else None in seed_default_playbooks_tx defaults r.2
  end.
(** Nothing is seeded when there is a playbook; [None] rolls back. *)
Definition seed_default_playbooks (d : PlaybookDb) : option PlaybookDb :=
  match pt_playbooks d with [] => seed_default_playbooks_tx DEFAULT_PLAYBOOKS d | _ => Some d end.

(** ** The merge of two ordered lists is a join *)

Definition conditions_of (id : Z) (l : list ConditionRow) : list ConditionRow := filter (fun c => c_playbook c = id) l.

Lemma skip_lower_filter id l : ordered c_playbook l -> skip_lower id l = filter (fun c => id <= c_playbook c) l.
Proof.
  induction 1 as [|c l Ho IH Hc]; [done|]. cbn [skip_lower]. rewrite filter_cons. destruct (c_playbook c <? id) eqn:Hlt.
  - apply Z.ltb_lt in Hlt. rewrite decide_False by lia. exact IH.
  - apply Z.ltb_ge in Hlt. rewrite decide_True by done. f_equal. symmetry. apply filter_id. eapply Forall_impl; [exact Hc|]. cbn. lia.
Qed.
Lemma take_equal_filter id l : ordered c_playbook l -> Forall (fun c => id <= c_playbook c) l ->
  take_equal id l = (conditions_of id l, filter (fun c => id < c_playbook c) l).
Proof.
  induction 1 as [|c l Ho IH Hc]; intros Hl; [done|]. apply Forall_cons in Hl as [Hle Hl]. cbn [take_equal]. unfold conditions_of. rewrite !filter_cons.
  destruct (c_playbook c =? id) eqn:He.
  - apply Z.eqb_eq in He. rewrite (IH Hl), decide_True by done. by rewrite decide_False by lia.
  - apply Z.eqb_neq in He. rewrite decide_False by done. rewrite decide_True by lia. f_equal.
    + symmetry. apply filter_none. eapply Forall_impl; [exact Hc|]. cbn. lia.
    + f_equal. symmetry. apply filter_id. eapply Forall_impl; [exact Hc|]. cbn. lia.
Qed.

(** ** What the tables hold *)

Section Stored.
Context `{J : JsonValue} {T : JsonText}.

(** A playbook with its actions and conditions, without the keys of their rows. *)
Record Stored : Type := mk_stored { s_row : PlaybookRow; s_actions : list ActionInput; s_conditions : list CreateConditionInput }.
Definition action_input (a : ActionRow) : ActionInput := mk_action_input (a_order a) (a_type a) (a_params a).
Definition actions_of (id : Z) (l : list ActionRow) : list ActionRow := filter (fun a => a_playbook a = id) l.
Definition stored (d : PlaybookDb) (p : PlaybookRow) : Stored :=
  mk_stored p (map action_input (actions_of (p_id p) (pt_actions d))) (map c_input (conditions_of (p_id p) (pt_conditions d))).
Definition contents (d : PlaybookDb) : list Stored := map (stored d) (pt_playbooks d).

(** What the engine runs for it, if anything. *)
Definition run_action (a : ActionInput) : option PlaybookAction :=
  let! t := action_from_str (ai_type a) else None in
  let! j := js_parse (ai_params a) else None in
  Some (mk_action (ai_order a) t (parse_action_params j)).
Definition run_condition (c : CreateConditionInput) : option PlaybookCondition :=
  let! t := condition_from_str (in_condition_type c) else None in
  if is_valid_operator t (in_operator c) then Some (mk_condition t (in_operator c) (in_value c) (in_value2 c)) else None.
Definition run_of (s : Stored) : option Playbook :=
  let p := s_row s in
  (fun t => mk_playbook (p_id p) (p_name p) (p_enabled p) t (p_cooldown p) (omap run_action (s_actions s)) (omap run_condition (s_conditions s)))
    <$> canonical_from_str (p_trigger p).

Record wf (d : PlaybookDb) : Prop := {
  wf_ids : StronglySorted Z.lt (map p_id (pt_playbooks d));
  wf_next : Forall (fun id => id < pt_next d) (map p_id (pt_playbooks d));
  wf_acts : Forall (fun a => a_playbook a ∈ map p_id (pt_playbooks d)) (pt_actions d);
  wf_conds : Forall (fun c => c_playbook c ∈ map p_id (pt_playbooks d)) (pt_conditions d);
  wf_cids : StronglySorted Z.lt (map c_id (pt_conditions d));
  wf_cnext : Forall (fun id => id < pt_next_condition d) (map c_id (pt_conditions d));
  wf_orders : forall id, StronglySorted Z.lt (map a_order (actions_of id (pt_actions d)));
  wf_run_a : Forall (fun a => is_Some (run_action (action_input a))) (pt_actions d);
  wf_run_c : Forall (fun c => is_Some (run_condition (c_input c))) (pt_conditions d) }.

Lemma sorted_ordered {A} (key : A -> Z) (l : list A) : StronglySorted Z.lt (map key l) -> ordered key l.
Proof.
  induction l as [|x l IH]; intros Hs; [constructor|]. cbn in Hs. inversion Hs as [|? ? Hs' Hx]; subst. constructor; [by apply IH|].
  rewrite Forall_map in Hx. eapply Forall_impl; [exact Hx|]. cbn. lia.
Qed.

Lemma action_views_some l : Forall (fun a => is_Some (run_action (action_input a))) l -> Forall (fun a => is_Some (action_view a)) l.
Proof.
  intros Hl. eapply Forall_impl; [exact Hl|]. intros a [x Hx]. unfold run_action in Hx. unfold action_view.
  cbn in Hx. destruct (action_from_str (a_type a)); [|done]. destruct (js_parse (a_params a)); [by eexists|done].
Qed.

Definition listed (d : PlaybookDb) (p : PlaybookRow) : PlaybookView :=
  mk_view p (omap action_view (actions_of (p_id p) (pt_actions d))) (map condition_view (conditions_of (p_id p) (pt_conditions d))).

Lemma group_actions p l rest v result : Forall (fun a => is_Some (action_view a)) l -> p_id (vw_row v) = p_id p ->
  group_rows (map (fun a => (p, Some a)) l ++ rest)%list (v :: result) =
  group_rows rest (mk_view (vw_row v) (vw_actions v ++ omap action_view l)%list (vw_conditions v) :: result).
Proof.
  intros Hl. revert v. induction Hl as [|a l [x Hx] Hl IH]; intros v Hv; cbn [map app omap list_omap].
  - rewrite app_nil_r. by destruct v.
  - cbn [group_rows]. replace (p_id (vw_row v) =? p_id p) with true by (symmetry; by apply Z.eqb_eq). rewrite Hx. rewrite IH by done. cbn. by rewrite <- app_assoc.
Qed.

Lemma group_playbooks d ps rest result :
  Forall (fun a => is_Some (action_view a)) (pt_actions d) -> (forall id, ordered a_order (actions_of id (pt_actions d))) ->
  StronglySorted Z.lt (map p_id ps) -> match result with v :: _ => Forall (fun id => p_id (vw_row v) < id) (map p_id ps) | [] => True end ->
  group_rows (flat_map (fun p =>
    match order_by a_order (filter (fun a => a_playbook a = p_id p) (pt_actions d)) with [] => [(p, None)] | l => map (fun a => (p, Some a)) l end) ps ++ rest)%list result =
  group_rows rest (rev (map (fun p => mk_view p (omap action_view (actions_of (p_id p) (pt_actions d))) []) ps) ++ result)%list.
Proof.
  intros Ha Ho. revert result. induction ps as [|p ps IH]; intros result Hs Hr; [done|]. cbn [flat_map map rev]. rewrite <- !app_assoc.
  cbn [map] in Hs. inversion Hs as [|? ? Hs' Hp]; subst.
  assert (Forall (fun a => is_Some (action_view a)) (actions_of (p_id p) (pt_actions d))) as Hap.
  { apply Forall_forall. intros a [_ Hin]%list_elem_of_filter. rewrite Forall_forall in Ha. by apply Ha. }
  fold (actions_of (p_id p) (pt_actions d)). rewrite (order_by_ordered _ _ (Ho (p_id p))).
  assert (forall rows, group_rows (match actions_of (p_id p) (pt_actions d) with [] => [(p, None)] | l => map (fun a => (p, Some a)) l end ++ rows)%list result =
    group_rows rows (mk_view p (omap action_view (actions_of (p_id p) (pt_actions d))) [] :: result)) as Hblock.
  { intros rows. assert (forall l, group_rows ((p, None) :: l) result = group_rows l (mk_view p [] [] :: result)) as Hone.
    { intros l. cbn [group_rows]. destruct result as [|v result]; [done|]. cbn [map] in Hr. apply Forall_cons in Hr as [Hv _].
      by replace (p_id (vw_row v) =? p_id p) with false by (symmetry; apply Z.eqb_neq; lia). }
    destruct (actions_of (p_id p) (pt_actions d)) as [|a l]; [apply Hone|]. apply Forall_cons in Hap as [[x Hx] Hap].
    cbn [map app omap list_omap]. rewrite Hx. cbn [group_rows].
    assert (match result with v :: _ => if p_id (vw_row v) =? p_id p then result else mk_view p [] [] :: result | [] => [mk_view p [] []] end = mk_view p [] [] :: result) as ->.
    { destruct result as [|v result]; [done|]. cbn [map] in Hr. apply Forall_cons in Hr as [Hv _]. by replace (p_id (vw_row v) =? p_id p) with false by (symmetry; apply Z.eqb_neq; lia). }
    rewrite Hx. rewrite group_actions by done. done. }
  rewrite Hblock. rewrite IH; [done|done|exact Hp].
Qed.

Lemma attach_join views conds : StronglySorted Z.lt (map (fun v => p_id (vw_row v)) views) -> ordered c_playbook conds ->
  attach_conditions views conds = map (fun v => mk_view (vw_row v) (vw_actions v) (vw_conditions v ++ map condition_view (conditions_of (p_id (vw_row v)) conds))%list) views.
Proof.
  revert conds. induction views as [|v views IH]; intros conds Hs Ho; [done|]. cbn [map] in Hs. inversion Hs as [|? ? Hs' Hv]; subst. cbn [attach_conditions map].
  rewrite skip_lower_filter by done. rewrite take_equal_filter; [|by apply ordered_filter|apply Forall_forall; by intros c [Hc _]%list_elem_of_filter].
  assert (conditions_of (p_id (vw_row v)) (filter (fun c => p_id (vw_row v) <= c_playbook c) conds) = conditions_of (p_id (vw_row v)) conds) as ->.
  { unfold conditions_of. rewrite list_filter_filter. apply list_filter_iff. intros c. lia. }
  f_equal. rewrite IH; [|done|by do 2 apply ordered_filter]. apply map_ext_in. intros v' Hin. do 3 f_equal. unfold conditions_of. rewrite !list_filter_filter.
  apply list_filter_iff. intros c. rewrite Forall_map, Forall_forall in Hv. apply list_elem_of_In in Hin. specialize (Hv v' Hin). cbn in Hv. lia.
Qed.

(** Listing is the join of the three tables. *)
Lemma list_playbooks_joins d : wf d -> list_playbooks d = Some (map (listed d) (pt_playbooks d)).
Proof.
  intros Hwf. unfold list_playbooks, list_playbooks_with_actions. rewrite (order_by_ordered p_id) by (apply sorted_ordered, Hwf).
  rewrite <- (app_nil_r (flat_map _ _)). rewrite group_playbooks; [|apply action_views_some, Hwf|intros id; apply sorted_ordered, (wf_orders d Hwf)|apply Hwf|done].
  cbn [group_rows]. rewrite app_nil_r, rev_involutive. f_equal. unfold list_all_playbook_conditions.
  rewrite (order_by_ordered c_id) by (apply sorted_ordered, Hwf).
  rewrite attach_join; [|rewrite map_map; apply Hwf|apply order_by_is_ordered]. rewrite map_map. apply map_ext. intros p. unfold listed. cbn. do 2 f_equal.
  unfold conditions_of. by rewrite order_by_filter.
Qed.
End Stored.

(** ** What the engine loads *)

Section Loads.
Context `{J : JsonValue} {T : JsonText}.

Lemma load_actions_run l : Forall (fun a => is_Some (run_action (action_input a))) l ->
  load_actions (map (fun a => mk_action_view (av_order a) (av_type a) (parse_action_params (av_json a))) (omap action_view l)) = Ok (omap run_action (map action_input l)).
Proof.
  induction 1 as [|a l [x Hx] Hl IH]; [done|]. cbn [map omap list_omap]. rewrite Hx. unfold action_view, run_action in *. cbn [action_input ai_type ai_params ai_order] in Hx.
  destruct (action_from_str (a_type a)) as [t|] eqn:Ht; [|done]. destruct (js_parse (a_params a)) as [j|]; [|done]. injection Hx as <-.
  cbn [map load_actions Soar.av_type Soar.av_order Soar.av_params av_type av_order av_json]. rewrite Ht, IH. done.
Qed.
Lemma load_conditions_run l : Forall (fun c => is_Some (run_condition (c_input c))) l ->
  load_conditions (map cv_input (map condition_view l)) = Ok (omap run_condition (map c_input l)).
Proof.
  induction 1 as [|c l [x Hx] Hl IH]; [done|]. cbn [map omap list_omap load_conditions condition_view cv_input]. rewrite Hx. unfold run_condition in Hx.
  destruct (condition_from_str (in_condition_type (c_input c))) as [t|] eqn:Ht; [|done]. destruct (is_valid_operator t (in_operator (c_input c))); [|done]. injection Hx as <-.
  cbn [negb]. rewrite IH. done.
Qed.
Lemma Forall_filter {A} (P Q : A -> Prop) `{!forall x, Decision (Q x)} (l : list A) : Forall P l -> Forall P (filter Q l).
Proof. intros Hl. apply Forall_forall. intros x [_ Hx]%list_elem_of_filter. rewrite Forall_forall in Hl. by apply Hl. Qed.

Lemma load_playbooks_run d : wf d -> load_playbooks (map engine_view (map (listed d) (pt_playbooks d))) = Ok (omap run_of (contents d)).
Proof.
  intros Hwf. unfold contents. induction (pt_playbooks d) as [|p ps IH]; [done|]. cbn [map load_playbooks engine_view listed vw_row vw_actions vw_conditions pv_actions pv_conditions].
  rewrite load_actions_run by apply Forall_filter, Hwf. rewrite load_conditions_run by apply Forall_filter, Hwf. cbn [res_bind].
  cbn [omap list_omap]. change (pv_trigger (engine_view (listed d p))) with (p_trigger p).
  unfold run_of at 1. cbn [stored s_row]. destruct (canonical_from_str (p_trigger p)); [|exact IH]. by rewrite IH.
Qed.

Definition running (w : PlaybookWorld) : list Playbook := Matcher.playbooks (sw_matcher (pw_soar w)).

Lemma outside_running e s : sw_matcher (outside e s).2 = sw_matcher s.
Proof. unfold outside. by destruct (sw_faults s) as [|[] fs]. Qed.
Lemma db_call_keeps w : pw_db (db_call w).2 = pw_db w /\ running (db_call w).2 = running w.
Proof.
  unfold db_call, running. pose proof (outside_running Database (pw_soar w)) as Hm. destruct (outside Database (pw_soar w)) as [[?|?] s]; cbn in *; by rewrite Hm.
Qed.
Lemma db_call_works w : sw_faults (pw_soar w) = [] -> db_call w = (true, w).
Proof. intros Hf. unfold db_call, outside. rewrite Hf. by destruct w. Qed.

(** A reload leaves the tables alone; the engine then runs what they hold, or what it ran
    before when a call fails early. *)
Lemma reload_runs env w : wf (pw_db w) ->
  let '(ok, w') := reload env w in
  pw_db w' = pw_db w /\ (running w' = running w \/ running w' = omap run_of (contents (pw_db w))) /\
  (ok = true -> running w' = omap run_of (contents (pw_db w))) /\ (sw_faults (pw_soar w) = [] -> ok = true).
Proof.
  intros Hwf. unfold reload. rewrite (list_playbooks_joins _ Hwf). pose proof (db_call_keeps w) as [Hd Hr].
  destruct (db_call w) as [ok w1] eqn:Hc. cbn [fst snd] in *. destruct ok.
  2:{ split; [done|]. split; [by left|]. split; [done|]. intros Hf. rewrite db_call_works in Hc by done. done. }
  unfold reload_cache, sm_bind, sm_lift, on_matcher, sm_modify, db_read, sm_get, sm_ret. rewrite <- Hd, load_playbooks_run by by rewrite Hd.
  unfold sm_bind. pose proof (outside_running Database (pw_soar w1)) as Hm.
  assert (sw_faults (pw_soar w) = [] -> w1 = w) as Hw by (intros Hf; rewrite db_call_works in Hc by done; by injection Hc).
  destruct (outside Database (pw_soar w1)) as [[[]|e] s] eqn:Ho.
  2:{ unfold running in *. cbn in *. rewrite Hm. split; [done|]. split; [by left|]. split; [done|]. intros Hf. specialize (Hw Hf). subst. unfold outside in Ho. by rewrite Hf in Ho. }
  set (s1 := set_matcher s _). pose proof (outside_running Database s1) as Hm1.
  destruct (outside Database s1) as [[[]|e] s2] eqn:Ho1; cbn [fst snd] in *.
  2:{ unfold running in *. cbn [pw_db pw_soar]. rewrite Hm1. subst s1. cbn [sw_matcher set_matcher Matcher.playbooks]. split; [done|]. split; [by right|]. split; [done|].
      intros Hf. specialize (Hw Hf). subst. unfold outside in Ho, Ho1. rewrite Hf in Ho. injection Ho as <-. cbn in Ho1. by rewrite Hf in Ho1. }
  set (s3 := set_matcher s2 _). pose proof (outside_running Database s3) as Hm3.
  assert (Matcher.playbooks (sw_matcher s3) = omap run_of (contents (pw_db w1))) as Hp3 by (subst s3; cbn [sw_matcher set_matcher Matcher.playbooks]; by rewrite Hm1).
  destruct (outside Database s3) as [[[]|e] s4] eqn:Ho3; cbn [fst snd] in *; unfold running in *; cbn [pw_db pw_soar].
  - cbn [sw_matcher set_matcher Matcher.playbooks set_count]. rewrite Hm3, Hp3. split; [done|]. split; [by right|]. done.
  - rewrite Hm3, Hp3. split; [done|]. split; [by right|]. split; [done|]. intros Hf. specialize (Hw Hf). subst w1. unfold outside in Ho, Ho1, Ho3.
    rewrite Hf in Ho. injection Ho as <-. cbn in Ho1. rewrite Hf in Ho1. injection Ho1 as <-. cbn in Ho3. by rewrite Hf in Ho3.
Qed.
End Loads.

(** ** Filling in actions and conditions *)

Section Fill.
Context `{J : JsonValue} {T : JsonText}.

Lemma insert_actions_rows id l d d' : insert_all (insert_action id) l d = Some d' ->
  exists rows next, d' = mk_pdb (pt_playbooks d) (pt_next d) (pt_actions d ++ rows)%list next (pt_conditions d) (pt_next_condition d) /\
    Forall (fun a => a_playbook a = id) rows /\ map action_input rows = l.
Proof.
  revert d. induction l as [|a l IH]; intros d; cbn [insert_all].
  - intros [= <-]. exists [], (pt_next_action d). rewrite app_nil_r. by destruct d.
  - unfold insert_action at 1. destruct (existsb _ _); [done|]. intros (rows & next & -> & Hr & Hm)%IH. cbn [pt_playbooks pt_next pt_actions pt_conditions pt_next_condition].
    exists (mk_arow (pt_next_action d) id (ai_order a) (ai_type a) (ai_params a) :: rows), next. rewrite <- app_assoc. split; [done|].
    split; [by constructor|]. cbn. rewrite Hm. by destruct a.
Qed.
Lemma insert_actions_works id l d : Forall (fun a => a_playbook a = id -> Forall (fun x => a_order a < ai_order x) l) (pt_actions d) ->
  StronglySorted Z.lt (map ai_order l) -> is_Some (insert_all (insert_action id) l d).
Proof.
  revert d. induction l as [|x l IH]; intros d Ha Hs; [by eexists|]. cbn [insert_all]. unfold insert_action at 1.
  cbn in Hs. inversion Hs as [|? ? Hs' Hx]; subst. destruct (existsb _ _) eqn:He.
  - apply existsb_exists in He as (a & Hin & [H1 H2]%andb_true_iff). apply Z.eqb_eq in H1, H2. apply list_elem_of_In in Hin.
    rewrite Forall_forall in Ha. specialize (Ha a Hin H1). apply Forall_cons in Ha as [Hlt _]. lia.
  - apply IH; [|done]. cbn [pt_actions]. apply Forall_app. split.
    + eapply Forall_impl; [exact Ha|]. cbn. intros a Hl Hid. specialize (Hl Hid). by apply Forall_cons in Hl as [_ Hl].
    + apply Forall_singleton. cbn. intros _. by rewrite Forall_map in Hx.
Qed.

Lemma insert_conditions_rows id l d d' : insert_all (insert_condition id) l d = Some d' ->
  exists rows, d' = mk_pdb (pt_playbooks d) (pt_next d) (pt_actions d) (pt_next_action d) (pt_conditions d ++ rows)%list (pt_next_condition d + Z.of_nat (length rows)) /\
    Forall (fun c => c_playbook c = id) rows /\ map c_input rows = l /\ map c_id rows = seqZ (pt_next_condition d) (Z.of_nat (length rows)).
Proof.
  revert d. induction l as [|c l IH]; intros d; cbn [insert_all].
  - intros [= <-]. exists []. rewrite app_nil_r. cbn. rewrite Z.add_0_r. by destruct d.
  - unfold insert_condition at 1. destruct (existsb _ _); [done|]. intros (rows & -> & Hr & Hm & Hi)%IH. cbn [pt_playbooks pt_next pt_actions pt_conditions pt_next_condition pt_next_action] in *.
    exists (mk_crow (pt_next_condition d) id c :: rows). rewrite <- app_assoc. split; [f_equal; cbn [length]; lia|].
    split; [by constructor|]. split; [cbn; by rewrite Hm|]. cbn [map c_id length]. rewrite Nat2Z.inj_succ, seqZ_cons by lia. rewrite Hi. f_equal. f_equal; lia.
Qed.
Lemma insert_conditions_works id l d : (forall c x, c ∈ pt_conditions d -> c_playbook c = id -> x ∈ l -> in_condition_type (c_input c) <> in_condition_type x) ->
  NoDup (map in_condition_type l) -> is_Some (insert_all (insert_condition id) l d).
Proof.
  revert d. induction l as [|x l IH]; intros d Hc Hs; [by eexists|]. cbn [insert_all]. unfold insert_condition at 1.
  cbn in Hs. apply NoDup_cons in Hs as [Hx Hs]. destruct (existsb _ _) eqn:He.
  - apply existsb_exists in He as (c & Hin & [H1 H2]%andb_true_iff). apply Z.eqb_eq in H1. apply String.eqb_eq in H2. apply list_elem_of_In in Hin.
    exfalso. apply (Hc c x Hin H1); [by left|done].
  - apply IH; [|done]. cbn [pt_conditions]. intros c y [Hin|Hin]%elem_of_app Hid Hy; [apply Hc; [done|done|by right]|].
    apply list_elem_of_singleton in Hin as ->. cbn. intros Heq. destruct Hx. rewrite Heq. apply list_elem_of_fmap. by exists y.
Qed.

(** Requests make inputs the engine can load. *)
Definition good_children (acts : list ActionInput) (conds : list CreateConditionInput) : Prop :=
  StronglySorted Z.lt (map ai_order acts) /\ Forall (fun a => is_Some (run_action a)) acts /\ Forall (fun c => is_Some (run_condition c)) conds.
Definition put_children (id : Z) (acts : list ActionInput) (conds : list CreateConditionInput) (s : Stored) : Stored :=
  if p_id (s_row s) =? id then mk_stored (s_row s) acts conds else s.

Lemma sorted_app (l1 l2 : list Z) : StronglySorted Z.lt l1 -> StronglySorted Z.lt l2 -> (forall x y, x ∈ l1 -> y ∈ l2 -> x < y) -> StronglySorted Z.lt (l1 ++ l2)%list.
Proof.
  induction 1 as [|x l1 Hs IH Hx]; intros H2 Hlt; [done|]. cbn. constructor.
  - apply IH; [done|]. intros a b Ha Hb. apply Hlt; [by right|done].
  - apply Forall_app. split; [done|]. apply Forall_forall. intros y Hy. apply Hlt; [by left|done].
Qed.
Lemma seqZ_sorted a n : StronglySorted Z.lt (seqZ a n).
Proof.
  destruct (Z_le_gt_dec n 0) as [Hn|Hn]; [rewrite seqZ_nil by done; constructor|]. revert a. assert (0 <= n) as H0 by lia. clear Hn. revert n H0.
  apply (natlike_ind (fun n => forall a, StronglySorted Z.lt (seqZ a n))); [intros a; rewrite seqZ_nil by done; constructor|].
  intros n Hn IH a. rewrite seqZ_cons by lia. constructor; [rewrite Z.pred_succ; apply IH|]. apply Forall_forall. intros x Hx%elem_of_seqZ. lia.
Qed.
Lemma filter_app_none {A} (P : A -> Prop) `{!forall x, Decision (P x)} (l r : list A) : Forall (fun x => ~ P x) r -> filter P (l ++ r)%list = filter P l.
Proof. intros Hr. rewrite filter_app, (filter_none P r Hr). by rewrite app_nil_r. Qed.

Lemma fill_children id acts conds d d1 d' : wf d -> id ∈ map p_id (pt_playbooks d) -> actions_of id (pt_actions d) = [] -> conditions_of id (pt_conditions d) = [] ->
  good_children acts conds -> insert_all (insert_action id) acts d = Some d1 -> insert_all (insert_condition id) conds d1 = Some d' ->
  wf d' /\ contents d' = map (put_children id acts conds) (contents d).
Proof.
  intros Hwf Hid Ha0 Hc0 (Hs & Hra & Hrc) (arows & next & -> & Hai & Ham)%insert_actions_rows (crows & -> & Hci & Hcm & Hcs)%insert_conditions_rows.
  cbn [pt_playbooks pt_next pt_actions pt_next_action pt_conditions pt_next_condition] in *.
  assert (forall p, p <> id -> actions_of p (pt_actions d ++ arows)%list = actions_of p (pt_actions d)) as Hao.
  { intros p Hp. unfold actions_of. apply filter_app_none. eapply Forall_impl; [exact Hai|]. cbn. congruence. }
  assert (forall p, p <> id -> conditions_of p (pt_conditions d ++ crows)%list = conditions_of p (pt_conditions d)) as Hco.
  { intros p Hp. unfold conditions_of. apply filter_app_none. eapply Forall_impl; [exact Hci|]. cbn. congruence. }
  assert (actions_of id (pt_actions d ++ arows)%list = arows) as Hae by (unfold actions_of in *; rewrite filter_app, Ha0; by apply filter_id).
  assert (conditions_of id (pt_conditions d ++ crows)%list = crows) as Hce by (unfold conditions_of in *; rewrite filter_app, Hc0; by apply filter_id).
  split.
  - destruct Hwf. constructor; cbn [pt_playbooks pt_next pt_actions pt_next_action pt_conditions pt_next_condition]; try done.
    + apply Forall_app. split; [done|]. eapply Forall_impl; [exact Hai|]. by intros a ->.
    + apply Forall_app. split; [done|]. eapply Forall_impl; [exact Hci|]. by intros c ->.
    + rewrite map_app, Hcs. apply sorted_app; [done|apply seqZ_sorted|]. intros x y Hx Hy%elem_of_seqZ. rewrite Forall_forall in wf_cnext0. specialize (wf_cnext0 x Hx). cbn in *. lia.
    + rewrite map_app, Hcs. apply Forall_app. split; [eapply Forall_impl; [exact wf_cnext0|]; cbn; lia|]. apply Forall_forall. intros y Hy%elem_of_seqZ. lia.
    + intros p. destruct (decide (p = id)) as [->|Hp]; [|by rewrite Hao]. rewrite Hae. rewrite <- Ham, map_map in Hs. exact Hs.
    + apply Forall_app. split; [done|]. rewrite <- Ham, Forall_map in Hra. exact Hra.
    + apply Forall_app. split; [done|]. rewrite <- Hcm, Forall_map in Hrc. exact Hrc.
  - unfold contents. cbn [pt_playbooks]. rewrite map_map. apply map_ext. intros p. unfold stored, put_children. cbn [pt_actions pt_conditions s_row].
    destruct (Z.eqb_spec (p_id p) id) as [->|Hp]; [by rewrite Hae, Hce, Ham, Hcm|by rewrite Hao, Hco].
Qed.
Lemma fill_works id acts conds d : actions_of id (pt_actions d) = [] -> conditions_of id (pt_conditions d) = [] -> good_children acts conds -> NoDup (map in_condition_type conds) ->
  exists d1 d', insert_all (insert_action id) acts d = Some d1 /\ insert_all (insert_condition id) conds d1 = Some d'.
Proof.
  intros Ha Hc (Hs & _ & _) Hnd.
  assert (forall {A} (P : A -> Prop) `{!forall x, Decision (P x)} l, filter P l = [] -> forall x, x ∈ l -> ~ P x) as Hnone.
  { intros A P HP l Hl x Hx Hp. assert (x ∈ filter P l) as Hin by by apply list_elem_of_filter. rewrite Hl in Hin. by apply elem_of_nil in Hin. }
  destruct (insert_actions_works id acts d) as [d1 Hd1]; [|done|].
  { apply Forall_forall. intros a Hin Hid. exfalso. by apply (Hnone _ _ _ _ Ha a Hin). }
  exists d1. pose proof Hd1 as (rows & next & -> & _)%insert_actions_rows.
  destruct (insert_conditions_works id conds (mk_pdb (pt_playbooks d) (pt_next d) (pt_actions d ++ rows)%list next (pt_conditions d) (pt_next_condition d))) as [d' Hd']; [|done|by exists d'].
  cbn. intros c x Hin Hid. exfalso. by apply (Hnone _ _ _ _ Hc c Hin).
Qed.
End Fill.

(** ** The statements on what is stored *)

Section Operations.
Context `{J : JsonValue} {T : JsonText}.

Definition new_stored (id : Z) (input : CreatePlaybookInput) : Stored :=
  mk_stored (mk_prow id (cp_name input) true (cp_trigger input) (cp_threshold input) (cp_count input) (cp_window input) (cp_cooldown input)) (cp_actions input) (cp_conditions input).
Definition updated (id : Z) (input : CreatePlaybookInput) (s : Stored) : Stored :=
  if p_id (s_row s) =? id then mk_stored (rewrite_row id (update_row input) (s_row s)) (cp_actions input) (cp_conditions input) else s.
Definition toggled (id : Z) (enabled : bool) (s : Stored) : Stored :=
  let p := s_row s in
  if p_id p =? id then mk_stored (mk_prow (p_id p) (p_name p) enabled (p_trigger p) (p_threshold p) (p_count p) (p_window p) (p_cooldown p)) (s_actions s) (s_conditions s) else s.

Lemma wf_set_rows d l : map p_id l = map p_id (pt_playbooks d) -> wf d -> wf (set_rows d l).
Proof. intros Hl Hwf. destruct Hwf. constructor; cbn [set_rows pt_playbooks pt_next pt_actions pt_next_action pt_conditions pt_next_condition]; rewrite ?Hl; done. Qed.
Lemma map_ids (f : PlaybookRow -> PlaybookRow) l : (forall p, p_id (f p) = p_id p) -> map p_id (map f l) = map p_id l.
Proof. intros Hf. rewrite map_map. by apply map_ext. Qed.
Lemma sorted_filter {A} (key : A -> Z) (P : A -> Prop) `{!forall x, Decision (P x)} l : StronglySorted Z.lt (map key l) -> StronglySorted Z.lt (map key (filter P l)).
Proof.
  induction l as [|x l IH]; intros Hs; [done|]. cbn in Hs. inversion Hs as [|? ? Hs' Hx]; subst. rewrite filter_cons. destruct (decide (P x)); [|by apply IH]. cbn.
  constructor; [by apply IH|]. rewrite Forall_map in Hx |- *. by apply Forall_filter.
Qed.
Lemma filter_swap {A} (P Q : A -> Prop) `{!forall x, Decision (P x)} `{!forall x, Decision (Q x)} (l : list A) : filter P (filter Q l) = filter Q (filter P l).
Proof. rewrite !list_filter_filter. apply list_filter_iff. intros x. tauto. Qed.

Lemma actions_of_other id id' l : id' <> id -> actions_of id' (filter (fun a => a_playbook a <> id) l) = actions_of id' l.
Proof. intros Hne. unfold actions_of. rewrite list_filter_filter. apply list_filter_iff. intros a. split; [tauto|]. intros <-. done. Qed.
Lemma conditions_of_other id id' l : id' <> id -> conditions_of id' (filter (fun c => c_playbook c <> id) l) = conditions_of id' l.
Proof. intros Hne. unfold conditions_of. rewrite list_filter_filter. apply list_filter_iff. intros a. split; [tauto|]. intros <-. done. Qed.
Lemma no_actions_left id l : actions_of id (filter (fun a => a_playbook a <> id) l) = [].
Proof. apply filter_none. apply Forall_forall. by intros a [Ha _]%list_elem_of_filter. Qed.
Lemma no_conditions_left id l : conditions_of id (filter (fun c => c_playbook c <> id) l) = [].
Proof. apply filter_none. apply Forall_forall. by intros a [Ha _]%list_elem_of_filter. Qed.

Lemma wf_drop_children id d : wf d -> wf (drop_children id d).
Proof.
  intros Hwf. destruct Hwf. constructor; cbn [drop_children pt_playbooks pt_next pt_actions pt_next_action pt_conditions pt_next_condition]; try done; try by apply Forall_filter.
  - by apply sorted_filter.
  - rewrite Forall_map in wf_cnext0 |- *. by apply Forall_filter.
  - intros p. unfold actions_of. rewrite filter_swap. apply sorted_filter. apply wf_orders0.
Qed.

Lemma insert_playbook_stored input d id d' : wf d -> good_children (cp_actions input) (cp_conditions input) -> insert_playbook_atomic input d = Some (id, d') ->
  wf d' /\ id = pt_next d /\ id ∉ map p_id (pt_playbooks d) /\ contents d' = (contents d ++ [new_stored id input])%list.
Proof.
  intros Hwf Hg. unfold insert_playbook_atomic. set (row := mk_prow _ _ _ _ _ _ _ _). set (d0 := mk_pdb (_ ++ _)%list _ _ _ _ _).
  destruct (insert_all _ (cp_actions input) d0) as [d1|] eqn:H1; [|done]. destruct (insert_all _ (cp_conditions input) d1) as [d2|] eqn:H2; [|done]. intros [= <- <-].
  assert (pt_next d ∉ map p_id (pt_playbooks d)) as Hfresh by (intros Hin; pose proof (wf_next d Hwf) as Hn; rewrite Forall_forall in Hn; specialize (Hn _ Hin); cbn in Hn; lia).
  assert (actions_of (pt_next d) (pt_actions d) = []) as Ha0.
  { apply filter_none. eapply Forall_impl; [apply (wf_acts d Hwf)|]. cbn. intros a Hin Heq. by rewrite Heq in Hin. }
  assert (conditions_of (pt_next d) (pt_conditions d) = []) as Hc0.
  { apply filter_none. eapply Forall_impl; [apply (wf_conds d Hwf)|]. cbn. intros a Hin Heq. by rewrite Heq in Hin. }
  assert (wf d0) as Hwf0.
  { destruct Hwf. subst d0. constructor; cbn [pt_playbooks pt_next pt_actions pt_next_action pt_conditions pt_next_condition]; try done; rewrite map_app; cbn [map row p_id].
    - apply sorted_app; [done|by repeat constructor|]. intros x y Hx ->%list_elem_of_singleton. rewrite Forall_forall in wf_next0. by apply wf_next0.
    - apply Forall_app. split; [eapply Forall_impl; [exact wf_next0|]; cbn; lia|]. apply Forall_singleton. cbn. lia.
    - eapply Forall_impl; [exact wf_acts0|]. intros a Hin. apply elem_of_app. by left.
    - eapply Forall_impl; [exact wf_conds0|]. intros a Hin. apply elem_of_app. by left. }
  destruct (fill_children (pt_next d) (cp_actions input) (cp_conditions input) d0 d1 d2 Hwf0) as [Hwf' Hco]; try done.
  { subst d0. cbn. rewrite map_app. apply elem_of_app. right. by apply list_elem_of_singleton. }
  split; [done|]. split; [done|]. split; [done|]. rewrite Hco. unfold contents. subst d0. cbn [pt_playbooks]. rewrite !map_app, !map_map. f_equal.
  - apply map_ext_in. intros p Hin%list_elem_of_In. unfold put_children, stored. cbn [s_row pt_actions pt_conditions].
    destruct (Z.eqb_spec (p_id p) (pt_next d)) as [Heq|]; [|done]. destruct Hfresh. rewrite <- Heq. apply list_elem_of_fmap. by exists p.
  - cbn. unfold put_children. cbn. by rewrite Z.eqb_refl.
Qed.
Lemma insert_playbook_works input d : wf d -> good_children (cp_actions input) (cp_conditions input) -> NoDup (map in_condition_type (cp_conditions input)) ->
  is_Some (insert_playbook_atomic input d).
Proof.
  intros Hwf Hg Hnd. unfold insert_playbook_atomic. set (d0 := mk_pdb (_ ++ _)%list _ _ _ _ _).
  assert (pt_next d ∉ map p_id (pt_playbooks d)) as Hfresh by (intros Hin; pose proof (wf_next d Hwf) as Hn; rewrite Forall_forall in Hn; specialize (Hn _ Hin); cbn in Hn; lia).
  destruct (fill_works (pt_next d) (cp_actions input) (cp_conditions input) d0) as (d1 & d2 & -> & ->); [| |done|done|by eexists].
  - apply filter_none. eapply Forall_impl; [apply (wf_acts d Hwf)|]. cbn. intros a Hin Heq. by rewrite Heq in Hin.
  - apply filter_none. eapply Forall_impl; [apply (wf_conds d Hwf)|]. cbn. intros a Hin Heq. by rewrite Heq in Hin.
Qed.

Lemma rewrite_row_id id row p : p_id (rewrite_row id row p) = p_id p.
Proof. unfold rewrite_row. by destruct (p_id p =? id). Qed.
Lemma has_playbook_in id d : has_playbook id d = true <-> id ∈ map p_id (pt_playbooks d).
Proof.
  unfold has_playbook. rewrite existsb_exists. split.
  - intros (p & Hin%list_elem_of_In & Heq%Z.eqb_eq). apply list_elem_of_fmap. by exists p.
  - intros (p & -> & Hin)%list_elem_of_fmap. exists p. split; [by apply list_elem_of_In|]. apply Z.eqb_refl.
Qed.

Lemma update_playbook_stored id input d b d' : wf d -> good_children (cp_actions input) (cp_conditions input) ->
  update_playbook_atomic id (update_row input) (cp_actions input) (cp_conditions input) d = Some (b, d') ->
  wf d' /\ contents d' = map (updated id input) (contents d) /\ (b = true <-> id ∈ map p_id (pt_playbooks d)) /\ (b = false -> d' = d).
Proof.
  intros Hwf Hg. unfold update_playbook_atomic. destruct (has_playbook id d) eqn:Hh; cbn [negb].
  2:{ intros [= <- <-]. assert (id ∉ map p_id (pt_playbooks d)) as Hn by (rewrite <- has_playbook_in; congruence). split; [done|]. split; [|done].
      unfold contents. rewrite map_map. apply map_ext_in. intros p Hin%list_elem_of_In. unfold updated, stored. cbn [s_row].
      destruct (Z.eqb_spec (p_id p) id) as [Heq|]; [|done]. destruct Hn. rewrite <- Heq. apply list_elem_of_fmap. by exists p. }
  set (d0 := drop_children _ _). destruct (insert_all _ (cp_actions input) d0) as [d1|] eqn:H1; [|done]. destruct (insert_all _ (cp_conditions input) d1) as [d2|] eqn:H2; [|done]. intros [= <- <-].
  pose proof (proj1 (has_playbook_in id d) Hh) as Hin.
  assert (map p_id (map (rewrite_row id (update_row input)) (pt_playbooks d)) = map p_id (pt_playbooks d)) as Hids by (apply map_ids, rewrite_row_id).
  destruct (fill_children id (cp_actions input) (cp_conditions input) d0 d1 d2) as [Hwf' Hco]; try done.
  { apply wf_drop_children. by apply wf_set_rows. } { cbn. by rewrite Hids. } { apply no_actions_left. } { apply no_conditions_left. }
  split; [done|]. split; [|done]. rewrite Hco. unfold contents. subst d0. cbn [pt_playbooks drop_children set_rows]. rewrite !map_map. apply map_ext. intros p.
  unfold put_children, updated, stored. cbn [s_row pt_actions pt_conditions drop_children]. rewrite rewrite_row_id.
  destruct (Z.eqb_spec (p_id p) id) as [|Hne]; [done|]. unfold rewrite_row. rewrite (proj2 (Z.eqb_neq _ _) Hne). cbn [set_rows pt_actions pt_conditions]. by rewrite actions_of_other, conditions_of_other.
Qed.
Lemma update_playbook_works id input d : wf d -> good_children (cp_actions input) (cp_conditions input) -> NoDup (map in_condition_type (cp_conditions input)) ->
  is_Some (update_playbook_atomic id (update_row input) (cp_actions input) (cp_conditions input) d).
Proof.
  intros Hwf Hg Hnd. unfold update_playbook_atomic. destruct (has_playbook id d); [|by eexists]. cbn [negb]. set (d0 := drop_children _ _).
  destruct (fill_works id (cp_actions input) (cp_conditions input) d0) as (d1 & d2 & -> & ->); [apply no_actions_left|apply no_conditions_left|done|done|by eexists].
Qed.

Lemma toggle_stored id enabled d : wf d -> let '(b, d') := update_playbook_enabled id enabled d in
  wf d' /\ contents d' = map (toggled id enabled) (contents d) /\ (b = true <-> id ∈ map p_id (pt_playbooks d)).
Proof.
  intros Hwf. unfold update_playbook_enabled. split; [|split; [|apply has_playbook_in]].
  - apply wf_set_rows; [|done]. apply map_ids. intros p. by destruct (p_id p =? id).
  - unfold contents. cbn [set_rows pt_playbooks]. rewrite !map_map. apply map_ext. intros p. unfold stored, toggled. cbn [s_row set_rows pt_actions pt_conditions].
    destruct (Z.eqb_spec (p_id p) id) as [<-|]; done.
Qed.
Lemma delete_stored id d : wf d -> let '(b, d') := delete_playbook_rows id d in
  wf d' /\ contents d' = filter (fun s => p_id (s_row s) <> id) (contents d) /\ (b = true <-> id ∈ map p_id (pt_playbooks d)).
Proof.
  intros Hwf. unfold delete_playbook_rows. split; [|split; [|apply has_playbook_in]].
  - destruct Hwf. constructor; cbn [drop_children set_rows pt_playbooks pt_next pt_actions pt_next_action pt_conditions pt_next_condition]; try by apply Forall_filter.
    + by apply sorted_filter.
    + rewrite Forall_map in wf_next0 |- *. by apply Forall_filter.
    + apply Forall_forall. intros a [Hne Ha]%list_elem_of_filter. rewrite Forall_forall in wf_acts0. specialize (wf_acts0 a Ha). cbn in *.
      apply list_elem_of_fmap in wf_acts0 as (p & Hp & Hin). apply list_elem_of_fmap. exists p. split; [done|]. apply list_elem_of_filter. by rewrite <- Hp.
    + apply Forall_forall. intros a [Hne Ha]%list_elem_of_filter. rewrite Forall_forall in wf_conds0. specialize (wf_conds0 a Ha). cbn in *.
      apply list_elem_of_fmap in wf_conds0 as (p & Hp & Hin). apply list_elem_of_fmap. exists p. split; [done|]. apply list_elem_of_filter. by rewrite <- Hp.
    + by apply sorted_filter.
    + rewrite Forall_map in wf_cnext0 |- *. by apply Forall_filter.
    + intros p. unfold actions_of. rewrite filter_swap. apply sorted_filter. apply wf_orders0.
  - unfold contents. cbn [drop_children set_rows pt_playbooks]. set (d' := drop_children id _).
    assert (forall p, p_id p <> id -> stored d' p = stored d p) as Hs.
    { intros p Hne. unfold stored. subst d'. cbn [pt_actions pt_conditions drop_children set_rows]. by rewrite actions_of_other, conditions_of_other. }
    clearbody d'. induction (pt_playbooks d) as [|p ps IH]; [done|]. cbn [map]. rewrite !filter_cons. cbn [stored s_row].
    destruct (decide (p_id p <> id)) as [Hne|]; [|apply IH]. cbn [map]. by rewrite IH, Hs.
Qed.
End Operations.

(** ** Requests *)

(** The parameters but for the factor, which a printed number may change in its last bit. *)
Definition same_params (p q : PlaybookActionParams) : Prop :=
  ttl_secs p = ttl_secs q /\ url p = url q /\ timeout_secs p = timeout_secs q /\ level p = level q /\ (is_Some (factor p) <-> is_Some (factor q)).
Definition no_params : PlaybookActionParams := mk_params None None None None None.
(** Printed JSON parses; the texts of the source do. *)
Class JsonTextLaws `{J : JsonValue} (T : JsonText) : Prop := {
  law_text : forall j, exists j', js_parse (js_text j) = Some j' /\ same_params (parse_action_params j) (parse_action_params j');
  law_empty : exists j, js_parse "{}" = Some j /\ parse_action_params j = no_params;
  law_defaults : Forall (fun text => is_Some (js_parse text)) [ttl_hour; level_warn] }.

Section Requests.
Context `{J : JsonValue} {T : JsonText} {TL : JsonTextLaws T}.

(** What an action asks for. *)
Definition asked_params (r : CreateActionRequest) : PlaybookActionParams := match ra_params r with Some j => parse_action_params j | None => no_params end.

Lemma validate_action_type t p max : validate_action t p max = Ok tt -> is_Some (action_from_str t).
Proof. unfold validate_action. destruct (match p with Some _ => _ | None => _ end); [done|]. destruct (action_from_str t); [by eexists|done]. Qed.

(** Every action of a request becomes one the engine runs as it was asked. *)
Lemma mapped_actions max index l acts : map_actions max index l = Ok acts ->
  map ai_order acts = seqZ (index + 1) (Z.of_nat (length l)) /\
  Forall2 (fun r a => exists x, run_action a = Some x /\ action_order x = ai_order a /\ action_from_str (ra_type r) = Some (action_type x) /\ same_params (asked_params r) (params x)) l acts.
Proof.
  revert index acts. induction l as [|r l IH]; intros index acts; cbn [map_actions]; [by intros [= <-]|].
  intros ([] & Hv & (rest & Hr & [= <-])%res_bind_inv)%res_bind_inv. destruct (IH _ _ Hr) as [Ho Hf]. split.
  - cbn [map ai_order length]. rewrite Nat2Z.inj_succ, seqZ_cons by lia. rewrite Ho. do 2 f_equal; lia.
  - constructor; [|done]. destruct (validate_action_type _ _ _ Hv) as [t Ht]. unfold run_action, asked_params. cbn [ai_type ai_params ai_order]. rewrite Ht.
    destruct (ra_params r) as [j|].
    + destruct (law_text j) as (j' & -> & Hs). by eexists.
    + destruct law_empty as (j & -> & Hs). eexists. split; [done|]. split; [done|]. split; [done|]. cbn [params]. by rewrite Hs.
Qed.
Lemma mapped_conditions l conds : map_conditions l = Ok conds -> Forall (fun c => is_Some (run_condition c)) conds.
Proof.
  revert conds. induction l as [|r l IH]; intros conds; cbn [map_conditions]; [by intros [= <-]|]. destruct (new_condition _ _ _ _) as [c|]; [|done].
  intros ([] & Hv & (rest & Hr & [= <-])%res_bind_inv)%res_bind_inv. constructor; [|by apply IH]. unfold validate_condition_input in Hv. unfold run_condition.
  destruct (condition_from_str (in_condition_type c)) as [t|]; [|done]. destruct (is_valid_operator t (in_operator c)); [by eexists|done].
Qed.
Lemma mapped_request body cd max input : map_request_to_input body cd max = Ok input -> good_children (cp_actions input) (cp_conditions input).
Proof.
  unfold map_request_to_input. intros ([] & _ & ([] & _ & ([] & _ & (acts & Ha & (conds & Hc & [= <-])%res_bind_inv)%res_bind_inv)%res_bind_inv)%res_bind_inv)%res_bind_inv.
  cbn [cp_actions cp_conditions]. destruct (mapped_actions _ _ _ _ Ha) as [Ho Hf]. split; [rewrite Ho; apply seqZ_sorted|]. split; [|by eapply mapped_conditions].
  clear Ho Ha. induction Hf as [|r a l acts (x & Hx & _) Hf IH]; [done|]. constructor; [by exists x|done].
Qed.

Inductive Request : Type := Create (body : CreatePlaybookRequest) | Update (id : Z) (body : CreatePlaybookRequest) | Toggle (id : Z) (enabled : bool) | Delete (id : Z).
Definition handle (env : Env) (r : Request) (w : PlaybookWorld) : Response * PlaybookWorld :=
  match r with
  | Create body => create_playbook env body w
  | Update id body => update_playbook env id body w
  | Toggle id enabled => toggle_playbook env id enabled w
  | Delete id => delete_playbook env id w
  end.
Fixpoint serve_all (rs : list (Env * Request)) (w : PlaybookWorld) : PlaybookWorld :=
  match rs with [] => w | (env, r) :: rs => serve_all rs (handle env r w).2 end.

(** What a request asks for, on what is stored. *)
Definition input_of (env : Env) (body : CreatePlaybookRequest) : result validation_error CreatePlaybookInput :=
  map_request_to_input body (fallback_cooldown_secs (ev_cfg env)) (max_ttl_secs (ev_cfg env)).
Definition effect (env : Env) (r : Request) (d : PlaybookDb) : list Stored :=
  match r with
  | Create body => match input_of env body with Ok input => (contents d ++ [new_stored (pt_next d) input])%list | Err _ => contents d end
  | Update id body => match input_of env body with Ok input => map (updated id input) (contents d) | Err _ => contents d end
  | Toggle id enabled => map (toggled id enabled) (contents d)
  | Delete id => filter (fun s => p_id (s_row s) <> id) (contents d)
  end.
Definition exists_in (id : Z) (d : PlaybookDb) : Prop := id ∈ map p_id (pt_playbooks d).
(** A request that is in order: valid, for a playbook that exists, with no condition type twice. *)
Definition in_order (env : Env) (r : Request) (d : PlaybookDb) : Prop :=
  match r with
  | Create body => exists input, input_of env body = Ok input /\ NoDup (map in_condition_type (cp_conditions input))
  | Update id body => exists_in id d /\ exists input, input_of env body = Ok input /\ NoDup (map in_condition_type (cp_conditions input))
  | Toggle id _ | Delete id => exists_in id d
  end.

Definition outcome (env : Env) (r : Request) (w : PlaybookWorld) (status : Z) (w' : PlaybookWorld) : Prop :=
  wf (pw_db w') /\
  ((status = 200 \/ status = 201) /\ contents (pw_db w') = effect env r (pw_db w) /\ running w' = omap run_of (contents (pw_db w')) \/
   (status = 400 \/ status = 404) /\ pw_db w' = pw_db w /\ running w' = running w \/
   status = 500 /\ (pw_db w' = pw_db w \/ contents (pw_db w') = effect env r (pw_db w)) /\
     (running w' = running w \/ running w' = omap run_of (contents (pw_db w')))).

Lemma transaction_keeps {A : Type} (t : PlaybookDb -> option (A * PlaybookDb)) w :
  let '(r, w') := transaction t w in
  running w' = running w /\
  match r with Some a => t (pw_db w) = Some (a, pw_db w') | None => pw_db w' = pw_db w end /\
  (sw_faults (pw_soar w) = [] -> sw_faults (pw_soar w') = [] /\ (is_Some (t (pw_db w)) -> is_Some r)).
Proof.
  unfold transaction. pose proof (db_call_keeps w) as [Hd Hr]. destruct (db_call w) as [ok w1] eqn:Hc. cbn [fst snd] in *. destruct ok.
  - destruct (t (pw_db w1)) as [[a d]|] eqn:Ht; rewrite Hd in Ht.
    + split; [exact Hr|]. split; [done|]. intros Hf. rewrite db_call_works in Hc by done. injection Hc as <-. by split.
    + split; [exact Hr|]. split; [done|]. intros Hf. rewrite db_call_works in Hc by done. injection Hc as <-. split; [done|]. rewrite Ht. by intros [? ?].
  - split; [exact Hr|]. split; [done|]. intros Hf. rewrite db_call_works in Hc by done. done.
Qed.

(** A change of rows with the reload behind it. *)
Lemma change_outcome env t w (after : list Stored) (found : Prop) : wf (pw_db w) ->
  (forall b d', t (pw_db w) = Some (b, d') -> wf d' /\ contents d' = after /\ (b = true <-> found) /\ (b = false -> d' = pw_db w)) ->
  let '(r, w') := change_and_reload env t w in
  wf (pw_db w') /\
  match r with
  | Some true => contents (pw_db w') = after /\ running w' = omap run_of (contents (pw_db w'))
  | Some false => pw_db w' = pw_db w /\ running w' = running w
  | None => (pw_db w' = pw_db w \/ contents (pw_db w') = after) /\ (running w' = running w \/ running w' = omap run_of (contents (pw_db w')))
  end /\ (sw_faults (pw_soar w) = [] -> is_Some (t (pw_db w)) -> found -> r = Some true).
Proof.
  intros Hwf Ht. unfold change_and_reload. pose proof (transaction_keeps t w) as Htr. destruct (transaction t w) as [[[]|] w1]; destruct Htr as (Hr & Hd & Hf).
  - destruct (Ht _ _ Hd) as (Hwf1 & Hc & Hb & _). pose proof (reload_runs env w1 Hwf1) as Hre. destruct (reload env w1) as [ok w2]. destruct Hre as (Hd2 & Hr2 & Hok & Hq).
    rewrite Hd2. split; [done|]. split.
    + destruct ok; [split; [done|]; by apply Hok|]. split; [by right|]. rewrite Hr in Hr2. exact Hr2.
    + intros Hn Hs Hfound. destruct (Hf Hn) as [Hn1 _]. by rewrite (Hq Hn1).
  - destruct (Ht _ _ Hd) as (Hwf1 & Hc & Hb & Heq). rewrite (Heq eq_refl). split; [done|]. split; [done|]. intros _ _ Hfound. by apply Hb in Hfound.
  - rewrite Hd. split; [done|]. split; [split; [by left|by left]|]. intros Hn Hs _. destruct (Hf Hn) as [_ Hsome]. by destruct (Hsome Hs).
Qed.

Lemma map_none {A} (f : A -> A) l : (forall x, x ∈ l -> f x = x) -> map f l = l.
Proof. induction l as [|x l IH]; intros Hf; [done|]. cbn. rewrite Hf by by left. f_equal. apply IH. intros y Hy. apply Hf. by right. Qed.
Lemma toggle_missing id enabled d : has_playbook id d = false -> (update_playbook_enabled id enabled d).2 = d.
Proof.
  intros Hh. cbn. unfold set_rows. rewrite map_none; [by destruct d|]. intros p Hp. destruct (Z.eqb_spec (p_id p) id) as [He|]; [|done].
  assert (has_playbook id d = true); [|congruence]. apply has_playbook_in. rewrite <- He. apply list_elem_of_fmap. by exists p.
Qed.
Lemma delete_missing id d : wf d -> has_playbook id d = false -> (delete_playbook_rows id d).2 = d.
Proof.
  intros Hwf Hh. assert (id ∉ map p_id (pt_playbooks d)) as Hn by (rewrite <- has_playbook_in; congruence). cbn. unfold drop_children, set_rows. cbn. destruct d as [ps n acts na conds nc]. cbn in *. f_equal.
  - apply filter_id. apply Forall_forall. intros p Hp He. destruct Hn. rewrite <- He. apply list_elem_of_fmap. by exists p.
  - apply filter_id. eapply Forall_impl; [apply (wf_acts _ Hwf)|]. cbn. intros a Hin He. by rewrite He in Hin.
  - apply filter_id. eapply Forall_impl; [apply (wf_conds _ Hwf)|]. cbn. intros a Hin He. by rewrite He in Hin.
Qed.

Lemma request_outcome env r w : wf (pw_db w) ->
  outcome env r w (status (handle env r w).1) (handle env r w).2 /\
  (sw_faults (pw_soar w) = [] -> in_order env r (pw_db w) -> status (handle env r w).1 = match r with Create _ => 201 | _ => 200 end).
Proof.
  intros Hwf. destruct r as [body|id body|id enabled|id]; cbn [handle].
  - unfold create_playbook, outcome, effect, in_order. fold (input_of env body). destruct (input_of env body) as [input|e] eqn:Hi.
    2:{ cbn. split; [split; [done|]; right; left; split; [by left|done]|]. intros _ (? & ? & _). done. }
    pose proof (mapped_request _ _ _ _ Hi) as Hg. unfold svc_create_playbook. pose proof (transaction_keeps (insert_playbook_atomic input) w) as Htr.
    destruct (transaction (insert_playbook_atomic input) w) as [[id|] w1]; destruct Htr as (Hr & Hd & Hf).
    + destruct (insert_playbook_stored _ _ _ _ Hwf Hg Hd) as (Hwf1 & -> & _ & Hc). pose proof (reload_runs env w1 Hwf1) as Hre. destruct (reload env w1) as [ok w2].
      destruct Hre as (Hd2 & Hr2 & Hok & Hq). split.
      * destruct ok; cbn [fst snd status answer]; rewrite Hd2; (split; [done|]).
        -- left. split; [by right|]. split; [done|]. by apply Hok.
        -- right. right. split; [done|]. split; [by right|]. rewrite Hr in Hr2. exact Hr2.
      * intros Hn _. destruct (Hf Hn) as [Hn1 _]. by rewrite (Hq Hn1).
    + cbn [fst snd status answer]. rewrite Hd. split; [split; [done|]; right; right; split; [done|]; split; [by left|by left]|].
      intros Hn (input' & [= <-] & Hnd). destruct (Hf Hn) as [_ Hs]. by destruct (Hs (insert_playbook_works input _ Hwf Hg Hnd)).
  - unfold update_playbook, outcome, effect, in_order. fold (input_of env body). destruct (input_of env body) as [input|e] eqn:Hi.
    2:{ cbn. split; [split; [done|]; right; left; split; [by left|done]|]. intros _ (_ & ? & ? & _). done. }
    pose proof (mapped_request _ _ _ _ Hi) as Hg. unfold svc_update_playbook.
    pose proof (change_outcome env (update_playbook_atomic id (update_row input) (cp_actions input) (cp_conditions input)) w (map (updated id input) (contents (pw_db w))) (exists_in id (pw_db w)) Hwf
      (fun b d' H => update_playbook_stored id input _ b d' Hwf Hg H)) as Hco.
    destruct (change_and_reload _ _ w) as [res w']. destruct Hco as (Hwf' & Hcase & Hok). cbn [fst snd]. split; [split; [done|]|].
    + destruct res as [[]|]; cbn [changed answer status]; [left|right; left|right; right]; (split; [auto|exact Hcase]).
    + intros Hn (Hex & input' & [= <-] & Hnd). by rewrite (Hok Hn (update_playbook_works id input _ Hwf Hg Hnd) Hex).
  - unfold toggle_playbook, svc_toggle_playbook, outcome, effect, in_order.
    pose proof (change_outcome env (fun d => Some (update_playbook_enabled id enabled d)) w (map (toggled id enabled) (contents (pw_db w))) (exists_in id (pw_db w)) Hwf) as Hco.
    destruct (change_and_reload _ _ w) as [res w']. destruct Hco as (Hwf' & Hcase & Hok).
    { intros b d'. pose proof (toggle_stored id enabled (pw_db w) Hwf) as Ht. pose proof (toggle_missing id enabled (pw_db w)) as Hm. unfold update_playbook_enabled in *. intros [= <- <-].
      split_and!; try apply Ht. exact Hm. }
    cbn [fst snd]. split; [split; [done|]|].
    + destruct res as [[]|]; cbn [changed answer status]; [left|right; left|right; right]; (split; [auto|exact Hcase]).
    + intros Hn Hex. by rewrite (Hok Hn (ex_intro _ _ eq_refl) Hex).
  - unfold delete_playbook, svc_delete_playbook, outcome, effect, in_order.
    pose proof (change_outcome env (fun d => Some (delete_playbook_rows id d)) w (filter (fun s => p_id (s_row s) <> id) (contents (pw_db w))) (exists_in id (pw_db w)) Hwf) as Hco.
    destruct (change_and_reload _ _ w) as [res w']. destruct Hco as (Hwf' & Hcase & Hok).
    { intros b d'. pose proof (delete_stored id (pw_db w) Hwf) as Ht. pose proof (delete_missing id (pw_db w) Hwf) as Hm. unfold delete_playbook_rows in *. intros [= <- <-].
      split_and!; try apply Ht. exact Hm. }
    cbn [fst snd]. split; [split; [done|]|].
    + destruct res as [[]|]; cbn [changed answer status]; [left|right; left|right; right]; (split; [auto|exact Hcase]).
    + intros Hn Hex. by rewrite (Hok Hn (ex_intro _ _ eq_refl) Hex).
Qed.
End Requests.

(** ** The engine runs what is stored *)

Section Engine.
Context `{J : JsonValue} {T : JsonText} {TL : JsonTextLaws T}.

Lemma wf_empty : wf empty_playbooks.
Proof. constructor; cbn; try constructor. Qed.

Lemma run_action_text n t text : is_Some (action_from_str t) -> is_Some (js_parse text) -> is_Some (run_action (mk_action_input n t text)).
Proof. intros [x Hx] [j Hj]. unfold run_action. cbn. rewrite Hx, Hj. by eexists. Qed.
Lemma defaults_good : Forall (fun def => good_children (df_actions def) (df_conditions def)) DEFAULT_PLAYBOOKS.
Proof.
  destruct law_empty as (j & Hj & _). pose proof law_defaults as Hd. apply Forall_cons in Hd as [Hh Hd]. apply Forall_cons in Hd as [Hw _].
  repeat constructor; try (cbn; lia); try (by eexists); apply run_action_text; try (by eexists); done.
Qed.
Lemma seeded_wf defs d d' : Forall (fun def => good_children (df_actions def) (df_conditions def)) defs -> wf d -> seed_default_playbooks_tx defs d = Some d' -> wf d'.
Proof.
  intros Hg. revert d. induction Hg as [|def defs Hdef Hg IH]; intros d Hwf; cbn [seed_default_playbooks_tx]; [by intros [= <-]|].
  destruct (insert_playbook_atomic (default_input def) d) as [[id d1]|] eqn:Hi; [|done]. apply IH. by apply (insert_playbook_stored (default_input def) d id d1 Hwf).
Qed.
Lemma seed_wf d d' : wf d -> seed_default_playbooks d = Some d' -> wf d'.
Proof.
  intros Hwf. unfold seed_default_playbooks. destruct (pt_playbooks d); [|by intros [= <-]]. intros Hs. exact (seeded_wf DEFAULT_PLAYBOOKS d d' defaults_good Hwf Hs).
Qed.
Lemma serve_all_wf rs w : wf (pw_db w) -> wf (pw_db (serve_all rs w)).
Proof.
  revert w. induction rs as [|[env r] rs IH]; intros w Hwf; [done|]. cbn [serve_all]. apply IH. apply (request_outcome env r w Hwf).
Qed.

(** C8: Whatever requests to create, change, switch and delete playbooks are served,
    valid or not, and whatever calls fail: a request that succeeds makes the stored
    playbooks exactly what it asked for, and the engine runs those with a known trigger,
    actions and conditions as stored; a refused one changes nothing; after an internal
    error the tables are as before or as asked, and the engine runs what it ran or what is
    stored.  The listing always shows what is stored, and a request in order succeeds when
    no call fails. *)
Theorem engine_runs_stored_playbooks (start : PlaybookWorld) (rs : list (Env * Request)) (env : Env) (r : Request) :
  pw_db start = empty_playbooks \/ seed_default_playbooks empty_playbooks = Some (pw_db start) ->
  let w := serve_all rs start in
  let '(resp, w') := handle env r w in
  ((status resp = 200 \/ status resp = 201) /\ contents (pw_db w') = effect env r (pw_db w) /\ running w' = omap run_of (contents (pw_db w')) \/
   (status resp = 400 \/ status resp = 404) /\ pw_db w' = pw_db w /\ running w' = running w \/
   status resp = 500 /\ (pw_db w' = pw_db w \/ contents (pw_db w') = effect env r (pw_db w)) /\
     (running w' = running w \/ running w' = omap run_of (contents (pw_db w')))) /\
  list_playbooks (pw_db w') = Some (map (listed (pw_db w')) (pt_playbooks (pw_db w'))) /\
  (sw_faults (pw_soar w) = [] -> in_order env r (pw_db w) -> status resp = match r with Create _ => 201 | _ => 200 end).
Proof.
  intros Hstart w. assert (wf (pw_db w)) as Hwf.
  { apply serve_all_wf. destruct Hstart as [->|Hs]; [apply wf_empty|]. exact (seed_wf empty_playbooks _ wf_empty Hs). }
  pose proof (request_outcome env r w Hwf) as [[Hwf' Hcase] Hok]. destruct (handle env r w) as [resp w']. cbn [fst snd] in *.
  split; [exact Hcase|]. split; [by apply list_playbooks_joins|exact Hok].
Qed.

(** ** Where playbooks go wrong *)

(** A trigger that is no attack type is accepted: the playbook is stored and listed, the
    answer is 201, and the engine never runs it. *)
Lemma unknown_trigger_is_accepted (env : Env) (body : CreatePlaybookRequest) (input : CreatePlaybookInput) (w : PlaybookWorld) :
  wf (pw_db w) -> sw_faults (pw_soar w) = [] -> input_of env body = Ok input -> NoDup (map in_condition_type (cp_conditions input)) ->
  canonical_from_str (rq_trigger body) = None ->
  let '(resp, w') := create_playbook env body w in
  status resp = 201 /\ contents (pw_db w') = (contents (pw_db w) ++ [new_stored (pt_next (pw_db w)) input])%list /\ running w' = omap run_of (contents (pw_db w)).
Proof.
  intros Hwf Hf Hi Hnd Htrig. pose proof (request_outcome env (Create body) w Hwf) as [[_ Hcase] Hok]. cbn [handle] in *.
  assert (status (create_playbook env body w).1 = 201) as H201 by (apply Hok; [done|]; by exists input).
  destruct (create_playbook env body w) as [resp w']. cbn [fst snd] in *. split; [done|].
  destruct Hcase as [(_ & Hc & Hr)|[([|] & _)|(? & _)]]; [|congruence..]. unfold effect in Hc. rewrite Hi in Hc. split; [done|].
  rewrite Hr, Hc, omap_app. cbn [omap list_omap]. assert (run_of (new_stored (pt_next (pw_db w)) input) = None) as ->; [|by rewrite app_nil_r].
  assert (cp_trigger input = rq_trigger body) as Ht.
  { unfold input_of, map_request_to_input in Hi. apply res_bind_inv in Hi as (_ & _ & (_ & _ & (_ & _ & (? & _ & (? & _ & [= <-])%res_bind_inv)%res_bind_inv)%res_bind_inv)%res_bind_inv). done. }
  unfold run_of. cbn [new_stored s_row p_trigger]. by rewrite Ht, Htrig.
Qed.

(** Two conditions of one type pass the checks and break the unique key: the answer is an
    internal error. *)
Lemma repeated_condition_type_is_internal (env : Env) (body : CreatePlaybookRequest) (input : CreatePlaybookInput) (c c' : CreateConditionInput) (w : PlaybookWorld) :
  input_of env body = Ok input -> cp_actions input = [] -> cp_conditions input = [c; c'] -> in_condition_type c = in_condition_type c' ->
  status (create_playbook env body w).1 = 500 /\ pw_db (create_playbook env body w).2 = pw_db w.
Proof.
  intros Hi Ha Hc Hsame. unfold create_playbook. fold (input_of env body). rewrite Hi. unfold svc_create_playbook.
  assert (forall d, insert_playbook_atomic input d = None) as Hnone.
  { intros d. unfold insert_playbook_atomic. rewrite Ha, Hc. cbn [insert_all]. unfold insert_condition at 1. destruct (existsb _ _); [done|]. cbn [insert_all].
    unfold insert_condition. cbn [pt_conditions]. rewrite existsb_app. cbn. rewrite Z.eqb_refl, Hsame, String.eqb_refl. cbn. by rewrite orb_true_r. }
  pose proof (transaction_keeps (insert_playbook_atomic input) w) as Htr. destruct (transaction _ w) as [[id|] w1]; destruct Htr as (_ & Hd & _); [by rewrite Hnone in Hd|done].
Qed.

(** The threshold, count and window of a playbook itself change nothing in the engine. *)
Lemma own_threshold_is_ignored id name enabled trigger t c w t' c' w' cd acts conds :
  run_of (mk_stored (mk_prow id name enabled trigger t c w cd) acts conds) = run_of (mk_stored (mk_prow id name enabled trigger t' c' w' cd) acts conds).
Proof. done. Qed.

(** ** Dry runs *)

(** A dry run's event has as many active sources as it names, and at least one. *)
Lemma dry_run_event_sources req e : build_event req = Ok e -> te_active_source_count e = Z.of_nat (length (te_sources e)) /\ te_sources e <> [].
Proof.
  unfold build_event, parse_dry_run_sources, resolve_dry_run_active_source_count. intros (sources & Hs & (n & Hn & [= <-])%res_bind_inv)%res_bind_inv.
  apply res_bind_inv in Hs as (l & _ & Hl). destruct l as [|s l]; [done|]. injection Hl as <-. cbn [te_active_source_count te_sources].
  destruct (Z.eqb_spec (default (Z.of_nat (length (s :: l))) (dr_active_source_count req)) (Z.of_nat (length (s :: l)))) as [Heq|]; [|done]. injection Hn as <-. done.
Qed.
End Engine.

(** ** A run *)

(** The few JSON documents of the defaults. *)
Inductive Doc : Type := DEmpty | DHour | DWarn | DNumber | DText.
#[local] Instance doc_json : JsonValue := {|
  json := Doc;
  js_is_object := fun j => match j with DEmpty | DHour | DWarn => true | _ => false end;
  js_get := fun j key => match j with
    | DHour => if String.eqb key "ttl_secs" then Some DNumber else None
    | DWarn => if String.eqb key "level" then Some DText else None
    | _ => None end;
  js_as_u64 := fun j => match j with DNumber => Some 3600 | _ => None end;
  js_as_f64 := fun _ => None;
  js_as_str := fun j => match j with DText => Some "warn" | _ => None end |}.
#[local] Instance doc_text : JsonText := {|
  js_text := fun j => match j with DEmpty => "{}" | DHour => ttl_hour | DWarn => level_warn | DNumber => "3600" | DText => quoted "warn" end;
  js_parse := fun s => if String.eqb s "{}" then Some DEmpty else if String.eqb s ttl_hour then Some DHour else if String.eqb s level_warn then Some DWarn
    else if String.eqb s "3600" then Some DNumber else if String.eqb s (quoted "warn") then Some DText else None |}.
#[local] Instance doc_laws : JsonTextLaws doc_text.
Proof.
  split.
  - intros j. exists j. by destruct j.
  - by exists DEmpty.
  - by repeat constructor.
Qed.

Definition sample_env : Env :=
  mk_env (mk_soar_config 5 86400 16 5 1800 (f64_of_ratio 1 2) 600 10 60 (f32_of_ratio 95 100) 3600 64 50000 200 7200 300 100) true 0 1700000000 8210266876799 false false None
    (fun _ => 200).
Definition sample_soar : soar_world :=
  mk_sw (Tables.mk_tables [] [] 1 [] 1 []) AclMap.fresh_control (mk_matcher [] [] ∅ (new_tracker 10 10 60) 0) [] (RateLimit.mk_rl (Some (replicate 5 100)) ∅ []) None [].
Definition seeded_playbooks : PlaybookDb := default empty_playbooks (seed_default_playbooks empty_playbooks).
Definition sample_world : PlaybookWorld := mk_pworld seeded_playbooks sample_soar.
Definition scan_request : CreatePlaybookRequest :=
  mk_request "scans" "port_scan" None None None None [mk_action_request "block_ip" (Some DHour); mk_action_request "log" None]
    (Some [mk_condition_request "source_country" None "XX,YY" None; mk_condition_request "frequency" None "3" (Some "30")]).

(** Seeded, one playbook switched off, one deleted, one made. *)
Lemma engine_runs_stored_playbooks_witness :
  let rs := [(sample_env, Toggle 2 false); (sample_env, Delete 3); (sample_env, Delete 9)] in
  let '(resp, w') := handle sample_env (Create scan_request) (serve_all rs sample_world) in
  resp = mk_response 201 (Some 5) /\ running w' = omap run_of (contents (pw_db w')) /\
  map (fun p => (pb_id p, pb_enabled p)) (running w') = [(1, true); (2, false); (4, true); (5, true)] /\
  map (fun p => (map action_order (pb_actions p), map operator (pb_conditions p))) (drop 3 (running w')) = [([1; 2], ["in"; ">="])].
Proof.
  intros rs. pose proof (engine_runs_stored_playbooks sample_world rs sample_env (Create scan_request)) as H.
  assert (pw_db sample_world = empty_playbooks \/ seed_default_playbooks empty_playbooks = Some (pw_db sample_world)) as Hs.
  { right. vm_compute. reflexivity. }
  specialize (H Hs). cbv zeta in H. destruct (handle sample_env (Create scan_request) (serve_all rs sample_world)) as [resp w'] eqn:E.
  assert (resp = (handle sample_env (Create scan_request) (serve_all rs sample_world)).1) as Hr by by rewrite E.
  assert (w' = (handle sample_env (Create scan_request) (serve_all rs sample_world)).2) as Hw by by rewrite E.
  clear E. assert (resp = mk_response 201 (Some 5)) as H201 by (rewrite Hr; vm_compute; reflexivity). split; [exact H201|]. split.
  - clear Hs Hr Hw. subst resp. destruct H as [[H|[H|H]] _].
    + exact (proj2 (proj2 H)).
    + exfalso. destruct H as [[H|H] _]; discriminate H.
    + exfalso. destruct H as [H _]. discriminate H.
  - split; rewrite Hw; vm_compute; reflexivity.
Defined.
