(* ===== verification/SystemControl.v ===== *)
(** * Control of the running system

    The mode of enforcement (core/common/enforce_mode_handler.rs,
    infrastructure/startup/identity.rs), the endpoints under /api/system
    (adapter/http/system.rs), and how a run is started and ended
    (infrastructure/system/mod.rs).  The mode is kept three times: as a row of the
    settings table, in the configuration in force, and as the level the response engine
    looks at.  Log levels belong to the logging library. *)

From Stdlib Require Import ZArith Lia List Ascii String.
From stdpp Require Import base list gmap strings.
From S2P Require Import Prelude RStr Condition Users Identity Access AuditChain Config Setup Playbooks.

Local Open Scope string_scope.
Local Open Scope Z_scope.

(** ** The mode *)

Definition ENFORCE_LEVEL_MONITOR : Z := 0.
Definition ENFORCE_LEVEL_ML_ONLY : Z := 1.
Definition ENFORCE_LEVEL_ENFORCE : Z := 2.
Definition enforce_mode_to_u8 (m : EnforceMode) : Z :=
  match m with Enforce => ENFORCE_LEVEL_ENFORCE | MlOnly => ENFORCE_LEVEL_ML_ONLY | Monitor => ENFORCE_LEVEL_MONITOR end.

Inductive ShutdownMode : Type := DoShutdown | DoRestart.
#[export] Instance ShutdownMode_eq_dec : EqDecision ShutdownMode.
Proof. solve_decision. Defined.

(** The channel of capacity one between the endpoints and the run. *)
Record ShutdownChannel : Type := mk_channel { ch_buffer : option ShutdownMode; ch_open : bool }.
Definition trigger (mode : ShutdownMode) (c : ShutdownChannel) : bool * ShutdownChannel :=
  match ch_open c, ch_buffer c with
  | true, None => (true, mk_channel (Some mode) true)
  | _, _ => (false, c)
  end.

(** Tables and configuration, the audit log, the engine's level, and the channel. *)
Record SystemWorld : Type := mk_sys { sy_config : ConfigWorld; sy_audit : AuditTable; sy_level : Z; sy_channel : ShutdownChannel }.
Definition with_config (c : ConfigWorld) (w : SystemWorld) : SystemWorld := mk_sys c (sy_audit w) (sy_level w) (sy_channel w).
Definition with_audit (a : AuditTable) (w : SystemWorld) : SystemWorld := mk_sys (sy_config w) a (sy_level w) (sy_channel w).
Definition with_channel (c : ShutdownChannel) (w : SystemWorld) : SystemWorld := mk_sys (sy_config w) (sy_audit w) (sy_level w) c.

(** The field is there in every configuration. *)
Definition mode_of (cfg : Config) : EnforceMode := match cfg !! "system.enforce_mode" with Some (VMode m) => m | _ => Monitor end.
Definition get_mode (w : SystemWorld) : EnforceMode := mode_of (cw_config (sy_config w)).
Definition is_enforce_mode (w : SystemWorld) : bool := sy_level w =? ENFORCE_LEVEL_ENFORCE.

(** What the world decides during a request: which configuration calls work, whether the
    row and the audit row are written, and the time of the audit row. *)
Record SysEnv : Type := mk_senv { se_config : ConfigEnv; se_row : bool; se_audit : bool; se_now : string }.
Inductive SysError : Type := SysConfig (e : ConfigError) | SysAudit (e : AuditError).

Section Control.
Context `{H : Sha256} `{F : FloatText} (dbg : bool).

Definition mode_detail (m : EnforceMode) : string := "{" ++ quoted "new_mode" ++ ":" ++ quoted (mode_as_str m) ++ "}".

(** [change_mode], in the steps between its calls. *)
Definition change_row (env : SysEnv) (m : EnforceMode) (w : SystemWorld) : result SysError unit * SystemWorld :=
  let c := sy_config w in
  match set_config_value (se_row env) "enforce_mode" (mode_as_str m) (cw_settings c) with
  | Err e => (Err (SysConfig e), w)
  | Ok t => (Ok tt, with_config (mk_cworld t (cw_secrets c) (cw_config c)) w)
  end.
Definition change_audit (env : SysEnv) (m : EnforceMode) (w : SystemWorld) : result SysError unit * SystemWorld :=
  match insert_audit_log (se_audit env) (se_now env) "admin" "enforce_mode_changed" (mode_detail m) (sy_audit w) with
  | (Err e, a) => (Err (SysAudit e), with_audit a w)
  | (Ok _, a) => (Ok tt, with_audit a w)
  end.
Definition change_apply (m : EnforceMode) (w : SystemWorld) : SystemWorld :=
  let c := sy_config w in
  mk_sys (mk_cworld (cw_settings c) (cw_secrets c) (<["system.enforce_mode" := VMode m]> (cw_config c))) (sy_audit w) (enforce_mode_to_u8 m) (sy_channel w).
Definition change_mode (env : SysEnv) (m : EnforceMode) (w : SystemWorld) : result SysError unit * SystemWorld :=
  match change_row env m w with
  | (Err e, w) => (Err e, w)
  | (Ok _, w) =>
      match change_audit env m w with
      | (Err e, w) => (Err e, w)
      | (Ok _, w) => (Ok tt, change_apply m w)
      end
  end.

(** ** The endpoints *)

Inductive SysRequest : Type :=
  | GetEnforceMode
  | SetEnforceMode (mode : string)
  | GetConfig
  | UpdateConfig (body : Json)
  | PostShutdown (claims : Claims)
  | PostRestart (claims : Claims).
(** What a response says beside its status. *)
Inductive SysBody : Type :=
  | BodyMode (m : EnforceMode)
  | BodyConfig (j : Json)
  | BodyUpdated (keys : list string) (restarting : option bool)
  | BodyMessage.

Definition PERMISSION_SYSTEM_ADMIN : string := "system:admin".
Definition HTTP_RELOAD_KEYS : list string := ["http_port"; "cors_allowed_origins"; "force_https"].
Definition updated_keys_need_http_restart (updated : list string) : bool := existsb (fun key => bool_decide (key ∈ HTTP_RELOAD_KEYS)) updated.

Definition get_enforce_mode (w : SystemWorld) : (Z * SysBody) * SystemWorld := ((200, BodyMode (get_mode w)), w).
Definition set_enforce_mode (env : SysEnv) (mode : string) (w : SystemWorld) : (Z * SysBody) * SystemWorld :=
  match mode_from_str mode with
  | None => ((400, BodyMessage), w)
  | Some m => match change_mode env m w with
              | (Ok _, w) => ((200, BodyMode m), w)
              | (Err _, w) => ((500, BodyMessage), w)
              end
  end.
Definition get_system_config (w : SystemWorld) : (Z * SysBody) * SystemWorld := ((200, BodyConfig (get_config (sy_config w))), w).
Definition trigger_mode (mode : ShutdownMode) (w : SystemWorld) : bool * SystemWorld :=
  let '(ok, c) := trigger mode (sy_channel w) in (ok, with_channel c w).
Definition update_system_config (env : SysEnv) (body : Json) (w : SystemWorld) : (Z * SysBody) * SystemWorld :=
  match update_config dbg (se_config env) body (sy_config w) with
  | (Err _, c) => ((400, BodyMessage), with_config c w)
  | (Ok updated, c) =>
      let w := with_config c w in
      if updated_keys_need_http_restart updated then
        let '(triggered, w) := trigger_mode DoRestart w in ((200, BodyUpdated updated (Some triggered)), w)
      else ((200, BodyUpdated updated None), w)
  end.
Definition end_run (mode : ShutdownMode) (claims : Claims) (w : SystemWorld) : (Z * SysBody) * SystemWorld :=
  if negb (existsb (fun p => String.eqb p PERMISSION_SYSTEM_ADMIN) (cl_permissions claims)) then ((403, BodyMessage), w)
  else let '(triggered, w) := trigger_mode mode w in ((if triggered then 200 else 409, BodyMessage), w).
Definition shutdown : Claims -> SystemWorld -> (Z * SysBody) * SystemWorld := end_run DoShutdown.
Definition restart : Claims -> SystemWorld -> (Z * SysBody) * SystemWorld := end_run DoRestart.

Definition system_handle (env : SysEnv) (req : SysRequest) (w : SystemWorld) : (Z * SysBody) * SystemWorld :=
  match req with
  | GetEnforceMode => get_enforce_mode w
  | SetEnforceMode mode => set_enforce_mode env mode w
  | GetConfig => get_system_config w
  | UpdateConfig body => update_system_config env body w
  | PostShutdown claims => shutdown claims w
  | PostRestart claims => restart claims w
  end.
(** Requests one after the other, with their answers. *)
Fixpoint system_requests (reqs : list (SysEnv * SysRequest)) (w : SystemWorld) : list (Z * SysBody) * SystemWorld :=
  match reqs with
  | [] => ([], w)
  | (env, req) :: reqs =>
      let '(r, w) := system_handle env req w in
      let '(rs, w) := system_requests reqs w in (r :: rs, w)
  end.

(** ** A run of the program *)

(** [build_identity] and [start_http], with the configuration the setup ended with. *)
Definition system_start (settings secrets : gmap string string) (cfg : Config) (audit : AuditTable) : SystemWorld :=
  mk_sys (mk_cworld settings secrets cfg) audit (enforce_mode_to_u8 (mode_of cfg)) (mk_channel None true).

(** The run waits for an interrupt or a message, then drops its end of the channel;
    requests are served until the tasks are stopped. *)
Record SystemRun : Type := mk_run { rn_world : SystemWorld; rn_end : option ShutdownMode }.
Inductive RunEvent : Type := Serve (env : SysEnv) (req : SysRequest) | Interrupt | Receive | DropReceiver.
Definition run_step (e : RunEvent) (r : SystemRun) : option (Z * SysBody) * SystemRun :=
  let w := rn_world r in
  match e, rn_end r with
  | Serve env req, over => let '(a, w) := system_handle env req w in (Some a, mk_run w over)
  | Interrupt, None => (None, mk_run w (Some DoShutdown))
  | Receive, None =>
      match ch_buffer (sy_channel w) with
      | Some m => (None, mk_run (with_channel (mk_channel None (ch_open (sy_channel w))) w) (Some m))
      | None => (None, r)
      end
  | DropReceiver, Some _ => (None, mk_run (with_channel (mk_channel None false) w) (rn_end r))
  | _, _ => (None, r)
  end.
(** What an answered request asked the run to end with. *)
Definition asked (req : SysRequest) (a : Z * SysBody) : list ShutdownMode :=
  match req, a with
  | PostShutdown _, (200, _) => [DoShutdown]
  | PostRestart _, (200, _) => [DoRestart]
  | UpdateConfig _, (200, BodyUpdated _ (Some true)) => [DoRestart]
  | _, _ => []
  end.
Fixpoint run_all (evs : list RunEvent) (r : SystemRun) : list ShutdownMode * SystemRun :=
  match evs with
  | [] => ([], r)
  | e :: evs =>
      let '(a, r) := run_step e r in
      let '(ms, r) := run_all evs r in
      ((match e, a with Serve _ req, Some a => asked req a | _, _ => [] end) ++ ms, r)%list
  end.

(** ** The phases of a process *)

Inductive SystemPhase : Type := PhaseNew | PhaseReady | PhaseRunning | PhaseTerminated.
Inductive PhaseOp : Type := OpSetup (works : bool) | OpRun (works : bool) | OpTerminate.
(** Whether the call succeeds, whether its body was run, and the phase after it. *)
Definition phase_setup (works : bool) (p : SystemPhase) : bool * bool * SystemPhase :=
  match p with PhaseNew => (works, true, if works then PhaseReady else PhaseNew) | _ => (false, false, p) end.
Definition phase_run (works : bool) (p : SystemPhase) : bool * bool * SystemPhase :=
  match p with PhaseReady => (works, true, PhaseRunning) | _ => (false, false, p) end.
Definition phase_terminate (p : SystemPhase) : bool * bool * SystemPhase := (true, true, PhaseTerminated).
Definition phase_step (op : PhaseOp) (p : SystemPhase) : bool * bool * SystemPhase :=
  match op with OpSetup works => phase_setup works p | OpRun works => phase_run works p | OpTerminate => phase_terminate p end.
End Control.

(** ** The row of the mode *)

#[local] Opaque section_keys app_leaves.

Lemma mode_str_inv s m : mode_from_str s = Some m <-> s = mode_as_str m.
Proof.
  unfold mode_from_str. split; [|by intros ->; destruct m].
  repeat (case_match; [intros [= <-]; by apply String.eqb_eq|]). done.
Qed.

Lemma mode_as_str_inj a b : mode_as_str a = mode_as_str b -> a = b.
Proof. by destruct a, b. Qed.

Lemma mode_setting : exists l, l ∈ app_leaves /\ lf_key l = "enforce_mode" /\ lf_path l = "system.enforce_mode" /\ lf_ty l = TMode.
Proof.
  assert (existsb (fun l => String.eqb (lf_key l) "enforce_mode" && String.eqb (lf_path l) "system.enforce_mode" &&
    match lf_ty l with TMode => true | _ => false end) app_leaves = true) as (l & Hin & Hl)%existsb_exists by by vm_compute.
  apply andb_true_iff in Hl as [[Hk%String.eqb_eq Hp%String.eqb_eq]%andb_true_iff Ht]. exists l.
  split; [by apply list_elem_of_In|]. do 2 (split; [done|]). by destruct (lf_ty l).
Qed.

(** A table that loads gives the mode of its row. *)
Lemma loaded_mode dbg get cfg s : load_app_config dbg (fun _ => true) get = Ok cfg -> get "enforce_mode" = Some s ->
  cfg !! "system.enforce_mode" = Some (VMode (mode_of cfg)) /\ s = mode_as_str (mode_of cfg).
Proof.
  intros Hload Hs. pose proof (load_inv _ _ _ Hload) as (values & Hf & _ & Hv).
  destruct mode_setting as (l & Hl & Hk & Hp & Ht). pose proof (loaded_at _ _ _ l Hload Hl) as Hat. specialize (Hv l Hl). rewrite Hk, Hs in Hv.
  unfold from_config_values, validate_config_values in Hf. rewrite Hv in Hf. apply res_bind_inv in Hf as ([] & Hm & _).
  unfold require_config_field in Hm. case_bool_decide as Hsome; [|done]. destruct Hsome as (m & Hm').
  unfold from_row, apply_value in Hat. rewrite Hk, Hs, lookup_singleton_eq, Ht in Hat. cbn [parse_value] in Hat. rewrite Hm' in Hat. cbn in Hat.
  rewrite lookup_insert_eq, Hp in Hat. unfold mode_of. rewrite Hat. split; [done|]. by apply mode_str_inv.
Qed.

Lemma mode_row_kept `{F : FloatText} env body rows secrets : prepare_update env body = Ok (rows, secrets) -> "enforce_mode" ∉ map fst rows.
Proof.
  intros Hp Hin. apply (row_keys _ _ _ _ _ Hp) in Hin.
  assert (bool_decide ("enforce_mode" ∈ flat_map section_keys ALL_SECTIONS) = false /\ bool_decide ("enforce_mode" ∈ SECRET_KEYS) = false /\
    bool_decide ("enforce_mode" ∈ map snd pipeline_keys) = false) as (H1 & H2 & H3) by by vm_compute.
  apply bool_decide_eq_false in H1, H2, H3. tauto.
Qed.

(** ** One mode *)

(** The mode a request has set, by its answer. *)
Definition mode_set (x : SysRequest * (Z * SysBody)) : option EnforceMode :=
  match x with (SetEnforceMode _, (200, BodyMode m)) => Some m | _ => None end.

Record mode_agrees (w : SystemWorld) : Prop := {
  agrees_row : cw_settings (sy_config w) !! "enforce_mode" = Some (mode_as_str (get_mode w));
  agrees_level : sy_level w = enforce_mode_to_u8 (get_mode w) }.

Lemma level_enforces w : mode_agrees w -> is_enforce_mode w = true <-> get_mode w = Enforce.
Proof. intros [_ Hl]. unfold is_enforce_mode. rewrite Hl. by destruct (get_mode w). Qed.

Section OneMode.
Context `{H : Sha256} `{F : FloatText} (dbg : bool).

Lemma start_agrees t secrets cfg audit : load_app_config dbg (fun _ => true) (fun key => t !! key) = Ok cfg -> is_Some (t !! "enforce_mode") ->
  mode_agrees (system_start t secrets cfg audit).
Proof.
  intros Hload (s & Hs). destruct (loaded_mode _ _ _ _ Hload Hs) as [_ ->]. by split.
Qed.

(** What a request does to the mode and to the audit log. *)
Definition mode_effect (w : SystemWorld) (m : option EnforceMode) (w' : SystemWorld) : Prop :=
  mode_agrees w' /\ get_mode w' = default (get_mode w) m /\
  exists news, rows (sy_audit w') = (rows (sy_audit w) ++ news)%list /\ map detail news = map mode_detail (option_list m).

Lemma no_effect w w' : mode_agrees w -> sy_config w' = sy_config w -> sy_level w' = sy_level w -> sy_audit w' = sy_audit w -> mode_effect w None w'.
Proof.
  intros [Hr Hl] Hc Hlev Ha. assert (get_mode w' = get_mode w) as Hm by (unfold get_mode; by rewrite Hc).
  split; [split; [by rewrite Hc, Hm|by rewrite Hlev, Hm]|]. split; [done|]. exists []. by rewrite Ha, app_nil_r.
Qed.

Lemma channel_effect w m w' c : mode_effect w m w' -> mode_effect w m (with_channel c w').
Proof. intros ([Hr Hl] & Hm & Hnews). exact (conj (Build_mode_agrees (with_channel c w') Hr Hl) (conj Hm Hnews)). Qed.

Lemma change_mode_effect env m w : mode_agrees w -> se_audit env = true ->
  let '(r, w') := change_mode env m w in mode_effect w (match r with Ok _ => Some m | Err _ => None end) w'.
Proof.
  intros Hw Ha. unfold change_mode, change_row, set_config_value. destruct (se_row env); [|by apply no_effect].
  unfold change_audit, insert_audit_log. rewrite Ha. split; [split|split].
  - cbn. rewrite lookup_insert_eq. unfold get_mode, mode_of. cbn. by rewrite lookup_insert_eq.
  - unfold get_mode, mode_of. cbn. by rewrite lookup_insert_eq.
  - unfold get_mode, mode_of. cbn. by rewrite lookup_insert_eq.
  - eexists. split; [done|]. done.
Qed.

Lemma update_effect env body w : mode_agrees w -> mode_effect w None (update_system_config dbg env body w).2.
Proof.
  intros Hw. unfold update_system_config. destruct (update_config dbg (se_config env) body (sy_config w)) as [[updated|e] c] eqn:Hu.
  - assert (mode_effect w None (with_config c w)) as Heff.
    { destruct (update_inv _ _ _ _ _ _ Hu) as (rows & secrets & cfg & Hp & _ & _ & -> & Hload). destruct Hw as [Hr Hl].
      assert (insert_or_replace rows (cw_settings (sy_config w)) !! "enforce_mode" = Some (mode_as_str (get_mode w))) as Hrow.
      { rewrite insert_or_replace_miss; [done|]. by eapply mode_row_kept. }
      destruct (loaded_mode _ _ _ _ Hload Hrow) as [Hcfg Heq].
      assert (get_mode (with_config (mk_cworld (insert_or_replace rows (cw_settings (sy_config w))) (insert_or_replace secrets (cw_secrets (sy_config w))) cfg) w) =
        get_mode w) as Hm by exact (eq_sym (mode_as_str_inj _ _ Heq)).
      split; [split; [rewrite Hm; exact Hrow|rewrite Hm; exact Hl]|]. split; [exact Hm|]. exists []. rewrite app_nil_r. exact (conj eq_refl eq_refl). }
    destruct (updated_keys_need_http_restart updated); [|done]. unfold trigger_mode. destruct (trigger _ _) as [ok ch]. by apply channel_effect.
  - cbn. rewrite (update_refused _ _ _ _ _ _ Hu). by apply no_effect.
Qed.

Lemma request_effect env req w : mode_agrees w -> se_audit env = true ->
  let '(a, w') := system_handle dbg env req w in mode_effect w (mode_set (req, a)) w'.
Proof.
  intros Hw Ha. assert (forall claims mode, let '(a, w') := end_run mode claims w in mode_effect w None w') as Hend.
  { intros claims mode. unfold end_run. destruct (existsb _ _); [|by apply no_effect]. cbn [negb]. unfold trigger_mode. destruct (trigger _ _) as [ok ch]. by apply no_effect. }
  destruct req as [|mode| |body|claims|claims]; cbn [system_handle].
  - by apply no_effect.
  - unfold set_enforce_mode. destruct (mode_from_str mode) as [m|]; [|by apply no_effect]. pose proof (change_mode_effect env m w Hw Ha) as Hc.
    by destruct (change_mode env m w) as [[|] w'].
  - by apply no_effect.
  - pose proof (update_effect env body w Hw) as Hu. destruct (update_system_config dbg env body w) as [a w']. exact Hu.
  - specialize (Hend claims DoShutdown). unfold shutdown. by destruct (end_run _ _ _).
  - specialize (Hend claims DoRestart). unfold restart. by destruct (end_run _ _ _).
Qed.

Lemma requests_effect reqs w : mode_agrees w -> Forall (fun r => se_audit r.1 = true) reqs ->
  let '(answers, w') := system_requests dbg reqs w in
  let set := omap mode_set (zip (map snd reqs) answers) in
  mode_agrees w' /\ get_mode w' = default (get_mode w) (last set) /\
  exists news, rows (sy_audit w') = (rows (sy_audit w) ++ news)%list /\ map detail news = map mode_detail set.
Proof.
  revert w. induction reqs as [|[env req] reqs IH]; intros w Hw Ha; [split; [done|]; split; [done|]; exists []; by rewrite app_nil_r|].
  apply Forall_cons in Ha as [Ha Hall]. cbn [system_requests]. pose proof (request_effect env req w Hw Ha) as He.
  destruct (system_handle dbg env req w) as [a w1]. destruct He as (Hw1 & Hm1 & news1 & Hr1 & Hd1). specialize (IH w1 Hw1 Hall).
  destruct (system_requests dbg reqs w1) as [answers w2]. cbv zeta in *. destruct IH as (Hw2 & Hm2 & news2 & Hr2 & Hd2). split; [done|].
  cbn [map zip zip_with omap list_omap snd]. split.
  - rewrite Hm2, Hm1. destruct (mode_set (req, a)) as [m|]; [|done]. cbn [default option_list]. rewrite last_cons. by destruct (last _).
  - exists (news1 ++ news2)%list. rewrite Hr2, Hr1, app_assoc. split; [done|]. rewrite map_app, Hd1, Hd2. by destruct (mode_set (req, a)).
Qed.

(** C33: From a start on, whatever requests the system endpoints serve one after the other
    and whatever fails but the audit log: the mode shown is the last one set, the response
    engine acts exactly when it is the mode to enforce, the program goes on in that mode
    when it is started again, and every change has its row in the audit log. *)
Theorem mode_stays_one t secrets cfg audit reqs : load_app_config dbg (fun _ => true) (fun key => t !! key) = Ok cfg -> is_Some (t !! "enforce_mode") ->
  Forall (fun r => se_audit r.1 = true) reqs ->
  let '(answers, w) := system_requests dbg reqs (system_start t secrets cfg audit) in
  let set := omap mode_set (zip (map snd reqs) answers) in
  get_mode w = default (mode_of cfg) (last set) /\ (is_enforce_mode w = true <-> get_mode w = Enforce) /\
  (forall cfg', load_app_config dbg (fun _ => true) (fun key => cw_settings (sy_config w) !! key) = Ok cfg' ->
    mode_of cfg' = get_mode w /\ is_enforce_mode (system_start (cw_settings (sy_config w)) (cw_secrets (sy_config w)) cfg' (sy_audit w)) = is_enforce_mode w) /\
  exists news, rows (sy_audit w) = (rows audit ++ news)%list /\ map detail news = map mode_detail set.
Proof.
  intros Hload Hrow Hall. pose proof (requests_effect reqs _ (start_agrees t secrets cfg audit Hload Hrow) Hall) as He.
  destruct (system_requests dbg reqs _) as [answers w]. cbv zeta in *. destruct He as (Hw & Hm & Hnews).
  split; [exact Hm|]. split; [by apply level_enforces|]. split; [|exact Hnews].
  intros cfg' Hload'. destruct (loaded_mode _ _ _ _ Hload' (agrees_row _ Hw)) as [_ Hs].
  pose proof (eq_sym (mode_as_str_inj _ _ Hs)) as Heq.
  split; [done|]. unfold is_enforce_mode. rewrite (agrees_level _ Hw). cbn [sy_level system_start]. by rewrite Heq.
Qed.
End OneMode.

(** ** How a run ends *)

Section Ending.
Context `{H : Sha256} `{F : FloatText} (dbg : bool).

(** A request is told that it ends the run exactly when its message is in the channel. *)
Definition sent (ms : list ShutdownMode) (c c' : ShutdownChannel) : Prop :=
  match ms with
  | [] => c' = c
  | [m] => ch_open c = true /\ ch_buffer c = None /\ c' = mk_channel (Some m) true
  | _ => False
  end.
Lemma trigger_sent m c : let '(ok, c') := trigger m c in sent (if ok then [m] else []) c c'.
Proof. unfold trigger. destruct c as [[] []]; cbn; done. Qed.

Lemma request_sent env req w : let '(a, w') := system_handle dbg env req w in sent (asked req a) (sy_channel w) (sy_channel w').
Proof.
  destruct req as [|mode| |body|claims|claims]; cbn [system_handle].
  - done.
  - unfold set_enforce_mode. destruct (mode_from_str mode) as [m|]; [|done]. unfold change_mode, change_row. destruct (set_config_value _ _ _ _); [|done].
    unfold change_audit. by destruct (insert_audit_log _ _ _ _ _ _) as [[] ?].
  - done.
  - unfold update_system_config. destruct (update_config _ _ _ _) as [[updated|] c]; [|done].
    destruct (updated_keys_need_http_restart updated); [|done]. unfold trigger_mode. cbn [with_config sy_channel].
    pose proof (trigger_sent DoRestart (sy_channel w)) as Ht. by destruct (trigger DoRestart (sy_channel w)) as [[] ch].
  - unfold shutdown, end_run, trigger_mode. destruct (existsb _ _); [|done]. cbn [negb].
    pose proof (trigger_sent DoShutdown (sy_channel w)) as Ht. by destruct (trigger DoShutdown (sy_channel w)) as [[] ch].
  - unfold restart, end_run, trigger_mode. destruct (existsb _ _); [|done]. cbn [negb].
    pose proof (trigger_sent DoRestart (sy_channel w)) as Ht. by destruct (trigger DoRestart (sy_channel w)) as [[] ch].
Qed.

(** What was asked for and is not yet received, with a run that goes on. *)
Definition waiting_for (ms : list ShutdownMode) (r : SystemRun) : Prop :=
  match rn_end r with
  | None => ch_open (sy_channel (rn_world r)) = true /\ ms = option_list (ch_buffer (sy_channel (rn_world r)))
  | Some m => head ms = Some m
  end.
Lemma run_step_waiting e r ms : e <> Interrupt -> waiting_for ms r ->
  let '(a, r') := run_step dbg e r in waiting_for (ms ++ match e, a with Serve _ req, Some a => asked req a | _, _ => [] end) r'.
Proof.
  unfold waiting_for. intros Hni. destruct e as [env req| | |]; [| done | |]; cbn [run_step].
  - pose proof (request_sent env req (rn_world r)) as Hs. destruct (system_handle dbg env req (rn_world r)) as [a w']. cbn [rn_end rn_world].
    destruct (rn_end r) as [m|].
    + intros Hh. by destruct ms.
    + intros [Ho ->]. destruct (asked req a) as [|m [|]]; [| |done]; cbn [sent] in Hs.
      * rewrite Hs, app_nil_r. done.
      * destruct Hs as (_ & -> & ->). done.
  - intros Hw. rewrite app_nil_r. destruct (rn_end r) as [m|] eqn:He; [by rewrite He|]. destruct Hw as [Ho ->].
    destruct (ch_buffer _) eqn:Hb; cbn [rn_end]; [done|]. by rewrite He, Hb.
  - intros Hw. rewrite app_nil_r. destruct (rn_end r) as [m|] eqn:He; cbn [rn_end]; [done|by rewrite He].
Qed.

(** A run that is not interrupted ends the way the first request asked that was told it
    would, whatever arrives later or is refused. *)
Lemma run_ends_as_first_asked evs w : Interrupt ∉ evs -> sy_channel w = mk_channel None true ->
  let '(ms, r) := run_all dbg evs (mk_run w None) in forall m, rn_end r = Some m -> head ms = Some m.
Proof.
  intros Hn Hc. assert (forall ms r, Interrupt ∉ evs -> waiting_for ms r -> let '(ms', r') := run_all dbg evs r in waiting_for (ms ++ ms') r') as Hall.
  { clear. induction evs as [|e evs IH]; intros ms r Hn Hw; [cbn; by rewrite app_nil_r|]. apply not_elem_of_cons in Hn as [He Hn]. cbn [run_all].
    pose proof (run_step_waiting e r ms (fun H => He (eq_sym H)) Hw) as Hs. destruct (run_step dbg e r) as [a r1]. specialize (IH _ _ Hn Hs).
    destruct (run_all dbg evs r1) as [ms' r2]. by rewrite <- app_assoc in IH. }
  specialize (Hall [] (mk_run w None) Hn). destruct (run_all dbg evs _) as [ms r]. intros m Hm.
  assert (waiting_for ms r) as Hw by (apply Hall; unfold waiting_for; cbn; by rewrite Hc). unfold waiting_for in Hw. by rewrite Hm in Hw.
Qed.

(** Only a request of an administrator, or a changed setting of the server, ends a run. *)
Lemma asked_by_administrator env req w : let '(a, w') := system_handle dbg env req w in asked req a <> [] ->
  match req with
  | PostShutdown claims | PostRestart claims => PERMISSION_SYSTEM_ADMIN ∈ cl_permissions claims
  | UpdateConfig body => exists updated c, update_config dbg (se_config env) body (sy_config w) = (Ok updated, c) /\ exists key, key ∈ updated /\ key ∈ HTTP_RELOAD_KEYS
  | _ => False
  end.
Proof.
  destruct req as [|mode| |body|claims|claims]; cbn [system_handle].
  - cbn. congruence.
  - unfold set_enforce_mode. destruct (mode_from_str mode) as [m|]; [|cbn; congruence]. destruct (change_mode _ _ _) as [[] ?]; cbn; congruence.
  - cbn. congruence.
  - unfold update_system_config. destruct (update_config _ _ _ _) as [[updated|] c]; [|cbn; congruence].
    destruct (updated_keys_need_http_restart updated) eqn:Hk; [|cbn; congruence]. unfold trigger_mode. destruct (trigger _ _). intros _.
    exists updated, c. split; [done|]. apply existsb_exists in Hk as (key & Hin & Hkey%bool_decide_eq_true). exists key. split; [by apply list_elem_of_In|done].
  - unfold shutdown, end_run. destruct (existsb _ _) eqn:Hp; [|cbn; congruence]. unfold trigger_mode. destruct (trigger _ _). intros _.
    apply existsb_exists in Hp as (p & Hin & ->%String.eqb_eq). by apply list_elem_of_In.
  - unfold restart, end_run. destruct (existsb _ _) eqn:Hp; [|cbn; congruence]. unfold trigger_mode. destruct (trigger _ _). intros _.
    apply existsb_exists in Hp as (p & Hin & ->%String.eqb_eq). by apply list_elem_of_In.
Qed.
End Ending.

(** A process runs at most once, whatever it is told and whatever fails. *)
Fixpoint runs (ops : list PhaseOp) (p : SystemPhase) : nat :=
  match ops with
  | [] => 0
  | op :: ops => let '(_, body, p) := phase_step op p in (match op with OpRun _ => if body then 1 else 0 | _ => 0 end + runs ops p)%nat
  end.
Lemma runs_once ops p : (runs ops p <= match p with PhaseNew | PhaseReady => 1 | _ => 0 end)%nat.
Proof.
  revert p. induction ops as [|op ops IH]; intros p; [cbn; destruct p; lia|]. cbn [runs].
  destruct (phase_step op p) as [[ok body] p'] eqn:Hs. specialize (IH p'). destruct op as [[]|[]|], p; injection Hs as <- <- <-; cbn in *; lia.
Qed.


(** ** Where the modes part *)

Section Apart.
Context `{H : Sha256}.
#[local] Existing Instance sample_float_text.
Definition all_works : SysEnv := mk_senv working true true "t".
Definition audit_fails : SysEnv := mk_senv working true false "t".
Definition first_world : SystemWorld := system_start (cw_settings seeded) ∅ (defaults false) empty_table.
Definition new_port : Json := one_setting "http" "http_port" (JNumber "9090").

(** A change whose audit row is not written is answered with an error and leaves its row:
    the next update of any setting shows the mode, which the engine does not act on, and
    the next start acts on it. *)
Lemma failed_audit_splits_mode :
  let r := system_requests false [(audit_fails, SetEnforceMode "enforce"); (all_works, GetEnforceMode);
    (all_works, UpdateConfig new_port); (all_works, GetEnforceMode)] first_world in
  let w := r.2 in
  r.1 = [(500, BodyMessage); (200, BodyMode Monitor); (200, BodyUpdated ["http_port"] (Some true)); (200, BodyMode Enforce)] /\
  is_enforce_mode w = false /\
  match load_app_config false (fun _ => true) (fun key => cw_settings (sy_config w) !! key) with
  | Ok cfg => is_enforce_mode (system_start (cw_settings (sy_config w)) (cw_secrets (sy_config w)) cfg (sy_audit w)) = true
  | Err _ => False
  end.
Proof. split; [by vm_compute|]. split; by vm_compute. Qed.

(** Requests are not serialized.  Two changes that cross leave the engine in the mode of
    one and the row in that of the other. *)
Lemma crossing_changes_split_mode :
  let w := (change_row all_works Monitor (change_row all_works Enforce first_world).2).2 in
  let w := change_apply Monitor (change_audit all_works Monitor w).2 in
  let w := change_apply Enforce (change_audit all_works Enforce w).2 in
  is_enforce_mode w = true /\ cw_settings (sy_config w) !! "enforce_mode" = Some "monitor".
Proof. split; by vm_compute. Qed.

(** A change while an update is between its reads and its write: the update puts the old
    mode back into the configuration, and the engine enforces while [monitor] is shown. *)
Lemma crossing_update_hides_mode :
  match check_update false (se_config all_works) [("http_port", "9090")] (sy_config first_world) with
  | Ok cfg =>
      let w := (change_mode all_works Enforce first_world).2 in
      let w := with_config (commit_update (se_config all_works) [("http_port", "9090")] [] cfg (sy_config w)).2 w in
      is_enforce_mode w = true /\ get_mode w = Monitor
  | Err _ => False
  end.
Proof. by vm_compute. Qed.

Definition sample_session : list (SysEnv * SysRequest) :=
  [(all_works, SetEnforceMode "enforce"); (mk_senv working false true "t", SetEnforceMode "monitor"); (all_works, UpdateConfig new_port); (all_works, SetEnforceMode "off")].
End Apart.

Lemma mode_stays_one_witness :
  let r := system_requests (H := checksum) (F := sample_float_text) false sample_session first_world in
  map fst r.1 = [200; 500; 200; 400] /\ get_mode r.2 = Enforce.
Proof.
  assert (load_app_config false (fun _ => true) (fun key => cw_settings seeded !! key) = Ok (defaults false)) as Hload by exact (proj2 (seeded_table_loads_defaults false)).
  assert (is_Some (cw_settings seeded !! "enforce_mode")) as Hrow by (vm_compute; eexists; reflexivity).
  assert (Forall (fun r => se_audit r.1 = true) sample_session) as Hall by (repeat (apply Forall_cons; split; [reflexivity|]); apply Forall_nil; exact I).
  pose proof (mode_stays_one (H := checksum) (F := sample_float_text) false (cw_settings seeded) ∅ (defaults false) empty_table sample_session Hload Hrow Hall) as Hp.
  split; [by vm_compute|].
  unfold first_world. revert Hp. destruct (system_requests false sample_session _) as [answers w] eqn:E. cbv zeta. intros [Hm _]. cbn [snd]. rewrite Hm.
  change answers with (answers, w).1. rewrite <- E. vm_compute. reflexivity.
Defined.
