(* ===== verification/DropMonitor.v ===== *)
(** * Counting drops

    What becomes of the kernel's drop events in user space (adapter/ebpf/drop_monitor.rs):
    the consumer that empties the ring buffer, the counters of reasons, and the messages
    for subscribers.  The kernel programs are those of [Xdp]; the channel to subscribers is
    the runtime's, a monitor has the number of them. *)

From Stdlib Require Import ZArith Lia List Ascii String.
From stdpp Require Import base list gmap strings.
From S2P Require Import Prelude Abi Parsing Xdp RStr IpAddr FlowTracker Inference.

Local Open Scope string_scope.
Local Open Scope Z_scope.

(** ** Events as bytes *)

(** [DropEvent] in memory: [repr(C)], with one byte of padding at its end. *)
Definition drop_event_bytes (e : DropEvent) : bytes :=
  (to_ne_bytes 8 (de_timestamp_ns e) ++ de_src_ip e ++ de_dst_ip e ++ to_ne_bytes 2 (de_src_port e) ++ to_ne_bytes 2 (de_dst_port e)
   ++ to_ne_bytes 1 (de_protocol e) ++ to_ne_bytes 1 (de_reason e) ++ to_ne_bytes 1 (de_ip_version e) ++ [0])%list.
Definition DROP_EVENT_SIZE : nat := 48.
Definition field (bs : bytes) (start len : nat) : bytes := take len (drop start bs).
Definition raw_drop_event_from_bytes (bs : bytes) : option DropEvent :=
  if (length bs <? DROP_EVENT_SIZE)%nat then None
  else Some (mk_DropEvent (from_ne_bytes (field bs 0 8)) (field bs 8 16) (field bs 24 16) (from_ne_bytes (field bs 40 2)) (from_ne_bytes (field bs 42 2))
               (from_ne_bytes (field bs 44 1)) (from_ne_bytes (field bs 45 1)) (from_ne_bytes (field bs 46 1))).

(** ** Counters *)

(** [DropCountersAtomic] *)
Record DropCountersAtomic : Type := mk_counters {
  acl_blacklist : Z; rate_limit_pkt : Z; rate_limit_syn : Z; rate_limit_udp : Z; rate_limit_dns : Z; protocol_filter : Z; dns_blacklist : Z; geo_block : Z }.
(** [DropCounters]: a copy with the sum. *)
Record DropCounters : Type := mk_drop_counters { dc_counters : DropCountersAtomic; dc_total : Z }.
Definition zero_counters : DropCountersAtomic := mk_counters 0 0 0 0 0 0 0 0.
Definition counter_values (c : DropCountersAtomic) : list Z :=
  [acl_blacklist c; rate_limit_pkt c; rate_limit_syn c; rate_limit_udp c; rate_limit_dns c; protocol_filter c; dns_blacklist c; geo_block c].
Definition snapshot (c : DropCountersAtomic) : DropCounters :=
  mk_drop_counters c (fold_left (wrapping_add 64) (counter_values c) 0).

(** [bucket_for]: which counter a reason has. *)
Inductive Bucket : Type := BAcl | BPkt | BSyn | BUdp | BDns | BFilter | BBlacklist | BGeo.
Definition bucket_for (reason : Z) : option Bucket :=
  if reason =? DROP_REASON_ACL_BLACKLIST then Some BAcl
  else if reason =? DROP_REASON_RATE_LIMIT_PKT then Some BPkt
  else if reason =? DROP_REASON_RATE_LIMIT_SYN then Some BSyn
  else if reason =? DROP_REASON_RATE_LIMIT_UDP then Some BUdp
  else if reason =? DROP_REASON_RATE_LIMIT_DNS then Some BDns
  else if reason =? DROP_REASON_PROTOCOL_FILTER then Some BFilter
  else if reason =? DROP_REASON_DNS_BLACKLIST then Some BBlacklist
  else if reason =? DROP_REASON_GEO_BLOCK then Some BGeo
  else None.
Definition counter_of (b : Bucket) (c : DropCountersAtomic) : Z :=
  match b with
  | BAcl => acl_blacklist c | BPkt => rate_limit_pkt c | BSyn => rate_limit_syn c | BUdp => rate_limit_udp c | BDns => rate_limit_dns c
  | BFilter => protocol_filter c | BBlacklist => dns_blacklist c | BGeo => geo_block c
  end.
(** [fetch_add(1)] *)
Definition fetch_add (b : Bucket) (c : DropCountersAtomic) : DropCountersAtomic :=
  let up b' x := match b, b' with
                 | BAcl, BAcl | BPkt, BPkt | BSyn, BSyn | BUdp, BUdp | BDns, BDns | BFilter, BFilter | BBlacklist, BBlacklist | BGeo, BGeo => wrapping_add 64 x 1
                 | _, _ => x
                 end in
  mk_counters (up BAcl (acl_blacklist c)) (up BPkt (rate_limit_pkt c)) (up BSyn (rate_limit_syn c)) (up BUdp (rate_limit_udp c))
    (up BDns (rate_limit_dns c)) (up BFilter (protocol_filter c)) (up BBlacklist (dns_blacklist c)) (up BGeo (geo_block c)).
Definition record_drop_count (reason : Z) (c : DropCountersAtomic) : DropCountersAtomic :=
  match bucket_for reason with Some b => fetch_add b c | None => c end.

(** ** Messages *)

Record DropEventMessage : Type := mk_message {
  dm_timestamp_ns : Z; dm_src_ip : string; dm_dst_ip : string; dm_src_port : Z; dm_dst_port : Z; dm_protocol : Z; dm_reason : string; dm_ip_version : FlowTracker.IpVersion }.
Definition reason_to_str (reason : Z) : string :=
  match bucket_for reason with
  | Some BAcl => "acl_blacklist" | Some BPkt => "rate_limit_packet" | Some BSyn => "rate_limit_syn" | Some BUdp => "rate_limit_udp"
  | Some BDns => "rate_limit_dns" | Some BFilter => "protocol_filter" | Some BBlacklist => "dns_blacklist" | Some BGeo => "geo_block"
  | None => "unknown"
  end.
Definition version_from_u8 (value : Z) : option FlowTracker.IpVersion :=
  if value =? 4 then Some FlowTracker.V4 else if value =? 6 then Some FlowTracker.V6 else None.
Definition format_ips (raw : DropEvent) (v : FlowTracker.IpVersion) : string * string :=
  match v with
  | FlowTracker.V4 => (join "." (map print_dec (take 4 (de_src_ip raw))), join "." (map print_dec (take 4 (de_dst_ip raw))))
  | FlowTracker.V6 => (ip_bytes_to_string FlowTracker.V6 (de_src_ip raw), ip_bytes_to_string FlowTracker.V6 (de_dst_ip raw))
  end.

(** The counters, and what was sent to subscribers so far. *)
Record DropMonitor : Type := mk_monitor { counters : DropCountersAtomic; broadcast : list DropEventMessage }.
Definition new_monitor : DropMonitor := mk_monitor zero_counters [].
Definition record_drop_event (receiver_count : nat) (raw : DropEvent) (m : DropMonitor) : DropMonitor :=
  let counters := record_drop_count (de_reason raw) (counters m) in
  match version_from_u8 (de_ip_version raw) with
  | None => mk_monitor counters (broadcast m)
  | Some v =>
      if (receiver_count =? 0)%nat then mk_monitor counters (broadcast m)
      else
        let '(src, dst) := format_ips raw v in
        mk_monitor counters (broadcast m ++ [mk_message (de_timestamp_ns raw) src dst (de_src_port raw) (de_dst_port raw) (de_protocol raw)
                                               (reason_to_str (de_reason raw)) v])%list
  end.
(** One tick of [start_consumer]: all items of the ring. *)
Definition consume (receiver_count : nat) (items : list bytes) (m : DropMonitor) : DropMonitor :=
  fold_left (fun m item => match raw_drop_event_from_bytes item with Some e => record_drop_event receiver_count e m | None => m end) items m.

(** ** Kernel and monitor together *)

Section Watch.
Context `{NT : NetworkTypes} `{LI : LruInsert}.

Record Watch : Type := mk_watch { wa_kernel : kstate; wa_monitor : DropMonitor }.
(** The maps may change between packets. *)
Inductive WatchEvent : Type := Packet (M : kmaps) (ctx : xdp_ctx) | Tick (receiver_count : nat).
(** What became of a packet: the maps and the kernel's state it met, and the verdict. *)
Record Passage : Type := mk_passage { pa_maps : kmaps; pa_ctx : xdp_ctx; pa_state : kstate; pa_verdict : verdict }.
Definition watch_step (e : WatchEvent) (w : Watch) : list Passage * Watch :=
  match e with
  | Packet M ctx =>
      let '(v, st) := ingress M ctx (wa_kernel w) in ([mk_passage M ctx (wa_kernel w) v], mk_watch st (wa_monitor w))
  | Tick n =>
      let st := wa_kernel w in
      ([], mk_watch (set_drops st []) (consume n (map drop_event_bytes (DROP_EVENTS st)) (wa_monitor w)))
  end.
Fixpoint watch (evs : list WatchEvent) (w : Watch) : list Passage * Watch :=
  match evs with
  | [] => ([], w)
  | e :: evs => let '(vs, w) := watch_step e w in let '(vs', w) := watch evs w in ((vs ++ vs')%list, w)
  end.
End Watch.

(** ** Events survive the ring buffer *)

Record event_ok (e : DropEvent) : Prop := {
  eo_src : length (de_src_ip e) = 16%nat; eo_dst : length (de_dst_ip e) = 16%nat; eo_sport : in_width 16 (de_src_port e);
  eo_dport : in_width 16 (de_dst_port e); eo_protocol : in_width 8 (de_protocol e); eo_reason : in_width 8 (de_reason e); eo_version : in_width 8 (de_ip_version e) }.

Lemma field_skip (a b : bytes) start len : (length a <= start)%nat -> field (a ++ b) start len = field b (start - length a) len.
Proof. intros Hl. unfold field. by rewrite drop_app_ge. Qed.
Lemma field_here (a b : bytes) len : length a = len -> field (a ++ b) 0 len = a.
Proof. intros <-. unfold field. rewrite drop_0. apply take_app_length. Qed.

Lemma drop_event_round_trip (e : DropEvent) : event_ok e ->
  raw_drop_event_from_bytes (drop_event_bytes e) =
    Some (mk_DropEvent (from_ne_bytes (to_ne_bytes 8 (de_timestamp_ns e))) (de_src_ip e) (de_dst_ip e) (de_src_port e) (de_dst_port e) (de_protocol e) (de_reason e) (de_ip_version e)).
Proof.
  intros [Hs Hd Hsp Hdp Hp Hr Hv]. unfold raw_drop_event_from_bytes, drop_event_bytes.
  assert (forall n x, length (to_ne_bytes n x) = n) as Hn by (intros; apply to_ne_bytes_length).
  assert (forall a b c d f g h i, length a = 8%nat -> length b = 16%nat -> length c = 16%nat -> length d = 2%nat -> length f = 2%nat -> length g = 1%nat ->
    length h = 1%nat -> length i = 1%nat -> let bs := (a ++ b ++ c ++ d ++ f ++ g ++ h ++ i ++ [0])%list in
    length bs = 48%nat /\ field bs 0 8 = a /\ field bs 8 16 = b /\ field bs 24 16 = c /\ field bs 40 2 = d /\ field bs 42 2 = f /\ field bs 44 1 = g /\
    field bs 45 1 = h /\ field bs 46 1 = i) as Hlay.
  { intros a b c d f g h i Ha Hb Hc Hd' Hf Hg Hh Hi bs. unfold bs. rewrite !length_app, Ha, Hb, Hc, Hd', Hf, Hg, Hh, Hi. split; [done|].
    repeat split; repeat (rewrite field_skip by lia); repeat match goal with |- context [field _ (?x - ?y) _] => rewrite ?Ha, ?Hb, ?Hc, ?Hd', ?Hf, ?Hg, ?Hh, ?Hi end;
      cbn [Nat.sub]; by apply field_here. }
  destruct (Hlay _ _ _ _ _ _ _ _ (Hn 8%nat (de_timestamp_ns e)) Hs Hd (Hn 2%nat (de_src_port e)) (Hn 2%nat (de_dst_port e)) (Hn 1%nat (de_protocol e))
    (Hn 1%nat (de_reason e)) (Hn 1%nat (de_ip_version e))) as (Hl & -> & -> & -> & -> & -> & -> & -> & ->).
  rewrite Hl. change (48 <? DROP_EVENT_SIZE)%nat with false. cbn iota. unfold in_width, pow2 in *.
  change (2 ^ 16) with (256 ^ Z.of_nat 2) in *. change (2 ^ 8) with (256 ^ Z.of_nat 1) in *.
  by rewrite (from_to_ne_bytes 2 (de_src_port e) Hsp), (from_to_ne_bytes 2 (de_dst_port e) Hdp), (from_to_ne_bytes 1 (de_protocol e) Hp),
    (from_to_ne_bytes 1 (de_reason e) Hr), (from_to_ne_bytes 1 (de_ip_version e) Hv).
Qed.

(** ** Counters count *)

#[export] Instance Bucket_eq_dec : EqDecision Bucket.
Proof. solve_decision. Defined.

Definition count (b : Bucket) (reasons : list Z) : Z := Z.of_nat (length (filter (fun r => bucket_for r = Some b) reasons)).

Lemma count_app b k l : count b (k ++ l) = count b k + count b l.
Proof. unfold count. rewrite filter_app, length_app. lia. Qed.
Lemma count_one b r : count b [r] = if decide (bucket_for r = Some b) then 1 else 0.
Proof. unfold count. rewrite filter_cons. by destruct (decide _). Qed.
Lemma count_bound b l : 0 <= count b l <= Z.of_nat (length l).
Proof. unfold count. pose proof (filter_length_le (fun r => bucket_for r = Some b) l). lia. Qed.

Lemma fetch_add_at b b' c : counter_of b' (fetch_add b c) = if decide (b = b') then wrapping_add 64 (counter_of b' c) 1 else counter_of b' c.
Proof. by destruct b, b'. Qed.

Definition counts (reasons : list Z) (c : DropCountersAtomic) : Prop := forall b, counter_of b c = count b reasons.

Lemma record_counts reasons r c : counts reasons c -> Z.of_nat (length reasons) + 1 < pow2 64 -> counts (reasons ++ [r]) (record_drop_count r c).
Proof.
  intros Hc Hl b. rewrite count_app, count_one, <- (Hc b). unfold record_drop_count. destruct (bucket_for r) as [b'|] eqn:Hb; [|by rewrite decide_False by done; lia].
  rewrite fetch_add_at. destruct (decide (b' = b)) as [->|Hne].
  - rewrite decide_True by done. unfold wrapping_add. apply wrap_small. pose proof (count_bound b reasons) as Hcb. rewrite <- (Hc b) in Hcb. unfold in_width. lia.
  - rewrite decide_False by congruence. lia.
Qed.

(** What the consumer reads is what was reported. *)
Lemma consume_counts n D m reasons : Forall event_ok D -> counts reasons (counters m) -> Z.of_nat (length reasons + length D) < pow2 64 ->
  counts (reasons ++ map de_reason D) (counters (consume n (map drop_event_bytes D) m)).
Proof.
  intros HD. revert m reasons. induction HD as [|e D He HD IH]; intros m reasons Hc Hl; [by rewrite app_nil_r|]. cbn [length] in Hl.
  unfold consume in *. cbn [map fold_left]. rewrite (drop_event_round_trip e He). change (de_reason e :: map de_reason D) with ([de_reason e] ++ map de_reason D)%list.
  rewrite app_assoc. apply IH; [|rewrite length_app; cbn [length]; lia].
  assert (counts (reasons ++ [de_reason e]) (record_drop_count (de_reason e) (counters m))) as Hr by (apply record_counts; [done|lia]).
  unfold record_drop_event. cbn [de_reason de_ip_version]. repeat case_match; exact Hr.
Qed.

(** Reasons the kernel gives have a counter, and the sum is over all. *)
Lemma total_counts reasons c : counts reasons c -> Forall (fun r => is_Some (bucket_for r)) reasons -> Z.of_nat (length reasons) < pow2 64 ->
  dc_total (snapshot c) = Z.of_nat (length reasons).
Proof.
  intros Hc Hb Hl. assert (count BAcl reasons + count BPkt reasons + count BSyn reasons + count BUdp reasons + count BDns reasons + count BFilter reasons +
    count BBlacklist reasons + count BGeo reasons = Z.of_nat (length reasons)) as Hsum.
  { clear -Hb. induction Hb as [|r reasons [b Hr] Hb IH]; [done|]. change (r :: reasons) with ([r] ++ reasons)%list. rewrite !count_app, length_app, !count_one, Hr.
    cbn [length]. destruct b; cbn [decide]; repeat (first [rewrite decide_True by done|rewrite decide_False by done]); lia. }
  cbn [snapshot dc_total counter_values fold_left]. pose proof (Hc BAcl) as H1. pose proof (Hc BPkt) as H2. pose proof (Hc BSyn) as H3. pose proof (Hc BUdp) as H4.
  pose proof (Hc BDns) as H5. pose proof (Hc BFilter) as H6. pose proof (Hc BBlacklist) as H7. pose proof (Hc BGeo) as H8. cbn [counter_of] in *.
  rewrite H1, H2, H3, H4, H5, H6, H7, H8. unfold wrapping_add. pose proof (fun b => count_bound b reasons) as Hn.
  pose proof (Hn BAcl). pose proof (Hn BPkt). pose proof (Hn BSyn). pose proof (Hn BUdp). pose proof (Hn BDns). pose proof (Hn BFilter). pose proof (Hn BBlacklist). pose proof (Hn BGeo).
  rewrite <- Hsum in *.
  rewrite (wrap_small 64 (0 + count BAcl reasons)) by (unfold in_width; lia).
  rewrite (wrap_small 64 (_ + count BPkt reasons)) by (unfold in_width; lia).
  rewrite (wrap_small 64 (_ + count BSyn reasons)) by (unfold in_width; lia).
  rewrite (wrap_small 64 (_ + count BUdp reasons)) by (unfold in_width; lia).
  rewrite (wrap_small 64 (_ + count BDns reasons)) by (unfold in_width; lia).
  rewrite (wrap_small 64 (_ + count BFilter reasons)) by (unfold in_width; lia).
  rewrite (wrap_small 64 (_ + count BBlacklist reasons)) by (unfold in_width; lia).
  rewrite (wrap_small 64 (_ + count BGeo reasons)) by (unfold in_width; lia).
  lia.
Qed.

(** ** Every reported drop is counted *)

Section Counted.
Context `{NT : NetworkTypes} {NL : NetworkTypesLaws NT} `{LI : LruInsert}.

(** What is known of a dropped packet. If the ring buffer, holding what it held when the
    packet came, had room, there is a report whose reason holds of the packet, in the state
    it was decided in ([n] rate-limit stages after the packet entered); otherwise the report
    is lost. *)
Definition drop_report (o : Passage) (report : option Z) : Prop :=
  ring_has_room (pa_maps o) (DROP_EVENTS (pa_state o)) = bool_decide (is_Some report) /\
  match report with
  | Some reason => exists p n, PARSED_PACKET (entered (pa_maps o) (pa_ctx o) (pa_state o)) = Some p /\
      justified (pa_maps o) (pa_ctx o) (checks (pa_maps o) n p (entered (pa_maps o) (pa_ctx o) (pa_state o))) p reason
  | None => True
  end.
Definition dropped (outs : list Passage) : list Passage := filter (fun o => pa_verdict o = XDP_DROP) outs.
Definition reported (reports : list (option Z)) : list Z := omap id reports.
Lemma reported_le reports : (length (reported reports) <= length reports)%nat.
Proof. induction reports as [|[r|] reports IH]; unfold reported in *; cbn; lia. Qed.
Definition packet_bytes_ok (e : WatchEvent) : Prop := match e with Packet _ ctx => bytes_ok (ctx_data ctx) | Tick _ => True end.

Record watch_ok (reasons : list Z) (w : Watch) : Prop := {
  wo_parsed : exists t, PARSED_PACKET (wa_kernel w) = Some t /\ packet_wf t;
  wo_events : Forall event_ok (DROP_EVENTS (wa_kernel w));
  wo_counts : counts reasons (counters (wa_monitor w)) }.
Definition pending (w : Watch) : list Z := map de_reason (DROP_EVENTS (wa_kernel w)).

Lemma justified_bucket M ctx st p reason : justified M ctx st p reason -> is_Some (bucket_for reason) /\ in_width 8 reason.
Proof. intros []; (split; [vm_compute; eauto|vm_compute; by split]). Qed.

Lemma report_event_ok now p reason : packet_wf p -> in_width 8 reason ->
  event_ok (mk_DropEvent now (src_ip p) (dst_ip p) (src_port p) (dst_port p) (protocol p) reason (ip_version p)).
Proof. intros [] Hr. split; cbn; tauto. Qed.

Lemma packet_counted reasons M ctx w : watch_ok reasons w -> bytes_ok (ctx_data ctx) ->
  let '(outs, w') := watch_step (Packet M ctx) w in
  exists reports, Forall2 drop_report (dropped outs) reports /\ watch_ok reasons w' /\ pending w' = (pending w ++ reported reports)%list /\ (length reports <= 1)%nat.
Proof.
  intros [(t & Hp & Ht) He Hc] Hd. cbn [watch_step]. destruct (ingress_outcome M ctx Hd _ t Hp Ht) as (HD & _ & p & Hwf & Hpe & Hparsed & Hout).
  destruct (ingress M ctx (wa_kernel w)) as [v st]. cbn [fst snd] in *. set (o := mk_passage M ctx (wa_kernel w) v).
  assert (forall reports, DROP_EVENTS st = DROP_EVENTS (wa_kernel w) -> Forall2 drop_report (dropped [o]) reports -> reported reports = [] -> (length reports <= 1)%nat ->
    exists reports, Forall2 drop_report (dropped [o]) reports /\ watch_ok reasons (mk_watch st (wa_monitor w)) /\
      pending (mk_watch st (wa_monitor w)) = (pending w ++ reported reports)%list /\ (length reports <= 1)%nat) as Hquiet.
  { intros reports Hev Hr Hno Hle. exists reports. split; [exact Hr|]. split; [|split; [|exact Hle]].
    - split; cbn; [by exists p|by rewrite Hev|done].
    - unfold pending. cbn. by rewrite Hev, Hno, app_nil_r. }
  assert (v <> XDP_DROP -> dropped [o] = []) as Hother by (intros Hv; unfold dropped; by rewrite filter_cons_False).
  rewrite HD in Hout.
  destruct v as [| |q|]; [apply (Hquiet []); [apply Hout|by rewrite Hother|done|cbn; lia]| |apply (Hquiet []); [apply Hout|by rewrite Hother|done|cbn; lia]|done].
  destruct Hout as (reason & n & Hj & _ & Hlog). unfold logged in Hlog. destruct (ring_has_room M _) eqn:Hroom.
  - destruct Hlog as (now & Hev). exists [Some reason]. destruct (justified_bucket _ _ _ _ _ Hj) as [_ Hw].
    split; [constructor; [split; [done|by exists p, n]|constructor]|].
    split; [|split; [|done]].
    + split; cbn; [by exists p| |done]. rewrite Hev. apply Forall_app. split; [done|]. apply Forall_singleton. by apply report_event_ok.
    + unfold pending. cbn. rewrite Hev, map_app. done.
  - apply (Hquiet [None]); [done| |done|done]. constructor; [by split|constructor].
Qed.

Lemma watch_counted evs reasons w : watch_ok reasons w -> Forall packet_bytes_ok evs ->
  Z.of_nat (length reasons + length (pending w) + length evs) < pow2 64 ->
  let '(outs, w') := watch evs w in
  exists reports reasons', Forall2 drop_report (dropped outs) reports /\ watch_ok reasons' w' /\
    (reasons' ++ pending w' = reasons ++ pending w ++ reported reports)%list.
Proof.
  revert reasons w. induction evs as [|e evs IH]; intros reasons w Hw Hall Hlen.
  { exists [], reasons. split; [constructor|]. by rewrite app_nil_r. }
  apply Forall_cons in Hall as [Hok Hall]. cbn [watch length] in *. destruct e as [M ctx|n].
  - pose proof (packet_counted reasons M ctx w Hw Hok) as Hp. destruct (watch_step (Packet M ctx) w) as [outs1 w1].
    destruct Hp as (reps1 & Hr1 & Hw1 & Hpend & Hle). specialize (IH reasons w1 Hw1 Hall). destruct (watch evs w1) as [outs2 w2].
    destruct IH as (reps2 & reasons' & Hr2 & Hw2 & Heq).
    { rewrite Hpend, length_app. assert (length (reported reps1) <= length reps1)%nat by (apply reported_le). lia. }
    exists (reps1 ++ reps2)%list, reasons'. split; [unfold dropped; rewrite filter_app; by apply Forall2_app|]. split; [done|].
    rewrite Heq, Hpend. unfold reported. rewrite omap_app. by rewrite !app_assoc.
  - cbn [watch_step]. destruct Hw as [Hp He Hc]. set (w1 := mk_watch (set_drops (wa_kernel w) []) (consume n (map drop_event_bytes (DROP_EVENTS (wa_kernel w))) (wa_monitor w))).
    assert (watch_ok (reasons ++ pending w) w1) as Hw1.
    { split; [exact Hp|constructor|]. apply consume_counts; [done|done|]. unfold pending in Hlen. rewrite length_map in Hlen. lia. }
    specialize (IH (reasons ++ pending w)%list w1 Hw1 Hall). destruct (watch evs w1) as [outs2 w2]. destruct IH as (reps & reasons' & Hr & Hw2 & Heq).
    { rewrite length_app. cbn. lia. }
    exists reps, reasons'. split; [done|]. split; [done|]. rewrite Heq. cbn [pending]. by rewrite <- app_assoc.
Qed.

Lemma watch_app evs evs' w : watch (evs ++ evs') w =
  let '(outs, w1) := watch evs w in let '(outs', w2) := watch evs' w1 in ((outs ++ outs')%list, w2).
Proof.
  revert w. induction evs as [|e evs IH]; intros w; cbn [watch app]; [by destruct (watch evs' w)|]. destruct (watch_step e w) as [o1 w1]. rewrite IH.
  destruct (watch evs w1) as [o2 w2]. destruct (watch evs' w2) as [o3 w3]. by rewrite app_assoc.
Qed.
Lemma reported_known outs reports : Forall2 drop_report (dropped outs) reports -> Forall (fun r => is_Some (bucket_for r)) (reported reports).
Proof.
  generalize (dropped outs). intros l. induction 1 as [|o [r|] l reports Hr _ IH]; [constructor| |done].
  constructor; [|done]. destruct Hr as (_ & p & n & _ & Hj). by apply justified_bucket in Hj as [].
Qed.
Lemma reported_length outs reports : Forall2 drop_report (dropped outs) reports -> (length (reported reports) <= length outs)%nat.
Proof.
  intros Hr%Forall2_length. assert (length (reported reports) <= length reports)%nat by (apply reported_le).
  pose proof (filter_length_le (fun o : Passage => pa_verdict o = XDP_DROP) outs) as Hle. unfold dropped in Hr. lia.
Qed.
Lemma watch_length evs w : (length (watch evs w).1 <= length evs)%nat.
Proof.
  revert w. induction evs as [|e evs IH]; intros w; [done|]. cbn [watch]. destruct (watch_step e w) as [o1 w1] eqn:Hs. specialize (IH w1).
  destruct (watch evs w1) as [o2 w2]. cbn in *. rewrite length_app. assert (length o1 <= 1)%nat; [|lia].
  destruct e; cbn in Hs; [destruct (ingress _ _ _)|]; injection Hs as <- <-; cbn; lia.
Qed.

(** C34: Whatever packets arrive over whatever maps, and however the consumer's ticks fall
    between them: after a tick the counter of every reason is the number of packets that
    were dropped and reported for it, the total is the number of reported drops, every
    reason holds of its packet in the state the kernel was in, and the drops without a report
    are exactly those that met a full ring buffer. *)
Theorem drops_are_counted evs n st t : PARSED_PACKET st = Some t -> packet_wf t -> DROP_EVENTS st = [] -> Forall packet_bytes_ok evs ->
  Z.of_nat (length evs) < pow2 64 ->
  let '(outs, w) := watch (evs ++ [Tick n]) (mk_watch st new_monitor) in
  exists reports, Forall2 drop_report (dropped outs) reports /\
    (forall b, counter_of b (counters (wa_monitor w)) = count b (reported reports)) /\
    dc_total (snapshot (counters (wa_monitor w))) = Z.of_nat (length (reported reports)).
Proof.
  intros Hp Ht He Hall Hlen. assert (watch_ok [] (mk_watch st new_monitor)) as Hw by (split; cbn; [by exists t|by rewrite He|by intros []]).
  rewrite watch_app. pose proof (watch_length evs (mk_watch st new_monitor)) as Hmax. pose proof (watch_counted evs [] _ Hw Hall) as H1.
  destruct (watch evs _) as [outs w1]. destruct H1 as (reports & reasons & Hr & Hw1 & Heq).
  { unfold pending. cbn. rewrite He. cbn. lia. }
  unfold pending at 2 in Heq. cbn [wa_kernel] in Heq. rewrite He in Heq. cbn [map app] in Heq. pose proof (reported_length _ _ Hr) as Hle. cbn [fst] in Hmax.
  cbn [watch watch_step app]. rewrite app_nil_r. exists reports. split; [done|].
  assert (counts (reported reports) (counters (consume n (map drop_event_bytes (DROP_EVENTS (wa_kernel w1))) (wa_monitor w1)))) as Hc.
  { rewrite <- Heq. unfold pending. destruct Hw1 as [_ Hev Hc1]. apply consume_counts; [done|done|].
    rewrite <- Heq, length_app in Hle. unfold pending in Hle. rewrite length_map in Hle. lia. }
  split; [exact Hc|]. apply total_counts; [done|by eapply reported_known|lia].
Qed.
End Counted.

(** Two packets of a blacklisted source, the first of them shown to a subscriber. *)
Definition sample_events : list WatchEvent :=
  [Packet sample_maps (mk_ctx (encode_frame sample_frame) 0); Tick 1; Packet sample_maps (mk_ctx (encode_frame sample_frame) 0)].
Lemma drops_are_counted_witness :
  let r := watch (LI := lru_plain) (sample_events ++ [Tick 0]) (mk_watch sample_state new_monitor) in
  acl_blacklist (counters (wa_monitor r.2)) = 2 /\ length (broadcast (wa_monitor r.2)) = 1%nat /\
  exists reports, Forall2 drop_report (dropped r.1) reports /\ Z.of_nat (length (reported reports)) = 2.
Proof.
  intros r. split; [vm_compute; reflexivity|]. split; [vm_compute; reflexivity|].
  assert (Forall packet_bytes_ok sample_events) as Hok
    by (repeat (apply Forall_cons; split; [first [exact I|refine (bool_decide_unpack (Forall (fun b => 0 <= b < 256) _) _); vm_compute; exact I]|]); apply Forall_nil; exact I).
  pose proof (drops_are_counted (LI := lru_plain) sample_events 0 sample_state zeroed_packet eq_refl zeroed_packet_wf eq_refl Hok ltac:(vm_compute; reflexivity)) as Hp.
  assert (dc_total (snapshot (counters (wa_monitor r.2))) = 2) as Htotal by (vm_compute; reflexivity).
  unfold r in *. destruct (watch _ _) as [outs w]. destruct Hp as (reports & Hr & _ & Ht). exists reports. split; [exact Hr|]. rewrite <- Ht. exact Htotal.
Defined.
