(* ===== verification/Statistics.v ===== *)
(** * Flow statistics

    What operators see of the tracked flows (core/common/statistics.rs,
    domain/data_plane/flow_stats.rs, adapter/http/detection/stats.rs): entries, filters,
    the largest flows, summaries, and the cache of pushed payloads.  The trackers are those
    of [FlowTracker]; the partial selection of the standard library is a class with its
    documented law, the order in which a tracker's cache iterates an argument. *)

From Stdlib Require Import ZArith Lia List Sorted String.
From stdpp Require Import base list gmap strings sorting.
From S2P Require Import Prelude Abi Parsing RStr FlowTracker Inference.

Local Open Scope Z_scope.

(** ** Entries *)

Record FlowStatsEntry : Type := mk_stats_entry {
  fs_direction : Direction; fs_ip_version : FlowTracker.IpVersion; fs_src_ip : string; fs_dst_ip : string; fs_src_port : Z; fs_dst_port : Z; fs_protocol : Z;
  fwd_packets : Z; bwd_packets : Z; fwd_bytes : Z; bwd_bytes : Z; fs_duration_us : Z; last_seen_us : Z }.
Definition entry_of_flow (flow : FlowData) : FlowStatsEntry :=
  let k := flow_key flow in
  mk_stats_entry (direction flow) (fk_ip_version k) (src_ip_string k) (dst_ip_string k) (fk_src_port k) (fk_dst_port k) (fk_protocol k)
    (Z.of_nat (length (packets (fwd flow)))) (Z.of_nat (length (packets (bwd flow)))) (total_bytes (fwd flow)) (total_bytes (bwd flow))
    (duration_us flow) (last_time_us flow).
Definition total_flow_bytes (flow : FlowStatsEntry) : Z := saturating_add 64 (fwd_bytes flow) (bwd_bytes flow).

(** [FlowStatsLimits] *)
Record FlowStatsLimits : Type := mk_stats_limits { max_snapshot_entries : nat; max_top_n : nat }.
Definition new_limits (snapshot top : nat) : FlowStatsLimits := mk_stats_limits (Nat.max snapshot 1) (Nat.max top 1).
Definition result_limit (requested_top_n : option nat) (l : FlowStatsLimits) : nat :=
  Nat.min (Nat.max (default (max_snapshot_entries l) requested_top_n) 1) (max_top_n l).

Record FlowSubscription : Type := mk_subscription { sub_direction : option Direction; window_secs : option Z; top_n : option nat; interval_secs : option Z }.

Definition flow_window_cutoff_us (now_us window_secs : Z) : Z := saturating_sub now_us (Z.min (umax 64) (window_secs * 1000000)).

(** [select_nth_unstable_by_key]: the elements before the index are not above those after. *)
Class SelectFlows : Type := select_flows : (FlowStatsEntry -> Z) -> nat -> list FlowStatsEntry -> list FlowStatsEntry.
Class SelectFlowsLaws (S : SelectFlows) : Prop := {
  select_flows_perm : forall key n l, (n < length l)%nat -> Permutation (select_flows key n l) l;
  select_flows_least : forall key n l x y, (n < length l)%nat -> x ∈ take n (select_flows key n l) -> y ∈ drop n (select_flows key n l) -> key x <= key y }.
#[export] Instance sorting_flows : SelectFlows := fun key _ l => order_by key l.

Record FlowSummary : Type := mk_flow_summary {
  ingress_bps_v4 : Z; egress_bps_v4 : Z; ingress_bps_v6 : Z; egress_bps_v6 : Z; sum_total_flows : nat; sum_window_secs : Z; timestamp_ms : Z }.
Record FlowPushPayload : Type := mk_payload { summary : FlowSummary; payload_flows : list FlowStatsEntry }.
Record StatsSummary : Type := mk_stats_summary { total_flows : Z; sum_total_bytes : Z; total_packets : Z }.

(** [FlowSnapshotKey] *)
Definition FlowSnapshotKey : Type := option Direction * option Z * option nat.
Definition from_subscription (sub : FlowSubscription) : FlowSnapshotKey := (sub_direction sub, window_secs sub, top_n sub).
#[export] Instance Direction_countable : Countable Direction.
Proof.
  apply (inj_countable' (fun d => match d with Ingress => false | Egress => true end) (fun b : bool => if b then Egress else Ingress)). by intros [].
Defined.
Record CachedFlowPayload : Type := mk_cached { generated_at : Z; json : string }.

(** ** The service *)

Section Statistics.
Context `{Sel : SelectFlows} (order : gmap FlowKey TrackedFlow -> list FlowKey) (limits : FlowStatsLimits).

(** [collect_flows]: the trackers one after the other until there are enough. *)
Fixpoint collect_flows (limit : option nat) (entries : list FlowStatsEntry) (trackers : list FlowTracker) : list FlowStatsEntry :=
  match trackers with
  | [] => entries
  | t :: trackers =>
      let entries := (entries ++ get_flow_stats order entry_of_flow t)%list in
      match limit with
      | Some n => if (n <=? length entries)%nat then take n entries else collect_flows limit entries trackers
      | None => collect_flows limit entries trackers
      end
  end.
Definition get_all_flows (trackers : list FlowTracker) : list FlowStatsEntry := collect_flows (Some (result_limit None limits)) [] trackers.

(** Whether a subscription is about a flow. *)
Definition wanted (sub : FlowSubscription) (now_us : Z) (flow : FlowData) : bool :=
  match sub_direction sub with None => true | Some dir => bool_decide (direction flow = dir) end &&
  match window_secs sub with None => true | Some w => flow_window_cutoff_us now_us w <=? last_time_us flow end.
Definition matching_flows (sub : FlowSubscription) (now_us : Z) (trackers : list FlowTracker) : list FlowStatsEntry :=
  flat_map (get_filtered_flow_stats order (wanted sub now_us) entry_of_flow) trackers.
(** [Reverse(total_flow_bytes(f))] *)
Definition by_bytes (f : FlowStatsEntry) : Z := - total_flow_bytes f.
Definition largest (limit : nat) (flows : list FlowStatsEntry) : list FlowStatsEntry :=
  let flows := if (limit <? length flows)%nat then take limit (select_flows by_bytes limit flows) else flows in
  order_by by_bytes flows.
Definition get_filtered_flows (sub : FlowSubscription) (now_us : Z) (trackers : list FlowTracker) : list FlowStatsEntry :=
  largest (result_limit (top_n sub) limits) (matching_flows sub now_us trackers).
Definition get_top_flows (n : nat) (now_us : Z) (trackers : list FlowTracker) : list FlowStatsEntry :=
  get_filtered_flows (mk_subscription None None (Some n) None) now_us trackers.

(** Bytes by direction and version: a saturating sum. *)
Definition bytes_of (dir : Direction) (v6 : bool) (flows : list FlowStatsEntry) : Z :=
  fold_left (fun acc f => if bool_decide (fs_direction f = dir) && Bool.eqb (is_v6 (fs_ip_version f)) v6 then saturating_add 64 acc (total_flow_bytes f) else acc) flows 0.
Definition get_flow_payload (sub : FlowSubscription) (now_us now_ms : Z) (trackers : list FlowTracker) : FlowPushPayload :=
  let flows := get_filtered_flows sub now_us trackers in
  let window := Z.max (default 60 (window_secs sub)) 1 in
  mk_payload (mk_flow_summary (bytes_of Ingress false flows / window) (bytes_of Egress false flows / window) (bytes_of Ingress true flows / window)
                (bytes_of Egress true flows / window) (length flows) window now_ms) flows.

(** Durations and instants in one unit. *)
Definition get_flow_payload_json (to_json : FlowPushPayload -> option string) (sub : FlowSubscription) (max_cache_age now now_us now_ms : Z)
    (trackers : list FlowTracker) (cache : gmap FlowSnapshotKey CachedFlowPayload) : option string * gmap FlowSnapshotKey CachedFlowPayload :=
  let key := from_subscription sub in
  let fresh :=
    match to_json (get_flow_payload sub now_us now_ms trackers) with
    | None => (None, cache)
    | Some text => (Some text, <[key := mk_cached now text]> cache)
    end in
  match cache !! key with
  | Some cached => if saturating_sub now (generated_at cached) <=? max_cache_age then (Some (json cached), cache) else fresh
  | None => fresh
  end.

(** [+=] of a [u64] wraps in a release build. *)
Definition get_summary (trackers : list FlowTracker) : StatsSummary :=
  fold_left (fun s t => let '(flows, bytes, packets) := summary_stats t in
    mk_stats_summary (total_flows s + flows) (add64 (sum_total_bytes s) bytes) (total_packets s + packets)) trackers (mk_stats_summary 0 0 0).
End Statistics.

(** ** The largest flows *)

#[export] Instance sorting_flows_laws : SelectFlowsLaws sorting_flows.
Proof.
  split; unfold select_flows, sorting_flows.
  - intros key n l _. apply order_by_perm.
  - intros key n l x y _ Hx Hy. pose proof (order_by_is_ordered key l) as Hs. unfold ordered in Hs. rewrite <- (take_drop n (order_by key l)) in Hs.
    by eapply StronglySorted_app_1_elem_of in Hs.
Qed.

Section Largest.
Context `{Sel : SelectFlows} {SelL : SelectFlowsLaws Sel}.

(** The selection is the [limit] largest, the largest first. *)
Record selection (limit : nat) (l flows omitted : list FlowStatsEntry) : Prop := {
  sel_all : flows ++ omitted ≡ₚ l;
  sel_length : length flows = Nat.min limit (length l);
  sel_sorted : StronglySorted (fun f g => total_flow_bytes g <= total_flow_bytes f) flows;
  sel_largest : forall f g, f ∈ flows -> g ∈ omitted -> total_flow_bytes g <= total_flow_bytes f }.

Lemma sorted_by_bytes l : StronglySorted (fun f g => total_flow_bytes g <= total_flow_bytes f) (order_by by_bytes l).
Proof.
  pose proof (order_by_is_ordered by_bytes l) as Hs. unfold ordered in Hs. induction Hs as [|f l' _ IH Hf]; constructor; [done|].
  eapply Forall_impl; [exact Hf|]. unfold by_bytes. cbn. lia.
Qed.

Lemma largest_selects limit l : exists omitted, selection limit l (largest limit l) omitted.
Proof.
  unfold largest. destruct (limit <? length l)%nat eqn:Hl.
  - apply Nat.ltb_lt in Hl. pose proof (select_flows_perm by_bytes limit l Hl) as Hperm. exists (drop limit (select_flows by_bytes limit l)). split.
    + rewrite order_by_perm, take_drop. exact Hperm.
    + rewrite order_by_perm, length_take, Hperm. lia.
    + apply sorted_by_bytes.
    + intros f g Hf%order_by_in Hg. pose proof (select_flows_least by_bytes limit l f g Hl Hf Hg). unfold by_bytes in *. lia.
  - apply Nat.ltb_ge in Hl. exists []. split; [by rewrite app_nil_r, order_by_perm|rewrite order_by_perm; lia|apply sorted_by_bytes|by intros f g _ Hg%elem_of_nil].
Qed.
End Largest.

Section Shown.
Context `{Sel : SelectFlows} {SelL : SelectFlowsLaws Sel} (order : gmap FlowKey TrackedFlow -> list FlowKey) (limits : FlowStatsLimits).
Hypothesis order_all : forall m, order m ≡ₚ map fst (map_to_list m).

(** The entries of the flows a subscription is about. *)
Definition tracked_entries (sub : FlowSubscription) (now_us : Z) (trackers : list FlowTracker) : list FlowStatsEntry :=
  flat_map (fun t => map (fun kv => entry_of_flow (data kv.2)) (filter (fun kv => wanted sub now_us (data kv.2) = true) (map_to_list (active t)))) trackers.

Lemma filtered_entries filter_ (t : FlowTracker) : get_filtered_flow_stats order filter_ entry_of_flow t ≡ₚ
  map (fun kv => entry_of_flow (data kv.2)) (filter (fun kv => filter_ (data kv.2) = true) (map_to_list (active t))).
Proof.
  unfold get_filtered_flow_stats. rewrite order_all. assert (forall kv, kv ∈ map_to_list (active t) -> active t !! kv.1 = Some kv.2) as Hin
    by (intros [k e] Hk; by apply elem_of_map_to_list in Hk).
  revert Hin. generalize (map_to_list (active t)). intros l. induction l as [|[k e] l IH]; intros Hin; [done|]. cbn [map omap list_omap fst].
  assert (active t !! k = Some e) as -> by exact (Hin (k, e) (list_elem_of_here _ _)). cbn [snd]. rewrite filter_cons. cbn [snd]. specialize (IH (fun kv H => Hin kv (list_elem_of_further _ _ _ H))).
  destruct (filter_ (data e)); [rewrite decide_True by done|rewrite decide_False by done]; cbn [map snd]; by rewrite ?IH.
Qed.

Lemma matching_tracked sub now_us trackers : matching_flows order sub now_us trackers ≡ₚ tracked_entries sub now_us trackers.
Proof. unfold matching_flows, tracked_entries. induction trackers as [|t trackers IH]; [done|]. cbn [flat_map]. by rewrite filtered_entries, IH. Qed.

(** A query for flows gets, of all tracked flows of the direction and in the window it
    names, the ones with the most bytes, the largest first, as many as were asked for
    within the limit, and no flow that is left out is larger than one that is shown. *)
Theorem top_flows_exact sub now_us trackers :
  exists omitted, selection (result_limit (top_n sub) limits) (tracked_entries sub now_us trackers) (get_filtered_flows order limits sub now_us trackers) omitted.
Proof.
  unfold get_filtered_flows. destruct (largest_selects (result_limit (top_n sub) limits) (matching_flows order sub now_us trackers)) as (omitted & [H1 H2 H3 H4]).
  exists omitted. split; [by rewrite H1, matching_tracked|by rewrite H2, matching_tracked|exact H3|exact H4].
Qed.
End Shown.

(** ** Cached payloads *)

(** What is in the cache was computed at its time. *)
Definition cache_true (to_json : FlowPushPayload -> option string) (computed : FlowSnapshotKey -> Z -> FlowPushPayload -> Prop)
    (cache : gmap FlowSnapshotKey CachedFlowPayload) : Prop :=
  forall key c, cache !! key = Some c -> exists p, computed key (generated_at c) p /\ to_json p = Some (json c).

Section Cached.
Context `{Sel : SelectFlows} (order : gmap FlowKey TrackedFlow -> list FlowKey) (limits : FlowStatsLimits).

(** An answer is the text of a payload of the same subscription that is not older than the
    caller allows, and the cache stays true.  Entries may be evicted at any time. *)
Lemma payload_is_fresh to_json computed sub age now now_us now_ms trackers cache : cache_true to_json computed cache ->
  let p := get_flow_payload order limits sub now_us now_ms trackers in
  let computed' := fun k t q => computed k t q \/ (k = from_subscription sub /\ t = now /\ q = p) in
  let '(r, cache') := get_flow_payload_json order limits to_json sub age now now_us now_ms trackers cache in
  cache_true to_json computed' cache' /\
  match r with
  | Some text => exists at_ q, computed' (from_subscription sub) at_ q /\ to_json q = Some text /\ (at_ = now \/ saturating_sub now at_ <= age)
  | None => to_json p = None
  end.
Proof.
  intros Hc p computed'. unfold get_flow_payload_json. fold p.
  assert (cache_true to_json computed' cache) as Hc' by (intros key c Hk; destruct (Hc key c Hk) as (q & ? & ?); exists q; split; [by left|done]).
  assert (let '(r, cache') := match to_json p with None => (None, cache) | Some text => (Some text, <[from_subscription sub := mk_cached now text]> cache) end in
    cache_true to_json computed' cache' /\ match r with
      | Some text => exists at_ q, computed' (from_subscription sub) at_ q /\ to_json q = Some text /\ (at_ = now \/ saturating_sub now at_ <= age)
      | None => to_json p = None end) as Hfresh.
  { destruct (to_json p) as [text|] eqn:Hp; [|done]. split; [|exists now, p; split; [by right|by split; [|left]]].
    intros key c. destruct (decide (key = from_subscription sub)) as [->|Hne]; [|rewrite lookup_insert_ne by done; apply Hc'].
    rewrite lookup_insert_eq. intros [= <-]. exists p. split; [by right|done]. }
  destruct (cache !! from_subscription sub) as [c|] eqn:Hk; [|exact Hfresh].
  destruct (saturating_sub now (generated_at c) <=? age) eqn:Hage; [|exact Hfresh]. split; [exact Hc'|].
  destruct (Hc _ _ Hk) as (q & Hq & Hj). exists (generated_at c), q. split; [by left|]. split; [done|]. right. by apply Z.leb_le.
Qed.
Lemma evicted_cache_true to_json computed cache key : cache_true to_json computed cache -> cache_true to_json computed (delete key cache).
Proof. intros Hc k c [_ Hk]%lookup_delete_Some. by apply Hc. Qed.
End Cached.

(** ** What the numbers leave out *)

(** The packets shown of a flow are the samples kept of it, never more than the bound. *)
Lemma shown_packets_are_capped ps max_flows l k e : active (process_all ps (new_tracker max_flows l)) !! k = Some e ->
  fwd_packets (entry_of_flow (data e)) <= Z.of_nat (max_packets_per_direction l) /\ bwd_packets (entry_of_flow (data e)) <= Z.of_nat (max_packets_per_direction l).
Proof.
  assert (forall ps t, map_Forall (fun _ e => flow_bounded (FlowTracker.limits t) (data e)) (active t) ->
    map_Forall (fun _ e => flow_bounded (FlowTracker.limits t) (data e)) (active (process_all ps t))) as Hall.
  { clear. intros ps. unfold process_all. induction ps as [|p ps IH]; intros t Ht; [done|]. cbn [foldl].
    assert (FlowTracker.limits (process_packet p.1 p.2 t) = FlowTracker.limits t) as Hl by apply process_packet_limits.
    rewrite <- Hl. apply IH. rewrite Hl. by apply process_packet_bounded. }
  intros Hk. destruct (Hall ps (new_tracker max_flows l) (map_Forall_empty _) _ _ Hk) as (Hf & Hb & _). unfold side_bounded in *. cbn in *. lia.
Qed.

Definition sample_order (m : gmap FlowKey TrackedFlow) : list FlowKey := map fst (map_to_list m).
Definition sample_packet (port len t : Z) : UserPacket :=
  mk_user FlowTracker.V4 6 2 (replicate 16 1) (replicate 16 2) port 443 len 0 20 1000 t true.
Definition sample_flows : list FlowTracker :=
  [process_all [(sample_packet 1000 600 1, true); (sample_packet 1000 600 2, true); (sample_packet 1000 600 3, true); (sample_packet 2000 900 4, true)]
     (new_tracker 10 (mk_limits 2 10 5000000 4 1000 60000000 60000000))].

(** Three packets of 600 bytes are shown as two packets of 1800 bytes together, and the
    totals of a page are those of its flows only: two flows are tracked, one is counted. *)
Lemma payload_counts_shown_flows_only :
  let p := get_flow_payload sample_order (new_limits 100 100) (mk_subscription None (Some 10) (Some 1%nat) None) 5 0 sample_flows in
  map (fun f => (fwd_packets f, fwd_bytes f)) (payload_flows p) = [(2, 1800)] /\
  sum_total_flows (summary p) = 1%nat /\ ingress_bps_v4 (summary p) = 180 /\
  length (tracked_entries (mk_subscription None (Some 10) (Some 1%nat) None) 5 sample_flows) = 2%nat /\ total_packets (get_summary sample_flows) = 3.
Proof. vm_compute. repeat split. Qed.

Lemma top_flows_exact_witness :
  let sub := mk_subscription (Some Ingress) (Some 10) (Some 1%nat) None in
  exists omitted, selection 1 (tracked_entries sub 5 sample_flows) (get_filtered_flows sample_order (new_limits 100 100) sub 5 sample_flows) omitted.
Proof. exact (top_flows_exact sample_order (new_limits 100 100) (fun m => Permutation_refl _) (mk_subscription (Some Ingress) (Some 10) (Some 1%nat) None) 5 sample_flows). Defined.
